(* ===== verification/_CoqProject ===== *)
-Q . S2P
Prelude.v
GoValue.v
GoFloat.v
GoText.v
RuntimeConfig.v
PointStore.v
Easy521.v
SimServer.v
WorkerPlan.v
WorkerCodec.v
Worker.v
WorkerTrace.v
WorkerLoop.v
PlcContract.v
PlcSim.v
PlcSimProofs.v
StateModel.v
Storage.v
StorageProofs.v
StorageRuns.v
CommandQueue.v
QueueProofs.v
QueueLoop.v
ScanStore.v
PlcScan.v
PlcScanProofs.v
Hmi.v
HmiSteps.v
HmiProofs.v
HmiInv.v
HmiReach.v
HmiLive.v
HmiTable.v
HmiRoute.v
HmiRuns.v
GoTime.v
AlarmHistory.v
AlarmHistoryProofs.v
MqttPacket.v
MqttManager.v
MqttProofs.v
MqttSession.v
Interleave.v
Auth.v
AuthProofs.v
SshBootstrap.v
SshProofs.v
SshKeys.v
Maintenance.v
SimPoints.v
SimPointsProofs.v
Wifi.v
AgentHttp.v
Messages.v
AgentConfig.v
Startup.v
SimAccept.v
Programs.v
Adapter.v
AdapterProofs.v
WorkerSpec.v
ConfigSpec.v
DeviceSpec.v
SimSpec.v
StoreSpec.v
QueueSpec.v
QueueLoopSpec.v
HmiSpec.v
ScanSpec.v
HistorySpec.v
MqttSpec.v
AuthSpec.v
SshSpec.v
PointsSpec.v
EdgeSpec.v
MessagesSpec.v
StartupSpec.v
ProgramsSpec.v
SimAcceptSpec.v
ChainSpec.v
