(* ===== verification/Prelude.v ===== *)
(** * A verification library for the Block edge agent

    The Block is an edge controller for one PLC.  Its agent
    ([src/services/block-agent/]) loads a point table from the HMI, scans the
    PLC's registers over Modbus TCP, publishes values, executes the operator's
    commands one at a time and records their outcome in SQLite.  A simulated PLC
    ([internal/plcsim]) and a register simulator ([src/tools/plc-simulator])
    stand in for the machine.  This library translates the core of that program
    into executable definitions and proves what its parts promise.

    ** The parts and their files

    All Go paths are below [src/services/block-agent/internal/] unless given in
    full; every Go function keeps its name.

    - [Prelude]: results, the state-and-error monad of fallible Go code with its
      weakest-precondition rules, machine words and big-endian bytes, Go strings
      ([strings.TrimSpace], [strings.Split], [strconv.ParseUint]), time.
    - [GoValue], [GoFloat]: the dynamic values ([any]) a point can hold, on IEEE
      binary64/binary32 ([spec_float]), [reflect.DeepEqual], and the rounding
      lemmas behind the register codec.
    - [RuntimeConfig] (runtimeconfig/config.go): the point table and its checks.
    - [PointStore] (pointstore/store.go): the values of the current session.
    - [Easy521] (easy521/client.go): the Modbus TCP client over the class
      [Transport].
    - [SimServer] (tools/plc-simulator/server.go): the register simulator; its
      [sim_transport] instance is a network the client can be run against.
    - [WorkerPlan], [WorkerCodec], [Worker], [WorkerTrace], [WorkerLoop]
      (plcworker/worker.go): the scan plan, the register codec, scans and
      commands over the class [WorkerEnv] (adapter, publish, clock, handlers),
      the log of what they do to the outside, and the goroutine as a step
      relation between submitters, the canceller and [Run].
    - [PlcContract] (plccontract/types.go): the messages between the agent and
      its device; normalization and fingerprint of a command.
    - [PlcSim], [PlcSimProofs] (plcsim/engine.go): the simulated PLC with its
      state file, and its invariant.
    - [StateModel] (state/model.go): the HMI's view of a snapshot.
    - [Storage], [StorageProofs], [StorageRuns] (storage/store.go): the database
      as a value, transactions, what each operation may change, and histories of
      operations.
    - [CommandQueue], [QueueProofs] (command/queue.go): the command pipeline over
      the store and the class [DeviceEnv]; [QueueLoop], its callers and its
      goroutine as a step relation.
    - [ScanStore]: a scan seen by the point store.
    - [PlcScan], [PlcScanProofs] (agent/plc_scan.go): the search for PLCs in an
      address range: the addresses, the pool of probing goroutines as a step
      relation, the probe through the Modbus client, device ids.
    - [Hmi] (agent/runtime.go, plc_runtime.go, plc_endpoint.go and the alarm
      transitions of mqtt_runtime.go): the runtime session that the WebSocket
      clients share; one definition per critical section.  A goroutine that gives
      up the lock inside a handler continues from its [client_pc].
    - [HmiSteps]: the step relation that interleaves the clients, their writers,
      the workers, the scans, the waiting [finishPLCConnect]s and the server, and
      the invariant of its reachable states; [HmiProofs], [HmiInv], [HmiReach]
      prove it, [HmiLive] shows that handlers finish, [HmiTable] relates the
      point store to the session, [HmiRoute] the router's checks to the worker's
      and its alarm records to the alarms, and [HmiRuns] instantiates the
      worker with [WorkerLoop] and plays runs for the examples.
    - [GoTime]: the layout in which times are stored; their text sorts as the
      times do and parses back.
    - [AlarmHistory], [AlarmHistoryProofs] (storage/alarm_history_v2.go and
      alarm_history_v2_migration.go, alarmhistory/): the alarm history table with
      its cursor pages and its migration, and the service between it and its
      readers.
    - [MqttPacket] (mqttv2/session.go): the MQTT packets byte
      for byte.
    - [MqttManager] (mqttv2/manager.go, contract.go): the
      latest snapshot, the pending history requests and the connection state, as
      a step relation; [MqttSession] (mqttv2/session.go): one connection with its
      signals, over a network that may fail at any send; [MqttProofs] has the proofs
      of all three.
    - [GoText]: UTF-8, base64, hexadecimal and decimal texts, runs of character
      classes (the program's regular expressions), trimming.
    - [Interleave]: processes whose statements interleave over a shared state
      with one mutex, a server that runs any number of them, and the rely rule
      that proves an invariant of all its runs from each handler by itself.
    - [Auth], [AuthProofs] (auth/, storage/auth.go, agent/auth_http.go): local
      accounts: password hashes, the account tables, the service, the handlers.
    - [SshBootstrap], [SshProofs] (sshbootstrap/: token.go, contract.go, keys.go,
      nonce.go, certificate.go, requestid.go, config.go, handler.go): certificates
      for signed requests; [SshKeys] (key_handler.go): one-time keys for the super
      key, as a process over the handler's state and its clock.
    - [Maintenance] (maintenance/production.go, agent/maintenance_http.go): the
      production settings and their file.
    - [SimPoints], [SimPointsProofs] (tools/plc-simulator/points.go, web.go): the
      point table of the register simulator, over [SimServer].
    - [AgentConfig] (config/config.go): the two configuration files.
    - [Adapter], [AdapterProofs] (plcsim/server.go, adapter/): the simulated PLC
      behind its socket, the client, and the client as the queue's device.
    - [Wifi] (wifi/manager.go, agent/maintenance_http.go): NetworkManager profiles
      with the password in a temporary file, and what the HMI shows of the network.
    - [AgentHttp] (agent/runtime.go, auth_http.go, sshbootstrap/tls.go): loopback
      addresses, origins, routes and clean paths, static files, and the turns of
      the TLS listener.
    - [Messages] (agent/runtime.go, plc_runtime.go, runtimeconfig/config.go): from a
      parsed JSON value to the messages that [Hmi] handles.
    - [SimAccept] (tools/plc-simulator/server.go): the accept loop of the register
      simulator, its connections' goroutines and its shutdown.
    - [Startup] (socketperm/listen.go, storage/store.go, mqttv2/session.go,
      sshbootstrap/config.go, keys.go, nonce.go, handler.go, and
      cmd/ssh-bootstrapd/main.go): what is checked and made before a program
      serves.
    - [Programs] (cmd/block-agent, cmd/plc-simulator, cmd/block-e2e,
      plcsim/server.go, and main.go and web.go of tools/plc-simulator): the programs
      from their flags to their end, the simulated PLC's sockets, the register
      simulator's event stream, and a run of the end-to-end test.
    - [WorkerSpec], [ConfigSpec], [DeviceSpec], [SimSpec], [StoreSpec],
      [QueueSpec], [QueueLoopSpec], [HmiSpec], [ScanSpec], [HistorySpec], [MqttSpec], [AuthSpec],
      [SshSpec], [PointsSpec], [ChainSpec], [EdgeSpec], [MessagesSpec],
      [SimAcceptSpec], [StartupSpec], [ProgramsSpec]: the properties, one theorem per claim,
      with an instance of each at a concrete input.

    ** How the parts interact

    The HMI's table goes through [Normalize] to both the point store ([Replace])
    and a new worker ([NewWorker], [buildPlan]); the worker reads and writes
    through an adapter, which in production is the Modbus client, and publishes
    into the point store ([ScanStore]).  The command queue records a command in
    the store ([BeginCommand]), executes it on the device, reads the state back
    and completes the record ([CompleteCommand]).  Its device is the adapter
    ([plc_device]), whose requests the simulated PLC's handlers answer from the
    engine ([Adapter]); the engine's configuration comes from [LoadSimulator].
    The interfaces are type classes: [Transport] between client and network,
    [WorkerEnv] (with its laws [WorkerEnvLaws]) between worker and adapter,
    [DeviceEnv] between queue and device, [PlcWorker] between the runtime session
    and its worker, [FileSystem] between paths and files, [Rely] between a handler and the requests beside it.

    The runtime session ([Hmi]) is what composes the agent: [configure]
    normalizes the table, loads the remembered endpoint from the database
    ([LoadPLCEndpoint]) and installs the table in the point store; [connectPLC]
    builds a worker for the endpoint and hands it a publish callback into the
    point store; [handlePointCommand] checks a request against the table and
    submits it; [StopSession] takes everything down again.  The alarm changes of
    a snapshot become records of the alarm history ([recordAlarmChanges]); the
    history's service tells the MQTT manager about each record
    ([serviceAppend]), and the manager reads pages of the history through the
    class [HistoryReader] to answer requests from the broker.

    The maintenance endpoints stand beside the session: accounts and production
    settings are served by the same HTTP server, and the key handler of the SSH
    bootstrap checks its super key with the accounts' [VerifyPassword].  The point
    table of the register simulator reads and writes the registers that its Modbus
    server serves, and hears of every change ([serverChanged]).

    ** What is shown

    - The runtime session (C1, C13, C14, C16, C17, C27, C40): over all
      interleavings there is one owner with one session and one live worker,
      every handler can finish, only exact messages reach it and are read as they
      were written, the point store holds the session's table, it is told
      which commands the router lets through and the worker takes; and the end of one session can wipe
      the table of the next.
    - The worker (C2, C3, C4, C15, C28, C31): commands are admitted to a
      bounded FIFO and answered once, in order, in every interleaving; a stopping
      worker answers all of them; a scan covers exactly the readable points and
      publishes a complete snapshot whatever fails; a command performs exactly
      its action or nothing; integers survive the registers, and other numbers
      are rounded to binary32; the point store takes
      every scan.
    - The store and the queue (C5, C6, C8, C9, C18): one final outcome per
      command over all histories with failing statements, atomic completion, one
      meeting with the device; whatever callers do at once, the queue is a
      sequential run, and every call comes back.
    - Queue, adapter and simulated PLC together (C7, C20): an
      outcome is true of the PLC, a lost answer can be asked for again, and the
      adapter accepts all that the PLC shows.
    - The simulated PLC (C10): interlock and production account over
      all histories; further theorems of [SimSpec]: idempotent commands, restart.
    - Accounts (C11): the first setup makes one administrator
      however requests interleave; the new password is the only key; the timeouts
      that are accepted.
    - SSH bootstrap (C12, C23): a certificate costs a fresh
      signature over exactly this request, a token is granted once, one key is
      generated at a time.
    - The alarm history (C29): an append-only log with strictly
      increasing ids; a reader that follows the cursor sees every record once, in
      order, while records are appended; the migration loses no alarm.
    - MQTT (C32, C38): only current states of good quality are
      published, an observed one only if it differs from the last; every history request is answered in order, publications
      reach the handler in their order, however the stream is cut and whatever else
      it holds.
    - Client, register simulator and scan (C21, C30, C33): a server that leaves nothing open, a scan that answers for every host whatever
      the interleaving,
      the simulator's point table and its values; further theorems of
      [DeviceSpec], [ScanSpec] and [PointsSpec]: a failed operation drops its connection, reads and bit writes end to end, a
      found PLC that is remembered, points that survive their file.
    - Starting and the edge (C25, C26, C35, C36): the Wi-Fi password is in one
      private file only, which stays if it cannot be removed; a socket is for its group whatever fails; a bad MQTT
      certificate keeps the HMI out, and silent connections hold up the TLS
      listener.  Further theorems of [EdgeSpec] and [StartupSpec]: a
      profile holds exactly its settings, files never shadow the API, only the
      loopback address is accepted, a store that opens is ready, and the MQTT
      session connects only as its principal.
    - The programs (C19, C22, C24, C34, C37): what the agent's exit status tells; the simulated PLC's two
      sockets, each for its group if they are two files; the order in which a page hears of changes; the
      end-to-end test sends what the agent understands, in the order of its script,
      and never tells its password.  Further theorems of [ProgramsSpec]: what the
      agent has checked when it serves, and the registers as the flags assign them.
    - The point table (C39).

    Besides C40, C35, C19 and C36, the theorems [HmiSpec.two_scans_can_run_at_once],
    [AuthSpec.timeouts_are_taken_modulo_2_55],
    [WorkerSpec.integer_alarms_with_json_values_never_fire],
    [SimSpec.inspect_can_make_the_state_file_unusable],
    [MqttSpec.a_reconnect_can_leave_the_session_silent],
    [SshSpec.a_stale_clock_reading_replays_a_token],
    [SshSpec.guesses_at_once_escape_the_limit],
    [SshSpec.a_key_without_comment_is_refused],
    [HmiSpec.a_number_cannot_be_pulsed], [ProgramsSpec.one_path_in_two_spellings],
    [ProgramsSpec.another_answer_is_taken],
    [ProgramsSpec.a_press_without_its_release] and
    [ChainSpec.a_padded_path_is_accepted] state behaviour that is surely not meant:
    a second scan beside a running one, a timeout that is stored as another number, an alarm on an integer point that never
    fires, a state file that the simulator writes and then refuses, a reconnected
    session that announces nothing, a replayed token, a limit of guesses that
    parallel requests escape, a valid key that is refused, a pulse of a number that is
    accepted and never executed, a socket that replaces the other one, an answer to another
    request that the test takes for its own, an output that it leaves pressed, and a relative path
    taken for an absolute one.

    ** Bounds and fuel

    Unsigned Go integers are wrapped at their width ([wrap]), signed ones where
    the code converts ([swrap]); counters of the simulator are mathematical
    integers within the proved bounds.  [trim_fuel] uses the length of its
    string.  [produceLoop] has as fuel the number of items below the target;
    [SimSpec.production_stops_with_nothing_due] shows that the loop then ends with
    nothing due.  [persistLoop] has as budget
    the number of failed attempts that fit into the operation's deadline; the
    theorems hold for every budget.  Times are nanoseconds, the zero time is
    [zeroTime].  The goroutines of the runtime and of a
    scan are step relations without fuel; that they come to an end is shown by a
    rank (C13) and by a run that exists from every state (C33).  A packet's length
    is written in at most ten rounds, more than 2^63 needs, and the reader stops
    after four bytes as the code does.  A reader of the history takes one page
    per entry of its schedule; C29 says how many it needs.

    ** What is a parameter

    The network, the clock, random session ids, the failure of a database
    statement or of the state file, sha256 over JSON, the formatting of a quoted
    string, [url.Parse], [net.ParseIP], RFC 3339 parsing and the order in which
    Go enumerates a map are arguments; theorems hold for all of them, or name the
    law they need.  So are JSON encoding and decoding of stored data (with the law
    that decoding inverts encoding), the fingerprint of a history request, and
    the arrival of bytes and failures on the broker's connection.

    Cryptography is a parameter as well: argon2, sha256, [ed25519.Verify] and
    [ssh-keygen]; so are media types, [strings.EqualFold], [time.ParseDuration],
    and the simulator's decoding of a command that the adapter encodes.  The reading of
    a text as a JSON value is one, and so is its float64 parsing; what
    [encoding/json] does with the value is written out ([Messages]).  [nmcli], the
    SQL of the migrations, X.509, PEM, the group database, the file that a path
    names ([FileSystem]: [.], [..] and links), [http.FileServer] and
    the outcome of every system call of the start-up are parameters too.

    ** What is not modelled, and the plan

    Not modelled: JSON and SQL text, dialing and TLS records, which are outcomes;
    net/http and the WebSocket framing, which the sources only call; log texts, the
    embedded page of the register simulator and the status page of the SSH
    bootstrap, which are data; the HTTPS client for development
    (tools/strict-local-https-client.go), a single request; the HMI's front end,
    which is no Go.  Of the runtime session, the
    unused [UpdateConfirmed]. *)

From Stdlib Require Import Ascii String.
From stdpp Require Export base option list strings gmap numbers sorting.
From Stdlib Require Export ZArith Lia.

#[global] Open Scope Z_scope.

(** ** Results and the sequencing of fallible Go code

    A Go function returning [(T, error)] is a function into [result E T]: every
    caller in the program drops the value when the error is not nil. *)

Inductive result (E A : Type) : Type :=
| Ok (a : A)
| Err (e : E).
Arguments Ok {E A} a.
Arguments Err {E A} e.

Definition rbind {E A B} (r : result E A) (k : A → result E B) : result E B :=
  match r with Ok a => k a | Err e => Err e end.

Definition is_ok {E A} (r : result E A) : bool :=
  match r with Ok _ => true | Err _ => false end.

Declare Scope go_scope.
Delimit Scope go_scope with go.

Notation "'let?' x ':=' r 'in' k" := (rbind r (fun x => k))
  (at level 10, x name, r at level 100, k at level 200) : go_scope.

(** Code that reads and writes a state and may fail; the state reached so far is
    kept when an error is returned, as in Go. *)

Definition GoM (S E A : Type) : Type := S → result E A * S.

Definition gret {S E A} (a : A) : GoM S E A := fun s => (Ok a, s).
Definition gfail {S E A} (e : E) : GoM S E A := fun s => (Err e, s).
Definition gbind {S E A B} (m : GoM S E A) (k : A → GoM S E B) : GoM S E B :=
  fun s => match m s with
           | (Ok a, s') => k a s'
           | (Err e, s') => (Err e, s')
           end.
(** [attempt m] hands the outcome of [m] to code that inspects the error. *)
Definition attempt {S E E' A} (m : GoM S E A) : GoM S E' (result E A) :=
  fun s => let '(r, s') := m s in (Ok r, s').
Definition gget {S E} : GoM S E S := fun s => (Ok s, s).
Definition gmod {S E} (f : S → S) : GoM S E unit := fun s => (Ok tt, f s).
Definition gput {S E} (s' : S) : GoM S E unit := fun _ => (Ok tt, s').
Definition glift {S E A} (r : result E A) : GoM S E A := fun s => (r, s).

Notation "'do!' x <- m ; k" := (gbind m (fun x => k))
  (at level 10, x name, m at level 100, k at level 200) : go_scope.
Notation "'run!' m ; k" := (gbind m (fun _ => k))
  (at level 10, m at level 100, k at level 200) : go_scope.

#[global] Open Scope go_scope.

(** What a program does from a state: a weakest precondition over its outcome
    and the state it leaves, with one rule per construct. *)
Definition wp {S E A} (m : GoM S E A) (Q : result E A → S → Prop) (s : S) : Prop :=
  Q (m s).1 (m s).2.

Lemma wp_iff {S E A} (m : GoM S E A) Q s :
  wp m Q s ↔ ∀ r s', m s = (r, s') → Q r s'.
Proof.
  unfold wp. destruct (m s) as [r s']; simpl. split; [by intros ??? [= <- <-]|eauto].
Qed.

Lemma wp_mono {S E A} (m : GoM S E A) (Q Q' : result E A → S → Prop) s :
  wp m Q s → (∀ r s', Q r s' → Q' r s') → wp m Q' s.
Proof. unfold wp. eauto. Qed.

Lemma wp_ret {S E A} (a : A) (Q : result E A → S → Prop) s : Q (Ok a) s → wp (gret a) Q s.
Proof. done. Qed.

Lemma wp_fail {S E A} (e : E) (Q : result E A → S → Prop) s : Q (Err e) s → wp (gfail e) Q s.
Proof. done. Qed.

Lemma wp_bind {S E A B} (m : GoM S E A) (k : A → GoM S E B) Q s :
  wp m (fun r s' => match r with Ok a => wp (k a) Q s' | Err e => Q (Err e) s' end) s →
  wp (gbind m k) Q s.
Proof. unfold wp, gbind. by destruct (m s) as [[a|e] s']. Qed.

Lemma wp_attempt {S E E' A} (m : GoM S E A) (Q : result E' (result E A) → S → Prop) s :
  wp m (fun r s' => Q (Ok r) s') s → wp (attempt m) Q s.
Proof. unfold wp, attempt. by destruct (m s) as [r s']. Qed.

Notation "a =s b" := (String.eqb a b) (at level 70) : go_scope.
Notation "a <>s b" := (negb (String.eqb a b)) (at level 70) : go_scope.

(** ** Machine integers: a [w]-bit integer is a [Z] with the wrap written out *)

Definition wrap (w z : Z) : Z := z mod 2 ^ w.
Definition swrap (w z : Z) : Z := (z + 2 ^ (w - 1)) mod 2 ^ w - 2 ^ (w - 1).

Abbreviation u8 := (wrap 8).
Abbreviation u16 := (wrap 16).
Abbreviation u32 := (wrap 32).
Abbreviation u64 := (wrap 64).
Abbreviation i16 := (swrap 16).
Abbreviation i32 := (swrap 32).
Abbreviation i64 := (swrap 64).

Definition in_range (w z : Z) : Prop := 0 ≤ z < 2 ^ w.

#[global] Instance in_range_dec w z : Decision (in_range w z).
Proof. unfold in_range. apply _. Defined.

Lemma wrap_range w z : 0 ≤ w → in_range w (wrap w z).
Proof. intros ?. unfold wrap, in_range. apply Z.mod_pos_bound. lia. Qed.

Lemma wrap_id w z : in_range w z → wrap w z = z.
Proof. intros [? ?]. by apply Z.mod_small. Qed.

Lemma wrap_wrap w z : 0 ≤ w → wrap w (wrap w z) = wrap w z.
Proof. intros ?. apply wrap_id. by apply wrap_range. Qed.

Lemma swrap_range w z : 0 < w → - 2 ^ (w - 1) ≤ swrap w z < 2 ^ (w - 1).
Proof.
  intros ?. unfold swrap.
  pose proof (Z.mod_pos_bound (z + 2 ^ (w - 1)) (2 ^ w) ltac:(lia)).
  assert (2 ^ w = 2 * 2 ^ (w - 1)) as ?.
  { replace w with (Z.succ (w - 1)) at 1 by lia. apply Z.pow_succ_r. lia. }
  lia.
Qed.

Lemma swrap_id w z : 0 < w → - 2 ^ (w - 1) ≤ z < 2 ^ (w - 1) → swrap w z = z.
Proof.
  intros ? ?. unfold swrap.
  assert (2 ^ w = 2 * 2 ^ (w - 1)) as ?.
  { replace w with (Z.succ (w - 1)) at 1 by lia. apply Z.pow_succ_r. lia. }
  rewrite Z.mod_small; lia.
Qed.

(** Reinterpreting the low [w] bits as signed undoes reinterpreting them as unsigned. *)
Lemma swrap_wrap w z : 0 < w → swrap w (wrap w z) = swrap w z.
Proof.
  intros ?. unfold swrap, wrap. f_equal. by rewrite Zplus_mod_idemp_l.
Qed.

(** ** Bytes *)

(** [binary.BigEndian.PutUint16] and [Uint16]. *)
Definition putU16 (v : Z) : list Z := [Z.land (Z.shiftr v 8) 255; Z.land v 255].
Definition getU16 (hi lo : Z) : Z := Z.lor (Z.shiftl hi 8) lo.

Definition byte_ok (b : Z) : Prop := in_range 8 b.

Lemma land_255 z : Z.land z 255 = z mod 256.
Proof. change 255 with (Z.ones 8). by rewrite Z.land_ones. Qed.

Lemma land_shiftl_low hi lo n :
  0 ≤ n → 0 ≤ lo < 2 ^ n → Z.land (Z.shiftl hi n) lo = 0.
Proof.
  intros Hn Hlo. apply Z.bits_inj'; intros i Hi. rewrite Z.land_spec, Z.bits_0.
  destruct (decide (i < n)); [by rewrite Z.shiftl_spec_low|].
  destruct (decide (lo = 0)) as [->|]; [by rewrite Z.bits_0, andb_false_r|].
  rewrite (Z.bits_above_log2 lo i); [by rewrite andb_false_r | lia |].
  apply Z.log2_lt_pow2; [lia|]. eapply Z.lt_le_trans; [apply Hlo|].
  apply Z.pow_le_mono_r; lia.
Qed.

Lemma lor_shiftl_add hi lo n :
  0 ≤ n → 0 ≤ lo < 2 ^ n → Z.lor (Z.shiftl hi n) lo = hi * 2 ^ n + lo.
Proof.
  intros Hn Hlo. rewrite <-Z.shiftl_mul_pow2 by lia.
  rewrite Z.add_nocarry_lxor, Z.lxor_lor; [done|..]; by apply land_shiftl_low.
Qed.

Lemma getU16_spec hi lo : byte_ok lo → getU16 hi lo = hi * 256 + lo.
Proof. intros ?. unfold getU16. by rewrite lor_shiftl_add. Qed.

Lemma putU16_spec v : in_range 16 v → putU16 v = [v / 256; v mod 256].
Proof.
  intros [??]. unfold putU16. rewrite !land_255, Z.shiftr_div_pow2 by lia.
  f_equal. change (2 ^ 8) with 256. apply Z.mod_small. split.
  - apply Z.div_pos; lia.
  - apply Z.div_lt_upper_bound; lia.
Qed.

Lemma getU16_putU16 v :
  in_range 16 v →
  getU16 (Z.land (Z.shiftr v 8) 255) (Z.land v 255) = v.
Proof.
  intros Hv. pose proof (putU16_spec v Hv) as Hp. unfold putU16 in Hp.
  injection Hp as -> ->. rewrite getU16_spec.
  - pose proof (Z.div_mod v 256). lia.
  - split; apply Z.mod_pos_bound; lia.
Qed.

Lemma putU16_getU16 hi lo : byte_ok hi → byte_ok lo → putU16 (getU16 hi lo) = [hi; lo].
Proof.
  intros [??] Hlo. pose proof Hlo as [??]. change (2 ^ 8) with 256 in *.
  rewrite getU16_spec by done. rewrite putU16_spec.
  - rewrite Z.div_add_l, Z.div_small by lia.
    rewrite (Z.add_comm _ lo), Z_mod_plus_full, Z.mod_small by lia. repeat f_equal; lia.
  - unfold in_range. change (2 ^ 16) with 65536. lia.
Qed.

Lemma getU16_range hi lo : byte_ok hi → byte_ok lo → in_range 16 (getU16 hi lo).
Proof.
  intros [??] Hlo. pose proof Hlo as [??]. rewrite getU16_spec by done.
  change (2 ^ 8) with 256 in *. unfold in_range. change (2 ^ 16) with 65536. lia.
Qed.

(** ** Strings: a Go string is its bytes *)

Definition bytes_str (l : list nat) : string := string_of_list_ascii (map ascii_of_nat l).

(** The UTF-8 encodings of [unicode.IsSpace]. *)
Definition space_runes : list string :=
  map bytes_str
    [[9]; [10]; [11]; [12]; [13]; [32]; [194; 133]; [194; 160]; [225; 154; 128];
     [226; 128; 128]; [226; 128; 129]; [226; 128; 130]; [226; 128; 131];
     [226; 128; 132]; [226; 128; 133]; [226; 128; 134]; [226; 128; 135];
     [226; 128; 136]; [226; 128; 137]; [226; 128; 138]; [226; 128; 168];
     [226; 128; 169]; [226; 128; 175]; [226; 129; 159]; [227; 128; 128]]%nat.

Definition prefix_len (runes : list string) (s : string) : option nat :=
  match find (fun r => String.prefix r s) runes with
  | Some r => Some (String.length r)
  | None => None
  end.

Fixpoint drop_str (n : nat) (s : string) : string :=
  match n, s with
  | S n', String _ s' => drop_str n' s'
  | _, _ => s
  end.

(** Trimming loop over a list of encodings; one rune goes per round. *)
Fixpoint trim_fuel (runes : list string) (fuel : nat) (s : string) : string :=
  match fuel with
  | O => s
  | S fuel' => match prefix_len runes s with
               | Some n => trim_fuel runes fuel' (drop_str n s)
               | None => s
               end
  end.

Definition trim_left (runes : list string) (s : string) : string :=
  trim_fuel runes (String.length s) s.

(** [strings.TrimSpace]. *)
Definition trimSpace (s : string) : string :=
  String.rev (trim_left (map String.rev space_runes)
                (String.rev (trim_left space_runes s))).

(** [strings.HasPrefix], [strings.Contains] of one character, [strings.Split] on one. *)
Definition hasPrefix (s p : string) : bool := String.prefix p s.

Fixpoint containsChar (s : string) (c : ascii) : bool :=
  match s with
  | EmptyString => false
  | String a s' => Ascii.eqb a c || containsChar s' c
  end.

Fixpoint split_on (c : ascii) (cur : string) (s : string) : list string :=
  match s with
  | EmptyString => [String.rev cur]
  | String a s' => if Ascii.eqb a c then String.rev cur :: split_on c EmptyString s'
                   else split_on c (String a cur) s'
  end.
Definition splitChar (s : string) (c : ascii) : list string := split_on c EmptyString s.

Definition digit_val (a : ascii) : option Z :=
  let n := Z.of_nat (nat_of_ascii a) in
  if (48 <=? n) && (n <=? 57) then Some (n - 48) else None.

Fixpoint digits_val (acc : Z) (s : string) : option Z :=
  match s with
  | EmptyString => Some acc
  | String a s' => match digit_val a with
                   | Some d => digits_val (acc * 10 + d) s'
                   | None => None
                   end
  end.

(** [strconv.ParseUint(s, 10, bits)]: digits only, not empty, in range. *)
Definition parseUint (s : string) (bits : Z) : option Z :=
  match s with
  | EmptyString => None
  | _ => match digits_val 0 s with
         | Some v => if v <? 2 ^ bits then Some v else None
         | None => None
         end
  end.

Lemma digits_val_ge s acc v : 0 ≤ acc → digits_val acc s = Some v → 0 ≤ v.
Proof.
  revert acc. induction s as [|a s IH]; intros acc Hacc; simpl.
  - by intros [= <-].
  - unfold digit_val. case_match eqn:E; [|done]. case_match; [|done].
    apply IH. simplify_eq. lia.
Qed.

Lemma parseUint_range s bits v : parseUint s bits = Some v → in_range bits v.
Proof.
  unfold parseUint. destruct s; [done|]. case_match eqn:E; [|done].
  case_match; [|done]. intros [= <-]. split; [|lia].
  by eapply digits_val_ge; [|exact E].
Qed.

(** ** Instants and durations

    An instant is its Unix nanoseconds; [zeroTime] is Go's zero [time.Time]
    (year 1), and a duration is a signed 64-bit number of nanoseconds, to
    which [Time.Sub] saturates. *)

Definition zeroTime : Z := -62135596800 * 1000000000.
Definition isZero (t : Z) : bool := t =? zeroTime.
Definition minDuration : Z := - 2 ^ 63.
Definition maxDuration : Z := 2 ^ 63 - 1.
Definition timeSub (a b : Z) : Z := Z.max minDuration (Z.min maxDuration (a - b)).
Definition millisecond : Z := 1000000.
Definition second : Z := 1000000000.

(** A fact about all numbers below [n], by evaluation. *)
Lemma below_all (n : nat) (f : Z → bool) z :
  forallb f (map Z.of_nat (seq 0 n)) = true → 0 ≤ z < Z.of_nat n → f z = true.
Proof.
  intros Hf Hz. apply (proj1 (forallb_forall _ _) Hf). apply in_map_iff. exists (Z.to_nat z).
  rewrite in_seq. lia.
Qed.

(** ** Proof automation *)

(** Splits the boolean conditions of the handlers into arithmetic facts. *)
Ltac propify :=
  repeat match goal with
  | H : _ && _ = true |- _ => apply andb_true_iff in H as [??]
  | H : _ || _ = false |- _ => apply orb_false_iff in H as [??]
  | H : negb _ = true |- _ => apply negb_true_iff in H
  | H : negb _ = false |- _ => apply negb_false_iff in H
  | H : (_ =? _) = true |- _ => apply Z.eqb_eq in H
  | H : (_ =? _) = false |- _ => apply Z.eqb_neq in H
  | H : (_ <? _) = true |- _ => apply Z.ltb_lt in H
  | H : (_ <? _) = false |- _ => apply Z.ltb_ge in H
  | H : (_ <=? _) = true |- _ => apply Z.leb_le in H
  | H : (_ <=? _) = false |- _ => apply Z.leb_gt in H
  | H : String.eqb _ _ = true |- _ => apply String.eqb_eq in H
  | H : String.eqb _ _ = false |- _ => apply String.eqb_neq in H
  | H : bool_decide _ = true |- _ => apply bool_decide_eq_true in H
  | H : bool_decide _ = false |- _ => apply bool_decide_eq_false in H
  end.

(** Follows every branch of a handler whose outcome is in a hypothesis. *)
Ltac branches H :=
  repeat (case_match; try discriminate H); simplify_eq; propify.

Lemma str_eqb_refl (s : string) : (s =s s) = true.
Proof. apply String.eqb_refl. Qed.

(** Runs a [GoM] program symbolically up to its next unknown operation. *)
Ltac wp_steps :=
  repeat (first [ apply wp_bind | apply wp_ret | apply wp_fail | apply wp_attempt ]; cbn beta iota).

Create HintDb block.
Create Rewrite HintDb block.
#[export] Hint Rewrite str_eqb_refl Z.eqb_refl Z.ltb_irrefl Z.leb_refl : block.
#[export] Hint Resolve wrap_range getU16_range parseUint_range : block.
