(* ===== verification/GoValue.v ===== *)
(** * Go's dynamic values ([any]) and the float conversions the agent performs

    A value held in an [any] by the point table, the point store and the PLC
    worker: [nil], the scalars that [encoding/json] and the register decoder
    produce, and the other integer kinds the type switches list.  JSON arrays
    and objects are one constructor carrying their text: every type switch of
    the modelled code sends both to its default case.  [json.Number] does not
    occur, since no decoder of the program calls [UseNumber].

    Floats are the Standard Library's executable IEEE 754 model: binary64 is
    [spec_float] at precision 53 and exponent bound 1024, binary32 at 24 and
    128. *)

From S2P Require Import Prelude.
From Stdlib Require Export SpecFloat.

(** ** Floats *)

Abbreviation prec64 := 53.
Abbreviation emax64 := 1024.
Abbreviation prec32 := 24.
Abbreviation emax32 := 128.

#[global] Instance spec_float_eq_dec : EqDecision spec_float.
Proof. solve_decision. Defined.

(** [float64(z)] for an integer [z]. *)
Definition f64_of_Z (z : Z) : spec_float := binary_normalize prec64 emax64 z 0 false.

(** [float32(f)] and [float64(f)] for a float [f] of the other width. *)
Definition f32_of_f64 (f : spec_float) : spec_float :=
  match f with
  | S754_finite s m e => binary_round prec32 emax32 s m e
  | _ => f
  end.
Definition f64_of_f32 (f : spec_float) : spec_float :=
  match f with
  | S754_finite s m e => binary_round prec64 emax64 s m e
  | _ => f
  end.

(** The integer part, rounding toward zero: conversion of a finite float to an
    integer type that can hold it. *)
Definition trunc_Z (f : spec_float) : Z :=
  match f with
  | S754_finite s m e =>
      let a := if 0 <=? e then Z.shiftl (Zpos m) e else Z.shiftr (Zpos m) (- e) in
      if s then - a else a
  | _ => 0
  end.

(** [math.Trunc]. *)
Definition f64_trunc (f : spec_float) : spec_float :=
  match f with
  | S754_finite s _ _ => binary_normalize prec64 emax64 (trunc_Z f) 0 s
  | _ => f
  end.

Definition f64_eqb := SFeqb.
Definition f64_ltb := SFltb.
Definition f64_leb := SFleb.
Definition f64_isNaN (f : spec_float) : bool :=
  match f with S754_nan => true | _ => false end.
Definition f64_isInf (f : spec_float) : bool :=
  match f with S754_infinity _ => true | _ => false end.

(** [math.MaxFloat32], as a float64. *)
Definition maxFloat32 : spec_float := f64_of_f32 (SFmax_float prec32 emax32).

(** [math.Float32bits] and [math.Float32frombits]; the model has one NaN. *)
Definition bits_of_f32 (f : spec_float) : Z :=
  match f with
  | S754_zero s => if s then 2 ^ 31 else 0
  | S754_infinity s => (if s then 2 ^ 31 else 0) + 255 * 2 ^ 23
  | S754_nan => 255 * 2 ^ 23 + 2 ^ 22
  | S754_finite s m e =>
      (if s then 2 ^ 31 else 0) +
      (if Zpos m <? 2 ^ 23 then Zpos m else (e + 150) * 2 ^ 23 + (Zpos m - 2 ^ 23))
  end.

Definition f32_of_bits (b : Z) : spec_float :=
  let s := Z.testbit b 31 in
  let ex := Z.land (Z.shiftr b 23) 255 in
  let mant := Z.land b (2 ^ 23 - 1) in
  if ex =? 0 then
    match mant with Zpos m => S754_finite s m (-149) | _ => S754_zero s end
  else if ex =? 255 then
    (if mant =? 0 then S754_infinity s else S754_nan)
  else
    match mant + 2 ^ 23 with Zpos m => S754_finite s m (ex - 150) | _ => S754_nan end.

(** ** Dynamic values *)

Inductive int_kind : Type :=
| KInt | KInt8 | KInt16 | KInt32 | KInt64
| KUint | KUint8 | KUint16 | KUint32 | KUint64.

#[global] Instance int_kind_eq_dec : EqDecision int_kind.
Proof. solve_decision. Defined.

Inductive goval : Type :=
| VNil
| VBool (b : bool)
| VInt (k : int_kind) (z : Z)
| VFloat32 (f : spec_float)
| VFloat64 (f : spec_float)
| VString (s : string)
| VComposite (json : string).

#[global] Instance goval_eq_dec : EqDecision goval.
Proof. solve_decision. Defined.

(** [reflect.DeepEqual] on two such values: the dynamic types must agree, and
    floats compare with [==].  The program never compares two composites. *)
Definition deepEqual (a b : goval) : bool :=
  match a, b with
  | VNil, VNil => true
  | VBool x, VBool y => Bool.eqb x y
  | VInt k x, VInt k' y => bool_decide (k = k') && (x =? y)
  | VFloat32 x, VFloat32 y => f64_eqb x y
  | VFloat64 x, VFloat64 y => f64_eqb x y
  | VString x, VString y => x =s y
  | VComposite x, VComposite y => x =s y
  | _, _ => false
  end.

Definition as_bool (v : goval) : option bool :=
  match v with VBool b => Some b | _ => None end.

Lemma deepEqual_bool x y : deepEqual (VBool x) (VBool y) = true ↔ x = y.
Proof. simpl. apply Bool.eqb_true_iff. Qed.

Lemma SFeqb_sym x y : SFeqb x y = SFeqb y x.
Proof.
  unfold SFeqb, SFcompare.
  destruct x as [[]|[]| |[] m e], y as [[]|[]| |[] m' e']; try done.
  all: rewrite (Z.compare_antisym e e'); destruct (e ?= e')%Z eqn:E; simpl; try done.
  all: change (Pos.compare_cont Eq m m') with (Pos.compare m m').
  all: change (Pos.compare_cont Eq m' m) with (Pos.compare m' m).
  all: rewrite (Pos.compare_antisym m m'); by destruct (m ?= m')%positive.
Qed.

Lemma deepEqual_sym a b : deepEqual a b = deepEqual b a.
Proof.
  destruct a, b; simpl; try done.
  - by destruct b, b0.
  - rewrite Z.eqb_sym. f_equal. apply bool_decide_ext. naive_solver.
  - apply SFeqb_sym.
  - apply SFeqb_sym.
  - apply String.eqb_sym.
  - apply String.eqb_sym.
Qed.
