(* ===== verification/GoFloat.v ===== *)
(** * Floats that hold integers and binary32 values exactly

    Facts about the Standard Library's [spec_float] operations that the
    program's number checks and register codec rest on: integers below 2^53
    convert to binary64 exactly and compare as integers, [isInteger] together
    with a range means what it says, and a binary32 value survives the way
    through binary64 and through its 32 bits. *)

From S2P Require Import Prelude GoValue.

(** ** Digits and shifts *)

Lemma digits_log2 m : Zpos (digits2_pos m) = Z.log2 (Zpos m) + 1.
Proof.
  induction m as [m IH|m IH|]; cbn [digits2_pos].
  - rewrite Pos2Z.inj_succ, IH. change (Zpos (xI m)) with (2 * Zpos m + 1).
    rewrite Z.log2_succ_double by lia. lia.
  - rewrite Pos2Z.inj_succ, IH. change (Zpos (xO m)) with (2 * Zpos m).
    rewrite Z.log2_double by lia. lia.
  - done.
Qed.

Lemma iter_xO m d : Zpos (Pos.iter xO m d) = Zpos m * 2 ^ Zpos d.
Proof.
  induction d as [|d IH] using Pos.peano_ind; [cbn [Pos.iter]; lia|].
  rewrite Pos.iter_succ, Pos2Z.inj_succ, Z.pow_succ_r by lia.
  rewrite Pos2Z.inj_xO, IH. lia.
Qed.

Lemma iter_pos_eq {A} (f : A → A) n x : iter_pos f n x = Pos.iter f x n.
Proof.
  revert x. induction n as [n IH|n IH|]; intros x; cbn [iter_pos Pos.iter].
  - by rewrite !IH, <-!Pos.iter_swap.
  - by rewrite !IH.
  - done.
Qed.

Lemma log2_mul_pow2' m k : 0 ≤ k → Z.log2 (Zpos m * 2 ^ k) = Z.log2 (Zpos m) + k.
Proof. intros ?. rewrite Z.log2_mul_pow2 by lia. lia. Qed.

Lemma shr_exact m k :
  iter_pos shr_1 k (Build_shr_record (Zpos (Pos.iter xO m k)) false false) =
    Build_shr_record (Zpos m) false false.
Proof.
  rewrite iter_pos_eq. induction k as [|k IH] using Pos.peano_ind; [done|].
  rewrite !Pos.iter_succ, <-Pos.iter_swap. done.
Qed.

(** ** Rounding that is exact *)

Section rounding.
Variables (prec emax : Z) (s : bool).

Lemma round_aux_exact m e :
  fexp prec emax (Z.log2 (Zpos m) + 1 + e) = e → e ≤ emax - prec →
  binary_round_aux prec emax s (Zpos m) e loc_Exact = S754_finite s m e.
Proof.
  intros He Hm. unfold binary_round_aux, shr_fexp. cbn [Zdigits2].
  rewrite digits_log2, He, Z.sub_diag. cbn [shr shr_record_of_loc shr_m loc_of_shr_record
    round_nearest_even Zdigits2].
  rewrite digits_log2, He, Z.sub_diag. cbn [shr shr_record_of_loc shr_m].
  by rewrite (proj2 (Z.leb_le _ _)).
Qed.

(** The mantissa is widened. *)
Lemma round_widen m e e' :
  fexp prec emax (Z.log2 (Zpos m) + 1 + e) = e' → e' ≤ e → e' ≤ emax - prec →
  ∃ m', Zpos m' = Zpos m * 2 ^ (e - e') ∧ binary_round prec emax s m e = S754_finite s m' e'.
Proof.
  intros He Hle Hm. unfold binary_round. rewrite digits_log2, He. unfold shl_align.
  destruct (e' - e) as [|d|d] eqn:E; [|lia|].
  - exists m. assert (e' = e) as -> by lia. rewrite Z.sub_diag, Z.mul_1_r. split; [done|].
    by apply round_aux_exact.
  - exists (Pos.iter xO m d). replace (e - e') with (Zpos d) by lia.
    split; [apply iter_xO|]. apply round_aux_exact; [|done].
    rewrite iter_xO, log2_mul_pow2' by lia. rewrite <-He. f_equal. lia.
Qed.

(** The dropped bits are zero. *)
Lemma round_narrow m k e :
  fexp prec emax (Z.log2 (Zpos m) + 1 + (e + Zpos k)) = e + Zpos k → e + Zpos k ≤ emax - prec →
  binary_round prec emax s (Pos.iter xO m k) e = S754_finite s m (e + Zpos k).
Proof.
  intros He Hm. unfold binary_round.
  assert (Z.log2 (Zpos (Pos.iter xO m k)) + 1 + e = Z.log2 (Zpos m) + 1 + (e + Zpos k)) as Hd
    by (rewrite iter_xO, log2_mul_pow2' by lia; lia).
  rewrite digits_log2, Hd, He. unfold shl_align.
  replace (e + Zpos k - e) with (Zpos k) by lia. cbv iota.
  unfold binary_round_aux, shr_fexp. cbn [Zdigits2].
  rewrite digits_log2, Hd, He. replace (e + Zpos k - e) with (Zpos k) by lia.
  cbn [shr shr_record_of_loc]. rewrite shr_exact.
  cbn [shr_m loc_of_shr_record round_nearest_even Zdigits2].
  rewrite digits_log2, He, Z.sub_diag. cbn [shr shr_record_of_loc shr_m].
  by rewrite (proj2 (Z.leb_le _ _)).
Qed.
End rounding.

(** ** Integers in binary64 *)

Lemma fexp64_small m :
  Zpos m < 2 ^ 53 → fexp prec64 emax64 (Z.log2 (Zpos m) + 1 + 0) = Z.log2 (Zpos m) - 52 ∧
                    0 ≤ Z.log2 (Zpos m) ≤ 52.
Proof.
  intros Hm. pose proof (Z.log2_nonneg (Zpos m)).
  assert (Z.log2 (Zpos m) < 53) by (apply Z.log2_lt_pow2; lia).
  unfold fexp, emin. lia.
Qed.

Lemma f64_of_pos (s : bool) m :
  Zpos m < 2 ^ 53 →
  ∃ m', Zpos m' = Zpos m * 2 ^ (52 - Z.log2 (Zpos m)) ∧
        f64_of_Z (if s then Zneg m else Zpos m) = S754_finite s m' (Z.log2 (Zpos m) - 52).
Proof.
  intros Hm. destruct (fexp64_small m Hm) as [He ?].
  destruct (round_widen prec64 emax64 s m 0 _ He) as (m' & Hm' & Hr); [lia..|].
  exists m'. rewrite Hm'. split; [f_equal; f_equal; lia|].
  rewrite <-Hr. by destruct s.
Qed.

Lemma trunc_of_pos s m m' :
  Zpos m < 2 ^ 53 → Zpos m' = Zpos m * 2 ^ (52 - Z.log2 (Zpos m)) →
  trunc_Z (S754_finite s m' (Z.log2 (Zpos m) - 52)) = if s then Zneg m else Zpos m.
Proof.
  intros Hm Hm'. destruct (fexp64_small m Hm) as [_ ?]. unfold trunc_Z.
  assert ((if 0 <=? Z.log2 (Zpos m) - 52 then Z.shiftl (Zpos m') (Z.log2 (Zpos m) - 52)
           else Z.shiftr (Zpos m') (- (Z.log2 (Zpos m) - 52))) = Zpos m) as ->.
  { rewrite Hm'. case_match; propify.
    - replace (Z.log2 (Zpos m)) with 52 by lia. rewrite Z.sub_diag, Z.shiftl_0_r. lia.
    - rewrite Z.shiftr_div_pow2 by lia. replace (- (Z.log2 (Zpos m) - 52)) with (52 - Z.log2 (Zpos m)) by lia.
      apply Z.div_mul. lia. }
  by destruct s.
Qed.

Definition exact64 (z : Z) : Prop := - 2 ^ 53 < z < 2 ^ 53.

Lemma trunc_f64_of_Z z : exact64 z → trunc_Z (f64_of_Z z) = z.
Proof.
  intros [??]. destruct z as [|m|m]; [done|..].
  - destruct (f64_of_pos false m) as (m' & Hm' & ->); [lia|]. by apply trunc_of_pos.
  - destruct (f64_of_pos true m) as (m' & Hm' & ->); [lia|]. apply trunc_of_pos; [lia|done].
Qed.

Lemma f64_trunc_of_Z z : exact64 z → f64_trunc (f64_of_Z z) = f64_of_Z z.
Proof.
  intros Hz. pose proof (trunc_f64_of_Z z Hz) as Ht. destruct Hz as [??].
  destruct z as [|m|m]; [done|..].
  - destruct (f64_of_pos false m) as (m' & Hm' & Hf); [lia|].
    rewrite Hf in Ht |- *. unfold f64_trunc. by rewrite Ht.
  - destruct (f64_of_pos true m) as (m' & Hm' & Hf); [lia|].
    rewrite Hf in Ht |- *. unfold f64_trunc. by rewrite Ht.
Qed.

Lemma compare_mantissa a b ma mb :
  Zpos a < 2 ^ 53 → Zpos b < 2 ^ 53 →
  Zpos ma = Zpos a * 2 ^ (52 - Z.log2 (Zpos a)) → Zpos mb = Zpos b * 2 ^ (52 - Z.log2 (Zpos b)) →
  match Z.log2 (Zpos a) - 52 ?= Z.log2 (Zpos b) - 52 with
  | Lt => Lt | Gt => Gt | Eq => Pos.compare_cont Eq ma mb
  end = (Zpos a ?= Zpos b).
Proof.
  intros Ha Hb Hma Hmb. destruct (Z.compare_spec (Z.log2 (Zpos a) - 52) (Z.log2 (Zpos b) - 52)) as [E|E|E].
  - change (Pos.compare_cont Eq ma mb) with (Zpos ma ?= Zpos mb). rewrite Hma, Hmb.
    replace (Z.log2 (Zpos a)) with (Z.log2 (Zpos b)) by lia.
    destruct (fexp64_small b Hb). symmetry. apply Zmult_compare_compat_r. lia.
  - symmetry. apply Z.compare_lt_iff, Z.log2_lt_cancel. lia.
  - symmetry. apply Z.compare_gt_iff, Z.log2_lt_cancel. lia.
Qed.

Lemma SFcompare_Z a b :
  exact64 a → exact64 b → SFcompare (f64_of_Z a) (f64_of_Z b) = Some (a ?= b).
Proof.
  intros [??] [??].
  destruct a as [|a|a]; [|destruct (f64_of_pos false a) as (ma & Hma & Ea); [lia|]; rewrite Ea
    |destruct (f64_of_pos true a) as (ma & Hma & Ea); [lia|]; rewrite Ea];
  (destruct b as [|b|b]; [|destruct (f64_of_pos false b) as (mb & Hmb & Eb); [lia|]; rewrite Eb
    |destruct (f64_of_pos true b) as (mb & Hmb & Eb); [lia|]; rewrite Eb]); try done; cbn [SFcompare].
  - f_equal. apply compare_mantissa; done || lia.
  - f_equal. change (Zneg a ?= Zneg b) with (CompOpp (Zpos a ?= Zpos b)).
    rewrite <-(compare_mantissa a b ma mb) by (done || lia).
    by destruct (Z.log2 (Zpos a) - 52 ?= Z.log2 (Zpos b) - 52).
Qed.

Lemma SFcompare_eq s m e s' m' e' :
  SFcompare (S754_finite s m e) (S754_finite s' m' e') = Some Eq →
  S754_finite s m e = S754_finite s' m' e'.
Proof.
  simpl. intros [= H]. destruct s, s'; try done; destruct (Z.compare_spec e e') as [->| |]; try done.
  - change (Pos.compare_cont Eq m m') with (Pos.compare m m') in H.
    destruct (Pos.compare_spec m m') as [->| |]; done.
  - apply Pos.compare_eq in H as ->. done.
Qed.

(** ** Integral floats in a range *)

Lemma finite64_digits s m e :
  valid_binary prec64 emax64 (S754_finite s m e) = true → Zpos m < 2 ^ 53.
Proof.
  intros Hv. unfold valid_binary, bounded, canonical_mantissa in Hv. propify.
  rewrite digits_log2 in *. unfold fexp, emin in *.
  apply Z.log2_lt_cancel. change (Z.log2 (2 ^ 53)) with 53. lia.
Qed.

Lemma integral64 (f : spec_float) lo hi :
  valid_binary prec64 emax64 f = true → exact64 lo → exact64 hi → lo ≤ 0 ≤ hi →
  SFeqb (f64_trunc f) f = true →
  SFltb f (f64_of_Z lo) = false → SFltb (f64_of_Z hi) f = false →
  f ≠ S754_nan →
  lo ≤ trunc_Z f ≤ hi ∧ SFcompare f (f64_of_Z (trunc_Z f)) = Some Eq.
Proof.
  intros Hv Hlo Hhi Hz Hi Hl Hh Hn. destruct f as [s|s| |s m e]; [done| |done|].
  - exfalso. unfold SFltb in Hl, Hh. destruct s.
    + destruct lo as [|p|p]; [done|lia|]. destruct (f64_of_pos true p) as (m & _ & E); [red in Hlo; lia|].
      by rewrite E in Hl.
    + destruct hi as [|p|p]; [done| |lia]. destruct (f64_of_pos false p) as (m & _ & E); [red in Hhi; lia|].
      by rewrite E in Hh.
  - pose proof (finite64_digits _ _ _ Hv) as Hm.
    set (t := trunc_Z (S754_finite s m e)) in *.
    assert (e ≤ 0) as He.
    { apply Z.nlt_ge. intros He. unfold SFltb in Hl, Hh. destruct s.
      - destruct lo as [|p|p]; [done|lia|]. destruct (f64_of_pos true p) as (m' & _ & E); [red in Hlo; lia|].
        rewrite E in Hl. destruct (fexp64_small p); [red in Hlo; lia|]. cbn [SFcompare] in Hl.
        destruct (Z.compare_spec e (Z.log2 (Zpos p) - 52)); [lia|lia|done].
      - destruct hi as [|p|p]; [done| |lia]. destruct (f64_of_pos false p) as (m' & _ & E); [red in Hhi; lia|].
        rewrite E in Hh. destruct (fexp64_small p); [red in Hhi; lia|]. cbn [SFcompare] in Hh.
        destruct (Z.compare_spec (Z.log2 (Zpos p) - 52) e); [lia|done|lia]. }
    assert (exact64 t) as Ht.
    { unfold t, trunc_Z. assert (0 ≤ Z.shiftr (Zpos m) (- e) ≤ Zpos m) as Hr.
      { rewrite Z.shiftr_div_pow2 by lia. split; [apply Z.div_pos; lia|].
        apply Z.div_le_upper_bound; [lia|]. assert (0 < 2 ^ (- e)) by lia. nia. }
      assert ((if 0 <=? e then Z.shiftl (Zpos m) e else Z.shiftr (Zpos m) (- e)) ≤ Zpos m ∧
              0 ≤ (if 0 <=? e then Z.shiftl (Zpos m) e else Z.shiftr (Zpos m) (- e))) as [??].
      { destruct (Z.leb_spec 0 e) as [He'|]; [|lia]. assert (e = 0) as -> by lia.
        rewrite Z.shiftl_0_r. lia. }
      red. destruct s; lia. }
    change (f64_trunc (S754_finite s m e)) with (binary_normalize prec64 emax64 t 0 s) in Hi.
    clearbody t.
    assert (t ≠ 0) as Ht0. { intros Ht0. rewrite Ht0 in Hi. cbn in Hi. by destruct s. }
    assert (binary_normalize prec64 emax64 t 0 s = f64_of_Z t) as Hn' by (by destruct t).
    rewrite Hn' in Hi. unfold SFeqb in Hi.
    assert (f64_of_Z t = S754_finite s m e) as Hf.
    { destruct t as [|p|p]; [done|..].
      - destruct (f64_of_pos false p) as (m' & _ & E); [red in Ht; lia|]. rewrite E in Hi |- *.
        apply SFcompare_eq. by destruct (SFcompare _ _) as [[]|].
      - destruct (f64_of_pos true p) as (m' & _ & E); [red in Ht; lia|]. rewrite E in Hi |- *.
        apply SFcompare_eq. by destruct (SFcompare _ _) as [[]|]. }
    rewrite <-Hf in Hl, Hh |- *. unfold SFltb in Hl, Hh.
    rewrite SFcompare_Z in Hl, Hh by done. rewrite SFcompare_Z, Z.compare_refl by done.
    split; [|done]. destruct (Z.compare_spec t lo), (Z.compare_spec hi t); done || lia.
Qed.

(** ** Binary32 *)

Record bounds32 (m : positive) (e : Z) : Prop := {
  b32_m : Zpos m < 2 ^ 24;
  b32_e : -149 ≤ e ≤ 104;
  b32_sub : Zpos m < 2 ^ 23 → e = -149;
  b32_fexp : fexp prec32 emax32 (Z.log2 (Zpos m) + 1 + e) = e
}.

Lemma valid32_bounds s m e :
  valid_binary prec32 emax32 (S754_finite s m e) = true → bounds32 m e.
Proof.
  intros Hv. unfold valid_binary, bounded, canonical_mantissa in Hv. propify.
  rewrite digits_log2 in *. pose proof (Z.log2_nonneg (Zpos m)).
  split; [| | |done]; unfold fexp, emin in *.
  - apply Z.log2_lt_cancel. change (Z.log2 (2 ^ 24)) with 24. lia.
  - lia.
  - intros Hm. assert (Z.log2 (Zpos m) < 23) by (apply Z.log2_lt_pow2; lia). lia.
Qed.

(** A binary32 value converts to binary64 and back unchanged. *)
Lemma f32_f64_f32 g : valid_binary prec32 emax32 g = true → f32_of_f64 (f64_of_f32 g) = g.
Proof.
  intros Hv. destruct g as [| | |s m e]; [done..|].
  destruct (valid32_bounds _ _ _ Hv) as [Hm He _ Hf].
  assert (0 ≤ Z.log2 (Zpos m) < 24) as [??].
  { split; [apply Z.log2_nonneg|]. apply Z.log2_lt_pow2; lia. }
  cbn [f64_of_f32].
  destruct (round_widen prec64 emax64 s m e (Z.log2 (Zpos m) + e - 52)) as (m' & Hm' & ->);
    [unfold fexp, emin; lia|lia|lia|].
  cbn [f32_of_f64]. replace (e - (Z.log2 (Zpos m) + e - 52)) with (52 - Z.log2 (Zpos m)) in Hm' by lia.
  destruct (52 - Z.log2 (Zpos m)) as [|k|k] eqn:Hk; [lia| |lia].
  rewrite <-iter_xO in Hm'. injection Hm' as ->.
  replace (Z.log2 (Zpos m) + e - 52) with (e - Zpos k) by lia.
  assert (e - Zpos k + Zpos k = e) as Hek by lia.
  rewrite round_narrow; rewrite Hek; [done|done|lia].
Qed.

Lemma bits32_fields (s : bool) ex mant :
  0 ≤ ex ≤ 255 → 0 ≤ mant < 2 ^ 23 →
  let b := (if s then 2 ^ 31 else 0) + ex * 2 ^ 23 + mant in
  in_range 32 b ∧ Z.testbit b 31 = s ∧ Z.land (Z.shiftr b 23) 255 = ex ∧ Z.land b (2 ^ 23 - 1) = mant.
Proof.
  intros He Hm b. change (2 ^ 31) with (256 * 2 ^ 23) in b.
  change (2 ^ 23) with 8388608 in *.
  assert (b / 8388608 = (if s then 256 else 0) + ex) as Hd.
  { unfold b. replace ((if s then 256 * 8388608 else 0) + ex * 8388608 + mant)
      with (((if s then 256 else 0) + ex) * 8388608 + mant) by (destruct s; lia).
    rewrite Z.div_add_l, Z.div_small by lia. lia. }
  split; [|split; [|split]].
  - unfold in_range, b. change (2 ^ 32) with 4294967296. destruct s; lia.
  - rewrite Z.testbit_odd, Z.shiftr_div_pow2 by lia.
    change (2 ^ 31) with (8388608 * 256). rewrite <-Z.div_div, Hd by lia.
    destruct s; [|by rewrite Z.div_small by lia].
    replace (256 + ex) with (1 * 256 + ex) by lia. by rewrite Z.div_add_l, Z.div_small by lia.
  - rewrite Z.shiftr_div_pow2 by lia. change (2 ^ 23) with 8388608. rewrite Hd, land_255.
    destruct s; [|by apply Z.mod_small; lia].
    replace (256 + ex) with (ex + 1 * 256) by lia. rewrite Z_mod_plus_full. apply Z.mod_small. lia.
  - change (8388608 - 1) with (Z.ones 23). rewrite Z.land_ones by lia. change (2 ^ 23) with 8388608.
    unfold b. replace ((if s then 256 * 8388608 else 0) + ex * 8388608 + mant)
      with (mant + ((if s then 256 else 0) + ex) * 8388608) by (destruct s; lia).
    rewrite Z_mod_plus_full. by apply Z.mod_small.
Qed.

(** The fields of the encoding of a binary32 value. *)
Definition fields32 (g : spec_float) : bool * Z * Z :=
  match g with
  | S754_zero s => (s, 0, 0)
  | S754_infinity s => (s, 255, 0)
  | S754_nan => (false, 255, 2 ^ 22)
  | S754_finite s m e =>
      if Zpos m <? 2 ^ 23 then (s, 0, Zpos m) else (s, e + 150, Zpos m - 2 ^ 23)
  end.

Lemma bits32_of_fields g s ex mant :
  valid_binary prec32 emax32 g = true → fields32 g = (s, ex, mant) →
  0 ≤ ex ≤ 255 ∧ 0 ≤ mant < 2 ^ 23 ∧
  bits_of_f32 g = (if s then 2 ^ 31 else 0) + ex * 2 ^ 23 + mant.
Proof.
  intros Hv. destruct g as [s'|s'| |s' m e]; cbn [fields32 bits_of_f32].
  1-3: intros [= <- <- <-]; repeat split; lia.
  destruct (valid32_bounds _ _ _ Hv) as [Hm He _ _]. change (2 ^ 24) with (2 * 2 ^ 23) in Hm.
  destruct (Z.ltb_spec (Zpos m) (2 ^ 23)); intros [= <- <- <-]; repeat split; lia.
Qed.

Lemma f32_bits_f32 g :
  valid_binary prec32 emax32 g = true →
  f32_of_bits (bits_of_f32 g) = g ∧ in_range 32 (bits_of_f32 g).
Proof.
  intros Hv. destruct (fields32 g) as [[s ex] mant] eqn:Hf.
  destruct (bits32_of_fields g s ex mant Hv Hf) as (He & Hm & ->).
  destruct (bits32_fields s ex mant He Hm) as (Hr & Hs & Hex & Hmant).
  split; [|done]. unfold f32_of_bits. rewrite Hs, Hex, Hmant.
  destruct g as [s'|s'| |s' m e]; cbn [fields32] in Hf.
  1-3: injection Hf as <- <- <-; done.
  destruct (valid32_bounds _ _ _ Hv) as [? ? Hsub _].
  destruct (Z.ltb_spec (Zpos m) (2 ^ 23)); injection Hf as <- <- <-.
  - simpl. by rewrite Hsub by done.
  - rewrite !(proj2 (Z.eqb_neq _ _)) by lia. replace (Zpos m - 2 ^ 23 + 2 ^ 23) with (Zpos m) by lia.
    f_equal. lia.
Qed.

(** ** Rounding makes valid floats *)

Lemma shr_m_1 r : 0 ≤ shr_m r → shr_m (shr_1 r) = shr_m r / 2.
Proof. rewrite <-Z.div2_div. destruct r as [m r s]. by destruct m as [|[m|m|]|m]. Qed.

Lemma shr_m_iter p r : 0 ≤ shr_m r → shr_m (iter_pos shr_1 p r) = shr_m r / 2 ^ Zpos p.
Proof.
  intros Hr. rewrite iter_pos_eq. induction p as [|p IH] using Pos.peano_ind; [by apply shr_m_1|].
  rewrite Pos.iter_succ, shr_m_1, IH by (rewrite IH; apply Z.div_pos; lia).
  rewrite Z.div_div, Pos2Z.inj_succ, Z.pow_succ_r by lia. f_equal. lia.
Qed.

Lemma shr_m_loc m l : shr_m (shr_record_of_loc m l) = m.
Proof. by destruct l as [|[]]. Qed.

Lemma Zdigits2_bounds m :
  0 ≤ m → 0 ≤ Zdigits2 m ∧ m < 2 ^ Zdigits2 m ∧ (0 < m → 2 ^ (Zdigits2 m - 1) ≤ m).
Proof.
  destruct m as [|m|m]; [done| |lia]. intros _. cbn [Zdigits2]. rewrite digits_log2.
  pose proof (Z.log2_nonneg (Zpos m)). pose proof (Z.log2_spec (Zpos m)).
  replace (Z.log2 (Zpos m) + 1 - 1) with (Z.log2 (Zpos m)) by lia. change (Z.log2 (Zpos m) + 1) with (Z.succ (Z.log2 (Zpos m))). lia.
Qed.

Lemma Zdigits2_le m k : 0 ≤ k → 0 ≤ m < 2 ^ k → Zdigits2 m ≤ k.
Proof.
  intros Hk [Hm Hlt]. destruct (Zdigits2_bounds m Hm) as (Hd & _ & Hlow). destruct (decide (0 < m)) as [Hp|].
  - destruct (Z.le_gt_cases (Zdigits2 m) k) as [|Hgt]; [done|].
    assert (2 ^ k ≤ 2 ^ (Zdigits2 m - 1)) by (apply Z.pow_le_mono_r; lia). lia.
  - assert (m = 0) as -> by lia. done.
Qed.

Lemma Zdigits2_ge m k : 0 ≤ k → 2 ^ k ≤ m → k + 1 ≤ Zdigits2 m.
Proof.
  intros Hk Hle. assert (0 < 2 ^ k) by (apply Z.pow_pos_nonneg; lia). destruct (Zdigits2_bounds m) as (Hd & Hlt & _); [lia|].
  destruct (Z.le_gt_cases (k + 1) (Zdigits2 m)) as [|Hgt]; [done|].
  assert (2 ^ Zdigits2 m ≤ 2 ^ k) by (apply Z.pow_le_mono_r; lia). lia.
Qed.

Section valid.
Variables (prec emax : Z).
Hypothesis (Hprec : 0 < prec).

Lemma shr_fexp_spec m e l :
  0 ≤ m → e ≤ fexp prec emax (Zdigits2 m + e) →
  let '(r, e') := shr_fexp prec emax m e l in
  e' = fexp prec emax (Zdigits2 m + e) ∧ shr_m r = m / 2 ^ (e' - e).
Proof.
  intros Hm He. unfold shr_fexp, shr. destruct (fexp prec emax (Zdigits2 m + e) - e) as [|n|n] eqn:Hn; [| |lia].
  - split; [lia|]. by rewrite shr_m_loc, Z.sub_diag, Z.div_1_r.
  - split; [lia|]. rewrite shr_m_iter; rewrite shr_m_loc; [|done]. do 2 f_equal. lia.
Qed.

(** The first shift leaves at most [prec] digits, and as many unless the exponent
    is the least one. *)
Lemma shifted_mantissa m e :
  0 < m → e ≤ fexp prec emax (Zdigits2 m + e) →
  let f := fexp prec emax (Zdigits2 m + e) in
  let m1 := m / 2 ^ (f - e) in
  emin prec emax ≤ f ∧ 0 ≤ m1 < 2 ^ prec ∧ (f = emin prec emax ∨ 2 ^ (prec - 1) ≤ m1).
Proof.
  intros Hm He f m1. destruct (Zdigits2_bounds m) as (Hd & Hlt & Hlow); [lia|]. specialize (Hlow Hm).
  assert (f = Z.max (Zdigits2 m + e - prec) (emin prec emax)) as Hf by done. fold f in He. clearbody f.
  assert (0 < 2 ^ (f - e)) as Hp by (apply Z.pow_pos_nonneg; lia).
  split; [lia|]. split; [split|].
  - apply Z.div_pos; lia.
  - apply Z.div_lt_upper_bound; [done|]. rewrite <-Z.pow_add_r by lia. eapply Z.lt_le_trans; [exact Hlt|].
    apply Z.pow_le_mono_r; lia.
  - destruct (decide (f = emin prec emax)) as [|Hne]; [by left|right].
    apply Z.div_le_lower_bound; [done|].
    rewrite <-Z.pow_add_r by lia. replace (f - e + (prec - 1)) with (Zdigits2 m - 1) by lia. done.
Qed.

Lemma round_nearest_even_cases m l : round_nearest_even m l = m ∨ round_nearest_even m l = m + 1.
Proof. destruct l as [|[]]; cbn; auto. case_match; auto. Qed.

Lemma round_aux_valid s m e :
  e ≤ fexp prec emax (Zdigits2 (Zpos m) + e) →
  valid_binary prec emax (binary_round_aux prec emax s (Zpos m) e loc_Exact) = true.
Proof.
  intros He. unfold binary_round_aux.
  pose proof (shr_fexp_spec (Zpos m) e loc_Exact ltac:(done) He) as H1.
  destruct (shifted_mantissa (Zpos m) e) as (Hmin & Hm1 & Hcase); [done..|].
  destruct (shr_fexp _ _ (Zpos m) e loc_Exact) as [r1 f]. destruct H1 as [Hf Hr1]. rewrite <-Hf in *. rewrite <-Hr1 in *.
  set (m2 := round_nearest_even _ _).
  assert (m2 = shr_m r1 ∨ m2 = shr_m r1 + 1) as Hm2 by apply round_nearest_even_cases. clearbody m2.
  assert (0 ≤ m2 ≤ 2 ^ prec) as Hr2 by lia.
  assert (Zdigits2 m2 ≤ prec ∧ fexp prec emax (Zdigits2 m2 + f) = f ∨
          m2 = 2 ^ prec ∧ fexp prec emax (Zdigits2 m2 + f) = f + 1) as Hd.
  { destruct (decide (m2 = 2 ^ prec)) as [E|].
    - right. split; [done|]. pose proof (Zdigits2_ge m2 prec) as Hge. pose proof (Zdigits2_le m2 (prec + 1)) as Hle.
      assert (0 < 2 ^ prec) by (apply Z.pow_pos_nonneg; lia).
      rewrite E in *. rewrite Z.pow_add_r in Hle by lia. change (2 ^ 1) with 2 in Hle. unfold fexp. lia.
    - left. pose proof (Zdigits2_le m2 prec) as Hle. split; [lia|]. unfold fexp.
      destruct Hcase as [->|Hge]; [lia|]. pose proof (Zdigits2_ge m2 (prec - 1)). lia. }
  pose proof (shr_fexp_spec m2 f loc_Exact) as H3. destruct (shr_fexp _ _ m2 f loc_Exact) as [r3 e3].
  destruct H3 as [He3 Hr3]; [lia|lia|].
  assert (shr_m r3 = 0 ∨ 0 < shr_m r3 ∧ fexp prec emax (Zdigits2 (shr_m r3) + e3) = e3) as Hfin.
  { destruct Hd as [[Hd Hfe]|[-> Hfe]]; rewrite Hfe in He3; subst e3.
    - rewrite Z.sub_diag, Z.div_1_r in Hr3. rewrite Hr3. destruct (decide (m2 = 0)); [by left|right]. split; [lia|done].
    - assert (shr_m r3 = 2 ^ (prec - 1)) as ->.
      { rewrite Hr3. replace (f + 1 - f) with 1 by lia. replace prec with (prec - 1 + 1) at 1 by lia.
        rewrite Z.pow_add_r by lia. by rewrite Z.div_mul. }
      right. assert (0 < 2 ^ (prec - 1)) by (apply Z.pow_pos_nonneg; lia). split; [done|].
      pose proof (Zdigits2_ge (2 ^ (prec - 1)) (prec - 1)). pose proof (Zdigits2_le (2 ^ (prec - 1)) prec) as Hle.
      assert (2 ^ (prec - 1) < 2 ^ prec) by (apply Z.pow_lt_mono_r; lia). unfold fexp. lia. }
  destruct (shr_m r3) as [|m3|m3]; [done| |lia]. destruct Hfin as [|[_ Hfin]]; [done|].
  case_match eqn:Hmax; [|done]. unfold valid_binary, bounded, canonical_mantissa. cbn [Zdigits2] in Hfin.
  by rewrite Hfin, Z.eqb_refl, Hmax.
Qed.

Lemma binary_round_valid s m e : valid_binary prec emax (binary_round prec emax s m e) = true.
Proof.
  unfold binary_round, shl_align. destruct (fexp prec emax (Zpos (digits2_pos m) + e) - e) as [|d|d] eqn:Hd;
    apply round_aux_valid; cbn [Zdigits2]; [lia..|].
  rewrite !digits_log2, iter_xO, log2_mul_pow2' in * by lia.
  replace (Z.log2 (Zpos m) + Zpos d + 1 + _) with (Z.log2 (Zpos m) + 1 + e) by lia. done.
Qed.
End valid.

(** Rounding to binary32 makes a binary32 value. *)
Lemma f32_of_f64_valid f : valid_binary prec32 emax32 (f32_of_f64 f) = true.
Proof. destruct f as [| | |s m e]; [done..|]. by apply binary_round_valid. Qed.
