(* ===== verification/GoText.v ===== *)
(** * Go texts: UTF-8, base64, hexadecimal, decimal numbers and splitting

    What the program uses of [unicode/utf8], [encoding/base64], [encoding/hex],
    [strings] and [regexp] (whose patterns are runs of character classes). *)

From Stdlib Require Import Ascii String.
From stdpp Require Import pretty.
From S2P Require Import Prelude.

(** The bytes of a Go string, and the string of bytes. *)
Definition bytesOf (s : string) : list Z := map (fun a => Z.of_nat (nat_of_ascii a)) (list_ascii_of_string s).
Definition textOf (l : list Z) : string := string_of_list_ascii (map (fun b => ascii_of_nat (Z.to_nat b)) l).

(** ** UTF-8 *)

Definition inside (lo hi b : Z) : bool := (lo <=? b) && (b <=? hi).

(** The size of the rune a text starts with, when its encoding is valid. *)
Definition runeSize (s : list Z) : option nat :=
  match s with
  | [] => None
  | b0 :: rest =>
      if b0 <? 128 then Some 1%nat
      else if b0 <? 194 then None
      else if b0 <? 224 then
        match rest with b1 :: _ => if inside 128 191 b1 then Some 2%nat else None | _ => None end
      else if b0 <? 240 then
        match rest with
        | b1 :: b2 :: _ =>
            if inside (if b0 =? 224 then 160 else 128) (if b0 =? 237 then 159 else 191) b1 && inside 128 191 b2
            then Some 3%nat else None
        | _ => None
        end
      else if b0 <? 245 then
        match rest with
        | b1 :: b2 :: b3 :: _ =>
            if inside (if b0 =? 240 then 144 else 128) (if b0 =? 244 then 143 else 191) b1 &&
               inside 128 191 b2 && inside 128 191 b3
            then Some 4%nat else None
        | _ => None
        end
      else None
  end.

(** [utf8.RuneCount]: an invalid byte counts as one rune. *)
Fixpoint runesFrom (skip : nat) (s : list Z) : Z :=
  match s with
  | [] => 0
  | _ :: rest =>
      match skip with
      | S skip' => runesFrom skip' rest
      | O => 1 + runesFrom (match runeSize s with Some n => n - 1 | None => 0 end)%nat rest
      end
  end.

Definition runeCount (s : string) : Z := runesFrom 0 (bytesOf s).

(** [utf8.Valid]. *)
Fixpoint validFrom (skip : nat) (s : list Z) : bool :=
  match s with
  | [] => true
  | _ :: rest =>
      match skip with
      | S skip' => validFrom skip' rest
      | O => match runeSize s with Some n => validFrom (n - 1) rest | None => false end
      end
  end.

Definition utf8Valid (s : list Z) : bool := validFrom 0 s.

(** ** Base64 *)

(** An alphabet (with [-_] or [+/]) and whether texts are padded. *)
Record encoding := mkEncoding { enURL : bool; enPadded : bool }.

Definition StdEncoding : encoding := mkEncoding false true.
Definition RawStdEncoding : encoding := mkEncoding false false.
Definition RawURLEncoding : encoding := mkEncoding true false.

Definition code (a : ascii) : Z := Z.of_nat (nat_of_ascii a).
Definition charOf (n : Z) : ascii := ascii_of_nat (Z.to_nat n).

Definition encodeChar (url : bool) (v : Z) : ascii :=
  if v <? 26 then charOf (65 + v)
  else if v <? 52 then charOf (71 + v)
  else if v <? 62 then charOf (v - 4)
  else if v =? 62 then (if url then "-" else "+")%char
  else (if url then "_" else "/")%char.

Definition decodeChar (url : bool) (a : ascii) : option Z :=
  let n := code a in
  if inside 65 90 n then Some (n - 65)
  else if inside 97 122 n then Some (n - 71)
  else if inside 48 57 n then Some (n + 4)
  else if Ascii.eqb a (if url then "-" else "+")%char then Some 62
  else if Ascii.eqb a (if url then "_" else "/")%char then Some 63
  else None.

Definition padding (e : encoding) (n : nat) : list ascii := if enPadded e then repeat "="%char n else [].

Fixpoint encodeQuanta (e : encoding) (l : list Z) : list ascii :=
  let c := encodeChar (enURL e) in
  match l with
  | [] => []
  | [x] => c (x / 4) :: c (x mod 4 * 16) :: padding e 2
  | [x; y] => c (x / 4) :: c (x mod 4 * 16 + y / 16) :: c (y mod 16 * 4) :: padding e 1
  | x :: y :: z :: rest =>
      c (x / 4) :: c (x mod 4 * 16 + y / 16) :: c (y mod 16 * 4 + z / 64) :: c (z mod 64) :: encodeQuanta e rest
  end.

Definition quantum2 (e : encoding) (a b : ascii) : option (list Z) :=
  match decodeChar (enURL e) a, decodeChar (enURL e) b with
  | Some u, Some v => Some [u * 4 + v / 16]
  | _, _ => None
  end.

Definition quantum3 (e : encoding) (a b c : ascii) : option (list Z) :=
  match decodeChar (enURL e) a, decodeChar (enURL e) b, decodeChar (enURL e) c with
  | Some u, Some v, Some w => Some [u * 4 + v / 16; v mod 16 * 16 + w / 4]
  | _, _, _ => None
  end.

Definition quantum4 (e : encoding) (a b c d : ascii) : option (list Z) :=
  match decodeChar (enURL e) a, decodeChar (enURL e) b, decodeChar (enURL e) c, decodeChar (enURL e) d with
  | Some u, Some v, Some w, Some x => Some [u * 4 + v / 16; v mod 16 * 16 + w / 4; w mod 4 * 64 + x]
  | _, _, _, _ => None
  end.

(** Trailing bits are not checked, as the encodings are not strict. *)
Fixpoint decodeQuanta (e : encoding) (s : list ascii) : option (list Z) :=
  match s with
  | [] => Some []
  | [a; b] => if enPadded e then None else quantum2 e a b
  | [a; b; c] => if enPadded e then None else quantum3 e a b c
  | a :: b :: c :: d :: rest =>
      if enPadded e && Ascii.eqb d "="%char then
        match rest with [] => if Ascii.eqb c "="%char then quantum2 e a b else quantum3 e a b c | _ => None end
      else
        match quantum4 e a b c d, decodeQuanta e rest with
        | Some l, Some l' => Some (l ++ l')
        | _, _ => None
        end
  | _ => None
  end.

Definition isNewline (a : ascii) : bool := (code a =? 10) || (code a =? 13).

Definition EncodeToString (e : encoding) (l : list Z) : string := string_of_list_ascii (encodeQuanta e l).
(** Line ends are skipped wherever they are. *)
Definition DecodeString (e : encoding) (s : string) : option (list Z) :=
  decodeQuanta e (List.filter (fun a => negb (isNewline a)) (list_ascii_of_string s)).

(** ** Hexadecimal digits *)

Definition hexDigit (n : Z) : ascii := if n <? 10 then charOf (48 + n) else charOf (87 + n).
Fixpoint hexOf (l : list Z) : string :=
  match l with
  | [] => ""
  | b :: rest => String (hexDigit (b / 16)) (String (hexDigit (b mod 16)) (hexOf rest))
  end.

(** ** Character classes *)

Fixpoint allChars (f : ascii → bool) (s : string) : bool :=
  match s with EmptyString => true | String a s' => f a && allChars f s' end.

(** The longest run of a class a text starts with, and what follows. *)
Fixpoint span (f : ascii → bool) (s : string) : string * string :=
  match s with
  | EmptyString => ("", "")
  | String a s' => if f a then let '(run, rest) := span f s' in (String a run, rest) else ("", s)
  end.

Definition isUpper (a : ascii) : bool := inside 65 90 (code a).
Definition isLower (a : ascii) : bool := inside 97 122 (code a).
Definition isDigit (a : ascii) : bool := inside 48 57 (code a).
Definition oneOf (chars : string) (a : ascii) : bool := containsChar chars a.

(** [strings.SplitN(s, sep, 2)]. *)
Fixpoint cutChar (s : string) (c : ascii) : option (string * string) :=
  match s with
  | EmptyString => None
  | String a s' =>
      if Ascii.eqb a c then Some ("", s')
      else match cutChar s' c with Some (l, r) => Some (String a l, r) | None => None end
  end.

(** Reads a literal text. *)
Fixpoint expect (lit s : string) : option string :=
  match lit, s with
  | EmptyString, _ => Some s
  | String a lit', String b s' => if Ascii.eqb a b then expect lit' s' else None
  | _, _ => None
  end.

(** ** Concatenation *)

Lemma append_cons a s t : String.append (String a s) t = String a (String.append s t).
Proof. done. Qed.

Lemma append_nil t : String.append "" t = t.
Proof. done. Qed.

Lemma append_assoc s t u : String.append (String.append s t) u = String.append s (String.append t u).
Proof. induction s as [|a s IH]; [done|]. exact (f_equal (String a) IH). Qed.

Lemma append_nil_r s : String.append s "" = s.
Proof. induction s as [|a s IH]; [done|]. exact (f_equal (String a) IH). Qed.

Lemma containsChar_append s t c : containsChar (String.append s t) c = containsChar s c || containsChar t c.
Proof. induction s as [|a s IH]; [done|]. rewrite append_cons. cbn [containsChar]. by rewrite IH, orb_assoc. Qed.

Lemma length_append s t : String.length (String.append s t) = (String.length s + String.length t)%nat.
Proof. induction s as [|a s IH]; [done|]. exact (f_equal S IH). Qed.

(** ** Trimming *)

Lemma prefix_app p s : String.prefix p s = true ↔ ∃ t, s = String.append p t.
Proof.
  revert s. induction p as [|a p IH]; intros s; simpl.
  - split; [by exists s|by destruct s].
  - destruct s as [|b s]; simpl; [split; [done|by intros [t ?]]|].
    destruct (ascii_dec a b) as [->|Hne].
    + rewrite IH. split; intros [t Ht]; exists t; [by rewrite Ht|by injection Ht].
    + split; [done|]. intros [t [= ? _]]. congruence.
Qed.

Lemma rev_app_spec s t : String.rev_app s t = String.append (String.rev s) t.
Proof.
  unfold String.rev. revert t. induction s as [|a s IH]; intros t; [done|].
  change (String.rev_app (String a s) ?t) with (String.rev_app s (String a t)).
  by rewrite IH, (IH (String a "")), append_assoc.
Qed.

Lemma rev_cons a s : String.rev (String a s) = String.append (String.rev s) (String a "").
Proof. change (String.rev (String a s)) with (String.rev_app s (String a "")). apply rev_app_spec. Qed.

Lemma rev_app_distr (s t : string) : String.rev (String.append s t) = String.append (String.rev t) (String.rev s).
Proof.
  induction s as [|a s IH].
  - change (String.append "" t) with t. by rewrite append_nil_r.
  - by rewrite append_cons, !rev_cons, IH, append_assoc.
Qed.

Lemma rev_involutive s : String.rev (String.rev s) = s.
Proof.
  induction s as [|a s IH]; [done|]. by rewrite rev_cons, rev_app_distr, IH.
Qed.

Section trim.
Variable (runes : list string).
Hypothesis (Hne : Forall (fun r => r ≠ ""%string) runes).

Lemma prefix_len_None s :
  prefix_len runes s = None ↔ ∀ r, r ∈ runes → String.prefix r s = false.
Proof.
  unfold prefix_len. destruct (find _ runes) as [r|] eqn:Hf.
  - apply find_some in Hf as [Hin Hp]. split; [done|]. intros H.
    rewrite H in Hp; [done|]. by apply list_elem_of_In.
  - split; [|done]. intros _ r Hr. apply (find_none _ _ Hf). by apply list_elem_of_In.
Qed.

Lemma prefix_len_Some s n :
  prefix_len runes s = Some n → (0 < n)%nat ∧
  ∃ r t, s = String.append r t ∧ n = String.length r ∧ drop_str n s = t.
Proof.
  unfold prefix_len. destruct (find _ runes) as [r|] eqn:Hf; [|done]. intros [= <-].
  apply find_some in Hf as [Hin [t ->]%prefix_app].
  rewrite Forall_forall in Hne. specialize (Hne r).
  split; [destruct r; simpl; [exfalso; by apply Hne; [apply list_elem_of_In|]|lia]|].
  exists r, t. split_and!; [done|done|]. clear. induction r; simpl; done.
Qed.

(** Trimming leaves a suffix that does not start with a rune of the set. *)
Lemma trim_fuel_spec fuel s :
  (String.length s ≤ fuel)%nat →
  prefix_len runes (trim_fuel runes fuel s) = None ∧ ∃ z, s = String.append z (trim_fuel runes fuel s).
Proof.
  revert s. induction fuel as [|fuel IH]; intros s Hs; simpl.
  - split; [|by exists ""%string]. destruct (prefix_len runes s) as [n|] eqn:Hp; [|done].
    apply prefix_len_Some in Hp as (Hn & r & t & -> & -> & _). rewrite length_append in Hs. lia.
  - destruct (prefix_len runes s) as [n|] eqn:Hp; [|split; [done|by exists ""%string]].
    apply prefix_len_Some in Hp as (Hn & r & t & -> & -> & ->). rewrite length_append in Hs.
    destruct (IH t) as [H1 [z Hz]]; [lia|]. split; [done|]. exists (String.append r z).
    by rewrite append_assoc, <-Hz.
Qed.

Lemma trim_fuel_None fuel s : prefix_len runes s = None → trim_fuel runes fuel s = s.
Proof. intros Hp. destruct fuel; simpl; [done|by rewrite Hp]. Qed.
End trim.

Lemma space_runes_ne : Forall (fun r => r ≠ ""%string) space_runes.
Proof. by repeat constructor. Qed.

Lemma rev_space_runes_ne : Forall (fun r => r ≠ ""%string) (map String.rev space_runes).
Proof. by repeat constructor. Qed.

Lemma trimSpace_idem s : trimSpace (trimSpace s) = trimSpace s.
Proof.
  unfold trimSpace at 2 3.
  destruct (trim_fuel_spec space_runes space_runes_ne (String.length s) s ltac:(lia)) as [Ha _].
  change (trim_fuel space_runes (String.length s) s) with (trim_left space_runes s) in Ha.
  set (a := trim_left space_runes s) in *.
  destruct (trim_fuel_spec _ rev_space_runes_ne (String.length (String.rev a)) (String.rev a) ltac:(lia))
    as [Hb [z Hz]].
  set (b' := trim_fuel _ _ (String.rev a)) in *.
  change (trim_left (map String.rev space_runes) (String.rev a)) with b'.
  assert (a = String.append (String.rev b') (String.rev z)) as Hab.
  { by rewrite <-rev_app_distr, <-Hz, rev_involutive. }
  assert (prefix_len space_runes (String.rev b') = None) as Hl.
  { apply prefix_len_None. intros r Hr.
    destruct (String.prefix r (String.rev b')) eqn:Hp; [|done].
    apply prefix_app in Hp as [t Ht].
    assert (String.prefix r a = true) as Hpa.
    { apply prefix_app. exists (String.append t (String.rev z)). by rewrite Hab, Ht, append_assoc. }
    by rewrite (proj1 (prefix_len_None _ a) Ha r Hr) in Hpa. }
  unfold trimSpace, trim_left. rewrite (trim_fuel_None space_runes) by exact Hl.
  rewrite rev_involutive. rewrite trim_fuel_None; [done|exact Hb].
Qed.

(** A visible ASCII character starts and ends no space. *)
Definition graphic (a : ascii) : bool := inside 33 126 (code a).

Lemma prefix_len_graphic runes a s :
  forallb (fun r => match r with String x _ => negb (graphic x) | EmptyString => false end) runes = true →
  graphic a = true → prefix_len runes (String a s) = None.
Proof.
  intros Hr Ha. apply prefix_len_None. intros r Hin. rewrite forallb_forall in Hr. specialize (Hr r).
  rewrite <-list_elem_of_In in Hr. specialize (Hr Hin). destruct r as [|x r]; [done|]. cbn.
  destruct (ascii_dec x a) as [->|]; [by rewrite Ha in Hr|done].
Qed.

Lemma trimSpace_graphic a s b t :
  String a s = String.append t (String b "") → graphic a = true → graphic b = true → trimSpace (String a s) = String a s.
Proof.
  intros E Ha Hb. unfold trimSpace, trim_left. rewrite (trim_fuel_None space_runes) by (apply prefix_len_graphic; [vm_compute; reflexivity|done]).
  rewrite E, rev_app_distr. change (String.append (String.rev (String b "")) (String.rev t)) with (String b (String.rev t)).
  rewrite trim_fuel_None by (apply prefix_len_graphic; [vm_compute; reflexivity|done]).
  rewrite rev_cons, rev_involutive. done.
Qed.

(** ** Decimal numbers come back *)

Lemma digits_pretty x : ∀ s, digits_val 0 (pretty_N_go x s) = digits_val (Z.of_N x) s.
Proof.
  induction (N.lt_wf_0 x) as [x _ IH]. intros s. destruct (decide (x = 0)%N) as [->|Hx]; [done|].
  rewrite pretty_N_go_step by lia. rewrite IH by (apply N.div_lt; lia). simpl.
  assert (digit_val (pretty_N_char (x `mod` 10)) = Some (Z.of_N (x `mod` 10))) as ->.
  { pose proof (N.mod_lt x 10 ltac:(done)). set (d := (x `mod` 10)%N) in *.
    assert (d = 0 ∨ d = 1 ∨ d = 2 ∨ d = 3 ∨ d = 4 ∨ d = 5 ∨ d = 6 ∨ d = 7 ∨ d = 8 ∨ d = 9)%N as Hd by lia.
    by destruct Hd as [->|[->|[->|[->|[->|[->|[->|[->|[->| ->]]]]]]]]]. }
  f_equal. pose proof (N.div_mod x 10 ltac:(done)). lia.
Qed.

Lemma pretty_nonneg z : 0 ≤ z → pretty z = pretty (Z.to_N z).
Proof. by destruct z. Qed.

Lemma digits_pretty_Z z : 0 ≤ z → digits_val 0 (pretty z) = Some z.
Proof.
  intros Hz. rewrite pretty_nonneg by done. unfold pretty, pretty_N. case_decide as E.
  { assert (z = 0) as -> by lia. done. }
  rewrite digits_pretty. simpl. f_equal. lia.
Qed.

Lemma digits_nonempty z s : 0 ≤ z → s = pretty z → ∃ c rest, s = String c rest ∧ digit_val c ≠ None.
Proof.
  intros Hz ->. pose proof (digits_pretty_Z z Hz) as Hd. destruct (pretty z) as [|c rest] eqn:E.
  - simpl in Hd. injection Hd as <-. discriminate E.
  - exists c, rest. split; [done|]. simpl in Hd. by destruct (digit_val c).
Qed.

Lemma parseUint_pretty z bits : 0 ≤ z < 2 ^ bits → parseUint (pretty z) bits = Some z.
Proof.
  intros Hz. pose proof (digits_pretty_Z z ltac:(lia)) as Hd.
  destruct (digits_nonempty z (pretty z)) as (c & rest & E & _); [lia|done|]. rewrite E in *. unfold parseUint.
  rewrite Hd. by rewrite (proj2 (Z.ltb_lt _ _)) by lia.
Qed.

(** ** Splitting *)

Lemma digits_no_char a s acc v : digit_val a = None → digits_val acc s = Some v → containsChar s a = false.
Proof.
  intros Ha. revert acc. induction s as [|c s IH]; intros acc; simpl; [done|].
  destruct (digit_val c) as [d|] eqn:Hc; [|done]. intros Hs. rewrite (IH _ Hs), orb_false_r.
  destruct (Ascii.eqb_spec c a) as [->|]; [congruence|done].
Qed.

Lemma rev_app_append s t u : String.rev_app s (String.append t u) = String.append (String.rev_app s t) u.
Proof. revert t. induction s as [|a s IH]; intros t; simpl; [done|]. apply (IH (String a t)). Qed.

Lemma rev_snoc a s t : String.append (String.rev (String a s)) t = String.append (String.rev s) (String a t).
Proof. unfold String.rev. simpl. rewrite <-!rev_app_append. done. Qed.

Lemma split_on_end c cur s : containsChar s c = false → split_on c cur s = [String.append (String.rev cur) s].
Proof.
  revert cur. induction s as [|a s IH]; intros cur; simpl.
  - intros _. unfold String.rev. by rewrite <-rev_app_append.
  - intros [Ha Hs]%orb_false_iff. rewrite Ha, IH by done. by rewrite rev_snoc.
Qed.

Lemma split_on_app c cur s rest :
  containsChar s c = false →
  split_on c cur (String.append s (String c rest)) = String.append (String.rev cur) s :: split_on c "" rest.
Proof.
  revert cur. induction s as [|a s IH]; intros cur; simpl.
  - intros _. rewrite Ascii.eqb_refl. f_equal. unfold String.rev. by rewrite <-rev_app_append.
  - intros [Ha Hs]%orb_false_iff. rewrite Ha, IH by done. by rewrite rev_snoc.
Qed.


Lemma splitChar_append c s rest :
  containsChar s c = false → splitChar (String.append s (String c rest)) c = s :: splitChar rest c.
Proof. intros Hs. unfold splitChar. by rewrite split_on_app. Qed.

Lemma splitChar_end c s : containsChar s c = false → splitChar s c = [s].
Proof. intros Hs. unfold splitChar. by rewrite split_on_end. Qed.

Lemma cutChar_append c s rest : containsChar s c = false → cutChar (String.append s (String c rest)) c = Some (s, rest).
Proof.
  induction s as [|a s IH]; [rewrite append_nil; cbn [cutChar]; by rewrite Ascii.eqb_refl|].
  rewrite append_cons. cbn [containsChar cutChar].
  intros [-> Hs]%orb_false_iff. by rewrite IH.
Qed.

Lemma span_append f s rest :
  allChars f s = true → match rest with String b _ => f b = false | EmptyString => True end →
  span f (String.append s rest) = (s, rest).
Proof.
  intros Hs Hr. induction s as [|a s IH].
  - rewrite append_nil. destruct rest as [|b rest]; [done|]. cbn [span]. by rewrite Hr.
  - rewrite append_cons. cbn [allChars span] in *. apply andb_true_iff in Hs as [-> Hs]. by rewrite (IH Hs).
Qed.

Lemma span_spec f s run rest : span f s = (run, rest) → s = String.append run rest ∧ allChars f run = true.
Proof.
  revert run rest. induction s as [|a s IH]; intros run rest; cbn; [by intros [= <- <-]|].
  destruct (f a) eqn:Ha; [|by intros [= <- <-]]. destruct (span f s) as [run' rest'].
  intros [= <- <-]. destruct (IH run' rest' eq_refl) as [-> H]. rewrite append_cons. cbn [allChars]. by rewrite Ha, H.
Qed.

Lemma expect_append lit s : expect lit (String.append lit s) = Some s.
Proof. induction lit as [|a lit IH]; [done|]. rewrite append_cons. cbn [expect]. by rewrite Ascii.eqb_refl. Qed.

Lemma expect_spec lit s rest : expect lit s = Some rest → s = String.append lit rest.
Proof.
  revert s. induction lit as [|a lit IH]; intros s; cbn; [by intros [= ->]|]. destruct s as [|b s]; [done|].
  destruct (Ascii.eqb_spec a b) as [<-|]; [|done]. intros ->%IH. done.
Qed.

Lemma allChars_contains f s c : allChars f s = true → f c = false → containsChar s c = false.
Proof.
  intros Hs Hc. induction s as [|a s IH]; [done|]. cbn in *. apply andb_true_iff in Hs as [Ha Hs]. rewrite (IH Hs), orb_false_r.
  destruct (Ascii.eqb_spec a c) as [->|]; [congruence|done].
Qed.

Lemma allChars_mono (f g : ascii → bool) s : (∀ a, f a = true → g a = true) → allChars f s = true → allChars g s = true.
Proof. intros Hfg. induction s as [|a s IH]; [done|]. cbn. rewrite !andb_true_iff. naive_solver. Qed.

Lemma pretty_digits z : 0 ≤ z → allChars isDigit (pretty z) = true.
Proof.
  intros Hz. pose proof (digits_pretty_Z z Hz) as Hd. revert Hd. generalize 0 at 1. generalize (pretty z). intros s.
  induction s as [|a s IH]; intros acc; cbn [digits_val allChars]; [done|]. unfold digit_val.
  destruct ((48 <=? Z.of_nat (nat_of_ascii a)) && (Z.of_nat (nat_of_ascii a) <=? 57)) eqn:Ha; [|done].
  intros Hs. change (isDigit a) with ((48 <=? Z.of_nat (nat_of_ascii a)) && (Z.of_nat (nat_of_ascii a) <=? 57)).
  rewrite Ha. by apply (IH _ Hs).
Qed.

(** ** Bytes *)

Lemma textOf_bytesOf s : textOf (bytesOf s) = s.
Proof.
  unfold textOf, bytesOf. rewrite <-(string_of_list_ascii_of_string s) at 2. f_equal. rewrite map_map.
  rewrite <-(map_id (list_ascii_of_string s)) at 2. apply map_ext. intros a. by rewrite Nat2Z.id, ascii_nat_embedding.
Qed.

Lemma length_bytesOf s : length (bytesOf s) = String.length s.
Proof. unfold bytesOf. rewrite length_map. induction s as [|a s IH]; [done|]. exact (f_equal S IH). Qed.

Lemma pretty_no_char z c : 0 ≤ z → digit_val c = None → containsChar (pretty z) c = false.
Proof. intros Hz Hc. by eapply digits_no_char, digits_pretty_Z. Qed.


Lemma bytesOf_range s : Forall byte_ok (bytesOf s).
Proof.
  apply Forall_forall. intros b Hb. unfold bytesOf in Hb. apply list_elem_of_fmap in Hb as (a & -> & _).
  pose proof (nat_ascii_bounded a). unfold byte_ok, in_range. change (2 ^ 8) with 256. lia.
Qed.

Lemma bytesOf_inj s t : bytesOf s = bytesOf t → s = t.
Proof. intros E. by rewrite <-(textOf_bytesOf s), E, textOf_bytesOf. Qed.

(** ** Runes *)

Lemma runesFrom_nonneg s : ∀ skip, 0 ≤ runesFrom skip s.
Proof. induction s as [|b s IH]; intros [|skip]; cbn [runesFrom]; try lia; [|apply IH]. pose proof (IH (match runeSize (b :: s) with Some n => n - 1 | None => 0 end)%nat). lia. Qed.

Lemma runesFrom_length s : ∀ skip, runesFrom skip s ≤ Z.of_nat (length s).
Proof.
  induction s as [|b s IH]; intros [|skip]; cbn [runesFrom length]; try lia; [|specialize (IH skip); lia].
  pose proof (IH (match runeSize (b :: s) with Some n => n - 1 | None => 0 end)%nat). lia.
Qed.

Lemma runeCount_length s : 0 ≤ runeCount s ≤ Z.of_nat (String.length s).
Proof.
  unfold runeCount. rewrite <-length_bytesOf. split; [apply runesFrom_nonneg|apply runesFrom_length].
Qed.

Lemma runesFrom_ascii l : Forall (fun b => b < 128) l → runesFrom 0 l = Z.of_nat (length l).
Proof.
  induction 1 as [|b l Hb Hl IH]; [done|]. cbn [runesFrom runeSize length]. rewrite (proj2 (Z.ltb_lt b 128)) by done.
  cbn [Nat.sub]. rewrite IH. lia.
Qed.

(** ** Base64 is read back *)

Definition charDecodes (url : bool) (v : Z) : bool :=
  match decodeChar url (encodeChar url v) with Some w => w =? v | None => false end.

Lemma decode_encodeChar url v : 0 ≤ v < 64 → decodeChar url (encodeChar url v) = Some v.
Proof.
  intros Hv. assert (charDecodes url v = true) as H.
  { apply (below_all 64 (charDecodes url)); [|done]. destruct url; vm_compute; reflexivity. }
  unfold charDecodes in H. destruct (decodeChar url (encodeChar url v)); [|done]. by apply Z.eqb_eq in H as ->.
Qed.

(** The characters of a base64 text. *)
Definition base64Char (url : bool) (a : ascii) : bool :=
  isUpper a || isLower a || isDigit a || oneOf (if url then "-_" else "+/") a.

Lemma encodeChar_class url v : 0 ≤ v < 64 → base64Char url (encodeChar url v) = true.
Proof.
  apply (below_all 64 (fun v => base64Char url (encodeChar url v))). destruct url; vm_compute; reflexivity.
Qed.

Lemma base64Char_plain url a : base64Char url a = true → isNewline a = false ∧ Ascii.eqb a "="%char = false.
Proof.
  intros Ha. assert ((negb (base64Char url a) || (negb (isNewline a) && negb (Ascii.eqb a "="%char))) = true) as H.
  { rewrite <-(ascii_nat_embedding a). pose proof (nat_ascii_bounded a).
    rewrite <-(Nat2Z.id (nat_of_ascii a)).
    apply (below_all 256 (fun n => negb (base64Char url (charOf n)) || (negb (isNewline (charOf n)) && negb (Ascii.eqb (charOf n) "="%char)))); [|lia].
    destruct url; vm_compute; reflexivity. }
  rewrite Ha in H. cbn [negb orb] in H. by apply andb_true_iff in H as [H1%negb_true_iff H2%negb_true_iff].
Qed.

(** Induction over quanta of three bytes. *)
Lemma quanta_ind {A} (P : list A → Prop) :
  P [] → (∀ x, P [x]) → (∀ x y, P [x; y]) → (∀ x y z l, P l → P (x :: y :: z :: l)) → ∀ l, P l.
Proof.
  intros H0 H1 H2 H3. fix go 1. intros [|x [|y [|z l]]]; [apply H0|apply H1|apply H2|apply H3, go].
Qed.

(** The sextets of bytes. *)
Lemma sextet_bounds x y : byte_ok x → byte_ok y →
  (0 ≤ x / 4 < 64) ∧ (0 ≤ x mod 4 * 16 < 64) ∧ (0 ≤ x mod 4 * 16 + y / 16 < 64) ∧ (0 ≤ y mod 16 * 4 < 64) ∧
  (0 ≤ y mod 16 * 4 + x / 64 < 64) ∧ (0 ≤ x mod 64 < 64).
Proof.
  unfold byte_ok, in_range. change (2 ^ 8) with 256. intros Hx Hy.
  pose proof (Z.div_mod x 4 ltac:(done)). pose proof (Z.div_mod x 64 ltac:(done)).
  pose proof (Z.div_mod y 16 ltac:(done)). pose proof (Z.mod_pos_bound x 4 ltac:(done)).
  pose proof (Z.mod_pos_bound x 64 ltac:(done)). pose proof (Z.mod_pos_bound y 16 ltac:(done)). lia.
Qed.

Lemma div_mod_add a n m : 0 ≤ a < n → (m * n + a) / n = m ∧ (m * n + a) mod n = a.
Proof.
  intros Ha. split; [rewrite Z.div_add_l, Z.div_small by lia; lia|].
  by rewrite (Z.add_comm (m * n)), Z_mod_plus_full, Z.mod_small by lia.
Qed.

Lemma encode_class e l : Forall byte_ok l →
  Forall (fun a => base64Char (enURL e) a = true ∨ enPadded e = true ∧ a = "="%char) (encodeQuanta e l).
Proof.
  assert (∀ n, Forall (fun a => base64Char (enURL e) a = true ∨ enPadded e = true ∧ a = "="%char) (padding e n)) as Hpad.
  { intros n. unfold padding. destruct (enPadded e); [|constructor]. induction n; constructor; auto. }
  induction l as [|x|x y|x y z l IH] using quanta_ind; intros Hl; cbn [encodeQuanta]; [done|..];
    rewrite ?Forall_cons in Hl.
  - destruct Hl as [Hx _]. pose proof (sextet_bounds x x Hx Hx). repeat (apply Forall_cons; split; [left; apply encodeChar_class; lia|]); apply Hpad.
  - destruct Hl as (Hx & Hy & _). pose proof (sextet_bounds x y Hx Hy). repeat (apply Forall_cons; split; [left; apply encodeChar_class; lia|]); apply Hpad.
  - destruct Hl as (Hx & Hy & Hz & Hl). pose proof (sextet_bounds x y Hx Hy). pose proof (sextet_bounds z y Hz Hy).
    repeat (apply Forall_cons; split; [left; apply encodeChar_class; lia|]). by apply IH.
Qed.

Lemma filter_true {A} (f : A → bool) l : Forall (fun a => f a = true) l → List.filter f l = l.
Proof. induction 1 as [|a l Ha Hl IH]; [done|]. simpl. by rewrite Ha, IH. Qed.

Lemma decode_encodeQuanta e l : Forall byte_ok l → decodeQuanta e (encodeQuanta e l) = Some l.
Proof.
  assert (∀ v, 0 ≤ v < 64 → Ascii.eqb (encodeChar (enURL e) v) "="%char = false) as Hne.
  { intros v Hv. by apply (base64Char_plain (enURL e)), encodeChar_class. }
  induction l as [|x|x y|x y z l IH] using quanta_ind; intros Hl; cbn [encodeQuanta]; [done|..];
    rewrite ?Forall_cons in Hl.
  - destruct Hl as [Hx _]. pose proof (sextet_bounds x x Hx Hx). unfold padding.
    assert (quantum2 e (encodeChar (enURL e) (x / 4)) (encodeChar (enURL e) (x mod 4 * 16)) = Some [x]) as Hq.
    { unfold quantum2. rewrite !decode_encodeChar by lia. do 2 f_equal. rewrite Z.div_mul by done. pose proof (Z.div_mod x 4). lia. }
    destruct (enPadded e) eqn:Hp; cbn [repeat decodeQuanta]; rewrite Hp; cbn [andb]; rewrite ?Ascii.eqb_refl; exact Hq.
  - destruct Hl as (Hx & Hy & _). pose proof (sextet_bounds x y Hx Hy). unfold padding.
    assert (quantum3 e (encodeChar (enURL e) (x / 4)) (encodeChar (enURL e) (x mod 4 * 16 + y / 16))
              (encodeChar (enURL e) (y mod 16 * 4)) = Some [x; y]) as Hq.
    { unfold quantum3. rewrite !decode_encodeChar by lia. rewrite Z.div_mul by done.
      unfold byte_ok, in_range in Hx, Hy. change (2 ^ 8) with 256 in *.
      destruct (div_mod_add (y / 16) 16 (x mod 4)) as [-> ->]; [split; [apply Z.div_pos; lia|apply Z.div_lt_upper_bound; lia]|].
      pose proof (Z.div_mod x 4 ltac:(done)). pose proof (Z.div_mod y 16 ltac:(done)). repeat f_equal; lia. }
    destruct (enPadded e) eqn:Hp; cbn [repeat decodeQuanta]; rewrite Hp; cbn [andb]; rewrite ?Ascii.eqb_refl, ?Hne by lia; exact Hq.
  - destruct Hl as (Hx & Hy & Hz & Hl). pose proof (sextet_bounds x y Hx Hy). pose proof (sextet_bounds z y Hz Hy).
    cbn [decodeQuanta].
    assert (enPadded e && Ascii.eqb (encodeChar (enURL e) (z mod 64)) "="%char = false) as ->
      by (rewrite Hne by lia; apply andb_false_r).
    rewrite IH by done. unfold quantum4. rewrite !decode_encodeChar by lia.
    unfold byte_ok, in_range in Hx, Hy, Hz. change (2 ^ 8) with 256 in *.
    destruct (div_mod_add (y / 16) 16 (x mod 4)) as [-> ->]; [split; [apply Z.div_pos; lia|apply Z.div_lt_upper_bound; lia]|].
    destruct (div_mod_add (z / 64) 4 (y mod 16)) as [-> ->]; [split; [apply Z.div_pos; lia|apply Z.div_lt_upper_bound; lia]|].
    pose proof (Z.div_mod x 4 ltac:(done)). pose proof (Z.div_mod y 16 ltac:(done)). pose proof (Z.div_mod z 64 ltac:(done)).
    simpl. repeat f_equal; lia.
Qed.

Lemma DecodeString_EncodeToString e l : Forall byte_ok l → DecodeString e (EncodeToString e l) = Some l.
Proof.
  intros Hl. unfold DecodeString, EncodeToString. rewrite list_ascii_of_string_of_list_ascii, filter_true.
  - by apply decode_encodeQuanta.
  - eapply Forall_impl; [by apply encode_class|]. intros a [Ha|[_ ->]]; [|done].
    by destruct (base64Char_plain _ _ Ha) as [-> _].
Qed.

Lemma allChars_list f l : Forall (fun a => f a = true) l → allChars f (string_of_list_ascii l) = true.
Proof. induction 1 as [|a l Ha Hl IH]; [done|]. simpl. by rewrite Ha, IH. Qed.

(** The text of an encoding without padding stays in its alphabet. *)
Lemma EncodeToString_class e l :
  Forall byte_ok l → enPadded e = false → allChars (base64Char (enURL e)) (EncodeToString e l) = true.
Proof.
  intros Hl Hp. apply allChars_list. eapply Forall_impl; [by apply encode_class|]. intros a [Ha|[Hq _]]; [done|congruence].
Qed.

Lemma EncodeToString_empty e l : EncodeToString e l = "" → l = [].
Proof.
  unfold EncodeToString. destruct l as [|x [|y [|z l]]]; cbn [encodeQuanta]; done.
Qed.

(** ** Hexadecimal texts *)

Definition hexValue (a : ascii) : Z := if code a <? 58 then code a - 48 else code a - 87.
Definition hexLower (a : ascii) : bool := isDigit a || inside 97 102 (code a).
Definition hexFacts (n : Z) : bool := (hexValue (hexDigit n) =? n) && hexLower (hexDigit n).

Lemma hex_facts n : 0 ≤ n < 16 → hexValue (hexDigit n) = n ∧ hexLower (hexDigit n) = true.
Proof.
  intros Hn. assert (hexFacts n = true) as H by (apply (below_all 16 hexFacts); [vm_compute; reflexivity|done]).
  apply andb_true_iff in H as [H1%Z.eqb_eq H2]. done.
Qed.

Lemma hexOf_inj l l' : Forall byte_ok l → Forall byte_ok l' → hexOf l = hexOf l' → l = l'.
Proof.
  intros Hl. revert l'. induction Hl as [|b l Hb Hl IH]; intros l' Hl'; [by destruct Hl'|].
  destruct Hl' as [|b' l' Hb' Hl']; [done|]. cbn [hexOf]. intros [= E1 E2 E3].
  unfold byte_ok, in_range in Hb, Hb'. change (2 ^ 8) with 256 in *.
  apply (f_equal hexValue) in E1, E2.
  pose proof (Z.div_mod b 16 ltac:(done)). pose proof (Z.div_mod b' 16 ltac:(done)).
  pose proof (Z.mod_pos_bound b 16 ltac:(done)). pose proof (Z.mod_pos_bound b' 16 ltac:(done)).
  rewrite !(λ n H, proj1 (hex_facts n H)) in E1 by lia. rewrite !(λ n H, proj1 (hex_facts n H)) in E2 by lia.
  rewrite (IH l' Hl' E3). f_equal. lia.
Qed.

Lemma hexOf_class l : Forall byte_ok l → allChars hexLower (hexOf l) = true.
Proof.
  induction 1 as [|b l Hb Hl IH]; [done|]. cbn [hexOf allChars]. rewrite IH, !(λ n H, proj2 (hex_facts n H)); [done|..];
    unfold byte_ok, in_range in Hb; change (2 ^ 8) with 256 in *;
    pose proof (Z.div_mod b 16 ltac:(done)); pose proof (Z.mod_pos_bound b 16 ltac:(done)); lia.
Qed.
