(* ===== verification/RuntimeConfig.v ===== *)
(** * The HMI point table: [internal/runtimeconfig/config.go]

    The data of a configure message, [ValidateValue] with its type switches,
    [Validate] and [Normalize] with every check in source order; errors are one
    constructor per return statement.  The theorems give [Validate] a
    specification: it accepts exactly the tables whose points are well formed,
    have distinct ids and refer to readable and writable points of their type. *)

From S2P Require Import Prelude GoValue.

(** ** Data *)

Definition RequiredScanIntervalMs : Z := 500.
Definition DefaultPulseMs : Z := 100.

Record WriteDefinition := mkWriteDefinition {
  wMode : string;
  wActiveValue : goval;
  wDefaultValue : goval;
  wPulseMs : Z
}.

Record AlarmDefinition := mkAlarmDefinition {
  aNormalValue : goval;
  aAlarmValue : goval;
  aMessage : string
}.

Record PointDefinition := mkPointDefinition {
  pPointID : string;
  pAddress : string;
  pType : string;
  pAccess : string;
  pReadPoint : string;
  pWritePoint : string;
  pWriteMethod : string;
  pRegisterCount : Z;
  pWordOrder : string;
  pWrite : option WriteDefinition;
  pAlarm : option AlarmDefinition
}.

Record Config := mkConfig {
  cScanIntervalMs : Z;
  cPoints : list PointDefinition
}.

(** ** Errors: one constructor per return statement *)

Inductive value_error : Type :=
| EUnsupportedType (ty : string)
| EMustMatch (ty : string).

Inductive point_error : Type :=
| EPointIdRequired | EAddressRequired | ETypeUnsupported | EAccessUnsupported
| EReadPointRequired | EWriteOnlyReadPoint
| ERegisterCount2 | EWordOrder32 | ERegisterCount1 | EWordOrderExtra | ELayoutExtra
| EReadWriteFields | EWritePointRequired | EWriteMethodRequired
| EMethodMaskWrite | EMethodFC06 | EMethodFC10 | EMethodNone
| EWriteRequired | EWriteMode | EActiveValue (e : value_error)
| EDefaultValue (e : value_error) | EPulseMs | EValuesMustDiffer
| EAlarmReadable | EAlarmMessage | EAlarmNormal (e : value_error)
| EAlarmAlarm (e : value_error) | EAlarmDiffer.

Inductive config_error : Type :=
| EScanInterval | EPointsEmpty
| EPoint (index : nat) (e : point_error)
| EDuplicateId (index : nat) (id : string)
| EReadPointMissing (index : nat) (id : string)
| EReadPointNotReadable (index : nat) (id : string)
| EReadPointType (index : nat) (id : string)
| EWritePointMissing (index : nat) (id : string)
| EWritePointNotWritable (index : nat) (id : string)
| EWritePointType (index : nat) (id : string).

(** ** Values against point types *)

Definition isInteger (v : goval) : bool :=
  match v with
  | VInt _ _ => true
  | VFloat32 f => f64_eqb (f64_trunc (f64_of_f32 f)) (f64_of_f32 f)
  | VFloat64 f => f64_eqb (f64_trunc f) f
  | _ => false
  end.

Definition isNumber (v : goval) : bool :=
  match v with
  | VInt _ _ | VFloat32 _ | VFloat64 _ => true
  | _ => false
  end.

Definition numberAsFloat64 (v : goval) : spec_float :=
  match v with
  | VInt _ z => f64_of_Z z
  | VFloat32 f => f64_of_f32 f
  | VFloat64 f => f
  | _ => S754_zero false
  end.

(** [lo <= numberAsFloat64(value) && numberAsFloat64(value) <= hi]. *)
Definition numberWithin (lo hi : Z) (v : goval) : bool :=
  f64_leb (f64_of_Z lo) (numberAsFloat64 v) && f64_leb (numberAsFloat64 v) (f64_of_Z hi).

Definition ValidateValue (pointType : string) (v : goval) : result value_error unit :=
  let mismatch := Err (EMustMatch pointType) in
  if pointType =s "bool" then
    match v with VBool _ => Ok tt | _ => mismatch end
  else if (pointType =s "int") || (pointType =s "int16") then
    if isInteger v then
      if (pointType =s "int16") &&
         (f64_ltb (numberAsFloat64 v) (f64_of_Z (-32768)) ||
          f64_ltb (f64_of_Z 32767) (numberAsFloat64 v))
      then mismatch else Ok tt
    else mismatch
  else if pointType =s "int32" then
    if isInteger v && numberWithin (-2147483648) 2147483647 v then Ok tt else mismatch
  else if pointType =s "uint16" then
    if isInteger v && numberWithin 0 65535 v then Ok tt else mismatch
  else if (pointType =s "float") || (pointType =s "float32") then
    if isNumber v then
      if (pointType =s "float32") &&
         (f64_isNaN (numberAsFloat64 v) || f64_isInf (numberAsFloat64 v) ||
          f64_ltb maxFloat32 (SFabs (numberAsFloat64 v)))
      then mismatch else Ok tt
    else mismatch
  else if pointType =s "string" then
    match v with VString _ => Ok tt | _ => mismatch end
  else Err (EUnsupportedType pointType).

Definition validType (ty : string) : bool :=
  (ty =s "bool") || (ty =s "int") || (ty =s "float") || (ty =s "string") ||
  (ty =s "int16") || (ty =s "uint16") || (ty =s "int32") || (ty =s "float32").

(** ** One point *)

Definition validateRegisterLayout (p : PointDefinition) : result point_error unit :=
  if (pType p =s "float32") || (pType p =s "int32") then
    if negb (pRegisterCount p =? 2) then Err ERegisterCount2
    else if (pWordOrder p <>s "low-high") && (pWordOrder p <>s "high-low") then Err EWordOrder32
    else Ok tt
  else if (pType p =s "int16") || (pType p =s "uint16") then
    if negb (pRegisterCount p =? 1) then Err ERegisterCount1
    else if pWordOrder p <>s "" then Err EWordOrderExtra
    else Ok tt
  else
    if negb (pRegisterCount p =? 0) || (pWordOrder p <>s "") then Err ELayoutExtra
    else Ok tt.

Definition validateWriteMethod (p : PointDefinition) : result point_error unit :=
  if pType p =s "bool" then
    if pWriteMethod p <>s "maskWrite" then Err EMethodMaskWrite else Ok tt
  else if (pType p =s "int16") || (pType p =s "uint16") then
    if pWriteMethod p <>s "fc06" then Err EMethodFC06 else Ok tt
  else if (pType p =s "int32") || (pType p =s "float32") then
    if pWriteMethod p <>s "fc10" then Err EMethodFC10 else Ok tt
  else Err EMethodNone.

Definition wrapErr {E E' A} (f : E → E') (r : result E A) : result E' A :=
  match r with Ok a => Ok a | Err e => Err (f e) end.

Definition validateWrite (pointType : string) (w : option WriteDefinition)
    : result point_error unit :=
  match w with
  | None => Err EWriteRequired
  | Some w =>
      if (wMode w <>s "set") && (wMode w <>s "pulse") &&
         (wMode w <>s "momentary") && (wMode w <>s "toggle") then Err EWriteMode
      else if wMode w =s "set" then Ok tt
      else
        let? _ := wrapErr EActiveValue (ValidateValue pointType (wActiveValue w)) in
        let? _ := wrapErr EDefaultValue (ValidateValue pointType (wDefaultValue w)) in
        if (wMode w =s "pulse") && (wPulseMs w <=? 0) then Err EPulseMs
        else if ((wMode w =s "pulse") || (wMode w =s "momentary") || (wMode w =s "toggle"))
                && deepEqual (wActiveValue w) (wDefaultValue w) then Err EValuesMustDiffer
        else Ok tt
  end.

Definition isBlank (s : string) : bool := trimSpace s =s "".

Definition validateWriteSide (p : PointDefinition) : result point_error unit :=
  if pAccess p =s "read" then
    if (pWritePoint p <>s "") || (pWriteMethod p <>s "") || bool_decide (is_Some (pWrite p))
    then Err EReadWriteFields else Ok tt
  else if isBlank (pWritePoint p) then Err EWritePointRequired
  else if isBlank (pWriteMethod p) then Err EWriteMethodRequired
  else
    let? _ := validateWriteMethod p in
    validateWrite (pType p) (pWrite p).

Definition validateAlarm (p : PointDefinition) : result point_error unit :=
  match pAlarm p with
  | None => Ok tt
  | Some a =>
      if pAccess p =s "write" then Err EAlarmReadable
      else if isBlank (aMessage a) then Err EAlarmMessage
      else
        let? _ := wrapErr EAlarmNormal (ValidateValue (pType p) (aNormalValue a)) in
        let? _ := wrapErr EAlarmAlarm (ValidateValue (pType p) (aAlarmValue a)) in
        if deepEqual (aNormalValue a) (aAlarmValue a) then Err EAlarmDiffer else Ok tt
  end.

Definition validatePoint (p : PointDefinition) : result point_error unit :=
  if isBlank (pPointID p) then Err EPointIdRequired
  else if isBlank (pAddress p) then Err EAddressRequired
  else if negb (validType (pType p)) then Err ETypeUnsupported
  else if (pAccess p <>s "read") && (pAccess p <>s "write") && (pAccess p <>s "read_write")
    then Err EAccessUnsupported
  else if (pAccess p <>s "write") && isBlank (pReadPoint p) then Err EReadPointRequired
  else if (pAccess p =s "write") && negb (isBlank (pReadPoint p)) then Err EWriteOnlyReadPoint
  else
    let? _ := validateRegisterLayout p in
    let? _ := validateWriteSide p in
    validateAlarm p.

(** ** The table *)

(** First loop of [Validate]: each point on its own, and distinct ids. *)
Fixpoint indexPoints (index : nat) (points : list PointDefinition)
    (byID : gmap string PointDefinition) : result config_error (gmap string PointDefinition) :=
  match points with
  | [] => Ok byID
  | p :: rest =>
      let? _ := wrapErr (EPoint index) (validatePoint p) in
      match byID !! pPointID p with
      | Some _ => Err (EDuplicateId index (pPointID p))
      | None => indexPoints (S index) rest (<[pPointID p := p]> byID)
      end
  end.

Definition checkReadReference (byID : gmap string PointDefinition) (index : nat)
    (p : PointDefinition) : result config_error unit :=
  if pAccess p =s "write" then Ok tt
  else match byID !! pReadPoint p with
       | None => Err (EReadPointMissing index (pReadPoint p))
       | Some r =>
           if pAccess r =s "write" then Err (EReadPointNotReadable index (pReadPoint p))
           else if pType r <>s pType p then Err (EReadPointType index (pReadPoint p))
           else Ok tt
       end.

Definition checkWriteReference (byID : gmap string PointDefinition) (index : nat)
    (p : PointDefinition) : result config_error unit :=
  if pAccess p =s "read" then Ok tt
  else match byID !! pWritePoint p with
       | None => Err (EWritePointMissing index (pWritePoint p))
       | Some w =>
           if pAccess w =s "read" then Err (EWritePointNotWritable index (pWritePoint p))
           else if pType w <>s pType p then Err (EWritePointType index (pWritePoint p))
           else Ok tt
       end.

(** Second loop of [Validate]: the references between points. *)
Fixpoint checkReferences (byID : gmap string PointDefinition) (index : nat)
    (points : list PointDefinition) : result config_error unit :=
  match points with
  | [] => Ok tt
  | p :: rest =>
      let? _ := checkReadReference byID index p in
      let? _ := checkWriteReference byID index p in
      checkReferences byID (S index) rest
  end.

Definition Validate (c : Config) : result config_error unit :=
  if negb (cScanIntervalMs c =? RequiredScanIntervalMs) then Err EScanInterval
  else match cPoints c with
       | [] => Err EPointsEmpty
       | _ => let? byID := indexPoints 0 (cPoints c) ∅ in
              checkReferences byID 0 (cPoints c)
       end.

Definition defaultPulse (p : PointDefinition) : PointDefinition :=
  match pWrite p with
  | Some w =>
      if (wMode w =s "pulse") && (wPulseMs w =? 0) then
        mkPointDefinition (pPointID p) (pAddress p) (pType p) (pAccess p) (pReadPoint p)
          (pWritePoint p) (pWriteMethod p) (pRegisterCount p) (pWordOrder p)
          (Some (mkWriteDefinition (wMode w) (wActiveValue w) (wDefaultValue w) DefaultPulseMs))
          (pAlarm p)
      else p
  | None => p
  end.

Definition Normalize (c : Config) : result config_error Config :=
  let copy := mkConfig (cScanIntervalMs c) (map defaultPulse (cPoints c)) in
  let? _ := Validate copy in
  Ok copy.

(** ** Specification *)

(** What a checked table guarantees to the point store and the worker. *)
Record point_ok (byID : gmap string PointDefinition) (p : PointDefinition) : Prop := {
  po_valid : validatePoint p = Ok tt;
  po_read : pAccess p ≠ "write" →
    ∃ r, byID !! pReadPoint p = Some r ∧ pAccess r ≠ "write" ∧ pType r = pType p;
  po_write : pAccess p ≠ "read" →
    ∃ w, byID !! pWritePoint p = Some w ∧ pAccess w ≠ "read" ∧ pType w = pType p
}.

Definition table (points : list PointDefinition) : gmap string PointDefinition :=
  list_to_map (map (fun p => (pPointID p, p)) points).

Record config_ok (c : Config) : Prop := {
  co_interval : cScanIntervalMs c = RequiredScanIntervalMs;
  co_nonempty : cPoints c ≠ [];
  co_unique : NoDup (map pPointID (cPoints c));
  co_points : ∀ p, p ∈ cPoints c → point_ok (table (cPoints c)) p
}.

(** ** Proofs *)

Lemma wrapErr_ok {E E' A} (f : E → E') (r : result E A) a : wrapErr f r = Ok a ↔ r = Ok a.
Proof. destruct r; simpl; naive_solver. Qed.

Lemma rbind_ok {E A B} (r : result E A) (k : A → result E B) b :
  rbind r k = Ok b ↔ ∃ a, r = Ok a ∧ k a = Ok b.
Proof. destruct r; simpl; naive_solver. Qed.

Lemma table_cons p ps : table (p :: ps) = <[pPointID p := p]> (table ps).
Proof. done. Qed.

Lemma table_lookup_None id ps : table ps !! id = None ↔ id ∉ map pPointID ps.
Proof.
  unfold table. rewrite <-not_elem_of_list_to_map. f_equiv.
  rewrite <-list_fmap_compose. done.
Qed.

Lemma indexPoints_ok i ps m m' :
  indexPoints i ps m = Ok m' ↔
    Forall (fun p => validatePoint p = Ok tt) ps ∧ NoDup (map pPointID ps) ∧
    Forall (fun p => m !! pPointID p = None) ps ∧ m' = table ps ∪ m.
Proof.
  revert i m. induction ps as [|p ps IH]; intros i m; simpl.
  - unfold table. simpl. rewrite (left_id_L ∅ (∪)). split; [|naive_solver].
    intros [= <-]. repeat split; auto. apply NoDup_nil_2.
  - rewrite rbind_ok. setoid_rewrite wrapErr_ok.
    rewrite !Forall_cons, NoDup_cons.
    destruct (m !! pPointID p) eqn:Hm; [naive_solver|].
    setoid_rewrite IH. rewrite table_cons.
    assert (pPointID p ∉ map pPointID ps →
      table ps ∪ <[pPointID p := p]> m = <[pPointID p := p]> (table ps) ∪ m) as Hu.
    { intros ?%table_lookup_None. by rewrite <-insert_union_r, insert_union_l. }
    split.
    + intros ([] & Hp & Hps & Hnd & Hm' & ->).
      assert (pPointID p ∉ map pPointID ps) as Hnin.
      { intros (q & Hq & Hin)%list_elem_of_fmap.
        rewrite Forall_forall in Hm'. specialize (Hm' _ Hin).
        rewrite <-Hq, lookup_insert_eq in Hm'. done. }
      rewrite Hu by done. repeat split; auto.
      eapply Forall_impl; [exact Hm'|]. simpl. by intros q [? _]%lookup_insert_None.
    + intros ((Hp & Hps) & (Hnin & Hnd) & (_ & Hm') & ->).
      exists tt. rewrite Hu by done. repeat split; auto.
      rewrite Forall_forall in Hm' |- *. intros q Hq. apply lookup_insert_None.
      split; [auto|]. intros Heq. apply Hnin. rewrite Heq. by apply list_elem_of_fmap_2.
Qed.

Lemma checkReadReference_ok m i p :
  checkReadReference m i p = Ok tt ↔
    (pAccess p ≠ "write" →
     ∃ r, m !! pReadPoint p = Some r ∧ pAccess r ≠ "write" ∧ pType r = pType p).
Proof.
  unfold checkReadReference. destruct (String.eqb_spec (pAccess p) "write"); [naive_solver|].
  destruct (m !! pReadPoint p) as [r|] eqn:E; [|naive_solver].
  destruct (String.eqb_spec (pAccess r) "write"), (String.eqb_spec (pType r) (pType p));
    simpl; naive_solver.
Qed.

Lemma checkWriteReference_ok m i p :
  checkWriteReference m i p = Ok tt ↔
    (pAccess p ≠ "read" →
     ∃ w, m !! pWritePoint p = Some w ∧ pAccess w ≠ "read" ∧ pType w = pType p).
Proof.
  unfold checkWriteReference. destruct (String.eqb_spec (pAccess p) "read"); [naive_solver|].
  destruct (m !! pWritePoint p) as [w|] eqn:E; [|naive_solver].
  destruct (String.eqb_spec (pAccess w) "read"), (String.eqb_spec (pType w) (pType p));
    simpl; naive_solver.
Qed.

Lemma checkReferences_ok m i ps :
  checkReferences m i ps = Ok tt ↔
    Forall (fun p => checkReadReference m 0 p = Ok tt ∧ checkWriteReference m 0 p = Ok tt) ps.
Proof.
  revert i. induction ps as [|p ps IH]; intros i; simpl; [by rewrite Forall_nil|].
  rewrite rbind_ok, Forall_cons. setoid_rewrite rbind_ok. setoid_rewrite IH.
  split.
  - intros ([] & Hr & [] & Hw & ?). rewrite checkReadReference_ok in Hr.
    rewrite checkWriteReference_ok in Hw.
    by rewrite checkReadReference_ok, checkWriteReference_ok.
  - intros ([Hr Hw] & ?). exists tt. rewrite checkReadReference_ok in Hr |- *.
    split; [done|]. exists tt. rewrite checkWriteReference_ok in Hw |- *. done.
Qed.

Lemma Validate_ok c : Validate c = Ok tt ↔ config_ok c.
Proof.
  unfold Validate. destruct (Z.eqb_spec (cScanIntervalMs c) RequiredScanIntervalMs); simpl;
    [|split; [done|by intros []]].
  destruct (cPoints c) as [|p0 ps0] eqn:Hps; [split; [done|by intros []]|].
  rewrite <-Hps. rewrite rbind_ok. setoid_rewrite indexPoints_ok.
  setoid_rewrite checkReferences_ok. split.
  - intros (m & (Hv & Hnd & _ & ->) & Href). rewrite (right_id_L ∅ (∪)) in Href.
    rewrite Forall_forall in Hv, Href. split; [done|by rewrite Hps|done|].
    intros p Hp. destruct (Href p Hp) as [Hr Hw].
    rewrite checkReadReference_ok in Hr. rewrite checkWriteReference_ok in Hw.
    split; auto.
  - intros [_ _ Hnd Hp]. exists (table (cPoints c)).
    rewrite (right_id_L ∅ (∪)). setoid_rewrite lookup_empty. rewrite !Forall_forall.
    repeat split; try done; try apply checkReadReference_ok; try apply checkWriteReference_ok;
      by apply Hp.
Qed.

Lemma defaultPulse_idem p : defaultPulse (defaultPulse p) = defaultPulse p.
Proof.
  unfold defaultPulse. destruct (pWrite p) as [w|] eqn:E; [|by rewrite E].
  destruct ((wMode w =s "pulse") && (wPulseMs w =? 0)) eqn:E'; simpl.
  - by rewrite andb_false_r.
  - by rewrite E, E'.
Qed.

Lemma defaultPulse_id p : pPointID (defaultPulse p) = pPointID p.
Proof. unfold defaultPulse. repeat case_match; done. Qed.

Lemma Normalize_ok c c' :
  Normalize c = Ok c' ↔
    c' = mkConfig (cScanIntervalMs c) (map defaultPulse (cPoints c)) ∧ config_ok c'.
Proof.
  unfold Normalize. rewrite rbind_ok. setoid_rewrite <-Validate_ok. split.
  - intros ([] & ? & [= <-]). done.
  - intros [-> ?]. by exists tt.
Qed.

Lemma validatePoint_ok p :
  validatePoint p = Ok tt ↔
    isBlank (pPointID p) = false ∧ isBlank (pAddress p) = false ∧ validType (pType p) = true ∧
    (pAccess p = "read" ∨ pAccess p = "write" ∨ pAccess p = "read_write") ∧
    (pAccess p = "write" ↔ isBlank (pReadPoint p) = true) ∧
    validateRegisterLayout p = Ok tt ∧ validateWriteSide p = Ok tt ∧ validateAlarm p = Ok tt.
Proof.
  unfold validatePoint.
  destruct (isBlank (pPointID p)), (isBlank (pAddress p)), (validType (pType p)); simpl;
    try naive_solver.
  destruct (validateRegisterLayout p) as [[]|], (validateWriteSide p) as [[]|],
    (validateAlarm p) as [[]|], (isBlank (pReadPoint p)),
    (String.eqb_spec (pAccess p) "read"), (String.eqb_spec (pAccess p) "write"),
    (String.eqb_spec (pAccess p) "read_write"); simpl; split; try congruence; intuition congruence.
Qed.

(** A pulse in a normalized table has a positive duration. *)
Lemma validatePoint_pulse p w :
  validatePoint p = Ok tt → pAccess p ≠ "read" → pWrite p = Some w → wMode w = "pulse" →
  0 < wPulseMs w.
Proof.
  rewrite validatePoint_ok. intros (_ & _ & _ & _ & _ & _ & H & _) Ha Hw Hm.
  unfold validateWriteSide, validateWrite in H.
  rewrite (proj2 (String.eqb_neq _ _) Ha), Hw, Hm in H. simpl in H.
  do 2 (case_match; [done|]).
  apply rbind_ok in H as ([] & _ & H). apply rbind_ok in H as ([] & _ & H).
  apply rbind_ok in H as ([] & _ & H). case_match; [done|]. propify. lia.
Qed.

(** Facts used by the worker's plan. *)

Lemma table_lookup_In ps p : NoDup (map pPointID ps) → p ∈ ps → table ps !! pPointID p = Some p.
Proof.
  intros Hnd Hp. unfold table. apply elem_of_list_to_map_1.
  - by rewrite <-list_fmap_compose.
  - by apply (list_elem_of_fmap_2 (fun p => (pPointID p, p))).
Qed.

Lemma config_lookup c p :
  config_ok c → p ∈ cPoints c → table (cPoints c) !! pPointID p = Some p.
Proof. intros [_ _ Hnd _] Hp. by apply table_lookup_In. Qed.

Lemma table_lookup_Some ps id p : table ps !! id = Some p → p ∈ ps ∧ pPointID p = id.
Proof.
  unfold table. intros Hl%elem_of_list_to_map_2. by apply list_elem_of_fmap in Hl as (q & [= -> ->] & Hq).
Qed.
