(* ===== verification/PointStore.v ===== *)
(** * The session's point values: [internal/pointstore/store.go]

    The store is its two maps; its mutex makes every method one atomic step.
    [Update] ranges over a Go map, so it takes the enumeration the runtime
    chose: a theorem about it holds for every permutation of the map's items. *)

From S2P Require Import Prelude GoValue RuntimeConfig.

(** ** Data *)

Record PointValue := mkPointValue {
  pvValue : goval;
  pvQuality : string;
  pvUpdatedAt : Z;
  pvAlarmActive : option bool
}.

#[global] Instance PointValue_eq_dec : EqDecision PointValue.
Proof. solve_decision. Defined.

Definition emptyPointValue : PointValue := mkPointValue VNil "" zeroTime None.

Record Store := mkStore {
  sDefinitions : gmap string PointDefinition;
  sValues : gmap string PointValue
}.

Inductive store_error : Type :=
| SEConfig (e : config_error)
| SENotConfigured (id : string)
| SEQuality (id : string)
| SEValueRequired (id : string)
| SEValue (id : string) (e : value_error)
| SEUpdatedAt (id : string).

(** ** Operations *)

Definition New : Store := mkStore ∅ ∅.

Definition Replace (config : Config) (s : Store) : result store_error unit * Store :=
  match Normalize config with
  | Err e => (Err (SEConfig e), s)
  | Ok normalized => (Ok tt, mkStore (list_to_map (reverse (map (fun p => (pPointID p, p))
                                        (cPoints normalized)))) ∅)
  end.

Definition Clear (s : Store) : Store := mkStore ∅ ∅.

Definition ClearValues (s : Store) : Store := mkStore (sDefinitions s) ∅.

Definition Configured (s : Store) : bool := (0 <? size (sDefinitions s))%nat.

Definition Definition_ (s : Store) (id : string) : option PointDefinition := sDefinitions s !! id.

Definition Snapshot (s : Store) : gmap string PointValue := sValues s.

Definition boolEqual (l r : option bool) : bool :=
  match l, r with
  | Some a, Some b => Bool.eqb a b
  | None, None => true
  | _, _ => false
  end.

Definition sameDisplayState (l r : PointValue) : bool :=
  (pvQuality l =s pvQuality r) && deepEqual (pvValue l) (pvValue r) &&
  boolEqual (pvAlarmActive l) (pvAlarmActive r).

(** The checks of one item of [Update], in source order. *)
Definition checkUpdate (definitions : gmap string PointDefinition) (id : string) (v : PointValue)
    : result store_error unit :=
  match definitions !! id with
  | None => Err (SENotConfigured id)
  | Some d =>
      if (pvQuality v <>s "good") && (pvQuality v <>s "stale") && (pvQuality v <>s "error")
      then Err (SEQuality id)
      else if bool_decide (pvValue v = VNil) && (pvQuality v =s "good")
      then Err (SEValueRequired id)
      else
        let? _ := if bool_decide (pvValue v = VNil) then Ok tt
                  else wrapErr (SEValue id) (ValidateValue (pType d) (pvValue v)) in
        if isZero (pvUpdatedAt v) then Err (SEUpdatedAt id) else Ok tt
  end.

Definition displayChanged (previous : option PointValue) (v : PointValue) : bool :=
  match previous with
  | None => true
  | Some old => negb (sameDisplayState old v)
  end.

(** The loop of [Update] over the items in the order the map yields them. *)
Fixpoint updateLoop (items : list (string * PointValue)) (changed : gmap string PointValue)
    (s : Store) : result store_error (gmap string PointValue) * Store :=
  match items with
  | [] => (Ok changed, s)
  | (id, v) :: rest =>
      match checkUpdate (sDefinitions s) id v with
      | Err e => (Err e, s)
      | Ok _ =>
          let previous := sValues s !! id in
          let s' := mkStore (sDefinitions s) (<[id := v]> (sValues s)) in
          let changed' := if displayChanged previous v then <[id := v]> changed else changed in
          updateLoop rest changed' s'
      end
  end.

Definition Update (items : list (string * PointValue)) (s : Store)
    : result store_error (gmap string PointValue) * Store :=
  updateLoop items ∅ s.

(** ** Invariant *)

(** A stored value is one [Update] would accept again. *)
Definition store_ok (s : Store) : Prop :=
  ∀ id v, sValues s !! id = Some v → checkUpdate (sDefinitions s) id v = Ok tt.

Lemma New_ok : store_ok New.
Proof. done. Qed.

Lemma Clear_ok s : store_ok (Clear s).
Proof. done. Qed.

Lemma ClearValues_ok s : store_ok (ClearValues s).
Proof. done. Qed.

Lemma Replace_ok c s r s' : store_ok s → Replace c s = (r, s') → store_ok s'.
Proof. unfold Replace. intros ?. by case_match; intros [= <- <-]. Qed.

Lemma updateLoop_defs items changed s r s' :
  updateLoop items changed s = (r, s') → sDefinitions s' = sDefinitions s.
Proof.
  revert changed s. induction items as [|[id v] rest IH]; intros changed s; simpl.
  - by intros [= <- <-].
  - case_match; [by intros ->%IH|by intros [= <- <-]].
Qed.

Lemma updateLoop_ok items changed s r s' :
  store_ok s → updateLoop items changed s = (r, s') → store_ok s'.
Proof.
  revert changed s. induction items as [|[id v] rest IH]; intros changed s Hs; simpl.
  - by intros [= <- <-].
  - case_match eqn:E; [|by intros [= <- <-]]. apply IH. intros id' v'. simpl.
    rewrite lookup_insert. case_decide; [|by apply Hs].
    intros [= <-]. subst. by destruct a.
Qed.

(** What the loop does on success: the items are written, and the reported map
    has exactly the items whose displayed state differs from the store's. *)
Lemma updateLoop_success items changed s ch s' :
  NoDup items.*1 →
  updateLoop items changed s = (Ok ch, s') →
  sValues s' = list_to_map items ∪ sValues s ∧
  ∀ id, ch !! id =
    match (list_to_map items : gmap string PointValue) !! id with
    | Some v => if displayChanged (sValues s !! id) v then Some v else changed !! id
    | None => changed !! id
    end.
Proof.
  revert changed s. induction items as [|[id v] rest IH]; intros changed s Hnd; simpl.
  - intros [= <- <-]. split; [symmetry; apply (left_id_L ∅ (∪))|done].
  - apply NoDup_cons in Hnd as [Hnin Hnd]. case_match eqn:E; [|done]. intros H.
    apply IH in H as [-> Hch]; [|done]. simpl in *.
    apply not_elem_of_list_to_map in Hnin. split.
    { rewrite <-insert_union_r by done. apply insert_union_l. }
    intros id'. rewrite Hch. change (list_to_map ((id, v) :: rest))
      with (<[id := v]> (list_to_map rest : gmap string PointValue)).
    destruct (decide (id = id')) as [<-|]; [rewrite Hnin, lookup_insert_eq|].
    + destruct (displayChanged _ v); [by rewrite lookup_insert_eq|done].
    + rewrite (lookup_insert_ne (list_to_map rest)) by done.
      destruct (list_to_map rest !! id') as [v0|], (displayChanged (sValues s !! id) v);
        by rewrite ?lookup_insert_ne by done.
Qed.

(** On failure every value is an old one or one of the items. *)
Lemma updateLoop_failure items changed s e s' id v :
  updateLoop items changed s = (Err e, s') → sValues s' !! id = Some v →
  (id, v) ∈ items ∨ sValues s !! id = Some v.
Proof.
  revert changed s. induction items as [|[id' v'] rest IH]; intros changed s; simpl; [done|].
  case_match; [|by intros [= <- <-]; auto].
  intros Hr Hv. destruct (IH _ _ Hr Hv) as [?|Hl]; [left; by right|].
  simpl in Hl. rewrite lookup_insert in Hl. case_decide; [|auto].
  simplify_eq. left. left.
Qed.

Lemma updateLoop_accepts items changed s :
  Forall (fun kv => checkUpdate (sDefinitions s) kv.1 kv.2 = Ok tt) items →
  ∃ ch s', updateLoop items changed s = (Ok ch, s').
Proof.
  revert changed s. induction items as [|[id v] rest IH]; intros changed s H; simpl; [eauto|].
  apply Forall_cons in H as [Hc H]. simpl in Hc. rewrite Hc. by apply IH.
Qed.

(** The error returned is that of an item. *)
Lemma updateLoop_error items changed s e s' :
  updateLoop items changed s = (Err e, s') →
  ∃ kv, kv ∈ items ∧ checkUpdate (sDefinitions s) kv.1 kv.2 = Err e.
Proof.
  revert changed s. induction items as [|[id v] rest IH]; intros changed s; simpl; [done|].
  destruct (checkUpdate (sDefinitions s) id v) as [u|e'] eqn:Hc.
  - intros (kv & Hin & He)%IH. exists kv. split; [by right|done].
  - intros [= <- <-]. exists (id, v). split; [left|done].
Qed.
