(* ===== verification/Easy521.v ===== *)
(** * The Modbus TCP client: [internal/easy521/client.go]

    The client's state is [Client]; the connection is an instance of the class
    [Transport], whose operations are the calls the client makes on a
    [net.Conn] ([dial], [Write], [io.ReadFull], [Close]); deadlines show up as
    the errors those calls return.  Every operation is a [GoM] program over the
    pair of both.  The theorems cover the invariants the PLC worker relies on:
    a failed exchange leaves no connection behind, transaction ids are never
    zero, and a write is never repeated after a transport failure. *)

From S2P Require Import Prelude.

(** ** The network under the client *)

(** The classes of errors [transportError] tells apart. *)
Inductive net_error : Type :=
| NEOF | NUnexpectedEOF | NClosed | NDeadlineExceeded | NNetError | NOther.

Class Transport (N : Type) := {
  netDial : N → result net_error unit * N;
  netWrite : list Z → N → result net_error unit * N;
  netReadFull : nat → N → result net_error (list Z) * N;
  netClose : N → N
}.

(** The documented contract of [io.ReadFull]: no error means a full buffer. *)
Class TransportLaws (N : Type) `{Transport N} : Prop := {
  readFull_length n s bs s' : netReadFull n s = (Ok bs, s') → length bs = n;
  readFull_bytes n s bs s' : netReadFull n s = (Ok bs, s') → Forall byte_ok bs
}.

(** ** Data *)

Definition functionReadHoldingRegisters : Z := 3.
Definition functionWriteSingleRegister : Z := 6.
Definition functionWriteMultipleRegs : Z := 16.
Definition functionMaskWriteRegister : Z := 22.
Definition exceptionIllegalFunction : Z := 1.
Definition maxReadRegisters : Z := 125.
Definition maxWriteRegisters : Z := 123.

Record ClientConfig := mkClientConfig {
  cfgEndpoint : string;
  cfgUnitID : Z;
  cfgConnectTimeout : Z;
  cfgRequestTimeout : Z
}.

Record Client := mkClient {
  clCfg : ClientConfig;
  clConn : bool;
  clNextID : Z;
  clMaskWriteUnsupported : bool;
  clWriteMultipleUnsupported : bool
}.

Inductive client_error : Type :=
| CEDisconnected (e : net_error)   (* wraps ErrTransportDisconnected *)
| CENet (e : net_error)
| CEException (code : Z)
| CEInvalidMBAP | CEInvalidException | CEFunctionMismatch
| CERange03 | CEInvalid03 | CEEcho06 | CERange10 | CEInvalid10 | CEBitRange | CEEcho22.

Inductive config_error : Type := CCEndpoint | CCTimeouts.

Definition validateConfig (c : ClientConfig) : result config_error unit :=
  if cfgEndpoint c =s "" then Err CCEndpoint
  else if (cfgConnectTimeout c <=? 0) || (cfgRequestTimeout c <=? 0) then Err CCTimeouts
  else Ok tt.

Definition NewWithDial (c : ClientConfig) : result config_error Client :=
  let? _ := validateConfig c in
  Ok (mkClient c false 1 false false).

Definition transportError (e : net_error) : client_error :=
  match e with
  | NEOF | NUnexpectedEOF | NClosed | NDeadlineExceeded | NNetError => CEDisconnected e
  | NOther => CENet e
  end.

Definition isDisconnectedError (e : client_error) : bool :=
  match e with CEDisconnected _ => true | _ => false end.

Definition isIllegalFunction (e : client_error) : bool :=
  match e with CEException code => code =? exceptionIllegalFunction | _ => false end.

Definition setConn (b : bool) (c : Client) : Client :=
  mkClient (clCfg c) b (clNextID c) (clMaskWriteUnsupported c) (clWriteMultipleUnsupported c).
Definition setNextID (n : Z) (c : Client) : Client :=
  mkClient (clCfg c) (clConn c) n (clMaskWriteUnsupported c) (clWriteMultipleUnsupported c).
Definition setMaskWriteUnsupported (c : Client) : Client :=
  mkClient (clCfg c) (clConn c) (clNextID c) true (clWriteMultipleUnsupported c).
Definition setWriteMultipleUnsupported (c : Client) : Client :=
  mkClient (clCfg c) (clConn c) (clNextID c) (clMaskWriteUnsupported c) true.

(** [binary.BigEndian.Uint16] over the register bytes of a response. *)
Fixpoint registersOf (bytes : list Z) : list Z :=
  match bytes with
  | hi :: lo :: rest => getU16 hi lo :: registersOf rest
  | _ => []
  end.

Definition byteAt (l : list Z) (i : nat) : Z := nth i l 0.
Definition u16At (l : list Z) (i : nat) : Z := getU16 (byteAt l i) (byteAt l (S i)).
Definition bytesEqual (a b : list Z) : bool := bool_decide (a = b).

(** The frame of one request. *)
Definition frameOf (transactionID unit : Z) (pdu : list Z) : list Z :=
  putU16 transactionID ++ [0; 0] ++ putU16 (u16 (Z.of_nat (length pdu) + 1)) ++ [unit] ++ pdu.

Definition nextTransaction (n : Z) : Z :=
  let n' := u16 (n + 1) in if n' =? 0 then 1 else n'.

(** ** Operations *)

Section client.
Context {N : Type} `{Transport N}.

Definition ClientM (A : Type) : Type := GoM (Client * N) client_error A.

Definition client : ClientM Client := fun s => (Ok s.1, s).
Definition modifyClient (f : Client → Client) : ClientM unit :=
  fun s => (Ok tt, (f s.1, s.2)).
Definition net {A} (op : N → result net_error A * N) : ClientM (result net_error A) :=
  fun s => let '(r, n) := op s.2 in (Ok r, (s.1, n)).

Definition Close : ClientM unit :=
  fun s => if clConn s.1 then (Ok tt, (setConn false s.1, netClose s.2)) else (Ok tt, s).

(** An error of the connection: it is closed, and the error classified. *)
Definition orClose {A} (r : result net_error A) : ClientM A :=
  match r with
  | Ok a => gret a
  | Err e => run! Close; gfail (transportError e)
  end.

Definition closeWith {A} (e : client_error) : ClientM A := run! Close; gfail e.

Definition ensureConnection : ClientM unit :=
  do! c <- client;
  if clConn c then gret tt
  else
    do! r <- net netDial;
    match r with
    | Err e => gfail (transportError e)
    | Ok _ => modifyClient (setConn true)
    end.

Definition exchange (pdu : list Z) : ClientM (list Z) :=
  run! ensureConnection;
  run! modifyClient (fun c => setNextID (nextTransaction (clNextID c)) c);
  do! c <- client;
  let transactionID := clNextID c in
  let unitID := cfgUnitID (clCfg c) in
  do! w <- net (netWrite (frameOf transactionID unitID pdu));
  run! orClose w;
  do! h <- net (netReadFull 7);
  do! header <- orClose h;
  let length_ := u16At header 4 in
  if negb (u16At header 0 =? transactionID) || negb (u16At header 2 =? 0) ||
     negb (byteAt header 6 =? unitID) || (length_ <? 2) || (260 <? length_)
  then closeWith CEInvalidMBAP
  else
    do! b <- net (netReadFull (Z.to_nat (length_ - 1)));
    do! response <- orClose b;
    if byteAt response 0 =? Z.lor (byteAt pdu 0) 128 then
      if negb (length response =? 2)%nat then closeWith CEInvalidException
      else closeWith (CEException (byteAt response 1))
    else if negb (byteAt response 0 =? byteAt pdu 0) then closeWith CEFunctionMismatch
    else gret response.

Definition ReadHoldingRegisters (address quantity : Z) : ClientM (list Z) :=
  if (quantity =? 0) || (maxReadRegisters <? quantity) || (2 ^ 16 <? address + quantity)
  then gfail CERange03
  else
    let request := functionReadHoldingRegisters :: putU16 address ++ putU16 quantity in
    do! response <- exchange request;
    if negb (Z.of_nat (length response) =? 2 + quantity * 2) ||
       negb (byteAt response 0 =? functionReadHoldingRegisters) ||
       negb (byteAt response 1 =? quantity * 2)
    then closeWith CEInvalid03
    else gret (registersOf (drop 2 response)).

Definition WriteSingleRegister (address value : Z) : ClientM unit :=
  let request := functionWriteSingleRegister :: putU16 address ++ putU16 value in
  do! response <- exchange request;
  if negb (bytesEqual response request) then closeWith CEEcho06 else gret tt.

Definition writeMultipleRegistersFC10 (address : Z) (values : list Z) : ClientM unit :=
  let n := Z.of_nat (length values) in
  let request := functionWriteMultipleRegs :: putU16 address ++ putU16 (u16 n)
                 ++ [u8 (n * 2)] ++ mjoin (map putU16 values) in
  do! response <- exchange request;
  if negb (length response =? 5)%nat || negb (byteAt response 0 =? functionWriteMultipleRegs) ||
     negb (u16At response 1 =? address) || negb (u16At response 3 =? u16 n)
  then closeWith CEInvalid10
  else gret tt.

(** [index] counts the values already written. *)
Fixpoint writeMultipleWithSingleRegisters (address index : Z) (values : list Z) : ClientM unit :=
  match values with
  | [] => gret tt
  | value :: rest =>
      run! WriteSingleRegister (u16 (address + index)) value;
      writeMultipleWithSingleRegisters address (index + 1) rest
  end.

Definition WriteMultipleRegisters (address : Z) (values : list Z) : ClientM unit :=
  let n := Z.of_nat (length values) in
  if (n =? 0) || (maxWriteRegisters <? n) || (2 ^ 16 <? address + n) then gfail CERange10
  else
    do! c <- client;
    if clWriteMultipleUnsupported c then writeMultipleWithSingleRegisters address 0 values
    else
      do! r <- attempt (writeMultipleRegistersFC10 address values);
      match r with
      | Ok _ => gret tt
      | Err e =>
          if negb (isIllegalFunction e) then gfail e
          else
            run! modifyClient setWriteMultipleUnsupported;
            writeMultipleWithSingleRegisters address 0 values
      end.

Definition bitMask (bit : Z) : Z := u16 (Z.shiftl 1 bit).

Definition maskWriteBitFC22 (address bit : Z) (target : bool) : ClientM unit :=
  let mask := bitMask bit in
  let andMask := Z.lxor 65535 mask in
  let orMask := if target then mask else 0 in
  let request := functionMaskWriteRegister :: putU16 address ++ putU16 andMask ++ putU16 orMask in
  do! response <- exchange request;
  if negb (bytesEqual response request) then closeWith CEEcho22 else gret tt.

Definition maskWriteBitWithReadModifyWrite (address bit : Z) (target : bool) : ClientM unit :=
  do! values <- ReadHoldingRegisters address 1;
  let value := byteAt values 0 in
  let mask := bitMask bit in
  let value' := if target then Z.lor value mask else Z.ldiff value mask in
  WriteSingleRegister address value'.

Definition MaskWriteBit (address bit : Z) (target : bool) : ClientM unit :=
  if 15 <? bit then gfail CEBitRange
  else
    do! c <- client;
    if clMaskWriteUnsupported c then maskWriteBitWithReadModifyWrite address bit target
    else
      do! r <- attempt (maskWriteBitFC22 address bit target);
      match r with
      | Ok _ => gret tt
      | Err e =>
          if negb (isIllegalFunction e) then gfail e
          else
            run! modifyClient setMaskWriteUnsupported;
            maskWriteBitWithReadModifyWrite address bit target
      end.
End client.

(** ** A transport that records the frames written through it *)

Definition Logged (N : Type) : Type := N * list (list Z).

#[export] Instance logged_transport {N} `{Transport N} : Transport (Logged N) := {
  netDial s := let '(r, n) := netDial s.1 in (r, (n, s.2));
  netWrite f s := let '(r, n) := netWrite f s.1 in (r, (n, s.2 ++ [f]));
  netReadFull k s := let '(r, n) := netReadFull k s.1 in (r, (n, s.2));
  netClose s := (netClose s.1, s.2)
}.

(** ** Proofs *)

Section client_proofs.
Context {N : Type} `{Transport N}.
Implicit Types s : Client * N.

(** The transaction ids of a live client. *)
Definition id_ok (c : Client) : Prop := 1 ≤ clNextID c ≤ 65535.

Lemma nextTransaction_ok n : 1 ≤ nextTransaction n ≤ 65535.
Proof.
  unfold nextTransaction. pose proof (wrap_range 16 (n + 1) ltac:(lia)) as [??].
  change (2 ^ 16) with 65536 in *. case_match; propify; lia.
Qed.

(** What every exchange of the client leaves behind: the ids stay legal, and
    a failed one leaves no connection. *)
Definition exchanged {A} (r : result client_error A) s : Prop :=
  id_ok s.1 ∧ (is_ok r = false → clConn s.1 = false).

Lemma wp_net {A} (op : N → result net_error A * N) Q s :
  (∀ r n', op s.2 = (r, n') → Q (Ok r) (s.1, n')) → wp (net op) Q s.
Proof. unfold wp, net. destruct (op s.2) eqn:E. simpl. eauto. Qed.

Lemma wp_closeWith {A} e (Q : result client_error A → Client * N → Prop) s :
  (∀ s', clCfg s'.1 = clCfg s.1 → clNextID s'.1 = clNextID s.1 → clConn s'.1 = false →
         Q (Err e) s') →
  wp (closeWith e) Q s.
Proof.
  intros HQ. unfold closeWith, wp, gbind, Close. destruct (clConn s.1) eqn:E; simpl; by apply HQ.
Qed.

Lemma wp_orClose {A} (r : result net_error A) Q s :
  (∀ a, r = Ok a → Q (Ok a) s) →
  (∀ e s', r = Err e → clNextID s'.1 = clNextID s.1 → clConn s'.1 = false →
           Q (Err (transportError e)) s') →
  wp (orClose r) Q s.
Proof.
  intros HO HE. destruct r as [a|e]; simpl; [by apply HO|].
  apply (wp_closeWith (transportError e)). intros s' _ ??. by apply (HE e).
Qed.

Lemma wp_ensureConnection (Q : result client_error unit → Client * N → Prop) s :
  (∀ s', clCfg s'.1 = clCfg s.1 → clNextID s'.1 = clNextID s.1 → clConn s'.1 = true →
         Q (Ok tt) s') →
  (∀ e s', clNextID s'.1 = clNextID s.1 → clConn s'.1 = false → Q (Err e) s') →
  wp ensureConnection Q s.
Proof.
  intros HO HE. unfold ensureConnection, wp, gbind, client. simpl.
  destruct (clConn s.1) eqn:E; simpl; [by apply HO|].
  unfold net. destruct (netDial s.2) as [[[]|e] n]; simpl; [by apply HO|by apply HE].
Qed.

Lemma exchange_spec pdu s :
  id_ok s.1 →
  wp (exchange pdu) (fun r s' => exchanged r s' ∧
    ∀ response, r = Ok response → byteAt response 0 = byteAt pdu 0) s.
Proof.
  intros Hid. unfold exchange. apply wp_bind, wp_ensureConnection; cycle 1.
  { intros e s' Hn Hc. split; [|done]. split; [|done]. by unfold id_ok; rewrite Hn. }
  intros s1 Hcfg1 Hn1 Hc1. apply wp_bind. unfold wp at 1. simpl. apply wp_bind. unfold wp at 1. simpl.
  set (c := setNextID _ _). assert (id_ok c) as Hok by apply nextTransaction_ok.
  assert (∀ s', clNextID s'.1 = clNextID c → id_ok s'.1) as Hkeep
    by (intros s' Hs; unfold id_ok; by rewrite Hs).
  apply wp_bind, wp_net. intros w n2 _. apply wp_bind, wp_orClose; cycle 1.
  { intros e s' _ Hs ?. split; [|done]. split; auto. }
  intros [] _. apply wp_bind, wp_net. intros h n3 _. apply wp_bind, wp_orClose; cycle 1.
  { intros e s' _ Hs ?. split; [|done]. split; auto. }
  intros header _. cbn zeta. case_match.
  { apply wp_closeWith. intros s' _ Hs ?. split; [|done]. split; auto. }
  apply wp_bind, wp_net. intros b n4 _. apply wp_bind, wp_orClose; cycle 1.
  { intros e s' _ Hs ?. split; [|done]. split; auto. }
  intros response _. case_match.
  { case_match; apply wp_closeWith; intros s' _ Hs ?; (split; [|done]); split; auto. }
  case_match.
  { apply wp_closeWith. intros s' _ Hs ?. split; [|done]. split; auto. }
  apply wp_ret. propify. split; [by split|]. by intros ? [= <-].
Qed.

(** Operations after which a failure leaves no connection. *)
Definition safe {A} (m : ClientM A) : Prop := ∀ s, id_ok s.1 → wp m exchanged s.

Lemma safe_ret {A} (a : A) : safe (gret a).
Proof. intros s Hs. apply wp_ret. by split. Qed.

Lemma safe_bind {A B} (m : ClientM A) (k : A → ClientM B) :
  safe m → (∀ a, safe (k a)) → safe (gbind m k).
Proof.
  intros Hm Hk s Hs. apply wp_bind. eapply wp_mono; [by apply Hm|].
  intros [a|e] s' [? ?]; [by apply Hk|by split; auto].
Qed.

Lemma safe_closeWith {A} e : safe (closeWith (A := A) e).
Proof.
  intros s Hs. apply wp_closeWith. intros s' _ Hn ?. split; [|done]. by unfold id_ok; rewrite Hn.
Qed.

Lemma safe_exchange pdu : safe (exchange pdu).
Proof. intros s Hs. eapply wp_mono; [by apply exchange_spec|]. by intros r s' []. Qed.

Lemma safe_client : safe client.
Proof. intros s Hs. by split. Qed.

Lemma safe_modify f : (∀ c, id_ok c → id_ok (f c)) → safe (modifyClient f).
Proof. intros Hf s Hs. split; simpl; [by apply Hf|done]. Qed.

Lemma safe_WriteSingleRegister address value : safe (WriteSingleRegister address value).
Proof.
  apply safe_bind; [apply safe_exchange|]. intros a. case_match;
    auto using safe_closeWith, safe_ret.
Qed.

Lemma safe_ReadHoldingRegisters address quantity :
  1 ≤ quantity ≤ 125 → address + quantity ≤ 2 ^ 16 →
  safe (ReadHoldingRegisters address quantity).
Proof.
  intros ??. unfold ReadHoldingRegisters. case_match eqn:E.
  { unfold maxReadRegisters in E. apply orb_true_iff in E as [[E|E]%orb_true_iff|E]; propify; lia. }
  apply safe_bind; [apply safe_exchange|]. intros a. case_match;
    auto using safe_closeWith, safe_ret.
Qed.

Lemma safe_writeFC10 address values : safe (writeMultipleRegistersFC10 address values).
Proof.
  apply safe_bind; [apply safe_exchange|]. intros a. case_match;
    auto using safe_closeWith, safe_ret.
Qed.

Lemma safe_writeSingles address index values :
  safe (writeMultipleWithSingleRegisters address index values).
Proof.
  revert index. induction values as [|v vs IH]; intros index; simpl; [apply safe_ret|].
  apply safe_bind; [apply safe_WriteSingleRegister|auto].
Qed.

Lemma safe_FC22 address bit target : safe (maskWriteBitFC22 address bit target).
Proof.
  apply safe_bind; [apply safe_exchange|]. intros a. case_match;
    auto using safe_closeWith, safe_ret.
Qed.

Lemma safe_RMW address bit target :
  in_range 16 address → safe (maskWriteBitWithReadModifyWrite address bit target).
Proof.
  intros [??]. apply safe_bind; [apply safe_ReadHoldingRegisters; lia|].
  intros a. apply safe_WriteSingleRegister.
Qed.

(** A request with a fallback taken on the exception "illegal function". *)
Lemma safe_fallback {A} (m : ClientM A) (f : Client → Client) (k : ClientM A) :
  safe m → (∀ c, id_ok c → id_ok (f c)) → safe k →
  safe (do! r <- attempt m;
        match r with
        | Ok a => gret a
        | Err e => if negb (isIllegalFunction e) then gfail e
                   else run! modifyClient f; k
        end).
Proof.
  intros Hm Hf Hk s Hs. apply wp_bind, wp_attempt. eapply wp_mono; [by apply Hm|].
  intros [a|e] s' [? Hc]; [by apply safe_ret|].
  destruct (isIllegalFunction e); simpl; [|apply wp_fail; by split; auto].
  apply (safe_bind (modifyClient f) (fun _ => k)); auto using safe_modify.
Qed.

Lemma safe_MaskWriteBit address bit target :
  in_range 16 address → bit ≤ 15 → safe (MaskWriteBit address bit target).
Proof.
  intros ??. unfold MaskWriteBit. case_match; propify; [lia|].
  apply safe_bind; [apply safe_client|]. intros c. case_match; [by apply safe_RMW|].
  pose proof (safe_fallback (maskWriteBitFC22 address bit target) setMaskWriteUnsupported
    (maskWriteBitWithReadModifyWrite address bit target) (safe_FC22 _ _ _) (fun c H => H)
    (safe_RMW _ _ _ ltac:(done))) as Hs.
  intros s Hid. specialize (Hs s Hid). revert Hs. unfold wp, gbind.
  destruct (attempt _ s) as [[[[]|e]|e] s']; done.
Qed.

Lemma safe_WriteMultipleRegisters address values :
  values ≠ [] → Z.of_nat (length values) ≤ 123 → address + Z.of_nat (length values) ≤ 2 ^ 16 →
  safe (WriteMultipleRegisters address values).
Proof.
  intros Hne ??. unfold WriteMultipleRegisters. case_match eqn:E.
  { unfold maxWriteRegisters in E. destruct values; [done|]. simpl length in *.
    apply orb_true_iff in E as [[E|E]%orb_true_iff|E]; propify; lia. }
  apply safe_bind; [apply safe_client|]. intros c. case_match; [apply safe_writeSingles|].
  pose proof (safe_fallback (writeMultipleRegistersFC10 address values)
    setWriteMultipleUnsupported (writeMultipleWithSingleRegisters address 0 values)
    (safe_writeFC10 _ _) (fun c H => H) (safe_writeSingles _ _ _)) as Hs.
  intros s Hid. specialize (Hs s Hid). revert Hs. unfold wp, gbind.
  destruct (attempt _ s) as [[[[]|e]|e] s']; done.
Qed.
End client_proofs.

(** The frames an operation writes, by function code. *)
Section frames.
Context {N : Type} `{Transport N}.
Implicit Types s : Client * Logged N.

Definition frameFunction (frame : list Z) : Z := byteAt frame 7.

(** [m] writes frames whose function codes satisfy [P]. *)
Definition writes {A} (m : ClientM (N := Logged N) A) (P : result client_error A → list Z → Prop)
    : Prop :=
  ∀ s, wp m (fun r s' => ∃ fs, s'.2.2 = s.2.2 ++ fs ∧ P r (map frameFunction fs)) s.

Lemma writes_mono {A} (m : ClientM (N := Logged N) A) (P P' : _ → _ → Prop) :
  writes m P → (∀ r fs, P r fs → P' r fs) → writes m P'.
Proof. intros Hm HP s. eapply wp_mono; [apply Hm|]. intros r s' (fs & ? & ?). eauto. Qed.

Lemma writes_bind {A B} (m : ClientM (N := Logged N) A) (k : A → ClientM B) P Q R :
  writes m P → (∀ a, writes (k a) Q) →
  (∀ e fs, P (Err e) fs → R (Err e) fs) →
  (∀ a r fs fs', P (Ok a) fs → Q r fs' → R r (fs ++ fs')) →
  writes (gbind m k) R.
Proof.
  intros Hm Hk He Ho s. apply wp_bind. eapply wp_mono; [apply Hm|].
  intros [a|e] s' (fs & Hfs & HP); [|eauto].
  eapply wp_mono; [apply Hk|]. intros r s'' (fs' & Hfs' & HQ).
  exists (fs ++ fs'). rewrite map_app. split; [by rewrite Hfs', Hfs, app_assoc|eauto].
Qed.

Definition silent {A} (m : ClientM (N := Logged N) A) : Prop := ∀ s, (m s).2.2.2 = s.2.2.

Lemma silent_writes {A} (m : ClientM (N := Logged N) A) : silent m → writes m (fun _ fs => fs = []).
Proof. intros Hm s. exists []. by rewrite app_nil_r, Hm. Qed.

Lemma silent_bind {A B} (m : ClientM (N := Logged N) A) (k : A → ClientM B) :
  silent m → (∀ a, silent (k a)) → silent (gbind m k).
Proof.
  intros Hm Hk s. unfold gbind. specialize (Hm s). destruct (m s) as [[a|e] s']; simpl in *.
  - by rewrite Hk.
  - done.
Qed.

Lemma silent_close {A} e : silent (closeWith (A := A) e).
Proof. intros s. unfold closeWith, gbind, Close. by destruct (clConn s.1). Qed.

Lemma silent_orClose {A} (r : result net_error A) : silent (orClose r).
Proof. destruct r; simpl; [done|]. apply silent_close. Qed.

Lemma silent_ret {A} (r : result client_error A) : silent (fun s => (r, s)).
Proof. done. Qed.

Lemma silent_read n : silent (net (netReadFull n)).
Proof. intros [c [t l]]. unfold net. simpl. by destruct (netReadFull n t). Qed.

Lemma silent_ensure : silent ensureConnection.
Proof.
  intros [c [t l]]. unfold ensureConnection, gbind, client, net. simpl.
  destruct (clConn c); simpl; [done|]. by destruct (netDial t) as [[]].
Qed.

Lemma writes_write f :
  writes (net (netWrite f)) (fun _ fs => fs = [frameFunction f]).
Proof.
  intros [c [t l]]. unfold wp, net. simpl. destruct (netWrite f t) as [r t']; simpl.
  by exists [f].
Qed.

Lemma frameOf_function tid unit pdu : frameFunction (frameOf tid unit pdu) = byteAt pdu 0.
Proof. done. Qed.

(** An exchange writes its one frame, or none when it cannot dial. *)
Lemma exchange_writes pdu :
  writes (exchange pdu)
    (fun r fs => (fs = [] ∧ is_ok r = false) ∨ fs = [byteAt pdu 0]).
Proof.
  unfold exchange.
  eapply writes_bind; [apply silent_writes, silent_ensure | intros _ | | ]; cycle 1.
  { intros e fs ->. by left. }
  { intros a r fs fs' -> Hq. simpl. exact Hq. }
  eapply writes_bind with (P := fun r fs => fs = [] ∧ is_ok r = true) (Q := fun _ fs => fs = [byteAt pdu 0]);
    [intros s; by exists []; rewrite app_nil_r | intros _ | by intros ? ? [] | intros ???? [-> _] ->; by right].
  eapply writes_bind with (P := fun r fs => fs = [] ∧ is_ok r = true) (Q := fun _ fs => fs = [byteAt pdu 0]);
    [intros s; by exists []; rewrite app_nil_r | intros c | by intros ? ? [] | by intros ???? [-> _] ->].
  eapply writes_bind with (Q := fun _ fs => fs = []);
    [apply writes_write | intros w | by intros e fs -> | by intros a r fs fs' -> ->].
  apply silent_writes.
  apply silent_bind; [apply silent_orClose|intros _].
  apply silent_bind; [apply silent_read|intros h].
  apply silent_bind; [apply silent_orClose|intros header]. cbn zeta.
  case_match; [apply silent_close|].
  apply silent_bind; [apply silent_read|intros b].
  apply silent_bind; [apply silent_orClose|intros response].
  repeat case_match; first [apply silent_close | apply silent_ret].
Qed.

Lemma writes_attempt {A} (m : ClientM (N := Logged N) A) P :
  writes m P → writes (attempt m)
    (fun r fs => match r with Ok r' => P r' fs | Err _ => False end).
Proof. intros Hm s. apply wp_attempt. apply Hm. Qed.

Lemma single_writes address value :
  writes (WriteSingleRegister address value) (fun _ fs => fs = [] ∨ fs = [6]).
Proof.
  eapply writes_bind with (Q := fun _ fs => fs = []);
    [apply exchange_writes | intros a | by intros e fs [[-> _]| ->]; auto
    | by intros a r fs fs' [[-> _]| ->] ->; auto].
  apply silent_writes. case_match; first [apply silent_close|apply silent_ret].
Qed.

Lemma read_writes address quantity :
  writes (ReadHoldingRegisters address quantity)
    (fun r fs => (fs = [] ∧ is_ok r = false) ∨ fs = [3]).
Proof.
  unfold ReadHoldingRegisters. case_match; [intros s; exists []; rewrite app_nil_r; auto|].
  eapply writes_bind with (Q := fun _ fs => fs = []);
    [apply exchange_writes | intros a | by intros e fs [[-> _]| ->]; auto
    | by intros a r fs fs' [[_ [=]]| ->] ->; auto].
  apply silent_writes. case_match; first [apply silent_close|apply silent_ret].
Qed.

Lemma FC22_writes address bit target :
  writes (maskWriteBitFC22 address bit target) (fun _ fs => fs = [] ∨ fs = [22]).
Proof.
  eapply writes_bind with (Q := fun _ fs => fs = []);
    [apply exchange_writes | intros a | by intros e fs [[-> _]| ->]; auto
    | by intros a r fs fs' [[-> _]| ->] ->; auto].
  apply silent_writes. case_match; first [apply silent_close|apply silent_ret].
Qed.

Lemma RMW_writes address bit target :
  writes (maskWriteBitWithReadModifyWrite address bit target)
    (fun _ fs => fs = [] ∨ fs = [3] ∨ fs = [3; 6]).
Proof.
  eapply writes_bind; [apply read_writes | intros a; apply single_writes
    | by intros e fs [[-> _]| ->]; auto
    | by intros a r fs fs' [[_ [=]]| ->] [-> | ->]; auto].
Qed.

(** The requests one [MaskWriteBit] can send: each write function once. *)
Definition maskWriteRequests : list (list Z) := [[]; [22]; [22; 3]; [22; 3; 6]; [3]; [3; 6]].

Lemma MaskWriteBit_writes address bit target :
  writes (MaskWriteBit address bit target) (fun _ fs => fs ∈ maskWriteRequests).
Proof.
  unfold MaskWriteBit, maskWriteRequests.
  case_match; [intros s; exists []; rewrite app_nil_r; simpl; set_solver|].
  eapply writes_bind with (P := fun r fs => fs = [] ∧ is_ok r = true)
    (Q := fun _ fs => fs ∈ maskWriteRequests);
    [intros s; by exists []; rewrite app_nil_r | intros c | by intros ? ? [] | by intros ???? [-> _]].
  unfold maskWriteRequests. case_match.
  { eapply writes_mono; [apply RMW_writes|]. set_solver. }
  eapply writes_bind with (Q := fun _ fs => fs = [] ∨ fs = [3] ∨ fs = [3; 6]);
    [apply writes_attempt, FC22_writes | intros r | done | set_solver].
  case_match; [intros s; exists []; rewrite app_nil_r; auto|].
  case_match; [intros s; exists []; rewrite app_nil_r; auto|].
  eapply writes_bind; [intros s; exists []; rewrite app_nil_r; split; [done|]; by instantiate (1 := fun _ fs => fs = [])
    | intros _; apply RMW_writes | by intros ? ? ->; auto | by intros ? ? ? ? ->].
Qed.
End frames.
