(* ===== verification/SimServer.v ===== *)
(** * The Modbus TCP register simulator: [tools/plc-simulator/server.go]

    The server's registers are a total function of the 16-bit address (the Go
    array has one cell per address); the observer installed by the management
    page is the list of calls made to it.  [serveRequest] is one round of
    [serveConnection] on the bytes received so far.  The second half connects
    [Easy521]'s client to this server: the server is an instance of
    [Transport], and the theorems state what the client's requests do to the
    registers end to end. *)

From S2P Require Import Prelude Easy521.

Definition exceptionIllegalDataAddress : Z := 2.
Definition exceptionIllegalDataValue : Z := 3.
Definition maxReadHoldingRegisters : Z := 125.
Definition maxMBAPLength : Z := 254.

Record Server := mkServer {
  svUnitID : Z;
  svRegisters : Z → Z;
  svChanges : list (Z * Z * string)
}.

(** ** Registers *)

Definition read (regs : Z → Z) (address count : Z) : list Z :=
  map (fun i => regs (address + Z.of_nat i)) (seq 0 (Z.to_nat count)).

Definition setRegister (regs : Z → Z) (address value : Z) : Z → Z :=
  fun a => if a =? address then value else regs a.

Definition maskWriteValue (current andMask orMask : Z) : Z :=
  Z.lor (Z.land current andMask) (Z.ldiff orMask andMask).

Definition writeRegister (sv : Server) (address value : Z) (source : string) : Server :=
  mkServer (svUnitID sv) (setRegister (svRegisters sv) address value)
    (svChanges sv ++ [(address, value, source)]).

Definition maskWriteRegister (sv : Server) (address andMask orMask : Z) (source : string) : Server :=
  let next := maskWriteValue (svRegisters sv address) andMask orMask in
  mkServer (svUnitID sv) (setRegister (svRegisters sv) address next)
    (svChanges sv ++ [(address, next, source)]).

(** ** Requests *)

Definition exceptionResponse (function code : Z) : list Z := [Z.lor function 128; code].

Definition handleReadHoldingRegisters (sv : Server) (pdu : list Z) : list Z * string :=
  if negb (length pdu =? 5)%nat then
    (exceptionResponse functionReadHoldingRegisters exceptionIllegalDataValue,
     "exception_illegal_data_value"%string)
  else
    let address := u16At pdu 1 in
    let count := u16At pdu 3 in
    if (count =? 0) || (maxReadHoldingRegisters <? count) then
      (exceptionResponse functionReadHoldingRegisters exceptionIllegalDataValue,
       "exception_illegal_data_value"%string)
    else if 2 ^ 16 <? address + count then
      (exceptionResponse functionReadHoldingRegisters exceptionIllegalDataAddress,
       "exception_illegal_data_address"%string)
    else
      let values := read (svRegisters sv) address count in
      (functionReadHoldingRegisters :: u8 (Z.of_nat (length values) * 2) :: mjoin (map putU16 values),
       "ok"%string).

Definition handleMaskWriteRegister (sv : Server) (pdu : list Z) : list Z * string * Server :=
  if negb (length pdu =? 7)%nat then
    (exceptionResponse functionMaskWriteRegister exceptionIllegalDataValue,
     "exception_illegal_data_value"%string, sv)
  else
    let address := u16At pdu 1 in
    let andMask := u16At pdu 3 in
    let orMask := u16At pdu 5 in
    (pdu, "ok"%string, maskWriteRegister sv address andMask orMask "modbus").

Definition handlePDU (sv : Server) (pdu : list Z) : list Z * string * Server :=
  match pdu with
  | [] => ([], "malformed_request"%string, sv)
  | function :: _ =>
      if function =? functionReadHoldingRegisters then (handleReadHoldingRegisters sv pdu, sv)
      else if function =? functionMaskWriteRegister then handleMaskWriteRegister sv pdu
      else (exceptionResponse function exceptionIllegalFunction,
            "exception_illegal_function"%string, sv)
  end.

Record request := mkRequest { rqTransaction : Z; rqUnit : Z; rqPdu : list Z }.

(** The reader's verdict on the bytes received so far. *)
Inductive read_result : Type :=
| RNeedMore
| RInvalid
| RRequest (r : request) (rest : list Z).

Definition readRequest (input : list Z) : read_result :=
  if (length input <? 6)%nat then RNeedMore
  else if negb (u16At input 2 =? 0) then RInvalid
  else
    let length_ := u16At input 4 in
    if (length_ <? 2) || (maxMBAPLength <? length_) then RInvalid
    else
      let body := take (Z.to_nat length_) (drop 6 input) in
      if (length body <? Z.to_nat length_)%nat then RNeedMore
      else RRequest (mkRequest (u16At input 0) (byteAt body 0) (drop 1 body))
             (drop (Z.to_nat length_) (drop 6 input)).

Definition writeResponse (transaction unit : Z) (pdu : list Z) : list Z :=
  putU16 transaction ++ putU16 0 ++ putU16 (u16 (Z.of_nat (length pdu) + 1)) ++ [unit] ++ pdu.

(** One round of [serveConnection]: [None] ends the connection, otherwise the
    bytes sent back, the bytes left and the server. *)
Definition serveRequest (sv : Server) (input : list Z) : option (list Z * list Z * Server) :=
  match readRequest input with
  | RNeedMore => Some ([], input, sv)
  | RInvalid => None
  | RRequest r rest =>
      if negb (rqUnit r =? svUnitID sv) then Some ([], rest, sv)
      else
        let '(response, _, sv') := handlePDU sv (rqPdu r) in
        Some (writeResponse (rqTransaction r) (rqUnit r) response, rest, sv')
  end.

(** ** The server as the client's network: a link that loses nothing *)

Record SimNet := mkSimNet {
  snServer : Server;
  snOpen : bool;
  snInput : list Z;    (* bytes the server has not parsed yet *)
  snOutput : list Z    (* bytes the client has not read yet *)
}.

(** When the server stays silent the client's read ends at its deadline. *)
#[export] Instance sim_transport : Transport SimNet := {
  netDial n := (Ok tt, mkSimNet (snServer n) true [] []);
  netWrite f n :=
    match serveRequest (snServer n) (snInput n ++ f) with
    | Some (out, rest, sv') => (Ok tt, mkSimNet sv' (snOpen n) rest (snOutput n ++ out))
    | None => (Ok tt, mkSimNet (snServer n) false [] (snOutput n))
    end;
  netReadFull k n :=
    if (k <=? length (snOutput n))%nat then
      (Ok (take k (snOutput n)),
       mkSimNet (snServer n) (snOpen n) (snInput n) (drop k (snOutput n)))
    else (Err (if snOpen n then NDeadlineExceeded else NUnexpectedEOF), n);
  netClose n := mkSimNet (snServer n) false [] []
}.

(** ** Proofs *)

Lemma readRequest_frame tid unit pdu :
  in_range 16 tid → (1 ≤ length pdu ≤ 253)%nat →
  readRequest (frameOf tid unit pdu) = RRequest (mkRequest tid unit pdu) [].
Proof.
  intros Ht Hl. unfold readRequest, frameOf.
  set (n := u16 (Z.of_nat (length pdu) + 1)).
  assert (n = Z.of_nat (length pdu) + 1) as Hn.
  { unfold n, wrap. apply Z.mod_small. change (2 ^ 16) with 65536. lia. }
  assert (in_range 16 n) as Hnr by (unfold in_range; change (2 ^ 16) with 65536; lia).
  unfold putU16, u16At, byteAt. simpl nth. simpl length. cbn [app drop].
  rewrite !getU16_putU16 by done. simpl.
  unfold maxMBAPLength. rewrite !(proj2 (Z.ltb_ge _ _)) by lia. simpl.
  replace (Z.to_nat n) with (S (length pdu)) by lia. simpl.
  rewrite drop_0, take_ge by done. by rewrite Nat.ltb_irrefl, drop_ge.
Qed.

(** A reply the server sends parses back at the client. *)
Lemma writeResponse_frame tid unit pdu : writeResponse tid unit pdu = frameOf tid unit pdu.
Proof. done. Qed.

Lemma netReadFull_exact sv o inp pre rest k :
  length pre = k →
  netReadFull k (mkSimNet sv o inp (pre ++ rest)) = (Ok pre, mkSimNet sv o inp rest).
Proof.
  intros <-. simpl. rewrite length_app, (proj2 (Nat.leb_le _ _)) by lia.
  by rewrite take_app_length, drop_app_length.
Qed.

Definition headerOf (tid unit n : Z) : list Z := putU16 tid ++ [0; 0] ++ putU16 n ++ [unit].

Lemma frameOf_header tid unit pdu :
  frameOf tid unit pdu = headerOf tid unit (u16 (Z.of_nat (length pdu) + 1)) ++ pdu.
Proof. done. Qed.

Section exchange.
Variables (c : Client) (n : SimNet) (pdu response : list Z) (msg : string) (sv' : Server).
Hypothesis (Hid : id_ok c) (Hunit : cfgUnitID (clCfg c) = svUnitID (snServer n)).
(** A connection in use carries no bytes of an earlier exchange. *)
Hypothesis (Hclean : clConn c = true → snInput n = [] ∧ snOutput n = [] ∧ snOpen n = true).
Hypothesis (Hpdu : (1 ≤ length pdu ≤ 253)%nat) (Hres : (1 ≤ length response ≤ 253)%nat).
Hypothesis (Hserve : handlePDU (snServer n) pdu = (response, msg, sv')).

Let tid := nextTransaction (clNextID c).
Let c' := setNextID tid (setConn true c).

Lemma tid_range : in_range 16 tid.
Proof.
  pose proof (nextTransaction_ok (clNextID c)). unfold in_range, tid.
  change (2 ^ 16) with 65536. lia.
Qed.

Lemma serve_frame :
  serveRequest (snServer n) (frameOf tid (cfgUnitID (clCfg c)) pdu) =
    Some (frameOf tid (cfgUnitID (clCfg c)) response, [], sv').
Proof.
  unfold serveRequest. rewrite readRequest_frame by (auto using tid_range). simpl.
  rewrite Hunit, Z.eqb_refl. simpl. by rewrite Hserve.
Qed.

Lemma ensure_sim :
  ensureConnection (c, n) =
    (Ok tt, (setConn true c, mkSimNet (snServer n) true [] [])).
Proof.
  unfold ensureConnection, gbind, client, net, modifyClient, gret. simpl.
  destruct (clConn c) eqn:E; simpl; [|done].
  destruct (Hclean eq_refl) as (Hi & Ho & Hop), c, n; simpl in *. by subst.
Qed.

(** The outcome of an exchange is decided by the response PDU alone. *)
Lemma exchange_sim :
  exchange pdu (c, n) =
    (if byteAt response 0 =? Z.lor (byteAt pdu 0) 128 then
       if negb (length response =? 2)%nat then closeWith CEInvalidException
       else closeWith (CEException (byteAt response 1))
     else if negb (byteAt response 0 =? byteAt pdu 0) then closeWith CEFunctionMismatch
     else gret response) (c', mkSimNet sv' true [] []).
Proof.
  set (ln := u16 (Z.of_nat (length response) + 1)).
  assert (ln = Z.of_nat (length response) + 1) as Hln.
  { unfold ln, wrap. apply Z.mod_small. change (2 ^ 16) with 65536. lia. }
  assert (in_range 16 ln) as Hlr by (unfold in_range; change (2 ^ 16) with 65536; lia).
  unfold exchange. unfold gbind at 1. rewrite ensure_sim.
  unfold gbind at 1, modifyClient at 1. cbn [fst snd].
  change (setNextID (nextTransaction (clNextID (setConn true c))) (setConn true c)) with c'.
  unfold gbind at 1, client at 1. cbn [fst snd]. cbn zeta.
  change (clNextID c') with tid. change (clCfg c') with (clCfg c).
  set (unit := cfgUnitID (clCfg c)).
  unfold gbind at 1, net at 1. cbn [fst snd netWrite sim_transport snServer snInput snOutput snOpen].
  pose proof serve_frame as Hsf. fold unit in Hsf. rewrite app_nil_l, Hsf. unfold gbind at 1. cbn [orClose gret app].
  unfold gbind at 1, net at 1. cbn [fst snd].
  rewrite frameOf_header. fold ln.
  rewrite (netReadFull_exact _ _ _ (headerOf tid unit ln) response) by done.
  unfold gbind at 1. cbn [orClose]. unfold gret at 1.
  unfold headerOf, u16At, byteAt, putU16. cbn [app nth].
  rewrite !getU16_putU16 by auto using tid_range. change (getU16 0 0) with 0.
  rewrite !Z.eqb_refl, !(proj2 (Z.ltb_ge _ _)) by lia. cbn [negb orb].
  unfold gbind at 1, net at 1. cbn [fst snd].
  pose proof (netReadFull_exact sv' true [] response [] (Z.to_nat (ln - 1)) ltac:(lia)) as Hr.
  rewrite app_nil_r in Hr. rewrite Hr. unfold gbind at 1. cbn [orClose]. unfold gret at 1.
  done.
Qed.
End exchange.

(** Bits of the FC22 masks. *)
Lemma bitMask_spec bit : 0 ≤ bit ≤ 15 → bitMask bit = 2 ^ bit.
Proof.
  intros ?. unfold bitMask, wrap. rewrite Z.shiftl_1_l. apply Z.mod_small.
  split; [lia|]. apply Z.pow_lt_mono_r; lia.
Qed.

Lemma bitMask_range bit : 0 ≤ bit ≤ 15 → in_range 16 (bitMask bit).
Proof. intros ?. apply wrap_range. lia. Qed.

Lemma ones16_testbit i : 0 ≤ i → Z.testbit 65535 i = bool_decide (i < 16).
Proof.
  intros ?. change 65535 with (Z.ones 16). case_bool_decide.
  - by apply Z.ones_spec_low.
  - apply Z.ones_spec_high; lia.
Qed.

Lemma u16_testbit_high v i : in_range 16 v → 16 ≤ i → Z.testbit v i = false.
Proof.
  intros [??] ?. destruct (decide (v = 0)) as [->|]; [apply Z.bits_0|].
  apply Z.bits_above_log2; [lia|]. eapply Z.lt_le_trans; [|done].
  apply Z.log2_lt_pow2; lia.
Qed.

Lemma andMask_range m : in_range 16 m → in_range 16 (Z.lxor 65535 m).
Proof.
  intros Hm. pose proof Hm as [??].
  assert (0 ≤ Z.lxor 65535 m) as ? by (apply Z.lxor_nonneg; lia). split; [done|].
  apply Z.ltb_lt, not_false_iff_true. intros Hf%Z.ltb_ge.
  assert (16 ≤ Z.log2 (Z.lxor 65535 m)) as Hl by (apply Z.log2_le_pow2; lia).
  assert (Z.lxor 65535 m ≠ 0) as Hn by lia.
  pose proof (Z.bit_log2 (Z.lxor 65535 m) ltac:(lia)) as Hb.
  rewrite Z.lxor_spec, ones16_testbit, bool_decide_false, (u16_testbit_high m) in Hb by (done || lia).
  done.
Qed.

(** The register value an FC22 request for one bit produces. *)
Definition maskedValue (current bit : Z) (target : bool) : Z :=
  maskWriteValue current (Z.lxor 65535 (bitMask bit)) (if target then bitMask bit else 0).

Lemma maskedValue_testbit current bit target i :
  0 ≤ bit ≤ 15 → in_range 16 current → 0 ≤ i →
  Z.testbit (maskedValue current bit target) i =
    if i =? bit then target else Z.testbit current i.
Proof.
  intros Hb Hc Hi. unfold maskedValue, maskWriteValue.
  rewrite Z.lor_spec, Z.land_spec, Z.ldiff_spec, Z.lxor_spec, ones16_testbit by done.
  rewrite bitMask_spec, Z.pow2_bits_eqb by lia. rewrite (Z.eqb_sym bit i).
  destruct (Z.eqb_spec i bit) as [->|].
  - rewrite bool_decide_true by lia. simpl. rewrite andb_false_r. simpl.
    destruct target; [by rewrite Z.pow2_bits_true by lia|by rewrite Z.bits_0].
  - assert (Z.testbit (if target then 2 ^ bit else 0) i = false) as ->.
    { destruct target; [|apply Z.bits_0]. apply Z.pow2_bits_false. lia. }
    rewrite orb_false_r. case_bool_decide; simpl; [by rewrite andb_true_r|].
    by rewrite (u16_testbit_high current i) by (done || lia).
Qed.

(** The read-modify-write fallback computes the same register value. *)
Lemma maskedValue_fallback current bit (target : bool) :
  0 ≤ bit ≤ 15 → in_range 16 current →
  (if target then Z.lor current (bitMask bit) else Z.ldiff current (bitMask bit)) =
  maskedValue current bit target.
Proof.
  intros Hb Hc. apply Z.bits_inj'. intros i Hi. rewrite maskedValue_testbit by done.
  rewrite bitMask_spec by done. destruct target; rewrite ?Z.lor_spec, ?Z.ldiff_spec;
    rewrite Z.pow2_bits_eqb, (Z.eqb_sym bit i) by lia; destruct (i =? bit); simpl;
    rewrite ?orb_true_r, ?orb_false_r, ?andb_false_r, ?andb_true_r; done.
Qed.

Lemma put_cons v vs :
  mjoin (map putU16 (v :: vs)) =
    Z.land (Z.shiftr v 8) 255 :: Z.land v 255 :: mjoin (map putU16 vs).
Proof. done. Qed.

Lemma registersOf_put values :
  Forall (in_range 16) values → registersOf (mjoin (map putU16 values)) = values.
Proof.
  induction 1 as [|v vs Hv _ IH]; [done|].
  rewrite put_cons. cbn [registersOf]. by rewrite getU16_putU16, IH.
Qed.

Lemma length_put values : length (mjoin (map putU16 values)) = (2 * length values)%nat.
Proof.
  induction values as [|v vs IH]; [done|]. rewrite put_cons. cbn [length]. lia.
Qed.

Definition registers_ok (sv : Server) : Prop := ∀ a, in_range 16 (svRegisters sv a).

(** A client of this server whose connection, if any, is idle. *)
Record linked (c : Client) (n : SimNet) : Prop := {
  lk_id : id_ok c;
  lk_unit : cfgUnitID (clCfg c) = svUnitID (snServer n);
  lk_clean : clConn c = true → snInput n = [] ∧ snOutput n = [] ∧ snOpen n = true
}.

(** The client after one more exchange. *)
Definition exchangedClient (c : Client) : Client :=
  setNextID (nextTransaction (clNextID c)) (setConn true c).

Lemma linked_exchanged c n sv' :
  linked c n → svUnitID sv' = svUnitID (snServer n) →
  linked (exchangedClient c) (mkSimNet sv' true [] []).
Proof.
  intros [? Hu _] Hs. split; simpl; [apply nextTransaction_ok|by rewrite Hu|done].
Qed.

Lemma length_read regs a q : length (read regs a q) = Z.to_nat q.
Proof. unfold read. by rewrite length_map, length_seq. Qed.

Lemma sim_read_ok c n a q :
  linked c n → registers_ok (snServer n) → 0 ≤ a → 1 ≤ q ≤ 125 → a + q ≤ 2 ^ 16 →
  ReadHoldingRegisters a q (c, n) =
    (Ok (read (svRegisters (snServer n)) a q),
     (exchangedClient c, mkSimNet (snServer n) true [] [])).
Proof.
  intros [Hid Hu Hcl] Hok Ha Hq Haq. unfold ReadHoldingRegisters, maxReadRegisters.
  rewrite (proj2 (Z.eqb_neq q 0)), (proj2 (Z.ltb_ge 125 q)), (proj2 (Z.ltb_ge (2 ^ 16) (a + q)))
    by lia. cbn [orb].
  set (vs := read (svRegisters (snServer n)) a q).
  assert (length vs = Z.to_nat q) as Hlen by apply length_read.
  assert (u8 (Z.of_nat (length vs) * 2) = q * 2) as Hu8.
  { rewrite Hlen, Z2Nat.id by lia. apply Z.mod_small. lia. }
  set (req := functionReadHoldingRegisters :: putU16 a ++ putU16 q). cbn zeta.
  set (resp := 3 :: q * 2 :: mjoin (map putU16 vs)).
  assert (length resp = (2 + 2 * Z.to_nat q)%nat) as Hresp.
  { unfold resp. cbn [length]. rewrite length_put. lia. }
  unfold gbind at 1.
  rewrite (exchange_sim c n req resp "ok" (snServer n)); [|done..|unfold req; simpl; lia|lia|].
  - change (byteAt resp 0) with 3. change (byteAt req 0) with 3.
    change (3 =? Z.lor 3 128) with false. cbv iota.
    change (negb (3 =? 3)) with false. unfold gret at 1. cbv iota beta.
    change (byteAt resp 1) with (q * 2). unfold functionReadHoldingRegisters.
    change (byteAt resp 0) with 3. rewrite Hresp, !Z.eqb_refl.
    rewrite (proj2 (Z.eqb_eq _ _)) by lia. cbn [negb orb]. change (drop 2 resp) with (mjoin (map putU16 vs)).
    rewrite registersOf_put; [done|].
    unfold vs, read. apply Forall_map, Forall_true. intros ?. apply Hok.
  - unfold handlePDU, req, functionReadHoldingRegisters, functionMaskWriteRegister.
    unfold putU16. cbn [app]. change (3 =? 3) with true. cbv iota.
    unfold handleReadHoldingRegisters, u16At, byteAt. cbn [length nth Nat.eqb negb].
    assert (in_range 16 a ∧ in_range 16 q) as [??] by (unfold in_range; lia).
    rewrite !getU16_putU16 by done. unfold maxReadHoldingRegisters.
    rewrite (proj2 (Z.eqb_neq q 0)), (proj2 (Z.ltb_ge 125 q)) by lia. cbn [orb].
    rewrite (proj2 (Z.ltb_ge (2 ^ 16) (a + q))) by lia. cbn zeta. fold vs. by rewrite Hu8.
Qed.

Lemma sim_mask_ok c n a bit target :
  linked c n → clMaskWriteUnsupported c = false → in_range 16 a → 0 ≤ bit ≤ 15 →
  MaskWriteBit a bit target (c, n) =
    (Ok tt, (exchangedClient c,
             mkSimNet (maskWriteRegister (snServer n) a (Z.lxor 65535 (bitMask bit))
                         (if target then bitMask bit else 0) "modbus") true [] [])).
Proof.
  intros [Hid Hu Hcl] Hflag Ha Hb. unfold MaskWriteBit.
  rewrite (proj2 (Z.ltb_ge 15 bit)) by lia. unfold gbind at 1, client. cbn [fst snd].
  rewrite Hflag. unfold gbind at 1, attempt, maskWriteBitFC22. cbn zeta. unfold gbind at 1.
  set (am := Z.lxor 65535 (bitMask bit)). set (om := if target then bitMask bit else 0).
  assert (in_range 16 am) as Ham by apply andMask_range, bitMask_range, Hb.
  assert (in_range 16 om) as Hom.
  { unfold om. destruct target; [by apply bitMask_range|done]. }
  set (pdu := functionMaskWriteRegister :: putU16 a ++ putU16 am ++ putU16 om).
  rewrite (exchange_sim c n pdu pdu "ok" (maskWriteRegister (snServer n) a am om "modbus"));
    [|done..|simpl; lia|simpl; lia|].
  - change (byteAt pdu 0) with 22. simpl. unfold gret at 1.
    unfold bytesEqual. by rewrite bool_decide_true by done.
  - unfold handlePDU, pdu. simpl. unfold handleMaskWriteRegister, u16At, byteAt. simpl.
    by rewrite !getU16_putU16 by done.
Qed.
