(* ===== verification/WorkerPlan.v ===== *)
(** * The PLC worker's scan plan: [internal/plcworker/worker.go], [buildPlan] and below

    Addresses are parsed from the point table, the readable points are sorted
    and merged into FC03 batches of at most 125 words.  [buildPlan] ranges over
    a Go map to check the write points, so the enumeration is an argument.
    The theorems say that a plan built from a checked table reads every
    readable point's whole span in one batch, that no batch wraps around the
    address space or exceeds the protocol's limit, and that no batch reads a
    word nobody asked for. *)

From Stdlib Require Import Ascii.
From S2P Require Import Prelude GoValue RuntimeConfig.

(** ** Data *)

Record pointAddress := mkPointAddress {
  paWord : Z;
  paBit : Z;
  paCount : Z;
  paBitIO : bool
}.

Record bitAddress := mkBitAddress { baWord : Z; baBit : Z }.

Record pointPlan := mkPointPlan {
  ppDefinition : PointDefinition;
  ppAddress : pointAddress
}.

Record readBatch := mkReadBatch { rbStart : Z; rbWords : list Z }.

Inductive address_error : Type :=
| AEBitForm (value : string) | AEBitWord (value : string) | AEBitBit (value : string)
| AERegForm (value : string) | AERegWord (value : string)
| AEMaskWrite | AEType (ty : string) | AESpan (address count : Z) | AEMethod.

Inductive plan_error : Type :=
| PEAddress (id : string) (e : address_error)
| PEWritePoint (id ty : string).

Record scanPlan := mkScanPlan {
  spPoints : gmap string pointPlan;
  spByWord : gmap Z (list pointPlan);
  spReadable : gset string;
  spBatches : list readBatch
}.

(** ** Addresses *)

Definition parseBitAddress (value : string) : result address_error bitAddress :=
  match splitChar (trimSpace value) "."%char with
  | [part0; part1] =>
      if negb (hasPrefix part0 "D") || (String.length part0 =? 1)%nat
      then Err (AEBitForm value)
      else match parseUint (drop_str 1 part0) 16 with
           | None => Err (AEBitWord value)
           | Some word =>
               match parseUint part1 8 with
               | None => Err (AEBitBit value)
               | Some bit =>
                   if 15 <? bit then Err (AEBitBit value)
                   else Ok (mkBitAddress (u16 word) (u8 bit))
               end
           end
  | _ => Err (AEBitForm value)
  end.

Definition parseRegisterAddress (value : string) : result address_error Z :=
  let trimmed := trimSpace value in
  if negb (hasPrefix trimmed "D") || (String.length trimmed =? 1)%nat || containsChar trimmed "."%char
  then Err (AERegForm value)
  else match parseUint (drop_str 1 trimmed) 16 with
       | None => Err (AERegWord value)
       | Some word => Ok (u16 word)
       end.

Definition planAddress (d : PointDefinition) : result address_error pointAddress :=
  if pType d =s "bool" then
    let? address := parseBitAddress (pAddress d) in
    if (pAccess d <>s "read") && (pWriteMethod d <>s "maskWrite") then Err AEMaskWrite
    else Ok (mkPointAddress (baWord address) (baBit address) 1 true)
  else if (pType d <>s "int16") && (pType d <>s "uint16") && (pType d <>s "int32") &&
          (pType d <>s "float32") then Err (AEType (pType d))
  else
    let? address := parseRegisterAddress (pAddress d) in
    if 2 ^ 16 <? u32 (address + u32 (pRegisterCount d)) then Err (AESpan address (pRegisterCount d))
    else if (pAccess d <>s "read") && (pWriteMethod d <>s "fc06") && (pWriteMethod d <>s "fc10")
    then Err AEMethod
    else Ok (mkPointAddress address 0 (u16 (pRegisterCount d)) false).

Definition addressEnd (a : pointAddress) : Z := u16 (paWord a + paCount a - 1).

Definition maxWord (left right : Z) : Z := if right <? left then left else right.

Definition newReadBatch (start end_ : Z) : readBatch :=
  mkReadBatch start
    (map (fun index => u16 (start + Z.of_nat index)) (seq 0 (Z.to_nat (u16 (end_ - start) + 1)))).

(** ** The plan *)

Definition readable (d : PointDefinition) : bool := pAccess d <>s "write".

(** The first loop of [buildPlan]; [readPlans] grows by [append]. *)
Fixpoint planPoints (definitions : list PointDefinition) (points : gmap string pointPlan)
    (byWord : gmap Z (list pointPlan)) (readableIDs : gset string) (readPlans : list pointPlan)
    : result plan_error (gmap string pointPlan * gmap Z (list pointPlan) * gset string * list pointPlan) :=
  match definitions with
  | [] => Ok (points, byWord, readableIDs, readPlans)
  | d :: rest =>
      match planAddress d with
      | Err e => Err (PEAddress (pPointID d) e)
      | Ok address =>
          let point := mkPointPlan d address in
          let points' := <[pPointID d := point]> points in
          if readable d then
            planPoints rest points'
              (<[paWord address := default [] (byWord !! paWord address) ++ [point]]> byWord)
              ({[pPointID d]} ∪ readableIDs) (readPlans ++ [point])
          else planPoints rest points' byWord readableIDs readPlans
      end
  end.

(** The second loop, over the points in the order the map yields them. *)
Fixpoint checkWritePoints (points : gmap string pointPlan) (items : list pointPlan)
    : result plan_error unit :=
  match items with
  | [] => Ok tt
  | point :: rest =>
      if pAccess (ppDefinition point) =s "read" then checkWritePoints points rest
      else
        let err := Err (PEWritePoint (pPointID (ppDefinition point)) (pType (ppDefinition point))) in
        match points !! pWritePoint (ppDefinition point) with
        | None => err
        | Some writePoint =>
            if (pType (ppDefinition writePoint) <>s pType (ppDefinition point)) ||
               negb (Bool.eqb (paBitIO (ppAddress writePoint)) (paBitIO (ppAddress point)))
            then err
            else checkWritePoints points rest
        end
  end.

(** The order of [sort.Slice]. *)
Definition planLe (l r : pointPlan) : Prop :=
  paWord (ppAddress l) < paWord (ppAddress r) ∨
  (paWord (ppAddress l) = paWord (ppAddress r) ∧ paCount (ppAddress l) ≤ paCount (ppAddress r)).

#[global] Instance planLe_dec : RelDecision planLe.
Proof. intros l r. unfold planLe. apply _. Defined.

Definition sortPlans (plans : list pointPlan) : list pointPlan := merge_sort planLe plans.

(** The merging loop after [batchStart] and [batchEnd] are set. *)
Fixpoint extendBatches (batchStart batchEnd : Z) (plans : list pointPlan) : list readBatch :=
  match plans with
  | [] => [newReadBatch batchStart batchEnd]
  | point :: rest =>
      let pointStart := paWord (ppAddress point) in
      let pointEnd := addressEnd (ppAddress point) in
      let contiguous := pointStart <=? u32 (batchEnd + 1) in
      let fits := u32 (u32 (maxWord batchEnd pointEnd - batchStart) + 1) <=? 125 in
      if negb contiguous || negb fits then
        newReadBatch batchStart batchEnd :: extendBatches pointStart pointEnd rest
      else extendBatches batchStart (maxWord batchEnd pointEnd) rest
  end.

Definition planBatches (readPlans : list pointPlan) : list readBatch :=
  match sortPlans readPlans with
  | [] => []
  | point :: rest => extendBatches (paWord (ppAddress point)) (addressEnd (ppAddress point)) rest
  end.

Section buildPlan.
(** The enumeration of a Go map's values by [range]. *)
Variable (range : gmap string pointPlan → list pointPlan).

Definition buildPlan (config : Config) : result plan_error scanPlan :=
  let? loop := planPoints (cPoints config) ∅ ∅ ∅ [] in
  let '(points, byWord, readableIDs, readPlans) := loop in
  let? _ := checkWritePoints points (range points) in
  Ok (mkScanPlan points byWord readableIDs (planBatches readPlans)).
End buildPlan.

(** ** Addresses are in range *)

Record address_ok (a : pointAddress) : Prop := {
  ad_word : 0 ≤ paWord a;
  ad_count : 1 ≤ paCount a ≤ 2;
  ad_span : paWord a + paCount a ≤ 2 ^ 16;
  ad_bit : 0 ≤ paBit a ≤ 15;
  ad_bitIO : paBitIO a = true → paCount a = 1
}.

Lemma parseBitAddress_ok s a :
  parseBitAddress s = Ok a → in_range 16 (baWord a) ∧ 0 ≤ baBit a ≤ 15.
Proof.
  unfold parseBitAddress. intros Hp. repeat (case_match; try done). simplify_eq. simpl.
  rename select (parseUint _ 8 = _) into Hb. apply parseUint_range in Hb as [??]. propify.
  split; [by apply wrap_range|]. rewrite wrap_id by (unfold in_range; lia). lia.
Qed.

Lemma parseRegisterAddress_ok s a : parseRegisterAddress s = Ok a → in_range 16 a.
Proof.
  unfold parseRegisterAddress. intros Hp. repeat (case_match; try done). simplify_eq.
  by apply wrap_range.
Qed.

(** The register counts a checked point can carry. *)
Lemma layout_count p :
  validateRegisterLayout p = Ok tt →
  pType p = "int16" ∨ pType p = "uint16" ∨ pType p = "int32" ∨ pType p = "float32" →
  1 ≤ pRegisterCount p ≤ 2.
Proof.
  unfold validateRegisterLayout. intros Hv Ht.
  destruct Ht as [Ht|[Ht|[Ht|Ht]]]; rewrite Ht in Hv; simpl in Hv; branches Hv; lia.
Qed.

Lemma planAddress_ok d a :
  validatePoint d = Ok tt → planAddress d = Ok a → address_ok a.
Proof.
  intros (_ & _ & _ & _ & _ & Hl & _ & _)%validatePoint_ok. unfold planAddress. intros Hp.
  destruct (pType d =s "bool").
  - apply rbind_ok in Hp as (b & [[??] ?]%parseBitAddress_ok & Hp).
    case_match; simplify_eq. change (2 ^ 16) with 65536 in *.
    split; simpl; try done; change (2 ^ 16) with 65536; lia.
  - destruct (_ && _ && _ && _) eqn:Ht; [done|].
    assert (1 ≤ pRegisterCount d ≤ 2) as Hc.
    { apply layout_count; [done|].
      destruct (String.eqb_spec (pType d) "int16"), (String.eqb_spec (pType d) "uint16"),
        (String.eqb_spec (pType d) "int32"), (String.eqb_spec (pType d) "float32"); auto; done. }
    apply rbind_ok in Hp as (w & [??]%parseRegisterAddress_ok & Hp).
    rewrite (wrap_id 32 (pRegisterCount d)) in Hp by (unfold in_range; lia).
    rewrite (wrap_id 32 (w + _)) in Hp by (unfold in_range; change (2 ^ 16) with 65536 in *; lia).
    branches Hp. rewrite (wrap_id 16 (pRegisterCount d)) by (unfold in_range; lia).
    split; simpl; lia || done.
Qed.

Lemma addressEnd_ok a : address_ok a → addressEnd a = paWord a + paCount a - 1.
Proof. intros []. unfold addressEnd. apply wrap_id. unfold in_range. lia. Qed.

Lemma maxWord_max l r : maxWord l r = Z.max l r.
Proof. unfold maxWord. case_match; propify; lia. Qed.

(** ** Batches *)

(** A batch is an interval of the address space that one FC03 request may carry. *)
Definition batch_ok (b : readBatch) : Prop :=
  ∃ n, 1 ≤ n ≤ 125 ∧ 0 ≤ rbStart b ∧ rbStart b + n ≤ 2 ^ 16 ∧ rbWords b = seqZ (rbStart b) n.

Definition covers (b : readBatch) (a : pointAddress) : Prop :=
  rbStart b ≤ paWord a ∧ paWord a + paCount a ≤ rbStart b + Z.of_nat (length (rbWords b)).

Lemma newReadBatch_words s e :
  0 ≤ s ≤ e → e < 2 ^ 16 → rbWords (newReadBatch s e) = seqZ s (e - s + 1).
Proof.
  intros ??. unfold newReadBatch, seqZ. cbn [rbWords].
  rewrite (wrap_id 16 (e - s)) by (unfold in_range; lia).
  apply list_fmap_ext. intros i x Hx%lookup_seq. rewrite wrap_id; [lia|]. unfold in_range. lia.
Qed.

Lemma newReadBatch_ok s e :
  0 ≤ s ≤ e → e < 2 ^ 16 → e - s + 1 ≤ 125 → batch_ok (newReadBatch s e).
Proof.
  intros ???. exists (e - s + 1). repeat split; try (simpl; lia). by apply newReadBatch_words.
Qed.

Lemma newReadBatch_covers s e a :
  0 ≤ s ≤ e → e < 2 ^ 16 → s ≤ paWord a → paWord a + paCount a - 1 ≤ e →
  covers (newReadBatch s e) a.
Proof.
  intros ????. unfold covers. rewrite newReadBatch_words, length_seqZ by done. simpl. lia.
Qed.

Definition planned (p : pointPlan) (w : Z) : Prop :=
  paWord (ppAddress p) ≤ w < paWord (ppAddress p) + paCount (ppAddress p).

(** What the merging loop guarantees from an open batch [s..e] onwards. *)
Record batches_ok (s e : Z) (plans : list pointPlan) (bs : list readBatch) : Prop := {
  bs_ok : Forall batch_ok bs;
  bs_open : ∀ a, s ≤ paWord a → paWord a + paCount a - 1 ≤ e → ∃ b, b ∈ bs ∧ covers b a;
  bs_plans : ∀ p, p ∈ plans → ∃ b, b ∈ bs ∧ covers b (ppAddress p);
  bs_needed : ∀ b w, b ∈ bs → w ∈ rbWords b → s ≤ w ≤ e ∨ ∃ p, p ∈ plans ∧ planned p w
}.

Lemma batches_ok_close s e p rest bs :
  address_ok (ppAddress p) → 0 ≤ s ≤ e → e < 2 ^ 16 → e - s + 1 ≤ 125 →
  batches_ok (paWord (ppAddress p)) (addressEnd (ppAddress p)) rest bs →
  batches_ok s e (p :: rest) (newReadBatch s e :: bs).
Proof.
  intros Hp Hse He Hlen [Hok Ho Hpl Hn]. pose proof Hp as []. split.
  - apply Forall_cons. split; [by apply newReadBatch_ok|done].
  - intros a ??. exists (newReadBatch s e). split; [left|by apply newReadBatch_covers].
  - intros q [->|Hq]%elem_of_cons.
    + destruct (Ho (ppAddress p)) as (b & ? & ?); [lia|rewrite addressEnd_ok by done; lia|].
      exists b. split; [by right|done].
    + destruct (Hpl q Hq) as (b & ? & ?). exists b. split; [by right|done].
  - intros b w [->|Hb]%elem_of_cons Hw.
    + left. rewrite newReadBatch_words in Hw by done. apply elem_of_seqZ in Hw. lia.
    + destruct (Hn b w Hb Hw) as [Hr|(q & ? & ?)].
      * right. exists p. split; [left|]. rewrite addressEnd_ok in Hr by done. unfold planned. lia.
      * right. exists q. split; [by right|done].
Qed.

Lemma batches_ok_grow s e p rest bs :
  address_ok (ppAddress p) → s ≤ paWord (ppAddress p) ≤ e + 1 →
  batches_ok s (Z.max e (addressEnd (ppAddress p))) rest bs →
  batches_ok s e (p :: rest) bs.
Proof.
  intros Hp Hs [Hok Ho Hpl Hn]. pose proof Hp as [].
  rewrite addressEnd_ok in * by done. split.
  - done.
  - intros a ??. apply Ho; lia.
  - intros q [->|Hq]%elem_of_cons; [apply Ho; lia|eauto].
  - intros b w Hb Hw. destruct (Hn b w Hb Hw) as [Hr|(q & ? & ?)].
    + destruct (decide (w ≤ e)); [left; lia|right].
      exists p. split; [left|]. unfold planned. lia.
    + right. exists q. split; [by right|done].
Qed.

Lemma extendBatches_ok s e plans :
  Forall (address_ok ∘ ppAddress) plans → StronglySorted planLe plans →
  Forall (fun p => s ≤ paWord (ppAddress p)) plans →
  0 ≤ s ≤ e → e < 2 ^ 16 → e - s + 1 ≤ 125 →
  batches_ok s e plans (extendBatches s e plans).
Proof.
  revert s e. induction plans as [|p rest IH]; intros s e Ha Hs Hge Hse He Hlen; simpl.
  { split; [| |by intros p ?%not_elem_of_nil|].
    - apply Forall_singleton. by apply newReadBatch_ok.
    - intros a ??. eexists. split; [by apply list_elem_of_singleton|by apply newReadBatch_covers].
    - intros b w ->%list_elem_of_singleton. rewrite newReadBatch_words by done.
      rewrite elem_of_seqZ. lia. }
  apply Forall_cons in Ha as [Hp Ha]. apply Forall_cons in Hge as [Hps Hge].
  inversion_clear Hs as [|?? Hs' Hle]. cbn in Hp. pose proof Hp as [].
  pose proof (addressEnd_ok _ Hp) as Hend. change (2 ^ 16) with 65536 in *.
  assert (Forall (fun q => paWord (ppAddress p) ≤ paWord (ppAddress q)) rest) as Hge'.
  { eapply Forall_impl; [exact Hle|]. intros q [?|[? _]]; lia. }
  rewrite maxWord_max.
  rewrite (wrap_id 32 (e + 1)), (wrap_id 32 (Z.max _ _ - _)), (wrap_id 32 (Z.max _ _ - _ + 1))
    by (unfold in_range; change (2 ^ 32) with 4294967296; lia).
  case_match eqn:Hc; [|apply orb_false_iff in Hc as [??]; propify].
  - apply batches_ok_close; [done|lia..|]. apply IH; try done; lia.
  - apply batches_ok_grow; [done|lia|]. apply IH; try done; lia.
Qed.

Lemma planLe_sorted plans : StronglySorted planLe (sortPlans plans).
Proof.
  apply StronglySorted_merge_sort.
  - intros x y z. unfold planLe. lia.
  - intros x y. unfold planLe. lia.
Qed.

(** The batches of the readable plans. *)
Lemma planBatches_ok plans :
  Forall (address_ok ∘ ppAddress) plans →
  Forall batch_ok (planBatches plans) ∧
  (∀ p, p ∈ plans → ∃ b, b ∈ planBatches plans ∧ covers b (ppAddress p)) ∧
  (∀ b w, b ∈ planBatches plans → w ∈ rbWords b → ∃ p, p ∈ plans ∧ planned p w).
Proof.
  intros Ha. pose proof (planLe_sorted plans) as Hs. unfold planBatches.
  assert (sortPlans plans ≡ₚ plans) as Hperm by apply merge_sort_Permutation.
  assert (∀ p, p ∈ plans ↔ p ∈ sortPlans plans) as Hin by (intros p; by rewrite Hperm).
  rewrite <-Hperm in Ha. destruct (sortPlans plans) as [|p rest].
  { split; [done|]. split; [intros p ?%Hin; set_solver|set_solver]. }
  apply Forall_cons in Ha as [Hp Ha]. inversion_clear Hs as [|?? Hs' Hle]. cbn in Hp.
  pose proof Hp as []. pose proof (addressEnd_ok _ Hp) as Hend.
  destruct (extendBatches_ok (paWord (ppAddress p)) (addressEnd (ppAddress p)) rest)
    as [Hok Ho Hpl Hn]; [done|done| |lia..|].
  { eapply Forall_impl; [exact Hle|]. intros q [?|[? _]]; lia. }
  split; [done|]. split.
  - intros q [->|Hq]%Hin%elem_of_cons; [apply Ho; lia|auto].
  - intros b w Hb Hw. destruct (Hn b w Hb Hw) as [?|(q & ? & ?)].
    + exists p. split; [apply Hin; left|]. unfold planned. lia.
    + exists q. split; [apply Hin; by right|done].
Qed.

(** ** The tables built by the first loop *)

Definition planOf (p : pointPlan) : Prop := planAddress (ppDefinition p) = Ok (ppAddress p).
Definition planID (p : pointPlan) : string := pPointID (ppDefinition p).
Definition planReadable (p : pointPlan) : Prop := readable (ppDefinition p) = true.

#[global] Instance planReadable_dec p : Decision (planReadable p).
Proof. unfold planReadable. apply _. Defined.

Lemma planPoints_ok ds points byWord ids plans points' byWord' ids' plans' :
  planPoints ds points byWord ids plans = Ok (points', byWord', ids', plans') →
  ∃ ps, map ppDefinition ps = ds ∧ Forall planOf ps ∧
    points' = foldl (fun m p => <[planID p := p]> m) points ps ∧
    plans' = plans ++ filter planReadable ps ∧
    ids' = ids ∪ list_to_set (map planID (filter planReadable ps)) ∧
    ∀ w, default [] (byWord' !! w) = default [] (byWord !! w) ++
      filter (fun p => paWord (ppAddress p) = w) (filter planReadable ps).
Proof.
  revert points byWord ids plans. induction ds as [|d ds IH]; intros points byWord ids plans; simpl.
  { intros [= <- <- <- <-]. exists []. simpl. rewrite !app_nil_r. repeat split; auto; [set_solver|].
    intros w. by rewrite app_nil_r. }
  destruct (planAddress d) as [a|] eqn:Ha; [|done].
  set (p := mkPointPlan d a). assert (planOf p) as Hp by done.
  destruct (readable d) eqn:Hr; intros (ps & Hds & Hps & -> & -> & -> & Hbw)%IH;
    exists (p :: ps); cbn [map foldl]; rewrite Hds, filter_cons.
  - rewrite decide_True by done. repeat split; auto.
    + by rewrite <-app_assoc.
    + cbn [map list_to_set]. set_solver.
    + intros w. rewrite Hbw, filter_cons. destruct (decide (paWord a = w)) as [<-|Hw].
      * rewrite decide_True by done. rewrite lookup_insert_eq. simpl. by rewrite <-app_assoc.
      * rewrite decide_False by done. by rewrite lookup_insert_ne by done.
  - rewrite decide_False by (unfold planReadable; simpl; by rewrite Hr). repeat split; auto.
Qed.

Lemma foldl_points ps (m : gmap string pointPlan) id :
  NoDup (map planID ps) →
  foldl (fun m p => <[planID p := p]> m) m ps !! id =
    match list_find (fun p => planID p = id) ps with Some (_, p) => Some p | None => m !! id end.
Proof.
  revert m. induction ps as [|p ps IH]; intros m Hnd; [done|].
  cbn [map foldl list_find] in *. apply NoDup_cons in Hnd as [Hnin Hnd]. rewrite IH by done.
  case_decide as Hid.
  - subst id. destruct (list_find _ ps) as [[i q]|] eqn:E; simpl.
    + apply list_find_Some in E as (Hi & Heq & _). destruct Hnin.
      rewrite <-Heq. apply list_elem_of_fmap_2. by eapply list_elem_of_lookup_2.
    + by rewrite lookup_insert_eq.
  - destruct (list_find _ ps) as [[i q]|]; simpl; [done|]. by rewrite lookup_insert_ne by done.
Qed.

Lemma foldl_points_elem ps id p :
  NoDup (map planID ps) →
  (foldl (fun m p => <[planID p := p]> m) ∅ ps : gmap string pointPlan) !! id = Some p ↔ p ∈ ps ∧ planID p = id.
Proof.
  intros Hnd. rewrite foldl_points by done.
  destruct (list_find _ ps) as [[i q]|] eqn:E.
  - apply list_find_Some in E as (Hi & Hq & _). split.
    + intros [= <-]. split; [by eapply list_elem_of_lookup_2|done].
    + intros [[j Hj]%list_elem_of_lookup_1 Hp]. f_equal.
      assert (i = j) as ->; [|by simplify_eq].
      eapply (NoDup_lookup _ i j id Hnd); rewrite list_lookup_fmap;
        [by rewrite Hi; simpl; rewrite Hq|by rewrite Hj; simpl; rewrite Hp].
  - apply list_find_None in E. rewrite Forall_forall in E. rewrite lookup_empty.
    split; [done|]. intros [Hin Hp]. by destruct (E p Hin).
Qed.

(** What the worker relies on. *)
Record plan_ok (sp : scanPlan) : Prop := {
  pl_point : ∀ id p, spPoints sp !! id = Some p →
    planID p = id ∧ planOf p ∧ validatePoint (ppDefinition p) = Ok tt ∧ address_ok (ppAddress p);
  pl_byWord : ∀ w p, p ∈ default [] (spByWord sp !! w) ↔
    spPoints sp !! planID p = Some p ∧ planReadable p ∧ paWord (ppAddress p) = w;
  pl_readable : ∀ id, id ∈ spReadable sp ↔ ∃ p, spPoints sp !! id = Some p ∧ planReadable p;
  pl_batches : Forall batch_ok (spBatches sp);
  pl_covered : ∀ id p, spPoints sp !! id = Some p → planReadable p →
    ∃ b, b ∈ spBatches sp ∧ covers b (ppAddress p);
  pl_needed : ∀ b w, b ∈ spBatches sp → w ∈ rbWords b →
    ∃ id p, spPoints sp !! id = Some p ∧ planReadable p ∧ planned p w
}.

Lemma buildPlan_ok range c sp :
  config_ok c → buildPlan range c = Ok sp →
  plan_ok sp ∧
  ∀ d, d ∈ cPoints c → ∃ p, spPoints sp !! pPointID d = Some p ∧ ppDefinition p = d.
Proof.
  intros Hc Hb. unfold buildPlan in Hb.
  apply rbind_ok in Hb as ([[[points byWord] ids] plans] & Hloop & Hb).
  apply rbind_ok in Hb as ([] & _ & [= <-]).
  apply planPoints_ok in Hloop as (ps & Hds & Hps & -> & -> & -> & Hbw).
  assert (NoDup (map planID ps)) as Hnd.
  { pose proof (co_unique _ Hc) as Hnd. by rewrite <-Hds, map_map in Hnd. }
  rewrite Forall_forall in Hps.
  assert (∀ p, p ∈ ps → validatePoint (ppDefinition p) = Ok tt) as Hval.
  { intros p Hp. apply (po_valid (table (cPoints c))), (co_points _ Hc).
    rewrite <-Hds. by apply list_elem_of_fmap_2. }
  assert (∀ p, p ∈ ps → address_ok (ppAddress p)) as Haddr.
  { intros p Hp. eapply planAddress_ok; [by apply Hval|by apply Hps]. }
  assert (Forall (address_ok ∘ ppAddress) (filter planReadable ps)) as Hfa.
  { apply Forall_forall. intros p [_ Hp]%list_elem_of_filter. by apply Haddr. }
  pose proof (planBatches_ok _ Hfa) as (Hok & Hcov & Hneed).
  split; [split; simpl|].
  - intros id p (Hp & <-)%foldl_points_elem; auto 10.
  - intros w p. rewrite Hbw, lookup_empty, foldl_points_elem by done. simpl.
    rewrite !list_elem_of_filter. naive_solver.
  - intros id. rewrite (left_id_L ∅ (∪)), elem_of_list_to_set, list_elem_of_fmap.
    setoid_rewrite list_elem_of_filter. setoid_rewrite foldl_points_elem; [|done]. naive_solver.
  - done.
  - intros id p (Hp & _)%foldl_points_elem Hr; [|done]. apply Hcov. by apply list_elem_of_filter.
  - intros b w Hb Hw. destruct (Hneed b w Hb Hw) as (p & [Hr Hp]%list_elem_of_filter & Hpl).
    exists (planID p), p. split; [by apply foldl_points_elem|done].
  - intros d Hd. rewrite <-Hds in Hd. apply list_elem_of_fmap in Hd as (p & -> & Hp).
    exists p. split; [by apply foldl_points_elem|done].
Qed.

(** The plan holds only points of the table. *)
Lemma buildPlan_points range c sp id p :
  config_ok c → buildPlan range c = Ok sp → spPoints sp !! id = Some p → ppDefinition p ∈ cPoints c.
Proof.
  intros Hc Hb Hid. unfold buildPlan in Hb.
  apply rbind_ok in Hb as ([[[points byWord] ids] plans] & Hloop & Hb).
  apply rbind_ok in Hb as ([] & _ & [= <-]).
  apply planPoints_ok in Hloop as (ps & Hds & _ & -> & _). simpl in Hid.
  apply foldl_points_elem in Hid as (Hp & _).
  - rewrite <-Hds. by apply list_elem_of_fmap_2.
  - pose proof (co_unique _ Hc) as Hnd. by rewrite <-Hds, map_map in Hnd.
Qed.
