(* ===== verification/WorkerCodec.v ===== *)
(** * Point values as registers: [numericWords] and [decodePointValue] of
      [internal/plcworker/worker.go]

    A value written to a numeric point becomes one or two 16-bit words, and the
    words read back become a Go value of the point's own type.  The theorems
    are the round trips: an accepted number comes back as the number it was. *)

From S2P Require Import Prelude GoValue GoFloat RuntimeConfig WorkerPlan.

Inductive numeric_error : Type :=
| NEValue (e : value_error)
| NENotNumber
| NEWordOrder (ty order : string)
| NEType (ty : string).

Inductive decode_error : Type :=
| DEIncomplete
| DEWordOrder (ty order : string)
| DEType (ty : string).

(** ** Encoding *)

Definition numericFloat64 (v : goval) : option spec_float :=
  match v with
  | VInt _ z => Some (f64_of_Z z)
  | VFloat32 f => Some (f64_of_f32 f)
  | VFloat64 f => Some f
  | _ => None
  end.

(** The two words of 32 bits, in the configured order. *)
Definition splitWords (ty order : string) (bits : Z) : result numeric_error (list Z) :=
  let low := u16 bits in
  let high := u16 (Z.shiftr bits 16) in
  if order =s "low-high" then Ok [low; high]
  else if order =s "high-low" then Ok [high; low]
  else Err (NEWordOrder ty order).

(** Converting a float to an integer type that holds its integer part, as
    [ValidateValue] has checked, is that integer part. *)
Definition numericWords (d : PointDefinition) (v : goval) : result numeric_error (list Z) :=
  let? _ := wrapErr NEValue (ValidateValue (pType d) v) in
  match numericFloat64 v with
  | None => Err NENotNumber
  | Some number =>
      if pType d =s "int16" then Ok [u16 (i16 (trunc_Z number))]
      else if pType d =s "uint16" then Ok [u16 (trunc_Z number)]
      else if pType d =s "int32" then splitWords "int32" (pWordOrder d) (u32 (i32 (trunc_Z number)))
      else if pType d =s "float32" then
        splitWords "float32" (pWordOrder d) (bits_of_f32 (f32_of_f64 number))
      else Err (NEType (pType d))
  end.

(** ** Decoding *)

Definition joinWords (ty order : string) (w0 w1 : Z) : result decode_error Z :=
  if order =s "low-high" then Ok (Z.lor (Z.shiftl w1 16) w0)
  else if order =s "high-low" then Ok (Z.lor (Z.shiftl w0 16) w1)
  else Err (DEWordOrder ty order).

Definition wordAt (words : list Z) (i : nat) : Z := nth i words 0.

Definition decodePointValue (point : pointPlan) (words : list Z) : result decode_error goval :=
  let d := ppDefinition point in
  let a := ppAddress point in
  if negb (Z.of_nat (length words) =? paCount a) then Err DEIncomplete
  else if paBitIO a then
    Ok (VBool (negb (Z.land (wordAt words 0) (u16 (Z.shiftl 1 (paBit a))) =? 0)))
  else if pType d =s "int16" then Ok (VInt KInt16 (i16 (wordAt words 0)))
  else if pType d =s "uint16" then Ok (VInt KUint16 (wordAt words 0))
  else if pType d =s "int32" then
    let? bits := joinWords "int32" (pWordOrder d) (wordAt words 0) (wordAt words 1) in
    Ok (VInt KInt32 (i32 bits))
  else if pType d =s "float32" then
    let? bits := joinWords "float32" (pWordOrder d) (wordAt words 0) (wordAt words 1) in
    Ok (VFloat64 (f64_of_f32 (f32_of_bits bits)))
  else Err (DEType (pType d)).

(** ** Words *)

Lemma join_split_words w0 w1 :
  in_range 16 w0 → in_range 16 w1 →
  Z.lor (Z.shiftl w1 16) w0 = w1 * 2 ^ 16 + w0.
Proof. intros [??] _. by apply lor_shiftl_add. Qed.

Lemma splitWords_join ty ty' order bits ws :
  in_range 32 bits → splitWords ty order bits = Ok ws →
  length ws = 2%nat ∧ joinWords ty' order (wordAt ws 0) (wordAt ws 1) = Ok bits.
Proof.
  intros [Hlo Hhi]. change (2 ^ 32) with 4294967296 in Hhi. unfold splitWords, joinWords.
  assert (Z.lor (Z.shiftl (u16 (Z.shiftr bits 16)) 16) (u16 bits) = bits) as Hj.
  { rewrite join_split_words by (apply wrap_range; lia). unfold wrap.
    rewrite Z.shiftr_div_pow2 by lia. change (2 ^ 16) with 65536.
    rewrite (Z.mod_small (bits / 65536)).
    - pose proof (Z.div_mod bits 65536). lia.
    - split; [apply Z.div_pos; lia|]. apply Z.div_lt_upper_bound; lia. }
  destruct (order =s "low-high"); [intros [= <-]; split; [done|]; unfold wordAt; cbn [nth]; by rewrite Hj|].
  destruct (order =s "high-low"); [intros [= <-]; split; [done|]; unfold wordAt; cbn [nth]; by rewrite Hj|done].
Qed.

(** Every bit point decodes to the bit of its word. *)
Lemma decode_bit p w :
  address_ok (ppAddress p) → paBitIO (ppAddress p) = true →
  decodePointValue p [w] = Ok (VBool (Z.testbit w (paBit (ppAddress p)))).
Proof.
  intros [_ _ _ Hb Hio] Hb'. unfold decodePointValue. rewrite (Hio Hb'), Hb'. cbn [length negb Z.of_nat Z.eqb Pos.of_succ_nat Pos.eqb].
  change (wordAt [w] 0) with w. do 2 f_equal. set (b := paBit (ppAddress p)) in *.
  assert (u16 (Z.shiftl 1 b) = 2 ^ b) as ->.
  { rewrite Z.shiftl_1_l. apply Z.mod_small. split; [lia|]. apply Z.pow_lt_mono_r; lia. }
  destruct (Z.testbit w b) eqn:E.
  - apply negb_true_iff, Z.eqb_neq. intros H0.
    assert (Z.testbit (Z.land w (2 ^ b)) b = false) as Hf by (by rewrite H0, Z.bits_0).
    rewrite Z.land_spec, E, Z.pow2_bits_true in Hf by lia. done.
  - apply negb_false_iff, Z.eqb_eq. apply Z.bits_inj'. intros i Hi.
    rewrite Z.land_spec, Z.bits_0. destruct (decide (i = b)) as [->|]; [by rewrite E|].
    rewrite Z.pow2_bits_false by lia. by rewrite andb_false_r.
Qed.

(** ** Numbers *)

(** The layout of a planned numeric point. *)
Lemma planOf_numeric p :
  planOf p → validatePoint (ppDefinition p) = Ok tt → pType (ppDefinition p) ≠ "bool" →
  paBitIO (ppAddress p) = false ∧ paCount (ppAddress p) = pRegisterCount (ppDefinition p) ∧
  validateRegisterLayout (ppDefinition p) = Ok tt.
Proof.
  destruct p as [d a]. cbn [ppDefinition ppAddress].
  intros Hp (_ & _ & _ & _ & _ & Hl & _ & _)%validatePoint_ok Ht.
  unfold planOf, planAddress in Hp. cbn [ppDefinition ppAddress] in Hp.
  rewrite (proj2 (String.eqb_neq _ _) Ht) in Hp.
  destruct (_ && _ && _ && _) eqn:Hty; [done|].
  apply rbind_ok in Hp as (w & _ & Hp). do 2 (case_match; [done|]). injection Hp as <-.
  cbn [paBitIO paCount]. split_and!; [done| |done].
  apply wrap_id. pose proof (layout_count d Hl) as Hc. unfold in_range. change (2 ^ 16) with 65536.
  destruct (String.eqb_spec (pType d) "int16"), (String.eqb_spec (pType d) "uint16"),
    (String.eqb_spec (pType d) "int32"), (String.eqb_spec (pType d) "float32"); try done;
    (assert (1 ≤ pRegisterCount d ≤ 2) by auto; lia).
Qed.

(** The integer an accepted JSON number stands for. *)
Definition denotes (f : spec_float) (z : Z) : Prop := SFcompare f (f64_of_Z z) = Some Eq.

Lemma accepted_integer f lo hi :
  valid_binary prec64 emax64 f = true → exact64 lo → exact64 hi → lo ≤ 0 ≤ hi →
  isInteger (VFloat64 f) = true →
  f64_ltb f (f64_of_Z lo) || f64_ltb (f64_of_Z hi) f = false →
  lo ≤ trunc_Z f ≤ hi ∧ denotes f (trunc_Z f).
Proof.
  intros Hv Hlo Hhi Hz Hi [Hl Hh]%orb_false_iff. apply integral64; try done.
  intros ->. done.
Qed.

Lemma SFleb_ltb x y : SFleb x y = true → SFltb y x = false.
Proof.
  unfold SFleb, SFltb, SFcompare.
  destruct x as [[]|[]| |[] m e], y as [[]|[]| |[] m' e']; try done.
  all: rewrite (Z.compare_antisym e e'); destruct (e ?= e'); simpl; try done.
  all: change (Pos.compare_cont Eq m m') with (Pos.compare m m').
  all: change (Pos.compare_cont Eq m' m) with (Pos.compare m' m).
  all: rewrite (Pos.compare_antisym m m'); by destruct (m ?= m')%positive.
Qed.

Lemma numberWithin_ltb lo hi v :
  numberWithin lo hi v = true →
  f64_ltb (numberAsFloat64 v) (f64_of_Z lo) || f64_ltb (f64_of_Z hi) (numberAsFloat64 v) = false.
Proof. intros [Hl Hh]%andb_true_iff. apply orb_false_iff. split; by apply SFleb_ltb. Qed.

Lemma ValidateValue_int16 v :
  ValidateValue "int16" v = Ok tt → isInteger v = true ∧
  f64_ltb (numberAsFloat64 v) (f64_of_Z (-32768)) || f64_ltb (f64_of_Z 32767) (numberAsFloat64 v) = false.
Proof. unfold ValidateValue. simpl. destruct (isInteger v); [|done]. by case_match. Qed.

Lemma ValidateValue_uint16 v :
  ValidateValue "uint16" v = Ok tt → isInteger v = true ∧ numberWithin 0 65535 v = true.
Proof. unfold ValidateValue. simpl. by destruct (isInteger v), (numberWithin 0 65535 v). Qed.

Lemma ValidateValue_int32 v :
  ValidateValue "int32" v = Ok tt → isInteger v = true ∧ numberWithin (-2147483648) 2147483647 v = true.
Proof. unfold ValidateValue. simpl. by destruct (isInteger v), (numberWithin _ _ v). Qed.

Section codec.
Variables (p : pointPlan) (f : spec_float) (ws : list Z).
Let d := ppDefinition p.
Hypothesis (Hplan : planOf p) (Hvalid : validatePoint d = Ok tt).
Hypothesis (Hf : valid_binary prec64 emax64 f = true).
Hypothesis (Hws : numericWords d (VFloat64 f) = Ok ws).

Lemma int16_roundtrip :
  pType d = "int16" → ∃ z, denotes f z ∧ decodePointValue p ws = Ok (VInt KInt16 z).
Proof.
  intros Ht. destruct (planOf_numeric p Hplan Hvalid) as (Hb & Hc & Hl); [by fold d; rewrite Ht|].
  fold d in Hc, Hl. unfold numericWords in Hws. rewrite Ht in Hws.
  apply rbind_ok in Hws as ([] & Hv%wrapErr_ok & Hws'). simpl in Hws'. injection Hws' as <-.
  apply ValidateValue_int16 in Hv as [Hi Hr].
  destruct (accepted_integer f (-32768) 32767) as [Hz Hd]; [done|split; lia|split; lia|lia|done|done|].
  exists (trunc_Z f). split; [done|].
  unfold validateRegisterLayout in Hl. rewrite Ht in Hl. simpl in Hl.
  case_match; [done|]. propify.
  unfold decodePointValue. fold d. rewrite Hc, Hb, Ht.
  replace (pRegisterCount d) with 1 by done. simpl. unfold wordAt. simpl.
  rewrite (swrap_id 16 (trunc_Z f)) by (simpl; lia). rewrite swrap_wrap by lia. rewrite swrap_id by (simpl; lia). done.
Qed.

Lemma uint16_roundtrip :
  pType d = "uint16" → ∃ z, denotes f z ∧ decodePointValue p ws = Ok (VInt KUint16 z).
Proof.
  intros Ht. destruct (planOf_numeric p Hplan Hvalid) as (Hb & Hc & Hl); [by fold d; rewrite Ht|].
  fold d in Hc, Hl. unfold numericWords in Hws. rewrite Ht in Hws.
  apply rbind_ok in Hws as ([] & Hv%wrapErr_ok & Hws'). simpl in Hws'. injection Hws' as <-.
  apply ValidateValue_uint16 in Hv as [Hi Hr%numberWithin_ltb].
  destruct (accepted_integer f 0 65535) as [Hz Hd]; [done|split; lia|split; lia|lia|done|done|].
  exists (trunc_Z f). split; [done|].
  unfold validateRegisterLayout in Hl. rewrite Ht in Hl. simpl in Hl.
  case_match; [done|]. propify.
  unfold decodePointValue. fold d. rewrite Hc, Hb, Ht.
  replace (pRegisterCount d) with 1 by done. simpl. unfold wordAt. simpl.
  rewrite wrap_id; [done|]. unfold in_range. change (2 ^ 16) with 65536. lia.
Qed.

Lemma int32_roundtrip :
  pType d = "int32" → ∃ z, denotes f z ∧ decodePointValue p ws = Ok (VInt KInt32 z).
Proof.
  intros Ht. destruct (planOf_numeric p Hplan Hvalid) as (Hb & Hc & Hl); [by fold d; rewrite Ht|].
  fold d in Hc, Hl. unfold numericWords in Hws. rewrite Ht in Hws.
  apply rbind_ok in Hws as ([] & Hv%wrapErr_ok & Hws'). simpl in Hws'.
  apply ValidateValue_int32 in Hv as [Hi Hr%numberWithin_ltb].
  destruct (accepted_integer f (-2147483648) 2147483647) as [Hz Hd];
    [done|split; lia|split; lia|lia|done|done|].
  exists (trunc_Z f). split; [done|].
  unfold validateRegisterLayout in Hl. rewrite Ht in Hl. simpl in Hl.
  case_match; [done|]. propify.
  eapply splitWords_join in Hws' as [Hlen Hj]; [|apply wrap_range; lia].
  unfold decodePointValue. fold d. rewrite Hc, Hb, Ht, Hlen.
  replace (pRegisterCount d) with 2 by done. simpl. rewrite Hj. simpl.
  rewrite (swrap_id 32 (trunc_Z f)) by (simpl; lia). rewrite swrap_wrap by lia. by rewrite swrap_id by (simpl; lia).
Qed.

Lemma float32_roundtrip :
  pType d = "float32" → decodePointValue p ws = Ok (VFloat64 (f64_of_f32 (f32_of_f64 f))).
Proof.
  intros Ht. destruct (planOf_numeric p Hplan Hvalid) as (Hb & Hc & Hl); [by fold d; rewrite Ht|].
  fold d in Hc, Hl. unfold numericWords in Hws. rewrite Ht in Hws.
  apply rbind_ok in Hws as ([] & _ & Hws'). simpl in Hws'.
  destruct (f32_bits_f32 _ (f32_of_f64_valid f)) as [Hbits Hrange].
  unfold validateRegisterLayout in Hl. rewrite Ht in Hl. simpl in Hl. case_match; [done|]. propify.
  eapply splitWords_join in Hws' as [Hlen Hj]; [|done].
  unfold decodePointValue. fold d. rewrite Hc, Hb, Ht, Hlen.
  replace (pRegisterCount d) with 2 by done.
  cbn [negb Z.of_nat Pos.of_succ_nat Pos.succ Z.eqb Pos.eqb String.eqb Ascii.eqb Bool.eqb].
  rewrite Hj. cbn [rbind]. by rewrite Hbits.
Qed.
End codec.

(** Every planned point of a checked table decodes whenever its whole span was read. *)
Lemma decode_total p ws :
  planOf p → validatePoint (ppDefinition p) = Ok tt →
  Z.of_nat (length ws) = paCount (ppAddress p) → ∃ v, decodePointValue p ws = Ok v.
Proof.
  intros Hp Hv Hlen. unfold decodePointValue. rewrite Hlen, Z.eqb_refl. cbn [negb].
  destruct (paBitIO (ppAddress p)) eqn:Hio; [by eauto|].
  destruct (String.eqb_spec (pType (ppDefinition p)) "bool") as [Ht|Ht].
  { exfalso. unfold planOf, planAddress in Hp. rewrite Ht in Hp. simpl in Hp.
    apply rbind_ok in Hp as (a & _ & Hp). case_match; [done|]. injection Hp as Hp. by rewrite <-Hp in Hio. }
  destruct (planOf_numeric p Hp Hv Ht) as (_ & _ & Hl).
  unfold planOf, planAddress in Hp. rewrite (proj2 (String.eqb_neq _ _) Ht) in Hp.
  unfold validateRegisterLayout in Hl. unfold joinWords.
  destruct (pType (ppDefinition p) =s "int16"); [by eexists|].
  destruct (pType (ppDefinition p) =s "uint16"); [by eexists|].
  destruct (pType (ppDefinition p) =s "int32"), (pType (ppDefinition p) =s "float32");
    simpl in Hp; try discriminate Hp; simpl in Hl; case_match; try discriminate Hl;
    destruct (pWordOrder (ppDefinition p) =s "low-high"); try (by eexists);
    destruct (pWordOrder (ppDefinition p) =s "high-low"); simpl in Hl; try discriminate Hl; by eexists.
Qed.

(** An integer point's decoded value is never equal to a JSON number. *)
Lemma int_decode_not_json p ws v f :
  decodePointValue p ws = Ok v → paBitIO (ppAddress p) = false → pType (ppDefinition p) ≠ "float32" →
  deepEqual v (VFloat64 f) = false.
Proof.
  unfold decodePointValue. intros Hd Hio Ht. rewrite Hio in Hd.
  case_match; [done|]. rewrite (proj2 (String.eqb_neq _ "float32") Ht) in Hd.
  repeat (case_match; try done); simplify_eq; try done.
  apply rbind_ok in Hd as (? & _ & [= <-]). done.
Qed.
