(* ===== verification/Worker.v ===== *)
(** * The PLC worker's operations: [internal/plcworker/worker.go], [execute],
      [readAll] and what they call

    The worker's state is [Worker]; the adapter, the publish callback, the
    clock and the two connection handlers are an instance of [WorkerEnv].
    [readAll] is the scan with its error paths, [execute] the whole command
    handler.  Mutexes do not appear: they make the small state updates atomic,
    and only the worker's goroutine runs these operations. *)

From S2P Require Import Prelude GoValue RuntimeConfig PointStore WorkerPlan WorkerCodec.

(** ** The worker's surroundings *)

(** An error value: its text, and whether it wraps [ErrTransportDisconnected]. *)
Record goerr := mkErr { errText : string; errTransport : bool }.

Class WorkerEnv (E : Type) := {
  envRead : Z → Z → E → result goerr (list Z) * E;
  envMask : Z → Z → bool → E → result goerr unit * E;
  envWriteSingle : Z → Z → E → result goerr unit * E;
  envWriteMultiple : Z → list Z → E → result goerr unit * E;
  envPublish : gmap string PointValue → E → result goerr unit * E;
  envNow : E → Z * E;
  envSleep : Z → E → E;
  envNotifyDisconnected : E → E;
  envNotifyReconnected : E → E
}.

(** ** Data *)

Record Command := mkCommand { cmdPointID : string; cmdAction : string; cmdValue : goval }.

Inductive message : Type :=
| MText (s : string)
| MError (e : goerr)
| MNumeric (e : numeric_error)
| MWriteMethod (m : string).

Record Result := mkResult {
  rSuccess : bool;
  rPointID : string;
  rActualValue : goval;
  rCode : string;
  rMessage : option message
}.

Definition failure (id code : string) (m : message) : Result :=
  mkResult false id VNil code (Some m).

Definition success (id : string) (v : goval) : Result := mkResult true id v "" None.

Record Worker := mkWorker {
  wkPlan : scanPlan;
  wkLast : gmap string PointValue;
  wkDisconnected : bool
}.

Definition setLast (id : string) (item : PointValue) (w : Worker) : Worker :=
  mkWorker (wkPlan w) (<[id := item]> (wkLast w)) (wkDisconnected w).
Definition setDisconnected (b : bool) (w : Worker) : Worker :=
  mkWorker (wkPlan w) (wkLast w) b.

Definition pointsAt (w : Worker) (word : Z) : list pointPlan :=
  default [] (spByWord (wkPlan w) !! word).

(** ** Guards of a command *)

Definition allowsAction (d : PointDefinition) (action : string) : bool :=
  if pAccess d =s "read" then false
  else match pWrite d with
       | None => false
       | Some w =>
           if wMode w =s "set" then action =s "set"
           else if wMode w =s "pulse" then action =s "pulse"
           else if wMode w =s "momentary" then (action =s "press") || (action =s "release")
           else if wMode w =s "toggle" then action =s "toggle"
           else false
       end.

Definition boolValue (v : goval) : bool := default false (as_bool v).

(** [point.definition.Write], which [allowsAction] has found not to be nil. *)
Definition writeOf (d : PointDefinition) : WriteDefinition :=
  default (mkWriteDefinition "" VNil VNil 0) (pWrite d).

Section worker.
Context {E : Type} `{WorkerEnv E}.

(** What a scan builds: the map to publish, and the worker and its surroundings. *)
Record Scan := mkScan {
  scValues : gmap string PointValue;
  scWorker : Worker;
  scEnv : E
}.

Definition putItem (id : string) (item : PointValue) (env : E) (sc : Scan) : Scan :=
  mkScan (<[id := item]> (scValues sc)) (setLast id item (scWorker sc)) env.

(** ** Scanning *)

Definition goodPoint (index : nat) (registers : list Z) (sc : Scan) (point : pointPlan) : Scan :=
  let count := Z.to_nat (paCount (ppAddress point)) in
  if (length registers <? index + count)%nat then sc
  else match decodePointValue point (take count (drop index registers)) with
       | Err _ => sc
       | Ok value =>
           let '(t, env) := envNow (scEnv sc) in
           let alarm := match pAlarm (ppDefinition point) with
                        | Some a => Some (deepEqual value (aAlarmValue a))
                        | None => None
                        end in
           putItem (pPointID (ppDefinition point)) (mkPointValue value "good" t alarm) env sc
       end.

Fixpoint goodWords (index : nat) (words registers : list Z) (sc : Scan) : Scan :=
  match words with
  | [] => sc
  | word :: rest =>
      goodWords (S index) rest registers
        (foldl (goodPoint index registers) sc (pointsAt (scWorker sc) word))
  end.

Definition goodValues (batch : readBatch) (registers : list Z) (sc : Scan) : Scan :=
  goodWords 0 (rbWords batch) registers sc.

Definition failurePoint (quality : string) (sc : Scan) (point : pointPlan) : Scan :=
  let id := pPointID (ppDefinition point) in
  let item := default emptyPointValue (wkLast (scWorker sc) !! id) in
  let '(t, env) := envNow (scEnv sc) in
  putItem id (mkPointValue (pvValue item) quality t (pvAlarmActive item)) env sc.

Definition failureValues (batch : readBatch) (sc : Scan) : Scan :=
  let quality := if wkDisconnected (scWorker sc) then "stale"%string else "error"%string in
  foldl (fun sc word => foldl (failurePoint quality) sc (pointsAt (scWorker sc) word))
    sc (rbWords batch).

Definition stalePoint (now : Z) (sc : Scan) (id : string) : Scan :=
  let item := default emptyPointValue (wkLast (scWorker sc) !! id) in
  putItem id (mkPointValue (pvValue item) "stale" now (pvAlarmActive item)) (scEnv sc) sc.

(** One item per readable point; the map is keyed by point, so the order of
    Go's [range] does not matter. *)
Definition staleValuesLocked (w : Worker) (env : E) : Scan :=
  let '(now, env') := envNow env in
  foldl (stalePoint now) (mkScan ∅ w env') (elements (spReadable (wkPlan w))).

Definition markDisconnected (w : Worker) : bool * Worker :=
  if wkDisconnected w then (false, w) else (true, setDisconnected true w).

Definition markConnected (w : Worker) : bool * Worker :=
  if wkDisconnected w then (true, setDisconnected false w) else (false, w).

Definition incompleteResponse : goerr := mkErr "PLC returned an incomplete FC03 response" false.

Definition firstError (readErr : option goerr) (err : goerr) : option goerr :=
  match readErr with Some e => Some e | None => Some err end.

(** The outcome of the batch loop. *)
Record ScanOutcome := mkOutcome {
  soScan : Scan;
  soError : option goerr;
  soConfirmed : bool
}.

(** A batch that failed; the flag says that the loop ends here. *)
Definition failBatch (batch : readBatch) (err : goerr) (env : E) (o : ScanOutcome)
    : bool * ScanOutcome :=
  let sc := soScan o in
  let readErr := firstError (soError o) err in
  if errTransport err then
    let '(newly, w) := markDisconnected (scWorker sc) in
    (true, mkOutcome (failureValues batch (mkScan (scValues sc) w env)) readErr
             (soConfirmed o || newly))
  else
    (false, mkOutcome (failureValues batch (mkScan (scValues sc) (scWorker sc) env)) readErr
              (soConfirmed o)).

Fixpoint scanBatches (batches : list readBatch) (o : ScanOutcome) : ScanOutcome :=
  match batches with
  | [] => o
  | batch :: rest =>
      let sc := soScan o in
      let '(r, env) := envRead (rbStart batch) (u16 (Z.of_nat (length (rbWords batch)))) (scEnv sc) in
      let failed (err : goerr) :=
        let '(stop, o') := failBatch batch err env o in
        if stop then o' else scanBatches rest o' in
      match r with
      | Err err => failed err
      | Ok registers =>
          if negb (length registers =? length (rbWords batch))%nat then failed incompleteResponse
          else scanBatches rest
                 (mkOutcome (goodValues batch registers (mkScan (scValues sc) (scWorker sc) env))
                    (soError o) (soConfirmed o))
      end
  end.

Definition readAll (s : Worker * E) : gmap string PointValue * option goerr * (Worker * E) :=
  let o := scanBatches (spBatches (wkPlan s.1)) (mkOutcome (mkScan ∅ s.1 s.2) None false) in
  let sc := soScan o in
  let '(recovered, sc) :=
    match soError o with
    | None => let '(recovered, w) := markConnected (scWorker sc) in
              (recovered, mkScan (scValues sc) w (scEnv sc))
    | Some _ => if wkDisconnected (scWorker sc)
                then (false, staleValuesLocked (scWorker sc) (scEnv sc))
                else (false, sc)
    end in
  let '(published, env) := envPublish (scValues sc) (scEnv sc) in
  let readErr := match published, soError o with
                 | Err e, None => Some e
                 | _, readErr => readErr
                 end in
  let env := if soConfirmed o then envNotifyDisconnected env else env in
  let env := if recovered : bool then envNotifyReconnected env else env in
  (scValues sc, readErr, (scWorker sc, env)).

(** [ConfirmDisconnected]. *)
Definition ConfirmDisconnected (s : Worker * E) : result goerr unit * (Worker * E) :=
  if wkDisconnected s.1 then (Ok tt, s)
  else
    let sc := staleValuesLocked (setDisconnected true s.1) s.2 in
    let '(r, env) := envPublish (scValues sc) (scEnv sc) in
    match r with
    | Err e => (Err e, (scWorker sc, env))
    | Ok _ => (Ok tt, (scWorker sc, envNotifyDisconnected env))
    end.

(** ** Writing *)

Definition writeBit (a : pointAddress) (value : bool) (s : Worker * E)
    : result goerr unit * (Worker * E) :=
  let '(r, env) := envMask (paWord a) (paBit a) value s.2 in (r, (s.1, env)).

(** The flag says whether the adapter was called. *)
Definition writeRegisters (point : pointPlan) (value : goval) (s : Worker * E)
    : bool * option message * (Worker * E) :=
  let d := ppDefinition point in
  let ofCall (c : result goerr unit * E) :=
    (true, match c.1 with Ok _ => None | Err e => Some (MError e) end, (s.1, c.2)) in
  match numericWords d value with
  | Err e => (false, Some (MNumeric e), s)
  | Ok words =>
      if pWriteMethod d =s "fc06" then
        ofCall (envWriteSingle (paWord (ppAddress point)) (wordAt words 0) s.2)
      else if pWriteMethod d =s "fc10" then
        ofCall (envWriteMultiple (paWord (ppAddress point)) words s.2)
      else (false, Some (MWriteMethod (pWriteMethod d)), s)
  end.

(** ** Commands *)

(** [readPoint] is [None] when the point has no read point. *)
Definition confirmCommand (id : string) (readPoint : option pointPlan) (s : Worker * E)
    : Result * (Worker * E) :=
  let '(values, err, s') := readAll s in
  match err with
  | Some e => (failure id "PLC_READ_FAILED" (MError e), s')
  | None =>
      match readPoint with
      | None => (success id VNil, s')
      | Some rp =>
          match values !! pPointID (ppDefinition rp) with
          | None => (failure id "PLC_READ_FAILED"
                       (MText "configured readPoint was not returned by PLC"), s')
          | Some actual => (success id (pvValue actual), s')
          end
      end
  end.

Definition invalid (id text : string) (s : Worker * E) : Result * (Worker * E) :=
  (failure id "INVALID_REQUEST" (MText text), s).

(** A bit write, then what follows when it succeeded. *)
Definition writeThen (id : string) (a : pointAddress) (value : bool) (s : Worker * E)
    (k : Worker * E → Result * (Worker * E)) : Result * (Worker * E) :=
  match writeBit a value s with
  | (Err e, s') => (failure id "PLC_WRITE_FAILED" (MError e), s')
  | (Ok _, s') => k s'
  end.

Definition executeNumeric (command : Command) (writePoint : pointPlan)
    (readPoint : option pointPlan) (s : Worker * E) : Result * (Worker * E) :=
  let id := cmdPointID command in
  if cmdAction command <>s "set" then invalid id "numeric points only support set" s
  else
    let '(attempted, err, s') := writeRegisters writePoint (cmdValue command) s in
    match err with
    | Some m => (failure id (if attempted then "PLC_WRITE_FAILED" else "INVALID_REQUEST") m, s')
    | None => confirmCommand id readPoint s'
    end.

Definition executeToggle (id : string) (d : PointDefinition) (writePoint : pointPlan)
    (readPoint : option pointPlan) (s : Worker * E) : Result * (Worker * E) :=
  match readPoint with
  | None => invalid id "toggle requires a readable point" s
  | Some rp =>
      let '(values, err, s') := readAll s in
      match err with
      | Some e => (failure id "PLC_READ_FAILED" (MError e), s')
      | None =>
          match values !! pPointID (ppDefinition rp) with
          | None => (failure id "PLC_READ_FAILED"
                       (MText "configured readPoint was not returned by PLC"), s')
          | Some currentValue =>
              let current := pvValue currentValue in
              let active := wActiveValue (writeOf d) in
              let defaultValue := wDefaultValue (writeOf d) in
              let write target :=
                writeThen id (ppAddress writePoint) target s' (confirmCommand id readPoint) in
              if deepEqual current active then write (boolValue defaultValue)
              else if deepEqual current defaultValue then write (boolValue active)
              else (failure id "POINT_STATE_UNEXPECTED"
                      (MText "PLC feedback is neither activeValue nor defaultValue"), s')
          end
      end
  end.

Definition executeBool (command : Command) (d : PointDefinition) (writePoint : pointPlan)
    (readPoint : option pointPlan) (s : Worker * E) : Result * (Worker * E) :=
  let id := cmdPointID command in
  let a := ppAddress writePoint in
  let write v k := writeThen id a v s k in
  let confirm := confirmCommand id readPoint in
  if cmdAction command =s "set" then
    match as_bool (cmdValue command) with
    | None => invalid id "Easy521 bit set requires a boolean value" s
    | Some value => write value confirm
    end
  else if cmdAction command =s "pulse" then
    match as_bool (wActiveValue (writeOf d)) with
    | None => invalid id "pulse activeValue must be boolean" s
    | Some active =>
        write active (fun s1 =>
          let s2 := (s1.1, envSleep (i64 (wPulseMs (writeOf d) * millisecond)) s1.2) in
          match as_bool (wDefaultValue (writeOf d)) with
          | None => invalid id "pulse defaultValue must be boolean" s2
          | Some defaultValue => writeThen id a defaultValue s2 confirm
          end)
    end
  else if cmdAction command =s "press" then
    match as_bool (wActiveValue (writeOf d)) with
    | None => invalid id "press activeValue must be boolean" s
    | Some active => write active confirm
    end
  else if cmdAction command =s "release" then
    match as_bool (wDefaultValue (writeOf d)) with
    | None => invalid id "release defaultValue must be boolean" s
    | Some defaultValue => write defaultValue confirm
    end
  else if cmdAction command =s "toggle" then executeToggle id d writePoint readPoint s
  else invalid id "unsupported point action" s.

Definition execute (command : Command) (s : Worker * E) : Result * (Worker * E) :=
  let id := cmdPointID command in
  let points := spPoints (wkPlan s.1) in
  match points !! id with
  | None => (failure id "POINT_NOT_FOUND" (MText "point is not configured"), s)
  | Some point =>
      let d := ppDefinition point in
      if negb (allowsAction d (cmdAction command))
      then (failure id "POINT_NOT_WRITABLE" (MText "point does not allow this action"), s)
      else match points !! pWritePoint d with
           | None => invalid id "configured writePoint is unavailable" s
           | Some writePoint =>
               let continue (readPoint : option pointPlan) :=
                 if pType d <>s "bool" then executeNumeric command writePoint readPoint s
                 else executeBool command d writePoint readPoint s in
               if pReadPoint d <>s "" then
                 match points !! pReadPoint d with
                 | None => invalid id "configured readPoint is unavailable" s
                 | Some readPoint => continue (Some readPoint)
                 end
               else continue None
           end
  end.

(** The part of [handleCommand] before the timer and the reply. *)
Definition executeCommand (command : Command) (s : Worker * E) : Result * (Worker * E) :=
  let '(result, s') := execute command s in
  if rCode result =s "PLC_WRITE_FAILED" then (result, (readAll s').2) else (result, s').

Definition pollInterval (w : Worker) : Z :=
  if wkDisconnected w then 10 * second else RequiredScanIntervalMs * millisecond.
End worker.

(** ** A new worker *)

Inductive new_error : Type :=
| NWConfig (e : config_error)
| NWPlan (e : plan_error).

(** [New], given an adapter and a publish callback. *)
Definition NewWorker (range : gmap string pointPlan → list pointPlan) (config : Config)
    : result new_error Worker :=
  let? normalized := wrapErr NWConfig (Normalize config) in
  let? plan := wrapErr NWPlan (buildPlan range normalized) in
  Ok (mkWorker plan ∅ false).

(** ** What a scan leaves alone *)

Section keeps.
Context {E : Type} `{WorkerEnv E} {B : Type} (g : Scan (E := E) → B).

Lemma foldl_keeps {A} (f : Scan → A → Scan) l sc :
  (∀ sc x, g (f sc x) = g sc) → g (foldl f sc l) = g sc.
Proof. intros Hf. revert sc. induction l as [|x l IH]; intros sc; simpl; [done|]. by rewrite IH, Hf. Qed.

(** [g] does not look at what [putItem] writes, nor at the clock. *)
Hypothesis (Hput : ∀ id item sc, g (putItem id item (envNow (scEnv sc)).2 sc) = g sc).

Lemma goodPoint_keeps i ws sc p : g (goodPoint i ws sc p) = g sc.
Proof.
  unfold goodPoint. case_match; [done|]. case_match; [|done].
  pose proof (Hput) as Hp. specialize (Hp (pPointID (ppDefinition p))).
  destruct (envNow (scEnv sc)) as [t env] eqn:Ht. specialize (Hp
    (mkPointValue a "good" t
      match pAlarm (ppDefinition p) with Some al => Some (deepEqual a (aAlarmValue al)) | None => None end) sc).
  by rewrite Ht in Hp.
Qed.

Lemma failurePoint_keeps q sc p : g (failurePoint q sc p) = g sc.
Proof.
  unfold failurePoint.
  destruct (envNow (scEnv sc)) as [t env] eqn:Ht. rewrite <-(Hput (pPointID (ppDefinition p))
    (mkPointValue (pvValue (default emptyPointValue (wkLast (scWorker sc) !! pPointID (ppDefinition p)))) q t
      (pvAlarmActive (default emptyPointValue (wkLast (scWorker sc) !! pPointID (ppDefinition p))))) sc).
  by rewrite Ht.
Qed.

Lemma goodValues_keeps b ws sc : g (goodValues b ws sc) = g sc.
Proof.
  unfold goodValues. generalize 0%nat. revert sc.
  induction (rbWords b) as [|w words IH]; intros sc i; simpl; [done|].
  rewrite IH. apply foldl_keeps. intros. apply goodPoint_keeps.
Qed.

Lemma failureValues_keeps b sc : g (failureValues b sc) = g sc.
Proof. unfold failureValues. apply foldl_keeps. intros. apply foldl_keeps, failurePoint_keeps. Qed.
End keeps.

(** ** What a scan publishes *)

(** Registers are 16-bit words, and the wall clock is never Go's zero time. *)
Class WorkerEnvLaws (E : Type) `{WorkerEnv E} : Prop := {
  envRead_range a q s ws s' : envRead a q s = (Ok ws, s') → Forall (in_range 16) ws;
  envNow_nonzero s t s' : envNow s = (t, s') → isZero t = false
}.

Section scan_proofs.
Context {E : Type} `{HL : WorkerEnvLaws E} (plan : scanPlan).
Implicit Types (sc : Scan (E := E)) (v : PointValue) (p : pointPlan).

(** A value the worker can hold for a point: none yet, or one it decoded. *)
Definition known (id : string) (x : goval) : Prop :=
  x = VNil ∨ ∃ p ws, spPoints plan !! id = Some p ∧ planReadable p ∧
                     Forall (in_range 16) ws ∧ decodePointValue p ws = Ok x.

(** A published item of quality [q]. *)
Record item_ok (q id : string) v : Prop := {
  it_readable : id ∈ spReadable plan;
  it_quality : pvQuality v = q;
  it_known : known id (pvValue v);
  it_good : q = "good" → pvValue v ≠ VNil;
  it_time : isZero (pvUpdatedAt v) = false
}.

Record scan_inv sc : Prop := {
  si_plan : wkPlan (scWorker sc) = plan;
  si_known : ∀ id v, wkLast (scWorker sc) !! id = Some v → known id (pvValue v);
  si_last : scValues sc ⊆ wkLast (scWorker sc)
}.

(** One step of a scan adds items that satisfy [Q] and loses none. *)
Record grows (Q : string → PointValue → Prop) sc sc' : Prop := {
  gr_inv : scan_inv sc';
  gr_disc : wkDisconnected (scWorker sc') = wkDisconnected (scWorker sc);
  gr_new : ∀ id v, scValues sc' !! id = Some v → scValues sc !! id = Some v ∨ Q id v;
  gr_keep : ∀ id, is_Some (scValues sc !! id) → is_Some (scValues sc' !! id)
}.

Lemma grows_refl Q sc : scan_inv sc → grows Q sc sc.
Proof. split; auto. Qed.

Lemma grows_trans Q sc1 sc2 sc3 : grows Q sc1 sc2 → grows Q sc2 sc3 → grows Q sc1 sc3.
Proof.
  intros [? Hd1 Hn1 Hk1] [? Hd2 Hn2 Hk2]. split; [done|congruence| |auto].
  intros id v Hv. destruct (Hn2 id v Hv) as [?|?]; auto.
Qed.

Lemma grows_mono (Q Q' : string → PointValue → Prop) sc sc' :
  (∀ id v, Q id v → Q' id v) → grows Q sc sc' → grows Q' sc sc'.
Proof. intros HQ [? ? Hn ?]. split; auto. intros id v Hv. destruct (Hn id v Hv); auto. Qed.

Lemma grows_foldl {A} (f : Scan → A → Scan) Q l sc :
  (∀ sc x, x ∈ l → scan_inv sc → grows Q sc (f sc x)) →
  scan_inv sc → grows Q sc (foldl f sc l).
Proof.
  revert sc. induction l as [|x l IH]; intros sc Hf Hi; simpl; [by apply grows_refl|].
  assert (grows Q sc (f sc x)) as Hg by (apply Hf; [left|done]).
  eapply grows_trans; [exact Hg|]. apply IH; [|apply Hg].
  intros sc' y Hy. apply Hf. by right.
Qed.

(** An element of the list that sets [id] leaves it set at the end. *)
Lemma foldl_reaches {A} (f : Scan → A → Scan) Q l sc x id :
  (∀ sc x, x ∈ l → scan_inv sc → grows Q sc (f sc x)) →
  (∀ sc, scan_inv sc → is_Some (scValues (f sc x) !! id)) →
  scan_inv sc → x ∈ l → is_Some (scValues (foldl f sc l) !! id).
Proof.
  revert sc. induction l as [|y l IH]; intros sc Hf Hx Hi Hin; [by apply elem_of_nil in Hin|].
  simpl. assert (grows Q sc (f sc y)) as Hg by (apply Hf; [left|done]).
  assert (∀ sc z, z ∈ l → scan_inv sc → grows Q sc (f sc z)) as Hf'
    by (intros sc' z Hz; apply Hf; by right).
  apply elem_of_cons in Hin as [->|Hin].
  - eapply gr_keep; [apply grows_foldl; [exact Hf'|apply Hg]|]. by apply Hx.
  - apply IH; try done. apply Hg.
Qed.

Lemma putItem_grows q id v env sc :
  scan_inv sc → item_ok q id v → grows (item_ok q) sc (putItem id v env sc).
Proof.
  intros [Hp Hk Hl] Hv. split; [split|..]; simpl; try done.
  - intros id' v'. rewrite lookup_insert. case_decide; [|apply Hk].
    intros [= <-]. subst. apply Hv.
  - by apply insert_mono.
  - intros id' v'. rewrite lookup_insert. case_decide; [|auto]. intros [= <-]. subst. auto.
  - intros id' ?. rewrite lookup_insert. case_decide; eauto.
Qed.

Lemma last_known id sc :
  scan_inv sc → known id (pvValue (default emptyPointValue (wkLast (scWorker sc) !! id))).
Proof.
  intros [_ Hk _]. destruct (wkLast (scWorker sc) !! id) as [v|] eqn:E0; simpl; [by eapply Hk|by left].
Qed.

Lemma decode_not_nil p ws : decodePointValue p ws ≠ Ok VNil.
Proof.
  unfold decodePointValue. repeat case_match; try done; unfold rbind, joinWords;
    repeat case_match; congruence.
Qed.

Hypothesis (Hplan : plan_ok plan).

Lemma readable_id p : spPoints plan !! planID p = Some p → planReadable p → planID p ∈ spReadable plan.
Proof. intros ? ?. apply (pl_readable _ Hplan). eauto. Qed.

Lemma goodPoint_grows index registers p sc :
  Forall (in_range 16) registers → spPoints plan !! planID p = Some p → planReadable p →
  scan_inv sc → grows (item_ok "good") sc (goodPoint index registers sc p).
Proof.
  intros Hr Hp Hre Hi. unfold goodPoint. case_match; [by apply grows_refl|].
  case_match eqn:Hd; [|by apply grows_refl].
  destruct (envNow (scEnv sc)) as [t env] eqn:Ht. apply putItem_grows; [done|].
  split; simpl; [by apply readable_id|done| | |by eapply envNow_nonzero].
  - right. exists p, (take (Z.to_nat (paCount (ppAddress p))) (drop index registers)).
    repeat split; try done. by apply Forall_take, Forall_drop.
  - intros _ ->. by eapply decode_not_nil.
Qed.

Lemma failurePoint_grows q p sc :
  q ≠ "good" → spPoints plan !! planID p = Some p → planReadable p →
  scan_inv sc → grows (item_ok q) sc (failurePoint q sc p).
Proof.
  intros Hq Hp Hre Hi. unfold failurePoint. destruct (envNow (scEnv sc)) as [t env] eqn:Ht.
  apply putItem_grows; [done|].
  split; simpl; [by apply readable_id|done|by apply last_known|done|by eapply envNow_nonzero].
Qed.

Lemma failurePoint_sets q p sc : is_Some (scValues (failurePoint q sc p) !! planID p).
Proof. unfold failurePoint. destruct (envNow (scEnv sc)). simpl. rewrite lookup_insert_eq. eauto. Qed.

Lemma pointsAt_in w p sc :
  scan_inv sc → p ∈ pointsAt (scWorker sc) w ↔
    spPoints plan !! planID p = Some p ∧ planReadable p ∧ paWord (ppAddress p) = w.
Proof. intros [Hp _ _]. unfold pointsAt. rewrite Hp. apply (pl_byWord _ Hplan). Qed.

Definition failWord (q : string) sc (w : Z) : Scan :=
  foldl (failurePoint q) sc (pointsAt (scWorker sc) w).

Lemma failWord_grows q w sc :
  q ≠ "good" → scan_inv sc → grows (item_ok q) sc (failWord q sc w).
Proof.
  intros Hq Hi. apply grows_foldl; [|done]. intros sc' p Hp Hi'.
  apply pointsAt_in in Hp as (? & ? & _); [|done]. by apply failurePoint_grows.
Qed.

Definition failQuality sc : string := if wkDisconnected (scWorker sc) then "stale" else "error".

Lemma failQuality_bad sc : failQuality sc ≠ "good".
Proof. unfold failQuality. by case_match. Qed.

Lemma failureValues_grows b sc :
  scan_inv sc → grows (item_ok (failQuality sc)) sc (failureValues b sc).
Proof.
  intros Hi. apply grows_foldl; [|done]. intros sc' w _ Hi'.
  apply failWord_grows; [apply failQuality_bad|done].
Qed.

Lemma failureValues_reaches b p sc :
  scan_inv sc → spPoints plan !! planID p = Some p → planReadable p →
  paWord (ppAddress p) ∈ rbWords b → is_Some (scValues (failureValues b sc) !! planID p).
Proof.
  intros Hi Hp Hr Hw.
  apply (foldl_reaches (failWord (failQuality sc)) (item_ok (failQuality sc)) _ _ (paWord (ppAddress p)));
    [|intros sc' Hi'|done|done].
  - intros sc' w _ ?. apply failWord_grows; [apply failQuality_bad|done].
  - apply (foldl_reaches _ (item_ok (failQuality sc)) _ _ p); [|intros sc'' _; apply failurePoint_sets|done|].
    + intros sc'' p' Hp' Hi''. apply pointsAt_in in Hp' as (? & ? & _); [|done].
      apply failurePoint_grows; try done. apply failQuality_bad.
    + by apply pointsAt_in.
Qed.

Lemma goodWord_grows index registers w sc :
  Forall (in_range 16) registers → scan_inv sc →
  grows (item_ok "good") sc (foldl (goodPoint index registers) sc (pointsAt (scWorker sc) w)).
Proof.
  intros Hr Hi. apply grows_foldl; [|done]. intros sc' p Hp Hi'.
  apply pointsAt_in in Hp as (? & ? & _); [|done]. by apply goodPoint_grows.
Qed.

Lemma goodWords_grows index words registers sc :
  Forall (in_range 16) registers → scan_inv sc →
  grows (item_ok "good") sc (goodWords index words registers sc).
Proof.
  intros Hr. revert index sc. induction words as [|w words IH]; intros index sc Hi;
    [by apply grows_refl|]. simpl.
  eapply grows_trans; [by apply goodWord_grows|]. apply IH. by apply goodWord_grows.
Qed.

Lemma goodPoint_sets index registers p sc :
  Forall (in_range 16) registers → spPoints plan !! planID p = Some p →
  (index + Z.to_nat (paCount (ppAddress p)) ≤ length registers)%nat →
  is_Some (scValues (goodPoint index registers sc p) !! planID p).
Proof.
  intros Hr Hp Hlen. unfold goodPoint. rewrite (proj2 (Nat.ltb_ge _ _)) by done.
  destruct (pl_point _ Hplan _ _ Hp) as (_ & Hpo & Hv & Ha). pose proof Ha as [].
  destruct (decode_total p (take (Z.to_nat (paCount (ppAddress p))) (drop index registers)) Hpo Hv)
    as [x ->].
  { rewrite length_take, length_drop. lia. }
  destruct (envNow (scEnv sc)). simpl. rewrite lookup_insert_eq. eauto.
Qed.

Lemma goodWords_reaches index words registers p i sc :
  Forall (in_range 16) registers → scan_inv sc →
  spPoints plan !! planID p = Some p → planReadable p → words !! i = Some (paWord (ppAddress p)) →
  (index + i + Z.to_nat (paCount (ppAddress p)) ≤ length registers)%nat →
  is_Some (scValues (goodWords index words registers sc) !! planID p).
Proof.
  intros Hr Hi Hp Hre. revert index i sc Hi.
  induction words as [|w words IH]; intros index i sc Hi Hw Hlen; [done|]. simpl.
  pose proof (goodWord_grows index registers w sc Hr Hi) as Hg. destruct i as [|i]; simpl in Hw.
  - injection Hw as ->. eapply gr_keep; [apply goodWords_grows; [done|apply Hg]|].
    apply (foldl_reaches _ (item_ok "good") _ _ p); [| |done|].
    + intros sc' p' Hp' Hi'. apply pointsAt_in in Hp' as (? & ? & _); [|done]. by apply goodPoint_grows.
    + intros sc' _. apply goodPoint_sets; [done|done|lia].
    + by apply pointsAt_in.
  - eapply (IH (S index) i); [apply Hg|done|lia].
Qed.

(** A covered point's word is at its offset in the batch. *)
Lemma covers_lookup b p :
  batch_ok b → covers b (ppAddress p) → address_ok (ppAddress p) →
  ∃ i, rbWords b !! i = Some (paWord (ppAddress p)) ∧
       (i + Z.to_nat (paCount (ppAddress p)) ≤ length (rbWords b))%nat.
Proof.
  intros (n & Hn & ? & ? & Hw) [Hs He] []. rewrite Hw, length_seqZ in *.
  exists (Z.to_nat (paWord (ppAddress p) - rbStart b)). split; [|lia].
  rewrite lookup_seqZ. lia.
Qed.

Lemma goodValues_reaches b registers p sc :
  Forall (in_range 16) registers → length registers = length (rbWords b) → scan_inv sc →
  spPoints plan !! planID p = Some p → planReadable p →
  batch_ok b → covers b (ppAddress p) →
  is_Some (scValues (goodValues b registers sc) !! planID p).
Proof.
  intros Hr Hlen Hi Hp Hre Hb Hc. destruct (pl_point _ Hplan _ _ Hp) as (_ & _ & _ & Ha).
  destruct (covers_lookup b p Hb Hc Ha) as (i & Hw & Hcount).
  eapply goodWords_reaches; [done..|]. rewrite Hlen. lia.
Qed.

(** ** The batch loop *)

Implicit Types o : ScanOutcome (E := E).

(** The items a scan can have published so far, by how it stands. *)
Definition scanned o (id : string) v : Prop :=
  item_ok "good" id v ∨
  (soError o ≠ None ∧ ∃ q, q ≠ "good" ∧ (q = "stale" ∨ q = "error") ∧
   (wkDisconnected (scWorker (soScan o)) = false → q = "error") ∧ item_ok q id v).

Record loop_inv (d0 : bool) o : Prop := {
  li_inv : scan_inv (soScan o);
  li_values : ∀ id v, scValues (soScan o) !! id = Some v → scanned o id v;
  li_disc : wkDisconnected (scWorker (soScan o)) = d0 || soConfirmed o;
  li_confirmed : soConfirmed o = true → d0 = false ∧ ∃ e, soError o = Some e
}.

Lemma scanned_mono o o' id v :
  (soError o ≠ None → soError o' ≠ None) →
  wkDisconnected (scWorker (soScan o')) = wkDisconnected (scWorker (soScan o)) →
  scanned o id v → scanned o' id v.
Proof.
  intros He Hd [?|(? & q & ? & ? & Hq & ?)]; [by left|right]. split; [auto|].
  exists q. rewrite Hd. auto.
Qed.

(** One batch that succeeded or failed without losing the connection. *)
Lemma loop_inv_good d0 o b ws env :
  loop_inv d0 o → Forall (in_range 16) ws →
  let sc := mkScan (scValues (soScan o)) (scWorker (soScan o)) env in
  grows (item_ok "good") (soScan o) (goodValues b ws sc) ∧
  loop_inv d0 (mkOutcome (goodValues b ws sc) (soError o) (soConfirmed o)).
Proof.
  intros [Hi Hv Hd Hc] Hws sc. assert (scan_inv sc) as Hi' by (destruct Hi; by split).
  pose proof (goodWords_grows 0 (rbWords b) ws sc Hws Hi') as Hg.
  assert (grows (item_ok "good") (soScan o) (goodValues b ws sc)) as Hg'
    by (destruct Hg; by split).
  split; [done|]. split; simpl; [apply Hg|..|done].
  - intros id v [Hold|Hnew]%(gr_new _ _ _ Hg'); [|by left].
    eapply scanned_mono; [| |by apply Hv]; simpl; [done|]. apply Hg'.
  - rewrite (gr_disc _ _ _ Hg'). done.
Qed.

Lemma loop_inv_fail d0 o b err env :
  loop_inv d0 o →
  let sc := mkScan (scValues (soScan o)) (scWorker (soScan o)) env in
  grows (item_ok (failQuality sc)) (soScan o) (failureValues b sc) ∧
  loop_inv d0 (mkOutcome (failureValues b sc) (firstError (soError o) err) (soConfirmed o)).
Proof.
  intros [Hi Hv Hd Hc] sc. assert (scan_inv sc) as Hi' by (destruct Hi; by split).
  pose proof (failureValues_grows b sc Hi') as Hg.
  assert (grows (item_ok (failQuality sc)) (soScan o) (failureValues b sc)) as Hg'
    by (destruct Hg; by split).
  assert (firstError (soError o) err ≠ None) as Hne by (unfold firstError; by case_match).
  split; [done|]. split; simpl; [apply Hg|..].
  - intros id v [Hold|Hnew]%(gr_new _ _ _ Hg').
    + eapply scanned_mono; [| |by apply Hv]; simpl; [done|]. apply Hg'.
    + right. split; [done|]. exists (failQuality sc). simpl. rewrite (gr_disc _ _ _ Hg').
      split_and!; [apply failQuality_bad|unfold failQuality; case_match; auto| |done].
      intros Hf. unfold failQuality. simpl. by rewrite Hf.
  - rewrite (gr_disc _ _ _ Hg'). done.
  - intros Hcf. destruct (Hc Hcf) as (? & e & ->). eauto.
Qed.

(** The transport is lost: the loop ends here. *)
Lemma loop_inv_lost d0 o b err env :
  loop_inv d0 o →
  let '(newly, w) := markDisconnected (scWorker (soScan o)) in
  let sc := mkScan (scValues (soScan o)) w env in
  loop_inv d0 (mkOutcome (failureValues b sc) (firstError (soError o) err) (soConfirmed o || newly)) ∧
  wkDisconnected (scWorker (failureValues b sc)) = true.
Proof.
  intros [Hi Hv Hd Hc]. destruct (markDisconnected (scWorker (soScan o))) as [newly w] eqn:Hm.
  assert (wkDisconnected w = true ∧ newly = negb (wkDisconnected (scWorker (soScan o))) ∧
          wkPlan w = wkPlan (scWorker (soScan o)) ∧ wkLast w = wkLast (scWorker (soScan o)))
    as (Hw & Hn & Hpl & Hla).
  { unfold markDisconnected in Hm. destruct (wkDisconnected (scWorker (soScan o))) eqn:E0;
      by injection Hm as <- <-. }
  intros sc. assert (scan_inv sc) as Hi'.
  { destruct Hi. split; simpl; rewrite ?Hpl, ?Hla; done. }
  pose proof (failureValues_grows b sc Hi') as [Hgi Hgd Hgn Hgk]. simpl in Hgd. rewrite Hw in Hgd.
  assert (firstError (soError o) err ≠ None) as Hne by (unfold firstError; by case_match).
  split; [split; simpl|]; [done| | | |done].
  - intros id v [Hold|Hnew]%Hgn.
    + destruct (Hv id v Hold) as [?|(? & q & ? & ? & _ & ?)]; [by left|right].
      split; [done|]. exists q. simpl. rewrite Hgd. split_and!; done.
    + right. split; [done|]. exists (failQuality sc). simpl. rewrite Hgd.
      split_and!; [apply failQuality_bad|unfold failQuality; case_match; auto|done|done].
  - rewrite Hgd, Hn, Hd. by destruct d0, (soConfirmed o).
  - intros Hor. rewrite Hd in Hn. split; [|unfold firstError; case_match; eauto].
    apply orb_true_iff in Hor as [Hor|Hor]; [by apply Hc|].
    rewrite Hor in Hn. by destruct d0.
Qed.

Definition all_seen (seen : list readBatch) o : Prop :=
  ∀ b p, b ∈ seen → spPoints plan !! planID p = Some p → planReadable p →
    batch_ok b → covers b (ppAddress p) → is_Some (scValues (soScan o) !! planID p).

Lemma all_seen_snoc seen b o o' :
  all_seen seen o → (∀ id, is_Some (scValues (soScan o) !! id) → is_Some (scValues (soScan o') !! id)) →
  (∀ p, spPoints plan !! planID p = Some p → planReadable p → batch_ok b →
     covers b (ppAddress p) → is_Some (scValues (soScan o') !! planID p)) →
  all_seen (seen ++ [b]) o'.
Proof.
  intros Hs Hk Hb b0 p [Hin| ->%list_elem_of_singleton]%elem_of_app Hp Hr Hok Hcov; [|auto].
  apply Hk. by eapply Hs.
Qed.

Lemma failBatch_ok d0 seen b err env o stop o' :
  loop_inv d0 o → all_seen seen o → failBatch b err env o = (stop, o') →
  loop_inv d0 o' ∧
  if stop then (∃ e, soError o' = Some e) ∧ wkDisconnected (scWorker (soScan o')) = true
  else all_seen (seen ++ [b]) o'.
Proof.
  intros Hinv Hseen. unfold failBatch. destruct (errTransport err).
  - pose proof (loop_inv_lost d0 o b err env Hinv) as Hl.
    destruct (markDisconnected (scWorker (soScan o))) as [newly w]. intros [= <- <-].
    destruct Hl as [Hl Hd]. split_and!; [exact Hl| |done].
    simpl. unfold firstError. case_match; eauto.
  - intros [= <- <-]. destruct (loop_inv_fail d0 o b err env Hinv) as [Hg Hl]. split; [exact Hl|].
    eapply all_seen_snoc; [exact Hseen|apply Hg|].
    intros p Hp Hr Hok Hcov. simpl. eapply failureValues_reaches; [|done..|].
    + destruct Hinv as [[] _ _ _]. by split.
    + destruct (pl_point _ Hplan _ _ Hp) as (_ & _ & _ & Ha).
      destruct (covers_lookup b p Hok Hcov Ha) as (i & Hi & _). by eapply list_elem_of_lookup_2.
Qed.

(** The loop ends at a lost connection, or has been through every batch. *)
Lemma scanBatches_ok d0 batches seen o :
  loop_inv d0 o → all_seen seen o →
  let o' := scanBatches batches o in
  loop_inv d0 o' ∧
  (((∃ e, soError o' = Some e) ∧ wkDisconnected (scWorker (soScan o')) = true) ∨
   all_seen (seen ++ batches) o').
Proof.
  revert seen o. induction batches as [|b rest IH]; intros seen o Hinv Hseen; simpl;
    [rewrite app_nil_r; auto|].
  destruct (envRead _ _ _) as [r env] eqn:Hread. set (sc := mkScan _ _ env).
  replace (seen ++ b :: rest) with ((seen ++ [b]) ++ rest) by (by rewrite <-app_assoc).
  assert (∀ err,
    let o' := (let '(stop, o') := failBatch b err env o in
               if stop then o' else scanBatches rest o') in
    loop_inv d0 o' ∧
    (((∃ e, soError o' = Some e) ∧ wkDisconnected (scWorker (soScan o')) = true) ∨
     all_seen ((seen ++ [b]) ++ rest) o')) as Hfailed.
  { intros err. destruct (failBatch b err env o) as [stop o'] eqn:Hf.
    apply (failBatch_ok d0 seen) in Hf as [Hl Hs]; [|done..].
    destruct stop; [by split; [|left]|]. by apply IH. }
  destruct r as [ws|err]; [|apply Hfailed].
  destruct (length ws =? length (rbWords b))%nat eqn:Hlen; cbn [negb]; [|apply (Hfailed incompleteResponse)].
  apply Nat.eqb_eq in Hlen. apply envRead_range in Hread as Hws.
  destruct (loop_inv_good d0 o b ws env Hinv Hws) as [Hg Hl]. apply IH; [exact Hl|].
  eapply all_seen_snoc; [exact Hseen|apply Hg|].
  intros p Hp Hr Hok Hcov. simpl. eapply goodValues_reaches; try done. destruct Hinv as [[] _ _ _]. by split.
Qed.

(** ** The stale snapshot *)

Lemma stalePoint_grows now id sc :
  isZero now = false → id ∈ spReadable plan → scan_inv sc →
  grows (item_ok "stale") sc (stalePoint now sc id).
Proof.
  intros Ht Hid Hi. apply putItem_grows; [done|].
  split; simpl; [done|done|by apply last_known|done|done].
Qed.

Lemma staleValues_ok w env :
  wkPlan w = plan → (∀ id v, wkLast w !! id = Some v → known id (pvValue v)) →
  let sc := staleValuesLocked w env in
  scan_inv sc ∧ wkDisconnected (scWorker sc) = wkDisconnected w ∧
  (∀ id v, scValues sc !! id = Some v → item_ok "stale" id v) ∧
  ∀ id, id ∈ spReadable plan → is_Some (scValues sc !! id).
Proof.
  intros Hp Hk. unfold staleValuesLocked. destruct (envNow env) as [now env'] eqn:Hn.
  apply envNow_nonzero in Hn. rewrite Hp. set (sc0 := mkScan ∅ w env').
  assert (scan_inv sc0) as Hi by (split; simpl; [done..|apply map_empty_subseteq]).
  assert (∀ sc id, id ∈ elements (spReadable plan) → scan_inv sc →
    grows (item_ok "stale") sc (stalePoint now sc id)) as Hstep.
  { intros sc id Hid%elem_of_elements Hi'. by apply stalePoint_grows. }
  destruct (grows_foldl (stalePoint now) _ _ sc0 Hstep Hi) as [Hgi Hgd Hgn _].
  split_and!; [done|done| |].
  - intros id v [Hold|?]%Hgn; [|done]. simpl in Hold. by rewrite lookup_empty in Hold.
  - intros id Hid%elem_of_elements. eapply (foldl_reaches _ _ _ _ id); [exact Hstep| |done|done].
    intros sc _. simpl. rewrite lookup_insert_eq. eauto.
Qed.

(** ** A whole scan *)

(** The worker between two operations. *)
Record worker_inv (w : Worker) : Prop := {
  wi_plan : wkPlan w = plan;
  wi_known : ∀ id v, wkLast w !! id = Some v → known id (pvValue v)
}.

(** The snapshot of a scan that leaves the worker in a given state. *)
Record snapshot_ok (values : gmap string PointValue) (err : option goerr) (lost : bool) : Prop := {
  sn_complete : ∀ id, is_Some (values !! id) ↔ id ∈ spReadable plan;
  sn_lost : lost = true → err ≠ None ∧ ∀ id v, values !! id = Some v → item_ok "stale" id v;
  sn_held : lost = false → ∀ id v, values !! id = Some v → item_ok "good" id v ∨ item_ok "error" id v;
  sn_clean : err = None → ∀ id v, values !! id = Some v → item_ok "good" id v
}.

Lemma readAll_ok s values err s' :
  worker_inv s.1 → readAll s = (values, err, s') →
  worker_inv s'.1 ∧ snapshot_ok values err (wkDisconnected s'.1).
Proof.
  intros [Hp Hk] Hr. unfold readAll in Hr. rewrite Hp in Hr.
  set (o0 := mkOutcome _ None false) in Hr.
  assert (loop_inv (wkDisconnected s.1) o0) as H0.
  { split; [split| | |done]; simpl; [done..|apply map_empty_subseteq| |by rewrite orb_false_r].
    intros id v Hv. by rewrite lookup_empty in Hv. }
  destruct (scanBatches_ok _ (spBatches plan) [] o0 H0) as [[Hi Hv _ _] Hall];
    [by intros b p ?%elem_of_nil|].
  rewrite app_nil_l in Hall. set (o := scanBatches (spBatches plan) o0) in *. clearbody o. clear H0.
  assert (∀ id, all_seen (spBatches plan) o → id ∈ spReadable plan → is_Some (scValues (soScan o) !! id)) as Hdom.
  { intros id Ha (p & Hpp & Hre)%(pl_readable _ Hplan).
    destruct (pl_covered _ Hplan id p Hpp Hre) as (b & Hb & Hc).
    destruct (pl_point _ Hplan _ _ Hpp) as (<- & _). eapply Ha; try done.
    pose proof (pl_batches _ Hplan) as Hok. rewrite Forall_forall in Hok. by apply Hok. }
  assert (∀ id v, scValues (soScan o) !! id = Some v → id ∈ spReadable plan) as Hsub.
  { intros id v Hid. by destruct (Hv id v Hid) as [[]|(_ & q & _ & _ & _ & [])]. }
  pose proof Hi as [Hip Hik _].
  destruct (soError o) as [e|] eqn:He.
  - destruct (wkDisconnected (scWorker (soScan o))) eqn:Hd.
    + destruct (staleValues_ok (scWorker (soScan o)) (scEnv (soScan o)) Hip Hik)
        as ([Hip' Hik' _] & Hd' & Hq & Hs).
      destruct (envPublish _ _) as [[|] env]; simplify_eq; simpl; rewrite Hd', Hd;
        (split; [by split|]; split;
         [intros id; split; [by intros [v []%Hq]|apply Hs]|done..]).
    + destruct Hall as [[_ Hf]|Hall]; [done|].
      destruct (envPublish _ _) as [[|] env]; simplify_eq; simpl; rewrite Hd;
        (split; [by split|]; split;
         [intros id; split; [intros [v Hid]; by eapply Hsub|by apply Hdom]|done| |done]);
        (intros _ id v Hid; destruct (Hv id v Hid) as [?|(_ & q & _ & _ & Hqe & ?)];
         [by left|right; by rewrite <-(Hqe Hd)]).
  - destruct Hall as [[[e Hf] _]|Hall]; [done|].
    assert (∀ id v, scValues (soScan o) !! id = Some v → item_ok "good" id v) as Hgood.
    { intros id v Hid. destruct (Hv id v Hid) as [?|[Hf _]]; [done|by rewrite He in Hf]. }
    destruct (markConnected (scWorker (soScan o))) as [recovered w] eqn:Hm.
    assert (wkDisconnected w = false ∧ wkPlan w = plan ∧ wkLast w = wkLast (scWorker (soScan o)))
      as (Hw & Hwp & Hwl).
    { unfold markConnected in Hm. destruct (wkDisconnected (scWorker (soScan o))) eqn:E0;
        by injection Hm as <- <-. }
    destruct (envPublish _ _) as [[|] env]; simplify_eq; simpl; rewrite Hw;
      (split; [split; [done|by rewrite Hwl]|]; split;
       [intros id; split; [intros [v Hid]; by eapply Hsub|by apply Hdom]|done|auto|auto]).
Qed.
End scan_proofs.

(** A new worker satisfies the invariant of its plan. *)
Lemma NewWorker_inv range c w : NewWorker range c = Ok w → plan_ok (wkPlan w) ∧ worker_inv (wkPlan w) w.
Proof.
  unfold NewWorker. intros (n & Hn & Hb)%rbind_ok. apply wrapErr_ok, Normalize_ok in Hn as [_ Hok].
  apply rbind_ok in Hb as (plan & Hp%wrapErr_ok & [= <-]). simpl.
  split; [by apply (buildPlan_ok range n plan Hok Hp)|]. split; [done|]. intros id v. cbn [wkLast]. by rewrite lookup_empty.
Qed.
