(* ===== verification/WorkerTrace.v ===== *)
(** * What the PLC worker does to the outside: traces of [readAll] and [execute]

    [Traced] records every call the worker makes on an environment: requests
    to the adapter, published snapshots, pauses and connection notifications.
    The lemmas give the trace of a scan and of each command: which requests
    reach the PLC, how often and in which order. *)

From S2P Require Import Prelude GoValue RuntimeConfig PointStore WorkerPlan WorkerCodec Worker.

Inductive event : Type :=
| EvRead (address quantity : Z)
| EvMask (word bit : Z) (value : bool)
| EvWriteSingle (address value : Z)
| EvWriteMultiple (address : Z) (values : list Z)
| EvPublish (values : gmap string PointValue)
| EvSleep (nanoseconds : Z)
| EvDisconnected
| EvReconnected.

Record Traced (E : Type) : Type := mkTraced { trEnv : E; trLog : list event }.
Arguments mkTraced {E} trEnv trLog.
Arguments trEnv {E} t.
Arguments trLog {E} t.

Section traced.
Context {E : Type} `{WorkerEnv E}.

Definition record {A} (e : event) (r : A * E) (s : Traced E) : A * Traced E :=
  (r.1, mkTraced r.2 (trLog s ++ [e])).

#[export] Instance traced_env : WorkerEnv (Traced E) := {
  envRead a q s := record (EvRead a q) (envRead a q (trEnv s)) s;
  envMask w b v s := record (EvMask w b v) (envMask w b v (trEnv s)) s;
  envWriteSingle a v s := record (EvWriteSingle a v) (envWriteSingle a v (trEnv s)) s;
  envWriteMultiple a vs s := record (EvWriteMultiple a vs) (envWriteMultiple a vs (trEnv s)) s;
  envPublish m s := record (EvPublish m) (envPublish m (trEnv s)) s;
  envNow s := let '(t, e) := envNow (trEnv s) in (t, mkTraced e (trLog s));
  envSleep d s := mkTraced (envSleep d (trEnv s)) (trLog s ++ [EvSleep d]);
  envNotifyDisconnected s := mkTraced (envNotifyDisconnected (trEnv s)) (trLog s ++ [EvDisconnected]);
  envNotifyReconnected s := mkTraced (envNotifyReconnected (trEnv s)) (trLog s ++ [EvReconnected])
}.

#[export] Instance traced_laws `{!WorkerEnvLaws E} : WorkerEnvLaws (Traced E).
Proof.
  split; simpl.
  - intros a q s ws s'. unfold record. destruct (envRead a q (trEnv s)) as [r e] eqn:Hr. simpl.
    intros [= -> <-]. by eapply envRead_range.
  - intros s t s'. destruct (envNow (trEnv s)) as [t' e] eqn:Ht. intros [= <- <-]. by eapply envNow_nonzero.
Qed.

Definition trace (sc : Scan (E := Traced E)) : list event := trLog (scEnv sc).
Implicit Types (sc : Scan (E := Traced E)) (s : Worker * Traced E).

(** ** Scans *)

(** What the tables written by a scan do not touch. *)
Definition outside sc : list event * bool * scanPlan :=
  (trace sc, wkDisconnected (scWorker sc), wkPlan (scWorker sc)).

Lemma outside_put id item sc : outside (putItem id item (envNow (scEnv sc)).2 sc) = outside sc.
Proof. unfold outside. simpl. by destruct (envNow (trEnv (scEnv sc))). Qed.

Lemma staleValues_outside w (env : Traced E) :
  outside (staleValuesLocked w env) = (trLog env, wkDisconnected w, wkPlan w).
Proof. unfold staleValuesLocked. simpl. destruct (envNow (trEnv env)). by rewrite (foldl_keeps outside). Qed.

Definition readOf (b : readBatch) : event := EvRead (rbStart b) (u16 (Z.of_nat (length (rbWords b)))).

(** The batch loop: it reads a prefix of the batches, and a newly lost
    connection comes with an error. *)
Record loop_trace (d0 : bool) (t0 : list event) (batches : list readBatch)
    (o : ScanOutcome (E := Traced E)) : Prop := {
  lt_reads : ∃ k, trace (soScan o) = t0 ++ map readOf (take k batches);
  lt_disc : wkDisconnected (scWorker (soScan o)) = d0 || soConfirmed o;
  lt_error : soConfirmed o = true → d0 = false ∧ soError o ≠ None
}.

Lemma firstError_Some e err : firstError e err ≠ None.
Proof. unfold firstError. by case_match. Qed.

Lemma scanBatches_trace d0 batches (o : ScanOutcome (E := Traced E)) :
  wkDisconnected (scWorker (soScan o)) = d0 || soConfirmed o →
  (soConfirmed o = true → d0 = false ∧ soError o ≠ None) →
  loop_trace d0 (trace (soScan o)) batches (scanBatches batches o).
Proof.
  revert o. induction batches as [|b rest IH]; intros o Hd Hc; simpl.
  { split; [exists 0%nat; by rewrite app_nil_r|done..]. }
  unfold record. destruct (envRead _ _ (trEnv (scEnv (soScan o)))) as [r env] eqn:Hr. simpl.
  set (env' := mkTraced env _).
  assert (trLog env' = trace (soScan o) ++ [readOf b]) as Henv by done. clearbody env'.
  assert (∀ o', outside (soScan o') = (trLog env', wkDisconnected (scWorker (soScan o)), wkPlan (scWorker (soScan o))) →
    soConfirmed o' = soConfirmed o → (soError o ≠ None → soError o' ≠ None) →
    loop_trace d0 (trace (soScan o)) (b :: rest) (scanBatches rest o')) as Hnext.
  { intros o' [= Ht Hdo _] Hco He. destruct (IH o') as [[k Hk] ??].
    - by rewrite Hdo, Hco.
    - rewrite Hco. intros Htr. destruct (Hc Htr). auto.
    - split; [|done..]. exists (S k). rewrite Hk, Ht, Henv. simpl. by rewrite <-app_assoc. }
  assert (∀ err, loop_trace d0 (trace (soScan o)) (b :: rest)
    (let '(stop, o') := failBatch b err env' o in if stop then o' else scanBatches rest o')) as Hfailed.
  { intros err. unfold failBatch. destruct (errTransport err).
    - destruct (markDisconnected (scWorker (soScan o))) as [newly w] eqn:Hm.
      pose proof (failureValues_keeps outside outside_put b (mkScan (scValues (soScan o)) w env')) as [= Ht Hdo _].
      split; cbn [soScan soConfirmed soError].
      + exists 1%nat. rewrite Ht. exact Henv.
      + rewrite Hdo. cbn [scWorker]. unfold markDisconnected in Hm.
        destruct (wkDisconnected (scWorker (soScan o))) eqn:E0; injection Hm as <- <-; simpl;
          rewrite ?E0, ?orb_true_r, ?orb_false_r; done.
      + intros Hor. split; [|apply firstError_Some]. unfold markDisconnected in Hm.
        apply orb_true_iff in Hor as [Hor|Hor]; [by apply Hc|].
        destruct (wkDisconnected (scWorker (soScan o))) eqn:E0; injection Hm as <- <-; [done|].
        symmetry in Hd. by apply orb_false_iff in Hd as [-> _].
    - apply Hnext; [|done|intros _; apply firstError_Some].
      cbn [soScan]. rewrite (failureValues_keeps outside outside_put). done. }
  destruct r as [ws|err]; [|apply Hfailed].
  destruct (length ws =? length (rbWords b))%nat; cbn [negb]; [|apply (Hfailed incompleteResponse)].
  apply Hnext; [|done|done]. cbn [soScan].
  rewrite (goodValues_keeps outside outside_put). done.
Qed.

(** The notification owed to the runtime when the connection state changed. *)
Definition transition (before after : bool) : list event :=
  if before then (if after then [] else [EvReconnected])
  else (if after then [EvDisconnected] else []).

(** A scan asks for a prefix of its batches, publishes once, then notifies. *)
Lemma readAll_trace s values err s' :
  readAll s = (values, err, s') →
  ∃ k, trLog s'.2 = trLog s.2 ++ map readOf (take k (spBatches (wkPlan s.1))) ++ [EvPublish values] ++
                transition (wkDisconnected s.1) (wkDisconnected s'.1).
Proof.
  unfold readAll. intros Hr. set (o0 := mkOutcome _ None false) in Hr.
  destruct (scanBatches_trace (wkDisconnected s.1) (spBatches (wkPlan s.1)) o0) as [[k Hk] Hd Hc];
    [simpl; by rewrite orb_false_r|done|].
  set (o := scanBatches _ o0) in *. clearbody o. exists k. unfold trace in Hk. cbn [soScan o0 scEnv] in Hk.
  destruct (soError o) as [e|] eqn:He.
  - destruct (wkDisconnected (scWorker (soScan o))) eqn:Ho.
    + pose proof (staleValues_outside (scWorker (soScan o)) (scEnv (soScan o))) as [= Ht Hsd _].
      unfold trace in Ht. rewrite Ho in Hsd. simpl in Hr. unfold record in Hr. destruct (envPublish _ _) as [pr env].
      destruct pr; simplify_eq; simpl; rewrite Ht, Hk, Hsd;
        destruct (wkDisconnected s.1), (soConfirmed o); simpl in *;
        try done; try (by destruct (Hc eq_refl)); by rewrite <-?app_assoc.
    + simpl in Hr. unfold record in Hr. destruct (envPublish _ _) as [pr env].
      destruct pr; simplify_eq; simpl; rewrite Hk, Ho;
        destruct (wkDisconnected s.1), (soConfirmed o); simpl in *;
        try done; try (by destruct (Hc eq_refl)); by rewrite <-?app_assoc.
  - destruct (soConfirmed o) eqn:Hco; [by destruct (Hc eq_refl)|]. rewrite orb_false_r in Hd.
    unfold markConnected in Hr. rewrite Hd in Hr.
    destruct (wkDisconnected s.1) eqn:E0; simpl in Hr; unfold record in Hr;
      destruct (envPublish _ _) as [pr env];
      destruct pr; simplify_eq; simpl; rewrite ?Hk, ?Hd; simpl; by rewrite <-?app_assoc.
Qed.

(** ** Commands *)

Definition is_action (e : event) : bool :=
  match e with
  | EvMask _ _ _ | EvWriteSingle _ _ | EvWriteMultiple _ _ | EvSleep _ => true
  | _ => false
  end.

Definition actions (l : list event) : list event := filter (fun e => is_action e = true) l.

Lemma actions_app l l' : actions (l ++ l') = actions l ++ actions l'.
Proof. apply filter_app. Qed.

Lemma actions_reads bs : actions (map readOf bs) = [].
Proof.
  unfold actions. induction bs as [|b bs IH]; [done|]. cbn [map].
  by rewrite filter_cons, decide_False by done.
Qed.

(** The actions a run of the worker adds. *)
Definition acts s s' (l : list event) : Prop := actions (trLog s'.2) = actions (trLog s.2) ++ l.

Lemma acts_nil s : acts s s [].
Proof. unfold acts. by rewrite app_nil_r. Qed.

Lemma acts_trans s1 s2 s3 l l' : acts s1 s2 l → acts s2 s3 l' → acts s1 s3 (l ++ l').
Proof. unfold acts. intros H1 H2. by rewrite H2, H1, app_assoc. Qed.

Lemma readAll_acts s values err s' : readAll s = (values, err, s') → acts s s' [].
Proof.
  intros [k Hk]%readAll_trace. unfold acts. rewrite Hk, !actions_app, actions_reads. simpl.
  unfold transition. repeat case_match; simpl; by rewrite ?app_nil_r.
Qed.

Lemma confirmCommand_acts id rp s r s' : confirmCommand id rp s = (r, s') → acts s s' [].
Proof.
  unfold confirmCommand. destruct (readAll s) as [[values err] s1] eqn:Hr.
  apply readAll_acts in Hr. intros Hc. by repeat (case_match; simplify_eq).
Qed.

Lemma writeBit_acts a v s r s' :
  writeBit a v s = (r, s') → acts s s' [EvMask (paWord a) (paBit a) v].
Proof.
  unfold writeBit. simpl. unfold record. destruct (envMask _ _ _ _) as [x env]. simpl.
  intros [= <- <-]. unfold acts. simpl. by rewrite actions_app.
Qed.

Lemma writeThen_acts id a v s k r s' :
  writeThen id a v s k = (r, s') →
  ∃ s1, acts s s1 [EvMask (paWord a) (paBit a) v] ∧
    ((r.(rCode) = "PLC_WRITE_FAILED"%string ∧ rSuccess r = false ∧ s' = s1) ∨ k s1 = (r, s')).
Proof.
  unfold writeThen. destruct (writeBit a v s) as [w s1] eqn:Hw. apply writeBit_acts in Hw.
  intros Hk. exists s1. split; [done|].
  destruct w as [[]|e]; [by right|left]. by injection Hk as <- <-.
Qed.

(** The values of a scan that succeeds. *)
Definition scanned (s : Worker * Traced E) : option (gmap string PointValue) :=
  match readAll s with (values, None, _) => Some values | _ => None end.

(** The actions of a command that runs to its end; [scan] is what a scan shows
    before it.  The pause is a [time.Duration], of 64 bits. *)
Inductive complete_actions (scan : option (gmap string PointValue)) (d : PointDefinition) (wp : pointPlan) (cmd : Command)
  : list event → Prop :=
| ca_set v :
    pType d = "bool" → cmdAction cmd = "set" → cmdValue cmd = VBool v →
    complete_actions scan d wp cmd [EvMask (paWord (ppAddress wp)) (paBit (ppAddress wp)) v]
| ca_pulse a r :
    pType d = "bool" → cmdAction cmd = "pulse" →
    wActiveValue (writeOf d) = VBool a → wDefaultValue (writeOf d) = VBool r →
    complete_actions scan d wp cmd
      [EvMask (paWord (ppAddress wp)) (paBit (ppAddress wp)) a;
       EvSleep (i64 (wPulseMs (writeOf d) * millisecond));
       EvMask (paWord (ppAddress wp)) (paBit (ppAddress wp)) r]
| ca_press a :
    pType d = "bool" → cmdAction cmd = "press" → wActiveValue (writeOf d) = VBool a →
    complete_actions scan d wp cmd [EvMask (paWord (ppAddress wp)) (paBit (ppAddress wp)) a]
| ca_release r :
    pType d = "bool" → cmdAction cmd = "release" → wDefaultValue (writeOf d) = VBool r →
    complete_actions scan d wp cmd [EvMask (paWord (ppAddress wp)) (paBit (ppAddress wp)) r]
| ca_toggle values shown b :
    pType d = "bool" → cmdAction cmd = "toggle" →
    scan = Some values → values !! pReadPoint d = Some shown → pvValue shown = VBool b →
    complete_actions scan d wp cmd [EvMask (paWord (ppAddress wp)) (paBit (ppAddress wp)) (negb b)]
| ca_fc06 ws :
    pType d ≠ "bool" → cmdAction cmd = "set" →
    numericWords (ppDefinition wp) (cmdValue cmd) = Ok ws →
    pWriteMethod (ppDefinition wp) = "fc06" →
    complete_actions scan d wp cmd [EvWriteSingle (paWord (ppAddress wp)) (wordAt ws 0)]
| ca_fc10 ws :
    pType d ≠ "bool" → cmdAction cmd = "set" →
    numericWords (ppDefinition wp) (cmdValue cmd) = Ok ws →
    pWriteMethod (ppDefinition wp) = "fc10" →
    complete_actions scan d wp cmd [EvWriteMultiple (paWord (ppAddress wp)) ws].

(** What a command did: nothing, or an initial part of its actions — all of
    them when it succeeded. *)
Definition did (scan : option (gmap string PointValue)) (d : PointDefinition) (wp : pointPlan) (cmd : Command) s (r : Result) s' : Prop :=
  ∃ l, acts s s' l ∧
    ((l = [] ∧ rSuccess r = false) ∨
     ∃ full, complete_actions scan d wp cmd full ∧ l `prefix_of` full ∧ (rSuccess r = true → l = full)).

Lemma did_nothing scan d wp cmd s r : rSuccess r = false → did scan d wp cmd s r s.
Proof. exists []. split; [apply acts_nil|auto]. Qed.

Lemma did_write scan d wp cmd s v r s' id rp :
  complete_actions scan d wp cmd [EvMask (paWord (ppAddress wp)) (paBit (ppAddress wp)) v] →
  writeThen id (ppAddress wp) v s (confirmCommand id rp) = (r, s') → did scan d wp cmd s r s'.
Proof.
  intros Hc (s1 & Ha & [(_ & Hr & ->)|Hk])%writeThen_acts; eexists.
  - split; [exact Ha|right]. eexists. split; [exact Hc|done].
  - split; [eapply acts_trans; [exact Ha|by eapply confirmCommand_acts]|right].
    eexists. split; [exact Hc|done].
Qed.

Lemma did_after scan d wp cmd s s1 r s' : acts s s1 [] → did scan d wp cmd s1 r s' → did scan d wp cmd s r s'.
Proof. intros Ha (l & Hl & Hd). exists l. split; [by eapply (acts_trans _ _ _ [])|done]. Qed.

Lemma as_bool_Some v b : as_bool v = Some b → v = VBool b.
Proof. destruct v; simpl; congruence. Qed.

(** A toggle writes the opposite of what its point shows. *)
Lemma executeToggle_did d wp cmd rp s r s' a b :
  pType d = "bool" → cmdAction cmd = "toggle" →
  wActiveValue (writeOf d) = VBool a → wDefaultValue (writeOf d) = VBool b → a ≠ b →
  (∀ p, rp = Some p → pPointID (ppDefinition p) = pReadPoint d) →
  executeToggle (cmdPointID cmd) d wp rp s = (r, s') → did (scanned s) d wp cmd s r s'.
Proof.
  intros Ht Hact Ha Hb Hne Hrp. unfold executeToggle, scanned. destruct rp as [rp|]; [|intros [= <- <-]; by apply did_nothing].
  destruct (readAll s) as [[values err] s1] eqn:Hr. apply readAll_acts in Hr.
  intros Hk. apply (did_after _ _ _ _ _ s1); [done|].
  destruct err; [injection Hk as <- <-; by apply did_nothing|].
  rewrite (Hrp rp eq_refl), Ha, Hb in Hk.
  destruct (values !! pReadPoint d) as [shown|] eqn:Hv; [|injection Hk as <- <-; by apply did_nothing].
  destruct (pvValue shown) as [|c| | | | |] eqn:Hc; try (injection Hk as <- <-; by apply did_nothing).
  assert (writeThen (cmdPointID cmd) (ppAddress wp) (negb c) s1 (confirmCommand (cmdPointID cmd) (Some rp)) = (r, s')) as Hw
    by (by destruct c, a, b).
  eapply did_write; [|exact Hw]. by eapply ca_toggle.
Qed.

Lemma executeBool_did d wp cmd rp s r s' :
  pType d = "bool" → (cmdAction cmd = "pulse" ∨ cmdAction cmd = "toggle" →
    ∃ a b, wActiveValue (writeOf d) = VBool a ∧ wDefaultValue (writeOf d) = VBool b ∧ a ≠ b) →
  (∀ p, rp = Some p → pPointID (ppDefinition p) = pReadPoint d) →
  executeBool cmd d wp rp s = (r, s') → did (scanned s) d wp cmd s r s'.
Proof.
  intros Ht Hdef Hrp. unfold executeBool.
  destruct (String.eqb_spec (cmdAction cmd) "set").
  { case_match eqn:Hb; [apply as_bool_Some in Hb|intros [= <- <-]; by apply did_nothing].
    apply did_write. by constructor. }
  destruct (String.eqb_spec (cmdAction cmd) "pulse").
  { case_match eqn:Hb; [apply as_bool_Some in Hb|intros [= <- <-]; by apply did_nothing].
    destruct Hdef as (a & b' & Ha' & Hb' & _); [by left|]. rewrite Ha' in Hb. injection Hb as ->. rewrite Hb'. simpl.
    intros (s1 & Ha & [(_ & Hr & ->)|Hk])%writeThen_acts.
    - eexists. split; [exact Ha|right]. eexists. split; [by eapply ca_pulse|].
      split; [by eexists|by rewrite Hr].
    - assert (acts s1 (s1.1, envSleep (i64 (wPulseMs (writeOf d) * millisecond)) s1.2)
        [EvSleep (i64 (wPulseMs (writeOf d) * millisecond))]) as Hsl by (unfold acts; simpl; apply actions_app).
      apply writeThen_acts in Hk as (s2 & Ha2 & [(_ & Hr & ->)|Hk]).
      + eexists. split; [eapply acts_trans; [eapply acts_trans; [exact Ha|exact Hsl]|exact Ha2]|right].
        eexists. split; [by eapply ca_pulse|done].
      + eexists. split; [eapply acts_trans; [eapply acts_trans; [eapply acts_trans;
          [exact Ha|exact Hsl]|exact Ha2]|by eapply confirmCommand_acts]|right].
        eexists. split; [by eapply ca_pulse|done]. }
  destruct (String.eqb_spec (cmdAction cmd) "press").
  { case_match eqn:Hb; [apply as_bool_Some in Hb|intros [= <- <-]; by apply did_nothing].
    apply did_write. by constructor. }
  destruct (String.eqb_spec (cmdAction cmd) "release").
  { case_match eqn:Hb; [apply as_bool_Some in Hb|intros [= <- <-]; by apply did_nothing].
    apply did_write. by constructor. }
  destruct (String.eqb_spec (cmdAction cmd) "toggle"); [|intros [= <- <-]; by apply did_nothing].
  destruct Hdef as (a & b & Ha & Hb & Hne); [by right|]. by eapply executeToggle_did.
Qed.

Lemma executeNumeric_did d wp cmd rp s r s' :
  pType d ≠ "bool" → executeNumeric cmd wp rp s = (r, s') → did (scanned s) d wp cmd s r s'.
Proof.
  intros Ht. unfold executeNumeric. destruct (String.eqb_spec (cmdAction cmd) "set"); simpl;
    [|intros [= <- <-]; by apply did_nothing].
  unfold writeRegisters. destruct (numericWords _ _) as [ws|] eqn:Hws;
    [|intros [= <- <-]; by apply did_nothing].
  destruct (String.eqb_spec (pWriteMethod (ppDefinition wp)) "fc06");
    [|destruct (String.eqb_spec (pWriteMethod (ppDefinition wp)) "fc10");
      [|intros [= <- <-]; by apply did_nothing]]; simpl; unfold record.
  - destruct (envWriteSingle _ _ _) as [[|] env]; simpl; intros Hk.
    + eexists. split; [|right; eexists; split; [by eapply ca_fc06|done]].
      eapply (acts_trans s _ _ [_] []); [|by eapply confirmCommand_acts].
      unfold acts. simpl. by rewrite actions_app.
    + injection Hk as <- <-. eexists. split; [|right; eexists; split; [by eapply ca_fc06|done]].
      unfold acts. simpl. by rewrite actions_app.
  - destruct (envWriteMultiple _ _ _) as [[|] env]; simpl; intros Hk.
    + eexists. split; [|right; eexists; split; [by eapply ca_fc10|done]].
      eapply (acts_trans s _ _ [_] []); [|by eapply confirmCommand_acts].
      unfold acts. simpl. by rewrite actions_app.
    + injection Hk as <- <-. eexists. split; [|right; eexists; split; [by eapply ca_fc10|done]].
      unfold acts. simpl. by rewrite actions_app.
Qed.

(** The two values of a checked bit point that is pulsed or toggled differ. *)
Lemma bit_values d :
  validatePoint d = Ok tt → pType d = "bool" → allowsAction d "pulse" = true ∨ allowsAction d "toggle" = true →
  ∃ a b, wActiveValue (writeOf d) = VBool a ∧ wDefaultValue (writeOf d) = VBool b ∧ a ≠ b.
Proof.
  intros Hv Ht. unfold allowsAction, writeOf.
  destruct (String.eqb_spec (pAccess d) "read") as [|Hacc]; [by intros []|].
  destruct (pWrite d) as [w|] eqn:Hw; [|by intros []]. simpl. intros Hm.
  assert (wMode w = "pulse" ∨ wMode w = "toggle") as Hmode.
  { destruct (wMode w =s "set"); [by destruct Hm|]. destruct (String.eqb_spec (wMode w) "pulse"); [by left|].
    destruct (wMode w =s "momentary"); [by destruct Hm|]. destruct (String.eqb_spec (wMode w) "toggle"); [by right|by destruct Hm]. }
  apply validatePoint_ok in Hv as (_ & _ & _ & _ & _ & _ & Hws & _).
  unfold validateWriteSide, validateWrite in Hws.
  rewrite (proj2 (String.eqb_neq _ _) Hacc), Hw, Ht in Hws.
  destruct (isBlank (pWritePoint d)), (isBlank (pWriteMethod d)); try done.
  apply rbind_ok in Hws as ([] & _ & Hws).
  destruct (wActiveValue w) as [|a| | | | |], (wDefaultValue w) as [|b| | | | |];
    try (by destruct Hmode as [Hmode|Hmode]; rewrite Hmode in Hws).
  exists a, b. split_and!; [done..|]. intros ->.
  destruct Hmode as [Hmode|Hmode]; rewrite Hmode in Hws; by destruct b, (wPulseMs w <=? 0).
Qed.

Section execute.
Context (plan : scanPlan) (Hplan : plan_ok plan) (cmd : Command) (s : Worker * Traced E).
Hypothesis (Hs : wkPlan s.1 = plan).

Lemma default_values d :
  (∃ p, spPoints plan !! cmdPointID cmd = Some p ∧ ppDefinition p = d) → pType d = "bool" →
  allowsAction d (cmdAction cmd) = true → cmdAction cmd = "pulse" ∨ cmdAction cmd = "toggle" →
  ∃ a b, wActiveValue (writeOf d) = VBool a ∧ wDefaultValue (writeOf d) = VBool b ∧ a ≠ b.
Proof.
  intros (p & Hp & <-) Ht Hal Hact. destruct (pl_point _ Hplan _ _ Hp) as (_ & _ & Hv & _).
  apply bit_values; [done|done|]. destruct Hact as [Hact|Hact]; rewrite Hact in Hal; auto.
Qed.

(** What any command does: nothing at all, or its point's actions. *)
Lemma execute_did r s' :
  execute cmd s = (r, s') →
  (s' = s ∧ rSuccess r = false) ∨
  ∃ p wp, spPoints plan !! cmdPointID cmd = Some p ∧
    spPoints plan !! pWritePoint (ppDefinition p) = Some wp ∧
    allowsAction (ppDefinition p) (cmdAction cmd) = true ∧
    did (scanned s) (ppDefinition p) wp cmd s r s'.
Proof.
  unfold execute. rewrite Hs.
  destruct (spPoints plan !! cmdPointID cmd) as [p|] eqn:Hp; [|intros [= <- <-]; by left].
  destruct (allowsAction _ _) eqn:Hal; simpl; [|intros [= <- <-]; by left].
  destruct (spPoints plan !! pWritePoint (ppDefinition p)) as [wp|] eqn:Hwp;
    [|intros [= <- <-]; by left].
  intros He. assert ((s' = s ∧ rSuccess r = false) ∨
    ∃ rp, (∀ q, rp = Some q → pPointID (ppDefinition q) = pReadPoint (ppDefinition p)) ∧ (if pType (ppDefinition p) <>s "bool" then executeNumeric cmd wp rp s
           else executeBool cmd (ppDefinition p) wp rp s) = (r, s')) as [|(rp & Hid & Hrp)]; [|by left|right].
  { destruct (pReadPoint (ppDefinition p) <>s ""); [|by right; exists None].
    destruct (spPoints plan !! pReadPoint (ppDefinition p)) as [rp|] eqn:Hr.
    { right. exists (Some rp). split; [|done]. intros q [= <-]. by apply (pl_point _ Hplan) in Hr as (<- & _). }
    injection He as <- <-. by left. }
  exists p, wp. split_and!; [done..|].
  destruct (String.eqb_spec (pType (ppDefinition p)) "bool") as [Ht|Ht]; simpl in Hrp.
  - eapply executeBool_did; [done| |done|done]. intros. eapply default_values; eauto.
  - by eapply executeNumeric_did.
Qed.

Definition rejection (code : string) : Prop :=
  code = "POINT_NOT_FOUND" ∨ code = "POINT_NOT_WRITABLE" ∨ code = "INVALID_REQUEST".

Lemma confirmCommand_rejection id rp s1 r s' :
  confirmCommand id rp s1 = (r, s') → ¬ rejection (rCode r).
Proof.
  unfold confirmCommand, rejection. destruct (readAll s1) as [[values err] s2].
  intros Hc. repeat (case_match; simplify_eq); simpl; intuition discriminate.
Qed.

Lemma writeThen_rejection id a v k s1 r s' :
  (∀ s2, k s2 = (r, s') → ¬ rejection (rCode r)) →
  writeThen id a v s1 k = (r, s') → ¬ rejection (rCode r).
Proof.
  intros Hk Hw. apply writeThen_acts in Hw as (s2 & _ & [(-> & _)|Hw]); [|by eapply Hk].
  unfold rejection. intuition discriminate.
Qed.

(** A rejected command never reaches the PLC. *)
Lemma execute_rejected r s' : execute cmd s = (r, s') → rejection (rCode r) → s' = s.
Proof.
  unfold execute. rewrite Hs. intros He Hr.
  destruct (spPoints plan !! cmdPointID cmd) as [p|] eqn:Hp; [|by injection He as <- <-].
  destruct (allowsAction _ _) eqn:Hal; simpl in He; [|by injection He as <- <-].
  destruct (spPoints plan !! pWritePoint (ppDefinition p)) as [wp|] eqn:Hwp;
    [|by injection He as <- <-].
  assert (s' = s ∨
    ∃ rp, (if pType (ppDefinition p) <>s "bool" then executeNumeric cmd wp rp s
           else executeBool cmd (ppDefinition p) wp rp s) = (r, s')) as [|[rp Hrp]]; [|done|].
  { destruct (pReadPoint (ppDefinition p) <>s ""); [|by right; exists None].
    destruct (spPoints plan !! pReadPoint (ppDefinition p)) as [rp|]; [by right; exists (Some rp)|].
    injection He as <- <-. by left. }
  clear He. pose proof (confirmCommand_rejection (cmdPointID cmd) rp) as Hcf.
  destruct (String.eqb_spec (pType (ppDefinition p)) "bool") as [Ht|Ht]; simpl in Hrp.
  - pose proof (default_values (ppDefinition p) ltac:(eauto) Ht Hal) as Hdef. unfold executeBool in Hrp.
    destruct (cmdAction cmd =s "set").
    { case_match; [|by injection Hrp as <- <-]. by apply (writeThen_rejection _ _ _ _ _ _ _ (fun s2 => Hcf s2 _ _)) in Hrp. }
    destruct (String.eqb_spec (cmdAction cmd) "pulse").
    { case_match eqn:Hb; [apply as_bool_Some in Hb|by injection Hrp as <- <-].
      destruct Hdef as (a & b' & Ha' & Hb' & _); [by left|]. rewrite Hb' in Hrp. simpl in Hrp.
      exfalso. revert Hr. eapply writeThen_rejection; [|exact Hrp].
      intros s2. simpl. eapply writeThen_rejection. eauto. }
    destruct (cmdAction cmd =s "press").
    { case_match; [|by injection Hrp as <- <-]. by apply (writeThen_rejection _ _ _ _ _ _ _ (fun s2 => Hcf s2 _ _)) in Hrp. }
    destruct (cmdAction cmd =s "release").
    { case_match; [|by injection Hrp as <- <-]. by apply (writeThen_rejection _ _ _ _ _ _ _ (fun s2 => Hcf s2 _ _)) in Hrp. }
    destruct (cmdAction cmd =s "toggle"); [|by injection Hrp as <- <-].
    unfold executeToggle in Hrp. destruct rp as [rp|]; [|by injection Hrp as <- <-].
    exfalso. destruct (readAll s) as [[values err] s1].
    destruct err; [injection Hrp as <- <-; unfold rejection in Hr; simpl in Hr; intuition discriminate|].
    destruct (values !! _); [|injection Hrp as <- <-; unfold rejection in Hr; simpl in Hr; intuition discriminate].
    case_match; [revert Hr; eapply writeThen_rejection; [|exact Hrp]; eauto|].
    case_match; [revert Hr; eapply writeThen_rejection; [|exact Hrp]; eauto|].
    injection Hrp as <- <-. unfold rejection in Hr. simpl in Hr. intuition discriminate.
  - unfold executeNumeric in Hrp. case_match; [by injection Hrp as <- <-|].
    unfold writeRegisters in Hrp. destruct (numericWords _ _); [|by injection Hrp as <- <-].
    destruct (pWriteMethod (ppDefinition wp) =s "fc06");
      [|destruct (pWriteMethod (ppDefinition wp) =s "fc10"); [|by injection Hrp as <- <-]];
      simpl in Hrp; unfold record in Hrp; exfalso.
    + destruct (envWriteSingle _ _ _) as [[[]|] env]; simpl in Hrp; [by eapply Hcf|].
      injection Hrp as <- <-. unfold rejection in Hr. simpl in Hr. intuition discriminate.
    + destruct (envWriteMultiple _ _ _) as [[[]|] env]; simpl in Hrp; [by eapply Hcf|].
      injection Hrp as <- <-. unfold rejection in Hr. simpl in Hr. intuition discriminate.
Qed.
End execute.
End traced.
