(* ===== verification/WorkerLoop.v ===== *)
(** * The worker's goroutine: [TrySubmit] and [Run] of
      [internal/plcworker/worker.go]

    [Loop] is the worker with its command channel, its poll timer and the life
    cycle of [Run]; [step] is one atomic step of either side: a submission by
    the router's goroutine, the cancellation of the session, or one round of
    [Run] (its first scan, a command, a tick, and the deferred shutdown).
    Requests carry a ticket standing for their reply channel.  The theorems
    are about every interleaving: the queue is a bounded FIFO, and every
    admitted command is answered exactly once, in order. *)

From S2P Require Import Prelude GoValue RuntimeConfig PointStore WorkerPlan WorkerCodec Worker.

Definition CommandQueueCapacity : nat := 64.

Record commandRequest := mkRequest { crTicket : nat; crCommand : Command }.

Inductive phase : Type := Starting | Polling | Draining | Stopped.

Inductive timer : Type := Armed (interval : Z) | Fired.

Section loop.
Context {E : Type} `{WorkerEnv E}.

Record Loop := mkLoop {
  lpQueue : list commandRequest;        (* the channel [commands] *)
  lpStopping : bool;
  lpPhase : phase;
  lpCancelled : bool;                   (* [ctx.Err() != nil] *)
  lpTimer : timer;
  lpReady : option (option goerr);      (* what [ready] delivered *)
  lpState : Worker * E;
  lpAdmitted : list nat;                (* tickets in admission order *)
  lpReplies : list (nat * Result)       (* replies in the order they were sent *)
}.

Definition New_ (s : Worker * E) : Loop :=
  mkLoop [] false Starting false (Armed 0) None s [] [].

Definition setQueue q (l : Loop) : Loop :=
  mkLoop q (lpStopping l) (lpPhase l) (lpCancelled l) (lpTimer l) (lpReady l) (lpState l)
    (lpAdmitted l) (lpReplies l).

(** ** Submission *)

Inductive admission : Type := Admitted_ | Refused (r : Result).

Definition TrySubmit (ticket : nat) (command : Command) (l : Loop) : admission * Loop :=
  if lpStopping l then
    (Refused (failure (cmdPointID command) "SERVICE_STOPPING" (MText "PLC worker is stopping")), l)
  else if (length (lpQueue l) <? CommandQueueCapacity)%nat then
    (Admitted_,
     mkLoop (lpQueue l ++ [mkRequest ticket command]) (lpStopping l) (lpPhase l) (lpCancelled l)
       (lpTimer l) (lpReady l) (lpState l) (lpAdmitted l ++ [ticket]) (lpReplies l))
  else
    (Refused (failure (cmdPointID command) "BUSY" (MText "PLC command queue is full")), l).

(** ** The rounds of [Run] *)

Definition reply (rq : commandRequest) (r : Result) (l : Loop) : Loop :=
  mkLoop (lpQueue l) (lpStopping l) (lpPhase l) (lpCancelled l) (lpTimer l) (lpReady l) (lpState l)
    (lpAdmitted l) (lpReplies l ++ [(crTicket rq, r)]).

(** The first scan; its error is what [Ready] reports. *)
Definition start (l : Loop) : Loop :=
  let '(_, err, s) := readAll (lpState l) in
  mkLoop (lpQueue l) (lpStopping l) Polling (lpCancelled l) (Armed (pollInterval s.1)) (Some err) s
    (lpAdmitted l) (lpReplies l).

Definition handleCommand (rq : commandRequest) (l : Loop) : Loop :=
  let '(result, s) := executeCommand (crCommand rq) (lpState l) in
  reply rq result
    (mkLoop (lpQueue l) (lpStopping l) (lpPhase l) (lpCancelled l) (Armed (pollInterval s.1))
       (lpReady l) s (lpAdmitted l) (lpReplies l)).

(** An elapsed interval with no command waiting. *)
Definition tick (l : Loop) : Loop :=
  let '(_, _, s) := readAll (lpState l) in
  mkLoop (lpQueue l) (lpStopping l) (lpPhase l) (lpCancelled l) (Armed (pollInterval s.1)) (lpReady l) s
    (lpAdmitted l) (lpReplies l).

(** The deferred calls that run when [Run] returns, up to [rejectQueued]. *)
Definition stopAdmitting (l : Loop) : Loop :=
  mkLoop (lpQueue l) true Draining (lpCancelled l) (lpTimer l)
    (match lpReady l with None => Some (Some (mkErr "context canceled" false)) | r => r end)
    (lpState l) (lpAdmitted l) (lpReplies l).

Definition stoppingReply (rq : commandRequest) : Result :=
  failure (cmdPointID (crCommand rq)) "SERVICE_STOPPING" (MText "PLC worker is stopping").

(** [rejectQueued]: every request still in the channel is refused. *)
Fixpoint rejectQueued (queue : list commandRequest) (l : Loop) : Loop :=
  match queue with
  | [] => setQueue [] l
  | rq :: rest => rejectQueued rest (setQueue rest (reply rq (stoppingReply rq) l))
  end.

Definition setPhase p (l : Loop) : Loop :=
  mkLoop (lpQueue l) (lpStopping l) p (lpCancelled l) (lpTimer l) (lpReady l) (lpState l)
    (lpAdmitted l) (lpReplies l).
Definition setTimer t (l : Loop) : Loop :=
  mkLoop (lpQueue l) (lpStopping l) (lpPhase l) (lpCancelled l) t (lpReady l) (lpState l)
    (lpAdmitted l) (lpReplies l).
Definition cancel (l : Loop) : Loop :=
  mkLoop (lpQueue l) (lpStopping l) (lpPhase l) true (lpTimer l) (lpReady l) (lpState l)
    (lpAdmitted l) (lpReplies l).

(** One step of the system.  A command may still be taken after the
    cancellation: [Run] looks at the context before it selects. *)
Inductive step : Loop → Loop → Prop :=
| step_submit l ticket command :
    ticket ∉ lpAdmitted l → step l (TrySubmit ticket command l).2
| step_cancel l : step l (cancel l)
| step_fire l i : lpTimer l = Armed i → step l (setTimer Fired l)
| step_start l : lpPhase l = Starting → lpCancelled l = false → step l (start l)
| step_command l rq rest :
    lpPhase l = Polling → lpQueue l = rq :: rest → step l (handleCommand rq (setQueue rest l))
| step_tick l :
    lpPhase l = Polling → lpTimer l = Fired → lpQueue l = [] → step l (tick l)
| step_stop l :
    lpPhase l = Starting ∨ lpPhase l = Polling → lpCancelled l = true → step l (stopAdmitting l)
| step_drain l rq rest :
    lpPhase l = Draining → lpQueue l = rq :: rest →
    step l (setQueue rest (reply rq (stoppingReply rq) l))
| step_done l :
    lpPhase l = Draining → lpQueue l = [] → step l (setPhase Stopped l).

Inductive reachable (s : Worker * E) : Loop → Prop :=
| reach_new : reachable s (New_ s)
| reach_step l l' : reachable s l → step l l' → reachable s l'.

(** ** Invariant *)

Record loop_ok (l : Loop) : Prop := {
  lo_bound : (length (lpQueue l) ≤ CommandQueueCapacity)%nat;
  lo_fifo : map fst (lpReplies l) ++ map crTicket (lpQueue l) = lpAdmitted l;
  lo_nodup : NoDup (lpAdmitted l);
  lo_stopping : lpStopping l = true ↔ lpPhase l = Draining ∨ lpPhase l = Stopped;
  lo_stopped : lpPhase l = Stopped → lpQueue l = [];
  lo_ready : lpReady l = None ↔ lpPhase l = Starting
}.

Lemma New_ok_ s : loop_ok (New_ s).
Proof. split; simpl; first [done|apply NoDup_nil_2|unfold CommandQueueCapacity; lia|intuition discriminate]. Qed.

Lemma TrySubmit_ok ticket command l :
  loop_ok l → ticket ∉ lpAdmitted l → loop_ok (TrySubmit ticket command l).2.
Proof.
  intros Hok Ht. pose proof Hok as [Hb Hf Hn Hs Hst Hr].
  unfold TrySubmit. destruct (lpStopping l) eqn:E0; [done|].
  destruct (length (lpQueue l) <? CommandQueueCapacity)%nat eqn:Hlen; [|done].
  apply Nat.ltb_lt in Hlen. split; simpl; rewrite ?E0; try done.
  - rewrite length_app. simpl. lia.
  - rewrite map_app, app_assoc, Hf. done.
  - apply NoDup_app. split_and!; [done|set_solver|apply NoDup_singleton].
  - intros Hp. exfalso. assert (false = true); [|done]. apply Hs. auto.
Qed.

(** The rounds that answer the first request of the queue. *)
Lemma answer_ok l l' rq rest r :
  loop_ok l → lpQueue l = rq :: rest → lpQueue l' = rest → lpPhase l' = lpPhase l →
  lpStopping l' = lpStopping l → lpReady l' = lpReady l → lpAdmitted l' = lpAdmitted l →
  lpReplies l' = lpReplies l ++ [(crTicket rq, r)] → loop_ok l'.
Proof.
  intros [Hb Hf Hn Hs Hst Hr] Hq Hq' Hp Hs' Hr' Ha Hre. rewrite Hq in *.
  split; rewrite ?Hq', ?Hp, ?Hs', ?Hr', ?Ha, ?Hre; try done.
  - simpl in Hb. lia.
  - rewrite <-Hf, map_app, <-app_assoc. done.
  - intros Hf'. by apply Hst in Hf'.
Qed.

Lemma step_ok l l' : loop_ok l → step l l' → loop_ok l'.
Proof.
  intros Hok Hstep. destruct Hstep.
  - by apply TrySubmit_ok.
  - by destruct Hok.
  - by destruct Hok.
  - unfold start. destruct (readAll (lpState l)) as [[values err] s].
    destruct Hok as [Hb Hf Hn Hs Hst Hr]. split; simpl; try done. rewrite Hs. intuition congruence.
  - unfold handleCommand. destruct (executeCommand _ _) as [r s'].
    by eapply (answer_ok l).
  - unfold tick. destruct (readAll (lpState l)) as [[values err] s]. by destruct Hok.
  - destruct Hok as [Hb Hf Hn Hs Hst Hr]. split; simpl; try done; [intuition|].
    destruct (lpReady l); intuition discriminate.
  - by eapply (answer_ok l).
  - destruct Hok as [Hb Hf Hn Hs Hst Hr]. split; simpl; try done.
    + rewrite Hs. intuition congruence.
    + rewrite Hr. intuition congruence.
Qed.

Lemma reachable_ok s l : reachable s l → loop_ok l.
Proof. induction 1; [apply New_ok_|by eapply step_ok]. Qed.

(** ** Shutdown *)

Inductive steps : Loop → Loop → Prop :=
| steps_refl l : steps l l
| steps_step l1 l2 l3 : step l1 l2 → steps l2 l3 → steps l1 l3.

Lemma steps_trans l1 l2 l3 : steps l1 l2 → steps l2 l3 → steps l1 l3.
Proof. intros H1 H2. induction H1; [done|]. eapply steps_step; eauto. Qed.

Lemma reachable_steps s l l' : reachable s l → steps l l' → reachable s l'.
Proof. intros Hr. induction 1; [done|]. apply IHsteps. by eapply reach_step. Qed.

Lemma rejectQueued_steps l queue :
  lpPhase l = Draining → lpQueue l = queue →
  steps l (rejectQueued queue l) ∧ lpPhase (rejectQueued queue l) = Draining ∧
  lpQueue (rejectQueued queue l) = [].
Proof.
  revert l. induction queue as [|rq rest IH]; intros l Hp Hq; simpl.
  - split_and!; [|done|done]. destruct l; simpl in *. subst. apply steps_refl.
  - destruct (IH (setQueue rest (reply rq (stoppingReply rq) l))) as (Hs & ? & ?); [done|done|].
    split_and!; [|done|done]. eapply steps_step; [by eapply step_drain|done].
Qed.

Lemma rejectQueued_replies queue l :
  lpReplies (rejectQueued queue l) =
    lpReplies l ++ map (fun rq => (crTicket rq, stoppingReply rq)) queue ∧
  lpAdmitted (rejectQueued queue l) = lpAdmitted l.
Proof.
  revert l. induction queue as [|rq rest IH]; intros l; simpl; [by rewrite app_nil_r|].
  destruct (IH (setQueue rest (reply rq (stoppingReply rq) l))) as [-> ->]. simpl.
  by rewrite <-app_assoc.
Qed.
End loop.
