(* ===== verification/PlcContract.v ===== *)
(** * The private PLC contract: [internal/plccontract/types.go]

    The snapshot, command and fault records that the agent, its storage and the
    simulator exchange, and the idempotency identity of a command:
    [NormalizeCommand] and [CommandFingerprint].  The digest (SHA-256 of the
    canonical JSON, in hex) is a parameter: only its input is the program's. *)

From Stdlib Require Import Ascii String.
From S2P Require Import Prelude GoText.

(** ** Data *)

Definition SchemaVersion : string := "block-plc-private/v1".

Record Bin := mkBin { binID : string; binQuantity : Z; binCapacity : Z; binStatus_ : string }.

Record Alarm := mkAlarm {
  alAlarmID : string;
  alCode : string;
  alLevel : string;
  alText : string;
  alActive : bool;
  alOccurredAt : Z;
  alClearedAt : option Z;
  alAcknowledged : bool
}.

Record Points := mkPoints {
  ptControlRevision : Z;
  ptRunning : bool;
  ptMode : string;
  ptSinglePaused : bool;
  ptFramePaused : bool;
  ptSafetyReady : bool;
  ptEmergencyStop : bool;
  ptGuardDoorClosed : bool;
  ptPLCConnected : bool;
  ptTarget : Z;
  ptOutput : Z;
  ptCycleSeconds : Z;
  ptInspected : Z;
  ptPassed : Z;
  ptNG : Z;
  ptPending : Z;
  ptBlank : Z;
  ptFinished : Z;
  ptToolUsed : Z;
  ptToolLimit : Z;
  ptInspectInterval : Z;
  ptBins : list Bin;
  ptAlarms : list Alarm
}.

Record Snapshot := mkSnapshot {
  ssSchemaVersion : string;
  ssSimulatorSessionID : string;
  ssSampleSequence : Z;
  ssGeneratedAt : Z;
  ssQuality : string;
  ssPoints : Points
}.

Record Settings := mkSettings { stTarget : Z; stToolLimit : Z; stInspectInterval : Z }.

Record Command := mkCommand {
  cmCommandID : string;
  cmName : string;
  cmExpectedControlRevision : option Z;
  cmMode : string;
  cmPaused : option bool;
  cmSettings : option Settings;
  cmAlarmID : string
}.

Definition QualityGood : string := "GOOD".
Definition QualityUncertain : string := "UNCERTAIN".
Definition QualityBad : string := "BAD".

Definition CommandExecuted : string := "EXECUTED".
Definition CommandRejected : string := "REJECTED".
Definition CommandFailed : string := "FAILED".
Definition CommandUnknown : string := "UNKNOWN".
Definition CommandPending : string := "PENDING".

Record CommandResult := mkCommandResult {
  crCommandID : string;
  crName : string;
  crStatus : string;
  crCode : string;
  crReason : string;
  crSimulationOnly : bool;
  crControlRevision : Z;
  crSnapshot : option Snapshot
}.

Record Faults := mkFaults {
  flPLCDisconnected : bool;
  flResponseDelayMillis : Z;
  flFreezeData : bool;
  flForcedQuality : string;
  flEmergencyStop : bool;
  flGuardDoorOpen : bool;
  flSevereAlarm : bool;
  flRejectCommands : bool;
  flFailCommands : bool;
  flAppliedResponseTimeout : bool
}.

Record FaultRequest := mkFaultRequest {
  frFault : string;
  frEnabled : option bool;
  frDelayMillis : option Z;
  frQuality : string
}.

#[global] Instance Bin_eq_dec : EqDecision Bin. Proof. solve_decision. Defined.
#[global] Instance Alarm_eq_dec : EqDecision Alarm. Proof. solve_decision. Defined.
#[global] Instance Points_eq_dec : EqDecision Points. Proof. solve_decision. Defined.
#[global] Instance Snapshot_eq_dec : EqDecision Snapshot. Proof. solve_decision. Defined.
#[global] Instance Settings_eq_dec : EqDecision Settings. Proof. solve_decision. Defined.
#[global] Instance Command_eq_dec : EqDecision Command. Proof. solve_decision. Defined.
#[global] Instance CommandResult_eq_dec : EqDecision CommandResult. Proof. solve_decision. Defined.

(** ** Operations *)

Definition NormalizeCommand (c : Command) : Command :=
  mkCommand (trimSpace (cmCommandID c)) (trimSpace (cmName c)) (cmExpectedControlRevision c)
    (trimSpace (cmMode c)) (cmPaused c) (cmSettings c) (trimSpace (cmAlarmID c)).

(** The canonical struct that is marshalled and hashed. *)
Record canonical := mkCanonical {
  caName : string;
  caExpectedControlRevision : option Z;
  caMode : string;
  caPaused : option bool;
  caSettings : option Settings;
  caAlarmID : string
}.

Section fingerprint.
Variable (digest : canonical → string).

Definition CommandFingerprint (c : Command) : string :=
  let command := NormalizeCommand c in
  digest (mkCanonical (cmName command) (cmExpectedControlRevision command) (cmMode command)
            (cmPaused command) (cmSettings command) (cmAlarmID command)).
End fingerprint.

(** ** Trimming is idempotent *)

Lemma NormalizeCommand_idem c : NormalizeCommand (NormalizeCommand c) = NormalizeCommand c.
Proof. unfold NormalizeCommand. simpl. by rewrite !trimSpace_idem. Qed.
