(* ===== verification/PlcSim.v ===== *)
(** * The PLC simulator's engine: [internal/plcsim/engine.go]

    The engine's state is [persistedState]; [Engine] adds the state file, whose
    atomic replacement ([persist]: temporary file, sync, rename) either happens
    or leaves the old file.  An operation takes from outside what it reads
    there: the clock's instant [now], the fresh session id, and the error
    [io], if any, that the file system gives to its one [persist].  Counters are
    integers: they grow by one per simulated cycle.  The theorems cover the
    production counters, the safety interlock, command idempotency across
    restarts, and that the engine never shows a state it has not saved. *)

From S2P Require Import Prelude GoValue PlcContract.

(** ** Data *)

(** The fields of [config.Simulator] that the engine reads. *)
Record Simulator := mkSimulator {
  cfSeed : Z;
  cfPassRate : spec_float;
  cfFaultInjectionEnabled : bool;
  cfBinCapacities : list Z;
  cfInitialTarget : Z;
  cfInitialCycleSeconds : Z;
  cfInitialToolLimit : Z;
  cfInitialInspectInterval : Z
}.

Definition capacity (cfg : Simulator) (i : nat) : Z := nth i (cfBinCapacities cfg) 0.

Record processedCommand := mkProcessed { pcFingerprint : string; pcResult : CommandResult }.

Record persistedState := mkPersisted {
  psSchemaVersion : Z;
  psSessionID : string;
  psSampleSequence : Z;
  psGeneratedAt : Z;
  psNextProductionAt : Z;
  psRejectBin : Z;
  psPoints : Points;
  psFaults : Faults;
  psProcessed : gmap string processedCommand
}.

Definition persistenceSchemaVersion : Z := 2.

(** The state file: missing, unreadable, not a state, or a state. *)
Inductive stateFile : Type :=
| FileMissing | FileUnreadable | FileCorrupt | FileState (s : persistedState).

Record Engine := mkEngine { enState : persistedState; enFile : stateFile }.

Inductive sim_error : Type :=
| SimText (s : string)
| SimRead | SimDecode
| SimSessionID
| SimPersist (e : string).

(** ** Field updates *)

Definition setRunning (vRunning : bool) (p : Points) : Points :=
  mkPoints (ptControlRevision p) vRunning (ptMode p) (ptSinglePaused p) (ptFramePaused p)
    (ptSafetyReady p) (ptEmergencyStop p) (ptGuardDoorClosed p) (ptPLCConnected p)
    (ptTarget p) (ptOutput p) (ptCycleSeconds p) (ptInspected p) (ptPassed p) (ptNG p)
    (ptPending p) (ptBlank p) (ptFinished p) (ptToolUsed p) (ptToolLimit p)
    (ptInspectInterval p) (ptBins p) (ptAlarms p).

Definition setMode (vMode : string) (p : Points) : Points :=
  mkPoints (ptControlRevision p) (ptRunning p) vMode (ptSinglePaused p) (ptFramePaused p)
    (ptSafetyReady p) (ptEmergencyStop p) (ptGuardDoorClosed p) (ptPLCConnected p)
    (ptTarget p) (ptOutput p) (ptCycleSeconds p) (ptInspected p) (ptPassed p) (ptNG p)
    (ptPending p) (ptBlank p) (ptFinished p) (ptToolUsed p) (ptToolLimit p)
    (ptInspectInterval p) (ptBins p) (ptAlarms p).

Definition setPauses (vSinglePaused : bool) (vFramePaused : bool) (p : Points) : Points :=
  mkPoints (ptControlRevision p) (ptRunning p) (ptMode p) vSinglePaused vFramePaused
    (ptSafetyReady p) (ptEmergencyStop p) (ptGuardDoorClosed p) (ptPLCConnected p)
    (ptTarget p) (ptOutput p) (ptCycleSeconds p) (ptInspected p) (ptPassed p) (ptNG p)
    (ptPending p) (ptBlank p) (ptFinished p) (ptToolUsed p) (ptToolLimit p)
    (ptInspectInterval p) (ptBins p) (ptAlarms p).

Definition setLink (vRunning : bool) (vSafetyReady : bool) (vEmergencyStop : bool) (vGuardDoorClosed : bool) (vPLCConnected : bool) (p : Points) : Points :=
  mkPoints (ptControlRevision p) vRunning (ptMode p) (ptSinglePaused p) (ptFramePaused p)
    vSafetyReady vEmergencyStop vGuardDoorClosed vPLCConnected (ptTarget p) (ptOutput p)
    (ptCycleSeconds p) (ptInspected p) (ptPassed p) (ptNG p) (ptPending p) (ptBlank p)
    (ptFinished p) (ptToolUsed p) (ptToolLimit p) (ptInspectInterval p) (ptBins p)
    (ptAlarms p).

Definition setCounts (vOutput : Z) (vInspected : Z) (vPassed : Z) (vNG : Z) (vPending : Z) (p : Points) : Points :=
  mkPoints (ptControlRevision p) (ptRunning p) (ptMode p) (ptSinglePaused p) (ptFramePaused p)
    (ptSafetyReady p) (ptEmergencyStop p) (ptGuardDoorClosed p) (ptPLCConnected p)
    (ptTarget p) vOutput (ptCycleSeconds p) vInspected vPassed vNG vPending (ptBlank p)
    (ptFinished p) (ptToolUsed p) (ptToolLimit p) (ptInspectInterval p) (ptBins p)
    (ptAlarms p).

Definition setStock (vBlank : Z) (vFinished : Z) (p : Points) : Points :=
  mkPoints (ptControlRevision p) (ptRunning p) (ptMode p) (ptSinglePaused p) (ptFramePaused p)
    (ptSafetyReady p) (ptEmergencyStop p) (ptGuardDoorClosed p) (ptPLCConnected p)
    (ptTarget p) (ptOutput p) (ptCycleSeconds p) (ptInspected p) (ptPassed p) (ptNG p)
    (ptPending p) vBlank vFinished (ptToolUsed p) (ptToolLimit p) (ptInspectInterval p)
    (ptBins p) (ptAlarms p).

Definition setToolUsed (vToolUsed : Z) (p : Points) : Points :=
  mkPoints (ptControlRevision p) (ptRunning p) (ptMode p) (ptSinglePaused p) (ptFramePaused p)
    (ptSafetyReady p) (ptEmergencyStop p) (ptGuardDoorClosed p) (ptPLCConnected p)
    (ptTarget p) (ptOutput p) (ptCycleSeconds p) (ptInspected p) (ptPassed p) (ptNG p)
    (ptPending p) (ptBlank p) (ptFinished p) vToolUsed (ptToolLimit p) (ptInspectInterval
    p) (ptBins p) (ptAlarms p).

Definition setSettings (vTarget : Z) (vToolLimit : Z) (vInspectInterval : Z) (p : Points) : Points :=
  mkPoints (ptControlRevision p) (ptRunning p) (ptMode p) (ptSinglePaused p) (ptFramePaused p)
    (ptSafetyReady p) (ptEmergencyStop p) (ptGuardDoorClosed p) (ptPLCConnected p) vTarget
    (ptOutput p) (ptCycleSeconds p) (ptInspected p) (ptPassed p) (ptNG p) (ptPending p)
    (ptBlank p) (ptFinished p) (ptToolUsed p) vToolLimit vInspectInterval (ptBins p)
    (ptAlarms p).

Definition setRevision (vControlRevision : Z) (p : Points) : Points :=
  mkPoints vControlRevision (ptRunning p) (ptMode p) (ptSinglePaused p) (ptFramePaused p)
    (ptSafetyReady p) (ptEmergencyStop p) (ptGuardDoorClosed p) (ptPLCConnected p)
    (ptTarget p) (ptOutput p) (ptCycleSeconds p) (ptInspected p) (ptPassed p) (ptNG p)
    (ptPending p) (ptBlank p) (ptFinished p) (ptToolUsed p) (ptToolLimit p)
    (ptInspectInterval p) (ptBins p) (ptAlarms p).

Definition setBins (vBins : list Bin) (p : Points) : Points :=
  mkPoints (ptControlRevision p) (ptRunning p) (ptMode p) (ptSinglePaused p) (ptFramePaused p)
    (ptSafetyReady p) (ptEmergencyStop p) (ptGuardDoorClosed p) (ptPLCConnected p)
    (ptTarget p) (ptOutput p) (ptCycleSeconds p) (ptInspected p) (ptPassed p) (ptNG p)
    (ptPending p) (ptBlank p) (ptFinished p) (ptToolUsed p) (ptToolLimit p)
    (ptInspectInterval p) vBins (ptAlarms p).

Definition setAlarms (vAlarms : list Alarm) (p : Points) : Points :=
  mkPoints (ptControlRevision p) (ptRunning p) (ptMode p) (ptSinglePaused p) (ptFramePaused p)
    (ptSafetyReady p) (ptEmergencyStop p) (ptGuardDoorClosed p) (ptPLCConnected p)
    (ptTarget p) (ptOutput p) (ptCycleSeconds p) (ptInspected p) (ptPassed p) (ptNG p)
    (ptPending p) (ptBlank p) (ptFinished p) (ptToolUsed p) (ptToolLimit p)
    (ptInspectInterval p) (ptBins p) vAlarms.

Definition withPoints (vPoints : Points) (s : persistedState) : persistedState :=
  mkPersisted (psSchemaVersion s) (psSessionID s) (psSampleSequence s) (psGeneratedAt s)
    (psNextProductionAt s) (psRejectBin s) vPoints (psFaults s) (psProcessed s).

Definition withFaults (vFaults : Faults) (s : persistedState) : persistedState :=
  mkPersisted (psSchemaVersion s) (psSessionID s) (psSampleSequence s) (psGeneratedAt s)
    (psNextProductionAt s) (psRejectBin s) (psPoints s) vFaults (psProcessed s).

Definition withRejectBin (vRejectBin : Z) (s : persistedState) : persistedState :=
  mkPersisted (psSchemaVersion s) (psSessionID s) (psSampleSequence s) (psGeneratedAt s)
    (psNextProductionAt s) vRejectBin (psPoints s) (psFaults s) (psProcessed s).

Definition withNext (vNextProductionAt : Z) (s : persistedState) : persistedState :=
  mkPersisted (psSchemaVersion s) (psSessionID s) (psSampleSequence s) (psGeneratedAt s)
    vNextProductionAt (psRejectBin s) (psPoints s) (psFaults s) (psProcessed s).

Definition withGenerated (vGeneratedAt : Z) (s : persistedState) : persistedState :=
  mkPersisted (psSchemaVersion s) (psSessionID s) (psSampleSequence s) vGeneratedAt
    (psNextProductionAt s) (psRejectBin s) (psPoints s) (psFaults s) (psProcessed s).

Definition withSession (vSessionID : string) (s : persistedState) : persistedState :=
  mkPersisted (psSchemaVersion s) vSessionID (psSampleSequence s) (psGeneratedAt s)
    (psNextProductionAt s) (psRejectBin s) (psPoints s) (psFaults s) (psProcessed s).

Definition withSequence (vSampleSequence : Z) (s : persistedState) : persistedState :=
  mkPersisted (psSchemaVersion s) (psSessionID s) vSampleSequence (psGeneratedAt s)
    (psNextProductionAt s) (psRejectBin s) (psPoints s) (psFaults s) (psProcessed s).

Definition withProcessed (vProcessed : gmap string processedCommand) (s : persistedState) : persistedState :=
  mkPersisted (psSchemaVersion s) (psSessionID s) (psSampleSequence s) (psGeneratedAt s)
    (psNextProductionAt s) (psRejectBin s) (psPoints s) (psFaults s) vProcessed.

Definition onPoints (f : Points → Points) (s : persistedState) : persistedState :=
  withPoints (f (psPoints s)) s.

(** ** Counters, bins and the interlock *)

Definition validateCounters (p : Points) : result string unit :=
  if (ptOutput p <? 0) || (ptInspected p <? 0) || (ptPassed p <? 0) || (ptNG p <? 0)
  then Err "production counters must not be negative"%string
  else if ptOutput p <? ptInspected p then Err "inspected count exceeds produced output"%string
  else if negb (ptPassed p + ptNG p =? ptInspected p) then Err "passed plus NG must equal inspected"%string
  else if negb (ptPending p =? ptOutput p - ptInspected p)
  then Err "pending count must equal output minus inspected"%string
  else Ok tt.

Definition binStatus (quantity cap : Z) : string :=
  if quantity <=? 0 then "empty"
  else if cap <=? quantity then "full"
  else if i64 (cap * 80) <=? i64 (quantity * 100) then "warning"
  else "normal".

Definition simulationOnly (name : string) : bool :=
  (name =s "clear_bins") || (name =s "update_settings") || (name =s "acknowledge_alarm").

Definition canProduce (p : Points) : bool :=
  ptPLCConnected p && ptRunning p && (ptMode p =s "auto") && negb (ptSinglePaused p) &&
  negb (ptFramePaused p) && ptSafetyReady p && negb (ptEmergencyStop p) && ptGuardDoorClosed p.

Definition deterministicPass (seed index : Z) (passRate : spec_float) : bool :=
  let value := u64 (u64 seed + u64 (index * 0x9e3779b97f4a7c15)) in
  let value := Z.lxor value (Z.shiftr value 30) in
  let value := u64 (value * 0xbf58476d1ce4e5b9) in
  let value := Z.lxor value (Z.shiftr value 27) in
  let value := u64 (value * 0x94d049bb133111eb) in
  let value := Z.lxor value (Z.shiftr value 31) in
  f64_ltb (SFdiv prec64 emax64 (f64_of_Z (value mod 1000000)) (f64_of_Z 1000000)) passRate.

Definition applyFaultState (s : persistedState) : persistedState :=
  let f := psFaults s in
  let connected := negb (flPLCDisconnected f) in
  let stop := flEmergencyStop f in
  let guard := negb (flGuardDoorOpen f) in
  let ready := connected && negb stop && guard in
  onPoints (fun p => setLink (if negb ready then false else ptRunning p) ready stop guard connected p) s.

(** The alarm shown under an id: the one already there, or a new one. *)
Definition addAlarm (generatedAt : Z) (previous : gmap string Alarm) (active : bool)
    (id code level text : string) (alarms : list Alarm) : list Alarm :=
  if negb active then alarms
  else
    let item := default (mkAlarm id code level text false generatedAt None false) (previous !! id) in
    alarms ++ [mkAlarm (alAlarmID item) (alCode item) (alLevel item) (alText item) true
                 (alOccurredAt item) None (alAcknowledged item)].

(** Later entries of the list replace earlier ones, as the loop that builds the map does. *)
Definition alarmMap (alarms : list Alarm) : gmap string Alarm :=
  foldl (fun m item => <[alAlarmID item := item]> m) ∅ alarms.

Definition refreshDerived (cfg : Simulator) (s : persistedState) : persistedState :=
  let p := psPoints s in
  let bin id quantity i := mkBin id quantity (capacity cfg i) (binStatus quantity (capacity cfg i)) in
  let finishedStatus := binStatus (ptFinished p) (capacity cfg 1) in
  let reject := bin "BIN-03"%string (psRejectBin s) 2%nat in
  let bins :=
    [bin "BIN-01"%string (ptBlank p) 0%nat; bin "BIN-02"%string (ptFinished p) 1%nat;
     if flSevereAlarm (psFaults s)
     then mkBin (binID reject) (binQuantity reject) (binCapacity reject) "fault" else reject] in
  let previous := alarmMap (ptAlarms p) in
  let add := addAlarm (psGeneratedAt s) previous in
  let alarms := add (ptEmergencyStop p) "9001" "E_STOP" "danger" "急停已激活" [] in
  let alarms := add (negb (ptGuardDoorClosed p)) "9002" "GUARD_DOOR" "danger" "安全门已打开" alarms in
  let alarms := add (ptToolLimit p <=? ptToolUsed p) "1001" "TOOL_LIMIT" "warning"
                  "刀具使用次数达到上限" alarms in
  let alarms := add ((finishedStatus =s "warning") || (finishedStatus =s "full")) "2001"
                  "FINISHED_BIN" "warning" "成品料仓接近或达到容量" alarms in
  let alarms := add (flSevereAlarm (psFaults s)) "9999" "SIM_SEVERE" "danger" "模拟严重报警" alarms in
  onPoints (fun p => setAlarms alarms (setBins bins p)) s.

Definition snapshotOf (s : persistedState) : Snapshot :=
  let quality := if negb (ptPLCConnected (psPoints s)) then QualityBad else QualityGood in
  let quality := if flForcedQuality (psFaults s) <>s "" then flForcedQuality (psFaults s) else quality in
  mkSnapshot SchemaVersion (psSessionID s) (psSampleSequence s) (psGeneratedAt s) quality (psPoints s).

(** ** Production *)

Definition hasProductionCapacity (cfg : Simulator) (s : persistedState) : bool :=
  let p := psPoints s in
  (ptOutput p <? ptTarget p) && (0 <? ptBlank p) && (ptFinished p <? capacity cfg 1) &&
  (psRejectBin s <? capacity cfg 2).

Definition inspectOne (cfg : Simulator) (fromFinishedBin : bool) (s : persistedState) : persistedState :=
  let p := psPoints s in
  let inspected := ptInspected p + 1 in
  let pending := ptOutput p - inspected in
  if deterministicPass (cfSeed cfg) (u64 inspected) (cfPassRate cfg) then
    withPoints (setStock (ptBlank p) (if negb fromFinishedBin then ptFinished p + 1 else ptFinished p)
      (setCounts (ptOutput p) inspected (ptPassed p + 1) (ptNG p) pending p)) s
  else
    withRejectBin (psRejectBin s + 1)
      (withPoints (setStock (ptBlank p)
         (if fromFinishedBin && (0 <? ptFinished p) then ptFinished p - 1 else ptFinished p)
         (setCounts (ptOutput p) inspected (ptPassed p) (ptNG p + 1) pending p)) s).

(** The three parts of [produceOne]: one more item made, its place, the pending count. *)
Definition countProduced (s : persistedState) : persistedState :=
  onPoints (fun p => setStock (ptBlank p - 1) (ptFinished p) (setToolUsed (ptToolUsed p + 1)
    (setCounts (ptOutput p + 1) (ptInspected p) (ptPassed p) (ptNG p) (ptPending p) p))) s.

Definition placeProduced (cfg : Simulator) (s : persistedState) : persistedState :=
  let p := psPoints s in
  if (0 <? ptInspectInterval p) && (Z.rem (ptOutput p) (ptInspectInterval p) =? 0)
  then inspectOne cfg false s
  else onPoints (fun p => setStock (ptBlank p) (ptFinished p + 1) p) s.

Definition updatePending (s : persistedState) : persistedState :=
  onPoints (fun p => setCounts (ptOutput p) (ptInspected p) (ptPassed p) (ptNG p)
                       (ptOutput p - ptInspected p) p) s.

Definition produceOne (cfg : Simulator) (s : persistedState) : persistedState :=
  updatePending (placeProduced cfg (countProduced s)).

(** The condition of the loop of [Tick]. *)
Definition dueForProduction (cfg : Simulator) (s : persistedState) : bool :=
  negb (psGeneratedAt s <? psNextProductionAt s) && canProduce (psPoints s) &&
  hasProductionCapacity cfg s.

(** The loop; each round produces one item, so [Target - Output] rounds suffice. *)
Fixpoint produceLoop (fuel : nat) (cfg : Simulator) (cycle : Z) (s : persistedState) : persistedState :=
  match fuel with
  | O => s
  | S fuel' =>
      if dueForProduction cfg s then
        let s' := produceOne cfg s in
        produceLoop fuel' cfg cycle (withNext (psNextProductionAt s' + cycle) s')
      else s
  end.

Definition produceDue (cfg : Simulator) (cycle : Z) (s : persistedState) : persistedState :=
  produceLoop (Z.to_nat (ptTarget (psPoints s) - ptOutput (psPoints s))) cfg cycle s.

Definition cycleOf (p : Points) : Z := i64 (ptCycleSeconds p * second).

(** ** Operations *)

(** [persist] and the assignment that follows it: on an error neither the file
    nor the engine changes. *)
Definition commit {A} (io : option string) (candidate : persistedState) (a : A) (e : Engine)
    : result sim_error A * Engine :=
  match io with
  | Some err => (Err (SimPersist err), e)
  | None => (Ok a, mkEngine candidate (FileState candidate))
  end.

Definition fail {A} (text : string) (e : Engine) : result sim_error A * Engine :=
  (Err (SimText text), e).

Definition initialState (cfg : Simulator) (now : Z) (sessionID : string) : persistedState :=
  let points := mkPoints 1 false "auto" false false true false true true (cfInitialTarget cfg) 0
    (cfInitialCycleSeconds cfg) 0 0 0 0 (capacity cfg 0) 0 0 (cfInitialToolLimit cfg)
    (cfInitialInspectInterval cfg) [] [] in
  refreshDerived cfg
    (mkPersisted persistenceSchemaVersion sessionID 0 now zeroTime 0 points
       (mkFaults false 0 false "" false false false false false false) ∅).

Definition validatePersisted (cfg : Simulator) (s : persistedState) : result string unit :=
  let p := psPoints s in
  if negb (psSchemaVersion s =? persistenceSchemaVersion) then Err "unsupported schema version"%string
  else if (psSessionID s =s "") || isZero (psGeneratedAt s) || (ptControlRevision p =? 0)
  then Err "session id, generated timestamp and control revision are required"%string
  else if ptCycleSeconds p <=? 0 then Err "cycleSeconds must be positive"%string
  else if (ptTarget p <=? 0) || (ptToolLimit p <=? 0) || (ptInspectInterval p <=? 0)
  then Err "target, toolLimit and inspectInterval must be positive"%string
  else if (ptMode p <>s "auto") && (ptMode p <>s "manual") then Err "unsupported persisted mode"%string
  else if (ptToolUsed p <? 0) || (ptBlank p <? 0) || (ptFinished p <? 0)
  then Err "tool and bin counters must not be negative"%string
  else if negb (length (cfBinCapacities cfg) =? 3)%nat || (capacity cfg 0 <? ptBlank p) ||
          (capacity cfg 1 <? ptFinished p)
  then Err "persisted bin quantity is outside configured capacity"%string
  else
    let? _ := validateCounters p in
    if (psRejectBin s <? 0) || (capacity cfg 2 <? psRejectBin s)
    then Err "reject bin quantity is outside configured capacity"%string
    else Ok tt.

(** [Open]: the file found, the instant, and the outcome of [newSessionID]. *)
Definition Open (cfg : Simulator) (file : stateFile) (now : Z) (sessionID : option string)
    (io : option string) : result sim_error Engine :=
  let ready state :=
    let state := refreshDerived cfg (applyFaultState state) in
    match io with
    | Some err => Err (SimPersist err)
    | None => Ok (mkEngine state (FileState state))
    end in
  match file with
  | FileMissing =>
      match sessionID with
      | None => Err SimSessionID
      | Some id => ready (initialState cfg now id)
      end
  | FileUnreadable => Err SimRead
  | FileCorrupt => Err SimDecode
  | FileState state =>
      match validatePersisted cfg state with
      | Err text => Err (SimText text)
      | Ok _ =>
          match sessionID with
          | None => Err SimSessionID
          | Some id =>
              let state := withGenerated now (withSession id state) in
              ready (if canProduce (psPoints state)
                     then withNext (now + cycleOf (psPoints state)) state else state)
          end
      end
  end.

Definition Tick (cfg : Simulator) (now : Z) (io : option string) (e : Engine)
    : result sim_error Snapshot * Engine :=
  if flFreezeData (psFaults (enState e)) then (Ok (snapshotOf (enState e)), e)
  else
    let s := enState e in
    let s := applyFaultState (withGenerated now (withSequence (u64 (psSampleSequence s + 1)) s)) in
    let cycle := cycleOf (psPoints s) in
    let s :=
      if negb (canProduce (psPoints s)) || negb (hasProductionCapacity cfg s) then withNext zeroTime s
      else produceDue cfg cycle
             (if isZero (psNextProductionAt s) then withNext (psGeneratedAt s + cycle) s else s) in
    match validateCounters (psPoints s) with
    | Err text => fail text e
    | Ok _ =>
        let s := refreshDerived cfg s in
        commit io s (snapshotOf s) e
    end.

Section commands.
(** The digest of a command's canonical form, and [strconv.Quote] in a reason. *)
Variables (digest : canonical → string) (quote : string → string).

(** A candidate, or the code and reason of the rejection. *)
Definition applyCommand (cfg : Simulator) (command : Command) (s : persistedState)
    : result (string * string) persistedState :=
  let p := psPoints s in
  let reject (code reason : string) := Err (code, reason) in
  let name := cmName command in
  if name =s "start" then
    if ptEmergencyStop p || negb (ptGuardDoorClosed p) || negb (ptSafetyReady p)
    then reject "safety_interlock"%string "start rejected by safety interlock"%string
    else Ok (onPoints (setRunning true) s)
  else if name =s "pause" then Ok (onPoints (setRunning false) s)
  else if name =s "reset" then
    Ok (withRejectBin 0
          (onPoints (fun p => setStock (capacity cfg 0) 0 (setToolUsed 0 (setCounts 0 0 0 0 0
             (setPauses false false (setRunning false p))))) s))
  else if name =s "set_mode" then
    if (cmMode command <>s "auto") && (cmMode command <>s "manual")
    then reject "command_rejected"%string "mode must be auto or manual"%string
    else Ok (onPoints (setMode (cmMode command)) s)
  else if name =s "set_single_paused" then
    match cmPaused command with
    | None => reject "command_rejected"%string "paused is required"%string
    | Some b => Ok (onPoints (fun p => setPauses b (ptFramePaused p) p) s)
    end
  else if name =s "set_frame_paused" then
    match cmPaused command with
    | None => reject "command_rejected"%string "paused is required"%string
    | Some b => Ok (onPoints (fun p => setPauses (ptSinglePaused p) b p) s)
    end
  else if name =s "inspect" then
    if ptOutput p <=? ptInspected p
    then reject "command_rejected"%string "no produced item is pending inspection"%string
    else Ok (inspectOne cfg true s)
  else if name =s "clear_bins" then Ok (withRejectBin 0 (onPoints (setStock 0 0) s))
  else if name =s "update_settings" then
    let required := reject "command_rejected"%string
      "positive target, toolLimit and inspectInterval are required"%string in
    match cmSettings command with
    | None => required
    | Some st =>
        if (stTarget st <? 1) || (stToolLimit st <? 1) || (stInspectInterval st <? 1) then required
        else Ok (onPoints (setSettings (stTarget st) (stToolLimit st) (stInspectInterval st)) s)
    end
  else if name =s "acknowledge_alarm" then
    let matches item := (alAlarmID item =s cmAlarmID command) && alActive item in
    let acknowledge item :=
      if matches item then
        mkAlarm (alAlarmID item) (alCode item) (alLevel item) (alText item) (alActive item)
          (alOccurredAt item) (alClearedAt item) true
      else item in
    if existsb matches (ptAlarms p)
    then Ok (onPoints (setAlarms (map acknowledge (ptAlarms p))) s)
    else reject "alarm_not_found"%string "active alarm not found"%string
  else reject "command_rejected"%string (String.append "unsupported command " (quote name)).

Definition revisionConflict (command : Command) (revision : Z) : bool :=
  match cmExpectedControlRevision command with
  | Some expected => negb (expected =? revision)
  | None => false
  end.

(** An accepted command: the revision, the interlock, the next production. *)
Definition afterCommand (cfg : Simulator) (name : string) (now : Z) (s : persistedState)
    : persistedState :=
  let s := applyFaultState
    (withGenerated now (onPoints (setRevision (u64 (ptControlRevision (psPoints s) + 1))) s)) in
  let restarts := (name =s "start") || (name =s "set_mode") || (name =s "set_single_paused") ||
                  (name =s "set_frame_paused") || isZero (psNextProductionAt s) in
  refreshDerived cfg
    (if canProduce (psPoints s)
     then if restarts then withNext (psGeneratedAt s + cycleOf (psPoints s)) s else s
     else withNext zeroTime s).

Definition recordResult (command : Command) (fingerprint : string) (r : CommandResult)
    (io : option string) (e : Engine) : result sim_error CommandResult * Engine :=
  let s := enState e in
  commit io (withProcessed (<[cmCommandID command := mkProcessed fingerprint r]> (psProcessed s)) s) r e.

Definition ApplyCommand (cfg : Simulator) (raw : Command) (now : Z) (io : option string) (e : Engine)
    : result sim_error CommandResult * Engine :=
  let command := NormalizeCommand raw in
  let id := cmCommandID command in
  let name := cmName command in
  if (id =s "") || (128 <? Z.of_nat (String.length id))
  then fail "commandId must contain 1 to 128 characters" e
  else
    let s := enState e in
    let revision := ptControlRevision (psPoints s) in
    let fingerprint := CommandFingerprint digest command in
    match psProcessed s !! id with
    | Some previous =>
        if pcFingerprint previous <>s fingerprint then
          (Ok (mkCommandResult id name CommandRejected "idempotency_conflict"
                 "commandId is already bound to different command content" false revision None), e)
        else (Ok (pcResult previous), e)
    | None =>
        let record only status code reason :=
          recordResult command fingerprint
            (mkCommandResult id name status code reason only revision None) io e in
        if revisionConflict command revision
        then record false CommandRejected "revision_conflict"%string "control revision conflict"%string
        else if flRejectCommands (psFaults s)
        then record false CommandRejected "command_rejected"%string "fault injection rejected command"%string
        else if flFailCommands (psFaults s)
        then record false CommandFailed "command_failed"%string "fault injection failed command"%string
        else if negb (ptPLCConnected (psPoints s))
        then record false CommandRejected "device_unavailable"%string "PLC is disconnected"%string
        else
          match applyCommand cfg command s with
          | Err (code, reason) => record (simulationOnly name) CommandRejected code reason
          | Ok s1 =>
              let s4 := afterCommand cfg name now s1 in
              match validateCounters (psPoints s4) with
              | Err text => fail text e
              | Ok _ =>
                  let r := mkCommandResult id name CommandExecuted "" "" (simulationOnly name)
                             (ptControlRevision (psPoints s4)) (Some (snapshotOf s4)) in
                  let s5 := withProcessed (<[id := mkProcessed fingerprint r]> (psProcessed s4)) s4 in
                  commit io s5 r e
              end
          end
    end.

(** The fault record a request leads to. *)
Definition faultsAfter (f : Faults) (request : FaultRequest) : result string Faults :=
  let enabled := default false (frEnabled request) in
  let fault := frFault request in
  let mk disc delay freeze quality stop guard severe reject failc timeout :=
    Ok (mkFaults disc delay freeze quality stop guard severe reject failc timeout) in
  let '(mkFaults disc delay freeze quality stop guard severe reject failc timeout) := f in
  if fault =s "plc_disconnected" then mk enabled delay freeze quality stop guard severe reject failc timeout
  else if fault =s "freeze_data" then mk disc delay enabled quality stop guard severe reject failc timeout
  else if fault =s "emergency_stop" then mk disc delay freeze quality enabled guard severe reject failc timeout
  else if fault =s "guard_door_open" then mk disc delay freeze quality stop enabled severe reject failc timeout
  else if fault =s "severe_alarm" then mk disc delay freeze quality stop guard enabled reject failc timeout
  else if fault =s "command_reject" then mk disc delay freeze quality stop guard severe enabled failc timeout
  else if fault =s "command_fail" then mk disc delay freeze quality stop guard severe reject enabled timeout
  else if fault =s "applied_response_timeout" then
    mk disc delay freeze quality stop guard severe reject failc enabled
  else if fault =s "response_delay" then
    match frDelayMillis request with
    | Some d => if (d <? 0) || (60000 <? d) then Err "delayMillis must be between 0 and 60000"%string
                else mk disc d freeze quality stop guard severe reject failc timeout
    | None => Err "delayMillis must be between 0 and 60000"%string
    end
  else if fault =s "quality" then
    let q := frQuality request in
    if (q <>s "") && (q <>s QualityGood) && (q <>s QualityUncertain) && (q <>s QualityBad)
    then Err "quality must be GOOD, UNCERTAIN, BAD or empty"%string
    else mk disc delay freeze q stop guard severe reject failc timeout
  else Err (String.append "unsupported fault " (quote fault)).

Definition SetFault (cfg : Simulator) (request : FaultRequest) (now : Z) (io : option string) (e : Engine)
    : result sim_error Snapshot * Engine :=
  if negb (cfFaultInjectionEnabled cfg) then fail "fault injection is disabled" e
  else
    match faultsAfter (psFaults (enState e)) request with
    | Err text => fail text e
    | Ok f =>
        let s := refreshDerived cfg (applyFaultState (withGenerated now (withFaults f (enState e)))) in
        commit io s (snapshotOf s) e
    end.

Definition RestartSession (cfg : Simulator) (now : Z) (sessionID : option string) (io : option string)
    (e : Engine) : result sim_error Snapshot * Engine :=
  if negb (cfFaultInjectionEnabled cfg) then fail "fault injection is disabled" e
  else
    match sessionID with
    | None => (Err SimSessionID, e)
    | Some id =>
        let s := withGenerated now (withSequence 0 (withSession id (enState e))) in
        let s := withNext (if canProduce (psPoints s) then now + cycleOf (psPoints s) else zeroTime) s in
        commit io s (snapshotOf s) e
    end.

Definition ResponseBehavior (e : Engine) : Z * bool :=
  (i64 (flResponseDelayMillis (psFaults (enState e)) * millisecond),
   flAppliedResponseTimeout (psFaults (enState e))).
End commands.
