(* ===== verification/PlcSimProofs.v ===== *)
(** * Properties of the simulator's engine

    The invariant [engine_ok] and its preservation by every operation, the
    production loop's bounds and termination, and the persistence and
    idempotency of commands. *)

From S2P Require Import Prelude GoValue PlcContract PlcSim.

(** What [LoadSimulator] guarantees of a configuration. *)
Record config_ok (cfg : Simulator) : Prop := {
  cf_bins : length (cfBinCapacities cfg) = 3%nat;
  cf_caps : ∀ i, (i < 3)%nat → 1 ≤ capacity cfg i;
  cf_initial : 1 ≤ cfInitialTarget cfg ∧ 1 ≤ cfInitialCycleSeconds cfg ∧
               1 ≤ cfInitialToolLimit cfg ∧ 1 ≤ cfInitialInspectInterval cfg
}.

(** ** Invariant *)

Definition counters_ok (p : Points) : Prop :=
  0 ≤ ptInspected p ≤ ptOutput p ∧ 0 ≤ ptPassed p ∧ 0 ≤ ptNG p ∧
  ptPassed p + ptNG p = ptInspected p ∧ ptPending p = ptOutput p - ptInspected p.

Lemma validateCounters_ok p : validateCounters p = Ok tt ↔ counters_ok p.
Proof.
  unfold validateCounters, counters_ok. split.
  - intros Hv. branches Hv. lia.
  - intros H. repeat (rewrite (proj2 (Z.ltb_ge _ _)) by lia).
    rewrite !(proj2 (Z.eqb_eq _ _)) by lia. done.
Qed.

Lemma validateCounters_unit p r : validateCounters p = Ok r → counters_ok p.
Proof. destruct r. apply validateCounters_ok. Qed.

(** The part of the invariant that the counters and settings make up. *)
Record stock_ok (cfg : Simulator) (s : persistedState) : Prop := {
  so_counts : counters_ok (psPoints s);
  so_positive : 0 < ptTarget (psPoints s) ∧ 0 < ptToolLimit (psPoints s) ∧
                0 < ptInspectInterval (psPoints s) ∧ 0 < ptCycleSeconds (psPoints s);
  so_tool : 0 ≤ ptToolUsed (psPoints s);
  so_blank : 0 ≤ ptBlank (psPoints s) ≤ capacity cfg 0;
  so_finished : 0 ≤ ptFinished (psPoints s) ≤ capacity cfg 1;
  so_reject : 0 ≤ psRejectBin s;
  so_mode : ptMode (psPoints s) = "auto" ∨ ptMode (psPoints s) = "manual"
}.

(** The interlock: the link points follow the faults, and nothing runs unsafely. *)
Record link_ok (s : persistedState) : Prop := {
  lk_connected : ptPLCConnected (psPoints s) = negb (flPLCDisconnected (psFaults s));
  lk_stop : ptEmergencyStop (psPoints s) = flEmergencyStop (psFaults s);
  lk_guard : ptGuardDoorClosed (psPoints s) = negb (flGuardDoorOpen (psFaults s));
  lk_ready : ptSafetyReady (psPoints s) = ptPLCConnected (psPoints s) &&
               negb (ptEmergencyStop (psPoints s)) && ptGuardDoorClosed (psPoints s);
  lk_running : ptRunning (psPoints s) = true → ptSafetyReady (psPoints s) = true
}.

Record identity_ok (s : persistedState) : Prop := {
  id_schema : psSchemaVersion s = persistenceSchemaVersion;
  id_session : psSessionID s ≠ "";
  id_generated : isZero (psGeneratedAt s) = false;
  id_revision : 1 ≤ ptControlRevision (psPoints s) < 2 ^ 64
}.

Record engine_ok (cfg : Simulator) (s : persistedState) : Prop := {
  eo_stock : stock_ok cfg s;
  eo_link : link_ok s;
  eo_identity : identity_ok s
}.

(** ** The pieces of the operations *)

Lemma applyFaultState_link s : link_ok (applyFaultState s).
Proof. split; simpl; try done. destruct (flPLCDisconnected _), (flEmergencyStop _), (flGuardDoorOpen _); done. Qed.

Lemma applyFaultState_stock cfg s : stock_ok cfg s → stock_ok cfg (applyFaultState s).
Proof. by intros []. Qed.

Lemma applyFaultState_identity s : identity_ok s → identity_ok (applyFaultState s).
Proof. by intros []. Qed.

Lemma refreshDerived_ok cfg s : engine_ok cfg s → engine_ok cfg (refreshDerived cfg s).
Proof. by intros [[] [] []]. Qed.

Lemma withNext_ok cfg t s : engine_ok cfg s → engine_ok cfg (withNext t s).
Proof. by intros [[] [] []]. Qed.

Lemma withProcessed_ok cfg m s : engine_ok cfg s → engine_ok cfg (withProcessed m s).
Proof. by intros [[] [] []]. Qed.

Lemma withGenerated_stock cfg t s : stock_ok cfg s → stock_ok cfg (withGenerated t s).
Proof. by intros []. Qed.

Lemma withGenerated_identity t s :
  isZero t = false → identity_ok s → identity_ok (withGenerated t s).
Proof. by intros ? []. Qed.

(** An inspection keeps the stock in bounds when there is something to inspect
    and, for a fresh item, room for it. *)
Lemma inspectOne_ok cfg (from : bool) s :
  (from = false → ptFinished (psPoints s) < capacity cfg 1) →
  ptInspected (psPoints s) < ptOutput (psPoints s) →
  ptPassed (psPoints s) + ptNG (psPoints s) = ptInspected (psPoints s) →
  0 ≤ ptPassed (psPoints s) → 0 ≤ ptNG (psPoints s) → 0 ≤ ptInspected (psPoints s) →
  0 ≤ ptFinished (psPoints s) ≤ capacity cfg 1 → 0 ≤ psRejectBin s →
  let s' := inspectOne cfg from s in
  counters_ok (psPoints s') ∧ 0 ≤ ptFinished (psPoints s') ≤ capacity cfg 1 ∧
  0 ≤ psRejectBin s' ≤ psRejectBin s + 1.
Proof.
  intros Hf Hi Hsum Hp Hn Hi0 Hfin Hrej. unfold inspectOne, counters_ok.
  destruct (deterministicPass _ _ _), from; simpl; try specialize (Hf eq_refl); split_and!; try lia;
    destruct (Z.ltb_spec 0 (ptFinished (psPoints s))); simpl; lia.
Qed.

(** The fields an inspection or a production leaves alone. *)
Record same_settings (s s' : persistedState) : Prop := {
  ss_link : link_ok s → link_ok s';
  ss_identity : identity_ok s → identity_ok s';
  ss_positive : ptTarget (psPoints s') = ptTarget (psPoints s) ∧
    ptToolLimit (psPoints s') = ptToolLimit (psPoints s) ∧
    ptInspectInterval (psPoints s') = ptInspectInterval (psPoints s) ∧
    ptCycleSeconds (psPoints s') = ptCycleSeconds (psPoints s) ∧
    ptMode (psPoints s') = ptMode (psPoints s);
  ss_produce : canProduce (psPoints s') = canProduce (psPoints s);
  ss_processed : psProcessed s' = psProcessed s
}.

Lemma inspectOne_settings cfg from s :
  same_settings s (inspectOne cfg from s) ∧
  ptBlank (psPoints (inspectOne cfg from s)) = ptBlank (psPoints s) ∧
  ptToolUsed (psPoints (inspectOne cfg from s)) = ptToolUsed (psPoints s) ∧
  ptOutput (psPoints (inspectOne cfg from s)) = ptOutput (psPoints s).
Proof.
  unfold inspectOne. destruct (deterministicPass _ _ _); (split; [split|]); simpl; try done; by intros [].
Qed.

#[local] Arguments inspectOne : simpl never.
#[local] Arguments deterministicPass : simpl never.

(** What an item being produced has to satisfy before it is placed. *)
Record placing (cfg : Simulator) (s : persistedState) : Prop := {
  pl_sum : 0 ≤ ptPassed (psPoints s) ∧ 0 ≤ ptNG (psPoints s) ∧
           ptPassed (psPoints s) + ptNG (psPoints s) = ptInspected (psPoints s);
  pl_room : 0 ≤ ptFinished (psPoints s) < capacity cfg 1;
  pl_item : 0 ≤ ptInspected (psPoints s) < ptOutput (psPoints s);
  pl_reject : 0 ≤ psRejectBin s
}.

Lemma same_settings_trans s1 s2 s3 : same_settings s1 s2 → same_settings s2 s3 → same_settings s1 s3.
Proof.
  intros [? ? (? & ? & ? & ? & ?) ? ?] [? ? (? & ? & ? & ? & ?) ? ?].
  split; [auto..|split_and!; congruence|congruence|congruence].
Qed.

Lemma countProduced_ok cfg s :
  stock_ok cfg s → hasProductionCapacity cfg s = true →
  placing cfg (countProduced s) ∧ same_settings s (countProduced s).
Proof.
  intros [(? & ? & ? & ? & ?) _ _ _ ? ? _] Hcap. unfold hasProductionCapacity in Hcap. propify.
  split; split; simpl; try done; try lia; by intros [].
Qed.

Lemma placeProduced_ok cfg s :
  placing cfg s →
  let s' := placeProduced cfg s in
  same_settings s s' ∧ 0 ≤ ptInspected (psPoints s') ≤ ptOutput (psPoints s') ∧
  0 ≤ ptPassed (psPoints s') ∧ 0 ≤ ptNG (psPoints s') ∧
  ptPassed (psPoints s') + ptNG (psPoints s') = ptInspected (psPoints s') ∧
  0 ≤ ptFinished (psPoints s') ≤ capacity cfg 1 ∧ 0 ≤ psRejectBin s' ≤ psRejectBin s + 1 ∧
  ptBlank (psPoints s') = ptBlank (psPoints s) ∧ ptToolUsed (psPoints s') = ptToolUsed (psPoints s) ∧
  ptOutput (psPoints s') = ptOutput (psPoints s).
Proof.
  intros [(? & ? & ?) ? ? ?]. unfold placeProduced. destruct (_ && _).
  - destruct (inspectOne_ok cfg false s) as ((? & ? & ? & ? & ?) & ? & ?); [lia..|].
    destruct (inspectOne_settings cfg false s) as (? & ? & ? & ?).
    split_and!; done || lia.
  - split; [split; simpl; try done; by intros []|]. simpl. split_and!; lia.
Qed.

Lemma updatePending_settings s : same_settings s (updatePending s).
Proof. split; simpl; try done; by intros []. Qed.

(** One production under the loop's guard. *)
Lemma produceOne_ok cfg s :
  stock_ok cfg s → hasProductionCapacity cfg s = true →
  let s' := produceOne cfg s in
  stock_ok cfg s' ∧ same_settings s s' ∧
  ptOutput (psPoints s') = ptOutput (psPoints s) + 1 ∧ ptBlank (psPoints s') = ptBlank (psPoints s) - 1 ∧
  psRejectBin s' ≤ psRejectBin s + 1.
Proof.
  intros Hst Hcap. destruct (countProduced_ok cfg s Hst Hcap) as [Hp Hs1].
  destruct (placeProduced_ok cfg _ Hp) as (Hs2 & ? & ? & ? & ? & ? & ? & Hb & Ht & Ho).
  unfold hasProductionCapacity in Hcap. propify. destruct Hst as [_ Hpos Htool Hblank _ _ Hmode].
  pose proof (same_settings_trans _ _ _ Hs1 Hs2) as Hs12. unfold produceOne.
  cbn zeta. set (s2 := placeProduced cfg (countProduced s)) in *. clearbody s2.
  pose proof (same_settings_trans _ _ _ Hs12 (updatePending_settings s2)) as Hs.
  destruct Hs12 as [_ _ (? & ? & ? & ? & Hm) _ _]. simpl in Hb, Ht, Ho.
  split_and!; [|exact Hs|simpl; lia|simpl; lia|simpl in *; lia].
  split; simpl; unfold counters_ok; simpl; try lia. by rewrite Hm.
Qed.

#[local] Arguments produceOne : simpl never.
#[local] Opaque produceOne.

(** ** The production loop *)

Lemma withNext_settings t s : same_settings s (withNext t s).
Proof. split; simpl; try done; by intros []. Qed.

Lemma same_settings_refl s : same_settings s s.
Proof. by split. Qed.

Lemma withNext_stock cfg t s : stock_ok cfg s → stock_ok cfg (withNext t s).
Proof. by intros []. Qed.

(** What the loop guarantees of its result. *)
Record produced (cfg : Simulator) (s s' : persistedState) : Prop := {
  pd_stock : stock_ok cfg s';
  pd_same : same_settings s s';
  pd_output : ptOutput (psPoints s) ≤ ptOutput (psPoints s') ≤
              Z.max (ptOutput (psPoints s)) (ptTarget (psPoints s));
  pd_reject : psRejectBin s' ≤ Z.max (psRejectBin s) (capacity cfg 2)
}.

Lemma produced_refl cfg s : stock_ok cfg s → produced cfg s s.
Proof. split; [done|apply same_settings_refl|lia|lia]. Qed.

Lemma produced_step cfg t s s' :
  stock_ok cfg s → hasProductionCapacity cfg s = true →
  produced cfg (withNext t (produceOne cfg s)) s' → produced cfg s s'.
Proof.
  intros Hs Hcap. destruct (produceOne_ok cfg s Hs Hcap) as (_ & Hss & Ho & _ & Hr).
  revert Hss Ho Hr. generalize (produceOne cfg s). intros s1 Hss Ho Hr [Hst Hss' Ho' Hr'].
  pose proof (ss_positive _ _ Hss) as (Ht & _). simpl in Ho', Hr'. rewrite Ht in Ho'.
  unfold hasProductionCapacity in Hcap. propify. split; [done| |lia|lia].
  eapply same_settings_trans; [exact Hss|]. eapply same_settings_trans; [apply withNext_settings|done].
Qed.

Lemma produceLoop_S fuel cfg cycle s :
  produceLoop (S fuel) cfg cycle s =
    if dueForProduction cfg s
    then produceLoop fuel cfg cycle (withNext (psNextProductionAt (produceOne cfg s) + cycle) (produceOne cfg s))
    else s.
Proof. reflexivity. Qed.

Lemma produceLoop_ok fuel cfg cycle s :
  stock_ok cfg s →
  produced cfg s (produceLoop fuel cfg cycle s) ∧
  (ptTarget (psPoints s) - ptOutput (psPoints s) ≤ Z.of_nat fuel →
   dueForProduction cfg (produceLoop fuel cfg cycle s) = false).
Proof.
  revert s. induction fuel as [|fuel IH]; intros s Hs.
  - split; [by apply produced_refl|]. intros Hf. cbn [produceLoop].
    unfold dueForProduction, hasProductionCapacity.
    rewrite (proj2 (Z.ltb_ge (ptOutput _) _)) by lia. by rewrite andb_false_r.
  - rewrite produceLoop_S. destruct (dueForProduction cfg s) eqn:Hdue;
      [|by split; [apply produced_refl|]].
    assert (hasProductionCapacity cfg s = true) as Hcap.
    { unfold dueForProduction in Hdue. by apply andb_true_iff in Hdue as [_ ?]. }
    destruct (produceOne_ok cfg s Hs Hcap) as (Hs1 & Hss1 & Ho1 & _ & _).
    destruct (IH (withNext (psNextProductionAt (produceOne cfg s) + cycle) (produceOne cfg s)))
      as [Hp Hd]; [by apply withNext_stock|].
    split; [by eapply produced_step|]. intros Hf. apply Hd.
    cbn [withNext psPoints]. rewrite Ho1, (proj1 (ss_positive _ _ Hss1)). lia.
Qed.

Lemma produceDue_ok cfg cycle s :
  stock_ok cfg s →
  produced cfg s (produceDue cfg cycle s) ∧ dueForProduction cfg (produceDue cfg cycle s) = false.
Proof.
  intros Hs. destruct (produceLoop_ok (Z.to_nat (ptTarget (psPoints s) - ptOutput (psPoints s))) cfg cycle s Hs)
    as [Hp Hd]. split; [exact Hp|]. apply Hd. lia.
Qed.

(** ** Commands *)

(** What accepting a command changes, short of the revision and the link. *)
Lemma applyCommand_ok quote cfg command s s' :
  config_ok cfg → stock_ok cfg s → applyCommand quote cfg command s = Ok s' →
  stock_ok cfg s' ∧ psFaults s' = psFaults s ∧ psProcessed s' = psProcessed s ∧
  psSchemaVersion s' = psSchemaVersion s ∧ psSessionID s' = psSessionID s ∧
  ptControlRevision (psPoints s') = ptControlRevision (psPoints s).
Proof.
  intros Hcfg Hs. pose proof Hs as [(? & ? & ? & ? & ?) (? & ? & ? & ?) ? ? ? ? Hmode].
  pose proof (cf_caps _ Hcfg 0%nat ltac:(lia)). pose proof (cf_caps _ Hcfg 1%nat ltac:(lia)).
  unfold applyCommand. cbn zeta.
  destruct (cmName command =s "start"); [case_match; [done|]; intros [= <-]; by destruct Hs|].
  destruct (cmName command =s "pause"); [intros [= <-]; by destruct Hs|].
  destruct (cmName command =s "reset").
  { intros [= <-]. split_and!; try done. split; simpl; unfold counters_ok; simpl; lia || done. }
  destruct (cmName command =s "set_mode").
  { case_match eqn:Hm; [done|]. intros [= <-]. split_and!; try done. destruct Hs. split; try done. simpl.
    destruct (String.eqb_spec (cmMode command) "auto"), (String.eqb_spec (cmMode command) "manual"); auto. done. }
  destruct (cmName command =s "set_single_paused"); [case_match; [|done]; intros [= <-]; by destruct Hs|].
  destruct (cmName command =s "set_frame_paused"); [case_match; [|done]; intros [= <-]; by destruct Hs|].
  destruct (cmName command =s "inspect").
  { case_match eqn:Hi; [done|]. intros [= <-]. propify.
    destruct (inspectOne_ok cfg true s) as (? & ? & ?); try done; try lia.
    destruct (inspectOne_settings cfg true s) as ([_ _ (? & ? & ? & ? & Hm) _ ?] & Hb & Ht & Ho).
    assert (psFaults (inspectOne cfg true s) = psFaults s ∧
      psSchemaVersion (inspectOne cfg true s) = psSchemaVersion s ∧
      psSessionID (inspectOne cfg true s) = psSessionID s ∧
      ptControlRevision (psPoints (inspectOne cfg true s)) = ptControlRevision (psPoints s)) as (? & ? & ? & ?).
    { unfold inspectOne. by destruct (deterministicPass _ _ _). }
    split_and!; try done. split; try done; try lia; by rewrite Hm. }
  destruct (cmName command =s "clear_bins").
  { intros [= <-]. split_and!; try done. destruct Hs. split; simpl; try done; lia. }
  destruct (cmName command =s "update_settings").
  { destruct (cmSettings command) as [st|]; [|done]. case_match eqn:Hst; [done|]. intros [= <-]. propify.
    split_and!; try done. destruct Hs. split; simpl; try done; lia. }
  destruct (cmName command =s "acknowledge_alarm"); [|done].
  case_match; [|done]. intros [= <-]. split_and!; done.
Qed.

(** ** Operations as steps *)

Inductive operation : Type :=
| OpTick (now : Z) (io : option string)
| OpCommand (raw : Command) (now : Z) (io : option string)
| OpFault (request : FaultRequest) (now : Z) (io : option string)
| OpRestart (now : Z) (sessionID io : option string).

Section steps.
Variables (digest : canonical → string) (quote : string → string) (cfg : Simulator).

Definition run (o : operation) (e : Engine) : Engine :=
  match o with
  | OpTick now io => (Tick cfg now io e).2
  | OpCommand raw now io => (ApplyCommand digest quote cfg raw now io e).2
  | OpFault request now io => (SetFault quote cfg request now io e).2
  | OpRestart now id io => (RestartSession cfg now id io e).2
  end.

(** The clock is past year 1 and session ids are not empty. *)
Definition operation_ok (o : operation) : Prop :=
  match o with
  | OpTick now _ | OpCommand _ now _ | OpFault _ now _ => isZero now = false
  | OpRestart now id _ => isZero now = false ∧ id ≠ Some ""
  end.

Lemma commit_ok {A} io s (a : A) e :
  engine_ok cfg (enState e) → engine_ok cfg s → engine_ok cfg (enState (commit io s a e).2).
Proof. intros ? ?. by destruct io. Qed.

(** Every committed state is also the file's. *)
Definition saved (e : Engine) : Prop := enFile e = FileState (enState e).

Lemma commit_saved {A} io s (a : A) e : saved e → saved (commit io s a e).2.
Proof. intros ?. by destruct io. Qed.

Lemma Tick_ok now io e :
  isZero now = false → engine_ok cfg (enState e) → engine_ok cfg (enState (Tick cfg now io e).2).
Proof.
  intros Hnow He. unfold Tick. case_match; [done|]. cbn zeta.
  set (s1 := applyFaultState _).
  assert (engine_ok cfg s1) as H1.
  { destruct He as [Hst Hlk Hid]. split; [|apply applyFaultState_link|].
    - apply applyFaultState_stock, withGenerated_stock. by destruct Hst.
    - apply applyFaultState_identity, withGenerated_identity; [done|]. by destruct Hid. }
  clearbody s1. set (s2 := if (_ || _) then _ else produceDue _ _ _).
  assert (engine_ok cfg s2) as H2.
  { unfold s2. destruct (_ || _); [by apply withNext_ok|].
    set (s0 := if isZero _ then _ else _).
    assert (engine_ok cfg s0) as [Hst Hlk Hid] by (unfold s0; case_match; [by apply withNext_ok|done]).
    destruct (produceDue_ok cfg (cycleOf (psPoints s1)) s0 Hst) as [[? [? ? _ _ _] _ _] _].
    split; auto. }
  clearbody s2. case_match; [|done]. apply commit_ok; [done|by apply refreshDerived_ok].
Qed.

Lemma SetFault_ok request now io e :
  isZero now = false → engine_ok cfg (enState e) →
  engine_ok cfg (enState (SetFault quote cfg request now io e).2).
Proof.
  intros Hnow He. unfold SetFault. case_match; [done|]. case_match; [|done]. cbn zeta.
  apply commit_ok; [done|]. apply refreshDerived_ok. destruct He as [Hst Hlk Hid].
  split; [|apply applyFaultState_link|].
  - apply applyFaultState_stock. by destruct Hst.
  - apply applyFaultState_identity. by destruct Hid.
Qed.

Lemma RestartSession_ok now id io e :
  isZero now = false → id ≠ Some "" → engine_ok cfg (enState e) →
  engine_ok cfg (enState (RestartSession cfg now id io e).2).
Proof.
  intros Hnow Hid He. unfold RestartSession. case_match; [done|]. destruct id as [id|]; [|done]. cbn zeta.
  apply commit_ok; [done|]. apply withNext_ok. destruct He as [Hst Hlk [? ? ? ?]].
  split; [by destruct Hst|by destruct Hlk|]. split; simpl; try done. congruence.
Qed.

Lemma ApplyCommand_ok raw now io e :
  config_ok cfg → isZero now = false → engine_ok cfg (enState e) →
  ptControlRevision (psPoints (enState e)) < 2 ^ 64 - 1 →
  engine_ok cfg (enState (ApplyCommand digest quote cfg raw now io e).2).
Proof.
  intros Hcfg Hnow He Hrev. unfold ApplyCommand. cbn zeta. case_match; [done|].
  destruct (psProcessed (enState e) !! _) as [previous|]; [by case_match|].
  assert (∀ command fp r, engine_ok cfg (enState (recordResult command fp r io e).2)) as Hrec.
  { intros command fp r. unfold recordResult. apply commit_ok; [done|by apply withProcessed_ok]. }
  destruct (revisionConflict _ _); [apply Hrec|]. destruct (flRejectCommands _); [apply Hrec|].
  destruct (flFailCommands _); [apply Hrec|]. destruct (ptPLCConnected _); [simpl|apply Hrec].
  destruct (applyCommand quote cfg (NormalizeCommand raw) (enState e)) as [s1|[code reason]] eqn:Ha; [|apply Hrec].
  pose proof He as [Hst Hlk Hid].
  apply applyCommand_ok in Ha as (Hst1 & Hf1 & Hp1 & Hsv & Hsi & Hr1); [|done..].
  assert (engine_ok cfg (afterCommand cfg (cmName (NormalizeCommand raw)) now s1)) as H2.
  { apply refreshDerived_ok. set (s2 := applyFaultState _).
    assert (engine_ok cfg s2) as H2.
    { split; [|apply applyFaultState_link|].
      - apply applyFaultState_stock. by destruct Hst1.
      - apply applyFaultState_identity. destruct Hid. split; simpl; rewrite ?Hsv, ?Hsi, ?Hr1; try done.
        rewrite wrap_id; [lia|]. unfold in_range. lia. }
    clearbody s2. repeat case_match; try done; by apply withNext_ok. }
  case_match; [|done]. apply commit_ok; [done|]. by apply withProcessed_ok.
Qed.

Lemma run_ok o e :
  config_ok cfg → operation_ok o → engine_ok cfg (enState e) →
  ptControlRevision (psPoints (enState e)) < 2 ^ 64 - 1 → engine_ok cfg (enState (run o e)).
Proof.
  intros Hcfg Ho He Hrev. destruct o; simpl in *.
  - by apply Tick_ok.
  - by apply ApplyCommand_ok.
  - by apply SetFault_ok.
  - destruct Ho. by apply RestartSession_ok.
Qed.
End steps.

(** ** What was recorded stays recorded *)

Section recorded.
Variables (digest : canonical → string) (quote : string → string) (cfg : Simulator).
Notation run := (run digest quote cfg).
Notation ApplyCommand := (ApplyCommand digest quote cfg).

Definition processedIn (e : Engine) (id : string) : option processedCommand :=
  psProcessed (enState e) !! id.

(** A command id keeps the outcome it was given. *)
Definition keeps (e e' : Engine) : Prop :=
  ∀ id x, processedIn e id = Some x → processedIn e' id = Some x.

Lemma commit_keeps {A} io s (a : A) e :
  (∀ id x, processedIn e id = Some x → psProcessed s !! id = Some x) → keeps e (commit io s a e).2.
Proof. intros Hk id x Hx. destruct io; simpl; [done|by apply Hk]. Qed.

Lemma recordResult_keeps command fp r io e :
  processedIn e (cmCommandID command) = None → keeps e (recordResult command fp r io e).2.
Proof.
  intros Hn. apply commit_keeps. intros id x Hx. simpl. rewrite lookup_insert_ne; [done|]. congruence.
Qed.

Lemma afterCommand_processed name now s : psProcessed (afterCommand cfg name now s) = psProcessed s.
Proof. unfold afterCommand. cbn zeta. simpl. by repeat case_match. Qed.

Lemma inspectOne_processed from s : psProcessed (inspectOne cfg from s) = psProcessed s.
Proof. apply ss_processed, inspectOne_settings. Qed.

Lemma applyCommand_processed command s s' :
  applyCommand quote cfg command s = Ok s' → psProcessed s' = psProcessed s.
Proof.
  unfold applyCommand. cbn zeta. intros Ha.
  repeat (case_match; try done; simplify_eq; try apply inspectOne_processed; try done).
Qed.

(** What [ApplyCommand] leaves: the old engine, or one more recorded outcome. *)
Lemma ApplyCommand_recorded raw now io e r e' :
  ApplyCommand raw now io e = (r, e') →
  let id := cmCommandID (NormalizeCommand raw) in
  let fp := CommandFingerprint digest (NormalizeCommand raw) in
  (e' = e ∧ (∀ x, r = Ok x → ∃ p, processedIn e id = Some p ∧
      if pcFingerprint p =s fp then x = pcResult p else crCode x = "idempotency_conflict"%string)) ∨
  (∃ x, r = Ok x ∧ processedIn e id = None ∧ saved e' ∧
      processedIn e' id = Some (mkProcessed fp x) ∧
      ∀ id', id' ≠ id → processedIn e' id' = processedIn e id').
Proof.
  intros Hr id fp. revert Hr. unfold ApplyCommand. cbn zeta. fold id fp.
  destruct (_ || _); [intros [= <- <-]; left; split; [done|]; by intros ? [=]|].
  fold (processedIn e id). destruct (processedIn e id) as [p|] eqn:Hp.
  { destruct (pcFingerprint p =s fp) eqn:Hf; simpl; intros [= <- <-]; left; (split; [done|]);
      intros x [= <-]; exists p; by rewrite Hf. }
  assert (∀ res s2 (Hs2 : psProcessed s2 = <[id := mkProcessed fp res]> (psProcessed (enState e))),
    commit io s2 res e = (r, e') →
    (e' = e ∧ (∀ x, r = Ok x → ∃ p, (None : option processedCommand) = Some p ∧
      if pcFingerprint p =s fp then x = pcResult p else crCode x = "idempotency_conflict"%string)) ∨
    (∃ x, r = Ok x ∧ (None : option processedCommand) = None ∧ saved e' ∧ processedIn e' id = Some (mkProcessed fp x) ∧
      ∀ id', id' ≠ id → processedIn e' id' = processedIn e id')) as Hcommit.
  { intros res s2 Hs2. destruct io; simpl; intros [= <- <-]; [left; split; [done|]; by intros ? [=]|right].
    exists res. unfold processedIn. simpl. rewrite Hs2. split_and!; try done; [by rewrite lookup_insert_eq|].
    intros id' Hne. by rewrite lookup_insert_ne by done. }
  destruct (revisionConflict _ _); [by apply Hcommit|]. destruct (flRejectCommands _); [by apply Hcommit|].
  destruct (flFailCommands _); [by apply Hcommit|].
  destruct (ptPLCConnected _); cbn [negb]; [|by apply Hcommit].
  destruct (applyCommand quote cfg _ _) as [s1|[code reason]] eqn:Ha; [|by apply Hcommit].
  apply applyCommand_processed in Ha.
  destruct (validateCounters _); [|intros [= <- <-]; left; split; [done|]; by intros ? [=]].
  apply Hcommit. cbn [withProcessed psProcessed]. by rewrite afterCommand_processed, Ha.
Qed.

Lemma ApplyCommand_keeps raw now io e : keeps e (ApplyCommand raw now io e).2.
Proof.
  destruct (ApplyCommand raw now io e) as [r e'] eqn:Hr.
  apply ApplyCommand_recorded in Hr as [[-> _]|(x & _ & Hn & _ & Hi & Hk)]; simpl; intros id' y Hy; [done|].
  rewrite Hk; [done|]. congruence.
Qed.

#[local] Transparent produceOne.

Lemma produceOne_processed s : psProcessed (produceOne cfg s) = psProcessed s.
Proof.
  unfold produceOne, placeProduced. case_match; [|done].
  cbn [updatePending onPoints withPoints psProcessed]. by rewrite inspectOne_processed.
Qed.

Lemma produceLoop_processed fuel cycle s : psProcessed (produceLoop fuel cfg cycle s) = psProcessed s.
Proof.
  revert s. induction fuel as [|fuel IH]; intros s; [done|]. rewrite produceLoop_S.
  case_match; [|done]. rewrite IH. cbn [withNext psProcessed]. apply produceOne_processed.
Qed.

Lemma run_keeps o e : keeps e (run o e).
Proof.
  destruct o; simpl; [|apply ApplyCommand_keeps|..].
  - unfold Tick. case_match; [by intros ???|]. cbn zeta. case_match; [|by intros ???]. apply commit_keeps.
    intros id x Hx. change (psProcessed (refreshDerived cfg ?y)) with (psProcessed y).
    destruct (_ || _); [exact Hx|]. unfold produceDue. rewrite produceLoop_processed.
    by destruct (isZero _).
  - unfold SetFault. case_match; [by intros ???|]. case_match; [|by intros ???]. by apply commit_keeps.
  - unfold RestartSession. case_match; [by intros ???|]. destruct sessionID; [|by intros ???].
    by apply commit_keeps.
Qed.

Lemma run_saved o e : saved e → saved (run o e).
Proof.
  intros He. destruct o; simpl.
  - unfold Tick. case_match; [done|]. cbn zeta. case_match; [by apply commit_saved|done].
  - destruct (ApplyCommand raw now io e) as [r e'] eqn:Hr.
    by apply ApplyCommand_recorded in Hr as [[-> _]|(x & _ & _ & ? & _)].
  - unfold SetFault. case_match; [done|]. case_match; [by apply commit_saved|done].
  - unfold RestartSession. case_match; [done|]. destruct sessionID; [by apply commit_saved|done].
Qed.

Definition runs (os : list operation) (e : Engine) : Engine := foldl (fun e o => run o e) e os.

Lemma runs_keeps os e : keeps e (runs os e).
Proof.
  revert e. induction os as [|o os IH]; intros e id x Hx; [done|].
  apply IH. by apply run_keeps.
Qed.

Lemma runs_saved os e : saved e → saved (runs os e).
Proof. revert e. induction os as [|o os IH]; intros e He; [done|]. by apply IH, run_saved. Qed.

(** Asking again with the same content gives the recorded answer and changes nothing. *)
Lemma replay raw raw' now io e id fp x :
  NormalizeCommand raw' = NormalizeCommand raw →
  id = cmCommandID (NormalizeCommand raw) → fp = CommandFingerprint digest (NormalizeCommand raw) →
  (id =s "") || (128 <? Z.of_nat (String.length id)) = false →
  processedIn e id = Some (mkProcessed fp x) → ApplyCommand raw' now io e = (Ok x, e).
Proof.
  intros Hn -> -> Hlen Hp. unfold ApplyCommand. cbn zeta. rewrite Hn, Hlen.
  unfold processedIn in Hp. rewrite Hp. cbn [pcFingerprint pcResult]. by rewrite String.eqb_refl.
Qed.

Lemma ApplyCommand_id_length raw now io e r e' :
  ApplyCommand raw now io e = (Ok r, e') →
  (cmCommandID (NormalizeCommand raw) =s "") ||
  (128 <? Z.of_nat (String.length (cmCommandID (NormalizeCommand raw)))) = false.
Proof. unfold ApplyCommand. cbn zeta. by destruct (_ || _). Qed.
End recorded.

(** ** Restarting from the file *)

Lemma validatePersisted_ok cfg s :
  config_ok cfg → engine_ok cfg s → psRejectBin s ≤ capacity cfg 2 → validatePersisted cfg s = Ok tt.
Proof.
  intros [Hb _ _] [[Hc ? ? ? ? ? Hm] _ [Hv Hs Hg ?]] Hr. unfold validatePersisted. cbn zeta.
  rewrite Hv, Z.eqb_refl, Hg, (proj2 (String.eqb_neq _ _) Hs), Hb. cbn [negb orb Nat.eqb].
  rewrite (proj2 (Z.eqb_neq _ _)) by lia. rewrite !(proj2 (Z.leb_gt _ _)) by lia.
  rewrite !(proj2 (Z.ltb_ge _ _)) by lia. cbn [orb].
  rewrite (proj2 (validateCounters_ok _) Hc).
  by destruct Hm as [-> | ->].
Qed.

(** A restart keeps everything but the session, the clock and the next production. *)
Lemma Open_saved cfg s now id :
  config_ok cfg → engine_ok cfg s → psRejectBin s ≤ capacity cfg 2 → isZero now = false → id ≠ "" →
  ∃ e, Open cfg (FileState s) now (Some id) None = Ok e ∧ engine_ok cfg (enState e) ∧ saved e ∧
    psProcessed (enState e) = psProcessed s ∧ psFaults (enState e) = psFaults s ∧
    psSampleSequence (enState e) = psSampleSequence s ∧
    ptControlRevision (psPoints (enState e)) = ptControlRevision (psPoints s) ∧
    ptOutput (psPoints (enState e)) = ptOutput (psPoints s) ∧
    ptInspected (psPoints (enState e)) = ptInspected (psPoints s).
Proof.
  intros Hcfg Hs Hr Hnow Hid. unfold Open. rewrite validatePersisted_ok by done. cbn zeta.
  set (s1 := withGenerated now (withSession id s)). set (s2 := if canProduce _ then _ else _).
  assert (stock_ok cfg s2 ∧ identity_ok s2 ∧ psProcessed s2 = psProcessed s ∧ psFaults s2 = psFaults s ∧
    psSampleSequence s2 = psSampleSequence s ∧ psPoints s2 = psPoints s) as (Hst & Hi & Hp & Hf & Hq & Hpt).
  { destruct Hs as [[] _ []]. unfold s2. case_match; split_and!; try done; split; done. }
  clearbody s2. eexists. split; [done|]. split_and!; try done; simpl; rewrite ?Hpt; try done.
  apply refreshDerived_ok. split; [by apply applyFaultState_stock|apply applyFaultState_link|].
  by apply applyFaultState_identity.
Qed.
