(* ===== verification/StateModel.v ===== *)
(** * The HMI's state model: [internal/state/model.go]

    [FromPLC] turns a PLC snapshot into the HMI's model, keeping the alarm
    history of the previous one.  It ranges over a Go map of the previous
    alarms, so the enumeration is an argument.  The theorems describe the
    history as one bounded list, newest first. *)

From Stdlib Require Import Ascii String.
From stdpp Require Import pretty.
From S2P Require Import Prelude PlcContract.

(** ** Data *)

Record ModelBin := mkModelBin { mbType : string; mbLabel : string }.

Record ModelAlarm := mkModelAlarm {
  maID : Z;
  maLevel : string;
  maCode : string;
  maText : string;
  maOccurredAt : Z;
  maAcknowledged : bool
}.

Record HistoryEntry := mkHistoryEntry {
  heID : Z;
  heLevel : string;
  heCode : string;
  heText : string;
  heTimestamp : Z
}.

Record Model := mkModel {
  mdRevision : Z;
  mdUpdatedAt : Z;
  mdRunning : bool;
  mdMode : string;
  mdSinglePaused : bool;
  mdFramePaused : bool;
  mdTarget : Z;
  mdOutput : Z;
  mdCycle : Z;
  mdOEE : Z;
  mdInspected : Z;
  mdPassed : Z;
  mdNG : Z;
  mdPending : Z;
  mdBlank : Z;
  mdFinished : Z;
  mdToolLimit : Z;
  mdInspectInterval : Z;
  mdBins : list ModelBin;
  mdAlarms : list ModelAlarm;
  mdHistory : list HistoryEntry
}.

Record SourceMeta := mkSourceMeta {
  smSimulatorSessionID : string;
  smSampleSequence : Z;
  smQuality : string;
  smPLCConnected : bool;
  smReceivedAt : Z
}.

#[global] Instance ModelAlarm_eq_dec : EqDecision ModelAlarm. Proof. solve_decision. Defined.
#[global] Instance HistoryEntry_eq_dec : EqDecision HistoryEntry. Proof. solve_decision. Defined.
#[global] Instance ModelBin_eq_dec : EqDecision ModelBin. Proof. solve_decision. Defined.
#[global] Instance Model_eq_dec : EqDecision Model. Proof. solve_decision. Defined.
#[global] Instance SourceMeta_eq_dec : EqDecision SourceMeta. Proof. solve_decision. Defined.

(** ** Operations *)

Definition historyLimit : nat := 100.

Definition setHistory (h : list HistoryEntry) (m : Model) : Model :=
  mkModel (mdRevision m) (mdUpdatedAt m) (mdRunning m) (mdMode m) (mdSinglePaused m) (mdFramePaused m)
    (mdTarget m) (mdOutput m) (mdCycle m) (mdOEE m) (mdInspected m) (mdPassed m) (mdNG m) (mdPending m)
    (mdBlank m) (mdFinished m) (mdToolLimit m) (mdInspectInterval m) (mdBins m) (mdAlarms m) h.

Definition setModelAlarms (a : list ModelAlarm) (m : Model) : Model :=
  mkModel (mdRevision m) (mdUpdatedAt m) (mdRunning m) (mdMode m) (mdSinglePaused m) (mdFramePaused m)
    (mdTarget m) (mdOutput m) (mdCycle m) (mdOEE m) (mdInspected m) (mdPassed m) (mdNG m) (mdPending m)
    (mdBlank m) (mdFinished m) (mdToolLimit m) (mdInspectInterval m) (mdBins m) a (mdHistory m).

Definition prependHistory (entry : HistoryEntry) (m : Model) : Model :=
  setHistory (take historyLimit (entry :: mdHistory m)) m.

(** The low 64 bits of an instant's Unix nanoseconds identify the entry. *)
Definition AddOperation (level code text : string) (at_ : Z) (m : Model) : Model :=
  prependHistory (mkHistoryEntry (u64 at_) level code text at_) m.

Definition normalizeBinStatus (value : string) : string :=
  if (value =s "empty") || (value =s "normal") || (value =s "warning") || (value =s "full") ||
     (value =s "fault") then value else "fault".

(** FNV-style hash of the id's bytes. *)
Fixpoint hashBytes (hash : Z) (s : string) : Z :=
  match s with
  | EmptyString => hash
  | String c s' => hashBytes (u64 (Z.lxor hash (Z.of_nat (nat_of_ascii c)) * 1099511628211)) s'
  end.

Definition stableAlarmID (value : string) : Z :=
  let hash := hashBytes 1469598103934665603 value in
  let hashed := if hash =? 0 then 1 else hash in
  match parseUint value 64 with
  | Some parsed => if 0 <? parsed then parsed else hashed
  | None => hashed
  end.

Definition historyID (sequence alarmID : Z) : Z := Z.lxor (u64 (Z.shiftl sequence 20)) alarmID.

Definition binLabel (b : Bin) : string :=
  String.append (binID b) (String.append " · " (String.append (pretty (binQuantity b))
    (String.append "/" (pretty (binCapacity b))))).

(** The alarm a snapshot's active alarm becomes, and the entry for a new one. *)
Definition alarmOf (raw : Alarm) : ModelAlarm :=
  mkModelAlarm (stableAlarmID (alAlarmID raw)) (alLevel raw) (alCode raw) (alText raw)
    (alOccurredAt raw) (alAcknowledged raw).

Definition raisedEntry (sequence : Z) (raw : Alarm) : HistoryEntry :=
  mkHistoryEntry (historyID sequence (stableAlarmID (alAlarmID raw))) (alLevel raw) (alCode raw)
    (alText raw) (alOccurredAt raw).

Definition clearedEntry (sequence generatedAt : Z) (id : Z) (old : ModelAlarm) : HistoryEntry :=
  mkHistoryEntry (historyID sequence id) "info" (maCode old) (String.append (maText old) " 已清除") generatedAt.

Definition alarmTable (alarms : list ModelAlarm) : gmap Z ModelAlarm :=
  foldl (fun m item => <[maID item := item]> m) ∅ alarms.

(** The loop over the snapshot's alarms. *)
Definition raiseAlarm (sequence : Z) (previous : gmap Z ModelAlarm) (st : Model * gset Z) (raw : Alarm)
    : Model * gset Z :=
  let '(next, active) := st in
  if negb (alActive raw) then st
  else
    let id := stableAlarmID (alAlarmID raw) in
    let next := setModelAlarms (mdAlarms next ++ [alarmOf raw]) next in
    (if bool_decide (is_Some (previous !! id)) then next
     else prependHistory (raisedEntry sequence raw) next, {[id]} ∪ active).

(** The loop over the previous alarms, in the order the map yields them. *)
Definition clearAlarm (sequence generatedAt : Z) (active : gset Z) (next : Model) (item : Z * ModelAlarm)
    : Model :=
  if bool_decide (item.1 ∈ active) then next
  else prependHistory (clearedEntry sequence generatedAt item.1 item.2) next.

Section fromPLC.
(** The enumeration of a Go map by [range], and [time.Now]. *)
Variables (range : gmap Z ModelAlarm → list (Z * ModelAlarm)) (now : Z).

Definition FromPLC (snapshot : Snapshot) (previous : Model) : Model * SourceMeta :=
  let p := ssPoints snapshot in
  let oee := if 0 <? ptTarget p
             then Z.min 100 (Z.quot (i64 (ptOutput p * 100)) (ptTarget p)) else 0 in
  let next := mkModel (ptControlRevision p) (ssGeneratedAt snapshot) (ptRunning p) (ptMode p)
    (ptSinglePaused p) (ptFramePaused p) (ptTarget p) (ptOutput p) (ptCycleSeconds p) oee
    (ptInspected p) (ptPassed p) (ptNG p) (ptPending p) (ptBlank p) (ptFinished p) (ptToolLimit p)
    (ptInspectInterval p)
    (map (fun b => mkModelBin (normalizeBinStatus (binStatus_ b)) (binLabel b)) (ptBins p))
    [] (mdHistory previous) in
  let previousAlarms := alarmTable (mdAlarms previous) in
  let '(next, active) :=
    foldl (raiseAlarm (ssSampleSequence snapshot) previousAlarms) (next, ∅) (ptAlarms p) in
  let next := foldl (clearAlarm (ssSampleSequence snapshot) (ssGeneratedAt snapshot) active) next
                (range previousAlarms) in
  (next, mkSourceMeta (ssSimulatorSessionID snapshot) (ssSampleSequence snapshot) (ssQuality snapshot)
           (ptPLCConnected p) now).
End fromPLC.

(** ** The history as one list *)

Definition prependAll (entries : list HistoryEntry) (m : Model) : Model :=
  foldl (fun m e => prependHistory e m) m entries.

Lemma prependAll_history entries m :
  (length (mdHistory m) ≤ historyLimit)%nat →
  mdHistory (prependAll entries m) = take historyLimit (reverse entries ++ mdHistory m).
Proof.
  revert m. induction entries as [|e entries IH]; intros m Hm.
  - cbn [prependAll foldl]. rewrite reverse_nil. cbn [app]. by rewrite take_ge.
  - change (prependAll (e :: entries) m) with (prependAll entries (prependHistory e m)).
    rewrite IH by (cbn [prependHistory setHistory mdHistory]; rewrite length_take; lia).
    cbn [prependHistory setHistory mdHistory]. rewrite reverse_cons, <-app_assoc. cbn [app].
    destruct (decide (length (reverse entries) ≤ historyLimit)%nat) as [Hl|Hl].
    + rewrite !take_app, !(take_ge (reverse entries)) by lia. by rewrite take_take, Nat.min_l by lia.
    + by rewrite !take_app_le by lia.
Qed.

Lemma prependAll_bound entries m :
  (length (mdHistory m) ≤ historyLimit)%nat →
  (length (mdHistory (prependAll entries m)) ≤ historyLimit)%nat.
Proof. intros Hm. rewrite prependAll_history by done. rewrite length_take. lia. Qed.

(** The alarms a snapshot raises: active, and not shown before. *)
Definition isRaised (previous : gmap Z ModelAlarm) (raw : Alarm) : Prop :=
  alActive raw = true ∧ previous !! stableAlarmID (alAlarmID raw) = None.

#[global] Instance isRaised_dec previous raw : Decision (isRaised previous raw).
Proof. unfold isRaised. apply _. Defined.

Definition activeIDs (alarms : list Alarm) : gset Z :=
  list_to_set (map (fun raw => stableAlarmID (alAlarmID raw)) (filter (fun raw => alActive raw = true) alarms)).

Definition isCleared (active : gset Z) (item : Z * ModelAlarm) : Prop := item.1 ∉ active.

#[global] Instance isCleared_dec active item : Decision (isCleared active item).
Proof. unfold isCleared. apply _. Defined.

Lemma setModelAlarms_prepend a e m :
  setModelAlarms a (prependHistory e m) = prependHistory e (setModelAlarms a m).
Proof. done. Qed.

Lemma setModelAlarms_prependAll a es m :
  setModelAlarms a (prependAll es m) = prependAll es (setModelAlarms a m).
Proof. revert m. induction es as [|e es IH]; intros m; simpl; [done|]. by rewrite IH. Qed.

Lemma prependAll_app es es' m : prependAll (es ++ es') m = prependAll es' (prependAll es m).
Proof. unfold prependAll. by rewrite foldl_app. Qed.

Lemma mdAlarms_prependAll es m : mdAlarms (prependAll es m) = mdAlarms m.
Proof. revert m. induction es as [|e es IH]; intros m; simpl; [done|]. by rewrite IH. Qed.

Lemma raise_loop sequence previous alarms m active :
  foldl (raiseAlarm sequence previous) (m, active) alarms =
    (prependAll (map (raisedEntry sequence) (filter (isRaised previous) alarms))
       (setModelAlarms (mdAlarms m ++ map alarmOf (filter (fun raw => alActive raw = true) alarms)) m),
     activeIDs alarms ∪ active).
Proof.
  revert m active. induction alarms as [|raw alarms IH]; intros m active.
  - simpl. rewrite app_nil_r. f_equal; [by destruct m|]. unfold activeIDs. simpl. set_solver.
  - cbn [foldl]. unfold raiseAlarm at 2. destruct (alActive raw) eqn:Ha; cbn [negb].
    + rewrite IH. unfold activeIDs. rewrite !filter_cons, (decide_True (P := alActive raw = true)) by done.
      cbn [map list_to_set]. f_equal; [|set_solver].
      destruct (previous !! stableAlarmID (alAlarmID raw)) eqn:Hp.
      * rewrite bool_decide_true by eauto. rewrite (decide_False (P := isRaised _ _)) by (intros [_ ?]; congruence).
        cbn [mdAlarms setModelAlarms]. by rewrite <-app_assoc.
      * rewrite bool_decide_false by (intros [? ?]; congruence). rewrite (decide_True (P := isRaised _ _)) by done.
        cbn [map mdAlarms setModelAlarms prependHistory setHistory]. rewrite <-app_assoc. done.
    + rewrite IH. unfold activeIDs.
      rewrite !filter_cons, (decide_False (P := alActive raw = true)) by congruence.
      rewrite (decide_False (P := isRaised _ _)) by (intros [? _]; congruence). done.
Qed.

Lemma clear_loop sequence generatedAt active items m :
  foldl (clearAlarm sequence generatedAt active) m items =
    prependAll (map (fun it => clearedEntry sequence generatedAt it.1 it.2) (filter (isCleared active) items)) m.
Proof.
  revert m. induction items as [|it items IH]; intros m; [done|]. cbn [foldl]. rewrite IH, filter_cons.
  unfold clearAlarm at 1. destruct (decide (it.1 ∈ active)) as [Hin|Hin].
  - rewrite bool_decide_true by done. by rewrite decide_False by (intros Hn; by apply Hn).
  - rewrite bool_decide_false by done. by rewrite decide_True by done.
Qed.

(** The model a snapshot leads to: its alarms and its history. *)
Lemma FromPLC_spec range now s previous :
  (length (mdHistory previous) ≤ historyLimit)%nat →
  let next := (FromPLC range now s previous).1 in
  let table := alarmTable (mdAlarms previous) in
  let alarms := ptAlarms (ssPoints s) in
  mdAlarms next = map alarmOf (filter (fun raw => alActive raw = true) alarms) ∧
  mdHistory next = take historyLimit
    (reverse (map (raisedEntry (ssSampleSequence s)) (filter (isRaised table) alarms) ++
              map (fun it => clearedEntry (ssSampleSequence s) (ssGeneratedAt s) it.1 it.2)
                (filter (isCleared (activeIDs alarms)) (range table))) ++ mdHistory previous).
Proof.
  intros Hl. unfold FromPLC. cbn zeta. rewrite raise_loop. cbn [fst].
  rewrite clear_loop, (right_id_L ∅ (∪)), <-prependAll_app.
  split; [by rewrite mdAlarms_prependAll|]. by rewrite prependAll_history.
Qed.

(** ** Ids *)

Lemma hashBytes_range h s : in_range 64 h → in_range 64 (hashBytes h s).
Proof. revert h. induction s as [|c s IH]; intros h Hh; [done|]. apply IH. by apply wrap_range. Qed.

Lemma stableAlarmID_range value : 1 ≤ stableAlarmID value < 2 ^ 64.
Proof.
  pose proof (hashBytes_range 1469598103934665603 value ltac:(done)) as [??]. unfold stableAlarmID.
  assert (1 ≤ (if hashBytes 1469598103934665603 value =? 0 then 1 else hashBytes 1469598103934665603 value) < 2 ^ 64).
  { destruct (Z.eqb_spec (hashBytes 1469598103934665603 value) 0); [done|lia]. }
  destruct (parseUint value 64) as [parsed|] eqn:Hp; [|done].
  apply parseUint_range in Hp as [??]. destruct (Z.ltb_spec 0 parsed); [lia|done].
Qed.
