(* ===== verification/Storage.v ===== *)
(** * The agent's SQLite store: [internal/storage/store.go]

    The database is its tables ([DB]); a transaction works on a copy that
    [commit] installs, so what a rollback undoes is never seen.  Every
    statement may fail: [stFaults] lists the outcome of the statements to come,
    and a theorem holds for every such list.  The rows hold the decoded values
    of their JSON and RFC 3339 columns.  Mutexes make each operation atomic. *)

From S2P Require Import Prelude PlcContract StateModel.

(** ** Data *)

Definition AvailabilityBackendUnavailable : string := "backend_unavailable".
Definition AvailabilityDeviceUnavailable : string := "device_unavailable".
Definition AvailabilityBadQuality : string := "bad_quality".
Definition AvailabilityDataStale : string := "data_stale".

Record SnapshotRecord := mkSnapshotRecord { srState : Model; srMeta : SourceMeta; srStale : bool }.

#[global] Instance SnapshotRecord_eq_dec : EqDecision SnapshotRecord. Proof. solve_decision. Defined.

Record CommandMeta := mkCommandMeta { cmOperator : string; cmRequestID : string }.

Record CommandRecord := mkCommandRecord {
  rcExists : bool;
  rcFingerprint : string;
  rcResult : CommandResult
}.

Record PLCEndpoint := mkPLCEndpoint { epHost : string; epPort : Z; epUnitID : Z }.

Record OperationInput := mkOperationInput { oiLevel : string; oiCode : string; oiText : string; oiAt : Z }.

(** [Details] is the JSON text of the audit's map. *)
Record AuditInput := mkAuditInput {
  auOperator : string;
  auAction : string;
  auMessage : string;
  auRevision : Z;
  auRequestID : string;
  auDetails : string
}.

Record AuditEntry := mkAuditEntry { aeID : Z; aeTimestamp : Z; aeInput : AuditInput }.

Record AuditPage := mkAuditPage { apItems : list AuditEntry; apNextBeforeID : option Z }.

(** ** Tables *)

Record CommandRow := mkCommandRow {
  rwFingerprint : string;
  rwName : string;
  rwStatus : string;
  rwMeta : CommandMeta;
  rwResult : option CommandResult;
  rwCreatedAt : Z;
  rwUpdatedAt : Z
}.

Record OperationRow := mkOperationRow {
  opOccurredAt : Z;
  opCommandID : string;
  opAction : string;
  opStatus : string;
  opMessage : string
}.

Record DB := mkDB {
  dbSnapshot : option SnapshotRecord;
  dbActiveAlarms : gmap Z ModelAlarm;
  dbAlarmHistory : gmap (Z * Z) ModelAlarm;
  dbCommands : gmap string CommandRow;
  dbOperations : list OperationRow;
  dbAudits : list AuditEntry;
  dbNextAuditID : Z;
  dbEndpoint : option PLCEndpoint
}.

Definition emptyDB : DB := mkDB None ∅ ∅ ∅ [] [] 1 None.

Record Store := mkStore {
  stDB : DB;
  stAvailable : bool;
  stHealthCode : string;
  stFaults : list (option string)
}.

Inductive store_error : Type :=
| StSql (e : string)
| StAckLost (e : string)
| StNoSnapshot | StIdempotencyConflict | StStaleSnapshot
| StInvalidSnapshot
| StNotTerminal (status : string)
| StNoRecord (id : string)
| StInvalidStatus (id status : string)
| StNoResult (id : string)
| StAlreadyCompleted (id name status : string)
| StDisagree (id : string)
| StNoTransition (id : string)
| StHost | StPort | StUnitID.

Abbreviation StoreM := (GoM Store store_error).

(** An audit row older than the cursor of a page, if there is one. *)
Definition beforeCursor (beforeID : option Z) (e : AuditEntry) : Prop :=
  match beforeID with Some b => aeID e < b | None => True end.

#[global] Instance beforeCursor_dec beforeID e : Decision (beforeCursor beforeID e).
Proof. unfold beforeCursor. destruct beforeID; apply _. Defined.

(** ** Availability *)

Definition setHealth (available : bool) (code : string) (s : Store) : Store :=
  mkStore (stDB s) available code (stFaults s).

Definition SetSourceUnavailable (code : string) : StoreM unit :=
  gmod (setHealth false (if code =s "" then AvailabilityBackendUnavailable else code)).

Definition setSourceAvailable : StoreM unit := gmod (setHealth true "").

Definition SourceAvailability (s : Store) : bool * string := (stAvailable s, stHealthCode s).

Definition availabilityCode (r : SnapshotRecord) (now staleAfter : Z) : string :=
  let received := smReceivedAt (srMeta r) in
  let updated := mdUpdatedAt (srState r) in
  if negb (smPLCConnected (srMeta r)) then AvailabilityDeviceUnavailable
  else if smQuality (srMeta r) <>s QualityGood then AvailabilityBadQuality
  else if srStale r || isZero received || isZero updated || (now <? received) || (now <? updated) ||
          (staleAfter <=? timeSub now received) || (staleAfter <=? timeSub now updated)
  then AvailabilityDataStale
  else "".

Definition Freshness (r : SnapshotRecord) (now staleAfter : Z) : bool * string :=
  let code := availabilityCode r now staleAfter in
  if code <>s "" then (false, code) else (true, ""%string).

Definition setAvailabilityFromRecord (r : SnapshotRecord) (now staleAfter : Z) : StoreM unit :=
  let code := availabilityCode r now staleAfter in
  if code <>s "" then SetSourceUnavailable code else setSourceAvailable.

(** ** Statements and transactions *)

(** One round trip to the database. *)
Definition stmt : StoreM unit := fun s =>
  match stFaults s with
  | [] => (Ok tt, s)
  | None :: rest => (Ok tt, mkStore (stDB s) (stAvailable s) (stHealthCode s) rest)
  | Some e :: rest => (Err (StSql e), mkStore (stDB s) (stAvailable s) (stHealthCode s) rest)
  end.

Definition getDB : StoreM DB := fun s => (Ok (stDB s), s).

(** A successful write outside a transaction, or a successful [Commit]. *)
Definition install (db : DB) : StoreM unit :=
  gmod (fun s => mkStore db (stAvailable s) (stHealthCode s) (stFaults s)).

Definition commit (db : DB) : StoreM unit := run! stmt; install db.

(** An error that also marks the persistence backend unavailable. *)
Definition orBackend {A} (m : StoreM A) : StoreM A :=
  do! r <- attempt m;
  match r with
  | Ok a => gret a
  | Err e => run! SetSourceUnavailable AvailabilityBackendUnavailable; gfail e
  end.

Definition setSnapshot (r : SnapshotRecord) (db : DB) : DB :=
  mkDB (Some r) ∅ (dbAlarmHistory db) (dbCommands db) (dbOperations db) (dbAudits db) (dbNextAuditID db)
    (dbEndpoint db).

Definition setAlarmTables (active : gmap Z ModelAlarm) (history : gmap (Z * Z) ModelAlarm) (db : DB) : DB :=
  mkDB (dbSnapshot db) active history (dbCommands db) (dbOperations db) (dbAudits db) (dbNextAuditID db)
    (dbEndpoint db).

Definition setCommands (c : gmap string CommandRow) (db : DB) : DB :=
  mkDB (dbSnapshot db) (dbActiveAlarms db) (dbAlarmHistory db) c (dbOperations db) (dbAudits db)
    (dbNextAuditID db) (dbEndpoint db).

Definition addOperation (o : OperationRow) (db : DB) : DB :=
  mkDB (dbSnapshot db) (dbActiveAlarms db) (dbAlarmHistory db) (dbCommands db) (dbOperations db ++ [o])
    (dbAudits db) (dbNextAuditID db) (dbEndpoint db).

Definition addAudit (at_ : Z) (a : AuditInput) (db : DB) : DB :=
  mkDB (dbSnapshot db) (dbActiveAlarms db) (dbAlarmHistory db) (dbCommands db) (dbOperations db)
    (dbAudits db ++ [mkAuditEntry (dbNextAuditID db) at_ a]) (dbNextAuditID db + 1) (dbEndpoint db).

Definition setEndpoint (e : PLCEndpoint) (db : DB) : DB :=
  mkDB (dbSnapshot db) (dbActiveAlarms db) (dbAlarmHistory db) (dbCommands db) (dbOperations db)
    (dbAudits db) (dbNextAuditID db) (Some e).

(** ** The PLC endpoint *)

Definition validatePLCEndpoint (e : PLCEndpoint) : result store_error unit :=
  if epHost e =s "" then Err StHost
  else if (epPort e <? 1) || (65535 <? epPort e) then Err StPort
  else if (epUnitID e <? 1) || (247 <? epUnitID e) then Err StUnitID
  else Ok tt.

Definition SavePLCEndpoint (e : PLCEndpoint) : StoreM unit :=
  run! glift (validatePLCEndpoint e);
  do! db <- getDB;
  commit (setEndpoint e db).

Definition LoadPLCEndpoint : StoreM (option PLCEndpoint) :=
  run! stmt;
  do! db <- getDB;
  match dbEndpoint db with
  | None => gret None
  | Some e => run! glift (validatePLCEndpoint e); gret (Some e)
  end.

(** ** Snapshots *)

(** [INSERT] into the alarm tables; the active table's key is the alarm id. *)
Fixpoint insertAlarms (alarms : list ModelAlarm) (db : DB) : StoreM DB :=
  match alarms with
  | [] => gret db
  | item :: rest =>
      run! stmt;
      match dbActiveAlarms db !! maID item with
      | Some _ => gfail (StSql "UNIQUE constraint failed: active_alarms.alarm_id")
      | None =>
          run! stmt;
          let key := (maID item, maOccurredAt item) in
          let history := match dbAlarmHistory db !! key with
                         | Some _ => dbAlarmHistory db
                         | None => <[key := item]> (dbAlarmHistory db)
                         end in
          insertAlarms rest (setAlarmTables (<[maID item := item]> (dbActiveAlarms db)) history db)
      end
  end.

Definition saveSnapshotTx (r : SnapshotRecord) (db : DB) : StoreM DB :=
  run! stmt;
  run! stmt;
  insertAlarms (mdAlarms (srState r)) (setSnapshot r db).

(** [loadSnapshotQuery]; [None] is [ErrNoSnapshot]. *)
Definition loadSnapshotQuery (db : DB) : StoreM (option SnapshotRecord) :=
  run! stmt; gret (dbSnapshot db).

Definition LoadSnapshot : StoreM SnapshotRecord :=
  do! db <- getDB;
  do! r <- loadSnapshotQuery db;
  match r with Some r => gret r | None => gfail StNoSnapshot end.

Definition setReceivedAt (t : Z) (m : SourceMeta) : SourceMeta :=
  mkSourceMeta (smSimulatorSessionID m) (smSampleSequence m) (smQuality m) (smPLCConnected m) t.

(** The ordering test of [mergeSnapshot]. *)
Definition olderThan (s : Snapshot) (previous : SnapshotRecord) : bool :=
  let revision := ptControlRevision (ssPoints s) in
  let sameSession := ssSimulatorSessionID s =s smSimulatorSessionID (srMeta previous) in
  let sameRevision := revision =? mdRevision (srState previous) in
  (revision <? mdRevision (srState previous)) ||
  (sameSession && sameRevision && (ssSampleSequence s <? smSampleSequence (srMeta previous))) ||
  (negb sameSession && sameRevision && (ssGeneratedAt s <? mdUpdatedAt (srState previous))).

Definition emptyModel : Model :=
  mkModel 0 zeroTime false "" false false 0 0 0 0 0 0 0 0 0 0 0 0 [] [] [].

Definition terminalStatus (status : string) : bool :=
  (status =s CommandExecuted) || (status =s CommandRejected) || (status =s CommandFailed) ||
  (status =s CommandUnknown).

Section store.
(** The enumeration of a Go map by [range], the wall clock of [FromPLC]
    (overwritten here), and the digest of a command. *)
Variables (range : gmap Z ModelAlarm → list (Z * ModelAlarm)) (wall : Z) (digest : canonical → string).

Definition mergeSnapshot (s : Snapshot) (previous : option SnapshotRecord) (receivedAt staleAfter : Z)
    : result store_error SnapshotRecord :=
  if (ssSchemaVersion s <>s SchemaVersion) || (ssSimulatorSessionID s =s "") || isZero (ssGeneratedAt s)
  then Err StInvalidSnapshot
  else if match previous with Some p => olderThan s p | None => false end then Err StStaleSnapshot
  else
    let '(next, source) :=
      FromPLC range wall s (match previous with Some p => srState p | None => emptyModel end) in
    let r := mkSnapshotRecord next (setReceivedAt receivedAt source) false in
    Ok (mkSnapshotRecord next (setReceivedAt receivedAt source)
          (availabilityCode r receivedAt staleAfter <>s "")).

Definition SavePLC (s : Snapshot) (receivedAt staleAfter : Z) : StoreM SnapshotRecord :=
  run! orBackend stmt;
  do! db <- getDB;
  do! previous <- orBackend (loadSnapshotQuery db);
  do! record <- glift (mergeSnapshot s previous receivedAt staleAfter);
  do! db' <- orBackend (saveSnapshotTx record db);
  run! orBackend (commit db');
  run! setAvailabilityFromRecord record receivedAt staleAfter;
  gret record.

(** [SaveSnapshot], kept for the store's own tests; [now] is the store's clock. *)
Definition SaveSnapshot (r : SnapshotRecord) (now : Z) : StoreM unit :=
  run! orBackend (run! stmt; do! db <- getDB; do! db' <- saveSnapshotTx r db; commit db');
  if srStale r || negb (smPLCConnected (srMeta r)) || (smQuality (srMeta r) <>s QualityGood)
  then SetSourceUnavailable (availabilityCode r now maxDuration)
  else setSourceAvailable.

Definition MarkStale (code : string) : StoreM unit :=
  run! orBackend stmt;
  do! db <- getDB;
  do! current <- orBackend (loadSnapshotQuery db);
  match current with
  | None => run! SetSourceUnavailable code; commit db
  | Some r =>
      run! orBackend stmt;
      run! orBackend (commit (mkDB (Some (mkSnapshotRecord (srState r) (srMeta r) true)) (dbActiveAlarms db)
             (dbAlarmHistory db) (dbCommands db) (dbOperations db) (dbAudits db) (dbNextAuditID db)
             (dbEndpoint db)));
      SetSourceUnavailable code
  end.

(** ** Commands *)

Definition noResult (id name status : string) : CommandResult :=
  mkCommandResult id name status "" "" false 0 None.

Definition BeginCommand (raw : Command) (meta : CommandMeta) (now : Z) : StoreM CommandRecord :=
  let command := NormalizeCommand raw in
  let fingerprint := CommandFingerprint digest command in
  run! stmt;
  do! db <- getDB;
  match dbCommands db !! cmCommandID command with
  | Some row =>
      if rwFingerprint row <>s fingerprint then gfail StIdempotencyConflict
      else gret (mkCommandRecord true (rwFingerprint row)
             (match rwResult row with
              | Some r => r
              | None => noResult (cmCommandID command) (cmName command) (rwStatus row)
              end))
  | None =>
      let row := mkCommandRow fingerprint (cmName command) CommandPending meta None now now in
      run! commit (setCommands (<[cmCommandID command := row]> (dbCommands db)) db);
      gret (mkCommandRecord false fingerprint (noResult "" "" ""))
  end.

(** A completion of a record that already has its outcome: read-only. *)
Definition completeAgain (r : CommandResult) (row : CommandRow) (db : DB) (receivedAt staleAfter : Z)
    : StoreM (option SnapshotRecord) :=
  let id := crCommandID r in
  if negb (terminalStatus (rwStatus row)) then gfail (StInvalidStatus id (rwStatus row))
  else match rwResult row with
       | None => gfail (StNoResult id)
       | Some stored =>
           if (crCommandID stored <>s id) || (rwName row <>s crName r) || (crName stored <>s crName r) ||
              (crStatus stored <>s crStatus r)
           then gfail (StAlreadyCompleted id (crName stored) (crStatus stored))
           else if crStatus stored <>s rwStatus row then gfail (StDisagree id)
           else
             do! current <- orBackend (loadSnapshotQuery db);
             match current with
             | None => gret None
             | Some c => run! setAvailabilityFromRecord c receivedAt staleAfter; gret (Some c)
             end
       end.

(** The snapshot after a read-back: whether it was accepted, and the record kept. *)
Definition acceptReadback (readback : option Snapshot) (current : option SnapshotRecord)
    (receivedAt staleAfter : Z) : result store_error (bool * option SnapshotRecord) :=
  match readback with
  | None => Ok (false, current)
  | Some s =>
      match mergeSnapshot s current receivedAt staleAfter with
      | Ok merged => Ok (true, Some merged)
      | Err StStaleSnapshot =>
          match current with Some _ => Ok (false, current) | None => Err StStaleSnapshot end
      | Err e => Err e
      end
  end.

Definition withOperation (operation : OperationInput) (current : option SnapshotRecord)
    : option SnapshotRecord :=
  match current with
  | Some c =>
      if oiText operation <>s "" then
        Some (mkSnapshotRecord (AddOperation (oiLevel operation) (oiCode operation) (oiText operation)
                                  (oiAt operation) (srState c)) (srMeta c) (srStale c))
      else Some c
  | None => None
  end.

Definition setRevision (current : option SnapshotRecord) (a : AuditInput) : AuditInput :=
  match current with
  | Some c => mkAuditInput (auOperator a) (auAction a) (auMessage a) (mdRevision (srState c))
                (auRequestID a) (auDetails a)
  | None => a
  end.

(** The writes of a first completion, inside its transaction. *)
Definition completeTx (r : CommandResult) (row : CommandRow) (accepted : bool)
    (current : option SnapshotRecord) (operation : OperationInput) (audit : AuditInput) (now : Z)
    (db : DB) : StoreM DB :=
  do! db <- match current with
            | Some c => if accepted || (oiText operation <>s "") then orBackend (saveSnapshotTx c db)
                        else gret db
            | None => gret db
            end;
  run! orBackend stmt;
  let row' := mkCommandRow (rwFingerprint row) (rwName row) (crStatus r) (rwMeta row) (Some r)
                (rwCreatedAt row) now in
  run! orBackend stmt;
  run! orBackend stmt;
  gret (addAudit now (setRevision current audit)
          (addOperation (mkOperationRow now (crCommandID r) (crName r) (crStatus r) (auMessage audit))
             (setCommands (<[crCommandID r := row']> (dbCommands db)) db))).

(** [ack] is the error of an acknowledgement lost after the commit
    ([afterCompleteCommit]). *)
Definition CompleteCommand (r : CommandResult) (readback : option Snapshot) (receivedAt staleAfter : Z)
    (operation : OperationInput) (audit : AuditInput) (now : Z) (ack : option string)
    : StoreM (option SnapshotRecord) :=
  if negb (terminalStatus (crStatus r)) then gfail (StNotTerminal (crStatus r))
  else
    run! orBackend stmt;
    do! db <- getDB;
    run! orBackend stmt;
    match dbCommands db !! crCommandID r with
    | None => gfail (StNoRecord (crCommandID r))
    | Some row =>
        if rwStatus row <>s CommandPending then completeAgain r row db receivedAt staleAfter
        else
          do! loaded <- orBackend (loadSnapshotQuery db);
          do! read <- glift (acceptReadback readback loaded receivedAt staleAfter);
          let current := withOperation operation read.2 in
          do! db' <- completeTx r row read.1 current operation audit now db;
          run! orBackend (commit db');
          run! match ack with
               | Some e => orBackend (gfail (StAckLost e))
               | None => gret tt
               end;
          run! match current with
               | Some c => if read.1 then setAvailabilityFromRecord c receivedAt staleAfter else gret tt
               | None => gret tt
               end;
          gret current
    end.

(** ** Recovery and audit *)

Definition recoveredResult (id : string) (row : CommandRow) : CommandResult :=
  mkCommandResult id (rwName row) CommandUnknown "command_outcome_unknown"
    "agent restarted before command outcome was recorded" false 0 None.

Definition recoveryMessage : string := "UNKNOWN: agent restarted before command outcome was recorded".

(** The writes that recover one pending command; [details] is the audit's map
    and [now] the store's clock, which every record reads anew. *)
Definition recoverOne (details : string → CommandRow → string) (now : string → Z) (item : string * CommandRow)
    (db : DB) : StoreM DB :=
  let '(id, row) := item in
  run! stmt;
  match dbCommands db !! id with
  | Some row0 =>
      if rwStatus row0 <>s CommandPending then gfail (StNoTransition id)
      else
        run! stmt;
        run! stmt;
        gret (addAudit (now id)
          (mkAuditInput (cmOperator (rwMeta row)) (String.append "command." (rwName row)) recoveryMessage 0
             (cmRequestID (rwMeta row)) (details id row))
          (addOperation (mkOperationRow (now id) id (rwName row) CommandUnknown recoveryMessage)
             (setCommands (<[id := mkCommandRow (rwFingerprint row0) (rwName row0) CommandUnknown
                (rwMeta row0) (Some (recoveredResult id row)) (rwCreatedAt row0) (now id)]> (dbCommands db)) db)))
  | None => gfail (StNoTransition id)
  end.

Fixpoint recoverAll (details : string → CommandRow → string) (now : string → Z) (items : list (string * CommandRow))
    (db : DB) : StoreM DB :=
  match items with
  | [] => gret db
  | item :: rest => do! db' <- recoverOne details now item db; recoverAll details now rest db'
  end.

Definition pendingCommands (db : DB) : list (string * CommandRow) :=
  filter (fun item => rwStatus item.2 = CommandPending) (map_to_list (dbCommands db)).

Definition RecoverPending (details : string → CommandRow → string) (now : string → Z) : StoreM unit :=
  run! stmt;
  do! db <- getDB;
  run! stmt;
  do! db' <- recoverAll details now (pendingCommands db) db;
  commit db'.

(** [ORDER BY id DESC LIMIT limit+1], then the page and its cursor. *)
Definition auditRows (beforeID : option Z) (db : DB) : list AuditEntry :=
  filter (beforeCursor beforeID) (reverse (dbAudits db)).

Definition pageOf (limit : nat) (rows : list AuditEntry) : AuditPage :=
  let items := take (limit + 1) rows in
  if (limit <? length items)%nat then
    mkAuditPage (take limit items)
      (match last (take limit items) with Some e => Some (aeID e) | None => None end)
  else mkAuditPage items None.

Definition Audit (limit : nat) (beforeID : option Z) : StoreM AuditPage :=
  run! stmt;
  do! db <- getDB;
  gret (pageOf limit (auditRows beforeID db)).
End store.
