(* ===== verification/StorageProofs.v ===== *)
(** * Properties of the store

    Rules for the store's programs over its database, whatever the statements'
    outcomes; atomicity of the transactions; the invariant that a command has
    exactly one recorded outcome; and the ordering of persisted snapshots. *)

From S2P Require Import Prelude PlcContract StateModel Storage.

(** ** Programs over the database *)

(** [m] does not write the database; its result is [R] of what is there. *)
Definition readonly {A} (m : StoreM A) (R : DB → A → Prop) : Prop :=
  ∀ s, stDB (m s).2 = stDB s ∧ ∀ a, (m s).1 = Ok a → R (stDB s) a.

Lemma wp_readonly {A} (m : StoreM A) R Q s :
  readonly m R →
  (∀ a s', stDB s' = stDB s → R (stDB s) a → Q (Ok a) s') →
  (∀ e s', stDB s' = stDB s → Q (Err e) s') → wp m Q s.
Proof.
  intros Hm HO HE. destruct (Hm s) as [Hd Hr]. unfold wp. destruct (m s) as [[a|e] s']; simpl in *; eauto.
Qed.

Lemma readonly_mono {A} (m : StoreM A) (R R' : DB → A → Prop) :
  readonly m R → (∀ d a, R d a → R' d a) → readonly m R'.
Proof. intros Hm HR s. destruct (Hm s) as [? Hr]. split; [done|]. intros a Ha. by apply HR, Hr. Qed.

Lemma readonly_bind {A B} (m : StoreM A) (k : A → StoreM B) R R' :
  readonly m R → (∀ a, readonly (k a) (fun d b => R d a → R' d b)) → readonly (gbind m k) R'.
Proof.
  intros Hm Hk s. unfold gbind. destruct (Hm s) as [Hd Hr]. destruct (m s) as [[a|e] s']; simpl in *.
  - destruct (Hk a s') as [Hd' Hr']. rewrite Hd', Hd. split; [done|]. intros b Hb.
    rewrite <-Hd. apply Hr'; [done|]. rewrite Hd. by apply Hr.
  - by split.
Qed.

Lemma readonly_ret {A} (a : A) : readonly (gret a) (fun _ b => b = a).
Proof. intros s. split; [done|]. by intros ? [= ->]. Qed.

Lemma readonly_fail {A} e (R : DB → A → Prop) : readonly (gfail e) R.
Proof. by intros s. Qed.

Lemma readonly_lift {A} (r : result store_error A) : readonly (glift r) (fun _ a => r = Ok a).
Proof. by intros s. Qed.

Lemma readonly_stmt : readonly stmt (fun _ _ => True).
Proof. intros s. unfold stmt. by repeat case_match. Qed.

Lemma readonly_getDB : readonly getDB (fun d a => a = d).
Proof. intros s. split; [done|]. by intros ? [= ->]. Qed.

Lemma readonly_health b c : readonly (gmod (setHealth b c)) (fun _ _ => True).
Proof. by intros s. Qed.

Lemma readonly_orBackend {A} (m : StoreM A) R : readonly m R → readonly (orBackend m) R.
Proof.
  intros Hm s. unfold orBackend, gbind, attempt. destruct (Hm s) as [Hd Hr].
  destruct (m s) as [[a|e] s']; simpl in *; [by split|]. by rewrite Hd.
Qed.

Lemma readonly_load db : readonly (loadSnapshotQuery db) (fun _ a => a = dbSnapshot db).
Proof.
  eapply readonly_bind; [apply readonly_stmt|]. intros ?. eapply readonly_mono; [apply readonly_ret|]. done.
Qed.

Lemma readonly_available r now stale : readonly (setAvailabilityFromRecord r now stale) (fun _ _ => True).
Proof. unfold setAvailabilityFromRecord. case_match; apply readonly_health. Qed.

(** A transaction's writes touch only the working copy. *)
Lemma readonly_insertAlarms alarms db :
  readonly (insertAlarms alarms db) (fun _ db' =>
    dbSnapshot db' = dbSnapshot db ∧ dbCommands db' = dbCommands db ∧
    dbOperations db' = dbOperations db ∧ dbAudits db' = dbAudits db).
Proof.
  revert db. induction alarms as [|item rest IH]; intros db; cbn [insertAlarms].
  - eapply readonly_mono; [apply readonly_ret|]. by intros ? ? ->.
  - eapply readonly_bind; [apply readonly_stmt|]. intros ?.
    case_match; [apply readonly_fail|]. eapply readonly_bind; [apply readonly_stmt|]. intros ?.
    eapply readonly_mono; [apply IH|]. done.
Qed.

Lemma readonly_saveSnapshotTx r db :
  readonly (saveSnapshotTx r db) (fun _ db' =>
    dbSnapshot db' = Some r ∧ dbCommands db' = dbCommands db ∧
    dbOperations db' = dbOperations db ∧ dbAudits db' = dbAudits db).
Proof.
  eapply readonly_bind; [apply readonly_stmt|]. intros ?.
  eapply readonly_bind; [apply readonly_stmt|]. intros ?.
  eapply readonly_mono; [apply readonly_insertAlarms|]. done.
Qed.

Lemma wp_commit db Q s :
  (∀ s', stDB s' = db → Q (Ok tt) s') → (∀ e s', stDB s' = stDB s → Q (Err e) s') → wp (commit db) Q s.
Proof.
  intros HO HE. apply wp_bind. eapply wp_readonly; [apply readonly_stmt| |eauto].
  intros [] s' Hd _. by apply HO.
Qed.

Lemma wp_orBackend_commit db Q s :
  (∀ s', stDB s' = db → Q (Ok tt) s') → (∀ e s', stDB s' = stDB s → Q (Err e) s') →
  wp (orBackend (commit db)) Q s.
Proof.
  intros HO HE. apply wp_bind, wp_attempt. apply wp_commit.
  - intros s' Hs'. by apply HO.
  - intros e s' Hs'. apply wp_bind. unfold wp at 1. simpl. apply wp_fail, HE. done.
Qed.

(** ** Atomic operations *)

(** A failed operation leaves the database as it was; a successful one relates
    the old database to the new one by [P]. *)
Definition atomic {A} (m : StoreM A) (P : DB → A → DB → Prop) : Prop :=
  ∀ s, wp m (fun r s' => match r with Ok a => P (stDB s) a (stDB s') | Err _ => stDB s' = stDB s end) s.

Lemma atomic_readonly {A} (m : StoreM A) R : readonly m R → atomic m (fun d a d' => d' = d ∧ R d a).
Proof. intros Hm s. eapply wp_readonly; [exact Hm|auto|auto]. Qed.

Lemma atomic_mono {A} (m : StoreM A) (P P' : DB → A → DB → Prop) :
  atomic m P → (∀ d a d', P d a d' → P' d a d') → atomic m P'.
Proof. intros Hm HP s. eapply wp_mono; [apply Hm|]. intros [a|e] s' Hr; auto. Qed.

(** Reading first keeps an operation atomic. *)
Lemma atomic_bind_readonly {A B} (m : StoreM A) (k : A → StoreM B) R P :
  readonly m R → (∀ a, atomic (k a) (fun d b d' => R d a → P d b d')) → atomic (gbind m k) P.
Proof.
  intros Hm Hk s. apply wp_bind. eapply wp_readonly; [exact Hm| |auto].
  intros a s' Hd HR. eapply wp_mono; [apply Hk|]. intros [b|e] s'' Hr; simpl in *; [|by rewrite Hr].
  rewrite Hd in Hr. auto.
Qed.

(** What follows the commit must not fail. *)
Lemma atomic_commit_then {A} db (k : unit → StoreM A) (P : DB → A → DB → Prop) :
  (∀ s, stDB s = db → wp (k tt) (fun r s' => ∃ a, r = Ok a ∧ stDB s' = db ∧ ∀ d, P d a db) s) →
  atomic (gbind (orBackend (commit db)) k) P.
Proof.
  intros Hk s. apply wp_bind, wp_orBackend_commit; [|auto].
  intros s' Hs'. eapply wp_mono; [by apply Hk|]. intros r s'' (a & -> & Hd & HP). by rewrite Hd.
Qed.

Lemma wp_available_ret {A} r now stale (a : A) s db (P : A → Prop) :
  stDB s = db → P a →
  wp (run! setAvailabilityFromRecord r now stale; gret a)
     (fun r s' => ∃ a, r = Ok a ∧ stDB s' = db ∧ P a) s.
Proof.
  intros Hs HP. unfold wp, gbind, setAvailabilityFromRecord.
  destruct (availabilityCode r now stale <>s ""); simpl; exists a; by split_and!.
Qed.

(** Recording the source's availability never fails. *)
Lemma wp_mark current accepted now stale s :
  wp (match current with
      | Some c => if accepted : bool then setAvailabilityFromRecord c now stale else gret tt
      | None => gret tt
      end) (fun r s' => r = Ok tt ∧ stDB s' = stDB s) s.
Proof.
  destruct current; [destruct accepted|]; try done.
  unfold setAvailabilityFromRecord. by case_match.
Qed.

Section store_proofs.
Variables (range : gmap Z ModelAlarm → list (Z * ModelAlarm)) (wall : Z) (digest : canonical → string).
Notation mergeSnapshot := (mergeSnapshot range wall).
Notation SavePLC := (SavePLC range wall).

(** [FromPLC]'s model carries the snapshot's identity. *)
Lemma FromPLC_meta s previous m meta :
  FromPLC range wall s previous = (m, meta) →
  mdRevision m = ptControlRevision (ssPoints s) ∧ mdUpdatedAt m = ssGeneratedAt s ∧
  smSimulatorSessionID meta = ssSimulatorSessionID s ∧ smSampleSequence meta = ssSampleSequence s.
Proof.
  unfold FromPLC. cbn zeta. rewrite raise_loop, clear_loop. intros [= <- <-].
  assert (∀ es m, mdRevision (prependAll es m) = mdRevision m ∧ mdUpdatedAt (prependAll es m) = mdUpdatedAt m) as Hp.
  { induction es as [|e es IH]; intros m0; [done|]. apply (IH (prependHistory e m0)). }
  rewrite <-prependAll_app. by split_and!; try apply Hp.
Qed.

Record merged (s : Snapshot) (previous : option SnapshotRecord) (r : SnapshotRecord) : Prop := {
  mg_revision : mdRevision (srState r) = ptControlRevision (ssPoints s);
  mg_updated : mdUpdatedAt (srState r) = ssGeneratedAt s;
  mg_session : smSimulatorSessionID (srMeta r) = ssSimulatorSessionID s;
  mg_sequence : smSampleSequence (srMeta r) = ssSampleSequence s;
  mg_newer : ∀ p, previous = Some p → olderThan s p = false
}.

Lemma mergeSnapshot_ok s previous received stale r :
  mergeSnapshot s previous received stale = Ok r → merged s previous r.
Proof.
  unfold Storage.mergeSnapshot. destruct (_ || _ || _); [done|].
  destruct (match previous with Some p => olderThan s p | None => false end) eqn:Ho; [done|].
  destruct (FromPLC _ _ _ _) as [m meta] eqn:Hf. apply FromPLC_meta in Hf as (? & ? & ? & ?).
  intros [= <-]. split; simpl; try done. intros p ->. done.
Qed.

(** The order in which snapshots may replace each other. *)
Definition not_older (old new : SnapshotRecord) : Prop :=
  mdRevision (srState old) < mdRevision (srState new) ∨
  (mdRevision (srState old) = mdRevision (srState new) ∧
   (smSimulatorSessionID (srMeta old) = smSimulatorSessionID (srMeta new) →
      smSampleSequence (srMeta old) ≤ smSampleSequence (srMeta new)) ∧
   (smSimulatorSessionID (srMeta old) ≠ smSimulatorSessionID (srMeta new) →
      mdUpdatedAt (srState old) ≤ mdUpdatedAt (srState new))).

Definition snapshot_order (old new : option SnapshotRecord) : Prop :=
  match old, new with
  | None, _ => True
  | Some o, Some n => not_older o n
  | Some _, None => False
  end.

Lemma not_older_refl r : not_older r r.
Proof. right. split_and!; [done|lia|done]. Qed.

Lemma snapshot_order_refl o : snapshot_order o o.
Proof. destruct o; [apply not_older_refl|done]. Qed.

(** An operator's line in the history does not change what is ordered. *)
Lemma withOperation_order operation o : snapshot_order o (withOperation operation o).
Proof.
  unfold withOperation. destruct o as [c|]; [|done]. case_match; [|apply not_older_refl].
  right. split_and!; [done|done|done].
Qed.

Lemma withOperation_order' operation previous o :
  snapshot_order previous o → snapshot_order previous (withOperation operation o).
Proof. unfold withOperation. destruct o as [c|]; [|done]. by case_match. Qed.

Lemma merged_not_older s previous r : merged s previous r → snapshot_order previous (Some r).
Proof.
  intros [Hr Hu Hs Hq Hn]. destruct previous as [p|]; [|done]. specialize (Hn p eq_refl).
  unfold olderThan in Hn. cbn zeta in Hn. apply orb_false_iff in Hn as [[H1 H2]%orb_false_iff H3].
  simpl. unfold not_older. rewrite Hr, Hu, Hs, Hq. propify.
  destruct (decide (mdRevision (srState p) = ptControlRevision (ssPoints s))) as [Heq|]; [right|left; lia].
  rewrite Heq, Z.eqb_refl in *. split_and!; [done|..]; intros Hses.
  - rewrite Hses, String.eqb_refl in H2. simpl in H2. by apply Z.ltb_ge in H2.
  - assert ((ssSimulatorSessionID s =s smSimulatorSessionID (srMeta p)) = false) as Hne
      by (apply String.eqb_neq; congruence).
    rewrite Hne in H3. simpl in H3. by apply Z.ltb_ge in H3.
Qed.

Lemma SavePLC_atomic s received stale :
  atomic (SavePLC s received stale) (fun d r d' =>
    mergeSnapshot s (dbSnapshot d) received stale = Ok r ∧ dbSnapshot d' = Some r ∧
    dbCommands d' = dbCommands d ∧ dbOperations d' = dbOperations d ∧ dbAudits d' = dbAudits d).
Proof.
  unfold Storage.SavePLC.
  eapply atomic_bind_readonly; [apply readonly_orBackend, readonly_stmt|intros ?].
  eapply atomic_bind_readonly; [apply readonly_getDB|intros db].
  eapply atomic_bind_readonly; [apply readonly_orBackend, readonly_load|intros previous].
  eapply atomic_bind_readonly; [apply readonly_lift|intros record].
  eapply atomic_bind_readonly; [apply readonly_orBackend, readonly_saveSnapshotTx|intros db'].
  apply atomic_commit_then. intros s0 Hs0.
  eapply wp_mono; [apply (wp_available_ret _ _ _ _ _ db' (fun a => a = record)); done|].
  intros r s' (x & -> & Hd & ->). exists record. split_and!; [done|done|].
  intros d (? & ? & ? & ?) Hm -> -> _. by split_and!.
Qed.

Lemma acceptReadback_order readback current received stale accepted read :
  acceptReadback range wall readback current received stale = Ok (accepted, read) →
  snapshot_order current read.
Proof.
  unfold acceptReadback. destruct readback as [s|]; [|intros [= _ <-]; apply snapshot_order_refl].
  destruct (mergeSnapshot s current received stale) as [m|e] eqn:Hm.
  - intros [= _ <-]. by eapply merged_not_older, mergeSnapshot_ok.
  - destruct e; try done. destruct current; [|done]. intros [= _ <-]. apply not_older_refl.
Qed.

(** ** Completing a command *)

Section complete.
Variables (r : CommandResult) (readback : option Snapshot) (received stale : Z)
  (operation : OperationInput) (audit : AuditInput) (now : Z) (ack : option string).
Notation id := (crCommandID r).
Notation acceptReadback := (acceptReadback range wall).
Notation Complete := (CompleteCommand range wall r readback received stale operation audit now ack).

(** The one transition of a pending record to its outcome. *)
Record first_completion (d d' : DB) : Prop := {
  fc_terminal : terminalStatus (crStatus r) = true;
  fc_row : ∃ row, dbCommands d !! id = Some row ∧ rwStatus row = CommandPending ∧
    dbCommands d' = <[id := mkCommandRow (rwFingerprint row) (rwName row) (crStatus r) (rwMeta row)
                              (Some r) (rwCreatedAt row) now]> (dbCommands d);
  fc_operation : dbOperations d' =
    dbOperations d ++ [mkOperationRow now id (crName r) (crStatus r) (auMessage audit)];
  fc_audit : ∃ a n, dbAudits d' = dbAudits d ++ [mkAuditEntry n now a] ∧ auMessage a = auMessage audit;
  fc_snapshot : ∃ accepted read, acceptReadback readback (dbSnapshot d) received stale = Ok (accepted, read) ∧
    dbSnapshot d' = withOperation operation read
}.

Lemma readonly_completeTx row accepted current db read :
  acceptReadback readback (dbSnapshot db) received stale = Ok (accepted, read) →
  current = withOperation operation read → dbCommands db !! id = Some row →
  rwStatus row = CommandPending → terminalStatus (crStatus r) = true →
  readonly (completeTx r row accepted current operation audit now db)
    (fun _ d' => first_completion db d').
Proof.
  intros Hacc Hcur Hrow Hpend Hterm. unfold completeTx.
  eapply (readonly_bind _ _ (fun _ d => dbSnapshot d = current ∧ dbCommands d = dbCommands db ∧
    dbOperations d = dbOperations db ∧ dbAudits d = dbAudits db)).
  { destruct current as [c|] eqn:Hc.
    - destruct (accepted || (oiText operation <>s "")) eqn:Hsave.
      + apply readonly_orBackend, readonly_saveSnapshotTx.
      + eapply readonly_mono; [apply readonly_ret|]. intros _ d ->. split_and!; try done.
        apply orb_false_iff in Hsave as [-> Ht]. unfold withOperation in Hcur. rewrite Ht in Hcur.
        unfold Storage.acceptReadback in Hacc. repeat (case_match; simplify_eq); congruence.
    - eapply readonly_mono; [apply readonly_ret|]. intros _ d ->. split_and!; try done.
      unfold withOperation in Hcur. destruct read; [by case_match|].
      unfold Storage.acceptReadback in Hacc. repeat (case_match; simplify_eq); congruence. }
  intros d1. eapply readonly_bind; [apply readonly_orBackend, readonly_stmt|]. intros ?.
  eapply readonly_bind; [apply readonly_orBackend, readonly_stmt|]. intros ?.
  eapply readonly_bind; [apply readonly_orBackend, readonly_stmt|]. intros ?.
  eapply readonly_mono; [apply readonly_ret|]. intros _ d' -> _ _ _ (Hs & Hcm & Ho & Ha). split; simpl; [done|..].
  - exists row. by rewrite Hcm.
  - by rewrite Ho.
  - eexists _, _. rewrite Ha. split; [done|]. unfold setRevision. by case_match.
  - exists accepted, read. by rewrite Hs, Hcur.
Qed.

(** A record that already has this outcome. *)
Definition already (row : CommandRow) : Prop :=
  rwStatus row ≠ CommandPending ∧
  ∃ stored, rwResult row = Some stored ∧ crCommandID stored = id ∧ crName stored = crName r ∧
    crStatus stored = crStatus r.

Lemma readonly_completeAgain row db :
  rwStatus row ≠ CommandPending →
  readonly (completeAgain r row db received stale) (fun _ a => a = dbSnapshot db ∧ already row).
Proof.
  intros Hp. unfold completeAgain. case_match; [apply readonly_fail|].
  destruct (rwResult row) as [stored|] eqn:Hst; [|apply readonly_fail].
  destruct (_ || _ || _ || _) eqn:Hdiff; [apply readonly_fail|]. case_match; [apply readonly_fail|].
  assert (already row) as Hal by (propify; split; [done|]; by exists stored).
  eapply readonly_bind; [apply readonly_orBackend, readonly_load|]. intros [cur|].
  - eapply readonly_bind; [apply readonly_available|]. intros ?.
    eapply readonly_mono; [apply readonly_ret|]. intros d x -> _ Hx. done.
  - eapply readonly_mono; [apply readonly_ret|]. intros d x -> Hx. done.
Qed.

(** What a completion does: nothing to the database, or the transition. *)
Lemma CompleteCommand_spec s :
  wp Complete (fun res s' =>
    match res with
    | Ok a => a = dbSnapshot (stDB s') ∧
              ((stDB s' = stDB s ∧ ∃ row, dbCommands (stDB s) !! id = Some row ∧ already row) ∨
               first_completion (stDB s) (stDB s'))
    | Err e => stDB s' = stDB s ∨ (∃ t, e = StAckLost t) ∧ first_completion (stDB s) (stDB s')
    end) s.
Proof.
  unfold CompleteCommand.
  destruct (terminalStatus (crStatus r)) eqn:Hterm; cbn [negb]; [|apply wp_fail; by left].
  apply wp_bind. eapply wp_readonly; [apply readonly_orBackend, readonly_stmt| |auto].
  intros _ s1 Hs1 _. apply wp_bind. eapply wp_readonly; [apply readonly_getDB| |intros e s' ->; auto].
  intros db s2 Hs2 ->. apply wp_bind.
  eapply wp_readonly; [apply readonly_orBackend, readonly_stmt| |intros e s' ->; left; congruence].
  intros _ s3 Hs3 _. assert (stDB s3 = stDB s) as Hd by congruence. rewrite Hs1. clear Hs1 Hs2 Hs3 s1 s2.
  destruct (dbCommands (stDB s) !! id) as [row|] eqn:Hrow; [|apply wp_fail; by left].
  destruct (String.eqb_spec (rwStatus row) CommandPending) as [Hp|Hp]; cbn [negb]; cycle 1.
  { eapply wp_readonly; [by apply readonly_completeAgain| |intros e s' ->; by left].
    intros a s' -> [-> Hal]. rewrite Hd. eauto 6. }
  apply wp_bind. eapply wp_readonly; [apply readonly_orBackend, readonly_load| |intros e s' ->; by left].
  intros loaded s4 Hs4 ->. apply wp_bind.
  eapply wp_readonly; [apply readonly_lift| |intros e s' ->; left; congruence].
  intros [accepted read] s5 Hs5 Hacc. apply wp_bind.
  eapply wp_readonly; [by eapply readonly_completeTx| |intros e s' ->; left; congruence].
  intros db' s6 Hs6 Hfc. apply wp_bind, wp_orBackend_commit; [|intros e s' ->; left; congruence].
  intros s7 Hs7. cbn [fst snd].
  assert (dbSnapshot db' = withOperation operation read) as Hsnap.
  { destruct Hfc as [_ _ _ _ (acc' & read' & Hacc' & ->)]. rewrite Hacc in Hacc'. by injection Hacc' as <- <-. }
  apply wp_bind. destruct ack as [e|].
  - unfold wp, orBackend, gbind, attempt, gfail. simpl. right. rewrite Hs7. eauto.
  - apply wp_ret, wp_bind. eapply wp_mono; [apply wp_mark|].
    intros r0 s8 [-> Hd8]. apply wp_ret. rewrite Hd8, Hs7, Hsnap. auto.
Qed.
End complete.
End store_proofs.
