(* ===== verification/StorageRuns.v ===== *)
(** * Histories of the store

    Every operation of the store, whatever statements fail in it, keeps each
    command to one recorded outcome and never lets an older snapshot replace a
    newer one.  A history is a list of operations from the empty database. *)

From S2P Require Import Prelude GoText PlcContract StateModel Storage StorageProofs.

(** ** One outcome for each command *)

Definition opsOf (id : string) (db : DB) : list OperationRow :=
  filter (fun o => opCommandID o = id) (dbOperations db).

(** A pending command has no outcome; a finished one has its result and exactly
    one line in the operation log, which agree. *)
Definition row_ok (id : string) (db : DB) (row : CommandRow) : Prop :=
  (rwStatus row = CommandPending ∧ rwResult row = None ∧ opsOf id db = []) ∨
  (terminalStatus (rwStatus row) = true ∧
   ∃ r o, rwResult row = Some r ∧ crCommandID r = id ∧ crStatus r = rwStatus row ∧
     opsOf id db = [o] ∧ opAction o = crName r ∧ opStatus o = crStatus r).

Definition db_ok (db : DB) : Prop :=
  ∀ id, match dbCommands db !! id with
        | Some row => row_ok id db row
        | None => opsOf id db = []
        end.

Lemma emptyDB_ok : db_ok emptyDB.
Proof. intros id. done. Qed.

Lemma pending_not_terminal status : terminalStatus status = true → status ≠ CommandPending.
Proof. by intros H ->. Qed.

Lemma db_ok_same d d' :
  dbCommands d' = dbCommands d → dbOperations d' = dbOperations d → db_ok d → db_ok d'.
Proof. intros Hc Ho Hd id. specialize (Hd id). unfold row_ok, opsOf in *. by rewrite Hc, Ho. Qed.

(** A pending row becomes final together with its line of the operation log. *)
Lemma db_ok_finish d d' id row row' r o :
  db_ok d → dbCommands d !! id = Some row → rwStatus row = CommandPending →
  dbCommands d' = <[id := row']> (dbCommands d) → dbOperations d' = dbOperations d ++ [o] →
  terminalStatus (rwStatus row') = true → rwResult row' = Some r →
  crCommandID r = id → crStatus r = rwStatus row' →
  opCommandID o = id → opAction o = crName r → opStatus o = crStatus r → db_ok d'.
Proof.
  intros Hd Hrow Hp Hc Ho Ht Hr Hid Hst Hoid Hoa Hos id'. rewrite Hc. unfold row_ok, opsOf.
  rewrite Ho, filter_app. pose proof (Hd id') as Hd'. destruct (decide (id' = id)) as [->|Hne].
  - rewrite lookup_insert_eq, filter_cons_True, filter_nil by done. right. split; [done|].
    rewrite Hrow in Hd'. destruct Hd' as [(_ & _ & Hops)|[Ht' _]]; [|by rewrite Hp in Ht'].
    unfold opsOf in Hops. rewrite Hops. exists r, o. by split_and!.
  - rewrite lookup_insert_ne by done. rewrite filter_cons_False, filter_nil, app_nil_r by congruence. done.
Qed.

Lemma db_ok_begin d d' id row :
  db_ok d → dbCommands d !! id = None → rwStatus row = CommandPending → rwResult row = None →
  dbCommands d' = <[id := row]> (dbCommands d) → dbOperations d' = dbOperations d → db_ok d'.
Proof.
  intros Hd Hrow Hp Hr Hc Ho id'. rewrite Hc. pose proof (Hd id') as Hd'. unfold row_ok, opsOf in *. rewrite Ho.
  destruct (decide (id' = id)) as [->|Hne].
  - rewrite lookup_insert_eq. left. by rewrite Hrow in Hd'.
  - by rewrite lookup_insert_ne.
Qed.

(** ** What an operation may do *)

(** The effect every operation is allowed: the invariant, final rows kept, no
    command or log line lost, and the snapshot replaced in order. *)
Record allowed (d d' : DB) : Prop := {
  al_ok : db_ok d → db_ok d';
  al_final : ∀ id row, dbCommands d !! id = Some row → rwStatus row ≠ CommandPending →
               dbCommands d' !! id = Some row;
  al_known : ∀ id, is_Some (dbCommands d !! id) → is_Some (dbCommands d' !! id);
  al_log : dbOperations d `prefix_of` dbOperations d';
  al_order : snapshot_order (dbSnapshot d) (dbSnapshot d')
}.

Lemma allowed_refl d : allowed d d.
Proof. split; auto. apply snapshot_order_refl. Qed.

Lemma allowed_trans d1 d2 d3 :
  allowed d1 d2 → allowed d2 d3 → snapshot_order (dbSnapshot d1) (dbSnapshot d3) → allowed d1 d3.
Proof. intros [] [] ?. split; auto. by etrans. Qed.

(** Operations that write only the snapshot, the alarms or the endpoint. *)
Lemma allowed_snapshot d d' :
  dbCommands d' = dbCommands d → dbOperations d' = dbOperations d →
  snapshot_order (dbSnapshot d) (dbSnapshot d') → allowed d d'.
Proof.
  intros Hc Ho Hs. split; try done.
  - by apply db_ok_same.
  - by rewrite Hc.
  - by rewrite Hc.
  - by rewrite Ho.
Qed.

(** Operations that finish a pending command. *)
Lemma allowed_finish d d' id row row' r o :
  dbCommands d !! id = Some row → rwStatus row = CommandPending →
  dbCommands d' = <[id := row']> (dbCommands d) → dbOperations d' = dbOperations d ++ [o] →
  terminalStatus (rwStatus row') = true → rwResult row' = Some r →
  crCommandID r = id → crStatus r = rwStatus row' →
  opCommandID o = id → opAction o = crName r → opStatus o = crStatus r →
  snapshot_order (dbSnapshot d) (dbSnapshot d') → allowed d d'.
Proof.
  intros Hrow Hp Hc Ho **. split; try done.
  - intros Hd. by eapply db_ok_finish.
  - intros id' row0 Hrow0 Hnp. rewrite Hc, lookup_insert_ne; [done|]. congruence.
  - intros id' Hs. rewrite Hc. destruct (decide (id = id')) as [->|]; [|by rewrite lookup_insert_ne].
    rewrite lookup_insert_eq. eauto.
  - rewrite Ho. by apply prefix_app_r.
Qed.

Lemma allowed_begin d d' id row :
  dbCommands d !! id = None → rwStatus row = CommandPending → rwResult row = None →
  dbCommands d' = <[id := row]> (dbCommands d) → dbOperations d' = dbOperations d →
  dbSnapshot d' = dbSnapshot d → allowed d d'.
Proof.
  intros Hrow Hp Hr Hc Ho Hs. split.
  - intros Hd. by eapply db_ok_begin.
  - intros id' row0 Hrow0 _. rewrite Hc, lookup_insert_ne; [done|]. congruence.
  - intros id' [x Hx]. rewrite Hc, lookup_insert_ne; [eauto|]. congruence.
  - by rewrite Ho.
  - rewrite Hs. apply snapshot_order_refl.
Qed.

(** ** Each operation *)

(** A command recorded as pending, or found there. *)
Definition begun (fingerprint : string) (command : Command) (meta : CommandMeta) (now : Z)
    (d : DB) (rec : CommandRecord) (d' : DB) : Prop :=
  match dbCommands d !! cmCommandID command with
  | Some row => d' = d ∧ rwFingerprint row = fingerprint ∧ rcExists rec = true ∧
                (∀ r, rwResult row = Some r → rcResult rec = r)
  | None => rcExists rec = false ∧
            d' = setCommands (<[cmCommandID command :=
                   mkCommandRow fingerprint (cmName command) CommandPending meta None now now]> (dbCommands d)) d
  end.

Lemma atomic_fail {A} e (P : DB → A → DB → Prop) : atomic (gfail e) P.
Proof. by intros s. Qed.

Lemma atomic_commit {A} db (a : A) (P : DB → A → DB → Prop) :
  (∀ d, P d a db) → atomic (run! commit db; gret a) P.
Proof.
  intros HP s. apply wp_bind, wp_commit; [|auto]. intros s' Hs'. apply wp_ret. by rewrite Hs'.
Qed.

Lemma BeginCommand_atomic digest raw meta now :
  let command := NormalizeCommand raw in
  atomic (BeginCommand digest raw meta now) (begun (CommandFingerprint digest command) command meta now).
Proof.
  intros command. unfold BeginCommand. cbn zeta.
  eapply atomic_bind_readonly; [apply readonly_stmt|intros ?].
  eapply atomic_bind_readonly; [apply readonly_getDB|intros db]. fold command.
  destruct (dbCommands db !! cmCommandID command) as [row|] eqn:Hrow.
  - destruct (String.eqb_spec (rwFingerprint row) (CommandFingerprint digest command)) as [Hf|]; cbn [negb];
      [|apply atomic_fail].
    eapply atomic_mono; [eapply atomic_readonly, readonly_ret|]. intros d rec d' [-> ->] -> _.
    unfold begun. rewrite Hrow. split_and!; try done. intros r Hr. cbn [rcResult]. by rewrite Hr.
  - apply atomic_commit. intros d -> _. unfold begun. by rewrite Hrow.
Qed.

Lemma MarkStale_atomic code :
  atomic (MarkStale code) (fun d _ d' =>
    dbCommands d' = dbCommands d ∧ dbOperations d' = dbOperations d ∧ dbAudits d' = dbAudits d ∧
    dbSnapshot d' = (fun r => mkSnapshotRecord (srState r) (srMeta r) true) <$> dbSnapshot d).
Proof.
  unfold MarkStale.
  eapply atomic_bind_readonly; [apply readonly_orBackend, readonly_stmt|intros ?].
  eapply atomic_bind_readonly; [apply readonly_getDB|intros db].
  eapply atomic_bind_readonly; [apply readonly_orBackend, readonly_load|intros [r|]].
  - eapply atomic_bind_readonly; [apply readonly_orBackend, readonly_stmt|intros ?].
    apply atomic_commit_then. intros s Hs. exists tt. split_and!; [done|done|].
    intros d _ Hr -> _. simpl in *. by rewrite <-Hr.
  - eapply atomic_bind_readonly; [apply readonly_health|intros ?].
    intros s. apply wp_commit; [|auto]. intros s1 Hs1 _ Hr Hdb _. rewrite Hs1, <-Hdb, <-Hr. done.
Qed.

Lemma SavePLCEndpoint_atomic e :
  atomic (SavePLCEndpoint e) (fun d _ d' => validatePLCEndpoint e = Ok tt ∧ d' = setEndpoint e d).
Proof.
  unfold SavePLCEndpoint.
  eapply atomic_bind_readonly; [apply readonly_lift|intros []].
  eapply atomic_bind_readonly; [apply readonly_getDB|intros db].
  intros s. apply wp_commit; [|auto]. intros s' Hs' ? ?. by subst.
Qed.

(** ** Recovery at start-up *)

Definition still_pending (id : string) (db : DB) : Prop :=
  ∃ row, dbCommands db !! id = Some row ∧ rwStatus row = CommandPending.

Lemma pendingCommands_spec id row d :
  (id, row) ∈ pendingCommands d ↔ dbCommands d !! id = Some row ∧ rwStatus row = CommandPending.
Proof. unfold pendingCommands. rewrite list_elem_of_filter, elem_of_map_to_list. naive_solver. Qed.

Section recovery.
Variables (details : string → CommandRow → string) (now : string → Z).

(** The record of a recovered command: UNKNOWN, with a result that says so. *)
Definition unknown_row (row : CommandRow) : Prop :=
  rwStatus row = CommandUnknown ∧ ∃ r, rwResult row = Some r ∧ crStatus r = CommandUnknown.

Record recovered (items : list (string * CommandRow)) (d d' : DB) : Prop := {
  rv_allowed : allowed d d';
  rv_snapshot : dbSnapshot d' = dbSnapshot d;
  rv_pending : ∀ id, still_pending id d' → still_pending id d ∧ id ∉ items.*1;
  rv_unknown : ∀ id row, dbCommands d !! id = Some row →
    dbCommands d' !! id = Some row ∨
    rwStatus row = CommandPending ∧ ∃ row', dbCommands d' !! id = Some row' ∧ unknown_row row'
}.

Lemma readonly_recoverOne item d :
  readonly (recoverOne details now item d) (fun _ d' => recovered [item] d d').
Proof.
  destruct item as [id row]. unfold recoverOne.
  eapply readonly_bind; [apply readonly_stmt|intros ?].
  destruct (dbCommands d !! id) as [row0|] eqn:Hrow; [|apply readonly_fail].
  destruct (String.eqb_spec (rwStatus row0) CommandPending) as [Hp|]; cbn [negb]; [|apply readonly_fail].
  eapply readonly_bind; [apply readonly_stmt|intros ?].
  eapply readonly_bind; [apply readonly_stmt|intros ?].
  eapply readonly_mono; [apply readonly_ret|]. intros _ d' -> _ _ _. split; [|done| |].
  - eapply allowed_finish with (id := id) (row := row0); try done. apply snapshot_order_refl.
  - intros id' (row' & Hrow' & Hp'). simpl in Hrow'. destruct (decide (id = id')) as [<-|Hne].
    + rewrite lookup_insert_eq in Hrow'. by simplify_eq.
    + rewrite lookup_insert_ne in Hrow' by done. split; [by exists row'|].
      simpl. by rewrite list_elem_of_singleton.
  - intros id' row' Hrow'. simpl. destruct (decide (id = id')) as [<-|Hne].
    + right. simplify_eq. split; [done|]. rewrite lookup_insert_eq. eexists. split; [done|].
      split; [done|]. by eexists.
    + left. by rewrite lookup_insert_ne.
Qed.

Lemma readonly_recoverAll items d :
  readonly (recoverAll details now items d) (fun _ d' => recovered items d d').
Proof.
  revert d. induction items as [|item items IH]; intros d; cbn [recoverAll].
  - eapply readonly_mono; [apply readonly_ret|]. intros _ d' ->.
    split; [apply allowed_refl|done| |by left]. intros id Hid. split; [done|]. apply not_elem_of_nil.
  - eapply (readonly_bind _ _ (fun _ d' => recovered [item] d d')); [apply readonly_recoverOne|intros d1].
    eapply readonly_mono; [apply IH|]. intros _ d2 [Ha Hs Hp Hu] [Ha1 Hs1 Hp1 Hu1]. split; [|congruence| |].
    + eapply allowed_trans; [done|done|]. rewrite Hs, Hs1. apply snapshot_order_refl.
    + intros id Hid. apply Hp in Hid as [Hid Hn]. apply Hp1 in Hid as [Hid Hn1]. split; [done|].
      simpl in *. rewrite elem_of_cons. rewrite list_elem_of_singleton in Hn1. tauto.
    + intros id row Hrow. destruct (Hu1 id row Hrow) as [Hrow1|(Hst & row1 & Hrow1 & Hun)];
        destruct (Hu id _ Hrow1) as [Hrow2|(Hst2 & Hrow2)]; [by left|by right|right; eauto|].
      destruct Hun as [Hun _]. rewrite Hun in Hst2. discriminate Hst2.
Qed.

Lemma RecoverPending_atomic :
  atomic (RecoverPending details now) (fun d _ d' =>
    allowed d d' ∧ dbSnapshot d' = dbSnapshot d ∧ (∀ id, ¬ still_pending id d') ∧
    ∀ id row, dbCommands d !! id = Some row →
      dbCommands d' !! id = Some row ∨
      rwStatus row = CommandPending ∧ ∃ row', dbCommands d' !! id = Some row' ∧ unknown_row row').
Proof.
  unfold RecoverPending.
  eapply atomic_bind_readonly; [apply readonly_stmt|intros ?].
  eapply atomic_bind_readonly; [apply readonly_getDB|intros db].
  eapply atomic_bind_readonly; [apply readonly_stmt|intros ?].
  eapply atomic_bind_readonly; [apply readonly_recoverAll|intros db'].
  intros s. apply wp_commit; [|auto]. intros s' Hs' [Ha Hsn Hp Hu] _ Hdb _.
  rewrite Hs', <-Hdb. split_and!; [done|done| |done].
  intros id Hid. apply Hp in Hid as [(row & Hrow & Hst) Hn]. apply Hn.
  apply list_elem_of_fmap. exists (id, row). split; [done|]. by apply pendingCommands_spec.
Qed.

(** Without a failing statement the recovery itself cannot fail. *)
Lemma recoverAll_succeeds items d s :
  stFaults s = [] → NoDup items.*1 → (∀ id, id ∈ items.*1 → still_pending id d) →
  ∃ d' s', recoverAll details now items d s = (Ok d', s') ∧ stFaults s' = [].
Proof.
  revert d. induction items as [|[id row] items IH]; intros d Hf Hnd Hp; cbn [recoverAll]; [by exists d, s|].
  apply NoDup_cons in Hnd as [Hni Hnd]. simpl in Hni, Hnd.
  destruct (Hp id) as (row0 & Hrow & Hst); [by left|].
  unfold gbind, recoverOne, stmt. cbn [gbind]. unfold gbind. rewrite Hf, Hrow, Hst. simpl. rewrite Hf. simpl. rewrite Hf.
  simpl. apply IH; [done|done|]. intros id' Hid'. destruct (Hp id') as (row' & Hrow' & Hst'); [by right|].
  exists row'. simpl. rewrite lookup_insert_ne by set_solver. done.
Qed.
End recovery.

Lemma pending_keys_NoDup d : NoDup (pendingCommands d).*1.
Proof.
  unfold pendingCommands. apply (sublist_NoDup _ (map_to_list (dbCommands d)).*1).
  - apply NoDup_fst_map_to_list.
  - apply fmap_sublist, sublist_filter.
Qed.

Lemma RecoverPending_succeeds details now s :
  stFaults s = [] → (RecoverPending details now s).1 = Ok tt.
Proof.
  intros Hf. unfold RecoverPending, gbind, stmt, getDB. rewrite Hf. simpl. rewrite Hf.
  edestruct (recoverAll_succeeds details now (pendingCommands (stDB s)) (stDB s)) as (d' & s' & -> & Hf').
  - done.
  - apply pending_keys_NoDup.
  - intros id (p & -> & Hin)%list_elem_of_fmap. destruct p as [id row]. apply pendingCommands_spec in Hin.
    by exists row.
  - unfold commit, gbind, stmt. by rewrite Hf'.
Qed.

(** ** Histories *)

Section runs.
Variables (range : gmap Z ModelAlarm → list (Z * ModelAlarm)) (wall : Z) (digest : canonical → string)
  (details : string → CommandRow → string).

Inductive operation :=
| OpBegin (c : Command) (meta : CommandMeta) (now : Z)
| OpComplete (r : CommandResult) (readback : option Snapshot) (received stale : Z)
    (input : OperationInput) (audit : AuditInput) (now : Z) (ack : option string)
| OpSave (s : Snapshot) (received stale : Z)
| OpStale (code : string)
| OpEndpoint (e : PLCEndpoint)
| OpRecover (now : string → Z).

Definition perform (o : operation) (s : Store) : Store :=
  match o with
  | OpBegin c meta now => (BeginCommand digest c meta now s).2
  | OpComplete r readback received stale input audit now ack =>
      (CompleteCommand range wall r readback received stale input audit now ack s).2
  | OpSave sn received stale => (SavePLC range wall sn received stale s).2
  | OpStale code => (MarkStale code s).2
  | OpEndpoint e => (SavePLCEndpoint e s).2
  | OpRecover now => (RecoverPending details now s).2
  end.

Definition performAll (os : list operation) (s : Store) : Store := foldl (fun s o => perform o s) s os.

Lemma atomic_allowed {A} (m : StoreM A) P :
  atomic m P → (∀ d a d', P d a d' → allowed d d') → ∀ s, allowed (stDB s) (stDB (m s).2).
Proof.
  intros Hm HP s. specialize (Hm s). unfold wp in Hm. destruct (m s) as [[a|e] s']; simpl in *; [eauto|].
  rewrite Hm. apply allowed_refl.
Qed.

Lemma first_completion_allowed r readback received stale input audit now d d' :
  first_completion range wall r readback received stale input audit now d d' → allowed d d'.
Proof.
  intros [Ht (row & Hrow & Hp & Hc) Ho _ (acc & read & Hacc & Hs)].
  eapply allowed_finish; [exact Hrow|exact Hp|exact Hc|exact Ho|done..|].
  rewrite Hs. by eapply withOperation_order', acceptReadback_order.
Qed.

Lemma perform_allowed o s : allowed (stDB s) (stDB (perform o s)).
Proof.
  destruct o; cbn [perform].
  - eapply atomic_allowed; [apply BeginCommand_atomic|]. intros d a d'. unfold begun.
    destruct (dbCommands d !! _) eqn:Hrow; [intros [-> _]; apply allowed_refl|intros [_ ->]].
    eapply allowed_begin; [exact Hrow| | |reflexivity|..]; done.
  - pose proof (CompleteCommand_spec range wall r readback received stale input audit now ack s) as Hc.
    unfold wp in Hc. destruct (CompleteCommand _ _ _ _ _ _ _ _ _ _ s) as [[a|e] s']; simpl in *.
    + destruct Hc as [_ [[-> _]|Hf]]; [apply allowed_refl|by eapply first_completion_allowed].
    + destruct Hc as [->|[_ Hf]]; [apply allowed_refl|by eapply first_completion_allowed].
  - eapply atomic_allowed; [apply SavePLC_atomic|]. intros d a d' (Hm & Hs & Hc & Ho & _).
    apply allowed_snapshot; [done..|]. rewrite Hs. by eapply merged_not_older, mergeSnapshot_ok.
  - eapply atomic_allowed; [apply MarkStale_atomic|]. intros d a d' (Hc & Ho & _ & Hs).
    apply allowed_snapshot; [done..|]. rewrite Hs. destruct (dbSnapshot d) as [r|]; [|done].
    exact (not_older_refl r).
  - eapply atomic_allowed; [apply SavePLCEndpoint_atomic|]. intros d a d' [_ ->].
    apply allowed_snapshot; [done..|]. apply snapshot_order_refl.
  - eapply atomic_allowed; [apply RecoverPending_atomic|]. by intros d a d' [? _].
Qed.

Definition revisionOf (d : DB) : option Z := (fun r => mdRevision (srState r)) <$> dbSnapshot d.

Lemma order_revision d d' v :
  snapshot_order (dbSnapshot d) (dbSnapshot d') → revisionOf d = Some v →
  ∃ v', revisionOf d' = Some v' ∧ v ≤ v'.
Proof.
  unfold revisionOf. destruct (dbSnapshot d) as [o|]; [|done]. destruct (dbSnapshot d') as [n|]; [|done].
  intros Ho [= <-]. exists (mdRevision (srState n)). split; [done|]. destruct Ho as [?|[-> _]]; lia.
Qed.

(** What a whole history keeps. *)
Record history_ok (d d' : DB) : Prop := {
  hy_ok : db_ok d → db_ok d';
  hy_final : ∀ id row, dbCommands d !! id = Some row → rwStatus row ≠ CommandPending →
               dbCommands d' !! id = Some row;
  hy_known : ∀ id, is_Some (dbCommands d !! id) → is_Some (dbCommands d' !! id);
  hy_log : dbOperations d `prefix_of` dbOperations d';
  hy_revision : ∀ v, revisionOf d = Some v → ∃ v', revisionOf d' = Some v' ∧ v ≤ v'
}.

Lemma performAll_ok os s : history_ok (stDB s) (stDB (performAll os s)).
Proof.
  revert s. induction os as [|o os IH]; intros s; cbn [performAll foldl].
  - split; auto. intros v ->. by exists v.
  - destruct (perform_allowed o s) as [Hok Hf Hk Hl Ho], (IH (perform o s)) as [Hok' Hf' Hk' Hl' Hr'].
    split; auto; [by etrans|].
    intros v Hv. destruct (order_revision _ _ v Ho Hv) as (v1 & Hv1 & ?).
    destruct (Hr' v1 Hv1) as (v2 & ? & ?). exists v2. split; [done|lia].
Qed.
End runs.
