(* ===== verification/CommandQueue.v ===== *)
(** * The command queue: [internal/command/queue.go]

    One goroutine takes commands one at a time ([run]); [process] records a
    command as pending, checks the device's availability, executes it, reads the
    device back, and persists the outcome, retrying until it is stored or the
    operation's context ends.  The device, the clock and the completion's test
    failpoint are an instance of [DeviceEnv]; the store is [Storage]'s.  A
    deadline shows as an error of the device or as the end of the retry budget. *)

From stdpp Require Import pretty.
From S2P Require Import Prelude PlcContract StateModel Storage.

(** ** The device behind the coordinator *)

Class DeviceEnv (D : Type) := {
  devExecute : Command → D → result string CommandResult * D;
  devRead : D → result string Snapshot * D;
  devNow : D → Z * D;
  devAck : D → option string * D     (* [afterCompleteCommit] *)
}.

(** ** Data *)

Record Outcome := mkOutcome { ouResult : CommandResult; ouState : option Model; ouMessage : string }.

Definition emptyResult : CommandResult := mkCommandResult "" "" "" "" "" false 0 None.
Definition emptyOutcome : Outcome := mkOutcome emptyResult None "".

Inductive queue_error : Type :=
| QConflict
| QBegin (e : store_error)
| QComplete (e : store_error).

Inductive confirm_error : Type :=
| CFRevision (got expected : Z)
| CFNotRunning | CFStillRunning | CFReset | CFMode | CFSinglePaused | CFFramePaused | CFBins | CFSettings
| CFAlarm | CFUnsupported.

Definition conflictText : string := "commandId is already bound to different command content".

Definition confirmText (e : confirm_error) : string :=
  match e with
  | CFRevision got expected =>
      String.append "control revision is " (String.append (pretty got)
        (String.append ", expected " (pretty expected)))
  | CFNotRunning => "running did not become true"
  | CFStillRunning => "running did not become false"
  | CFReset => "reset state does not match"
  | CFMode => "mode does not match"
  | CFSinglePaused => "single pause state does not match"
  | CFFramePaused => "frame pause state does not match"
  | CFBins => "bins were not cleared"
  | CFSettings => "settings do not match"
  | CFAlarm => "alarm acknowledgement was not observed"
  | CFUnsupported => "unsupported command confirmation"
  end.

(** ** Pure parts *)

Definition availabilityReason (code : string) : string :=
  if code =s AvailabilityDeviceUnavailable then "device transport is unavailable"
  else if code =s AvailabilityBadQuality then "device data quality is not GOOD"
  else if code =s AvailabilityDataStale then "device data is stale"
  else "Block persistence backend is unavailable".

Definition operationBudget (timeout : Z) : Z :=
  let budget := i64 (3 * timeout + second) in
  if budget <? 2 * second then 2 * second else budget.

Definition withOutcome (status code reason : string) (r : CommandResult) : CommandResult :=
  mkCommandResult (crCommandID r) (crName r) status code reason (crSimulationOnly r) (crControlRevision r)
    (crSnapshot r).

Definition withCode (code : string) (r : CommandResult) : CommandResult :=
  withOutcome (crStatus r) code (crReason r) r.

Definition ensureResultCode (r : CommandResult) : CommandResult :=
  if crCode r <>s "" then r
  else if crStatus r =s CommandRejected then withCode "command_rejected" r
  else if crStatus r =s CommandFailed then withCode "command_failed" r
  else if (crStatus r =s CommandUnknown) || (crStatus r =s CommandPending) then withCode "command_outcome_unknown" r
  else r.

Definition unknownResult (command : Command) (reason : string) : CommandResult :=
  mkCommandResult (cmCommandID command) (cmName command) CommandUnknown "command_outcome_unknown" reason false 0 None.

Definition rejectedResult (command : Command) (code reason : string) : CommandResult :=
  mkCommandResult (cmCommandID command) (cmName command) CommandRejected code reason false 0 None.

Definition resultMessage (r : CommandResult) : string :=
  if crStatus r <>s CommandExecuted then
    if crReason r <>s "" then String.append (crStatus r) (String.append ": " (crReason r)) else crStatus r
  else if crName r =s "start" then "设备已启动"
  else if crName r =s "pause" then "设备已暂停"
  else if crName r =s "reset" then "设备复位完成"
  else if crName r =s "set_mode" then "设备模式已更新"
  else if crName r =s "set_single_paused" then "单件循环状态已更新"
  else if crName r =s "set_frame_paused" then "单框循环状态已更新"
  else if crName r =s "inspect" then "抽检命令已执行"
  else if crName r =s "clear_bins" then "清空料仓命令已执行（仅模拟）"
  else if crName r =s "update_settings" then "维护参数已保存（仅模拟）"
  else if crName r =s "acknowledge_alarm" then "报警已确认（仅模拟）"
  else "命令已执行".

Definition confirm (command : Command) (r : CommandResult) (readback : Snapshot) : result confirm_error unit :=
  let points := ssPoints readback in
  let name := cmName command in
  let require (b : bool) e : result confirm_error unit := if b then Ok tt else Err e in
  if (crControlRevision r =? 0) || negb (ptControlRevision points =? crControlRevision r)
  then Err (CFRevision (ptControlRevision points) (crControlRevision r))
  else if name =s "start" then require (ptRunning points) CFNotRunning
  else if name =s "pause" then require (negb (ptRunning points)) CFStillRunning
  else if name =s "reset" then
    require (negb (ptRunning points) && (ptOutput points =? 0) && (ptToolUsed points =? 0)) CFReset
  else if name =s "set_mode" then require (ptMode points =s cmMode command) CFMode
  else if name =s "set_single_paused" then
    require (match cmPaused command with Some b => Bool.eqb (ptSinglePaused points) b | None => false end)
      CFSinglePaused
  else if name =s "set_frame_paused" then
    require (match cmPaused command with Some b => Bool.eqb (ptFramePaused points) b | None => false end)
      CFFramePaused
  else if name =s "clear_bins" then require (forallb (fun b => binQuantity b =? 0) (ptBins points)) CFBins
  else if name =s "update_settings" then
    require (match cmSettings command with
             | Some st => (ptTarget points =? stTarget st) && (ptToolLimit points =? stToolLimit st) &&
                          (ptInspectInterval points =? stInspectInterval st)
             | None => false
             end) CFSettings
  else if name =s "acknowledge_alarm" then
    require (existsb (fun item => (alAlarmID item =s cmAlarmID command) && alActive item && alAcknowledged item)
               (ptAlarms points)) CFAlarm
  else if name =s "inspect" then Ok tt
  else Err CFUnsupported.

Section queue.
Context {D : Type} `{DeviceEnv D}.
(** The store's parameters; [%q] in a reason; the audit's details. *)
Variables (range : gmap Z ModelAlarm → list (Z * ModelAlarm)) (wall : Z) (digest : canonical → string)
  (quote : string → string) (details : Command → CommandResult → string) (staleAfter : Z).

Record World := mkWorld { woStore : Store; woDevice : D }.

Definition onStore {A} (m : StoreM A) (w : World) : result store_error A * World :=
  let '(r, s) := m (woStore w) in (r, mkWorld s (woDevice w)).

Definition onDevice {A} (f : D → A * D) (w : World) : A * World :=
  let '(a, d) := f (woDevice w) in (a, mkWorld (woStore w) d).

Definition validatedResult (command : Command) (r : result string CommandResult) : CommandResult :=
  match r with
  | Err e => unknownResult command e
  | Ok r =>
      if crCommandID r <>s cmCommandID command then
        unknownResult command (String.append "invalid command response: commandId "
          (String.append (quote (crCommandID r)) " does not match request"))
      else if crName r <>s cmName command then
        unknownResult command (String.append "invalid command response: name "
          (String.append (quote (crName r)) " does not match request"))
      else if terminalStatus (crStatus r) then r
      else unknownResult command (String.append "invalid command response: status "
             (String.append (quote (crStatus r)) " is not terminal"))
  end.

(** The code and reason of an unavailable device, or two empty strings. *)
Definition commandAvailability (w : World) : string * string * World :=
  let '(r, w) := onStore LoadSnapshot w in
  match r with
  | Err _ => (AvailabilityBackendUnavailable, "persisted device state is unavailable"%string, w)
  | Ok record =>
      let '(available, code) := SourceAvailability (woStore w) in
      if negb available then
        let code := if code =s "" then AvailabilityBackendUnavailable else code in
        (code, availabilityReason code, w)
      else
        let '(now, w) := onDevice devNow w in
        let '(fresh, code) := Freshness record now staleAfter in
        if negb fresh then (code, availabilityReason code, (onStore (SetSourceUnavailable code) w).2)
        else (""%string, ""%string, w)
  end.

Definition auditOf (command : Command) (meta : CommandMeta) (r : CommandResult) : AuditInput :=
  mkAuditInput (cmOperator meta) (String.append "command." (cmName command)) (resultMessage r) 0
    (cmRequestID meta) (details command r).

(** One attempt of the loop, with the clock's readings in program order. *)
Definition completeOnce (r : CommandResult) (readback : option Snapshot) (operation : OperationInput)
    (audit : AuditInput) (w : World) : result store_error (option SnapshotRecord) * World :=
  let '(received, w) := onDevice devNow w in
  let '(now, w) := onDevice devNow w in
  let '(ack, w) := onDevice devAck w in
  onStore (CompleteCommand range wall r readback received staleAfter operation audit now ack) w.

(** [budget] is the number of failures that fit in the operation's context. *)
Fixpoint persistLoop (budget : nat) (r : CommandResult) (readback : option Snapshot)
    (operation : OperationInput) (audit : AuditInput) (w : World)
    : result store_error (option SnapshotRecord) * World :=
  match completeOnce r readback operation audit w with
  | (Ok persisted, w) => (Ok persisted, w)
  | (Err e, w) =>
      match budget with
      | O => (Err e, w)
      | S budget => persistLoop budget r readback operation audit w
      end
  end.

(** The outcome, the error, and whether the queue must stop. *)
Definition reply : Type := Outcome * option queue_error * bool.

Definition persistOutcome (budget : nat) (command : Command) (meta : CommandMeta) (result : CommandResult)
    (readback : option Snapshot) (w : World) : reply * World :=
  let r := ensureResultCode result in
  let message := resultMessage r in
  let audit := auditOf command meta r in
  let '(operation, w) :=
    if crStatus r =s CommandExecuted then
      let '(now, w) := onDevice devNow w in (mkOperationInput "info" "0001" message now, w)
    else (mkOperationInput "" "" "" zeroTime, w) in
  match persistLoop budget r readback operation audit w with
  | (Err e, w) => ((emptyOutcome, Some (QComplete e), true), w)
  | (Ok persisted, w) => ((mkOutcome r (srState <$> persisted) message, None, false), w)
  end.

(** The part of [process] under the coordinator's lock. *)
Definition operate (budget : nat) (command : Command) (meta : CommandMeta) (w : World) : reply * World :=
  let '(code, reason, w) := commandAvailability w in
  if code <>s "" then persistOutcome budget command meta (rejectedResult command code reason) None w
  else
    let '(executed, w) := onDevice (devExecute command) w in
    let r := ensureResultCode (validatedResult command executed) in
    if crStatus r =s CommandExecuted then
      let '(value, w) := onDevice devRead w in
      match value with
      | Err e =>
          persistOutcome budget command meta
            (withOutcome CommandUnknown "command_outcome_unknown"
               (String.append "command response was received but readback failed: " e) r) None w
      | Ok value =>
          match confirm command r value with
          | Err e =>
              persistOutcome budget command meta
                (withOutcome CommandFailed "readback_failed"
                   (String.append "readback confirmation failed: " (confirmText e)) r) None w
          | Ok _ => persistOutcome budget command meta r (Some value) w
          end
      end
    else persistOutcome budget command meta r None w.

Definition process (budget : nat) (command : Command) (meta : CommandMeta) (w : World) : reply * World :=
  let '(now, w) := onDevice devNow w in
  match onStore (BeginCommand digest command meta now) w with
  | (Err StIdempotencyConflict, w) =>
      let r := rejectedResult command "idempotency_conflict" conflictText in
      ((mkOutcome r None (resultMessage r), Some QConflict, false), w)
  | (Err e, w) => ((emptyOutcome, Some (QBegin e), true), w)
  | (Ok record, w) =>
      if rcExists record then
        let '(snapshot, w) := onStore LoadSnapshot w in
        let state := match snapshot with Ok s => Some (srState s) | Err _ => None end in
        ((mkOutcome (rcResult record) state (resultMessage (rcResult record)), None, false), w)
      else operate budget command meta w
  end.

(** [run]: the requests it takes from its channel, one after another; a fatal
    error ends it, and the requests after it are never taken. *)
Fixpoint run (requests : list (Command * CommandMeta * nat)) (w : World) : list reply * bool * World :=
  match requests with
  | [] => ([], false, w)
  | (command, meta, budget) :: rest =>
      let '(answer, w) := process budget (NormalizeCommand command) meta w in
      if answer.2 then ([answer], true, w)
      else
        let '(answers, stopped, w) := run rest w in (answer :: answers, stopped, w)
  end.
End queue.
