(* ===== verification/QueueProofs.v ===== *)
(** * Properties of the command queue

    [Watched] records the commands that reach the device.  The lemmas follow a
    command through [process]: what is stored before and after it meets the
    device, and what the answer says about the database. *)

From S2P Require Import Prelude PlcContract StateModel Storage StorageProofs StorageRuns CommandQueue.

(** ** A device that records the commands it is given *)

Record Watched (D : Type) : Type := mkWatched { waDevice : D; waLog : list Command }.
Arguments mkWatched {D} waDevice waLog.
Arguments waDevice {D} w.
Arguments waLog {D} w.

#[export] Instance watched_env {D} `{DeviceEnv D} : DeviceEnv (Watched D) := {
  devExecute c w := let '(r, d) := devExecute c (waDevice w) in (r, mkWatched d (waLog w ++ [c]));
  devRead w := let '(r, d) := devRead (waDevice w) in (r, mkWatched d (waLog w));
  devNow w := let '(t, d) := devNow (waDevice w) in (t, mkWatched d (waLog w));
  devAck w := let '(a, d) := devAck (waDevice w) in (a, mkWatched d (waLog w))
}.

(** ** Results *)

Lemma ensureResultCode_same r :
  crCommandID (ensureResultCode r) = crCommandID r ∧ crName (ensureResultCode r) = crName r ∧
  crStatus (ensureResultCode r) = crStatus r ∧ crControlRevision (ensureResultCode r) = crControlRevision r.
Proof. unfold ensureResultCode. repeat case_match; done. Qed.

Lemma confirm_revision command r r' value :
  crControlRevision r = crControlRevision r' → confirm command r value = confirm command r' value.
Proof. unfold confirm. by intros ->. Qed.

Lemma ensureResultCode_code r :
  terminalStatus (crStatus r) = true → crStatus r ≠ CommandExecuted → crCode (ensureResultCode r) ≠ ""%string.
Proof.
  unfold ensureResultCode. destruct (String.eqb_spec (crCode r) "") as [He|]; cbn [negb]; [|done].
  unfold terminalStatus. intros Ht Hne. rewrite (proj2 (String.eqb_neq (crStatus r) CommandExecuted)) in Ht by done.
  destruct (crStatus r =s CommandRejected); [done|]. destruct (crStatus r =s CommandFailed); [done|].
  simpl in Ht. rewrite Ht. done.
Qed.

Lemma validatedResult_ok quote command x :
  let r := validatedResult quote command x in
  crCommandID r = cmCommandID command ∧ crName r = cmName command ∧ terminalStatus (crStatus r) = true.
Proof.
  cbn zeta. unfold validatedResult. destruct x as [r|e]; [|done].
  destruct (String.eqb_spec (crCommandID r) (cmCommandID command)); cbn [negb]; [|done].
  destruct (String.eqb_spec (crName r) (cmName command)); cbn [negb]; [|done].
  by destruct (terminalStatus (crStatus r)) eqn:Ht.
Qed.

Section queue_proofs.
Context {D : Type} `{DeviceEnv D}.
Variables (range : gmap Z ModelAlarm → list (Z * ModelAlarm)) (wall : Z) (digest : canonical → string)
  (quote : string → string) (details : Command → CommandResult → string) (staleAfter : Z).
Implicit Types w : World (D := D).
Notation completeOnce := (completeOnce range wall staleAfter).
Notation persistLoop := (persistLoop range wall staleAfter).
Notation persistOutcome := (persistOutcome range wall details staleAfter).

Definition dbOf w : DB := stDB (woStore w).

Lemma onDevice_store {A} (f : D → A * D) w : woStore (onDevice f w).2 = woStore w.
Proof. unfold onDevice. by destruct (f (woDevice w)). Qed.

(** The command's row holds this result. *)
Definition recorded (r : CommandResult) (d : DB) : Prop :=
  ∃ row, dbCommands d !! crCommandID r = Some row ∧ rwResult row = Some r ∧ rwStatus row = crStatus r.

(** The command's row is pending. *)
Definition waiting (id : string) (d : DB) : Prop :=
  ∃ row, dbCommands d !! id = Some row ∧ rwStatus row = CommandPending.

Lemma recorded_not_waiting r d : terminalStatus (crStatus r) = true → recorded r d → ¬ waiting (crCommandID r) d.
Proof. intros Ht (row & Hrow & _ & Hs) (row' & Hrow' & Hp). simplify_eq. by rewrite <-Hs, Hp in Ht. Qed.

(** One attempt: a pending row stays pending or is finished with this result,
    which later attempts keep; success means that it is recorded. *)
Lemma completeOnce_ok r readback operation audit w :
  waiting (crCommandID r) (dbOf w) ∨ (terminalStatus (crStatus r) = true ∧ recorded r (dbOf w)) →
  let '(res, w') := completeOnce r readback operation audit w in
  (waiting (crCommandID r) (dbOf w') ∨ (terminalStatus (crStatus r) = true ∧ recorded r (dbOf w'))) ∧
  (is_ok res = true → recorded r (dbOf w')).
Proof.
  intros Hpre. unfold completeOnce.
  pose proof (onDevice_store devNow w) as H1. destruct (onDevice devNow w) as [received w1].
  pose proof (onDevice_store devNow w1) as H2. destruct (onDevice devNow w1) as [now w2].
  pose proof (onDevice_store devAck w2) as H3. destruct (onDevice devAck w2) as [ack w3]. simpl in H1, H2, H3.
  unfold onStore.
  pose proof (CompleteCommand_spec range wall r readback received staleAfter operation audit now ack (woStore w3)) as Hc.
  unfold wp in Hc. destruct (CompleteCommand _ _ _ _ _ _ _ _ _ _ _) as [res s']. cbn [fst snd] in Hc.
  unfold dbOf in *. cbn [woStore]. rewrite H3, H2, H1 in Hc.
  assert (first_completion range wall r readback received staleAfter operation audit now
            (stDB (woStore w)) (stDB s') → terminalStatus (crStatus r) = true ∧ recorded r (stDB s')) as Hfc.
  { intros [Ht (row & Hrow & _ & Hd) _ _ _]. split; [done|]. eexists. rewrite Hd, lookup_insert_eq. done. }
  destruct res as [a|e]; [destruct Hc as [_ [[Hd Hal]|Hf]]|destruct Hc as [Hd|[_ Hf]]].
  - rewrite Hd. split; [done|]. intros _. destruct Hpre as [(row & Hrow & Hp)|[_ Hr]]; [|done].
    destruct Hal as (row' & Hrow' & Hnp & _). simplify_eq.
  - destruct (Hfc Hf). auto.
  - rewrite Hd. by split.
  - destruct (Hfc Hf). auto.
Qed.

Lemma persistLoop_ok budget r readback operation audit w :
  waiting (crCommandID r) (dbOf w) ∨ (terminalStatus (crStatus r) = true ∧ recorded r (dbOf w)) →
  let '(res, w') := persistLoop budget r readback operation audit w in
  is_ok res = true → recorded r (dbOf w').
Proof.
  revert w. induction budget as [|budget IH]; intros w Hpre; cbn [CommandQueue.persistLoop];
    pose proof (completeOnce_ok r readback operation audit w Hpre) as Hone;
    destruct (completeOnce r readback operation audit w) as [[a|e] w1]; try (apply Hone; done).
  apply IH, Hone.
Qed.

Lemma persistOutcome_ok budget command meta r readback w :
  waiting (crCommandID r) (dbOf w) →
  let '((outcome, err, fatal), w') := persistOutcome budget command meta r readback w in
  if fatal then ∃ e, err = Some (QComplete e)
  else err = None ∧ ouResult outcome = ensureResultCode r ∧ recorded (ouResult outcome) (dbOf w').
Proof.
  intros Hw. unfold persistOutcome. cbn zeta. set (r' := ensureResultCode r).
  destruct (ensureResultCode_same r) as (Hid & _ & _ & _). fold r' in Hid. rewrite <-Hid in Hw.
  assert (∀ op w1, dbOf w1 = dbOf w →
    let '((outcome, err, fatal), w') :=
      match persistLoop budget r' readback op (auditOf details command meta r') w1 with
      | (Err e, w) => ((emptyOutcome, Some (QComplete e), true), w)
      | (Ok persisted, w) => ((mkOutcome r' (srState <$> persisted) (resultMessage r'), None, false), w)
      end in
    if fatal : bool then ∃ e, err = Some (QComplete e)
    else err = None ∧ ouResult outcome = r' ∧ recorded (ouResult outcome) (dbOf w')) as Hloop.
  { intros op w1 Hw1. rewrite <-Hw1 in Hw.
    pose proof (persistLoop_ok budget r' readback op (auditOf details command meta r') w1 (or_introl Hw)) as Hl.
    destruct (persistLoop budget r' readback op _ w1) as [[p|e] w2]; [|by eexists].
    split_and!; [done|done|]. by apply Hl. }
  destruct (crStatus r' =s CommandExecuted); [|by apply Hloop].
  pose proof (onDevice_store devNow w) as Hs. destruct (onDevice devNow w) as [now w1]. simpl in Hs.
  apply Hloop. unfold dbOf. by rewrite Hs.
Qed.
End queue_proofs.

(** ** A command and the device *)

Section watched_proofs.
Context {D : Type} `{DeviceEnv D}.
Variables (range : gmap Z ModelAlarm → list (Z * ModelAlarm)) (wall : Z) (digest : canonical → string)
  (quote : string → string) (details : Command → CommandResult → string) (staleAfter : Z).
Implicit Types w : World (D := Watched D).
Notation persistOutcome := (persistOutcome range wall details staleAfter).
Notation operate := (operate range wall quote details staleAfter).

Definition logOf w : list Command := waLog (woDevice w).

(** What the clock, the failpoint and the store's operations do not touch. *)
Lemma now_log w : logOf (onDevice devNow w).2 = logOf w.
Proof. unfold logOf, onDevice. simpl. by destruct (devNow (waDevice (woDevice w))). Qed.

Lemma ack_log w : logOf (onDevice devAck w).2 = logOf w.
Proof. unfold logOf, onDevice. simpl. by destruct (devAck (waDevice (woDevice w))). Qed.

Lemma store_log {A} (m : StoreM A) w : logOf (onStore m w).2 = logOf w.
Proof. unfold logOf, onStore. by destruct (m (woStore w)). Qed.

Lemma completeOnce_log r rb op audit w :
  logOf (completeOnce range wall staleAfter r rb op audit w).2 = logOf w.
Proof.
  unfold completeOnce. pose proof (now_log w) as H1. destruct (onDevice devNow w) as [t1 w1].
  pose proof (now_log w1) as H2. destruct (onDevice devNow w1) as [t2 w2].
  pose proof (ack_log w2) as H3. destruct (onDevice devAck w2) as [a w3].
  rewrite store_log. simpl in *. congruence.
Qed.

Lemma persistLoop_log budget r rb op audit w :
  logOf (persistLoop range wall staleAfter budget r rb op audit w).2 = logOf w.
Proof.
  revert w. induction budget as [|budget IH]; intros w; cbn [persistLoop];
    pose proof (completeOnce_log r rb op audit w) as Ho;
    destruct (completeOnce range wall staleAfter r rb op audit w) as [[a|e] w1]; try exact Ho.
  rewrite IH. exact Ho.
Qed.

Lemma persistOutcome_log budget command meta r rb w :
  logOf (persistOutcome budget command meta r rb w).2 = logOf w.
Proof.
  unfold persistOutcome. cbn zeta. destruct (crStatus (ensureResultCode r) =s CommandExecuted).
  - pose proof (now_log w) as H1. destruct (onDevice devNow w) as [t w1]. simpl in H1. rewrite <-H1.
    pose proof (persistLoop_log budget (ensureResultCode r) rb
      (mkOperationInput "info" "0001" (resultMessage (ensureResultCode r)) t)
      (auditOf details command meta (ensureResultCode r)) w1) as Hl.
    by destruct (persistLoop _ _ _ _ _ _ _ _ w1) as [[a|e] w2].
  - pose proof (persistLoop_log budget (ensureResultCode r) rb (mkOperationInput "" "" "" zeroTime)
      (auditOf details command meta (ensureResultCode r)) w) as Hl.
    by destruct (persistLoop _ _ _ _ _ _ _ _ w) as [[a|e] w2].
Qed.

Lemma readonly_LoadSnapshot : readonly LoadSnapshot (fun _ _ => True).
Proof.
  eapply readonly_bind; [apply readonly_getDB|intros db]. eapply readonly_bind; [apply readonly_load|intros [r|]].
  - by eapply readonly_mono; [apply readonly_ret|].
  - apply readonly_fail.
Qed.

Lemma load_db w : dbOf (onStore LoadSnapshot w).2 = dbOf w.
Proof.
  unfold dbOf, onStore. destruct (readonly_LoadSnapshot (woStore w)) as [Hd _].
  by destruct (LoadSnapshot (woStore w)).
Qed.

Lemma availability_ok w :
  let '(code, reason, w') := commandAvailability staleAfter w in dbOf w' = dbOf w ∧ logOf w' = logOf w.
Proof.
  unfold commandAvailability. pose proof (load_db w) as Hd. pose proof (store_log LoadSnapshot w) as Hl.
  destruct (onStore LoadSnapshot w) as [[record|e] w1]; simpl in Hd, Hl; [|done].
  destruct (SourceAvailability (woStore w1)) as [available code]. destruct available; cbn [negb]; [|done].
  pose proof (now_log w1) as Hn. pose proof (onDevice_store devNow w1) as Hs.
  destruct (onDevice devNow w1) as [now w2]. simpl in Hn, Hs. unfold dbOf in *. rewrite <-Hs in Hd.
  destruct (Freshness record now staleAfter) as [fresh code']. destruct fresh; cbn [negb]; [by split; congruence|].
  rewrite store_log. split; [|congruence]. done.
Qed.

(** How the outcome to persist comes about. *)
Record attempted (command : Command) w (r : CommandResult) (rb : option Snapshot) w' : Prop := {
  at_db : dbOf w' = dbOf w;
  at_id : crCommandID r = cmCommandID command;
  at_name : crName r = cmName command;
  at_terminal : terminalStatus (crStatus r) = true;
  at_device : (logOf w' = logOf w ∧ crStatus r = CommandRejected) ∨ logOf w' = logOf w ++ [command];
  at_executed : crStatus r = CommandExecuted → ∃ value, rb = Some value ∧ confirm command r value = Ok tt
}.

Lemma operate_attempted budget command meta w :
  ∃ r rb w', operate budget command meta w = persistOutcome budget command meta r rb w' ∧
    attempted command w r rb w'.
Proof.
  unfold operate. pose proof (availability_ok w) as Hav.
  destruct (commandAvailability staleAfter w) as [[code reason] w1]. destruct Hav as [Hd Hl].
  destruct (code <>s "").
  { eexists _, _, _. split; [done|]. split; simpl; auto. done. }
  assert (dbOf (onDevice (devExecute command) w1).2 = dbOf w ∧
          logOf (onDevice (devExecute command) w1).2 = logOf w ++ [command]) as [Hd2 Hl2].
  { rewrite <-Hd, <-Hl. unfold dbOf, logOf, onDevice. simpl. by destruct (devExecute command _). }
  destruct (onDevice (devExecute command) w1) as [x w2]. simpl in Hd2, Hl2. cbn zeta.
  set (r := ensureResultCode (validatedResult quote command x)).
  assert (crCommandID r = cmCommandID command ∧ crName r = cmName command ∧
          terminalStatus (crStatus r) = true) as (Hid & Hnm & Ht).
  { destruct (validatedResult_ok quote command x) as (? & ? & ?), (ensureResultCode_same (validatedResult quote command x))
      as (Hi & Hn & Hst & _). fold r in Hi, Hn, Hst. rewrite Hi, Hn, Hst. done. }
  destruct (String.eqb_spec (crStatus r) CommandExecuted) as [He|Hne].
  - assert (dbOf (onDevice devRead w2).2 = dbOf w ∧ logOf (onDevice devRead w2).2 = logOf w ++ [command]) as [Hd3 Hl3].
    { rewrite <-Hd2, <-Hl2. unfold dbOf, logOf, onDevice. simpl. by destruct (devRead _). }
    destruct (onDevice devRead w2) as [[value|e] w3]; simpl in Hd3, Hl3.
    + destruct (confirm command r value) as [[]|e] eqn:Hc; (eexists _, _, _; split; [done|]); split; simpl; auto.
      * intros _. by exists value.
      * done.
    + eexists _, _, _. split; [done|]. split; simpl; auto. done.
  - eexists _, _, _. split; [done|]. split; simpl; auto. done.
Qed.
End watched_proofs.

(** A conflict is about an id that is on record. *)
Lemma BeginCommand_conflict digest raw meta now (s : Store) :
  (BeginCommand digest raw meta now s).1 = Err StIdempotencyConflict →
  is_Some (dbCommands (stDB s) !! cmCommandID (NormalizeCommand raw)).
Proof.
  unfold BeginCommand, commit, install, gmod, gret, gbind, stmt, getDB. cbn zeta.
  generalize (NormalizeCommand raw). intros command. destruct s as [db av code faults]. cbn [stDB].
  destruct (dbCommands db !! cmCommandID command) eqn:Hrow; [by eexists|].
  destruct faults as [|[e|] [|[e'|] rest]]; simpl; rewrite ?Hrow; simpl; intros [=].
Qed.
