(* ===== verification/QueueLoop.v ===== *)
(** * The command queue's goroutine: [New], [Submit], [Close] and [run] of
      [internal/command/queue.go]

    The callers of [Submit] and [Close] and the goroutine that [New] starts, as
    a step relation over their channels.  [requests] is unbuffered: a caller
    offers its request until [run] takes it.  A response channel holds one
    response and belongs to one call.  Which ready case a [select] takes is the
    choice of a step.  [process] is one step: nothing else touches the store and
    the device of this queue through it. *)

From stdpp Require Import relations.
From S2P Require Import Prelude PlcContract StateModel Storage CommandQueue.

(** What a call of [Submit] returns. *)
Inductive submit_answer : Type :=
| SubOutcome (outcome : Outcome) (err : option queue_error)
| SubCancelled                            (* ctx.Err() *)
| SubStopped
| SubTerminated.

(** Where a call stands: in its first or second [select], or back. *)
Inductive submitter : Type :=
| SubOffering
| SubWaiting
| SubDone (answer : submit_answer).

(** A call of [Submit], with the normalized command of its request. *)
Record call := mkCall {
  caCommand : Command;
  caMeta : CommandMeta;
  caState : submitter;
  caEnded : bool                          (* ctx.Done() is closed *)
}.

Definition setState (s : submitter) (c : call) : call := mkCall (caCommand c) (caMeta c) s (caEnded c).
Definition endContext (c : call) : call := mkCall (caCommand c) (caMeta c) (caState c) true.

(** What [run] has done with a request: whose it was, and the response. *)
Record response := mkResponse {
  rpCaller : nat;
  rpRequest : Command * CommandMeta * nat;
  rpReply : reply
}.

Inductive run_phase : Type :=
| RunSelecting
| RunBusy (caller : nat) (command : Command) (meta : CommandMeta)
| RunReplied (answer : reply)
| RunDone.                                (* q.done is closed *)

Section loop.
Context {D : Type} `{DeviceEnv D}.
Variables (range : gmap Z ModelAlarm → list (Z * ModelAlarm)) (wall : Z) (digest : canonical → string)
  (quote : string → string) (details : Command → CommandResult → string) (staleAfter : Z).

Record Queue := mkQueue {
  quStop : bool;                          (* q.stop is closed *)
  quPhase : run_phase;
  quCalls : list call;                    (* every call of Submit *)
  quResponses : list response;            (* every response ever sent, in order *)
  quFatal : option queue_error;           (* the channel that [Errors] returns *)
  quClosers : list bool;                  (* every call of Close, and whether it has returned *)
  quWorld : World (D := D)
}.

Definition New (w : World) : Queue := mkQueue false RunSelecting [] [] None [] w.

Definition setCalls (calls : list call) (q : Queue) : Queue :=
  mkQueue (quStop q) (quPhase q) calls (quResponses q) (quFatal q) (quClosers q) (quWorld q).
Definition setPhase (p : run_phase) (q : Queue) : Queue :=
  mkQueue (quStop q) p (quCalls q) (quResponses q) (quFatal q) (quClosers q) (quWorld q).
Definition setClosers (closers : list bool) (q : Queue) : Queue :=
  mkQueue (quStop q) (quPhase q) (quCalls q) (quResponses q) (quFatal q) closers (quWorld q).

(** [Submit] up to its first [select]. *)
Definition Submit (command : Command) (meta : CommandMeta) (q : Queue) : Queue :=
  setCalls (quCalls q ++ [mkCall (NormalizeCommand command) meta SubOffering false]) q.

(** [Close] up to its wait. *)
Definition Close (q : Queue) : Queue :=
  mkQueue true (quPhase q) (quCalls q) (quResponses q) (quFatal q) (quClosers q ++ [false]) (quWorld q).

(** A call moves on, or comes back. *)
Definition moves (i : nat) (s : submitter) (q : Queue) : Queue := setCalls (alter (setState s) i (quCalls q)) q.

(** The response in the channel of a call. *)
Definition responseOf (i : nat) (q : Queue) : option response :=
  List.find (fun r => rpCaller r =? i)%nat (quResponses q).

(** [run] takes a request, and hands the response over. *)
Definition take (i : nat) (c : call) (q : Queue) : Queue :=
  setPhase (RunBusy i (caCommand c) (caMeta c)) (moves i SubWaiting q).

Definition respond (i : nat) (command : Command) (meta : CommandMeta) (budget : nat) (q : Queue) : Queue :=
  let '(answer, w) := process range wall digest quote details staleAfter budget command meta (quWorld q) in
  mkQueue (quStop q) (RunReplied answer) (quCalls q)
    (quResponses q ++ [mkResponse i (command, meta, budget) answer]) (quFatal q) (quClosers q) w.

(** After the response: a fatal error goes to [fatal] if there is room, and [run] ends. *)
Definition afterReply (answer : reply) (q : Queue) : Queue :=
  let '(_, err, fatal) := answer in
  if fatal : bool then
    mkQueue (quStop q) RunDone (quCalls q) (quResponses q)
      (match quFatal q with None => err | held => held end) (quClosers q) (quWorld q)
  else setPhase RunSelecting q.

(** What other goroutines do: call [Submit] or [Close], end a context. *)
Inductive outer_step (q : Queue) : Queue → Prop :=
| qs_submit command meta : outer_step q (Submit command meta q)
| qs_context i : outer_step q (setCalls (alter endContext i (quCalls q)) q)
| qs_close : outer_step q (Close q).

(** What the calls and [run] do. *)
Inductive inner_step (q : Queue) : Queue → Prop :=
| qs_take i c :
    quCalls q !! i = Some c → caState c = SubOffering → quPhase q = RunSelecting → inner_step q (take i c q)
| qs_give_up i c :
    quCalls q !! i = Some c → caState c = SubOffering → caEnded c = true →
    inner_step q (moves i (SubDone SubCancelled) q)
| qs_refused i c :
    quCalls q !! i = Some c → caState c = SubOffering → quStop q = true →
    inner_step q (moves i (SubDone SubStopped) q)
| qs_gone i c :
    quCalls q !! i = Some c → caState c = SubOffering → quPhase q = RunDone →
    inner_step q (moves i (SubDone SubTerminated) q)
| qs_leave i c :
    quCalls q !! i = Some c → caState c = SubWaiting → caEnded c = true →
    inner_step q (moves i (SubDone SubCancelled) q)
| qs_receive i c r :
    quCalls q !! i = Some c → caState c = SubWaiting → responseOf i q = Some r →
    inner_step q (moves i (SubDone (SubOutcome (rpReply r).1.1 (rpReply r).1.2)) q)
| qs_terminated i c :
    quCalls q !! i = Some c → caState c = SubWaiting → quPhase q = RunDone → responseOf i q = None →
    inner_step q (moves i (SubDone SubTerminated) q)
| qs_process i command meta budget :
    quPhase q = RunBusy i command meta → inner_step q (respond i command meta budget q)
| qs_replied answer : quPhase q = RunReplied answer → inner_step q (afterReply answer q)
| qs_stopped : quPhase q = RunSelecting → quStop q = true → inner_step q (setPhase RunDone q)
| qs_closed k :
    quPhase q = RunDone → quClosers q !! k = Some false → inner_step q (setClosers (<[k := true]> (quClosers q)) q).

Definition queue_step (q q' : Queue) : Prop := inner_step q q' ∨ outer_step q q'.
Definition queue_reachable (w : World) (q : Queue) : Prop := rtc queue_step (New w) q.
End loop.
