(* ===== verification/ScanStore.v ===== *)
(** * From a scan to the point store

    The worker's [publish] callback hands a scan's map to [pointstore]'s
    [Update] ([agent/plc_runtime.go]).  This file shows what the store makes of
    it: the values the codec decodes are values the table's types accept, NaN
    and infinite float32 registers excepted. *)

From S2P Require Import Prelude GoValue GoFloat RuntimeConfig PointStore WorkerPlan WorkerCodec Worker.

(** ** Comparisons of small integers *)

Lemma SFltb_Z a b : exact64 a → exact64 b → SFltb (f64_of_Z a) (f64_of_Z b) = (a <? b).
Proof. intros Ha Hb. unfold SFltb, Z.ltb. rewrite SFcompare_Z by done. by destruct (a ?= b). Qed.

Lemma SFleb_Z a b : exact64 a → exact64 b → SFleb (f64_of_Z a) (f64_of_Z b) = (a <=? b).
Proof. intros Ha Hb. unfold SFleb, Z.leb. rewrite SFcompare_Z by done. by destruct (a ?= b). Qed.

Ltac exact_small := unfold exact64; lia.

Lemma int16_accepted z : -32768 ≤ z ≤ 32767 → ValidateValue "int16" (VInt KInt16 z) = Ok tt.
Proof.
  intros ?. unfold ValidateValue, f64_ltb. cbn [String.eqb Ascii.eqb Bool.eqb orb andb isInteger numberAsFloat64].
  rewrite !SFltb_Z by exact_small. rewrite !(proj2 (Z.ltb_ge _ _)) by lia. done.
Qed.

Lemma within_accepted lo hi k z :
  exact64 lo → exact64 hi → lo ≤ z ≤ hi → isInteger (VInt k z) && numberWithin lo hi (VInt k z) = true.
Proof.
  unfold exact64. intros ???. unfold numberWithin, f64_leb. cbn [isInteger numberAsFloat64 andb].
  rewrite !SFleb_Z by exact_small. rewrite !(proj2 (Z.leb_le _ _)) by lia. done.
Qed.

(** ** Decoded floats are at most the largest float32 *)

Definition bounded32 (g : spec_float) : Prop :=
  match g with S754_finite _ m e => Zpos m < 2 ^ 24 ∧ -149 ≤ e ≤ 104 | _ => True end.

Lemma f32_of_bits_bounded b : bounded32 (f32_of_bits b).
Proof.
  unfold f32_of_bits. set (ex := Z.land (Z.shiftr b 23) 255).
  assert (0 ≤ ex < 256) as Hex.
  { unfold ex. rewrite land_255. apply Z.mod_pos_bound. lia. }
  assert (0 ≤ Z.land b (2 ^ 23 - 1) < 2 ^ 23) as Hm.
  { change (2 ^ 23 - 1) with (Z.ones 23). rewrite Z.land_ones by lia. apply Z.mod_pos_bound. lia. }
  destruct (Z.eqb_spec ex 0); [destruct (Z.land b _) as [|m|m]; simpl; lia || done|].
  destruct (Z.eqb_spec ex 255); [by destruct (_ =? 0)|].
  destruct (Z.land b _ + 2 ^ 23) as [|m|m] eqn:E; simpl; [done| |done]. rewrite <-E. lia.
Qed.

Lemma maxFloat32_value : maxFloat32 = S754_finite false 9007198717870080 75.
Proof. vm_compute. reflexivity. Qed.

Lemma float32_below_max g :
  bounded32 g → f64_isNaN (f64_of_f32 g) = false → f64_isInf (f64_of_f32 g) = false →
  SFltb maxFloat32 (SFabs (f64_of_f32 g)) = false.
Proof.
  rewrite maxFloat32_value. destruct g as [s|s| |s m e]; try done. intros [Hm He] _ _.
  pose proof (Z.log2_nonneg (Zpos m)).
  assert (Z.log2 (Zpos m) < 24) as Hl by (apply Z.log2_lt_pow2; lia).
  destruct (round_widen prec64 emax64 s m e (Z.log2 (Zpos m) + e - 52)) as (m' & Hm' & Hr).
  { unfold fexp, emin. lia. } { lia. } { lia. }
  unfold f64_of_f32. rewrite Hr. cbn [SFabs]. unfold SFltb, SFcompare.
  destruct (Z.compare_spec 75 (Z.log2 (Zpos m) + e - 52)) as [Heq|Hlt|Hgt]; [|lia|done].
  assert (e = 104 ∧ Z.log2 (Zpos m) = 23) as [-> Hl23] by lia.
  replace (104 - _) with 29 in Hm' by lia. change (2 ^ 29) with 536870912 in Hm'.
  change (Pos.compare_cont Eq ?a ?b) with (Pos.compare a b).
  destruct (Pos.compare_spec 9007198717870080 m'); try done. exfalso. change (2 ^ 24) with 16777216 in Hm. lia.
Qed.

(** ** Decoded values are values of the point's type *)

(** A float32 register pair that holds no number. *)
Definition non_finite (v : goval) : bool :=
  match v with VFloat64 f => f64_isNaN f || f64_isInf f | _ => false end.

Lemma float32_accepted g :
  bounded32 g → non_finite (VFloat64 (f64_of_f32 g)) = false →
  ValidateValue "float32" (VFloat64 (f64_of_f32 g)) = Ok tt.
Proof.
  intros Hg [Hn Hi]%orb_false_iff. unfold ValidateValue, f64_ltb.
  cbn [String.eqb Ascii.eqb Bool.eqb orb andb isNumber numberAsFloat64].
  by rewrite Hn, Hi, float32_below_max by done.
Qed.

Lemma wordAt_range ws i : Forall (in_range 16) ws → in_range 16 (wordAt ws i).
Proof.
  unfold wordAt. intros Hw. revert i. induction Hw as [|w ws Hw Hws IH]; intros [|i]; simpl; try done.
Qed.

(** A planned bit point is a bool point, and a register point is not. *)
Lemma planOf_bit p : planOf p → paBitIO (ppAddress p) = true ↔ pType (ppDefinition p) = "bool".
Proof.
  unfold planOf, planAddress. destruct (String.eqb_spec (pType (ppDefinition p)) "bool") as [Ht|Ht].
  - intros (a & _ & Hp)%rbind_ok. case_match; [done|]. injection Hp as Hp. by rewrite <-Hp.
  - case_match; [done|]. intros (a & _ & Hp)%rbind_ok. do 2 (case_match; [done|]). injection Hp as Hp.
    by rewrite <-Hp.
Qed.

Lemma Ok_inj {E A} (a b : A) : Ok (E := E) a = Ok b → a = b.
Proof. by intros [=]. Qed.

Lemma decode_accepted p ws v :
  planOf p → Forall (in_range 16) ws → decodePointValue p ws = Ok v → non_finite v = false →
  ValidateValue (pType (ppDefinition p)) v = Ok tt.
Proof.
  intros Hp Hw. unfold decodePointValue. case_match; [done|].
  destruct (paBitIO (ppAddress p)) eqn:Hio.
  { apply planOf_bit in Hio as ->; [|done]. by intros [= <-]. }
  destruct (String.eqb_spec (pType (ppDefinition p)) "int16") as [->|].
  { intros [= <-] _. apply int16_accepted. pose proof (swrap_range 16 (wordAt ws 0) ltac:(lia)). simpl in *. lia. }
  destruct (String.eqb_spec (pType (ppDefinition p)) "uint16") as [->|].
  { intros [= <-] _. pose proof (wordAt_range ws 0 Hw) as [??]. change (2 ^ 16) with 65536 in *.
    unfold ValidateValue. cbn [String.eqb Ascii.eqb Bool.eqb orb andb].
    rewrite within_accepted; [done|exact_small|exact_small|lia]. }
  destruct (String.eqb_spec (pType (ppDefinition p)) "int32") as [->|].
  { intros (bits & _ & [= <-])%rbind_ok _. pose proof (swrap_range 32 bits ltac:(lia)). simpl in *.
    unfold ValidateValue. cbn [String.eqb Ascii.eqb Bool.eqb orb andb].
    rewrite within_accepted; [done|exact_small|exact_small|lia]. }
  destruct (String.eqb_spec (pType (ppDefinition p)) "float32") as [->|]; [|done].
  intros Hd. apply rbind_ok in Hd as (bits & _ & Hd). apply Ok_inj in Hd. rewrite <-Hd. intros Hn. exact (float32_accepted _ (f32_of_bits_bounded bits) Hn).
Qed.

(** A float register that holds a NaN or an infinity decodes to a value that is
    refused. *)
Lemma decode_refused p ws v :
  decodePointValue p ws = Ok v → non_finite v = true → ValidateValue (pType (ppDefinition p)) v ≠ Ok tt.
Proof.
  unfold decodePointValue. case_match; [done|]. destruct (paBitIO (ppAddress p)); [by intros [= <-]|].
  destruct (String.eqb_spec (pType (ppDefinition p)) "int16"); [by intros [= <-]|].
  destruct (String.eqb_spec (pType (ppDefinition p)) "uint16"); [by intros [= <-]|].
  destruct (String.eqb_spec (pType (ppDefinition p)) "int32").
  { destruct (joinWords _ _ _ _); [by intros [= <-]|done]. }
  destruct (String.eqb_spec (pType (ppDefinition p)) "float32") as [->|]; [|done].
  destruct (joinWords _ _ _ _) as [bits|]; [|done]. cbn [rbind]. generalize (f64_of_f32 (f32_of_bits bits)). intros f <-%Ok_inj Hn.
  cbn [non_finite] in Hn.
  unfold ValidateValue. cbn [String.eqb Ascii.eqb Bool.eqb orb andb isNumber numberAsFloat64]. by rewrite Hn.
Qed.

(** ** A scan's items pass the store's checks *)

Section publish.
Context (plan : scanPlan) (Hplan : plan_ok plan) (definitions : gmap string PointDefinition).
Hypothesis (Hdefs : ∀ id p, spPoints plan !! id = Some p → definitions !! id = Some (ppDefinition p)).

Lemma item_checked q id v :
  q = "good" ∨ q = "stale" ∨ q = "error" → item_ok plan q id v → non_finite (pvValue v) = false →
  checkUpdate definitions id v = Ok tt.
Proof.
  intros Hq [Hre Hqv Hk Hg Ht] Hn. apply (pl_readable _ Hplan) in Hre as (p & Hp & _).
  unfold checkUpdate. rewrite (Hdefs id p Hp), Ht, Hqv.
  assert ((q <>s "good") && (q <>s "stale") && (q <>s "error") = false) as -> by (by destruct Hq as [-> |[-> | ->]]).
  destruct (decide (pvValue v = VNil)) as [Hnil|Hnil].
  - rewrite bool_decide_true by done. destruct (String.eqb_spec q "good"); [by destruct Hg|done].
  - rewrite bool_decide_false by done. cbn [andb].
    destruct Hk as [?|(p' & ws & Hp' & _ & Hws & Hd)]; [done|].
    assert (p' = p) as -> by congruence.
    destruct (pl_point _ Hplan _ _ Hp) as (_ & Hpo & _).
    by rewrite (decode_accepted p ws _ Hpo Hws Hd Hn).
Qed.

(** The whole map of a scan, in whatever order it is enumerated. *)
Lemma snapshot_accepted values err lost items s :
  sDefinitions s = definitions → snapshot_ok plan values err lost → items ≡ₚ map_to_list values →
  (∀ id v, values !! id = Some v → non_finite (pvValue v) = false) →
  ∃ changed s', Update items s = (Ok changed, s') ∧ sValues s' = values ∪ sValues s.
Proof.
  intros Hd [_ Hlost Hheld _] Hit Hn.
  destruct (updateLoop_accepts items ∅ s) as (ch & s' & Hu).
  - apply Forall_forall. intros [id v]. rewrite Hit, elem_of_map_to_list. intros Hv. simpl. rewrite Hd.
    destruct lost; [|destruct (Hheld eq_refl id v Hv)]; (eapply item_checked; [|eassumption || by apply Hlost|by eapply Hn]); auto.
  - exists ch, s'. split; [done|]. apply updateLoop_success in Hu as [-> _].
    + f_equal. rewrite <-(list_to_map_to_list values). symmetry. apply list_to_map_proper; [|by symmetry].
      apply NoDup_fst_map_to_list.
    + rewrite Hit. apply NoDup_fst_map_to_list.
Qed.
End publish.

(** The definitions the store keeps for a normalized table are the plan's. *)
Lemma Replace_definitions c s0 s range sp :
  Normalize c = Ok c → Replace c s0 = (Ok tt, s) → buildPlan range c = Ok sp →
  plan_ok sp ∧ ∀ id p, spPoints sp !! id = Some p → sDefinitions s !! id = Some (ppDefinition p).
Proof.
  intros Hn Hr Hb. apply Normalize_ok in Hn as Hok. destruct Hok as [_ Hok].
  destruct (buildPlan_ok range c sp Hok Hb) as [Hp _]. split; [done|].
  unfold Replace in Hr. rewrite Hn in Hr. injection Hr as <-. cbn [sDefinitions].
  intros id p Hid. destruct (pl_point _ Hp _ _ Hid) as (Hpid & _).
  apply elem_of_list_to_map_1.
  - rewrite fmap_reverse, <-list_fmap_compose. rewrite reverse_Permutation. apply Hok.
  - rewrite reverse_Permutation. apply list_elem_of_fmap. exists (ppDefinition p).
    split; [by rewrite <-Hpid|by eapply buildPlan_points].
Qed.
