(* ===== verification/PlcScan.v ===== *)
(** * Finding a PLC: [internal/agent/plc_scan.go]

    Endpoints and their device ids, the addresses of a scan, the probe of one
    address with the Modbus client, and the pool of goroutines that probes them.
    An IPv4 address is its 32-bit number.  [url.Parse] and [net.ParseIP] are
    parameters; the URL's parts are a record. *)

From Stdlib Require Import Ascii String.
From stdpp Require Import pretty.
From S2P Require Import Prelude Easy521.

Definition defaultPLCScanPort : Z := 502.
Definition defaultPLCUnitID : Z := 1.
Definition maxScanCandidates : Z := 256.
Definition maxScanWorkers : nat := 16.
Definition plcProbeRegister : Z := 504.

(** ** Decimal numbers *)

(** [strconv.Atoi] on 64 bits. *)
Definition Atoi (s : string) : option Z :=
  match s with
  | EmptyString => None
  | String c rest =>
      if Ascii.eqb c "-"%char then
        match parseUint rest 64 with Some v => if v <=? 2 ^ 63 then Some (- v) else None | None => None end
      else if Ascii.eqb c "+"%char then parseUint rest 63
      else parseUint s 63
  end.

(** ** Endpoints *)

Record plcEndpoint := mkEndpoint { peHost : string; pePort : Z; peUnitID : Z }.

#[global] Instance plcEndpoint_eq_dec : EqDecision plcEndpoint.
Proof. solve_decision. Defined.

(** [plcEndpoint.String]: a host with a colon or a zone is put in brackets. *)
Definition joinHostPort (e : plcEndpoint) : string :=
  let host := if containsChar (peHost e) ":"%char || containsChar (peHost e) "%"%char
              then String.append "[" (String.append (peHost e) "]") else peHost e in
  String.append host (String.append ":" (pretty (pePort e))).

Definition DeviceID (e : plcEndpoint) : string :=
  String.append "easy521://" (String.append (joinHostPort e) (String.append "?unitId=" (pretty (peUnitID e)))).

(** The parts of a parsed URL the program looks at. *)
Record url := mkURL {
  urlScheme : string;
  urlUser : bool;
  urlPath : string;
  urlFragment : string;
  urlHostname : string;
  urlPort : string;
  urlQuery : gmap string (list string)
}.

Section device_ids.
Variables (urlParse : string → option url) (isIP : string → bool).

Definition parsePLCDeviceID (raw : string) : option plcEndpoint :=
  match urlParse raw with
  | None => None
  | Some parsed =>
      if (urlScheme parsed <>s "easy521") || urlUser parsed || (urlPath parsed <>s "") || (urlFragment parsed <>s "")
      then None
      else if (urlHostname parsed =s "") || negb (isIP (urlHostname parsed)) then None
      else match Atoi (urlPort parsed) with
           | None => None
           | Some port =>
               if (port <? 1) || (65535 <? port) then None
               else if negb (size (urlQuery parsed) =? 1)%nat then None
               else match urlQuery parsed !! "unitId"%string with
                    | Some [unit] =>
                        match Atoi unit with
                        | None => None
                        | Some unitID =>
                            if (unitID <? 1) || (247 <? unitID) then None
                            else Some (mkEndpoint (urlHostname parsed) port (u8 unitID))
                        end
                    | _ => None
                    end
           end
  end.
End device_ids.

(** ** The addresses of a scan *)

(** One decimal field of a dotted address: no sign, no leading zero. *)
Definition parseOctet (s : string) : option Z :=
  if hasPrefix s "0" && negb (s =s "0") then None else parseUint s 8.

Definition parseIPv4 (s : string) : option Z :=
  match splitChar s "."%char with
  | [a; b; c; d] =>
      match parseOctet a, parseOctet b, parseOctet c, parseOctet d with
      | Some a, Some b, Some c, Some d => Some (a * 2 ^ 24 + b * 2 ^ 16 + c * 2 ^ 8 + d)
      | _, _, _, _ => None
      end
  | _ => None
  end.

(** [netip.ParsePrefix] where it yields an IPv4 prefix. *)
Definition parsePrefix (raw : string) : option (Z * Z) :=
  match splitChar raw "/"%char with
  | [host; bits] =>
      match parseIPv4 host, parseOctet bits with
      | Some address, Some bits => if bits <=? 32 then Some (address, bits) else None
      | _, _ => None
      end
  | _ => None
  end.

Inductive scan_error : Type := SEInvalidRange (raw : string) | SETooMany (raw : string) | SECanceled.

(** [prefix.Masked()]. *)
Definition masked (address bits : Z) : Z := Z.shiftl (Z.shiftr address (32 - bits)) (32 - bits).

Definition scanAddresses (raw : string) : result scan_error (list Z) :=
  match parsePrefix raw with
  | None => Err (SEInvalidRange raw)
  | Some (address, bits) =>
      let base := masked address bits in
      let count := Z.shiftl 1 (32 - bits) in
      if maxScanCandidates <? count then Err (SETooMany raw)
      else Ok (flat_map (fun offset =>
                 let offset := Z.of_nat offset in
                 if (2 <? count) && ((offset =? 0) || (offset =? count - 1)) then []
                 else [u32 (base + u32 offset)]) (seq 0 (Z.to_nat count)))
  end.

(** [netip.Addr.String]. *)
Definition addressText (a : Z) : string :=
  let octet k := pretty (Z.land (Z.shiftr a k) 255) in
  String.append (octet 24) (String.append "." (String.append (octet 16)
    (String.append "." (String.append (octet 8) (String.append "." (octet 0)))))).

(** ** The probe *)

Record plcDevice := mkDevice {
  pdDeviceID : string;
  pdName : string;
  pdAddress : string;
  pdState : string;
  pdSelected : bool;
  pdPort : Z;                   (* the metadata, with the protocol's name *)
  pdUnitID : Z
}.

#[global] Instance plcDevice_eq_dec : EqDecision plcDevice.
Proof. solve_decision. Defined.

Definition deviceAt (e : plcEndpoint) (selected : string) : plcDevice :=
  mkDevice (DeviceID e) (String.append "Easy521 " (peHost e)) (peHost e) "disconnected" (DeviceID e =s selected)
    (pePort e) (peUnitID e).

Section probe.
Context {N : Type} `{Transport N}.

(** [network] is the network between the agent and the address. *)
Definition probePLC (network : N) (address port unitID : Z) (selected : string) : option plcDevice * N :=
  let e := mkEndpoint (addressText address) port unitID in
  match NewWithDial (mkClientConfig (joinHostPort e) unitID (300 * millisecond) (300 * millisecond)) with
  | Err _ => (None, network)
  | Ok client =>
      let '(read, s) := ReadHoldingRegisters plcProbeRegister 1 (client, network) in
      let '(_, s) := Close s in
      match read with
      | Err _ => (None, s.2)
      | Ok _ => (Some (deviceAt e selected), s.2)
      end
  end.
End probe.

(** ** The pool *)

(** The addresses not handed out yet, those being probed, and what arrived in
    [results], in the order it arrived. *)
Record scanPool := mkPool { spQueue : list Z; spBusy : list Z; spFound : list plcDevice }.

Definition addressLe (l r : plcDevice) : Prop := String.leb (pdAddress l) (pdAddress r) = true.

#[global] Instance addressLe_dec : RelDecision addressLe.
Proof. intros l r. unfold addressLe. apply _. Defined.

Section pool.
(** What the probe of an address answers. *)
Variable probe : Z → option plcDevice.

Definition workerCount (addresses : list Z) : nat := Nat.min maxScanWorkers (length addresses).

Inductive pool_step (workers : nat) : scanPool → scanPool → Prop :=
| pool_take a rest busy found :
    (length busy < workers)%nat → pool_step workers (mkPool (a :: rest) busy found) (mkPool rest (busy ++ [a]) found)
| pool_finish queue before a after found :
    pool_step workers (mkPool queue (before ++ a :: after) found)
      (mkPool queue (before ++ after) (found ++ option_list (probe a))).

Inductive pool_run (workers : nat) : scanPool → scanPool → Prop :=
| pool_refl p : pool_run workers p p
| pool_more p q r : pool_step workers p q → pool_run workers q r → pool_run workers p r.

Definition startPool (addresses : list Z) : scanPool := mkPool addresses [] [].
Definition pool_done (p : scanPool) : Prop := spQueue p = [] ∧ spBusy p = [].

(** [sort.Slice] by address. *)
Definition sortDevices (devices : list plcDevice) : list plcDevice := merge_sort addressLe devices.

(** [scanRangeWithProbe], run to [finished] without being cancelled. *)
Definition scanRange (raw : string) (finished : scanPool) (devices : list plcDevice) : Prop :=
  ∃ addresses, scanAddresses raw = Ok addresses ∧
    pool_run (workerCount addresses) (startPool addresses) finished ∧ pool_done finished ∧
    devices = sortDevices (spFound finished).
End pool.
