(* ===== verification/PlcScanProofs.v ===== *)
(** * Proofs about the scan: decimal numbers, addresses, and the pool *)

From Stdlib Require Import Ascii String.
From stdpp Require Import pretty.
From S2P Require Import Prelude GoText Easy521 PlcScan.

(** ** Decimal numbers come back *)

Lemma Atoi_pretty z : 0 ≤ z < 2 ^ 63 → Atoi (pretty z) = Some z.
Proof.
  intros Hz. destruct (digits_nonempty z (pretty z)) as (c & rest & E & Hc); [lia|done|].
  rewrite <-(parseUint_pretty z 63) by done. rewrite E. unfold Atoi.
  destruct (Ascii.eqb_spec c "-"%char) as [->|_]; [done|]. by destruct (Ascii.eqb_spec c "+"%char) as [->|_].
Qed.

(** ** Dotted addresses come back *)

Lemma parseOctet_pretty z : 0 ≤ z < 256 → parseOctet (pretty z) = Some z.
Proof.
  intros Hz. assert (forallb (fun n => bool_decide (parseOctet (pretty (Z.of_nat n)) = Some (Z.of_nat n))) (seq 0 256) = true) as Ha
    by (vm_compute; reflexivity).
  rewrite forallb_forall in Ha. specialize (Ha (Z.to_nat z)). rewrite <-list_elem_of_In, elem_of_seq in Ha.
  specialize (Ha ltac:(lia)). apply bool_decide_eq_true in Ha. by rewrite Z2Nat.id in Ha by lia.
Qed.

Lemma land_byte a k : 0 ≤ a → 0 ≤ k → 0 ≤ Z.land (Z.shiftr a k) 255 < 256.
Proof. intros Ha Hk. change 255 with (Z.ones 8). rewrite Z.land_ones by lia. apply Z.mod_pos_bound. lia. Qed.

Lemma parseIPv4_text a : in_range 32 a → parseIPv4 (addressText a) = Some a.
Proof.
  intros [Ha Hb]. unfold parseIPv4, addressText, splitChar.
  assert (∀ x, String.append "." x = String "."%char x) as Hdot by done. rewrite !Hdot.
  do 3 (rewrite split_on_app by (apply pretty_no_char; [apply land_byte; lia|done])).
  rewrite split_on_end by (apply pretty_no_char; [apply land_byte; lia|done]).
  assert (∀ x, String.append (String.rev "") x = x) as Hnil by done. rewrite !Hnil.
  rewrite !parseOctet_pretty by (apply land_byte; lia). f_equal.
  change 255 with (Z.ones 8). rewrite !Z.land_ones, !Z.shiftr_div_pow2 by lia.
  change (2 ^ 0) with 1. rewrite Z.div_1_r.
  pose proof (Z.div_mod a (2 ^ 8) ltac:(lia)). pose proof (Z.div_mod (a / 2 ^ 8) (2 ^ 8) ltac:(lia)) as E1.
  pose proof (Z.div_mod (a / 2 ^ 16) (2 ^ 8) ltac:(lia)) as E2.
  rewrite Z.div_div in E1 by lia. rewrite Z.div_div in E2 by lia. change (2 ^ 8 * 2 ^ 8) with (2 ^ 16) in E1.
  change (2 ^ 16 * 2 ^ 8) with (2 ^ 24) in E2.
  assert (0 ≤ a / 2 ^ 24 < 2 ^ 8) by (split; [apply Z.div_pos; lia|apply Z.div_lt_upper_bound; lia]).
  rewrite (Z.mod_small (a / 2 ^ 24)) by done. lia.
Qed.

Lemma addressText_inj a b : in_range 32 a → in_range 32 b → addressText a = addressText b → a = b.
Proof. intros Ha Hb E. pose proof (parseIPv4_text a Ha) as H1. rewrite E, (parseIPv4_text b Hb) in H1. congruence. Qed.

(** ** The addresses of a prefix *)

Lemma parseOctet_range s v : parseOctet s = Some v → 0 ≤ v < 256.
Proof. unfold parseOctet. case_match; [done|]. by intros ?%parseUint_range. Qed.

Lemma parsePrefix_range raw a b : parsePrefix raw = Some (a, b) → in_range 32 a ∧ 0 ≤ b ≤ 32.
Proof.
  unfold parsePrefix. destruct (splitChar raw "/"%char) as [|host [|bits [|? ?]]]; try done.
  destruct (parseIPv4 host) as [x|] eqn:Ex; [|done]. destruct (parseOctet bits) as [y|] eqn:Ey; [|done].
  case_match eqn:El; [|done]. intros [= <- <-]. apply parseOctet_range in Ey. split; [|lia].
  unfold parseIPv4 in Ex. destruct (splitChar host "."%char) as [|p [|q [|r [|s [|? ?]]]]]; try done.
  destruct (parseOctet p) eqn:E1, (parseOctet q) eqn:E2, (parseOctet r) eqn:E3, (parseOctet s) eqn:E4; try done.
  apply parseOctet_range in E1, E2, E3, E4. injection Ex as <-. unfold in_range. lia.
Qed.

Lemma masked_block a k : 0 ≤ k → masked a (32 - k) = a / 2 ^ k * 2 ^ k.
Proof. intros Hk. unfold masked. replace (32 - (32 - k)) with k by lia. by rewrite Z.shiftl_mul_pow2, Z.shiftr_div_pow2. Qed.

(** The hosts of a prefix: all of its addresses, without the first and the last
    when there are more than two. *)
Definition host (a bits x : Z) : Prop :=
  let size := 2 ^ (32 - bits) in
  let base := a / size * size in
  base ≤ x < base + size ∧ (2 < size → x ≠ base ∧ x ≠ base + size - 1).

Lemma host_range a bits x : in_range 32 a → 0 ≤ bits ≤ 32 → host a bits x → in_range 32 x.
Proof.
  unfold host, in_range. intros Ha Hb [Hx _]. set (size := 2 ^ (32 - bits)) in *.
  assert (0 < size) by (apply Z.pow_pos_nonneg; lia).
  assert (2 ^ 32 = 2 ^ bits * size) as E32 by (unfold size; rewrite <-Z.pow_add_r by lia; f_equal; lia).
  assert (0 ≤ a / size) by (apply Z.div_pos; lia).
  assert (a / size < 2 ^ bits) by (apply Z.div_lt_upper_bound; lia). nia.
Qed.

Definition kept (drop : nat → bool) (base : Z) (offset : nat) : list Z :=
  if drop offset then [] else [base + Z.of_nat offset].

Lemma kept_elem drop base s n x :
  x ∈ flat_map (kept drop base) (seq s n) ↔ ∃ o, (s ≤ o < s + n)%nat ∧ drop o = false ∧ x = base + Z.of_nat o.
Proof.
  rewrite list_elem_of_In, in_flat_map. setoid_rewrite <-list_elem_of_In. setoid_rewrite elem_of_seq. unfold kept.
  split.
  - intros (o & Ho & Hx). destruct (drop o) eqn:E; [by apply elem_of_nil in Hx|].
    apply list_elem_of_singleton in Hx. eauto.
  - intros (o & Ho & E & ->). exists o. rewrite E, list_elem_of_singleton. done.
Qed.

Lemma kept_NoDup drop base s n : NoDup (flat_map (kept drop base) (seq s n)).
Proof.
  revert s. induction n as [|n IH]; intros s; simpl; [constructor|]. unfold kept at 1. destruct (drop s); simpl; [done|].
  constructor; [|done]. rewrite kept_elem. intros (o & ? & _ & ?). lia.
Qed.

Lemma kept_length drop base s n : (length (flat_map (kept drop base) (seq s n)) ≤ n)%nat.
Proof.
  revert s. induction n as [|n IH]; intros s; simpl; [lia|]. rewrite length_app. specialize (IH (S s)). unfold kept at 1.
  destruct (drop s); simpl; lia.
Qed.

Lemma scanAddresses_ok raw l :
  scanAddresses raw = Ok l →
  ∃ a bits, parsePrefix raw = Some (a, bits) ∧ 24 ≤ bits ≤ 32 ∧ in_range 32 a ∧
    NoDup l ∧ (0 < length l ≤ 256)%nat ∧ ∀ x, x ∈ l ↔ host a bits x.
Proof.
  unfold scanAddresses. destruct (parsePrefix raw) as [[a bits]|] eqn:E; [|done].
  apply parsePrefix_range in E as Hr. destruct Hr as [Ha Hb]. unfold host.
  rewrite Z.shiftl_mul_pow2, Z.mul_1_l by lia. case_match eqn:Hc; [done|]. intros [= <-].
  apply Z.ltb_ge in Hc. unfold maxScanCandidates in Hc. exists a, bits.
  assert (24 ≤ bits) as Hb24.
  { destruct (decide (24 ≤ bits)) as [|Hn]; [done|].
    assert (2 ^ 9 ≤ 2 ^ (32 - bits)) by (apply Z.pow_le_mono_r; lia). lia. }
  assert (masked a bits = a / 2 ^ (32 - bits) * 2 ^ (32 - bits)) as ->.
  { rewrite <-masked_block by lia. f_equal. lia. }
  set (size := 2 ^ (32 - bits)) in *. set (base := a / size * size).
  assert (0 < size) as Hpos by (apply Z.pow_pos_nonneg; lia).
  assert (0 ≤ base ∧ base + size ≤ 2 ^ 32) as [Hbase Htop].
  { assert (2 ^ 32 = 2 ^ bits * size) as E32 by (unfold size; rewrite <-Z.pow_add_r by lia; f_equal; lia).
    assert (0 ≤ a / size) by (apply Z.div_pos; [apply Ha|lia]).
    assert (a / size < 2 ^ bits) by (apply Z.div_lt_upper_bound; [lia|destruct Ha; lia]). unfold base. nia. }
  set (drop o := (2 <? size) && ((Z.of_nat o =? 0) || (Z.of_nat o =? size - 1))).
  assert (flat_map (fun offset =>
            if (2 <? size) && ((Z.of_nat offset =? 0) || (Z.of_nat offset =? size - 1)) then []
            else [u32 (base + u32 (Z.of_nat offset))])
            (seq 0 (Z.to_nat size)) = flat_map (kept drop base) (seq 0 (Z.to_nat size))) as ->.
  { rewrite !flat_map_concat_map. f_equal. apply map_ext_in. intros o Ho%in_seq. cbv zeta. unfold kept, drop.
    case_match; [done|]. f_equal. rewrite (wrap_id 32 (Z.of_nat o)), wrap_id; unfold in_range; lia. }
  split_and!; try done; try lia.
  - apply kept_NoDup.
  - assert ((base + (if 2 <? size then 1 else 0)) ∈ flat_map (kept drop base) (seq 0 (Z.to_nat size))) as Hin.
    { apply kept_elem. exists (if (2 <? size)%Z then 1%nat else 0%nat). unfold drop.
      destruct (Z.ltb_spec 2 size); simpl; split_and!; try lia; try done.
      all: apply (proj2 (Z.eqb_neq 1 (size - 1))); lia. }
    destruct (flat_map _ _); [by apply elem_of_nil in Hin|simpl; lia].
  - pose proof (kept_length drop base 0 (Z.to_nat size)). lia.
  - intros x. rewrite kept_elem. unfold drop. split.
    + intros (o & Ho & Hd & ->). split; [lia|]. intros Hs. rewrite (proj2 (Z.ltb_lt _ _) Hs) in Hd. simpl in Hd.
      propify. lia.
    + intros [Hx Hs]. exists (Z.to_nat (x - base)). split; [lia|]. split; [|lia].
      destruct (Z.ltb_spec 2 size); simpl; [|done]. apply orb_false_iff. split; apply Z.eqb_neq; lia.
Qed.

(** ** The pool *)

Lemma compare_trans_le a b c : String.leb a b = true → String.leb b c = true → String.leb a c = true.
Proof.
  unfold String.leb. revert b c. induction a as [|x a IH]; intros [|y b] [|z c]; simpl; try done.
  unfold Ascii.compare. destruct (N.compare_spec (N_of_ascii x) (N_of_ascii y)) as [E|L|G], (N.compare_spec (N_of_ascii y) (N_of_ascii z)) as [E'|L'|G'],
    (N.compare_spec (N_of_ascii x) (N_of_ascii z)) as [E2|L2|G2]; try done; try (exfalso; lia).
  apply IH.
Qed.

#[global] Instance addressLe_trans : Transitive addressLe.
Proof. intros a b c. apply compare_trans_le. Qed.

#[global] Instance addressLe_total : Total addressLe.
Proof. intros a b. apply String.leb_total. Qed.

Section pool.
Variable probe : Z → option plcDevice.

(** Every address is waiting, being probed, or done; what was found is what the
    probes of the done ones answered. *)
Definition pool_inv (addresses : list Z) (workers : nat) (p : scanPool) : Prop :=
  (length (spBusy p) ≤ workers)%nat ∧
  ∃ done, addresses ≡ₚ spQueue p ++ spBusy p ++ done ∧ spFound p ≡ₚ omap probe done.

Lemma pool_inv_start addresses workers : pool_inv addresses workers (startPool addresses).
Proof. split; simpl; [lia|]. exists []. by rewrite app_nil_r. Qed.

Lemma pool_inv_step addresses workers p q :
  pool_inv addresses workers p → pool_step probe workers p q → pool_inv addresses workers q.
Proof.
  intros [Hw (d & Ha & Hf)] Hs. destruct Hs as [a rest busy found Hlt|queue before a after found]; simpl in *.
  - split; simpl; [rewrite length_app; simpl; lia|]. exists d. split; [|done]. rewrite Ha. solve_Permutation.
  - split; simpl; [rewrite length_app in *; simpl in *; lia|]. exists (a :: d). split; [rewrite Ha; solve_Permutation|].
    simpl. rewrite Hf. destruct (probe a); simpl; solve_Permutation.
Qed.

Lemma pool_inv_run addresses workers p q :
  pool_inv addresses workers p → pool_run probe workers p q → pool_inv addresses workers q.
Proof. intros Hi. induction 1 as [|p q r Hs _ IH]; [done|]. apply IH. by eapply pool_inv_step. Qed.

Lemma pool_result addresses workers p :
  pool_run probe workers (startPool addresses) p → pool_done p → spFound p ≡ₚ omap probe addresses.
Proof.
  intros Hr [Hq Hb]. destruct (pool_inv_run addresses workers _ _ (pool_inv_start _ _) Hr) as [_ (d & Ha & Hf)].
  rewrite Hq, Hb in Ha. simpl in Ha. by rewrite Hf, Ha.
Qed.

Lemma pool_trans workers p q r : pool_run probe workers p q → pool_run probe workers q r → pool_run probe workers p r.
Proof. intros H1 H2. induction H1 as [|p p' q Hs _ IH]; [done|]. eapply pool_more; eauto. Qed.

Lemma pool_finishes workers p : (0 < workers)%nat → ∃ q, pool_run probe workers p q ∧ pool_done q.
Proof.
  intros Hw. destruct p as [queue busy found]. revert busy found. induction queue as [|a rest IH].
  - induction busy as [|b busy IHb]; intros found; [by exists (mkPool [] [] found); split; [constructor|]|].
    destruct (IHb (found ++ option_list (probe b))) as (q & Hr & Hd). exists q. split; [|done].
    eapply pool_more; [apply (pool_finish probe workers [] [] b busy found)|exact Hr].
  - induction busy as [|b busy IHb]; intros found.
    + destruct (IH [a] found) as (q & Hr & Hd). exists q. split; [|done]. eapply pool_more; [by apply pool_take|exact Hr].
    + destruct (IHb (found ++ option_list (probe b))) as (q & Hr & Hd). exists q. split; [|done].
      eapply pool_more; [apply (pool_finish probe workers (a :: rest) [] b busy found)|exact Hr].
Qed.

(** The order of arrival does not show in the answer. *)
Lemma sort_found addresses found :
  (∀ a d, a ∈ addresses → probe a = Some d → pdAddress d = addressText a) → Forall (in_range 32) addresses →
  found ≡ₚ omap probe addresses → sortDevices found = sortDevices (omap probe addresses).
Proof.
  intros Hp Hr Hf. apply (StronglySorted_unique_strong addressLe); try apply (StronglySorted_merge_sort _).
  - intros d1 d2. unfold sortDevices. rewrite !merge_sort_Permutation, Hf, !list_elem_of_omap.
    intros (a & Ha & Hda) (b & Hb & Hdb) H1 H2. pose proof (String.leb_antisym _ _ H1 H2) as E.
    rewrite (Hp a d1), (Hp b d2) in E by done. rewrite Forall_forall in Hr.
    apply addressText_inj in E; [congruence|by apply Hr|by apply Hr].
  - unfold sortDevices. by rewrite !merge_sort_Permutation.
Qed.
End pool.

(** ** Endpoints *)

Definition endpoint_ok (e : plcEndpoint) : Prop := 1 ≤ pePort e ≤ 65535 ∧ 1 ≤ peUnitID e ≤ 247.

(** What [url.Parse] makes of a device id. *)
Definition deviceURL (e : plcEndpoint) : url :=
  mkURL "easy521" false "" "" (peHost e) (pretty (pePort e)) {["unitId"%string := [pretty (peUnitID e)]]}.

Lemma parse_DeviceID urlParse isIP e :
  urlParse (DeviceID e) = Some (deviceURL e) → isIP (peHost e) = true → peHost e ≠ ""%string → endpoint_ok e →
  parsePLCDeviceID urlParse isIP (DeviceID e) = Some e.
Proof.
  intros Hu Hip Hh [Hp Hn]. unfold parsePLCDeviceID. rewrite Hu. cbn [urlScheme urlUser urlPath urlFragment urlHostname urlPort urlQuery deviceURL].
  rewrite (proj2 (String.eqb_neq _ _) Hh), Hip, Atoi_pretty by lia. cbn [negb orb String.eqb Ascii.eqb Bool.eqb].
  rewrite (proj2 (Z.ltb_ge _ _)), (proj2 (Z.ltb_ge _ _)) by lia. cbn [orb]. rewrite map_size_singleton, lookup_singleton_eq.
  cbn [Nat.eqb negb]. rewrite Atoi_pretty by lia. rewrite !(proj2 (Z.ltb_ge _ _)) by lia. cbn [orb].
  rewrite wrap_id by (unfold in_range; lia). by destruct e.
Qed.

Lemma parse_ok urlParse isIP raw e :
  parsePLCDeviceID urlParse isIP raw = Some e → endpoint_ok e ∧ peHost e ≠ ""%string ∧ isIP (peHost e) = true.
Proof.
  unfold parsePLCDeviceID. destruct (urlParse raw) as [u|]; [|done]. case_match; [done|]. case_match eqn:Hh; [done|].
  destruct (Atoi (urlPort u)) as [port|]; [|done]. case_match eqn:Hp; [done|]. case_match; [done|].
  destruct (urlQuery u !! _) as [[|unit [|? ?]]|]; try done. destruct (Atoi unit) as [n|]; [|done].
  case_match eqn:Hn; [done|]. intros [= <-]. apply orb_false_iff in Hh as [Hh Hip%negb_false_iff].
  apply String.eqb_neq in Hh. propify. unfold endpoint_ok. simpl. rewrite wrap_id by (unfold in_range; lia). done.
Qed.
