(* ===== verification/Hmi.v ===== *)
(** * The HMI runtime session: [internal/agent/runtime.go],
      [plc_runtime.go], [plc_endpoint.go] and the alarm transitions of
      [mqtt_runtime.go]

    One [Runtime] is shared by the goroutines of the WebSocket clients, of the
    PLC workers, of the PLC scans and of the server.  Its state is the record
    [Runtime]; sessions and workers live in heaps because goroutines keep
    pointers to them after they were replaced.  Every definition below is one
    critical section of the code (a stretch under [Runtime.mu], or one call of
    the point store between two of them); where a handler gives up the lock it
    continues from the [client_pc] of its goroutine.  [HmiSteps] interleaves
    them.  Messages are the decoded fields with the decoder's error. *)

From Stdlib Require Import Ascii String.
From stdpp Require Import pretty.
From S2P Require Import Prelude GoValue RuntimeConfig PointStore Storage Worker PlcScan.

(** ** What the session needs of a worker

    [wStart] builds one (the factory of [newPLCWorker]); [wConfirm] is
    [confirmDisconnected]: the stale snapshot to publish, unless the worker is
    already disconnected. *)
Class PlcWorker (W : Type) := {
  wNew : Config → plcEndpoint → result string W;
  wTrySubmit : nat → Command → W → option Result * W;
  wDisconnected : W → bool;
  wConfirm : W → option (gmap string PointValue) * W;
  wStep : W → W → Prop          (* one round of its own goroutine *)
}.

(** ** Data *)

Record runtimeSession := mkSession {
  seConfig : Config;
  seWorker : option nat;        (* [worker] and [cancel], always set together *)
  seMqtt : bool;
  seAlarms : gmap string bool;
  seBroadcasts : bool;
  seDeviceID : string;
  sePlcState : string;
  seDisconnecting : bool
}.

(** [broadcasts], the connection state and the worker of a session. *)
Definition setPlc (worker : option nat) (deviceID state : string) (broadcasts disconnecting : bool)
    (se : runtimeSession) : runtimeSession :=
  mkSession (seConfig se) worker (seMqtt se) (seAlarms se) broadcasts deviceID state disconnecting.
Definition setAlarms (alarms : gmap string bool) (se : runtimeSession) : runtimeSession :=
  mkSession (seConfig se) (seWorker se) (seMqtt se) alarms (seBroadcasts se) (seDeviceID se) (sePlcState se)
    (seDisconnecting se).
Definition detachMQTTLocked (se : runtimeSession) : runtimeSession :=
  mkSession (seConfig se) (seWorker se) false (seAlarms se) (seBroadcasts se) (seDeviceID se) (sePlcState se)
    (seDisconnecting se).

(** The messages to the HMI, one constructor per envelope function; the
    protocol version, the type and the timestamp they add are left out. *)
Inductive outbound : Type :=
| OConfigured (scanIntervalMs : Z)
| OSnapshot (values : gmap string PointValue)
| OChanged (values : gmap string PointValue)
| OError (requestID code : string)
| OPointError (requestID pointID code : string)
| OPointSuccess (requestID pointID : string) (actual : goval)
| OScanResult (requestID : string) (devices : list plcDevice)
| OConnection (deviceID state : string)
| OConnectResult (requestID deviceID : string) (success : bool) (state code : string)
| ODisconnectResult (requestID : string).

Record alarmRecord := mkAlarmRecord {
  arCounter : Z; arAlarmID : string; arKind : string; arText : string; arOccurredAt : Z; arValue : goval
}.

(** What [applyValues] has still to do, given up between two locks. *)
Inductive publishing : Type :=
| PubApply (session : nat) (owner : nat) (broadcasts : bool) (items : list (string * PointValue))
| PubSend (session : nat) (owner : nat) (broadcasts : bool) (changed : gmap string PointValue)
| PubAlarms (session : nat) (changed : gmap string PointValue)
| PubObserve (session : nat) (records : list alarmRecord).

(** [StopSession] after its critical section. *)
Inductive stopping : Type :=
| StopCancel (owner worker : option nat)
| StopWait (owner worker : option nat)
| StopClose (owner : option nat).

(** Where a client's goroutine stands. *)
Inductive client_pc : Type :=
| CReading (configured : bool)
| CConfiguring (config : Config) (saved : option plcEndpoint) (mqtt : bool)
| CConnect (requestID : string) (ep : plcEndpoint) (persist : bool)
| CConnectWait (session : nat) (requestID : string) (ep : plcEndpoint) (persist : bool) (old : option nat)
| CConnectAttach (session : nat) (requestID : string) (ep : plcEndpoint) (persist : bool) (worker : nat)
| CDisconnectWait (session : nat) (requestID : string) (worker : option nat)
| CDisconnectPublish (session : nat) (requestID : string) (worker : nat) (items : list (string * PointValue))
| CDisconnectApply (session : nat) (requestID : string) (worker : nat) (pub : publishing)
| CDisconnectNotify (session : nat) (requestID : string) (worker : nat)
| CDisconnectEnd (session : nat) (requestID : string) (worker : option nat)
| CClosing                      (* [<-client.done] *)
| CLeaving                      (* the deferred [close] and [disconnect] *)
| CStopBegin                    (* [disconnect] found itself the owner *)
| CStopping (s : stopping)
| CGone.

Record wsClient := mkClient {
  clQueue : list (outbound * bool);      (* the channel [send] *)
  clDone : bool;
  clSent : list outbound;                (* written to the socket *)
  clPc : client_pc
}.

Record workerCell (W : Type) := mkCell {
  wcState : W;
  wcSession : nat;                       (* captured by the publish callback *)
  wcStarted : bool;
  wcCancelled : bool;
  wcDone : bool;
  wcReady : option bool;                 (* the first scan succeeded *)
  wcPublishing : option publishing
}.
Arguments mkCell {W}.
Arguments wcState {W}.
Arguments wcSession {W}.
Arguments wcStarted {W}.
Arguments wcCancelled {W}.
Arguments wcDone {W}.
Arguments wcReady {W}.
Arguments wcPublishing {W}.

(** [finishPLCConnect], waiting for the worker's first scan. *)
Record finish := mkFinish {
  fiClient : nat; fiSession : nat; fiWorker : nat; fiRequestID : string; fiDeviceID : string;
  fiEndpoint : plcEndpoint; fiPersist : bool
}.

(** A scan, with what its goroutine was given. *)
Record scanCell := mkScanCell {
  scClient : nat; scRequestID : string; scRange : string; scPort : Z; scUnitID : Z; scSelected : string;
  scCancelled : bool
}.

Record Runtime (W : Type) := mkRuntime {
  rtStore : PointStore.Store;
  rtDisk : option Storage.Store;                    (* [plcEndpointStore] *)
  rtOwner : option nat;
  rtSession : option nat;
  rtSessions : gmap nat runtimeSession;
  rtClients : gmap nat wsClient;
  rtWorkers : gmap nat (workerCell W);
  rtScanCancel : option nat;
  rtScans : gmap nat scanCell;                      (* running scans *)
  rtFinishes : list finish;
  rtReplies : list (nat * string * nat * nat);      (* client, request, worker, ticket *)
  rtServe : option stopping;                        (* the server's own [StopSession] *)
  rtAlarmID : Z;
  rtAlarms : list alarmRecord                       (* handed to the alarm history *)
}.
Arguments mkRuntime {W}.
Arguments rtStore {W}.
Arguments rtDisk {W}.
Arguments rtOwner {W}.
Arguments rtSession {W}.
Arguments rtSessions {W}.
Arguments rtClients {W}.
Arguments rtWorkers {W}.
Arguments rtScanCancel {W}.
Arguments rtScans {W}.
Arguments rtFinishes {W}.
Arguments rtReplies {W}.
Arguments rtServe {W}.
Arguments rtAlarmID {W}.
Arguments rtAlarms {W}.

Section setters.
Context {W : Type}.

Definition withStore (v : PointStore.Store) (r : Runtime W) : Runtime W :=
  mkRuntime v (rtDisk r) (rtOwner r) (rtSession r) (rtSessions r) (rtClients r)
    (rtWorkers r) (rtScanCancel r) (rtScans r) (rtFinishes r)
    (rtReplies r) (rtServe r) (rtAlarmID r) (rtAlarms r).
Definition withDisk (v : option Storage.Store) (r : Runtime W) : Runtime W :=
  mkRuntime (rtStore r) v (rtOwner r) (rtSession r) (rtSessions r) (rtClients r)
    (rtWorkers r) (rtScanCancel r) (rtScans r) (rtFinishes r)
    (rtReplies r) (rtServe r) (rtAlarmID r) (rtAlarms r).
Definition withOwner (owner session : option nat) (r : Runtime W) : Runtime W :=
  mkRuntime (rtStore r) (rtDisk r) owner session (rtSessions r) (rtClients r)
    (rtWorkers r) (rtScanCancel r) (rtScans r) (rtFinishes r)
    (rtReplies r) (rtServe r) (rtAlarmID r) (rtAlarms r).
Definition withSessions (v : gmap nat runtimeSession) (r : Runtime W) : Runtime W :=
  mkRuntime (rtStore r) (rtDisk r) (rtOwner r) (rtSession r) v (rtClients r)
    (rtWorkers r) (rtScanCancel r) (rtScans r) (rtFinishes r)
    (rtReplies r) (rtServe r) (rtAlarmID r) (rtAlarms r).
Definition withClients (v : gmap nat wsClient) (r : Runtime W) : Runtime W :=
  mkRuntime (rtStore r) (rtDisk r) (rtOwner r) (rtSession r) (rtSessions r) v
    (rtWorkers r) (rtScanCancel r) (rtScans r) (rtFinishes r)
    (rtReplies r) (rtServe r) (rtAlarmID r) (rtAlarms r).
Definition withWorkers (v : gmap nat (workerCell W)) (r : Runtime W) : Runtime W :=
  mkRuntime (rtStore r) (rtDisk r) (rtOwner r) (rtSession r) (rtSessions r) (rtClients r) v
    (rtScanCancel r) (rtScans r) (rtFinishes r)
    (rtReplies r) (rtServe r) (rtAlarmID r) (rtAlarms r).
Definition withScans (cancel : option nat) (v : gmap nat scanCell) (r : Runtime W) : Runtime W :=
  mkRuntime (rtStore r) (rtDisk r) (rtOwner r) (rtSession r) (rtSessions r) (rtClients r)
    (rtWorkers r) cancel v (rtFinishes r)
    (rtReplies r) (rtServe r) (rtAlarmID r) (rtAlarms r).
Definition withFinishes (v : list finish) (r : Runtime W) : Runtime W :=
  mkRuntime (rtStore r) (rtDisk r) (rtOwner r) (rtSession r) (rtSessions r) (rtClients r)
    (rtWorkers r) (rtScanCancel r) (rtScans r) v
    (rtReplies r) (rtServe r) (rtAlarmID r) (rtAlarms r).
Definition withReplies (v : list (nat * string * nat * nat)) (r : Runtime W) : Runtime W :=
  mkRuntime (rtStore r) (rtDisk r) (rtOwner r) (rtSession r) (rtSessions r) (rtClients r)
    (rtWorkers r) (rtScanCancel r) (rtScans r) (rtFinishes r) v (rtServe r) (rtAlarmID r) (rtAlarms r).
Definition withServe (v : option stopping) (r : Runtime W) : Runtime W :=
  mkRuntime (rtStore r) (rtDisk r) (rtOwner r) (rtSession r) (rtSessions r) (rtClients r)
    (rtWorkers r) (rtScanCancel r) (rtScans r) (rtFinishes r)
    (rtReplies r) v (rtAlarmID r) (rtAlarms r).
Definition withAlarms (counter : Z) (v : list alarmRecord) (r : Runtime W) : Runtime W :=
  mkRuntime (rtStore r) (rtDisk r) (rtOwner r) (rtSession r) (rtSessions r) (rtClients r)
    (rtWorkers r) (rtScanCancel r) (rtScans r) (rtFinishes r)
    (rtReplies r) (rtServe r) counter v.

Definition onSession (s : nat) (f : runtimeSession → runtimeSession) (r : Runtime W) : Runtime W :=
  withSessions (alter f s (rtSessions r)) r.
Definition onClient (c : nat) (f : wsClient → wsClient) (r : Runtime W) : Runtime W :=
  withClients (alter f c (rtClients r)) r.
Definition onWorker (w : nat) (f : workerCell W → workerCell W) (r : Runtime W) : Runtime W :=
  withWorkers (alter f w (rtWorkers r)) r.
End setters.

Definition goto (c : nat) (pc : client_pc) {W} (r : Runtime W) : Runtime W :=
  onClient c (fun cl => mkClient (clQueue cl) (clDone cl) (clSent cl) pc) r.

(** ** The client's channel *)

Definition wsQueueSize : nat := 128.

Definition closeClient (cl : wsClient) : wsClient := mkClient (clQueue cl) true (clSent cl) (clPc cl).

(** A full channel closes the client instead of blocking the caller. *)
Definition enqueueMessage (o : outbound) (closeAfter : bool) (cl : wsClient) : wsClient :=
  if clDone cl then cl
  else if (length (clQueue cl) <? wsQueueSize)%nat
  then mkClient (clQueue cl ++ [(o, closeAfter)]) (clDone cl) (clSent cl) (clPc cl)
  else closeClient cl.

Definition enqueue (c : nat) (o : outbound) (closeAfter : bool) {W} (r : Runtime W) : Runtime W :=
  onClient c (enqueueMessage o closeAfter) r.

(** [writeLoop]: the next message; [sent] is whether the socket took it. *)
Definition writeMessage (sent : bool) (cl : wsClient) : wsClient :=
  match clQueue cl with
  | [] => cl
  | (o, closeAfter) :: rest =>
      if sent then mkClient rest (clDone cl || closeAfter) (clSent cl ++ [o]) (clPc cl)
      else mkClient rest true (clSent cl) (clPc cl)
  end.

(** ** Messages from the HMI: the decoded fields, and whether decoding failed *)

Record envelope := mkEnvelope { enBad : bool; enProtocol : string; enTimestamp : string; enRequestID : string }.

Inductive inbound : Type :=
| InMalformed
| InConfigure (e : envelope) (scanIntervalMs : Z) (points : list PointDefinition)
| InSnapshotGet (e : envelope)
| InScan (e : envelope) (addressRange : string) (port unitID : option Z)
| InConnect (e : envelope) (deviceID : string)
| InDisconnect (e : envelope)
| InCommand (e : envelope) (pointID action : string) (value : option (option goval))
| InOther (messageType : string).

Inductive scan_outcome : Type := ScanCanceled | ScanFailed | ScanDevices (devices : list plcDevice).

Section hmi.
Context {W : Type} `{PlcWorker W}.
(** RFC 3339 parsing, URL and IP parsing, the order in which Go enumerates a map,
    and whether the agent has an alarm history. *)
Variables (validTime : string → bool) (urlParse : string → option url) (isIP : string → bool)
  (range : gmap string PointValue → list (string * PointValue)) (history : bool).
Implicit Types r : Runtime W.

Definition validateRequestEnvelope (e : envelope) : bool :=
  negb (enBad e) && (enProtocol e =s "1.0") && validTime (enTimestamp e).

(** ** Workers *)

Definition cancelWorker (w : option nat) r : Runtime W :=
  match w with
  | Some w => onWorker w (fun cell => mkCell (wcState cell) (wcSession cell) (wcStarted cell) true (wcDone cell)
                            (wcReady cell) (wcPublishing cell)) r
  | None => r
  end.

(** [<-worker.Done()] does not block. *)
Definition workerDone (w : option nat) r : bool :=
  match w with
  | Some w => match rtWorkers r !! w with Some cell => wcDone cell | None => true end
  | None => true
  end.

Definition setPublishing (p : option publishing) (cell : workerCell W) : workerCell W :=
  mkCell (wcState cell) (wcSession cell) (wcStarted cell) (wcCancelled cell) (wcDone cell) (wcReady cell) p.

Definition setState (st : W) (cell : workerCell W) : workerCell W :=
  mkCell st (wcSession cell) (wcStarted cell) (wcCancelled cell) (wcDone cell) (wcReady cell) (wcPublishing cell).

Definition setReady (ok : bool) (cell : workerCell W) : workerCell W :=
  mkCell (wcState cell) (wcSession cell) (wcStarted cell) (wcCancelled cell) (wcDone cell) (Some ok)
    (wcPublishing cell).

(** The deferred calls of [Run]: a first scan that was never made is reported
    as failed. *)
Definition setDone (cell : workerCell W) : workerCell W :=
  mkCell (wcState cell) (wcSession cell) (wcStarted cell) (wcCancelled cell) true
    (Some (default false (wcReady cell))) (wcPublishing cell).

(** [go worker.Run(ctx)]. *)
Definition startWorker (cancelled : bool) (cell : workerCell W) : workerCell W :=
  mkCell (wcState cell) (wcSession cell) true cancelled (wcDone cell) (wcReady cell) (wcPublishing cell).

Definition detachWorkerLocked (se : runtimeSession) : runtimeSession :=
  setPlc None "" "disconnected" false false se.

(** The current session, if [s] is it and [w] is attached to it. *)
Definition current (s w : nat) r : option runtimeSession :=
  if bool_decide (rtSession r = Some s) then
    match rtSessions r !! s with
    | Some se => if bool_decide (seWorker se = Some w) then Some se else None
    | None => None
    end
  else None.

(** ** Publishing: [updateFromWorker], [applyValues], [recordAlarmChanges] *)

Definition updateFromWorker (s w : nat) (items : list (string * PointValue)) r : option publishing :=
  match current s w r, rtOwner r with
  | Some se, Some owner => Some (PubApply s owner (seBroadcasts se) items)
  | _, _ => None
  end.

Definition alarmChange (definitions : gmap string PointDefinition)
    (st : gmap string bool * Z * list alarmRecord) (item : string * PointValue)
    : gmap string bool * Z * list alarmRecord :=
  let '(alarms, counter, records) := st in
  let '(id, value) := item in
  match pvAlarmActive value, definitions !! id with
  | Some active, Some d =>
      match pAlarm d with
      | Some a =>
          if pvQuality value <>s "good" then st
          else
            let alarms' := <[id := active]> alarms in
            let same := match alarms !! id with Some previous => Bool.eqb previous active | None => negb active end in
            if same then (alarms', counter, records)
            else (alarms', u64 (counter + 1),
                  records ++ [mkAlarmRecord (u64 (counter + 1)) id (if active then "RAISED" else "CLEARED")
                                (aMessage a) (pvUpdatedAt value) (pvValue value)])
      | None => st
      end
  | _, _ => st
  end.

Definition recordAlarmChanges (s : nat) (changed : gmap string PointValue) r : list alarmRecord * Runtime W :=
  if negb history then ([], r)
  else if bool_decide (rtSession r = Some s) then
    match rtSessions r !! s with
    | Some se =>
        let '(alarms, counter, records) :=
          foldl (alarmChange (sDefinitions (rtStore r))) (seAlarms se, rtAlarmID r, []) (range changed) in
        (records, withAlarms counter (rtAlarms r) (onSession s (setAlarms alarms) r))
    | None => ([], r)
    end
  else ([], r).

(** The rest of a publication: what is left to do, or whether it succeeded.
    [stored] records are appended before the history reports an error. *)
Definition publishStep (stored : nat) (p : publishing) r : (publishing + bool) * Runtime W :=
  match p with
  | PubApply s owner broadcasts items =>
      match Update items (rtStore r) with
      | (Err _, st) => (inr false, withStore st r)
      | (Ok changed, st) =>
          (if bool_decide (changed = ∅) then inr true else inl (PubSend s owner broadcasts changed), withStore st r)
      end
  | PubSend s owner broadcasts changed =>
      (inl (PubAlarms s changed), if broadcasts then enqueue owner (OChanged changed) false r else r)
  | PubAlarms s changed =>
      let '(records, r) := recordAlarmChanges s changed r in (inl (PubObserve s records), r)
  | PubObserve s records => (inr true, withAlarms (rtAlarmID r) (rtAlarms r ++ take stored records) r)
  end.

(** ** [StopSession] *)

Definition endSession (se : runtimeSession) : runtimeSession := detachMQTTLocked (detachWorkerLocked se).

Definition onCurrent (f : runtimeSession → runtimeSession) r : Runtime W :=
  match rtSession r with Some s => onSession s f r | None => r end.

Definition currentWorker r : option nat :=
  match rtSession r with
  | Some s => match rtSessions r !! s with Some se => seWorker se | None => None end
  | None => None
  end.

Definition stopBegin r : stopping * Runtime W :=
  (StopCancel (rtOwner r) (currentWorker r), withOwner None None (onCurrent endSession r)).

Definition cancelScan r : Runtime W :=
  match rtScanCancel r with
  | Some n =>
      withScans None (alter (fun sc => mkScanCell (scClient sc) (scRequestID sc) (scRange sc) (scPort sc) (scUnitID sc) (scSelected sc) true) n (rtScans r)) r
  | None => r
  end.

(** The steps after the critical section; [None] when a step cannot be taken
    yet, [Some (None, _)] when [StopSession] returns. *)
Definition stopStep (s : stopping) r : option (option stopping * Runtime W) :=
  match s with
  | StopCancel owner w => Some (Some (StopWait owner w), cancelWorker w (cancelScan r))
  | StopWait owner w =>
      if workerDone w r then Some (Some (StopClose owner), withStore (Clear (rtStore r)) r) else None
  | StopClose owner =>
      Some (None, match owner with Some c => onClient c closeClient r | None => r end)
  end.

(** ** [configure] *)

Definition loadPLCEndpoint r : option (option plcEndpoint) * Runtime W :=
  match rtDisk r with
  | None => (Some None, r)
  | Some disk =>
      let '(loaded, disk) := LoadPLCEndpoint disk in
      let r := withDisk (Some disk) r in
      match loaded with
      | Err _ => (None, r)
      | Ok None => (Some None, r)
      | Ok (Some saved) =>
          match parsePLCDeviceID urlParse isIP (DeviceID (mkEndpoint (epHost saved) (epPort saved) (wrap 8 (epUnitID saved)))) with
          | None => (None, r)
          | Some ep => (Some (Some ep), r)
          end
      end
  end.

Definition rejectConfigure (c : nat) r : Runtime W :=
  goto c (CReading false) (enqueue c (OError "" "INVALID_REQUEST") false r).

(** Up to the lock; [mqtt] is the outcome of [newMQTTSession]. *)
Definition configure (c : nat) (e : envelope) (scanIntervalMs : Z) (points : list PointDefinition)
    (mqtt : option bool) r : Runtime W :=
  if negb (validateRequestEnvelope e) then rejectConfigure c r
  else match Normalize (mkConfig scanIntervalMs points) with
       | Err _ => rejectConfigure c r
       | Ok config =>
           match loadPLCEndpoint r with
           | (None, r) => rejectConfigure c r
           | (Some saved, r) =>
               match mqtt with
               | None => rejectConfigure c r
               | Some mqtt => goto c (CConfiguring config saved mqtt) r
               end
           end
       end.

Definition installSession (c s : nat) (config : Config) (saved : option plcEndpoint) (mqtt : bool) r : Runtime W :=
  match Replace config (rtStore r) with
  | (Err _, _) => rejectConfigure c r
  | (Ok _, st) =>
      let se := mkSession config None mqtt ∅ false "" "disconnected" false in
      goto c (match saved with None => CReading true | Some ep => CConnect "" ep false end)
        (enqueue c (OConfigured (cScanIntervalMs config)) false
           (withOwner (Some c) (Some s) (withSessions (<[s := se]> (rtSessions r)) (withStore st r))))
  end.

(** Under the lock; [s] is the new session. *)
Definition configureLocked (c s : nat) (config : Config) (saved : option plcEndpoint) (mqtt : bool) r : Runtime W :=
  match rtOwner r with
  | Some owner =>
      if bool_decide (owner = c) then installSession c s config saved mqtt r else rejectConfigure c r
  | None => installSession c s config saved mqtt r
  end.

(** ** [connectPLC] *)

Definition isOwner (c : nat) r : bool := bool_decide (rtOwner r = Some c).

Definition connectPLC (c : nat) (requestID : string) (ep : plcEndpoint) (persist : bool) r : Runtime W :=
  match rtSession r with
  | Some s =>
      if isOwner c r then
        let old := currentWorker r in
        goto c (CConnectWait s requestID ep persist old)
          (cancelWorker old (onSession s detachWorkerLocked r))
      else goto c (CReading true) (enqueue c (OError requestID "PLC_NOT_CONNECTED") false r)
  | None => goto c (CReading true) (enqueue c (OError requestID "PLC_NOT_CONNECTED") false r)
  end.

(** The old worker is done: the values are dropped and a worker is built; [w]
    is its address. *)
Definition connectCreate (c s w : nat) (requestID : string) (ep : plcEndpoint) (persist : bool) r : Runtime W :=
  let r := withStore (ClearValues (rtStore r)) r in
  match rtSessions r !! s with
  | None => goto c (CReading true) r
  | Some se =>
      match wNew (seConfig se) ep with
      | Err _ =>
          goto c (CReading true)
            (enqueue c (OConnectResult requestID (DeviceID ep) false "" "INTERNAL_ERROR") false r)
      | Ok st =>
          goto c (CConnectAttach s requestID ep persist w)
            (withWorkers (<[w := mkCell st s false false false None None]> (rtWorkers r)) r)
      end
  end.

(** The second critical section, and the two goroutines it leads to. *)
Definition connectAttach (c s w : nat) (requestID : string) (ep : plcEndpoint) (persist : bool) r : Runtime W :=
  if isOwner c r && bool_decide (rtSession r = Some s) then
    goto c (CReading true)
      (withFinishes (rtFinishes r ++ [mkFinish c s w requestID (DeviceID ep) ep persist])
         (onWorker w (startWorker false)
            (enqueue c (OConnection (DeviceID ep) "connecting") false
               (onSession s (setPlc (Some w) (DeviceID ep) "connecting" false false) r))))
  else goto c (CReading true) (onWorker w (startWorker true) r).

Definition savePLCEndpoint (ep : plcEndpoint) r : bool * Runtime W :=
  match rtDisk r with
  | None => (true, r)
  | Some disk =>
      let '(saved, disk) := SavePLCEndpoint (mkPLCEndpoint (peHost ep) (pePort ep) (peUnitID ep)) disk in
      (is_ok saved, withDisk (Some disk) r)
  end.

Definition setPlcState (state : string) (broadcasts : bool) (se : runtimeSession) : runtimeSession :=
  setPlc (seWorker se) (seDeviceID se) state broadcasts (seDisconnecting se) se.

(** [finishPLCConnect] once the first scan has reported [ready]. *)
Definition finishPLCConnect (f : finish) (ready disconnected : bool) r : Runtime W :=
  let c := fiClient f in
  match current (fiSession f) (fiWorker f) r with
  | Some se =>
      if negb (isOwner c r) || seDisconnecting se then r
      else
        let '(saved, r) := if ready && fiPersist f then savePLCEndpoint (fiEndpoint f) r else (true, r) in
        let state := if ready then "connected"%string
                     else if disconnected then "disconnected"%string else "error"%string in
        let r := onSession (fiSession f) (setPlcState state (seBroadcasts se)) r in
        let r := if state <>s "disconnected" then enqueue c (OConnection (fiDeviceID f) state) false r else r in
        let r := enqueue c (OConnectResult (fiRequestID f) (fiDeviceID f) (ready && saved) state
                   (if negb ready then "PLC_READ_FAILED" else if negb saved then "PLC_ENDPOINT_SAVE_FAILED" else ""))
                   false r in
        let r := enqueue c (OSnapshot (Snapshot (rtStore r))) false r in
        onSession (fiSession f) (setPlcState state true) r
  | None => r
  end.

(** The worker's handlers. *)
Definition notifyPLC (s w : nat) (state : string) r : Runtime W :=
  match current s w r, rtOwner r with
  | Some se, Some owner =>
      if (state =s "connected") && seDisconnecting se then r
      else
        let r := onSession s (setPlcState state (seBroadcasts se)) r in
        if seDeviceID se <>s "" then enqueue owner (OConnection (seDeviceID se) state) false r else r
  | _, _ => r
  end.

(** ** [handlePLCDisconnect] *)

Definition handlePLCDisconnect (c : nat) (e : envelope) r : Runtime W :=
  let requestID := enRequestID e in
  if negb (validateRequestEnvelope e) then enqueue c (OError requestID "INVALID_REQUEST") false r
  else match rtSession r with
       | Some s =>
           if isOwner c r then
             let w := currentWorker r in
             goto c (CDisconnectWait s requestID w)
               (cancelWorker w
                  (onSession s (fun se => setPlc (seWorker se) (seDeviceID se) (sePlcState se) (seBroadcasts se)
                                            true se) r))
           else enqueue c (ODisconnectResult requestID) false r
       | None => enqueue c (ODisconnectResult requestID) false r
       end.

(** The worker is done: [ConfirmDisconnected]. *)
Definition disconnectConfirm (c s : nat) (requestID : string) (w : option nat) r : Runtime W :=
  match w with
  | None => goto c (CDisconnectEnd s requestID None) r
  | Some w =>
      match rtWorkers r !! w with
      | None => goto c (CDisconnectEnd s requestID (Some w)) r
      | Some cell =>
          let '(stale, st) := wConfirm (wcState cell) in
          let r := onWorker w (setState st) r in
          goto c (match stale with
                  | None => CDisconnectEnd s requestID (Some w)
                  | Some values => CDisconnectPublish s requestID w (range values)
                  end) r
      end
  end.

Definition disconnectPublish (c s : nat) (requestID : string) (w : nat) (items : list (string * PointValue)) r
    : Runtime W :=
  let own := match rtWorkers r !! w with Some cell => wcSession cell | None => s end in
  goto c (match updateFromWorker own w items r with
          | Some p => CDisconnectApply s requestID w p
          | None => CDisconnectNotify s requestID w
          end) r.

Definition disconnectApply (c s : nat) (requestID : string) (w : nat) (stored : nat) (p : publishing) r : Runtime W :=
  let '(next, r) := publishStep stored p r in
  goto c (match next with
          | inl p => CDisconnectApply s requestID w p
          | inr true => CDisconnectNotify s requestID w
          | inr false => CDisconnectEnd s requestID (Some w)
          end) r.

Definition disconnectNotify (c s : nat) (requestID : string) (w : nat) r : Runtime W :=
  let own := match rtWorkers r !! w with Some cell => wcSession cell | None => s end in
  goto c (CDisconnectEnd s requestID (Some w)) (notifyPLC own w "disconnected" r).

Definition disconnectEnd (c s : nat) (requestID : string) (w : option nat) r : Runtime W :=
  let r := if bool_decide (rtSession r = Some s) && bool_decide (currentWorker r = w)
           then onSession s detachWorkerLocked r else r in
  goto c (CReading true) (enqueue c (ODisconnectResult requestID) false r).

(** ** [handlePLCScan] *)

(** [n] is the context of the new scan. *)
Definition handlePLCScan (c n : nat) (e : envelope) (addressRange : string) (port unitID : option Z) r : Runtime W :=
  let requestID := enRequestID e in
  let port := default defaultPLCScanPort port in
  let unitID := default defaultPLCUnitID unitID in
  if negb (validateRequestEnvelope e) || (addressRange =s "") then
    enqueue c (OError requestID "INVALID_REQUEST") false r
  else if (port <? 1) || (65535 <? port) || (unitID <? 1) || (247 <? unitID) then
    enqueue c (OError requestID "INVALID_REQUEST") false r
  else match rtScanCancel r with
       | Some _ => enqueue c (OError requestID "BUSY") false r
       | None =>
           let selected := match rtSession r with
                           | Some s => match rtSessions r !! s with Some se => seDeviceID se | None => ""%string end
                           | None => ""%string
                           end in
           withScans (Some n)
             (<[n := mkScanCell c requestID addressRange port unitID selected false]> (rtScans r)) r
       end.

(** The end of a scan's goroutine: its answer, and the deferred [endScan],
    which clears whatever scan is registered. *)
Definition scanDone (n : nat) (outcome : scan_outcome) r : Runtime W :=
  match rtScans r !! n with
  | None => r
  | Some sc =>
      let r := match outcome with
               | ScanCanceled => r
               | ScanFailed => enqueue (scClient sc) (OError (scRequestID sc) "INVALID_REQUEST") false r
               | ScanDevices devices => enqueue (scClient sc) (OScanResult (scRequestID sc) devices) false r
               end in
      withScans None (delete n (rtScans r)) r
  end.

(** ** [handlePLCConnect] and [handlePointCommand] *)

Definition handlePLCConnect (c : nat) (e : envelope) (deviceID : string) r : Runtime W :=
  let requestID := enRequestID e in
  if negb (validateRequestEnvelope e) || (deviceID =s "") then
    enqueue c (OError requestID "INVALID_REQUEST") false r
  else match parsePLCDeviceID urlParse isIP deviceID with
       | None => enqueue c (OError requestID "PLC_NOT_FOUND") false r
       | Some ep => goto c (CConnect requestID ep true) r
       end.

(** The value of a request: absent, undecodable, or a value. *)
Definition checkCommand (definitions : gmap string PointDefinition) (e : envelope) (pointID action : string)
    (value : option (option goval)) : result string goval :=
  if negb (validateRequestEnvelope e) || (pointID =s "") || (action =s "") then Err "INVALID_REQUEST"%string
  else match definitions !! pointID with
       | None => Err "POINT_NOT_FOUND"%string
       | Some d =>
           if negb (allowsAction d action) then Err "POINT_NOT_WRITABLE"%string
           else if action =s "set" then
             match value with
             | Some (Some v) => if is_ok (ValidateValue (pType d) v) then Ok v else Err "INVALID_REQUEST"%string
             | _ => Err "INVALID_REQUEST"%string
             end
           else match value with Some _ => Err "INVALID_REQUEST"%string | None => Ok VNil end
       end.

(** The attached worker of [c]'s session that accepts commands. *)
Definition commandWorker (c : nat) r : option (nat * W) :=
  match rtSession r with
  | Some s =>
      match rtSessions r !! s with
      | Some se =>
          match seWorker se with
          | Some w =>
              match rtWorkers r !! w with
              | Some cell =>
                  if isOwner c r && (sePlcState se =s "connected") && negb (wDisconnected (wcState cell))
                  then Some (w, wcState cell) else None
              | None => None
              end
          | None => None
          end
      | None => None
      end
  | None => None
  end.

(** [ticket] stands for the reply channel. *)
Definition handlePointCommand (c ticket : nat) (e : envelope) (pointID action : string)
    (value : option (option goval)) r : Runtime W :=
  let requestID := enRequestID e in
  let refuse code := enqueue c (OPointError requestID pointID code) false r in
  match checkCommand (sDefinitions (rtStore r)) e pointID action value with
  | Err code => refuse code
  | Ok v =>
      match commandWorker c r with
      | None => refuse "PLC_NOT_CONNECTED"%string
      | Some (w, st) =>
          let '(refused, st) := wTrySubmit ticket (mkCommand pointID action v) st in
          let r := onWorker w (setState st) r in
          match refused with
          | Some rejected => enqueue c (OPointError requestID pointID (rCode rejected)) false r
          | None => withReplies (rtReplies r ++ [(c, requestID, w, ticket)]) r
          end
      end
  end.

(** The worker's reply to an admitted command. *)
Definition replyMessage (requestID : string) (result : Result) : outbound :=
  if rSuccess result then OPointSuccess requestID (rPointID result) (rActualValue result)
  else OPointError requestID (rPointID result) (rCode result).

(** ** [serveWS]: one message; [fresh] names what the handler creates *)

Definition serveWS (c fresh : nat) (configured : bool) (mqtt : option bool) (m : inbound) r : Runtime W :=
  let last := goto c CClosing (enqueue c (OError "" "INVALID_REQUEST") true r) in
  match m with
  | InMalformed => last
  | InConfigure e interval points =>
      if configured then enqueue c (OError "" "INVALID_REQUEST") false r
      else configure c e interval points mqtt r
  | _ =>
      if negb configured then last
      else match m with
           | InSnapshotGet e =>
               if validateRequestEnvelope e then enqueue c (OSnapshot (Snapshot (rtStore r))) false r
               else enqueue c (OError "" "INVALID_REQUEST") false r
           | InScan e addressRange port unitID => handlePLCScan c fresh e addressRange port unitID r
           | InConnect e deviceID => handlePLCConnect c e deviceID r
           | InDisconnect e => handlePLCDisconnect c e r
           | InCommand e pointID action value => handlePointCommand c fresh e pointID action value r
           | _ => enqueue c (OError "" "UNKNOWN_MESSAGE") false r
           end
  end.

(** The rest of a client's goroutine, as far as it can go without a message;
    [None] when it waits. *)
Definition clientStep (c fresh stored : nat) r : option (Runtime W) :=
  match rtClients r !! c with
  | None => None
  | Some cl =>
      match clPc cl with
      | CReading _ | CGone => None
      | CConfiguring config saved mqtt => Some (configureLocked c fresh config saved mqtt r)
      | CConnect requestID ep persist => Some (connectPLC c requestID ep persist r)
      | CConnectWait s requestID ep persist old =>
          if workerDone old r then Some (connectCreate c s fresh requestID ep persist r) else None
      | CConnectAttach s requestID ep persist w => Some (connectAttach c s w requestID ep persist r)
      | CDisconnectWait s requestID w =>
          if workerDone w r then Some (disconnectConfirm c s requestID w r) else None
      | CDisconnectPublish s requestID w items => Some (disconnectPublish c s requestID w items r)
      | CDisconnectApply s requestID w p => Some (disconnectApply c s requestID w stored p r)
      | CDisconnectNotify s requestID w => Some (disconnectNotify c s requestID w r)
      | CDisconnectEnd s requestID w => Some (disconnectEnd c s requestID w r)
      | CClosing => if clDone cl then Some (goto c CLeaving r) else None
      | CLeaving =>
          let r := onClient c closeClient r in
          Some (goto c (if isOwner c r then CStopBegin else CGone) r)
      | CStopBegin => let '(s, r) := stopBegin r in Some (goto c (CStopping s) r)
      | CStopping s =>
          match stopStep s r with
          | None => None
          | Some (Some s, r) => Some (goto c (CStopping s) r)
          | Some (None, r) => Some (goto c CGone r)
          end
      end
  end.
End hmi.
