(* ===== verification/HmiSteps.v ===== *)
(** * The interleavings of the HMI runtime's goroutines, and their invariant

    [step] takes one critical section of any goroutine of [Hmi]: a client, its
    writer, a worker with its callbacks, a connection being finished, a scan,
    a reply, or the server's shutdown.  [inv] holds in every state they reach. *)

From S2P Require Import Prelude GoValue RuntimeConfig PointStore Storage Worker PlcScan Hmi.

(** ** Steps *)

Section steps.
Context {W : Type} `{PlcWorker W}.
Variables (validTime : string → bool) (urlParse : string → option url) (isIP : string → bool)
  (range : gmap string PointValue → list (string * PointValue)) (history : bool).
Implicit Types r : Runtime W.

(** A name for a new session, worker, scan or reply channel. *)
Definition unused (n : nat) r : Prop :=
  rtSessions r !! n = None ∧ rtWorkers r !! n = None ∧ rtScans r !! n = None ∧
  ∀ c requestID w, (c, requestID, w, n) ∉ rtReplies r.

(** The worker's goroutine is between two of its own actions. *)
Definition running (w : nat) (cell : workerCell W) r : Prop :=
  rtWorkers r !! w = Some cell ∧ wcStarted cell = true ∧ wcDone cell = false ∧ wcPublishing cell = None.

(** What the goroutine of a scan can end with: [context.Canceled], a refused
    range, or what the pool found. *)
Definition scan_result (sc : scanCell) (outcome : scan_outcome) : Prop :=
  match outcome with
  | ScanCanceled => scCancelled sc = true
  | ScanFailed => ∃ e, scanAddresses (scRange sc) = Err e
  | ScanDevices devices =>
      ∃ probe finished, scanRange probe (scRange sc) finished devices ∧
        ∀ a d, probe a = Some d →
          d = deviceAt (mkEndpoint (addressText a) (scPort sc) (scUnitID sc)) (scSelected sc)
  end.

Inductive step : Runtime W → Runtime W → Prop :=
| step_accept r c :
    rtClients r !! c = None →
    step r (withClients (<[c := mkClient [] false [] (CReading false)]> (rtClients r)) r)
| step_message r c cl configured fresh mqtt m :
    rtClients r !! c = Some cl → clPc cl = CReading configured → unused fresh r →
    step r (serveWS validTime urlParse isIP c fresh configured mqtt m r)
| step_receive_error r c cl configured :
    rtClients r !! c = Some cl → clPc cl = CReading configured → step r (goto c CLeaving r)
| step_client r r' c fresh stored :
    unused fresh r → clientStep range history c fresh stored r = Some r' → step r r'
| step_write r c cl sent :
    rtClients r !! c = Some cl → clDone cl = false → step r (onClient c (writeMessage sent) r)
| step_shutdown r :
    rtServe r = None → step r (withServe (Some (stopBegin r).1) (stopBegin r).2)
| step_stop r r' s next :
    rtServe r = Some s → stopStep s r = Some (next, r') → step r (withServe next r')
| step_worker r w cell st :
    running w cell r → wStep (wcState cell) st → step r (onWorker w (setState st) r)
| step_ready r w cell ok :
    running w cell r → wcReady cell = None → step r (onWorker w (setReady ok) r)
| step_publish r w cell items p :
    running w cell r → updateFromWorker (wcSession cell) w items r = Some p →
    step r (onWorker w (setPublishing (Some p)) r)
| step_publishing r r' w cell stored p next :
    rtWorkers r !! w = Some cell → wcPublishing cell = Some p → publishStep range history stored p r = (next, r') →
    step r (onWorker w (setPublishing (match next with inl p => Some p | inr _ => None end)) r')
| step_notify r w cell state :
    running w cell r → state = "connected" ∨ state = "disconnected" →
    step r (notifyPLC (wcSession cell) w state r)
| step_done r w cell :
    running w cell r → wcCancelled cell = true → step r (onWorker w setDone r)
| step_finish r before f after cell ok :
    rtFinishes r = before ++ f :: after → rtWorkers r !! fiWorker f = Some cell → wcReady cell = Some ok →
    step r (finishPLCConnect f ok (wDisconnected (wcState cell)) (withFinishes (before ++ after) r))
| step_scan r n sc outcome :
    rtScans r !! n = Some sc → scan_result sc outcome →
    step r (scanDone n outcome r)
| step_reply r before c requestID w ticket result after :
    rtReplies r = before ++ (c, requestID, w, ticket) :: after →
    step r (enqueue c (replyMessage requestID result) false (withReplies (before ++ after) r)).

(** A runtime that no HMI has reached yet. *)
Definition NewLocalRuntime (disk : option Storage.Store) : Runtime W :=
  mkRuntime New disk None None ∅ ∅ ∅ None ∅ [] [] None 0 [].

Inductive reachable (disk : option Storage.Store) : Runtime W → Prop :=
| reach_start : reachable disk (NewLocalRuntime disk)
| reach_step r r' : reachable disk r → step r r' → reachable disk r'.
End steps.

(** ** The invariant *)

Section invariant.
Context {W : Type} `{PlcWorker W}.
Implicit Types r : Runtime W.

Definition idle (se : runtimeSession) : Prop :=
  seDeviceID se = "" ∧ sePlcState se = "disconnected" ∧ seBroadcasts se = false.

(** What the owner's goroutine can be doing. *)
Definition owning (pc : client_pc) : Prop :=
  match pc with
  | CReading configured => configured = true
  | CConfiguring _ _ _ | CStopping _ | CGone => False
  | _ => True
  end.

Definition connecting (s : nat) (pc : client_pc) : Prop :=
  match pc with
  | CConnectWait s' _ _ _ _ | CConnectAttach s' _ _ _ _ => s' = s
  | _ => False
  end.

Definition building (s w : nat) (pc : client_pc) : Prop :=
  match pc with CConnectAttach s' _ _ _ w' => s' = s ∧ w' = w | _ => False end.

(** The worker a client's goroutine has cancelled, and waits for or
    disconnects. *)
Definition awaits (w : nat) (pc : client_pc) : Prop :=
  match pc with
  | CConnectWait _ _ _ _ w' | CDisconnectWait _ _ w' | CDisconnectEnd _ _ w' | CStopping (StopWait _ w') => w' = Some w
  | CDisconnectPublish _ _ w' _ | CDisconnectApply _ _ w' _ | CDisconnectNotify _ _ w' => w' = w
  | _ => False
  end.

Definition stops (w : nat) (s : stopping) : Prop :=
  match s with StopCancel _ w' => w' = Some w | _ => False end.

(** A worker that was detached by [StopSession] and is about to be cancelled. *)
Definition stop_pending (w : nat) r : Prop :=
  (∃ c cl s, rtClients r !! c = Some cl ∧ clPc cl = CStopping s ∧ stops w s) ∨
  (∃ s, rtServe r = Some s ∧ stops w s).

Definition cancelled (w : nat) r : Prop := ∀ cell, rtWorkers r !! w = Some cell → wcCancelled cell = true.

Definition begun (w : nat) r : Prop := ∃ cell, rtWorkers r !! w = Some cell ∧ wcStarted cell = true.

(** A worker that was started and cancelled. *)
Definition retired (w : nat) r : Prop :=
  ∃ cell, rtWorkers r !! w = Some cell ∧ wcStarted cell = true ∧ wcCancelled cell = true.

(** The channel holds at most its capacity, and the last message of a client
    that waits to be closed is not lost. *)
Definition client_ok (cl : wsClient) : Prop :=
  (length (clQueue cl) ≤ wsQueueSize)%nat ∧
  (clPc cl = CClosing → clDone cl = true ∨ ∃ o, (o, true) ∈ clQueue cl).

(** [loose] is a worker that [StopSession] has just detached, between the two
    halves of its critical section. *)
Record inv_but (loose : option nat) r : Prop := {
  iv_owner : rtOwner r = None ↔ rtSession r = None;
  iv_session : ∀ s, rtSession r = Some s → is_Some (rtSessions r !! s);
  iv_idle : ∀ s se, rtSessions r !! s = Some se → seWorker se = None → idle se;
  iv_attached : ∀ s se w, rtSessions r !! s = Some se → seWorker se = Some w →
    rtSession r = Some s ∧
    ∃ cell, rtWorkers r !! w = Some cell ∧ wcSession cell = s ∧ wcStarted cell = true;
  iv_pc : ∀ c, rtOwner r = Some c → ∃ cl, rtClients r !! c = Some cl ∧ owning (clPc cl);
  iv_connecting : ∀ c cl s se, rtClients r !! c = Some cl → connecting s (clPc cl) →
    rtOwner r = Some c → rtSession r = Some s → rtSessions r !! s = Some se → seWorker se = None;
  iv_building : ∀ c cl s w, rtClients r !! c = Some cl → building s w (clPc cl) →
    ∃ cell, rtWorkers r !! w = Some cell ∧ wcSession cell = s ∧ wcStarted cell = false;
  iv_distinct : ∀ c c' cl cl' s s' w, rtClients r !! c = Some cl → rtClients r !! c' = Some cl' →
    building s w (clPc cl) → building s' w (clPc cl') → c = c';
  iv_awaits : ∀ c cl w, rtClients r !! c = Some cl → awaits w (clPc cl) → retired w r;
  iv_live : ∀ w cell, rtWorkers r !! w = Some cell → wcStarted cell = true → wcCancelled cell = false →
    currentWorker r = Some w ∨ stop_pending w r ∨ loose = Some w;
  iv_pending : ∀ w, stop_pending w r → begun w r;
  iv_client : ∀ c cl, rtClients r !! c = Some cl → client_ok cl
}.

Definition inv r : Prop := inv_but None r.
End invariant.
