(* ===== verification/HmiProofs.v ===== *)
(** * The invariant of the HMI runtime holds in every interleaving *)

From S2P Require Import Prelude GoValue RuntimeConfig PointStore Storage Worker PlcScan Hmi HmiSteps.

Section frames.
Context {W : Type} `{PlcWorker W}.
Implicit Types r : Runtime W.

(** ** What most steps leave alone *)

Record same_core r r' : Prop := {
  sc_owner : rtOwner r' = rtOwner r;
  sc_session : rtSession r' = rtSession r;
  sc_sessions : rtSessions r' = rtSessions r;
  sc_workers : rtWorkers r' = rtWorkers r;
  sc_serve : rtServe r' = rtServe r;
  sc_pcs : ∀ c, clPc <$> rtClients r' !! c = clPc <$> rtClients r !! c
}.

Definition queues_ok r : Prop :=
  ∀ c cl, rtClients r !! c = Some cl → client_ok cl.

Lemma same_client r r' c cl :
  same_core r r' → rtClients r !! c = Some cl → ∃ cl', rtClients r' !! c = Some cl' ∧ clPc cl' = clPc cl.
Proof.
  intros Hs Hc. pose proof (sc_pcs _ _ Hs c) as Hp. rewrite Hc in Hp. simpl in Hp.
  destruct (rtClients r' !! c) as [cl'|]; [|done]. exists cl'. split; [done|]. by simplify_eq/=.
Qed.

Lemma same_sym r r' : same_core r r' → same_core r' r.
Proof. intros []. split; auto. Qed.

Lemma same_trans r1 r2 r3 : same_core r1 r2 → same_core r2 r3 → same_core r1 r3.
Proof. intros [] []. split; first [congruence|intros c; by rewrite (sc_pcs1 c), (sc_pcs0 c)]. Qed.

Lemma stop_pending_same w r r' : same_core r r' → stop_pending w r → stop_pending w r'.
Proof.
  intros Hs [(c & cl & s & Hc & Hp & Hst)|(s & Hv & Hst)].
  - destruct (same_client _ _ _ _ Hs Hc) as (cl' & Hc' & Hp'). left. exists c, cl', s.
    split; [done|]. by rewrite Hp'.
  - right. exists s. by rewrite (sc_serve _ _ Hs).
Qed.

Lemma inv_same l r r' : same_core r r' → queues_ok r' → inv_but l r → inv_but l r'.
Proof.
  intros Hs Hq [Ho Hse Hi Ha Hp Hc Hb Hd Hdc Hl Hpn _].
  pose proof (same_client r' r) as Hback. specialize (fun c cl => Hback c cl (same_sym _ _ Hs)).
  pose proof Hs as [Eo Es Ess Ew Ev _].
  split; rewrite ?Eo, ?Es, ?Ess, ?Ew; try done.
  - intros c Hoc. destruct (Hp c Hoc) as (cl & Hcl & Hown). destruct (same_client _ _ _ _ Hs Hcl) as (cl' & ? & E).
    exists cl'. by rewrite E.
  - intros c cl s se Hcl Hcon Hoc Hss Hse'. destruct (Hback c cl Hcl) as (cl' & Hcl' & E). rewrite <-E in Hcon.
    by eapply Hc.
  - intros c cl s w Hcl Hbu. destruct (Hback c cl Hcl) as (cl' & Hcl' & E). rewrite <-E in Hbu. by eapply Hb.
  - intros c c' cl cl' s s' w Hcl Hcl' H1 H2. destruct (Hback c cl Hcl) as (x & Hx & E).
    destruct (Hback c' cl' Hcl') as (y & Hy & E'). rewrite <-E in H1. rewrite <-E' in H2. by eapply Hd.
  - intros c cl w Hcl Hdis. destruct (Hback c cl Hcl) as (x & Hx & E). rewrite <-E in Hdis.
    unfold retired. rewrite Ew. exact (Hdc c x w Hx Hdis).
  - intros w cell Hw Hst Hcan. destruct (Hl w cell Hw Hst Hcan) as [Hcur|[Hpe|Hx]]; [left|right; left|by right; right].
    + unfold currentWorker in *. by rewrite Es, Ess.
    + by eapply stop_pending_same.
  - intros w Hpe. unfold begun. rewrite Ew. apply Hpn. by apply (stop_pending_same w r' r (same_sym _ _ Hs)).
Qed.

(** Changes of one client that keep its place in the code. *)
Lemma same_onClient c f r :
  (∀ cl, clPc (f cl) = clPc cl) → same_core r (onClient c f r).
Proof.
  intros Hf. split; try done. intros c'. simpl. destruct (decide (c = c')) as [<-|Hne].
  - rewrite lookup_alter_eq. destruct (rtClients r !! c) as [cl|]; [|done]. simpl. by rewrite Hf.
  - by rewrite lookup_alter_ne.
Qed.

Lemma queues_onClient c f r :
  (∀ cl, client_ok cl → client_ok (f cl)) →
  queues_ok r → queues_ok (onClient c f r).
Proof.
  intros Hf Hq c' cl. simpl. rewrite lookup_alter_Some. intros [(<- & cl0 & Hcl & ->)|[_ Hcl]]; [|by eapply Hq].
  by apply Hf, (Hq c).
Qed.

Lemma enqueueMessage_pc o b cl : clPc (enqueueMessage o b cl) = clPc cl.
Proof. unfold enqueueMessage. by repeat case_match. Qed.

Lemma enqueueMessage_ok o b cl : client_ok cl → client_ok (enqueueMessage o b cl).
Proof.
  intros [Hlen Hc]. unfold enqueueMessage. destruct (clDone cl) eqn:Hd; [split; [done|by left]|].
  case_match eqn:Hl; [|split; simpl; auto]. apply Nat.ltb_lt in Hl. split; simpl.
  - rewrite length_app. simpl. lia.
  - intros [?|[o' Ho']]%Hc; [by left|right]. exists o'. apply elem_of_app. by left.
Qed.

Lemma writeMessage_pc sent cl : clPc (writeMessage sent cl) = clPc cl.
Proof. unfold writeMessage. by repeat case_match. Qed.

Lemma writeMessage_ok sent cl : client_ok cl → client_ok (writeMessage sent cl).
Proof.
  unfold writeMessage, client_ok. destruct (clQueue cl) as [|[o b] rest] eqn:E; [by rewrite E|].
  intros [Hlen Hc]. simpl in Hlen. destruct sent; simpl; (split; [lia|]); [|auto].
  intros [Hd|[o' [[= -> <-]|Ho']%elem_of_cons]]%Hc; [rewrite Hd; auto|rewrite orb_true_r; auto|right; eauto].
Qed.

Lemma closeClient_ok cl : client_ok cl → client_ok (closeClient cl).
Proof. intros [? ?]. split; simpl; auto. Qed.

Lemma inv_onClient l c f r :
  (∀ cl, clPc (f cl) = clPc cl) →
  (∀ cl, client_ok cl → client_ok (f cl)) →
  inv_but l r → inv_but l (onClient c f r).
Proof.
  intros Hp Hq Hi. eapply inv_same; [by apply same_onClient|apply queues_onClient; [done|exact (iv_client _ _ Hi)]|done].
Qed.

Lemma inv_enqueue l c o b r : inv_but l r → inv_but l (enqueue c o b r).
Proof. apply inv_onClient; [apply enqueueMessage_pc|apply enqueueMessage_ok]. Qed.

Lemma inv_close l c r : inv_but l r → inv_but l (onClient c closeClient r).
Proof. apply inv_onClient; [done|apply closeClient_ok]. Qed.

Lemma inv_write l c sent r : inv_but l r → inv_but l (onClient c (writeMessage sent) r).
Proof. apply inv_onClient; [apply writeMessage_pc|apply writeMessage_ok]. Qed.

(** The parts of the runtime the invariant does not look at. *)
Lemma inv_other l f r :
  (∀ r, rtOwner (f r) = rtOwner r ∧ rtSession (f r) = rtSession r ∧ rtSessions (f r) = rtSessions r ∧
        rtWorkers (f r) = rtWorkers r ∧ rtServe (f r) = rtServe r ∧ rtClients (f r) = rtClients r) →
  inv_but l r → inv_but l (f r).
Proof.
  intros Hf Hi. destruct (Hf r) as (? & ? & ? & ? & ? & Hc). eapply inv_same; [|unfold queues_ok; rewrite Hc; exact (iv_client _ _ Hi)|done].
  split; try done. by rewrite Hc.
Qed.

(** ** A goroutine moves on *)

Definition pc_of (c : nat) r : option client_pc := clPc <$> rtClients r !! c.

Lemma pc_of_Some c pc r : pc_of c r = Some pc → ∃ cl, rtClients r !! c = Some cl ∧ clPc cl = pc.
Proof. unfold pc_of. destruct (rtClients r !! c) as [cl|]; [|done]. intros [= <-]. by exists cl. Qed.

Lemma pc_of_onClient c c' f r : (∀ cl, clPc (f cl) = clPc cl) → pc_of c (onClient c' f r) = pc_of c r.
Proof. intros Hf. unfold pc_of. apply (sc_pcs _ _ (same_onClient c' f r Hf)). Qed.

Lemma pc_of_enqueue c c' o b r : pc_of c (enqueue c' o b r) = pc_of c r.
Proof. apply pc_of_onClient, enqueueMessage_pc. Qed.

(** Nothing the invariant knows about the new place needs to be shown: the
    places between two locks that hold no worker. *)
Definition plain (pc : client_pc) : Prop :=
  (∀ s, ¬ connecting s pc) ∧ (∀ s w, ¬ building s w pc) ∧ (∀ w, ¬ awaits w pc) ∧
  (∀ s w, pc = CStopping s → ¬ stops w s) ∧ pc ≠ CClosing.

Lemma inv_goto l c pc0 pc r :
  inv_but l r → pc_of c r = Some pc0 →
  (rtOwner r = Some c → owning pc) →
  (∀ s se, connecting s pc → rtOwner r = Some c → rtSession r = Some s → rtSessions r !! s = Some se →
     seWorker se = None) →
  (∀ s w, building s w pc →
     (∃ cell, rtWorkers r !! w = Some cell ∧ wcSession cell = s ∧ wcStarted cell = false) ∧
     ∀ c' cl' s', rtClients r !! c' = Some cl' → building s' w (clPc cl') → c' = c) →
  (∀ w, awaits w pc → retired w r) →
  (∀ w s, pc0 = CStopping s → stops w s → cancelled w r ∨ ∃ s', pc = CStopping s' ∧ stops w s') →
  (∀ w, l = Some w → ∃ s', pc = CStopping s' ∧ stops w s') →
  (∀ w s', pc = CStopping s' → stops w s' → begun w r) →
  (pc = CClosing → ∀ cl, rtClients r !! c = Some cl → clDone cl = true ∨ ∃ o, (o, true) ∈ clQueue cl) →
  inv (goto c pc r).
Proof.
  intros [Ho Hse Hi Ha Hp Hc Hb Hd Hdc Hl Hpn Hq] [cl [Hcl <-]]%pc_of_Some Hown Hcon Hbui Hdis Hsto Hloose Hbeg Hclo.
  assert (∀ c' cl', rtClients (goto c pc r) !! c' = Some cl' →
            (c' = c ∧ clPc cl' = pc) ∨ (c' ≠ c ∧ rtClients r !! c' = Some cl')) as Hlook.
  { intros c' cl'. simpl. rewrite lookup_alter_Some. intros [(<- & x & Hx & ->)|[? ?]]; auto. }
  assert (rtClients (goto c pc r) !! c = Some (mkClient (clQueue cl) (clDone cl) (clSent cl) pc)) as Hnew
    by (simpl; by rewrite lookup_alter_eq, Hcl).
  split; try done.
  - intros c' Hc'. simpl in Hc'. destruct (decide (c' = c)) as [->|Hne].
    + eexists. split; [exact Hnew|]. by apply Hown.
    + destruct (Hp c' Hc') as (cl' & Hcl' & ?). exists cl'. split; [|done]. simpl. by rewrite lookup_alter_ne.
  - intros c' cl' s se Hx. destruct (Hlook _ _ Hx) as [[-> ->]|[_ Hx']]; [apply Hcon|by eapply Hc].
  - intros c' cl' s w Hx. destruct (Hlook _ _ Hx) as [[-> ->]|[_ Hx']]; [intros Hbu; by apply Hbui|by eapply Hb].
  - intros c1 c2 cl1 cl2 s1 s2 w H1 H2.
    destruct (Hlook _ _ H1) as [[-> ->]|[N1 H1']], (Hlook _ _ H2) as [[-> ->]|[N2 H2']]; [done|..].
    + intros B1 B2. symmetry. by eapply (proj2 (Hbui _ _ B1)).
    + intros B1 B2. by eapply (proj2 (Hbui _ _ B2)).
    + by eapply Hd.
  - intros c' cl' w Hx. destruct (Hlook _ _ Hx) as [[-> ->]|[_ Hx']]; [apply Hdis|by eapply Hdc].
  - intros w cell Hw Hst Hcan.
    assert (∀ s', pc = CStopping s' → stops w s' → stop_pending w (goto c pc r)) as Hmine.
    { intros s' Hs' Hst'. left. exists c, (mkClient (clQueue cl) (clDone cl) (clSent cl) pc), s'.
      split; [exact Hnew|by split]. }
    destruct (Hl w cell Hw Hst Hcan) as [?|[[(c' & cl' & s & Hc' & Hpc & Hs)|?]|Hx]]; [by left|right; left..].
    + destruct (decide (c' = c)) as [->|Hne].
      * rewrite Hcl in Hc'. injection Hc' as <-. destruct (Hsto w s Hpc Hs) as [Hcc|(s' & E & Hs')].
        -- rewrite (Hcc _ Hw) in Hcan. discriminate Hcan.
        -- by apply (Hmine s').
      * left. exists c', cl', s. split; [|done]. simpl. by rewrite lookup_alter_ne.
    + by right.
    + destruct (Hloose w Hx) as (s' & E & Hs'). by apply (Hmine s').
  - intros w [(c' & cl' & s' & Hx & Hpc & Hs')|?]; [|apply Hpn; by right].
    destruct (Hlook _ _ Hx) as [[-> E]|[_ Hx']]; [apply (Hbeg w s'); [congruence|done]|].
    apply Hpn. left. by exists c', cl', s'.
  - intros c' cl' Hx. simpl in Hx. apply lookup_alter_Some in Hx as [(<- & x & Hx & ->)|[_ Hx]].
    + split; [apply (Hq c x Hx)|]. intros E. exact (Hclo E x Hx).
    + exact (Hq c' cl' Hx).
Qed.

(** The usual move: from a place that is not in [StopSession] to a plain one. *)
Lemma inv_goto_plain c pc0 pc r :
  inv r → pc_of c r = Some pc0 → (rtOwner r = Some c → owning pc) →
  plain pc → (∀ s w, pc0 = CStopping s → ¬ stops w s) → inv (goto c pc r).
Proof.
  intros Hi Hpc Hown (Hc & Hb & Hd & Hst & Hcl) Hs. apply (inv_goto None c pc0 pc r); try done.
  - intros s se Hx. by destruct (Hc s).
  - intros s w Hx. by destruct (Hb s w).
  - intros w Hx. by destruct (Hd w).
  - intros w s E Hx. by destruct (Hs s w).
  - intros w s' E Hx. by destruct (Hst s' w E).
Qed.

(** ** Sessions and workers *)

Lemma inv_onSession l s f r :
  (∀ se, rtSessions r !! s = Some se → seWorker (f se) = seWorker se ∧ (seWorker se = None → idle se → idle (f se))) →
  inv_but l r → inv_but l (onSession s f r).
Proof.
  intros Hf [Ho Hse Hi Ha Hp Hc Hb Hd Hdc Hl Hpn Hq].
  assert (∀ s' se, rtSessions (onSession s f r) !! s' = Some se →
            ∃ se0, rtSessions r !! s' = Some se0 ∧ seWorker se = seWorker se0 ∧
                   (seWorker se0 = None → idle se0 → idle se)) as Hlook.
  { intros s' se. simpl. rewrite lookup_alter_Some. intros [(<- & x & Hx & ->)|[_ Hx]].
    - exists x. by destruct (Hf x Hx).
    - by exists se. }
  split; try done.
  - intros s' Hs'. simpl. rewrite lookup_alter_is_Some. by apply Hse.
  - intros s' se Hx Hn. destruct (Hlook _ _ Hx) as (se0 & H0 & E & Hid). rewrite E in Hn. by apply Hid, (Hi s').
  - intros s' se w Hx Hn. destruct (Hlook _ _ Hx) as (se0 & H0 & E & _). rewrite E in Hn. by eapply Ha.
  - intros c cl s' se Hcl Hcon Hoc Hs' Hx. destruct (Hlook _ _ Hx) as (se0 & H0 & E & _). rewrite E. by eapply Hc.
  - intros w cell Hw Hst Hcan. destruct (Hl w cell Hw Hst Hcan) as [Hcur|?]; [left|by right].
    unfold currentWorker in *. simpl. destruct (rtSession r) as [s'|]; [|done].
    destruct (decide (s' = s)) as [->|Hne].
    + rewrite lookup_alter_eq. destruct (rtSessions r !! s) as [se|] eqn:E; [|done]. simpl.
      by rewrite (proj1 (Hf se eq_refl)).
    + by rewrite lookup_alter_ne.
Qed.

Lemma inv_onWorker l w f r :
  (∀ cell, wcSession (f cell) = wcSession cell ∧ wcStarted (f cell) = wcStarted cell ∧
           (wcCancelled cell = true → wcCancelled (f cell) = true)) →
  inv_but l r → inv_but l (onWorker w f r).
Proof.
  intros Hf [Ho Hse Hi Ha Hp Hc Hb Hd Hdc Hl Hpn Hq].
  assert (∀ w' cell, rtWorkers r !! w' = Some cell → ∃ cell', rtWorkers (onWorker w f r) !! w' = Some cell' ∧
            wcSession cell' = wcSession cell ∧ wcStarted cell' = wcStarted cell ∧
            (wcCancelled cell = true → wcCancelled cell' = true)) as Hfwd.
  { intros w' cell Hw'. simpl. destruct (decide (w' = w)) as [->|Hne].
    - rewrite lookup_alter_eq, Hw'. simpl. eexists. split; [done|]. by destruct (Hf cell) as (? & ? & ?).
    - rewrite lookup_alter_ne by done. by exists cell. }
  split; try done.
  - intros s se w' Hse' Hw'. destruct (Ha _ _ _ Hse' Hw') as (? & cell & Hcell & <- & Hst). split; [done|].
    destruct (Hfwd _ _ Hcell) as (cell' & ? & E1 & E2 & _). exists cell'. by rewrite E1, E2.
  - intros c cl s w' Hcl Hbu. destruct (Hb _ _ _ _ Hcl Hbu) as (cell & Hcell & <- & Hst).
    destruct (Hfwd _ _ Hcell) as (cell' & ? & E1 & E2 & _). exists cell'. by rewrite E1, E2.
  - intros c cl w' Hcl Hdis. destruct (Hdc c cl w' Hcl Hdis) as (cell & Hcell & Hst & Hcan).
    destruct (Hfwd _ _ Hcell) as (cell' & ? & _ & E2 & E3). exists cell'. rewrite E2. auto.
  - intros w' cell. simpl. rewrite lookup_alter_Some. intros [(<- & x & Hx & ->)|[_ Hx]]; [|by apply Hl].
    destruct (Hf x) as (_ & -> & Hcan). intros Hst Hc'. apply (Hl w x Hx Hst).
    destruct (wcCancelled x); [|done]. by rewrite Hcan in Hc'.
  - intros w' Hpe. destruct (Hpn w' Hpe) as (cell & Hcell & Hst). destruct (Hfwd _ _ Hcell) as (cell' & ? & _ & E & _).
    exists cell'. by rewrite E.
Qed.

Lemma inv_cancelWorker l w r : inv_but l r → inv_but l (cancelWorker w r).
Proof. destruct w as [w|]; [|done]. by apply inv_onWorker. Qed.

Lemma cancelWorker_cancelled w r : cancelled w (cancelWorker (Some w) r).
Proof. intros cell. simpl. rewrite lookup_alter_Some. by intros [(_ & x & _ & ->)|[? _]]. Qed.

Lemma cancelWorker_retired w cell r :
  rtWorkers r !! w = Some cell → wcStarted cell = true → retired w (cancelWorker (Some w) r).
Proof. intros Hw Hst. unfold retired. simpl. rewrite lookup_alter_eq, Hw. eexists. by split_and!. Qed.

Lemma pc_of_cancelWorker c w r : pc_of c (cancelWorker w r) = pc_of c r.
Proof. by destruct w. Qed.
End frames.
