(* ===== verification/HmiInv.v ===== *)
(** * Every transition of the HMI runtime keeps the invariant *)

From S2P Require Import Prelude GoValue RuntimeConfig PointStore Storage Worker PlcScan Hmi HmiSteps HmiProofs.

Section transitions.
Context {W : Type} `{PlcWorker W}.
Implicit Types r : Runtime W.

(** ** Sessions begin and end *)

Lemma attached_current r s se w :
  inv r → rtSessions r !! s = Some se → seWorker se = Some w → currentWorker r = Some w.
Proof. intros Hi Hs Hw. destruct (iv_attached _ _ Hi _ _ _ Hs Hw) as [E _]. unfold currentWorker. by rewrite E, Hs. Qed.

Lemma current_attached r w :
  inv r → currentWorker r = Some w →
  ∃ s se cell, rtSession r = Some s ∧ rtSessions r !! s = Some se ∧ seWorker se = Some w ∧
    rtWorkers r !! w = Some cell ∧ wcSession cell = s ∧ wcStarted cell = true.
Proof.
  unfold currentWorker. intros Hi Hc. destruct (rtSession r) as [s|] eqn:Es; [|done].
  destruct (rtSessions r !! s) as [se|] eqn:Ese; [|done].
  destruct (iv_attached _ _ Hi _ _ _ Ese Hc) as (_ & cell & ?). exists s, se, cell. naive_solver.
Qed.

Lemma inv_install c s se r :
  inv r → rtOwner r = None → rtSessions r !! s = None →
  (∀ pc, pc_of c r = Some pc → owning pc ∧ ∀ s', ¬ connecting s' pc) → pc_of c r ≠ None →
  seWorker se = None → idle se →
  inv (withOwner (Some c) (Some s) (withSessions (<[s := se]> (rtSessions r)) r)).
Proof.
  intros [Ho Hse Hi Ha Hp Hc Hb Hd Hdc Hl Hpn Hq] Hno Hs Hpc Hex Hw Hidle. pose proof (proj1 Ho Hno) as Hns.
  assert (∀ s' se' w, rtSessions r !! s' = Some se' → seWorker se' = Some w → False) as Hnone.
  { intros s' se' w Hs' Hw'. destruct (Ha _ _ _ Hs' Hw') as [E _]. congruence. }
  destruct (pc_of c r) as [pc|] eqn:Epc; [|done]. apply pc_of_Some in Epc as (cl & Hcl & <-).
  destruct (Hpc _ eq_refl) as [Hown Hncon].
  split; simpl; try done.
  - intros s' [= <-]. rewrite lookup_insert_eq. by eexists.
  - intros s' se'. rewrite lookup_insert_Some. intros [[<- <-]|[_ Hs']]; [done|by apply (Hi s')].
  - intros s' se' w. rewrite lookup_insert_Some. intros [[<- <-]|[_ Hs']]; [congruence|].
    intros Hw'. by destruct (Hnone s' se' w).
  - intros c' [= <-]. by exists cl.
  - intros c' cl' s' se' Hcl' Hcon [= <-]. rewrite Hcl in Hcl'. injection Hcl' as <-. by destruct (Hncon s').
  - intros w cell Hcell Hst Hcan. right. destruct (Hl w cell Hcell Hst Hcan) as [Hcur|[?|?]]; [|by left|by right].
    unfold currentWorker in Hcur. by rewrite Hns in Hcur.
Qed.

Lemma lookup_session_onSession s f r s' se :
  rtSessions (onSession s f r) !! s' = Some se →
  (s' = s ∧ ∃ se0, rtSessions r !! s = Some se0 ∧ se = f se0) ∨ (s' ≠ s ∧ rtSessions r !! s' = Some se).
Proof. simpl. rewrite lookup_alter_Some. intros [(<- & x & ? & ->)|[? ?]]; eauto. Qed.

(** Ending the current session leaves its worker loose. *)
Lemma inv_endSession r : inv r → inv_but (currentWorker r) (withOwner None None (onCurrent endSession r)).
Proof.
  intros Hinv. pose proof Hinv as [Ho Hse Hi Ha Hp Hc Hb Hd Hdc Hl Hpn Hq].
  assert (∀ s se, rtSessions (onCurrent endSession r) !! s = Some se →
            seWorker se = None ∧ idle se) as Hlook.
  { intros s se. unfold onCurrent. destruct (rtSession r) as [s0|] eqn:Es.
    - intros [[-> (se0 & _ & ->)]|[Hne Hs]]%lookup_session_onSession; [done|].
      destruct (seWorker se) as [w|] eqn:Ew; [|split; [done|by eapply Hi]].
      destruct (Ha _ _ _ Hs Ew) as [E _]. congruence.
    - intros Hs. destruct (seWorker se) as [w|] eqn:Ew; [|split; [done|by eapply Hi]].
      destruct (Ha _ _ _ Hs Ew) as [E _]. congruence. }
  assert (rtClients (onCurrent endSession r) = rtClients r ∧ rtWorkers (onCurrent endSession r) = rtWorkers r ∧
          rtServe (onCurrent endSession r) = rtServe r) as (Ec & Ew & Ev)
    by (unfold onCurrent; by destruct (rtSession r)).
  split; simpl; rewrite ?Ec, ?Ew; try done.
  - intros s se Hs _. by destruct (Hlook _ _ Hs).
  - intros s se w Hs Hw. apply Hlook in Hs as [E _]. congruence.
  - intros c cl w Hcl Hdis. unfold retired. simpl. rewrite Ew. by eapply Hdc.
  - intros w cell Hcell Hst Hcan. destruct (Hl w cell Hcell Hst Hcan) as [Hcur|[Hpe|?]]; [by right; right| |done].
    right. left. destruct Hpe as [(c & cl & s & Hcl & Hpc & Hs)|(s & Hs & Hst')]; [left|right].
    + exists c, cl, s. simpl. rewrite Ec. by split_and!.
    + exists s. simpl. by rewrite Ev.
  - intros w Hpe. unfold begun. simpl. rewrite Ew. apply Hpn. unfold stop_pending in *. simpl in Hpe.
    by rewrite Ec, Ev in Hpe.
Qed.

(** Detaching a cancelled worker from the current session. *)
Lemma inv_detach s r :
  inv r → rtSession r = Some s → (∀ w, currentWorker r = Some w → cancelled w r) →
  inv (onSession s detachWorkerLocked r).
Proof.
  intros [Ho Hse Hi Ha Hp Hc Hb Hd Hdc Hl Hpn Hq] Hs Hcanc.
  split; try done.
  - intros s' Hs'. simpl. rewrite lookup_alter_is_Some. by apply Hse.
  - intros s' se [[-> (se0 & _ & ->)]|[_ Hx]]%lookup_session_onSession; [done|by apply (Hi s')].
  - intros s' se w [[-> (se0 & _ & ->)]|[_ Hx]]%lookup_session_onSession; [done|by apply (Ha s')].
  - intros c cl s' se Hcl Hcon Ho' Hs' [[-> (se0 & _ & ->)]|[_ Hx]]%lookup_session_onSession; [done|by eapply Hc].
  - intros w cell Hcell Hst Hcan. destruct (Hl w cell Hcell Hst Hcan) as [Hcur|?]; [|by right].
    rewrite (Hcanc w Hcur cell Hcell) in Hcan. discriminate Hcan.
Qed.

Lemma detached_worker s r se : rtSessions (onSession s detachWorkerLocked r) !! s = Some se → seWorker se = None.
Proof. by intros [[_ (se0 & _ & ->)]|[? _]]%lookup_session_onSession. Qed.

(** ** Workers are built and attached *)

Lemma inv_newWorker w cell r :
  inv r → rtWorkers r !! w = None → wcStarted cell = false →
  inv (withWorkers (<[w := cell]> (rtWorkers r)) r).
Proof.
  intros [Ho Hse Hi Ha Hp Hc Hb Hd Hdc Hl Hpn Hq] Hw Hst.
  assert (∀ w' cell', rtWorkers r !! w' = Some cell' → <[w := cell]> (rtWorkers r) !! w' = Some cell') as Hkeep.
  { intros w' cell' Hw'. rewrite lookup_insert_ne; [done|congruence]. }
  split; simpl; try done.
  - intros s se w' Hs Hw'. destruct (Ha _ _ _ Hs Hw') as (? & cell' & Hcell & ?). split; [done|]. exists cell'. auto.
  - intros c cl s w' Hcl Hbu. destruct (Hb _ _ _ _ Hcl Hbu) as (cell' & Hcell & ?). exists cell'. auto.
  - intros c cl w' Hcl Hdis. destruct (Hdc _ _ _ Hcl Hdis) as (cell' & Hcell & ?). exists cell'. simpl. auto.
  - intros w' cell'. rewrite lookup_insert_Some. intros [[<- <-]|[_ Hw']]; [congruence|by apply Hl].
  - intros w' Hpe. destruct (Hpn w' Hpe) as (cell' & Hcell & Hst'). exists cell'. simpl. auto.
Qed.

Lemma building_pc c r s requestID ep persist w :
  inv r → pc_of c r = Some (CConnectAttach s requestID ep persist w) →
  (∃ cell, rtWorkers r !! w = Some cell ∧ wcSession cell = s ∧ wcStarted cell = false) ∧
  (∀ (c' : nat) cl' s', rtClients r !! c' = Some cl' → building s' w (clPc cl') → c' = c).
Proof.
  intros Hi [cl [Hcl E]]%pc_of_Some. assert (building s w (clPc cl)) as Hbu by by rewrite E.
  split; [by apply (iv_building _ _ Hi c cl)|]. intros c' cl' s' Hcl' Hbu'. by apply (iv_distinct _ _ Hi c' c cl' cl s' s w).
Qed.

(** [go worker.Run(ctx)] by the goroutine that built the worker, which no other
    one is building. *)
Lemma inv_startWorker w (b : bool) cell r :
  inv r → rtWorkers r !! w = Some cell → wcStarted cell = false →
  (∀ (c : nat) cl s, rtClients r !! c = Some cl → ¬ building s w (clPc cl)) →
  inv_but (if b then None else Some w) (onWorker w (startWorker b) r).
Proof.
  intros [Ho Hse Hi Ha Hp Hc Hb Hd Hdc Hl Hpn Hq] Hcell Hst Hnb.
  assert (∀ w' cell', rtWorkers (onWorker w (startWorker b) r) !! w' = Some cell' →
            (w' = w ∧ cell' = startWorker b cell) ∨ (w' ≠ w ∧ rtWorkers r !! w' = Some cell')) as Hlook.
  { intros w' cell'. simpl. rewrite lookup_alter_Some. intros [(<- & x & Hx & ->)|[? ?]]; [left|right]; naive_solver. }
  assert (∀ w', w' ≠ w → rtWorkers (onWorker w (startWorker b) r) !! w' = rtWorkers r !! w') as Hne.
  { intros w' Hn. simpl. by rewrite lookup_alter_ne. }
  split; try done.
  - intros s se w' Hs Hw'. destruct (Ha _ _ _ Hs Hw') as (? & cell' & Hcell' & E1 & E2). split; [done|]. exists cell'.
    rewrite Hne; [done|]. intros ->. rewrite Hcell in Hcell'. injection Hcell' as ->. congruence.
  - intros c cl s w' Hcl Hbu. destruct (Hb _ _ _ _ Hcl Hbu) as (cell' & Hcell' & ?). exists cell'.
    rewrite Hne; [done|]. intros ->. by destruct (Hnb c cl s).
  - intros c cl w' Hcl Hdis. destruct (Hdc _ _ _ Hcl Hdis) as (cell' & Hcell' & E1 & E2). exists cell'.
    rewrite Hne; [done|]. intros ->. rewrite Hcell in Hcell'. injection Hcell' as ->. congruence.
  - intros w' cell' Hw' Hst' Hcan'. destruct (Hlook _ _ Hw') as [[-> ->]|[_ Hx]].
    + simpl in Hcan'. subst b. by right; right.
    + destruct (Hl w' cell' Hx Hst' Hcan') as [?|[?|?]]; [by left|by right; left|done].
  - intros w' Hpe. destruct (Hpn w' Hpe) as (cell' & Hcell' & Hst'). exists cell'.
    rewrite Hne; [done|]. intros ->. rewrite Hcell in Hcell'. injection Hcell' as ->. congruence.
Qed.

Lemma inv_attach s w deviceID state cell r :
  inv_but (Some w) r → rtSession r = Some s → is_Some (rtSessions r !! s) → currentWorker r = None →
  rtWorkers r !! w = Some cell → wcSession cell = s → wcStarted cell = true →
  (∀ (c : nat) cl, rtClients r !! c = Some cl → rtOwner r = Some c → ¬ connecting s (clPc cl)) →
  inv (onSession s (setPlc (Some w) deviceID state false false) r).
Proof.
  intros [Ho Hse Hi Ha Hp Hc Hb Hd Hdc Hl Hpn Hq] Hs [se Hse0] Hcur Hcell Hcs Hst Hncon.
  assert (currentWorker (onSession s (setPlc (Some w) deviceID state false false) r) = Some w) as Hcur'.
  { unfold currentWorker. simpl. by rewrite Hs, lookup_alter_eq, Hse0. }
  split; try done.
  - intros s' Hs'. simpl. rewrite lookup_alter_is_Some. by apply Hse.
  - intros s' se' [[-> (se0 & _ & ->)]|[_ Hx]]%lookup_session_onSession; [done|by apply (Hi s')].
  - intros s' se' w' [[-> (se0 & _ & ->)]|[_ Hx]]%lookup_session_onSession; [|by apply (Ha s')].
    intros [= <-]. split; [done|]. by exists cell.
  - intros c cl s' se' Hcl Hcon Ho' Hs'. simpl in *. assert (s' = s) as -> by congruence.
    by destruct (Hncon c cl Hcl Ho').
  - intros w' cell' Hw' Hst' Hcan'. destruct (Hl w' cell' Hw' Hst' Hcan') as [Hx|[?|[= <-]]]; [|by right; left|by left].
    rewrite Hcur in Hx. discriminate Hx.
Qed.
End transitions.

Create HintDb hmi.

#[export] Hint Resolve inv_enqueue inv_close inv_write inv_cancelWorker : hmi.

Section frames.
Context {W : Type} `{PlcWorker W}.
Implicit Types r : Runtime W.

(** ** Changes of the parts the invariant does not read *)

Lemma inv_withStore v r : inv r → inv (withStore v r).
Proof. by apply (inv_other None (withStore v)). Qed.
Lemma inv_withDisk v r : inv r → inv (withDisk v r).
Proof. by apply (inv_other None (withDisk v)). Qed.
Lemma inv_withScans n v r : inv r → inv (withScans n v r).
Proof. by apply (inv_other None (withScans n v)). Qed.
Lemma inv_withFinishes v r : inv r → inv (withFinishes v r).
Proof. by apply (inv_other None (withFinishes v)). Qed.
Lemma inv_withReplies v r : inv r → inv (withReplies v r).
Proof. by apply (inv_other None (withReplies v)). Qed.
Lemma inv_withAlarms n v r : inv r → inv (withAlarms n v r).
Proof. by apply (inv_other None (withAlarms n v)). Qed.

Lemma inv_say c o b r : inv r → inv (enqueue c o b r).
Proof. apply inv_enqueue. Qed.

Lemma inv_setState w st r : inv r → inv (onWorker w (setState st) r).
Proof. by apply inv_onWorker. Qed.
Lemma inv_setPublishing w p r : inv r → inv (onWorker w (setPublishing p) r).
Proof. by apply inv_onWorker. Qed.
Lemma inv_setReady w ok r : inv r → inv (onWorker w (setReady ok) r).
Proof. by apply inv_onWorker. Qed.
Lemma inv_setDone w r : inv r → inv (onWorker w setDone r).
Proof. by apply inv_onWorker. Qed.
Lemma inv_setAlarms s alarms r : inv r → inv (onSession s (setAlarms alarms) r).
Proof. by apply inv_onSession. Qed.

End frames.

#[export] Hint Resolve inv_withStore inv_withDisk inv_withScans inv_withFinishes inv_withReplies inv_withAlarms : hmi.
#[export] Hint Resolve inv_say : hmi.
#[export] Hint Resolve inv_setState inv_setPublishing inv_setReady inv_setDone inv_setAlarms : hmi.
#[export] Hint Extern 1 (plain _) => solve [repeat split; intros; try done; naive_solver] : hmi.
#[export] Hint Extern 1 (¬ owning _) => solve [simpl; naive_solver] : hmi.

Ltac hmi := auto with hmi; try done; rewrite ?pc_of_enqueue, ?pc_of_cancelWorker; try done; try congruence.

Section operations.
Context {W : Type} `{PlcWorker W}.
Variables (validTime : string → bool) (urlParse : string → option url) (isIP : string → bool)
  (range : gmap string PointValue → list (string * PointValue)) (history : bool).
Implicit Types r : Runtime W.

Lemma inv_cancelScan r : inv r → inv (cancelScan r).
Proof. unfold cancelScan. destruct (rtScanCancel r); auto with hmi. Qed.

(** The state of a session with a worker may become anything. *)
Lemma inv_setPlcState s se state b r :
  inv r → rtSessions r !! s = Some se → seWorker se ≠ None → inv (onSession s (setPlcState state b) r).
Proof.
  intros Hi Hs Hw. apply inv_onSession; [|done]. intros se' Hs'. split; [done|]. rewrite Hs in Hs'.
  injection Hs' as <-. congruence.
Qed.

(** ** Publishing *)

Lemma inv_recordAlarmChanges s changed r : inv r → inv (recordAlarmChanges range history s changed r).2.
Proof. unfold recordAlarmChanges. intros Hi. repeat case_match; simpl; auto with hmi. Qed.

Lemma inv_publishStep stored p r : inv r → inv (publishStep range history stored p r).2.
Proof.
  intros Hi. destruct p as [s owner b items|s owner b changed|s changed|s records]; simpl.
  - destruct (Update items (rtStore r)) as [[changed|] st]; simpl; auto with hmi.
  - case_match; auto with hmi.
  - pose proof (inv_recordAlarmChanges s changed r Hi). by destruct (recordAlarmChanges range history s changed r).
  - auto with hmi.
Qed.

Lemma publishStep_pc c stored p r : pc_of c (publishStep range history stored p r).2 = pc_of c r.
Proof.
  destruct p as [s owner b items|s owner b changed|s changed|s records]; simpl.
  - by destruct (Update items (rtStore r)) as [[changed|] st].
  - case_match; [apply pc_of_enqueue|done].
  - unfold recordAlarmChanges. by repeat case_match; simplify_eq/=.
  - done.
Qed.

Lemma publishStep_workers stored p r : rtWorkers (publishStep range history stored p r).2 = rtWorkers r.
Proof.
  destruct p as [s owner b items|s owner b changed|s changed|s records]; simpl.
  - by destruct (Update items (rtStore r)) as [[changed|] st].
  - by case_match.
  - unfold recordAlarmChanges. by repeat case_match; simplify_eq/=.
  - done.
Qed.

Lemma publishStep_owner stored p r : rtOwner (publishStep range history stored p r).2 = rtOwner r.
Proof.
  destruct p as [s owner b items|s owner b changed|s changed|s records]; simpl.
  - by destruct (Update items (rtStore r)) as [[changed|] st].
  - by case_match.
  - unfold recordAlarmChanges. by repeat case_match; simplify_eq/=.
  - done.
Qed.

(** ** Configuring *)

Lemma owner_pc c pc r : inv r → pc_of c r = Some pc → rtOwner r = Some c → owning pc.
Proof.
  intros Hi [cl [Hcl <-]]%pc_of_Some Ho. destruct (iv_pc _ _ Hi c Ho) as (cl' & Hcl' & Hown). congruence.
Qed.

(** A goroutine whose place excludes that it is the owner goes anywhere plain. *)
Lemma inv_goto_stranger c pc0 pc r :
  inv r → pc_of c r = Some pc0 → ¬ owning pc0 → plain pc → (∀ s w, pc0 = CStopping s → ¬ stops w s) →
  inv (goto c pc r).
Proof.
  intros Hi Hpc Hno Hpl Hs. apply (inv_goto_plain c pc0); try done. intros Ho. by destruct (Hno (owner_pc c pc0 r Hi Hpc Ho)).
Qed.

Lemma inv_rejectConfigure c pc0 r :
  inv r → pc_of c r = Some pc0 → ¬ owning pc0 → (∀ s, pc0 ≠ CStopping s) → inv (rejectConfigure c r).
Proof.
  intros Hi Hpc Hno Hs. unfold rejectConfigure. apply (inv_goto_stranger c pc0); auto with hmi.
  - by rewrite pc_of_enqueue.
  - intros s w E. by destruct (Hs s).
Qed.

Lemma loadPLCEndpoint_pc c r : pc_of c (loadPLCEndpoint urlParse isIP r).2 = pc_of c r.
Proof. unfold loadPLCEndpoint. by repeat case_match; simplify_eq/=. Qed.

Lemma inv_loadPLCEndpoint r : inv r → inv (loadPLCEndpoint urlParse isIP r).2.
Proof. intros Hi. unfold loadPLCEndpoint. repeat case_match; simplify_eq/=; auto with hmi. Qed.

Lemma inv_configure c e interval points mqtt r :
  inv r → pc_of c r = Some (CReading false) → inv (configure validTime urlParse isIP c e interval points mqtt r).
Proof.
  intros Hi Hpc. unfold configure.
  assert (∀ r, inv r → pc_of c r = Some (CReading false) → inv (rejectConfigure c r)) as Hrej.
  { intros r' Hi' Hpc'. by apply (inv_rejectConfigure c (CReading false)). }
  destruct (validateRequestEnvelope validTime e); simpl; [|by apply Hrej].
  destruct (Normalize (mkConfig interval points)) as [config|]; [|by apply Hrej].
  pose proof (inv_loadPLCEndpoint r Hi) as Hi'. pose proof (loadPLCEndpoint_pc c r) as Hpc'.
  destruct (loadPLCEndpoint urlParse isIP r) as [[saved|] r']; simpl in *; [|apply Hrej; congruence].
  destruct mqtt as [mqtt|]; [|apply Hrej; congruence].
  apply (inv_goto_stranger c (CReading false)); hmi.
Qed.

Lemma inv_installSession c s config saved mqtt config0 saved0 mqtt0 r :
  inv r → pc_of c r = Some (CConfiguring config0 saved0 mqtt0) → rtOwner r = None → rtSessions r !! s = None →
  inv (installSession c s config saved mqtt r).
Proof.
  intros Hi Hpc Ho Hs. unfold installSession.
  destruct (Replace config (rtStore r)) as [[u|code] st];
    [|apply (inv_rejectConfigure c (CConfiguring config0 saved0 mqtt0)); hmi].
  set (se := mkSession config None mqtt ∅ false "" "disconnected" false).
  set (pc := match saved with None => CReading true | Some ep => CConnect "" ep false end).
  set (r1 := goto c pc (enqueue c (OConfigured (cScanIntervalMs config)) false (withStore st r))).
  assert (pc_of c (enqueue c (OConfigured (cScanIntervalMs config)) false (withStore st r))
          = Some (CConfiguring config0 saved0 mqtt0)) as Hpc1 by by rewrite pc_of_enqueue.
  assert (plain pc) as Hpl by (subst pc; destruct saved; auto with hmi).
  assert (inv r1) as Hi1 by (apply (inv_goto_stranger c (CConfiguring config0 saved0 mqtt0)); hmi).
  change (inv (withOwner (Some c) (Some s) (withSessions (<[s := se]> (rtSessions r1)) r1))).
  assert (pc_of c r1 = Some pc) as Hpcr1.
  { apply pc_of_Some in Hpc1 as (cl & Hcl & _). unfold pc_of, r1, goto, onClient. simpl rtClients.
    rewrite lookup_alter_eq. simpl in Hcl. by rewrite Hcl. }
  apply inv_install; try done.
  - intros pc' Hpc'. rewrite Hpcr1 in Hpc'. injection Hpc' as <-. split; [subst pc; by destruct saved|apply Hpl].
  - by rewrite Hpcr1.
Qed.

Lemma inv_configureLocked c s config saved mqtt r :
  inv r → pc_of c r = Some (CConfiguring config saved mqtt) → rtSessions r !! s = None →
  inv (configureLocked c s config saved mqtt r).
Proof.
  intros Hi Hpc Hs. unfold configureLocked. destruct (rtOwner r) as [owner|] eqn:Ho.
  - case_bool_decide as E; [|apply (inv_rejectConfigure c (CConfiguring config saved mqtt)); hmi].
    subst owner. by destruct (owner_pc c _ r Hi Hpc Ho).
  - by eapply inv_installSession.
Qed.
End operations.
