(* ===== verification/HmiReach.v ===== *)
(** * The invariant of the HMI runtime, in every reachable state *)

From S2P Require Import Prelude GoValue RuntimeConfig PointStore Storage Worker PlcScan Hmi HmiSteps HmiProofs HmiInv.

Section transitions.
Context {W : Type} `{PlcWorker W}.
Variables (validTime : string → bool) (urlParse : string → option url) (isIP : string → bool)
  (range : gmap string PointValue → list (string * PointValue)) (history : bool).
Implicit Types r : Runtime W.

(** ** Connecting *)

Lemma currentWorker_cancel w r : currentWorker (cancelWorker w r) = currentWorker r.
Proof. by destruct w. Qed.

Lemma inv_connectPLC c requestID ep persist r :
  inv r → pc_of c r = Some (CConnect requestID ep persist) → inv (connectPLC c requestID ep persist r).
Proof.
  intros Hi Hpc. unfold connectPLC.
  assert (inv (goto c (CReading true) (enqueue c (OError requestID "PLC_NOT_CONNECTED") false r))) as Hno
    by (apply (inv_goto_plain c (CConnect requestID ep persist)); hmi).
  destruct (rtSession r) as [s|] eqn:Hs; [|done]. unfold isOwner. case_bool_decide as Ho; [|done]. clear Hno.
  assert (inv (onSession s detachWorkerLocked (cancelWorker (currentWorker r) r))) as Hd.
  { apply inv_detach; [by apply inv_cancelWorker|by destruct (currentWorker r)|].
    intros w. rewrite currentWorker_cancel. intros ->. apply cancelWorker_cancelled. }
  assert (cancelWorker (currentWorker r) (onSession s detachWorkerLocked r) =
          onSession s detachWorkerLocked (cancelWorker (currentWorker r) r)) as -> by (by destruct (currentWorker r)).
  apply (inv_goto None c (CConnect requestID ep persist)); try done.
  - unfold pc_of. simpl. by destruct (currentWorker r).
  - intros s' se <- _ _. apply detached_worker.
  - simpl. intros w Hw. destruct (current_attached r w Hi Hw) as (_ & _ & cell & _ & _ & _ & Hcell & _ & Hst).
    rewrite Hw. by apply (cancelWorker_retired w cell r).
Qed.

Lemma inv_connectCreate c s w requestID ep persist old r :
  inv r → pc_of c r = Some (CConnectWait s requestID ep persist old) → rtWorkers r !! w = None →
  inv (connectCreate c s w requestID ep persist r).
Proof.
  intros Hi Hpc Hw. unfold connectCreate. simpl rtSessions.
  destruct (rtSessions r !! s) as [se|] eqn:Hs;
    [|apply (inv_goto_plain c (CConnectWait s requestID ep persist old)); hmi].
  destruct (wNew (seConfig se) ep) as [st|code];
    [|apply (inv_goto_plain c (CConnectWait s requestID ep persist old)); hmi].
  apply (inv_goto None c (CConnectWait s requestID ep persist old)); try done.
  - apply (inv_newWorker w); auto with hmi.
  - intros s' se' <- Ho Hss Hse. apply pc_of_Some in Hpc as (cl & Hcl & E).
    apply (iv_connecting _ _ Hi c cl s se'); by rewrite ?E.
  - intros s' w' [<- <-]. split.
    + eexists. simpl. by rewrite lookup_insert_eq.
    + intros c' cl' s' Hcl' Hbu. destruct (iv_building _ _ Hi c' cl' s' w Hcl' Hbu) as (cell & Hcell & _).
      simpl in Hcell. congruence.
Qed.
(** Once the goroutine that built [w] has moved on, nobody builds it. *)
Lemma goto_not_building c pc w r :
  (∀ (c' : nat) cl' s', rtClients r !! c' = Some cl' → building s' w (clPc cl') → c' = c) →
  (∀ s', ¬ building s' w pc) →
  ∀ (c' : nat) cl' s', rtClients (goto c pc r) !! c' = Some cl' → ¬ building s' w (clPc cl').
Proof.
  intros Hb Hpc c' cl' s'. simpl. rewrite lookup_alter_Some. intros [(<- & x & _ & ->)|[Hne Hx]]; [apply Hpc|].
  intros Hbu. apply Hne. symmetry. by eapply Hb.
Qed.

Lemma inv_connectAttach c s w requestID ep persist r :
  inv r → pc_of c r = Some (CConnectAttach s requestID ep persist w) →
  inv (connectAttach c s w requestID ep persist r).
Proof.
  intros Hi Hpc. destruct (building_pc c r s requestID ep persist w Hi Hpc) as [(cell & Hcell & Hcs & Hst) Hb].
  unfold connectAttach, isOwner. case_bool_decide as Ho; [case_bool_decide as Hs|]; simpl.
  - set (o := OConnection (DeviceID ep) "connecting").
    set (r1 := goto c (CReading true) (enqueue c o false r)).
    assert (inv r1) as Hi1 by (apply (inv_goto_plain c (CConnectAttach s requestID ep persist w)); hmi).
    set (r2 := onWorker w (startWorker false) r1).
    assert (inv_but (Some w) r2) as Hi2.
    { apply (inv_startWorker w false cell r1); try done. apply goto_not_building; [|naive_solver].
      intros c' cl' s'. simpl. rewrite lookup_alter_Some. intros [(<- & x & Hx & ->)|[_ Hx]]; [done|by eapply Hb]. }
    apply (inv_withFinishes _ (onSession s (setPlc (Some w) (DeviceID ep) "connecting" false false) r2)).
    apply (inv_attach s w _ _ (startWorker false cell)); try done.
    + apply (iv_session _ _ Hi s Hs).
    + pose proof Hpc as (cl & Hcl & E)%pc_of_Some. unfold currentWorker. simpl. rewrite Hs.
      destruct (rtSessions r !! s) as [se|] eqn:Hse; [|done].
      by apply (iv_connecting _ _ Hi c cl s se); rewrite ?E.
    + simpl. by rewrite lookup_alter_eq, Hcell.
    + intros c' cl' Hcl' Ho'. simpl in Ho'. assert (c' = c) as -> by congruence.
      simpl in Hcl'. apply lookup_alter_Some in Hcl' as [(_ & x & _ & ->)|[? _]]; naive_solver.
  - apply (inv_startWorker w true cell (goto c (CReading true) r)); try done.
    + apply (inv_goto_plain c (CConnectAttach s requestID ep persist w)); hmi.
    + by apply goto_not_building; [|naive_solver].
  - apply (inv_startWorker w true cell (goto c (CReading true) r)); try done.
    + apply (inv_goto_plain c (CConnectAttach s requestID ep persist w)); hmi.
    + by apply goto_not_building; [|naive_solver].
Qed.

(** ** A connection is finished, lost, or made again *)

Lemma current_Some s w se r :
  current s w r = Some se → rtSession r = Some s ∧ rtSessions r !! s = Some se ∧ seWorker se = Some w.
Proof.
  unfold current. case_bool_decide; [|done]. destruct (rtSessions r !! s) as [se'|]; [|done].
  case_bool_decide; naive_solver.
Qed.

Lemma savePLCEndpoint_frame ep r : ∃ saved disk, savePLCEndpoint ep r = (saved, withDisk disk r).
Proof.
  unfold savePLCEndpoint. destruct (rtDisk r) as [disk|] eqn:E.
  - destruct (SavePLCEndpoint _ disk) as [saved disk']. by eexists _, _.
  - exists true, (rtDisk r). by destruct r.
Qed.

Lemma inv_setWorkerState s w se state b r :
  inv r → rtSessions r !! s = Some se → seWorker se = Some w → inv (onSession s (setPlcState state b) r).
Proof. intros Hi Hs Hw. apply (inv_setPlcState s se); [done..|]. by rewrite Hw. Qed.

Lemma inv_finishPLCConnect f ready disconnected r : inv r → inv (finishPLCConnect f ready disconnected r).
Proof.
  intros Hi. unfold finishPLCConnect. destruct (current (fiSession f) (fiWorker f) r) as [se|] eqn:Hc; [|done].
  apply current_Some in Hc as (Hs & Hse & Hw). case_match; [done|].
  assert (∃ saved disk, (if ready && fiPersist f then savePLCEndpoint (fiEndpoint f) r else (true, r)) =
            (saved, withDisk disk r)) as (saved & disk & ->).
  { case_match; [apply savePLCEndpoint_frame|]. exists true, (rtDisk r). by destruct r. }
  generalize (if ready then "connected"%string else if disconnected then "disconnected"%string else "error"%string).
  intros state.
  assert (inv (onSession (fiSession f) (setPlcState state (seBroadcasts se)) (withDisk disk r))) as Hi1
    by (apply (inv_setWorkerState _ (fiWorker f) se); auto with hmi).
  apply (inv_setWorkerState _ (fiWorker f) (setPlcState state (seBroadcasts se) se)); [|..|done].
  - apply inv_say, inv_say. case_match; auto with hmi.
  - destruct (state <>s "disconnected"); simpl; by rewrite lookup_alter_eq, Hse.
Qed.

Lemma inv_notifyPLC s w state r : inv r → inv (notifyPLC s w state r).
Proof.
  intros Hi. unfold notifyPLC. destruct (current s w r) as [se|] eqn:Hc; [|done].
  apply current_Some in Hc as (Hs & Hse & Hw). destruct (rtOwner r); [|done]. case_match; [done|].
  pose proof (inv_setWorkerState s w se state (seBroadcasts se) r Hi Hse Hw). case_match; auto with hmi.
Qed.
(** ** Disconnecting *)

Lemma awaits_retired c pc w r :
  inv r → pc_of c r = Some pc → awaits w pc → retired w r.
Proof. intros Hi (cl & Hcl & <-)%pc_of_Some. by apply (iv_awaits _ _ Hi c cl w). Qed.

Definition disconnecting (pc : client_pc) : Prop :=
  match pc with
  | CDisconnectWait _ _ _ | CDisconnectPublish _ _ _ _ | CDisconnectApply _ _ _ _ | CDisconnectNotify _ _ _
  | CDisconnectEnd _ _ _ => True
  | _ => False
  end.

(** A disconnecting goroutine moves on with the same worker. *)
Lemma inv_goto_disconnect c pc0 pc r :
  inv r → pc_of c r = Some pc0 → pc0 = CReading true ∨ disconnecting pc0 → disconnecting pc →
  (∀ w, awaits w pc → retired w r) → inv (goto c pc r).
Proof.
  intros Hi Hpc Hfrom Hto Hd. apply (inv_goto None c pc0); try done.
  - by destruct pc.
  - by destruct pc.
  - by destruct pc.
  - intros w s ->. by destruct Hfrom.
  - intros w s' ->. by destruct Hto.
  - by intros ->.
Qed.

Lemma retired_onWorker w w' f r :
  (∀ cell, wcStarted (f cell) = wcStarted cell ∧ (wcCancelled cell = true → wcCancelled (f cell) = true)) →
  retired w r → retired w (onWorker w' f r).
Proof.
  intros Hf (cell & Hw & Hst & Hcan). unfold retired. simpl. destruct (decide (w' = w)) as [->|Hne].
  - rewrite lookup_alter_eq, Hw. exists (f cell). destruct (Hf cell) as [-> ?]. auto.
  - rewrite lookup_alter_ne by done. by exists cell.
Qed.

Lemma inv_handlePLCDisconnect c e r :
  inv r → pc_of c r = Some (CReading true) → inv (handlePLCDisconnect validTime c e r).
Proof.
  intros Hi Hpc. unfold handlePLCDisconnect. case_match; [by auto with hmi|].
  destruct (rtSession r) as [s|] eqn:Hs; [|by auto with hmi]. unfold isOwner. case_bool_decide; [|by auto with hmi].
  set (f := fun se => setPlc _ _ _ _ true se).
  assert (inv (onSession s f r)) as Hi1 by (apply inv_onSession; [|done]; by intros se Hse).
  assert (currentWorker (onSession s f r) = currentWorker r) as Hcw.
  { unfold currentWorker. simpl. rewrite Hs, lookup_alter_eq. by destruct (rtSessions r !! s). }
  apply (inv_goto_disconnect c (CReading true)); [by apply inv_cancelWorker|by rewrite pc_of_cancelWorker|by left|exact I|].
  simpl. intros w Hw. rewrite Hw. rewrite <-Hcw in Hw.
  destruct (current_attached _ _ Hi1 Hw) as (_ & _ & cell & _ & _ & _ & Hcell & _ & Hst).
  by apply (cancelWorker_retired w cell).
Qed.

Lemma inv_disconnectConfirm c s requestID w r :
  inv r → pc_of c r = Some (CDisconnectWait s requestID w) → inv (disconnectConfirm range c s requestID w r).
Proof.
  intros Hi Hpc. pose proof (fun w' => awaits_retired c _ w' r Hi Hpc) as Hret. simpl in Hret.
  unfold disconnectConfirm. destruct w as [w|]; [|apply (inv_goto_disconnect c _ _ r Hi Hpc); [by right|done|auto]].
  destruct (rtWorkers r !! w) as [cell|]; [|apply (inv_goto_disconnect c _ _ r Hi Hpc); [by right|done|auto]].
  destruct (wConfirm (wcState cell)) as [stale st].
  assert (retired w (onWorker w (setState st) r)) as Hw by (apply retired_onWorker; auto).
  apply (inv_goto_disconnect c (CDisconnectWait s requestID (Some w))); [by apply inv_setState|done|by right|by destruct stale|].
  destruct stale; simpl; naive_solver.
Qed.

Lemma inv_disconnectPublish c s requestID w items r :
  inv r → pc_of c r = Some (CDisconnectPublish s requestID w items) → inv (disconnectPublish c s requestID w items r).
Proof.
  intros Hi Hpc. pose proof (fun w' => awaits_retired c _ w' r Hi Hpc) as Hret. unfold disconnectPublish.
  apply (inv_goto_disconnect c _ _ r Hi Hpc); [by right|..]; by destruct (updateFromWorker _ w items r).
Qed.

Lemma inv_disconnectApply c s requestID w stored p r :
  inv r → pc_of c r = Some (CDisconnectApply s requestID w p) →
  inv (disconnectApply range history c s requestID w stored p r).
Proof.
  intros Hi Hpc. pose proof (fun w' => awaits_retired c _ w' r Hi Hpc) as Hret. unfold disconnectApply.
  pose proof (inv_publishStep range history stored p r Hi) as Hi'. rewrite <-(publishStep_pc range history c stored p r) in Hpc.
  pose proof (publishStep_workers range history stored p r) as Hws.
  destruct (publishStep range history stored p r) as [next r']. simpl in *.
  apply (inv_goto_disconnect c _ _ r' Hi' Hpc); [by right|by destruct next as [|[]]|].
  intros w' Hw'. unfold retired. rewrite Hws. apply Hret. destruct next as [|[]]; simpl in *; naive_solver.
Qed.

Lemma notifyPLC_frame c s w state r :
  pc_of c (notifyPLC s w state r) = pc_of c r ∧ rtWorkers (notifyPLC s w state r) = rtWorkers r.
Proof. unfold notifyPLC. repeat case_match; split; try done. by rewrite pc_of_enqueue. Qed.

Lemma inv_disconnectNotify c s requestID w r :
  inv r → pc_of c r = Some (CDisconnectNotify s requestID w) → inv (disconnectNotify c s requestID w r).
Proof.
  intros Hi Hpc. pose proof (fun w' => awaits_retired c _ w' r Hi Hpc) as Hret. unfold disconnectNotify.
  set (own := match rtWorkers r !! w with Some cell => wcSession cell | None => s end).
  destruct (notifyPLC_frame c own w "disconnected" r) as [Ep Ew]. rewrite <-Ep in Hpc.
  apply (inv_goto_disconnect c _ _ _ (inv_notifyPLC own w "disconnected" r Hi) Hpc); [by right|done|].
  intros w' [= <-]. unfold retired. rewrite Ew. by apply Hret.
Qed.

Lemma retired_cancelled w r : retired w r → cancelled w r.
Proof. intros (cell & Hw & _ & Hc) cell' Hw'. congruence. Qed.

Lemma inv_disconnectEnd c s requestID w r :
  inv r → pc_of c r = Some (CDisconnectEnd s requestID w) → inv (disconnectEnd c s requestID w r).
Proof.
  intros Hi Hpc. unfold disconnectEnd.
  match goal with |- inv (goto c _ (enqueue c _ _ ?x)) => assert (inv x ∧ pc_of c x = pc_of c r) as [Hi' Hpc'] end.
  { case_match eqn:Hb; [|done]. apply andb_true_iff in Hb as [Hs%bool_decide_eq_true Hw%bool_decide_eq_true].
    split; [|done]. apply inv_detach; [done..|]. intros w'. rewrite Hw. intros ->.
    by apply retired_cancelled, (awaits_retired c _ w' r Hi Hpc). }
  apply (inv_goto_plain c (CDisconnectEnd s requestID w)); hmi.
Qed.

(** ** Stopping *)

Lemma current_begun w r : inv r → currentWorker r = Some w → begun w r.
Proof.
  intros Hi Hw. destruct (current_attached r w Hi Hw) as (_ & _ & cell & _ & _ & _ & Hcell & _ & Hst). by exists cell.
Qed.

Lemma stopBegin_begun w r : begun w r → begun w (stopBegin r).2.
Proof. unfold begun. simpl. unfold onCurrent. by destruct (rtSession r). Qed.

Lemma stopBegin_loose r : inv r → inv_but (currentWorker r) (stopBegin r).2.
Proof. apply inv_endSession. Qed.

Lemma inv_stopBegin c r :
  inv r → pc_of c r = Some CStopBegin → inv (goto c (CStopping (stopBegin r).1) (stopBegin r).2).
Proof.
  intros Hi Hpc. apply (inv_goto (currentWorker r) c CStopBegin); try done; [by apply stopBegin_loose| | |].
  - unfold pc_of in *. simpl. unfold onCurrent. by destruct (rtSession r).
  - intros w Hw. by eexists.
  - intros w s' [= <-] Hw. by apply stopBegin_begun, current_begun.
Qed.

Lemma inv_shutdown r : inv r → rtServe r = None → inv (withServe (Some (stopBegin r).1) (stopBegin r).2).
Proof.
  intros Hi Hno. destruct (stopBegin_loose r Hi) as [Ho Hse Hid Ha Hp Hc Hb Hd Hdc Hl Hpn Hq].
  split; try done.
  - intros w cell Hw Hst Hcan. destruct (Hl w cell Hw Hst Hcan) as [?|[[?|(s & Hs & _)]|Hx]]; [by left|by right; left; left|..].
    + simpl in Hs. unfold onCurrent in Hs. destruct (rtSession r); simpl in Hs; congruence.
    + right. left. right. eexists. by split.
  - intros w [Hx|(s & [= <-] & Hx)]; [apply Hpn; by left|]. by apply (stopBegin_begun w r), current_begun.
Qed.

(** What a step of [StopSession] does to the rest of the runtime. *)
Lemma inv_stopStep s next r r' : inv r → stopStep s r = Some (next, r') → inv r'.
Proof.
  intros Hi. destruct s as [owner w|owner w|owner]; simpl.
  - intros [= _ <-]. by apply inv_cancelWorker, inv_cancelScan.
  - case_match; [|done]. intros [= _ <-]. auto with hmi.
  - intros [= _ <-]. destruct owner; [by apply inv_close|done].
Qed.

Lemma stopStep_cancels s next r r' w :
  stopStep s r = Some (next, r') → stops w s → cancelled w r' ∧ ∀ s', next = Some s' → ¬ stops w s'.
Proof.
  destruct s as [owner w'|owner w'|owner]; simpl; [|by case_match|done]. intros [= <- <-] ->.
  split; [apply cancelWorker_cancelled|]. by intros s' [= <-] [].
Qed.

Lemma stopStep_frame c s next r r' :
  stopStep s r = Some (next, r') → pc_of c r' = pc_of c r ∧ rtServe r' = rtServe r ∧ rtOwner r' = rtOwner r.
Proof.
  destruct s as [owner w|owner w|owner]; simpl.
  - intros [= _ <-]. unfold cancelScan. by destruct w, (rtScanCancel r).
  - case_match; [|done]. by intros [= _ <-].
  - intros [= _ <-]. destruct owner; [|done]. split; [by apply pc_of_onClient|done].
Qed.

Lemma stopStep_stopping s s' next r r' w : stopStep s r = Some (next, r') → next = Some s' → ¬ stops w s'.
Proof. destruct s; simpl; [|case_match; [|done]|]; by intros [= <- _] [= <-] []. Qed.

Lemma stopStep_retires s s' r r' w :
  stopStep s r = Some (Some s', r') → awaits w (CStopping s') → (stops w s → begun w r) → retired w r'.
Proof.
  destruct s as [owner w'|owner w'|owner]; simpl; [|case_match; [|done]; by intros [= <- _]|done].
  intros [= <- <-]. simpl. intros -> Hb. destruct (Hb eq_refl) as (cell & Hcell & Hst).
  apply (cancelWorker_retired w cell); [|done]. unfold cancelScan. by destruct (rtScanCancel r).
Qed.

Lemma stopStep_begun w s next r r' : stopStep s r = Some (next, r') → begun w r → begun w r'.
Proof.
  intros Hstep (cell & Hcell & Hst). destruct s as [owner w'|owner w'|owner]; simpl in Hstep.
  - injection Hstep as _ <-.
    assert (rtWorkers (cancelScan r) !! w = Some cell) as Hcell' by (unfold cancelScan; by destruct (rtScanCancel r)).
    destruct w' as [w'|]; [|by exists cell]. unfold begun. simpl. destruct (decide (w' = w)) as [->|Hne].
    + rewrite lookup_alter_eq, Hcell'. by eexists.
    + rewrite lookup_alter_ne by done. by exists cell.
  - case_match; [|done]. injection Hstep as _ <-. by exists cell.
  - injection Hstep as _ <-. destruct owner; by exists cell.
Qed.

Lemma inv_stop_client c s next r r' :
  inv r → pc_of c r = Some (CStopping s) → stopStep s r = Some (next, r') →
  inv (goto c (match next with Some s => CStopping s | None => CGone end) r').
Proof.
  intros Hi Hpc Hstep. destruct (stopStep_frame c s next r r' Hstep) as (Ep & _ & Eo). rewrite <-Ep in Hpc.
  pose proof (inv_stopStep s next r r' Hi Hstep) as Hi'.
  assert (rtOwner r' ≠ Some c) as Hno by (intros Ho; by apply (owner_pc c _ r' Hi' Hpc)).
  apply (inv_goto None c (CStopping s)); try done; try (by destruct next).
  - intros w Hw. destruct next as [s'|]; [|done]. apply (stopStep_retires s s' r r' w Hstep Hw).
    intros Hst. apply (iv_pending _ _ Hi). rewrite Ep in Hpc. apply pc_of_Some in Hpc as (cl & Hcl & E).
    left. by exists c, cl, s.
  - intros w s' [= <-] Hst. left. by apply (stopStep_cancels s next r r' w Hstep Hst).
  - intros w s' E Hst. destruct next as [s2|]; [|done]. injection E as ->.
    by destruct (stopStep_stopping s s' (Some s') r r' w Hstep eq_refl).
Qed.

Lemma inv_stop_serve s next r r' :
  inv r → rtServe r = Some s → stopStep s r = Some (next, r') → inv (withServe next r').
Proof.
  intros Hi Hs Hstep. pose proof (inv_stopStep s next r r' Hi Hstep) as [Ho Hse Hid Ha Hp Hc Hb Hd Hdc Hl Hpn Hq].
  destruct (stopStep_frame 0 s next r r' Hstep) as (_ & Ev & _).
  split; try done.
  - intros w cell Hw Hst Hcan. destruct (Hl w cell Hw Hst Hcan) as [?|[[?|(s' & Hs' & Hst')]|?]];
      [by left|by right; left; left| |done].
    rewrite Ev, Hs in Hs'. injection Hs' as <-. destruct (stopStep_cancels s next r r' w Hstep Hst') as [Hx _].
    rewrite (Hx cell Hw) in Hcan. discriminate Hcan.
  - intros w [Hx|(s' & Hs' & Hx)]; [apply Hpn; by left|]. simpl in Hs'.
    by destruct (stopStep_stopping s s' next r r' w Hstep Hs').
Qed.

(** ** A client's goroutine *)

Lemma inv_handlePLCScan c n e a port unitID r : inv r → inv (handlePLCScan validTime c n e a port unitID r).
Proof. intros Hi. unfold handlePLCScan. repeat case_match; auto with hmi. Qed.

Lemma inv_handlePLCConnect c e deviceID r :
  inv r → pc_of c r = Some (CReading true) → inv (handlePLCConnect validTime urlParse isIP c e deviceID r).
Proof.
  intros Hi Hpc. unfold handlePLCConnect. repeat case_match; auto with hmi.
  apply (inv_goto_plain c (CReading true)); hmi.
Qed.

Lemma inv_handlePointCommand c ticket e pointID action value r :
  inv r → inv (handlePointCommand validTime c ticket e pointID action value r).
Proof. intros Hi. unfold handlePointCommand. repeat case_match; auto with hmi. Qed.

(** The last message of a client, which closes it. *)
Lemma enqueueMessage_last o cl :
  clDone (enqueueMessage o true cl) = true ∨ ∃ o', (o', true) ∈ clQueue (enqueueMessage o true cl).
Proof.
  unfold enqueueMessage. destruct (clDone cl) eqn:Hd; [by left|]. case_match; [|by left]. right. exists o. simpl.
  apply elem_of_app. right. by apply elem_of_cons; left.
Qed.

Lemma inv_close_after c configured o r :
  inv r → pc_of c r = Some (CReading configured) → inv (goto c CClosing (enqueue c o true r)).
Proof.
  intros Hi Hpc. apply (inv_goto None c (CReading configured)); hmi.
  intros _ cl. simpl. rewrite lookup_alter_Some. intros [(_ & x & _ & ->)|[? _]]; [apply enqueueMessage_last|done].
Qed.

Lemma inv_serveWS c fresh configured mqtt m r :
  inv r → pc_of c r = Some (CReading configured) →
  inv (serveWS validTime urlParse isIP c fresh configured mqtt m r).
Proof.
  intros Hi Hpc. unfold serveWS.
  pose proof (inv_close_after c configured (OError "" "INVALID_REQUEST") r Hi Hpc) as Hlast.
  destruct configured, m; simpl; auto with hmi; try case_match;
    auto using inv_configure, inv_handlePLCScan, inv_handlePLCConnect, inv_handlePLCDisconnect,
      inv_handlePointCommand with hmi.
Qed.

Lemma inv_clientStep c fresh stored r r' :
  inv r → unused fresh r → clientStep range history c fresh stored r = Some r' → inv r'.
Proof.
  intros Hi (Hns & Hnw & _) Hstep. unfold clientStep in Hstep.
  destruct (rtClients r !! c) as [cl|] eqn:Hcl; [|done].
  assert (pc_of c r = Some (clPc cl)) as Hpc by (unfold pc_of; by rewrite Hcl).
  destruct (clPc cl) eqn:E; try discriminate Hstep; try (injection Hstep as <-).
  - by apply inv_configureLocked.
  - by apply inv_connectPLC.
  - case_match; [|done]. injection Hstep as <-. by eapply inv_connectCreate.
  - by apply inv_connectAttach.
  - case_match; [|done]. injection Hstep as <-. by apply inv_disconnectConfirm.
  - by apply inv_disconnectPublish.
  - by apply inv_disconnectApply.
  - by apply inv_disconnectNotify.
  - by apply inv_disconnectEnd.
  - case_match; [|done]. injection Hstep as <-. apply (inv_goto_plain c CClosing); hmi.
  - apply (inv_goto_plain c CLeaving); [by apply inv_close|by rewrite pc_of_onClient| | |done].
    + unfold isOwner. by case_bool_decide.
    + unfold isOwner. case_bool_decide; auto with hmi.
  - by apply inv_stopBegin.
  - destruct (stopStep s r) as [[[s'|] r1]|] eqn:Hs; [..|done]; injection Hstep as <-.
    + exact (inv_stop_client c s (Some s') r r1 Hi Hpc Hs).
    + exact (inv_stop_client c s None r r1 Hi Hpc Hs).
Qed.

(** ** Every step *)

Lemma inv_accept c r :
  inv r → rtClients r !! c = None →
  inv (withClients (<[c := mkClient [] false [] (CReading false)]> (rtClients r)) r).
Proof.
  intros [Ho Hse Hid Ha Hp Hc Hb Hd Hdc Hl Hpn Hq] Hno.
  assert (∀ c' cl, <[c := mkClient [] false [] (CReading false)]> (rtClients r) !! c' = Some cl →
            (c' = c ∧ cl = mkClient [] false [] (CReading false)) ∨ (c' ≠ c ∧ rtClients r !! c' = Some cl)) as Hlook.
  { intros c' cl. rewrite lookup_insert_Some. naive_solver. }
  split; simpl; try done.
  - intros c' Hc'. destruct (Hp c' Hc') as (cl & Hcl & ?). exists cl. rewrite lookup_insert_ne; [done|congruence].
  - intros c' cl s se [[-> ->]|[_ Hx]]%Hlook; [done|by eapply Hc].
  - intros c' cl s w [[-> ->]|[_ Hx]]%Hlook; [done|by eapply Hb].
  - intros c1 c2 cl1 cl2 s1 s2 w [[-> ->]|[_ H1]]%Hlook [[-> ->]|[_ H2]]%Hlook; [done..|by eapply Hd].
  - intros c' cl w [[-> ->]|[_ Hx]]%Hlook; [done|by eapply Hdc].
  - intros w cell Hw Hst Hcan. destruct (Hl w cell Hw Hst Hcan) as [?|[[(c' & cl & s & Hcl & ?)|?]|?]];
      [by left| |by right; left; right|done].
    right. left. left. exists c', cl, s. simpl. rewrite lookup_insert_ne; [done|congruence].
  - intros w [(c' & cl & s & [[-> ->]|[_ Hx]]%Hlook & Hpc & Hs)|?]; [done| |apply Hpn; by right].
    apply Hpn. left. by exists c', cl, s.
  - intros c' cl [[-> ->]|[_ Hx]]%Hlook; [split; simpl; [lia|done]|by eapply Hq].
Qed.

Lemma inv_scanDone n outcome r : inv r → inv (scanDone n outcome r).
Proof. intros Hi. unfold scanDone. repeat case_match; auto with hmi. Qed.

Lemma pc_lookup (c : nat) cl pc r : rtClients r !! c = Some cl → clPc cl = pc → pc_of c r = Some pc.
Proof. intros Hc <-. unfold pc_of. by rewrite Hc. Qed.

Lemma inv_step r r' : inv r → step validTime urlParse isIP range history r r' → inv r'.
Proof.
  intros Hi Hstep.
  destruct Hstep as
    [r c Hno|r c cl configured fresh mqtt m Hcl Hpc _|r c cl configured Hcl Hpc|r r' c fresh stored Hfr Hst|
     r c cl sent Hcl _|r Hno|r r' s next Hs Hst|r w cell st Hrun _|r w cell ok Hrun _|r w cell items p Hrun _|
     r r' w cell stored p next Hw Hp Hpub|r w cell state Hrun _|r w cell Hrun _|r before f after cell ok Hf Hw Hok|
     r n sc outcome Hn _|r before c requestID w ticket result after Hr]; auto with hmi.
  - by apply inv_accept.
  - apply inv_serveWS; [done|by eapply pc_lookup].
  - apply (inv_goto_plain c (CReading configured)); hmi. by eapply pc_lookup.
  - by eapply inv_clientStep.
  - by apply inv_write.
  - by apply inv_shutdown.
  - by eapply inv_stop_serve.
  - apply inv_setPublishing. pose proof (inv_publishStep range history stored p r Hi) as Hi'. by rewrite Hpub in Hi'.
  - by apply inv_notifyPLC.
  - apply inv_finishPLCConnect. auto with hmi.
  - by apply inv_scanDone.
Qed.

Lemma inv_start disk : inv (NewLocalRuntime disk : Runtime W).
Proof. split; simpl; try done; unfold stop_pending; intros; naive_solver. Qed.

Lemma reachable_inv disk r : reachable validTime urlParse isIP range history disk r → inv r.
Proof. induction 1 as [|r r' _ IH Hstep]; [apply inv_start|by eapply inv_step]. Qed.
End transitions.
