(* ===== verification/HmiLive.v ===== *)
(** * No goroutine of an HMI client gets stuck

    Every place of a client's goroutine outside its receive loop has a rank;
    from every state of the invariant some steps of the runtime (its own, and
    those of the worker or the writer it waits for) lower it. *)

From stdpp Require Import relations.
From S2P Require Import Prelude GoValue RuntimeConfig PointStore Storage Worker PlcScan Hmi HmiSteps HmiProofs HmiInv HmiReach.

Section live.
Context {W : Type} `{PlcWorker W}.
Variables (validTime : string → bool) (urlParse : string → option url) (isIP : string → bool)
  (range : gmap string PointValue → list (string * PointValue)) (history : bool).
Implicit Types r : Runtime W.

#[local] Abbreviation step := (step validTime urlParse isIP range history).

(** ** Names *)

Lemma unused_exists r : ∃ n, unused n r.
Proof.
  set (taken := dom (rtSessions r) ∪ dom (rtWorkers r) ∪ dom (rtScans r) ∪
                list_to_set (map (fun x : nat * string * nat * nat => x.2) (rtReplies r)) : gset nat).
  destruct (exist_fresh taken) as [n Hn]. exists n. unfold taken in Hn.
  rewrite !not_elem_of_union, !not_elem_of_dom, not_elem_of_list_to_set in Hn. destruct Hn as [[[? ?] ?] Hr].
  split_and!; [done..|]. intros c requestID w Hin. apply Hr, list_elem_of_fmap. by exists (c, requestID, w, n).
Qed.

(** ** A cancelled worker ends *)

Definition publishing_rank (p : publishing) : nat :=
  match p with PubApply _ _ _ _ => 3 | PubSend _ _ _ _ => 2 | PubAlarms _ _ => 1 | PubObserve _ _ => 0 end.

Lemma publishStep_rank stored p p' r r' :
  publishStep range history stored p r = (inl p', r') → (publishing_rank p' < publishing_rank p)%nat.
Proof.
  destruct p as [s owner b items|s owner b changed|s changed|s records]; simpl.
  - destruct (Update items (rtStore r)) as [[changed|] st]; [|done]. case_bool_decide; [done|].
    intros [= <- _]. simpl. lia.
  - intros [= <- _]. simpl. lia.
  - destruct (recordAlarmChanges range history s changed r) as [records r1]. intros [= <- _]. simpl. lia.
  - done.
Qed.

Lemma setDone_done w cell r : rtWorkers r !! w = Some cell → workerDone (Some w) (onWorker w setDone r) = true.
Proof. intros Hw. simpl. by rewrite lookup_alter_eq, Hw. Qed.

(** Only the place of [c] matters to what follows. *)
Lemma worker_ends c w r :
  inv r → retired w r → ∃ r', rtc step r r' ∧ workerDone (Some w) r' = true ∧ pc_of c r' = pc_of c r.
Proof.
  intros Hi (cell & Hw & Hst & Hcan).
  destruct (wcDone cell) eqn:Hd; [exists r; split_and!; [done|simpl; by rewrite Hw|done]|].
  remember (match wcPublishing cell with None => 0%nat | Some p => S (publishing_rank p) end) as n eqn:Hn.
  revert r cell Hi Hw Hst Hcan Hd Hn. induction (lt_wf n) as [n _ IH]. intros r cell Hi Hw Hst Hcan Hd ->.
  destruct (wcPublishing cell) as [p|] eqn:Hp.
  - destruct (publishStep range history 0 p r) as [next r1] eqn:Hpub.
    assert (step r (onWorker w (setPublishing (match next with inl p => Some p | inr _ => None end)) r1)) as Hstep
      by (by eapply step_publishing).
    pose proof (publishStep_workers range history 0 p r) as Ew. pose proof (publishStep_pc range history c 0 p r) as Ec.
    rewrite Hpub in Ew, Ec. simpl in Ew, Ec.
    set (rest := match next with inl p => Some p | inr _ => None end) in *.
    destruct (IH (match rest with None => 0%nat | Some p => S (publishing_rank p) end)) with
      (r := onWorker w (setPublishing rest) r1) (cell := setPublishing rest cell) as (r2 & Hs & Hdone & Epc); try done.
    + subst rest. destruct next as [p'|]; [|lia]. pose proof (publishStep_rank 0 p p' r r1 Hpub). lia.
    + by eapply inv_step.
    + simpl. by rewrite lookup_alter_eq, Ew, Hw.
    + exists r2. split_and!; [by eapply rtc_l|done|]. rewrite Epc. exact Ec.
  - exists (onWorker w setDone r). split_and!; [|by eapply setDone_done|done].
    apply rtc_once. eapply step_done; [|exact Hcan]. by split_and!.
Qed.
(** ** Ranks *)

Definition rank (pc : client_pc) : nat :=
  match pc with
  | CReading _ | CGone => 0
  | CConfiguring _ _ _ => 4 | CConnect _ _ _ => 3 | CConnectWait _ _ _ _ _ => 2 | CConnectAttach _ _ _ _ _ => 1
  | CDisconnectWait _ _ _ => 9 | CDisconnectPublish _ _ _ _ => 8 | CDisconnectApply _ _ _ p => 3 + publishing_rank p
  | CDisconnectNotify _ _ _ => 2 | CDisconnectEnd _ _ _ => 1
  | CClosing => 6 | CLeaving => 5 | CStopBegin => 4
  | CStopping (StopCancel _ _) => 3 | CStopping (StopWait _ _) => 2 | CStopping (StopClose _) => 1
  end.

(** The goroutine has left its receive loop for good. *)
Definition leaving (pc : client_pc) : bool :=
  match pc with CClosing | CLeaving | CStopBegin | CStopping _ | CGone => true | _ => false end.

Definition lower (c n : nat) (b : bool) r : Prop :=
  ∃ pc, pc_of c r = Some pc ∧ (rank pc < n)%nat ∧ (b = true → leaving pc = true).

Lemma lower_goto c n b pc r :
  is_Some (pc_of c r) → (rank pc < n)%nat → (b = true → leaving pc = true) → lower c n b (goto c pc r).
Proof.
  intros [pc0 (cl & Hcl & _)%pc_of_Some] Hn Hb. exists pc. split; [|done]. unfold pc_of. simpl.
  by rewrite lookup_alter_eq, Hcl.
Qed.

Lemma mk_pc c pc r : pc_of c r = Some pc → is_Some (pc_of c r).
Proof. intros ->. by eexists. Qed.

#[local] Hint Resolve lower_goto mk_pc : hmi.
#[local] Hint Extern 1 (rank _ < _)%nat => simpl; lia : hmi.

(** ** The steps that never wait *)

Lemma pc_of_cancel_enqueue c c' o b w r : pc_of c (enqueue c' o b (cancelWorker w r)) = pc_of c r.
Proof. rewrite pc_of_enqueue. by destruct w. Qed.

Lemma configureLocked_lower c s config saved mqtt r :
  is_Some (pc_of c r) → lower c 4 false (configureLocked c s config saved mqtt r).
Proof.
  intros Hpc. assert (lower c 4 false (rejectConfigure c r)) as Hrej
    by (apply lower_goto; [by rewrite pc_of_enqueue|simpl; lia|done]).
  assert (lower c 4 false (installSession c s config saved mqtt r)) as Hin.
  { unfold installSession. destruct (Replace config (rtStore r)) as [[u|code] st]; [|done].
    apply lower_goto; [by rewrite pc_of_enqueue|destruct saved; simpl; lia|done]. }
  unfold configureLocked. by repeat case_match.
Qed.

Lemma connectPLC_lower c requestID ep persist r :
  is_Some (pc_of c r) → lower c 3 false (connectPLC c requestID ep persist r).
Proof.
  intros Hpc. unfold connectPLC. repeat case_match; apply lower_goto; simpl; try lia; try (by rewrite pc_of_enqueue).
  by rewrite pc_of_cancelWorker.
Qed.

Lemma connectCreate_lower c s w requestID ep persist r :
  is_Some (pc_of c r) → lower c 2 false (connectCreate c s w requestID ep persist r).
Proof.
  intros Hpc. unfold connectCreate. repeat case_match; apply lower_goto; simpl; try lia; try done; by rewrite pc_of_enqueue.
Qed.

Lemma connectAttach_lower c s w requestID ep persist r :
  is_Some (pc_of c r) → lower c 1 false (connectAttach c s w requestID ep persist r).
Proof.
  intros Hpc. unfold connectAttach. case_match; apply lower_goto; simpl; try lia; try done.
  change (is_Some (pc_of c (enqueue c (OConnection (DeviceID ep) "connecting") false r))). by rewrite pc_of_enqueue.
Qed.

Lemma disconnectConfirm_lower c s requestID w r :
  is_Some (pc_of c r) → lower c 9 false (disconnectConfirm range c s requestID w r).
Proof.
  intros Hpc. unfold disconnectConfirm. repeat case_match; apply lower_goto; simpl; try lia; done.
Qed.

Lemma disconnectApply_lower c s requestID w stored p r :
  is_Some (pc_of c r) → lower c (3 + publishing_rank p) false (disconnectApply range history c s requestID w stored p r).
Proof.
  intros Hpc. unfold disconnectApply. rewrite <-(publishStep_pc range history c stored p r) in Hpc.
  destruct (publishStep range history stored p r) as [[p'|[]] r'] eqn:E; apply lower_goto; simpl; try lia; try done.
  apply publishStep_rank in E. lia.
Qed.

Lemma stopBegin_pc c r : pc_of c (stopBegin r).2 = pc_of c r.
Proof. unfold pc_of. simpl. unfold onCurrent. by destruct (rtSession r). Qed.

(** ** The steps that wait *)

(** Wait for [w], then take the step [f]. *)
Lemma after_worker c n b w (f : nat → Runtime W → Runtime W) pc r :
  inv r → pc_of c r = Some pc → (∀ w', w = Some w' → retired w' r) →
  (∀ r' fresh, pc_of c r' = Some pc → workerDone w r' = true →
     clientStep range history c fresh 0 r' = Some (f fresh r')) →
  (∀ r' fresh, is_Some (pc_of c r') → lower c n b (f fresh r')) →
  ∃ r', rtc step r r' ∧ lower c n b r'.
Proof.
  intros Hi Hpc Hret Hstep Hlow.
  assert (∃ r', rtc step r r' ∧ workerDone w r' = true ∧ pc_of c r' = pc_of c r) as (r1 & Hs & Hd & Epc).
  { destruct w as [w|]; [apply worker_ends; auto|by exists r]. }
  rewrite Hpc in Epc. destruct (unused_exists r1) as [fresh Hf]. exists (f fresh r1). split.
  - eapply rtc_r; [exact Hs|]. eapply step_client; [exact Hf|by apply Hstep].
  - apply Hlow. by rewrite Epc.
Qed.

(** The writer reaches the message that closes the client. *)
Lemma closing_ends c cl r :
  rtClients r !! c = Some cl → clPc cl = CClosing → client_ok cl →
  ∃ r' cl', rtc step r r' ∧ rtClients r' !! c = Some cl' ∧ clPc cl' = CClosing ∧ clDone cl' = true.
Proof.
  remember (length (clQueue cl)) as n eqn:Hn. revert r cl Hn. induction n as [|n IH]; intros r cl Hn Hcl Hpc Hok.
  - exists r, cl. split_and!; try done. destruct Hok as [_ Hok]. destruct (Hok Hpc) as [?|[o Ho]]; [done|].
    by destruct (clQueue cl); [apply elem_of_nil in Ho|].
  - destruct (clDone cl) eqn:Hd; [by exists r, cl|].
    destruct (IH (onClient c (writeMessage true) r) (writeMessage true cl)) as (r' & cl' & Hs & Hrest).
    + unfold writeMessage. destruct (clQueue cl) as [|[o b] q]; [done|]. simpl in *. lia.
    + simpl. by rewrite lookup_alter_eq, Hcl.
    + by rewrite writeMessage_pc.
    + by apply writeMessage_ok.
    + exists r', cl'. split; [|done]. eapply rtc_l; [by eapply step_write|done].
Qed.
(** One step of its own lowers the rank. *)
Lemma by_client c n b f pc r :
  pc_of c r = Some pc →
  (∀ fresh, clientStep range history c fresh 0 r = Some (f fresh)) → (∀ fresh, lower c n b (f fresh)) →
  ∃ r', rtc step r r' ∧ lower c n b r'.
Proof.
  intros Hpc Hstep Hlow. destruct (unused_exists r) as [fresh Hf]. exists (f fresh). split; [|apply Hlow].
  apply rtc_once. by eapply step_client.
Qed.

Ltac at_pc :=
  match goal with
  | Hpc : pc_of ?c ?r = Some _ |- _ =>
      let cl := fresh "cl" in let Hcl := fresh "Hcl" in let E := fresh "E" in
      destruct (pc_of_Some _ _ _ Hpc) as (cl & Hcl & E); intros ?; unfold clientStep; rewrite Hcl, E; reflexivity
  end.

Lemma progress c pc r :
  inv r → pc_of c r = Some pc → rank pc ≠ 0%nat → ∃ r', rtc step r r' ∧ lower c (rank pc) (leaving pc) r'.
Proof.
  intros Hi Hpc Hn. assert (is_Some (pc_of c r)) as Hex by by eexists.
  pose proof (fun w => awaits_retired c pc w r Hi Hpc) as Hret.
  assert (∀ r', pc_of c r' = Some pc → ∃ cl, rtClients r' !! c = Some cl ∧ clPc cl = pc) as Hat
    by (intros r'; apply pc_of_Some).
  destruct pc as [|config saved mqtt|requestID ep persist|s requestID ep persist old|s requestID ep persist w
    |s requestID w|s requestID w items|s requestID w p|s requestID w|s requestID w| | | |[owner w|owner w|owner]|];
    try done.
  - eapply (by_client c); [exact Hpc|at_pc|]. intros fresh. by apply configureLocked_lower.
  - eapply (by_client c); [exact Hpc|at_pc|]. intros fresh. by apply connectPLC_lower.
  - eapply (after_worker c _ _ old); [exact Hi|exact Hpc|by intros w' ->; apply Hret| |].
    + intros r' fresh Hpc' Hd. destruct (Hat r' Hpc') as (cl & Hcl & E). unfold clientStep. rewrite Hcl, E, Hd. reflexivity.
    + intros r' fresh. apply connectCreate_lower.
  - eapply (by_client c); [exact Hpc|at_pc|]. intros fresh. by apply connectAttach_lower.
  - eapply (after_worker c _ _ w); [exact Hi|exact Hpc|by intros w' ->; apply Hret| |].
    + intros r' fresh Hpc' Hd. destruct (Hat r' Hpc') as (cl & Hcl & E). unfold clientStep. rewrite Hcl, E, Hd. reflexivity.
    + intros r' fresh. apply disconnectConfirm_lower.
  - eapply (by_client c); [exact Hpc|at_pc|]. intros fresh. apply lower_goto; [done| |done].
    destruct (updateFromWorker _ w items r) as [p|]; simpl; [|lia]. destruct p; simpl; lia.
  - eapply (by_client c); [exact Hpc|at_pc|]. intros fresh. by apply disconnectApply_lower.
  - eapply (by_client c); [exact Hpc|at_pc|]. intros fresh. apply lower_goto; [|simpl; lia|done].
    by rewrite (proj1 (notifyPLC_frame c _ w "disconnected" r)).
  - eapply (by_client c); [exact Hpc|at_pc|]. intros fresh. apply lower_goto; [|simpl; lia|done].
    rewrite pc_of_enqueue. by case_match.
  - destruct (Hat r Hpc) as (cl & Hcl & E).
    destruct (closing_ends c cl r Hcl E (iv_client _ _ Hi c cl Hcl)) as (r1 & cl1 & Hs & Hcl1 & E1 & Hd).
    destruct (unused_exists r1) as [fresh Hf]. exists (goto c CLeaving r1). split.
    + eapply rtc_r; [exact Hs|]. eapply (step_client _ _ _ _ _ _ _ c fresh 0); [exact Hf|]. unfold clientStep.
      by rewrite Hcl1, E1, Hd.
    + apply lower_goto; [unfold pc_of; by rewrite Hcl1|simpl; lia|done].
  - eapply (by_client c); [exact Hpc|at_pc|]. intros fresh. apply lower_goto; [by rewrite pc_of_onClient|destruct (isOwner c _); simpl; lia|].
    by destruct (isOwner c _).
  - eapply (by_client c); [exact Hpc|at_pc|]. intros fresh. apply lower_goto; [|simpl; lia|done].
    change (is_Some (pc_of c (stopBegin r).2)). by rewrite stopBegin_pc.
  - eapply (by_client c); [exact Hpc|at_pc|]. intros fresh. apply lower_goto; [|simpl; lia|done].
    rewrite pc_of_cancelWorker. unfold cancelScan. by destruct (rtScanCancel r).
  - eapply (after_worker c _ _ w (fun _ r => goto c (CStopping (StopClose owner)) (withStore (Clear (rtStore r)) r)));
      [exact Hi|exact Hpc|by intros w' ->; apply Hret| |].
    + intros r' fresh Hpc' Hd. destruct (Hat r' Hpc') as (cl & Hcl & E). unfold clientStep. rewrite Hcl, E. simpl stopStep.
      by rewrite Hd.
    + intros r' fresh Hex'. by apply lower_goto; [|simpl; lia|done].
  - eapply (by_client c); [exact Hpc|at_pc|]. intros fresh. apply lower_goto; [|simpl; lia|done].
    destruct owner; [|done]. by rewrite pc_of_onClient.
Qed.

Lemma inv_steps r r' : inv r → rtc step r r' → inv r'.
Proof. intros Hi. induction 1 as [|r1 r2 r3 Hstep _ IH]; [done|]. apply IH. by eapply inv_step. Qed.

Lemma client_settles c pc r :
  inv r → pc_of c r = Some pc →
  ∃ r' pc', rtc step r r' ∧ pc_of c r' = Some pc' ∧ rank pc' = 0%nat ∧ (leaving pc = true → leaving pc' = true).
Proof.
  remember (rank pc) as n eqn:Hn. revert r pc Hn. induction (lt_wf n) as [n _ IH]. intros r pc -> Hi Hpc.
  destruct (decide (rank pc = 0%nat)) as [E|E]; [by exists r, pc|].
  destruct (progress c pc r Hi Hpc E) as (r1 & Hs & pc1 & Hpc1 & Hlt & Hlv).
  destruct (IH _ Hlt r1 pc1 eq_refl) as (r2 & pc2 & Hs2 & ? & ? & ?); [by eapply inv_steps|done|].
  exists r2, pc2. split_and!; [by etrans|done|done|auto].
Qed.
End live.
