(* ===== verification/HmiTable.v ===== *)
(** * Which point table the store holds

    The point store and the session are changed under different locks.  The
    [view] of a runtime is what matters to their agreement: the store's
    definitions, the session, the configuration of every session, and who is
    inside [StopSession] before its [store.Clear()].  Every step leaves the view
    alone except the three of [view_step]. *)

From S2P Require Import Prelude GoValue RuntimeConfig PointStore Storage Worker PlcScan Hmi HmiSteps HmiProofs HmiInv HmiReach.

(** A [StopSession] that has not cleared the store yet. *)
Definition clearing (s : stopping) : bool := match s with StopClose _ => false | _ => true end.

Definition clearing_pc (pc : client_pc) : bool := match pc with CStopping s => clearing s | _ => false end.

Section table.
Context {W : Type} `{PlcWorker W}.
Variables (validTime : string → bool) (urlParse : string → option url) (isIP : string → bool)
  (range : gmap string PointValue → list (string * PointValue)) (history : bool).
Implicit Types r : Runtime W.

Record same_view r r' : Prop := {
  vw_table : sDefinitions (rtStore r') = sDefinitions (rtStore r);
  vw_session : rtSession r' = rtSession r;
  vw_config : ∀ s, seConfig <$> rtSessions r' !! s = seConfig <$> rtSessions r !! s;
  vw_client : ∀ c, default false (clearing_pc <$> pc_of c r') = default false (clearing_pc <$> pc_of c r);
  vw_serve : default false (clearing <$> rtServe r') = default false (clearing <$> rtServe r);
  vw_ok : store_ok (rtStore r) → store_ok (rtStore r')
}.

Lemma view_refl r : same_view r r.
Proof. by split. Qed.

Lemma view_trans r1 r2 r3 : same_view r1 r2 → same_view r2 r3 → same_view r1 r3.
Proof. intros [] []. split; [intros; etrans; eauto..|auto]. Qed.

(** ** The pieces that keep the view *)

Lemma view_onClient c f r : (∀ cl, clPc (f cl) = clPc cl) → same_view r (onClient c f r).
Proof. intros Hf. split; try done. intros c'. by rewrite pc_of_onClient. Qed.

Lemma view_enqueue c o b r : same_view r (enqueue c o b r).
Proof. apply view_onClient, enqueueMessage_pc. Qed.

Lemma view_onSession s f r : (∀ se, seConfig (f se) = seConfig se) → same_view r (onSession s f r).
Proof.
  intros Hf. split; try done. intros s'. simpl. destruct (decide (s = s')) as [->|Hne].
  - rewrite lookup_alter_eq. destruct (rtSessions r !! s'); [|done]. simpl. by rewrite Hf.
  - by rewrite lookup_alter_ne.
Qed.

Lemma view_goto c pc0 pc r : pc_of c r = Some pc0 → clearing_pc pc = clearing_pc pc0 → same_view r (goto c pc r).
Proof.
  intros Hpc E. split; try done. intros c'. destruct (decide (c' = c)) as [->|Hne].
  - rewrite Hpc. apply pc_of_Some in Hpc as (cl & Hcl & _). unfold pc_of. simpl. rewrite lookup_alter_eq, Hcl. simpl.
    by rewrite E.
  - unfold pc_of. simpl. by rewrite lookup_alter_ne.
Qed.

Lemma view_onWorker w f r : same_view r (onWorker w f r).
Proof. by split. Qed.

Lemma view_cancelWorker w r : same_view r (cancelWorker w r).
Proof. by destruct w. Qed.

Lemma view_store st r :
  sDefinitions st = sDefinitions (rtStore r) → (store_ok (rtStore r) → store_ok st) → same_view r (withStore st r).
Proof. by split. Qed.

Lemma view_with r r' :
  rtStore r' = rtStore r → rtSession r' = rtSession r → rtSessions r' = rtSessions r →
  rtClients r' = rtClients r → rtServe r' = rtServe r → same_view r r'.
Proof. intros E1 E2 E3 E4 E5. split; unfold pc_of; by rewrite ?E1, ?E2, ?E3, ?E4, ?E5. Qed.

Lemma view_cancelScan r : same_view r (cancelScan r).
Proof. unfold cancelScan. destruct (rtScanCancel r); by apply view_with. Qed.

Lemma view_current f r : (∀ se, seConfig (f se) = seConfig se) → same_view r (onCurrent f r).
Proof. intros Hf. unfold onCurrent. destruct (rtSession r); [by apply view_onSession|apply view_refl]. Qed.
End table.

(** Peel the outermost change off the right-hand state. *)
Ltac view_peel :=
  match goal with
  | |- same_view ?r ?r => apply view_refl
  | |- same_view _ (enqueue _ _ _ ?x) => apply (view_trans _ x); [|apply view_enqueue]
  | |- same_view _ (onWorker _ _ ?x) => apply (view_trans _ x); [|apply view_onWorker]
  | |- same_view _ (cancelWorker _ ?x) => apply (view_trans _ x); [|apply view_cancelWorker]
  | |- same_view _ (onSession _ _ ?x) => apply (view_trans _ x); [|by apply view_onSession]
  | |- same_view _ (withDisk _ ?x) => apply (view_trans _ x); [|by apply view_with]
  | |- same_view _ (withScans _ _ ?x) => apply (view_trans _ x); [|by apply view_with]
  | |- same_view _ (withFinishes _ ?x) => apply (view_trans _ x); [|by apply view_with]
  | |- same_view _ (withWorkers _ ?x) => apply (view_trans _ x); [|by apply view_with]
  | |- same_view _ (withReplies _ ?x) => apply (view_trans _ x); [|by apply view_with]
  | |- same_view _ (withAlarms _ _ ?x) => apply (view_trans _ x); [|by apply view_with]
  | |- same_view _ (if ?b then _ else _) => destruct b
  | |- same_view _ (match ?b with _ => _ end) => destruct b
  end.

Section effects.
Context {W : Type} `{PlcWorker W}.
Variables (validTime : string → bool) (urlParse : string → option url) (isIP : string → bool)
  (range : gmap string PointValue → list (string * PointValue)) (history : bool).
Implicit Types r : Runtime W.

(** ** Operations that keep the view *)

Lemma view_recordAlarmChanges s changed r : same_view r (recordAlarmChanges range history s changed r).2.
Proof. unfold recordAlarmChanges. repeat case_match; simpl; by repeat view_peel. Qed.

Lemma view_publishStep stored p r : same_view r (publishStep range history stored p r).2.
Proof.
  destruct p as [s owner b items|s owner b changed|s changed|s records]; simpl.
  - destruct (Update items (rtStore r)) as [res st] eqn:E.
    assert (sDefinitions st = sDefinitions (rtStore r)) by (by eapply updateLoop_defs).
    assert (store_ok (rtStore r) → store_ok st) by (intros Hs; by eapply updateLoop_ok).
    destruct res; by apply view_store.
  - by repeat view_peel.
  - pose proof (view_recordAlarmChanges s changed r). by destruct (recordAlarmChanges range history s changed r).
  - by repeat view_peel.
Qed.

Lemma view_finishPLCConnect f ready disconnected r : same_view r (finishPLCConnect f ready disconnected r).
Proof.
  unfold finishPLCConnect. destruct (current (fiSession f) (fiWorker f) r) as [se|]; [|apply view_refl].
  case_match; [apply view_refl|].
  assert (∃ saved disk, (if ready && fiPersist f then savePLCEndpoint (fiEndpoint f) r else (true, r)) =
            (saved, withDisk disk r)) as (saved & disk & ->).
  { case_match; [apply savePLCEndpoint_frame|]. exists true, (rtDisk r). by destruct r. }
  by repeat view_peel.
Qed.

Lemma view_notifyPLC s w state r : same_view r (notifyPLC s w state r).
Proof. unfold notifyPLC. by repeat view_peel. Qed.

Lemma view_scanDone n outcome r : same_view r (scanDone n outcome r).
Proof. unfold scanDone. by repeat view_peel. Qed.

Lemma view_handlePLCScan c n e a port unitID r : same_view r (handlePLCScan validTime c n e a port unitID r).
Proof. unfold handlePLCScan. by repeat view_peel. Qed.

Lemma view_handlePointCommand c ticket e pointID action value r :
  same_view r (handlePointCommand validTime c ticket e pointID action value r).
Proof. unfold handlePointCommand. by repeat (view_peel || (cbv zeta; view_peel)). Qed.

(** A move between two places outside [StopSession]'s clearing part. *)
Lemma view_move c pc0 pc r r' :
  same_view r r' → pc_of c r = Some pc0 → pc_of c r' = pc_of c r → clearing_pc pc0 = false → clearing_pc pc = false →
  same_view r (goto c pc r').
Proof. intros Hv Hpc E E0 E1. apply (view_trans _ r'); [done|]. apply (view_goto c pc0); congruence. Qed.

Lemma view_rejectConfigure c pc0 r :
  pc_of c r = Some pc0 → clearing_pc pc0 = false → same_view r (rejectConfigure c r).
Proof. intros Hpc E. apply (view_move c pc0); [apply view_enqueue|done|apply pc_of_enqueue|done|done]. Qed.

Lemma view_loadPLCEndpoint r : same_view r (loadPLCEndpoint urlParse isIP r).2.
Proof. unfold loadPLCEndpoint. repeat case_match; simplify_eq/=; by repeat view_peel. Qed.

Lemma view_configure c e interval points mqtt b r :
  pc_of c r = Some (CReading b) → same_view r (configure validTime urlParse isIP c e interval points mqtt r).
Proof.
  intros Hpc. unfold configure.
  assert (∀ r', same_view r r' → pc_of c r' = Some (CReading b) → same_view r (rejectConfigure c r')) as Hrej.
  { intros r' Hv Hpc'. apply (view_trans _ r'); [done|]. by apply (view_rejectConfigure c (CReading b)). }
  case_match; [by apply Hrej; [apply view_refl|]|]. destruct (Normalize _) as [config|]; [|by apply Hrej; [apply view_refl|]].
  pose proof (view_loadPLCEndpoint r) as Hv. pose proof (loadPLCEndpoint_pc urlParse isIP c r) as Hp.
  destruct (loadPLCEndpoint urlParse isIP r) as [[saved|] r']; simpl in *; [|apply Hrej; congruence].
  destruct mqtt as [mqtt|]; [|apply Hrej; congruence]. by apply (view_move c (CReading b)).
Qed.

Lemma view_connectPLC c requestID ep persist r :
  pc_of c r = Some (CConnect requestID ep persist) → same_view r (connectPLC c requestID ep persist r).
Proof.
  intros Hpc. unfold connectPLC.
  repeat case_match; apply (view_move c (CConnect requestID ep persist)); try done; try apply pc_of_enqueue;
    try (by rewrite pc_of_cancelWorker); by repeat view_peel.
Qed.

Lemma view_connectCreate c s w requestID ep persist old r :
  pc_of c r = Some (CConnectWait s requestID ep persist old) → same_view r (connectCreate c s w requestID ep persist r).
Proof.
  intros Hpc. unfold connectCreate.
  assert (same_view r (withStore (ClearValues (rtStore r)) r)) as Hv by by apply view_store.
  repeat case_match; apply (view_move c (CConnectWait s requestID ep persist old)); try done.
  all: try (by rewrite pc_of_enqueue).
  all: apply (view_trans _ (withStore (ClearValues (rtStore r)) r)); [done|]; by repeat view_peel.
Qed.

Lemma view_connectAttach c s w requestID ep persist r :
  pc_of c r = Some (CConnectAttach s requestID ep persist w) → same_view r (connectAttach c s w requestID ep persist r).
Proof.
  intros Hpc. unfold connectAttach. case_match; apply (view_move c (CConnectAttach s requestID ep persist w)); try done.
  - by repeat view_peel.
  - change (pc_of c (enqueue c (OConnection (DeviceID ep) "connecting") false r) = pc_of c r). apply pc_of_enqueue.
Qed.

Lemma view_handlePLCConnect c e deviceID b r :
  pc_of c r = Some (CReading b) → same_view r (handlePLCConnect validTime urlParse isIP c e deviceID r).
Proof.
  intros Hpc. unfold handlePLCConnect. repeat case_match; try apply view_enqueue. by apply (view_goto c (CReading b)).
Qed.

Lemma view_handlePLCDisconnect c e b r :
  pc_of c r = Some (CReading b) → same_view r (handlePLCDisconnect validTime c e r).
Proof.
  intros Hpc. unfold handlePLCDisconnect. repeat case_match; try apply view_enqueue.
  apply (view_move c (CReading b)); [by repeat view_peel|done|by rewrite pc_of_cancelWorker|done|done].
Qed.

Lemma view_disconnectConfirm c s requestID w r :
  pc_of c r = Some (CDisconnectWait s requestID w) → same_view r (disconnectConfirm range c s requestID w r).
Proof.
  intros Hpc. unfold disconnectConfirm. destruct w as [w|]; [|by eapply view_move; [apply view_refl|..]].
  destruct (rtWorkers r !! w) as [cell|]; [|by eapply view_move; [apply view_refl|..]].
  destruct (wConfirm (wcState cell)) as [stale st].
  eapply view_move; [apply view_onWorker|exact Hpc|done|done|by destruct stale].
Qed.

Lemma view_serveWS c fresh configured mqtt m r :
  pc_of c r = Some (CReading configured) → same_view r (serveWS validTime urlParse isIP c fresh configured mqtt m r).
Proof.
  intros Hpc. unfold serveWS.
  assert (same_view r (goto c CClosing (enqueue c (OError "" "INVALID_REQUEST") true r))) as Hlast
    by (apply (view_move c (CReading configured)); [apply view_enqueue|done|apply pc_of_enqueue|done|done]).
  destruct configured, m; simpl; try case_match;
    eauto using view_enqueue, view_configure, view_handlePLCScan, view_handlePLCConnect, view_handlePLCDisconnect,
      view_handlePointCommand.
Qed.
End effects.

Section tables.
Context {W : Type} `{PlcWorker W}.
Variables (validTime : string → bool) (urlParse : string → option url) (isIP : string → bool)
  (range : gmap string PointValue → list (string * PointValue)) (history : bool).
Implicit Types r : Runtime W.

#[local] Abbreviation step := (step validTime urlParse isIP range history).

(** Somebody is between taking the session away and clearing the store. *)
Definition stop_clearing r : Prop :=
  (∃ c, default false (clearing_pc <$> pc_of c r) = true) ∨ default false (clearing <$> rtServe r) = true.

(** The definitions [Replace] makes of a table. *)
Definition table_of (config : Config) (definitions : gmap string PointDefinition) : Prop :=
  ∃ st, Replace config New = (Ok tt, st) ∧ sDefinitions st = definitions.

Definition same_configs r r' : Prop := ∀ s, seConfig <$> rtSessions r' !! s = seConfig <$> rtSessions r !! s.

Inductive view_step r r' : Prop :=
| vs_same : same_view r r' → view_step r r'
| vs_install s config se :
    rtSession r = None → rtSession r' = Some s → rtSessions r' !! s = Some se → seConfig se = config →
    table_of config (sDefinitions (rtStore r')) → (stop_clearing r' → stop_clearing r) →
    store_ok (rtStore r') → view_step r r'
| vs_stop :
    rtSession r' = None → stop_clearing r' → rtStore r' = rtStore r → view_step r r'
| vs_clear :
    stop_clearing r → rtSession r' = rtSession r → sDefinitions (rtStore r') = ∅ →
    store_ok (rtStore r') → view_step r r'.

Lemma view_clearing r r' : same_view r r' → stop_clearing r' → stop_clearing r.
Proof. intros Hv [[c Hc]|Hs]; [left; exists c|right]; [by rewrite <-(vw_client _ _ Hv)|by rewrite <-(vw_serve _ _ Hv)]. Qed.

Lemma Replace_table config s st : Replace config s = (Ok tt, st) → table_of config (sDefinitions st).
Proof. unfold table_of, Replace. destruct (Normalize config); [|done]. intros [= <-]. by eexists. Qed.

Lemma view_configureLocked c s config saved mqtt r :
  inv r → pc_of c r = Some (CConfiguring config saved mqtt) → rtSessions r !! s = None →
  view_step r (configureLocked c s config saved mqtt r).
Proof.
  intros Hi Hpc Hs. pose proof (view_rejectConfigure c _ r Hpc eq_refl) as Hrej.
  assert (rtOwner r ≠ Some c) as Hno by (intros Ho; by apply (owner_pc c _ r Hi Hpc)).
  unfold configureLocked. destruct (rtOwner r) as [owner|] eqn:Ho.
  { case_bool_decide; [congruence|by apply vs_same]. }
  unfold installSession. destruct (Replace config (rtStore r)) as [[[]|code] st] eqn:E; [|by apply vs_same].
  set (se := mkSession _ _ _ _ _ _ _ _). eapply (vs_install _ _ s config se); try done.
  - by apply (iv_owner _ _ Hi).
  - simpl. by rewrite lookup_insert_eq.
  - simpl. by eapply Replace_table.
  - intros [[c' Hc']|?]; [left|by right]. exists c'. destruct (decide (c' = c)) as [->|Hne].
    + apply pc_of_Some in Hpc as (cl & Hcl & _). unfold pc_of in Hc'. simpl in Hc'.
      rewrite lookup_alter_eq, lookup_alter_eq, Hcl in Hc'. simpl in Hc'. by destruct saved.
    + revert Hc'. unfold pc_of. simpl. by rewrite !lookup_alter_ne by done.
  - simpl. unfold Replace in E. destruct (Normalize config); [|done]. by injection E as <-.
Qed.

Lemma view_stopStep_client c s next r r' :
  pc_of c r = Some (CStopping s) → stopStep s r = Some (next, r') →
  view_step r (goto c (match next with Some s => CStopping s | None => CGone end) r').
Proof.
  intros Hpc Hstep. destruct (stopStep_frame c s next r r' Hstep) as (Ep & _ & _).
  destruct s as [owner w|owner w|owner]; simpl in Hstep.
  - injection Hstep as <- <-. apply vs_same. apply (view_trans _ (cancelWorker w (cancelScan r))).
    + apply (view_trans _ (cancelScan r)); [apply view_cancelScan|apply view_cancelWorker].
    + by apply (view_goto c (CStopping (StopCancel owner w))); [congruence|].
  - case_match; [|done]. injection Hstep as <- <-. apply vs_clear; try done.
    left. exists c. by rewrite Hpc.
  - injection Hstep as <- <-. apply vs_same. eapply view_trans;
      [|apply (view_goto c (CStopping (StopClose owner))); [congruence|done]].
    destruct owner; [by apply view_onClient|apply view_refl].
Qed.

Lemma view_stopStep_serve s next r r' :
  rtServe r = Some s → stopStep s r = Some (next, r') → view_step r (withServe next r').
Proof.
  intros Hs Hstep. destruct s as [owner w|owner w|owner]; simpl in Hstep.
  - injection Hstep as <- <-. apply vs_same. apply (view_trans _ (cancelWorker w (cancelScan r))).
    + apply (view_trans _ (cancelScan r)); [apply view_cancelScan|apply view_cancelWorker].
    + split; try done. simpl. destruct w; simpl; unfold cancelScan; destruct (rtScanCancel r); simpl; by rewrite Hs.
  - case_match; [|done]. injection Hstep as <- <-. apply vs_clear; try done. right. by rewrite Hs.
  - injection Hstep as <- <-. apply vs_same. destruct owner as [c|].
    + apply (view_trans _ (onClient c closeClient r)); [by apply view_onClient|]. split; try done. simpl. by rewrite Hs.
    + split; try done. simpl. by rewrite Hs.
Qed.

Lemma view_clientStep c fresh stored r r' :
  inv r → unused fresh r → clientStep range history c fresh stored r = Some r' → view_step r r'.
Proof.
  intros Hi (Hns & _) Hstep. unfold clientStep in Hstep.
  destruct (rtClients r !! c) as [cl|] eqn:Hcl; [|done].
  assert (pc_of c r = Some (clPc cl)) as Hpc by (unfold pc_of; by rewrite Hcl).
  destruct (clPc cl) eqn:E; try discriminate Hstep; try (injection Hstep as <-).
  - by apply view_configureLocked.
  - apply vs_same. by apply view_connectPLC.
  - case_match; [|done]. injection Hstep as <-. apply vs_same. by eapply view_connectCreate.
  - apply vs_same. by apply view_connectAttach.
  - case_match; [|done]. injection Hstep as <-. apply vs_same. by apply view_disconnectConfirm.
  - apply vs_same. unfold disconnectPublish. eapply (view_move c); [apply view_refl|exact Hpc|done|done|by case_match].
  - apply vs_same. unfold disconnectApply. pose proof (view_publishStep range history stored pub r) as Hv.
    pose proof (publishStep_pc range history c stored pub r) as Ep.
    destruct (publishStep range history stored pub r) as [next r1].
    eapply (view_move c); [exact Hv|exact Hpc|exact Ep|done|by destruct next as [|[]]].
  - apply vs_same. unfold disconnectNotify. eapply (view_move c); [apply view_notifyPLC|exact Hpc|apply notifyPLC_frame|done|done].
  - apply vs_same. unfold disconnectEnd. eapply (view_move c); [|exact Hpc| |done|done].
    + by repeat view_peel.
    + rewrite pc_of_enqueue. by case_match.
  - case_match; [|done]. injection Hstep as <-. apply vs_same. by eapply (view_move c); [apply view_refl|exact Hpc|..].
  - apply vs_same. eapply (view_move c); [by apply (view_onClient c closeClient)|exact Hpc|by apply pc_of_onClient|done|].
    by case_match.
  - apply vs_stop; [done| |simpl; unfold onCurrent; by destruct (rtSession r)]. left. exists c. unfold pc_of.
    simpl. unfold onCurrent. destruct (rtSession r); simpl; by rewrite lookup_alter_eq, Hcl.
  - destruct (stopStep s r) as [[[s'|] r1]|] eqn:Hs; [..|done]; injection Hstep as <-.
    + exact (view_stopStep_client c s (Some s') r r1 Hpc Hs).
    + exact (view_stopStep_client c s None r r1 Hpc Hs).
Qed.

Lemma view_of_step r r' : inv r → step r r' → view_step r r'.
Proof.
  intros Hi Hstep.
  destruct Hstep as
    [r c Hno|r c cl configured fresh mqtt m Hcl Hpc _|r c cl configured Hcl Hpc|r r' c fresh stored Hfr Hst|
     r c cl sent Hcl _|r Hno|r r' s next Hs Hst|r w cell st Hrun _|r w cell ok Hrun _|r w cell items p Hrun _|
     r r' w cell stored p next Hw Hp Hpub|r w cell state Hrun _|r w cell Hrun _|r before f after cell ok Hf Hw Hok|
     r n sc outcome Hn _|r before c requestID w ticket result after Hr]; try (by apply vs_same; repeat view_peel).
  - apply vs_same. split; try done. intros c'. unfold pc_of. simpl. destruct (decide (c' = c)) as [->|Hne].
    + by rewrite lookup_insert_eq, Hno.
    + by rewrite lookup_insert_ne.
  - apply vs_same, view_serveWS. by eapply pc_lookup.
  - apply vs_same. eapply (view_move c); [apply view_refl|by eapply pc_lookup|done|done|done].
  - by eapply view_clientStep.
  - apply vs_same, view_onClient, writeMessage_pc.
  - apply vs_stop; [done|by right|simpl; unfold onCurrent; by destruct (rtSession r)].
  - by eapply view_stopStep_serve.
  - apply vs_same. pose proof (view_publishStep range history stored p r) as Hv. rewrite Hpub in Hv.
    by repeat view_peel.
  - apply vs_same, view_notifyPLC.
  - apply vs_same. eapply view_trans; [|apply view_finishPLCConnect]. by repeat view_peel.
  - apply vs_same, view_scanDone.
Qed.

(** ** Orderly runs: no new session while a [StopSession] has not cleared *)

Definition orderly r r' : Prop := step r r' ∧ (rtSession r = None → rtSession r' ≠ None → ¬ stop_clearing r).

Inductive orderly_run (disk : option Storage.Store) : Runtime W → Prop :=
| or_start : orderly_run disk (NewLocalRuntime disk)
| or_step r r' : orderly_run disk r → orderly r r' → orderly_run disk r'.

Lemma orderly_reachable disk r : orderly_run disk r → reachable validTime urlParse isIP range history disk r.
Proof. induction 1 as [|r r' _ IH [Hs _]]; [constructor|by eapply reach_step]. Qed.

Record table_inv r : Prop := {
  ti_active : ∀ s se, rtSession r = Some s → rtSessions r !! s = Some se →
    table_of (seConfig se) (sDefinitions (rtStore r));
  ti_quiet : rtSession r ≠ None → ¬ stop_clearing r;
  ti_idle : rtSession r = None → ¬ stop_clearing r → sDefinitions (rtStore r) = ∅
}.

Lemma table_inv_step r r' : inv r → table_inv r → orderly r r' → table_inv r'.
Proof.
  intros Hi [Ha Hq Hid] [Hstep Hord]. apply (view_of_step r r' Hi) in Hstep as [Hv|s config se Hno Hs Hse <- Ht Hc _|Hno Hc _|Hc Hs Hd _].
  - assert (stop_clearing r → stop_clearing r') as Hback.
    { intros [[c Hc]|Hc]; [left; exists c; by rewrite (vw_client _ _ Hv)|right; by rewrite (vw_serve _ _ Hv)]. }
    pose proof (view_clearing r r' Hv) as Hfwd. destruct Hv as [Et Es Ec _ _ _]. split; rewrite ?Et, ?Es; [|tauto..].
    intros s se Hss Hse. specialize (Ec s). rewrite Hse in Ec.
    destruct (rtSessions r !! s) as [se0|] eqn:E0; [|done]. simpl in Ec. injection Ec as ->. by eapply Ha.
  - assert (¬ stop_clearing r') as Hnc by (intros ?; apply Hord; [done|congruence|auto]).
    split; [|done|congruence]. intros s' se' Hs' Hse'. assert (s' = s) as -> by congruence. assert (se' = se) as -> by congruence. done.
  - split; congruence.
  - assert (rtSession r = None) as Hn by (destruct (rtSession r); [destruct Hq; [done|done]|done]).
    split; congruence.
Qed.

(** In every run the values in the store are values its table allows. *)
Lemma reachable_store_ok disk r :
  reachable validTime urlParse isIP range history disk r → store_ok (rtStore r).
Proof.
  induction 1 as [|r r' Hr IH Hs]; [done|].
  destruct (view_of_step r r') as [Hv|?????????? Hok|?? E|??? Hok];
    [by eapply reachable_inv|done|by apply (vw_ok _ _ Hv)|done|by rewrite E|done].
Qed.

Lemma orderly_table disk r : orderly_run disk r → table_inv r.
Proof.
  induction 1 as [|r r' Hr IH Hs].
  - split; simpl; try done.
  - apply (table_inv_step r r'); [|done|done]. eapply reachable_inv. by apply orderly_reachable.
Qed.
End tables.
