(* ===== verification/HmiRoute.v ===== *)
(** * What the router decides: commands it lets through, alarms it records

    [handlePointCommand] checks a command against the point store, the worker
    checks it again against its plan.  When both were made of one table, a
    command for a readable point that the router has let through is not refused
    by the worker: what can still go wrong is the PLC.

    [recordAlarmChanges]: a session remembers which alarms are active; a record
    is made for each change of that memory. *)

From S2P Require Import Prelude GoValue RuntimeConfig PointStore WorkerPlan WorkerCodec Worker Storage ScanStore PlcScan Hmi.

(** ** What a checked table says about a writable point *)

Lemma writable_side d :
  validatePoint d = Ok tt → pAccess d ≠ "read" → validateWriteMethod d = Ok tt ∧ validateWrite (pType d) (pWrite d) = Ok tt.
Proof.
  rewrite validatePoint_ok. intros (_ & _ & _ & _ & _ & _ & Hw & _) Ha. unfold validateWriteSide in Hw.
  rewrite (proj2 (String.eqb_neq _ _) Ha) in Hw. do 2 (case_match; [done|]).
  apply rbind_ok in Hw as ([] & ? & ?). done.
Qed.

Lemma write_values ty w :
  validateWrite ty (Some w) = Ok tt → wMode w ≠ "set" →
  ValidateValue ty (wActiveValue w) = Ok tt ∧ ValidateValue ty (wDefaultValue w) = Ok tt.
Proof.
  unfold validateWrite. intros Hw Hm. case_match; [done|]. rewrite (proj2 (String.eqb_neq _ _) Hm) in Hw.
  apply rbind_ok in Hw as ([] & ?%wrapErr_ok & Hw). by apply rbind_ok in Hw as ([] & ?%wrapErr_ok & _).
Qed.

Lemma bool_value v : ValidateValue "bool" v = Ok tt → ∃ b, as_bool v = Some b.
Proof. destruct v; try done. intros _. by eexists. Qed.

(** A writable number has words for every value of its type. *)
Lemma number_words d v :
  validatePoint d = Ok tt → pAccess d ≠ "read" → pType d ≠ "bool" → ValidateValue (pType d) v = Ok tt →
  (pWriteMethod d = "fc06" ∨ pWriteMethod d = "fc10") ∧ ∃ ws, numericWords d v = Ok ws.
Proof.
  intros Hd Ha Hb Hv. destruct (writable_side d Hd Ha) as [Hm _].
  apply validatePoint_ok in Hd as (_ & _ & _ & _ & _ & Hl & _).
  unfold validateWriteMethod in Hm. rewrite (proj2 (String.eqb_neq _ _) Hb) in Hm.
  unfold validateRegisterLayout in Hl. unfold numericWords. rewrite Hv. simpl.
  assert (∀ ty, pType d = ty → ty = "int16" ∨ ty = "uint16" ∨ ty = "int32" ∨ ty = "float32" →
    ∃ number, numericFloat64 v = Some number) as Hnum.
  { intros ty Hty Hor. rewrite Hty in Hv. destruct v; simpl; eauto; exfalso;
      destruct Hor as [->|[->|[->| ->]]]; cbn in Hv; discriminate Hv. }
  destruct (String.eqb_spec (pType d) "int16") as [E|_]; simpl in *.
  { destruct (Hnum _ E) as [number ->]; [auto|]. split; [left|by eexists].
    by destruct (String.eqb_spec (pWriteMethod d) "fc06"). }
  destruct (String.eqb_spec (pType d) "uint16") as [E|_]; simpl in *.
  { destruct (Hnum _ E) as [number ->]; [auto|]. split; [left|by eexists].
    by destruct (String.eqb_spec (pWriteMethod d) "fc06"). }
  assert (∀ ty bits, (pWordOrder d =s "low-high") || (pWordOrder d =s "high-low") = true →
    ∃ ws, splitWords ty (pWordOrder d) bits = Ok ws) as Hsplit.
  { intros ty bits. unfold splitWords. destruct (pWordOrder d =s "low-high"); [by eexists|]. simpl.
    intros ->. by eexists. }
  destruct (String.eqb_spec (pType d) "int32") as [E|_]; simpl in *.
  { destruct (Hnum _ E) as [number ->]; [auto|]. split.
    - right. by destruct (String.eqb_spec (pWriteMethod d) "fc10").
    - apply Hsplit. rewrite orb_true_r in Hl. repeat (case_match; try done). by destruct (_ =s "low-high"), (_ =s "high-low"). }
  destruct (String.eqb_spec (pType d) "float32") as [E|_]; simpl in *; [|done].
  destruct (Hnum _ E) as [number ->]; [auto|]. split.
  - right. by destruct (String.eqb_spec (pWriteMethod d) "fc10").
  - apply Hsplit. repeat (case_match; try done). by destruct (_ =s "low-high"), (_ =s "high-low").
Qed.

(** ** The worker's answers *)

(** The answers that are not about the PLC. *)
Definition refusal (code : string) : Prop :=
  code = "POINT_NOT_FOUND" ∨ code = "POINT_NOT_WRITABLE" ∨ code = "INVALID_REQUEST".

Section route.
Context {E : Type} `{WorkerEnv E}.

Lemma confirm_accepts id rp s : ¬ refusal (rCode (confirmCommand id rp s).1).
Proof.
  unfold confirmCommand, refusal. destruct (readAll s) as [[values err] s2].
  repeat (case_match; simplify_eq); simpl; intuition discriminate.
Qed.

Lemma write_accepts id a v s k :
  (∀ s2, ¬ refusal (rCode (k s2).1)) → ¬ refusal (rCode (writeThen id a v s k).1).
Proof.
  intros Hk. unfold writeThen. destruct (writeBit a v s) as [[[]|e] s2]; [apply Hk|].
  unfold refusal. simpl. intuition discriminate.
Qed.

#[local] Hint Resolve confirm_accepts write_accepts : core.

Lemma toggle_accepts id d wp rp s : ¬ refusal (rCode (executeToggle id d wp (Some rp) s).1).
Proof.
  unfold executeToggle. destruct (readAll s) as [[values err] s2].
  repeat (case_match; simplify_eq); auto; unfold refusal; simpl; intuition discriminate.
Qed.

Lemma bool_accepts d wp rp id action v s :
  validatePoint d = Ok tt → pType d = "bool" → allowsAction d action = true →
  (action = "set" → ∃ b, as_bool v = Some b) → (action = "toggle" → is_Some rp) →
  ¬ refusal (rCode (executeBool (mkCommand id action v) d wp rp s).1).
Proof.
  intros Hd Ht Hal Hset Htog. unfold allowsAction in Hal.
  destruct (String.eqb_spec (pAccess d) "read") as [|Ha]; [done|].
  destruct (pWrite d) as [w|] eqn:Hw; [|done]. destruct (writable_side d Hd Ha) as [_ Hws].
  rewrite Hw, Ht in Hws. unfold executeBool, writeOf. rewrite Hw. cbn [cmdAction cmdPointID cmdValue]. change (default (mkWriteDefinition "" VNil VNil 0) (Some w)) with w.
  destruct (String.eqb_spec action "set") as [Ea|Ea].
  { destruct (Hset Ea) as [b ->]. auto. }
  assert (wMode w ≠ "set") as Hm.
  { intros E'. rewrite E' in Hal. simpl in Hal. by destruct (String.eqb_spec action "set"). }
  destruct (write_values "bool" w Hws Hm) as [[ba Hba]%bool_value [bd Hbd]%bool_value].
  assert (action = "pulse" ∨ action = "press" ∨ action = "release" ∨ action = "toggle") as Hact.
  { rewrite (proj2 (String.eqb_neq _ _) Hm) in Hal. repeat case_match; try done;
      rewrite ?orb_true_iff, ?String.eqb_eq in Hal; tauto. }
  rewrite Hba, Hbd. destruct Hact as [->|[->|[->| ->]]]; cbn [String.eqb Ascii.eqb Bool.eqb]; cbv zeta; auto.
  destruct (Htog eq_refl) as [rp' ->]. apply toggle_accepts.
Qed.

Lemma numeric_accepts wp rp id v s :
  validatePoint (ppDefinition wp) = Ok tt → pAccess (ppDefinition wp) ≠ "read" → pType (ppDefinition wp) ≠ "bool" →
  ValidateValue (pType (ppDefinition wp)) v = Ok tt →
  ¬ refusal (rCode (executeNumeric (mkCommand id "set" v) wp rp s).1).
Proof.
  intros Hd Ha Hb Hv. unfold executeNumeric. cbn [cmdAction cmdPointID cmdValue String.eqb Ascii.eqb Bool.eqb negb].
  destruct (number_words _ v Hd Ha Hb Hv) as [Hm [ws Hws]]. unfold writeRegisters. rewrite Hws.
  destruct Hm as [-> | ->]; simpl.
  - destruct (envWriteSingle _ _ _) as [[[]|e] env]; simpl; [auto|]. unfold refusal. simpl. intuition discriminate.
  - destruct (envWriteMultiple _ _ _) as [[[]|e] env]; simpl; [auto|]. unfold refusal. simpl. intuition discriminate.
Qed.
(** What the worker's plan has for a command that the router lets through. *)
Record routed (sp : scanPlan) (d : PointDefinition) (id action : string) (v : goval) (wp : pointPlan) : Prop := {
  ro_point : ∃ p, spPoints sp !! id = Some p ∧ ppDefinition p = d;
  ro_valid : validatePoint d = Ok tt;
  ro_allowed : allowsAction d action = true;
  ro_value : action = "set" → ValidateValue (pType d) v = Ok tt;
  ro_write : spPoints sp !! pWritePoint d = Some wp;
  ro_writable : validatePoint (ppDefinition wp) = Ok tt ∧ pAccess (ppDefinition wp) ≠ "read" ∧ pType (ppDefinition wp) = pType d;
  ro_read : pAccess d = "read_write" → pReadPoint d ≠ "" ∧ is_Some (spPoints sp !! pReadPoint d);
  ro_write_only : pAccess d ≠ "read_write" → pAccess d = "write" ∧ spPoints sp !! pReadPoint d = None
}.

Lemma planned_id_not_blank sp id p : plan_ok sp → spPoints sp !! id = Some p → isBlank id = false.
Proof.
  intros Hplan Hp. destruct (pl_point _ Hplan _ _ Hp) as (<- & _ & Hv & _). by apply validatePoint_ok in Hv as (Hv & _).
Qed.

Lemma routed_plan validTime range config st0 st sp e id action value v d :
  Normalize config = Ok config → Replace config st0 = (Ok tt, st) → buildPlan range config = Ok sp →
  checkCommand validTime (sDefinitions st) e id action value = Ok v →
  sDefinitions st !! id = Some d → ∃ wp, routed sp d id action v wp.
Proof.
  intros Hn Hr Hb Hck Hd.
  pose proof (proj2 (proj1 (Normalize_ok _ _) Hn)) as Hok.
  destruct (buildPlan_ok range config sp Hok Hb) as [Hplan Hpoints].
  assert (∀ id d, table (cPoints config) !! id = Some d →
    validatePoint d = Ok tt ∧ ∃ p, spPoints sp !! id = Some p ∧ ppDefinition p = d) as Htab.
  { intros id' d' [Hin Hid]%table_lookup_Some. split; [by eapply po_valid, co_points|].
    destruct (Hpoints d' Hin) as (p & Hp & <-). exists p. by rewrite <-Hid. }
  assert (d ∈ cPoints config ∧ pPointID d = id) as [Hin Hid].
  { unfold Replace in Hr. rewrite Hn in Hr. injection Hr as <-. cbn [sDefinitions] in Hd.
    apply elem_of_list_to_map_2 in Hd. rewrite reverse_Permutation in Hd.
    by apply list_elem_of_fmap in Hd as (q & [= -> ->] & Hq). }
  destruct (Htab id d) as [Hv Hp]; [rewrite <-Hid; by apply config_lookup|].
  unfold checkCommand in Hck. rewrite Hd in Hck. case_match; [done|].
  destruct (allowsAction d action) eqn:Hal; [|done]. simpl in Hck.
  assert (pAccess d ≠ "read") as Hnr by (intros Ea; unfold allowsAction in Hal; by rewrite Ea in Hal).
  pose proof (co_points _ Hok d Hin) as [_ Hrd Hwr].
  destruct (Hwr Hnr) as (wd & Hwd & Hwacc & Hwt). destruct (Htab _ _ Hwd) as [Hwv (wp & Hwp & Hwpd)]. subst wd.
  pose proof Hv as (_ & _ & _ & Hacc & Hblank & Hwblank & _)%validatePoint_ok.
  exists wp. split; try done.
  - intros ->. simpl in Hck. destruct value as [[x|]|]; try done.
    destruct (ValidateValue (pType d) x) as [[]|] eqn:Ex; [|done]. by injection Hck as <-.
  - intros Ea. destruct Hrd as (rd & Hrd & _); [by rewrite Ea|]. destruct (Htab _ _ Hrd) as [_ (rp & Hrp & _)].
    split; [|by eexists]. intros E0. apply (planned_id_not_blank _ _ _ Hplan) in Hrp. by rewrite E0 in Hrp.
  - intros Ea. assert (pAccess d = "write") as Ew by naive_solver. split; [done|].
    destruct (spPoints sp !! pReadPoint d) as [rp|] eqn:Hrp; [|done]. apply (planned_id_not_blank _ _ _ Hplan) in Hrp.
    naive_solver congruence.
Qed.

(** The commands that the worker takes: any action on a bit and [set] on a number;
    a write-only point has no read point, not even a blank one, and is not
    toggled. *)
Definition executable (d : PointDefinition) (action : string) : Prop :=
  (pType d = "bool" ∨ action = "set") ∧ (pAccess d = "write" → pReadPoint d = "" ∧ action ≠ "toggle").

(** The router's check and the worker's agree on one table. *)
Lemma routed_accepted sp d id action v wp (s : Worker * E) :
  routed sp d id action v wp → wkPlan s.1 = sp → executable d action → ¬ refusal (rCode (execute (mkCommand id action v) s).1).
Proof.
  intros [(p & Hp & Hpd) Hv Hal Hval Hwp (Hwv & Hwa & Hwt) Hrd Hwo] Hs [Hty Hex].
  unfold execute. cbn [cmdPointID cmdAction]. rewrite Hs, Hp, Hpd, Hal, Hwp. cbn [negb].
  assert (∀ rp, (action = "toggle" → is_Some rp) →
    ¬ refusal (rCode (if pType d <>s "bool" then executeNumeric (mkCommand id action v) wp rp s
                      else executeBool (mkCommand id action v) d wp rp s).1)) as Hgo.
  { intros rp Hrp. destruct (String.eqb_spec (pType d) "bool") as [Ht|Ht]; simpl negb; cbv iota.
    - apply bool_accepts; try done. intros Ea. apply bool_value. rewrite <-Ht. auto.
    - destruct Hty as [|Ea]; [done|]. subst action. apply numeric_accepts; try done; rewrite ?Hwt; auto. }
  destruct (String.eqb_spec (pAccess d) "read_write") as [Ea|Ea].
  - destruct (Hrd Ea) as [Hne [rp Hrp]]. apply String.eqb_neq in Hne. rewrite Hne, Hrp. simpl negb. cbv iota. apply Hgo. by eexists.
  - destruct (Hwo Ea) as [Ew _]. destruct (Hex Ew) as [-> Hnt]. simpl. apply Hgo. done.
Qed.

Lemma routed_refused sp d id action v wp (s : Worker * E) :
  routed sp d id action v wp → wkPlan s.1 = sp → ¬ executable d action →
  rCode (execute (mkCommand id action v) s).1 = "INVALID_REQUEST" ∧ (execute (mkCommand id action v) s).2 = s.
Proof.
  intros [(p & Hp & Hpd) Hv Hal Hval Hwp (Hwv & Hwa & Hwt) Hrd Hwo] Hs Hne.
  unfold execute. cbn [cmdPointID cmdAction]. rewrite Hs, Hp, Hpd, Hal, Hwp. cbn [negb].
  assert (pType d ≠ "bool" → action ≠ "set" → ∀ rp,
    rCode (if pType d <>s "bool" then executeNumeric (mkCommand id action v) wp rp s
           else executeBool (mkCommand id action v) d wp rp s).1 = "INVALID_REQUEST" ∧
    (if pType d <>s "bool" then executeNumeric (mkCommand id action v) wp rp s
     else executeBool (mkCommand id action v) d wp rp s).2 = s) as Hnum.
  { intros Ht%String.eqb_neq Ha%String.eqb_neq rp. rewrite Ht. unfold executeNumeric. cbn. by rewrite Ha. }
  destruct (decide (pType d = "bool" ∨ action = "set")) as [Hty|Hty].
  - assert (pAccess d = "write" ∧ ¬ (pReadPoint d = "" ∧ action ≠ "toggle")) as [Ew Hnt].
    { unfold executable in Hne. destruct (decide (pAccess d = "write")); [|naive_solver]. split; [done|]. naive_solver. }
    assert (pAccess d ≠ "read_write") as Ea by congruence. destruct (Hwo Ea) as [_ Hnone]. rewrite Hnone.
    destruct (String.eqb_spec (pReadPoint d) "") as [E0|]; simpl negb; cbv iota; [|done].
    destruct (decide (action = "toggle")) as [->|]; [|naive_solver].
    destruct Hty as [->|]; [|done]. done.
  - assert (pType d ≠ "bool" ∧ action ≠ "set") as [Ht Ha] by naive_solver.
    destruct (pReadPoint d <>s ""); [|by apply Hnum]. by destruct (spPoints sp !! pReadPoint d); [apply Hnum|].
Qed.
End route.

(** Kinds that alternate, starting from a remembered state and ending in one. *)
Fixpoint alternating (active : bool) (kinds : list string) (final : bool) : Prop :=
  match kinds with
  | [] => active = final
  | k :: rest => k = (if active then "CLEARED" else "RAISED")%string ∧ alternating (negb active) rest final
  end.

Definition remembered (alarms : gmap string bool) (id : string) : bool := default false (alarms !! id).

Definition kindsOf (id : string) (records : list alarmRecord) : list string :=
  map arKind (filter (fun rec => arAlarmID rec = id) records).

Lemma alternating_app a b c ks ls : alternating a ks b → alternating b ls c → alternating a (ks ++ ls) c.
Proof. revert a. induction ks as [|k ks IH]; intros a; simpl; [by intros ->|]. intros [? ?] ?. eauto. Qed.

Lemma kindsOf_app id l l' : kindsOf id (l ++ l') = kindsOf id l ++ kindsOf id l'.
Proof. unfold kindsOf. by rewrite filter_app, map_app. Qed.

(** The serial numbers [n+1], [n+2], ... at 64 bits. *)
Definition serials (n : Z) (k : nat) : list Z := map (fun i => u64 (n + Z.of_nat i)) (seq 1 k).

Lemma serials_snoc n k : serials n (S k) = serials n k ++ [u64 (n + Z.of_nat (S k))].
Proof. unfold serials. rewrite seq_S, map_app. done. Qed.

Lemma u64_succ n : u64 (u64 n + 1) = u64 (n + 1).
Proof. unfold wrap. by rewrite Zplus_mod_idemp_l. Qed.

Lemma serials_app n k m : serials n (k + m) = serials n k ++ serials (u64 (n + Z.of_nat k)) m.
Proof.
  unfold serials. rewrite seq_app, map_app. f_equal.
  rewrite (Nat.add_comm 1 k), <-(fmap_add_seq k 1 m), <-list_fmap_compose. apply list_fmap_ext. intros _ i _. simpl.
  unfold wrap. rewrite Zplus_mod_idemp_l. f_equal. lia.
Qed.

Section alarms.
Variable definitions : gmap string PointDefinition.

(** One item: nothing, a memory that says the same, or a record and its memory. *)
Lemma alarmChange_cases alarms counter records id value :
  (alarmChange definitions (alarms, counter, records) (id, value) = (alarms, counter, records)) ∨
  (∃ active, remembered alarms id = active ∧
     alarmChange definitions (alarms, counter, records) (id, value) = (<[id := active]> alarms, counter, records)) ∨
  (∃ active d a, remembered alarms id = negb active ∧
     definitions !! id = Some d ∧ pAlarm d = Some a ∧ pvQuality value = "good" ∧ pvAlarmActive value = Some active ∧
     alarmChange definitions (alarms, counter, records) (id, value) =
       (<[id := active]> alarms, u64 (counter + 1),
        records ++ [mkAlarmRecord (u64 (counter + 1)) id (if active then "RAISED" else "CLEARED")
                      (aMessage a) (pvUpdatedAt value) (pvValue value)])).
Proof.
  unfold alarmChange, remembered. destruct (pvAlarmActive value) as [active|] eqn:Hv; [|by left].
  destruct (definitions !! id) as [d|] eqn:Hd; [|by left]. destruct (pAlarm d) as [a|] eqn:Ha; [|by left].
  destruct (String.eqb_spec (pvQuality value) "good") as [Hq|]; simpl; [|by left]. right.
  destruct (alarms !! id) as [previous|] eqn:Hp; simpl.
  - destruct (Bool.eqb_spec previous active) as [->|Hne]; [left; by exists active|right].
    exists active, d, a. split; [by destruct previous, active|done].
  - destruct active; simpl; [right; by exists true, d, a|left; by exists false].
Qed.

Lemma remembered_insert alarms id b id' :
  remembered (<[id := b]> alarms) id' = if decide (id = id') then b else remembered alarms id'.
Proof. unfold remembered. rewrite lookup_insert. by case_decide. Qed.

(** What the fold over a map's items, or over those of a whole session, does. *)
Lemma alarm_fold items alarms counter records :
  in_range 64 counter →
  ∃ alarms' news,
    foldl (alarmChange definitions) (alarms, counter, records) items =
      (alarms', u64 (counter + Z.of_nat (length news)), records ++ news) ∧
    map arCounter news = serials counter (length news) ∧
    (∀ id, alternating (remembered alarms id) (kindsOf id news) (remembered alarms' id)) ∧
    Forall (fun rec => ∃ d a, definitions !! arAlarmID rec = Some d ∧ pAlarm d = Some a ∧ arText rec = aMessage a) news.
Proof.
  intros Hc. induction items as [|[id value] items IH] using rev_ind.
  { exists alarms, []. simpl. rewrite app_nil_r, Z.add_0_r, wrap_id by done. done. }
  destruct IH as (alarms1 & news & E & Hn & Halt & Hall). rewrite foldl_app, E. cbn [foldl].
  destruct (alarmChange_cases alarms1 (u64 (counter + Z.of_nat (length news))) (records ++ news) id value)
    as [->|[(b & Hb & ->)|(b & d & a & Hb & Hd & Ha & _ & _ & ->)]].
  - by exists alarms1, news.
  - exists (<[id := b]> alarms1), news. split_and!; [done|done| |done]. intros id'. rewrite remembered_insert.
    case_decide as Hid; [|done]. subst id'. by rewrite <-Hb.
  - rewrite u64_succ. set (rec := mkAlarmRecord _ id _ _ _ _). exists (<[id := b]> alarms1), (news ++ [rec]).
    rewrite length_app, <-app_assoc. simpl length. split_and!.
    + f_equal. f_equal. f_equal. lia.
    + rewrite map_app, Hn, Nat.add_1_r, serials_snoc. cbn [map arCounter rec]. do 3 f_equal. lia.
    + intros id'. rewrite remembered_insert, kindsOf_app. unfold kindsOf at 2. rewrite filter_cons, filter_nil.
      cbn [arAlarmID rec]. case_decide as Hid.
      * subst id'. eapply alternating_app; [apply Halt|]. rewrite Hb. simpl. by destruct b.
      * simpl. rewrite app_nil_r. apply Halt.
    + apply Forall_app. split; [done|]. constructor; [by exists d, a|constructor].
Qed.
End alarms.

Section sessions.
Context {W : Type} `{PlcWorker W}.
Variables (range : gmap string PointValue → list (string * PointValue)).
Implicit Types r : Runtime W.

(** The changes of a session, one publication after the other. *)
Fixpoint recordAll (s : nat) (changes : list (gmap string PointValue)) r : list alarmRecord * Runtime W :=
  match changes with
  | [] => ([], r)
  | changed :: rest =>
      let '(records, r) := recordAlarmChanges range true s changed r in
      let '(more, r) := recordAll s rest r in
      (records ++ more, r)
  end.


Lemma recordAlarmChanges_current s se changed r :
  rtSession r = Some s → rtSessions r !! s = Some se → in_range 64 (rtAlarmID r) →
  ∃ alarms news r',
    recordAlarmChanges range true s changed r = (news, r') ∧
    rtSession r' = Some s ∧ rtStore r' = rtStore r ∧ rtSessions r' !! s = Some (setAlarms alarms se) ∧
    rtAlarmID r' = u64 (rtAlarmID r + Z.of_nat (length news)) ∧
    map arCounter news = serials (rtAlarmID r) (length news) ∧
    ∀ id, alternating (remembered (seAlarms se) id) (kindsOf id news) (remembered alarms id).
Proof.
  intros Hs Hse Hc. unfold recordAlarmChanges. cbn [negb]. rewrite bool_decide_eq_true_2, Hse by done.
  destruct (alarm_fold (sDefinitions (rtStore r)) (range changed) (seAlarms se) (rtAlarmID r) [] Hc)
    as (alarms & news & -> & Hn & Halt & _).
  exists alarms, news. eexists. split_and!; [done|done|done| |done|done|done]. simpl. by rewrite lookup_alter_eq, Hse.
Qed.
Lemma recordAll_alternates s changes se r :
  rtSession r = Some s → rtSessions r !! s = Some se → in_range 64 (rtAlarmID r) →
  ∃ se' news r',
    recordAll s changes r = (news, r') ∧ rtSessions r' !! s = Some se' ∧
    map arCounter news = serials (rtAlarmID r) (length news) ∧
    ∀ id, alternating (remembered (seAlarms se) id) (kindsOf id news) (remembered (seAlarms se') id).
Proof.
  revert se r. induction changes as [|changed rest IH]; intros se r Hs Hse Hc; [by exists se, [], r|].
  destruct (recordAlarmChanges_current s se changed r Hs Hse Hc)
    as (alarms & news & r1 & E & Hs1 & _ & Hse1 & Hc1 & Hn & Halt).
  destruct (IH (setAlarms alarms se) r1 Hs1 Hse1) as (se' & more & r2 & E2 & Hse2 & Hn2 & Halt2).
  { rewrite Hc1. apply wrap_range. lia. }
  exists se', (news ++ more), r2. split_and!; [simpl; by rewrite E, E2|done| |].
  - rewrite map_app, length_app, Hn, Hn2, Hc1. by rewrite serials_app.
  - intros id. rewrite kindsOf_app. by eapply alternating_app.
Qed.
End sessions.
