(* ===== verification/HmiRuns.v ===== *)
(** * Runs of the HMI runtime that can be evaluated

    The worker of [WorkerLoop] is an instance of the runtime's interface; an
    [act] names one step of [HmiSteps.step], [perform] takes it when its guard
    holds, and [play] takes a list of them.  A run that [play] finds is a run of
    the step relation. *)

From S2P Require Import Prelude GoValue RuntimeConfig PointStore Storage WorkerPlan WorkerCodec Worker WorkerLoop PlcScan Hmi HmiSteps HmiProofs HmiTable.

(** ** The real worker behind the interface *)

Section loop_worker.
Context {E : Type} `{WorkerEnv E}.
Variables (range : gmap string pointPlan → list pointPlan) (adapter : plcEndpoint → E).

(** [ConfirmDisconnected] up to its publication. *)
Definition confirmLoop (l : Loop (E := E)) : option (gmap string PointValue) * Loop (E := E) :=
  let '(w, env) := lpState l in
  if wkDisconnected w then (None, l)
  else
    let sc := staleValuesLocked (setDisconnected true w) env in
    (Some (scValues sc),
     mkLoop (lpQueue l) (lpStopping l) (lpPhase l) (lpCancelled l) (lpTimer l) (lpReady l)
       (scWorker sc, scEnv sc) (lpAdmitted l) (lpReplies l)).

Definition newPLCWorker (config : Config) (ep : plcEndpoint) : result string (Loop (E := E)) :=
  match NewWorker range config with
  | Ok w => Ok (New_ (w, adapter ep))
  | Err _ => Err "INTERNAL_ERROR"%string
  end.

Definition trySubmit (ticket : nat) (command : Command) (l : Loop (E := E)) : option Result * Loop (E := E) :=
  match TrySubmit ticket command l with
  | (Admitted_, l) => (None, l)
  | (Refused r, l) => (Some r, l)
  end.

Definition loop_worker : PlcWorker (Loop (E := E)) :=
  {| wNew := newPLCWorker;
     wTrySubmit := trySubmit;
     wDisconnected l := Worker.wkDisconnected (lpState l).1;
     wConfirm := confirmLoop;
     wStep := WorkerLoop.step |}.
End loop_worker.

(** ** Acts *)

Inductive act : Type :=
| AAccept (c : nat)
| AMessage (c fresh : nat) (mqtt : option bool) (m : inbound)
| AError (c : nat)
| AClient (c fresh stored : nat)
| AWrite (c : nat) (sent : bool)
| AReady (w : nat) (ok : bool)
| APublish (w : nat) (items : list (string * PointValue))
| APublishing (w stored : nat)
| ADone (w : nat)
| AFinish
| AScan (n : nat) (outcome : scan_outcome).

Section play.
Context {W : Type} `{PlcWorker W}.
Variables (validTime : string → bool) (urlParse : string → option url) (isIP : string → bool)
  (range : gmap string PointValue → list (string * PointValue)) (history : bool).
Implicit Types r : Runtime W.

Definition isUnused (n : nat) r : bool :=
  bool_decide (rtSessions r !! n = None) && bool_decide (n ∉ dom (rtWorkers r)) &&
  bool_decide (n ∉ dom (rtScans r)) && bool_decide (n ∉ map (fun x : nat * string * nat * nat => x.2) (rtReplies r)).

Definition runningCell (w : nat) r : option (workerCell W) :=
  match rtWorkers r !! w with
  | Some cell =>
      match wcPublishing cell with
      | None => if wcStarted cell && negb (wcDone cell) then Some cell else None
      | Some _ => None
      end
  | None => None
  end.

Definition guard_ (b : bool) (r : Runtime W) : option (Runtime W) := if b then Some r else None.

Definition perform (a : act) r : option (Runtime W) :=
  match a with
  | AAccept c =>
      guard_ (bool_decide (c ∉ dom (rtClients r)))
        (withClients (<[c := mkClient [] false [] (CReading false)]> (rtClients r)) r)
  | AMessage c fresh mqtt m =>
      match rtClients r !! c with
      | Some cl =>
          match clPc cl with
          | CReading configured =>
              guard_ (isUnused fresh r) (serveWS validTime urlParse isIP c fresh configured mqtt m r)
          | _ => None
          end
      | None => None
      end
  | AError c =>
      match rtClients r !! c with
      | Some cl => match clPc cl with CReading _ => Some (goto c CLeaving r) | _ => None end
      | None => None
      end
  | AClient c fresh stored => if isUnused fresh r then clientStep range history c fresh stored r else None
  | AWrite c sent =>
      match rtClients r !! c with
      | Some cl => guard_ (negb (clDone cl)) (onClient c (writeMessage sent) r)
      | None => None
      end
  | AReady w ok =>
      match runningCell w r with
      | Some cell => match wcReady cell with None => Some (onWorker w (setReady ok) r) | Some _ => None end
      | None => None
      end
  | APublish w items =>
      match runningCell w r with
      | Some cell =>
          match updateFromWorker (wcSession cell) w items r with
          | Some p => Some (onWorker w (setPublishing (Some p)) r)
          | None => None
          end
      | None => None
      end
  | APublishing w stored =>
      match rtWorkers r !! w with
      | Some cell =>
          match wcPublishing cell with
          | Some p =>
              let '(next, r') := publishStep range history stored p r in
              Some (onWorker w (setPublishing (match next with inl p => Some p | inr _ => None end)) r')
          | None => None
          end
      | None => None
      end
  | ADone w =>
      match runningCell w r with
      | Some cell => guard_ (wcCancelled cell) (onWorker w setDone r)
      | None => None
      end
  | AFinish =>
      match rtFinishes r with
      | f :: rest =>
          match rtWorkers r !! fiWorker f with
          | Some cell =>
              match wcReady cell with
              | Some ok => Some (finishPLCConnect f ok (wDisconnected (wcState cell)) (withFinishes rest r))
              | None => None
              end
          | None => None
          end
      | [] => None
      end
  | AScan n outcome =>
      match rtScans r !! n with
      | Some sc =>
          match outcome with
          | ScanCanceled => guard_ (scCancelled sc) (scanDone n outcome r)
          | ScanFailed => guard_ (negb (is_ok (scanAddresses (scRange sc)))) (scanDone n outcome r)
          | ScanDevices _ => None
          end
      | None => None
      end
  end.

Fixpoint play (acts : list act) r : option (Runtime W) :=
  match acts with
  | [] => Some r
  | a :: rest => match perform a r with Some r' => play rest r' | None => None end
  end.

(** ** What [play] finds is a run *)

Lemma isUnused_unused n r : isUnused n r = true → unused n r.
Proof.
  unfold isUnused. rewrite !andb_true_iff, !bool_decide_eq_true. intros [[[? Hw] Hs] Hr].
  apply not_elem_of_dom in Hw, Hs. split_and!; [done..|]. intros c requestID w Hin. apply Hr.
  apply list_elem_of_fmap. by exists (c, requestID, w, n).
Qed.

Lemma runningCell_running w cell r : runningCell w r = Some cell → running w cell r.
Proof.
  unfold runningCell, running. destruct (rtWorkers r !! w) as [cell'|]; [|done].
  destruct (wcPublishing cell') eqn:E; [done|]. case_match eqn:Hb; [|done]. intros [= <-].
  apply andb_true_iff in Hb as [? ?%negb_true_iff]. by split_and!.
Qed.

Lemma guard_Some b r r' : guard_ b r = Some r' → b = true ∧ r' = r.
Proof. destruct b; [|done]. by intros [= <-]. Qed.

Lemma perform_step a r r' : perform a r = Some r' → step validTime urlParse isIP range history r r'.
Proof.
  destruct a as [c|c fresh mqtt m|c|c fresh stored|c sent|w ok|w items|w stored|w| |n outcome]; simpl.
  - intros [Hc%bool_decide_eq_true%not_elem_of_dom ->]%guard_Some. by apply step_accept.
  - destruct (rtClients r !! c) as [cl|] eqn:Hcl; [|done]. destruct (clPc cl) eqn:E; try done.
    intros [Hf%isUnused_unused ->]%guard_Some. by eapply step_message.
  - destruct (rtClients r !! c) as [cl|] eqn:Hcl; [|done]. destruct (clPc cl) eqn:E; try done.
    intros [= <-]. by eapply step_receive_error.
  - destruct (isUnused fresh r) eqn:Hf; [|done]. intros Hc. eapply step_client; [by apply isUnused_unused|exact Hc].
  - destruct (rtClients r !! c) as [cl|] eqn:Hcl; [|done]. intros [Hd%negb_true_iff ->]%guard_Some. by eapply step_write.
  - destruct (runningCell w r) as [cell|] eqn:E; [|done]. destruct (wcReady cell) eqn:Er; [done|]. intros [= <-].
    eapply step_ready; [by apply runningCell_running|done].
  - destruct (runningCell w r) as [cell|] eqn:E; [|done]. destruct (updateFromWorker _ w items r) as [p|] eqn:Eu; [|done].
    intros [= <-]. eapply step_publish; [by apply runningCell_running|exact Eu].
  - destruct (rtWorkers r !! w) as [cell|] eqn:Hw; [|done]. destruct (wcPublishing cell) as [p|] eqn:Hp; [|done].
    destruct (publishStep range history stored p r) as [next r1] eqn:E. intros [= <-]. by eapply step_publishing.
  - destruct (runningCell w r) as [cell|] eqn:E; [|done]. intros [Hc ->]%guard_Some.
    eapply step_done; [by apply runningCell_running|done].
  - destruct (rtFinishes r) as [|f rest] eqn:Hf; [done|]. destruct (rtWorkers r !! fiWorker f) as [cell|] eqn:Hw; [|done].
    destruct (wcReady cell) as [ok|] eqn:Hok; [|done]. intros [= <-].
    by apply (step_finish _ _ _ _ _ r [] f rest cell ok).
  - destruct (rtScans r !! n) as [sc|] eqn:Hn; [|done].
    destruct outcome; [intros [? ->]%guard_Some; by eapply step_scan| |done].
    intros [Hf ->]%guard_Some. eapply step_scan; [done|]. simpl. destruct (scanAddresses (scRange sc)); [done|by eexists].
Qed.

Lemma play_reachable disk acts r r' :
  reachable validTime urlParse isIP range history disk r → play acts r = Some r' →
  reachable validTime urlParse isIP range history disk r'.
Proof.
  revert r. induction acts as [|a rest IH]; intros r Hr; simpl; [by intros [= <-]|].
  destruct (perform a r) as [r1|] eqn:E; [|done]. intros Hp. apply (IH r1); [|done].
  eapply reach_step; [done|by eapply perform_step].
Qed.

(** ** Orderly runs *)

Definition noStop r : bool :=
  forallb (fun x : nat * wsClient => negb (clearing_pc (clPc x.2))) (map_to_list (rtClients r)) &&
  negb (default false (clearing <$> rtServe r)).

Lemma noStop_clearing r : noStop r = true → ¬ stop_clearing r.
Proof.
  unfold noStop. rewrite andb_true_iff, forallb_forall, negb_true_iff. intros [Hc Hs] [[c Hx]|Hx]; [|congruence].
  unfold pc_of in Hx. destruct (rtClients r !! c) as [cl|] eqn:E; [|done]. simpl in Hx.
  specialize (Hc (c, cl)). rewrite <-list_elem_of_In, elem_of_map_to_list in Hc. specialize (Hc E). simpl in Hc.
  by rewrite Hx in Hc.
Qed.

Fixpoint playOrderly (acts : list act) r : option (Runtime W) :=
  match acts with
  | [] => Some r
  | a :: rest =>
      if noStop r then match perform a r with Some r' => playOrderly rest r' | None => None end else None
  end.

Lemma playOrderly_run disk acts r r' :
  orderly_run validTime urlParse isIP range history disk r → playOrderly acts r = Some r' →
  orderly_run validTime urlParse isIP range history disk r'.
Proof.
  revert r. induction acts as [|a rest IH]; intros r Hr; simpl; [by intros [= <-]|].
  destruct (noStop r) eqn:Hn; [|done]. destruct (perform a r) as [r1|] eqn:E; [|done]. intros Hp. apply (IH r1); [|done].
  eapply or_step; [done|]. split; [by eapply perform_step|]. intros _ _. by apply noStop_clearing.
Qed.
End play.
