(* ===== verification/GoTime.v ===== *)
(** * Instants as text: [time.Format] and [time.Parse] of Go's standard library

    The one layout the agent stores instants with,
    [2006-01-02T15:04:05.000000000Z07:00], in UTC: the text of an instant, the
    parser, and the two facts the store relies on: for four-digit years the
    texts are ordered as the instants are, and parsing a text gives its instant
    back. *)

From Stdlib Require Import Ascii String.
From stdpp Require Import pretty.
From S2P Require Import Prelude GoText.

(** ** The calendar: days since 1 January of the year 0 *)

Definition isLeap (y : Z) : bool := (y mod 4 =? 0) && (negb (y mod 100 =? 0) || (y mod 400 =? 0)).

Definition yearStart (y : Z) : Z := 365 * y + (y + 3) / 4 - (y + 99) / 100 + (y + 399) / 400.

Definition yearOf (d : Z) : Z :=
  let y := 400 * d / 146097 in
  if d <? yearStart y then y - 1 else if yearStart (y + 1) <=? d then y + 1 else y.

(** [daysBefore]: the days of a common year before each month, from 0. *)
Definition daysBefore (m : Z) : Z :=
  nth (Z.to_nat m) [0; 31; 59; 90; 120; 151; 181; 212; 243; 273; 304; 334; 365] 365.

(** Month and day, both from 1, of the day [yday] of a year. *)
Definition monthDay (leap : bool) (yday : Z) : Z * Z :=
  if leap && (yday =? 59) then (2, 29)
  else
    let day := if leap && (59 <? yday) then yday - 1 else yday in
    let m := day / 31 in
    if daysBefore (m + 1) <=? day then (m + 2, day - daysBefore (m + 1) + 1)
    else (m + 1, day - daysBefore m + 1).

Definition daysIn (y m : Z) : Z :=
  if (m =? 2) && isLeap y then 29 else daysBefore m - daysBefore (m - 1).

Definition dateDays (y m d : Z) : Z :=
  yearStart y + daysBefore (m - 1) + (if isLeap y && (2 <? m) then 1 else 0) + d - 1.

(** 1 January 1970. *)
Definition unixDay : Z := 719528.

(** ** Formatting *)

Definition digit (n : Z) : ascii := ascii_of_nat (48 + Z.to_nat n).

(** The last [w] digits of [n], before [rest]. *)
Fixpoint padded (w : nat) (n : Z) (rest : string) : string :=
  match w with
  | O => rest
  | S w' => padded w' (n / 10) (String (digit (n mod 10)) rest)
  end.

(** [appendInt]: at least [w] digits. *)
Definition appendInt (w : nat) (n : Z) (rest : string) : string :=
  if n <? 0 then String "-" (if -n <? 10 ^ Z.of_nat w then padded w (-n) rest else String.append (pretty (-n)) rest)
  else if n <? 10 ^ Z.of_nat w then padded w n rest else String.append (pretty n) rest.

(** [t.UTC().Format(layout)]. *)
Definition timeText (t : Z) : string :=
  let s := t / second in
  let days := s / 86400 + unixDay in
  let sod := s mod 86400 in
  let y := yearOf days in
  let '(m, d) := monthDay (isLeap y) (days - yearStart y) in
  appendInt 4 y (String "-" (appendInt 2 m (String "-" (appendInt 2 d (String "T"
    (appendInt 2 (sod / 3600) (String ":" (appendInt 2 (sod mod 3600 / 60) (String ":"
      (appendInt 2 (sod mod 3600 mod 60) (String "." (appendInt 9 (t mod second) "Z")))))))))))).

(** ** Parsing *)

(** [getnum]: two digits, or one where the layout's number may be shorter. *)
Definition getnum (fixed : bool) (s : string) : option (Z * string) :=
  match s with
  | String a rest =>
      d ← digit_val a;
      match rest with
      | String b rest' =>
          match digit_val b with
          | Some e => Some (d * 10 + e, rest')
          | None => if fixed then None else Some (d, rest)
          end
      | EmptyString => if fixed then None else Some (d, rest)
      end
  | EmptyString => None
  end.

Definition literal (c : ascii) (s : string) : option string :=
  match s with
  | String a rest => if Ascii.eqb a c then Some rest else None
  | EmptyString => None
  end.

Definition takeString (n : nat) (s : string) : option (string * string) :=
  if (n <=? String.length s)%nat then Some (String.substring 0 n s, drop_str n s) else None.

(** The package's own [atoi]: an optional sign, then digits. *)
Definition timeAtoi (s : string) : option Z :=
  match s with
  | String a rest =>
      if Ascii.eqb a "-" then Z.opp <$> digits_val 0 rest
      else if Ascii.eqb a "+" then digits_val 0 rest else digits_val 0 s
  | EmptyString => Some 0
  end.

Definition getYear (s : string) : option (Z * string) :=
  '(p, rest) ← takeString 4 s;
  match p with
  | String a _ => match digit_val a with Some _ => y ← timeAtoi p; Some (y, rest) | None => None end
  | EmptyString => None
  end.

Definition getFraction (s : string) : option (Z * string) :=
  '(p, rest) ← takeString 10 s;
  match p with
  | String a digits =>
      if Ascii.eqb a "." || Ascii.eqb a "," then
        ns ← timeAtoi digits;
        if ns <? 0 then None else Some (ns, rest)
      else None
  | EmptyString => None
  end.

(** [Z] or an offset such as [+08:00], in seconds; nothing may follow. *)
Definition getZone (s : string) : option Z :=
  match s with
  | String "Z" rest => if rest =s "" then Some 0 else None
  | String sign rest =>
      '(hour, rest) ← takeString 2 rest;
      rest ← literal ":" rest;
      '(minute, rest) ← takeString 2 rest;
      '(hr, _) ← getnum true hour;
      '(mm, _) ← getnum true minute;
      if (24 <? hr) || (60 <? mm) || (rest <>s "") then None
      else
        let offset := (hr * 60 + mm) * 60 in
        if Ascii.eqb sign "+" then Some offset else if Ascii.eqb sign "-" then Some (- offset) else None
  | EmptyString => None
  end.

Definition parseTime (s : string) : option Z :=
  '(y, s) ← getYear s; s ← literal "-" s;
  '(m, s) ← getnum true s; s ← literal "-" s;
  '(d, s) ← getnum true s; s ← literal "T" s;
  '(hh, s) ← getnum false s; s ← literal ":" s;
  '(mm, s) ← getnum true s; s ← literal ":" s;
  '(ss, s) ← getnum true s;
  '(ns, s) ← getFraction s;
  offset ← getZone s;
  if (m <=? 0) || (12 <? m) || (24 <=? hh) || (60 <=? mm) || (60 <=? ss) || (d <? 1) || (daysIn y m <? d) then None
  else Some ((((dateDays y m d - unixDay) * 86400 + hh * 3600 + mm * 60 + ss) - offset) * second + ns).

(** The instants whose year has four digits. *)
Definition fourDigitYear (t : Z) : bool :=
  let y := yearOf (t / second / 86400 + unixDay) in (0 <=? y) && (y <=? 9999).

Example text_example : timeText 1785916800000000001 = "2026-08-05T08:00:00.000000001Z"%string.
Proof. vm_compute. reflexivity. Qed.
Example parse_example : parseTime "2026-08-05T16:00:00.000000001+08:00" = Some 1785916800000000001.
Proof. vm_compute. reflexivity. Qed.
Example zero_example : timeText zeroTime = "0001-01-01T00:00:00.000000000Z"%string.
Proof. vm_compute. reflexivity. Qed.
Example leap_example : timeText 1709164800000000000 = "2024-02-29T00:00:00.000000000Z"%string.
Proof. vm_compute. reflexivity. Qed.

(** ** The calendar is consistent *)

Lemma yearStart_step y : yearStart (y + 1) = yearStart y + (if isLeap y then 366 else 365).
Proof.
  unfold yearStart, isLeap.
  destruct (Z.eqb_spec (y mod 4) 0), (Z.eqb_spec (y mod 100) 0), (Z.eqb_spec (y mod 400) 0); simpl;
    Z.to_euclidean_division_equations; lia.
Qed.

Lemma yearStart_mono y y' : y ≤ y' → yearStart y ≤ yearStart y'.
Proof.
  intros Hy. replace y' with (y + Z.of_nat (Z.to_nat (y' - y))) by lia.
  induction (Z.to_nat (y' - y)) as [|n IH]; [by rewrite Z.add_0_r|].
  replace (y + Z.of_nat (S n)) with (y + Z.of_nat n + 1) by lia. rewrite yearStart_step. case_match; lia.
Qed.

Lemma yearOf_spec d : yearStart (yearOf d) ≤ d < yearStart (yearOf d + 1).
Proof.
  unfold yearOf. set (y := 400 * d / 146097).
  assert (yearStart (y - 1) ≤ d < yearStart (y + 1 + 1)) as Hb.
  { subst y. unfold yearStart. Z.to_euclidean_division_equations; lia. }
  destruct (Z.ltb_spec d (yearStart y)); [replace (y - 1 + 1) with y by lia; lia|].
  destruct (Z.leb_spec (yearStart (y + 1)) d); lia.
Qed.

(** What holds of each day of a year, leap or not. *)
Definition dayFacts (leap : bool) (yday : Z) : bool :=
  let '(m, d) := monthDay leap yday in
  (1 <=? m) && (m <=? 12) && (1 <=? d) && (d <=? 31) &&
  (d <=? (if (m =? 2) && leap then 29 else daysBefore m - daysBefore (m - 1))) &&
  (daysBefore (m - 1) + (if leap && (2 <? m) then 1 else 0) + d - 1 =? yday).

Definition yearDays (leap : bool) : nat := if leap then 366 else 365.

Lemma dayFacts_all leap : forallb (fun n => dayFacts leap (Z.of_nat n)) (seq 0 (yearDays leap)) = true.
Proof. destruct leap; vm_compute; reflexivity. Qed.

Lemma monthDay_spec leap yday m d :
  0 ≤ yday < Z.of_nat (yearDays leap) → monthDay leap yday = (m, d) →
  1 ≤ m ≤ 12 ∧ 1 ≤ d ≤ 31 ∧ d ≤ (if (m =? 2) && leap then 29 else daysBefore m - daysBefore (m - 1)) ∧
  daysBefore (m - 1) + (if leap && (2 <? m) then 1 else 0) + d - 1 = yday.
Proof.
  intros Hy E. pose proof (proj1 (forallb_forall _ _) (dayFacts_all leap) (Z.to_nat yday)) as Hf.
  rewrite in_seq, Z2Nat.id in Hf by lia. specialize (Hf ltac:(lia)). unfold dayFacts in Hf. rewrite E in Hf.
  propify. lia.
Qed.

(** The date of a day, and the day of a date. *)
Lemma date_spec days :
  let y := yearOf days in
  ∃ m d, monthDay (isLeap y) (days - yearStart y) = (m, d) ∧
    1 ≤ m ≤ 12 ∧ 1 ≤ d ≤ 31 ∧ d ≤ daysIn y m ∧ dateDays y m d = days.
Proof.
  intros y. pose proof (yearOf_spec days) as Hy. fold y in Hy. rewrite yearStart_step in Hy.
  destruct (monthDay (isLeap y) (days - yearStart y)) as [m d] eqn:E. exists m, d.
  apply monthDay_spec in E as (? & ? & Hd & Heq); [|unfold yearDays; destruct (isLeap y); lia].
  unfold daysIn, dateDays. split_and!; try done; try lia.
Qed.

(** ** The texts of four-digit years are ordered as the instants *)

(** First by one comparison, then by another. *)
Definition thenBy (c c' : comparison) : comparison := match c with Eq => c' | _ => c end.

Lemma thenBy_assoc c1 c2 c3 : thenBy (thenBy c1 c2) c3 = thenBy c1 (thenBy c2 c3).
Proof. by destruct c1. Qed.

Lemma compare_div_mod k a b : 0 < k → (a ?= b) = thenBy (a / k ?= b / k) (a mod k ?= b mod k).
Proof.
  intros Hk. pose proof (Z.div_mod a k ltac:(lia)) as Ea. pose proof (Z.div_mod b k ltac:(lia)) as Eb.
  pose proof (Z.mod_pos_bound a k Hk). pose proof (Z.mod_pos_bound b k Hk).
  set (qa := a / k) in *. set (qb := b / k) in *. set (ra := a mod k) in *. set (rb := b mod k) in *. clearbody qa qb ra rb.
  destruct (Z.compare_spec qa qb) as [->|Hq|Hq]; simpl.
  - rewrite Ea, Eb. destruct (Z.compare_spec ra rb);
      [apply Z.compare_eq_iff|apply Z.compare_lt_iff|apply Z.compare_gt_iff]; lia.
  - apply Z.compare_lt_iff. assert (k ≤ k * (qb - qa)) by nia. lia.
  - apply Z.compare_gt_iff. assert (k ≤ k * (qa - qb)) by nia. lia.
Qed.

Lemma digit_compare a b s t :
  0 ≤ a < 10 → 0 ≤ b < 10 →
  String.compare (String (digit a) s) (String (digit b) t) = thenBy (a ?= b) (String.compare s t).
Proof.
  intros Ha Hb. assert (Ascii.compare (digit a) (digit b) = (a ?= b)) as E.
  { set (same a b := match Ascii.compare (digit a) (digit b), a ?= b with
                     | Eq, Eq | Lt, Lt | Gt, Gt => true | _, _ => false end).
    assert (same a b = true) as Hs; [|unfold same in Hs; by do 2 case_match].
    refine (below_all 10 (fun b => same a b) b _ Hb).
    refine (below_all 10 (fun a => forallb (same a) (map Z.of_nat (seq 0 10))) a _ Ha). vm_compute. reflexivity. }
  cbn [String.compare]. rewrite E. by destruct (a ?= b).
Qed.

Lemma padded_compare w : ∀ n m s t,
  0 ≤ n < 10 ^ Z.of_nat w → 0 ≤ m < 10 ^ Z.of_nat w →
  String.compare (padded w n s) (padded w m t) = thenBy (n ?= m) (String.compare s t).
Proof.
  induction w as [|w IH]; intros n m s t Hn Hm.
  { simpl in *. by replace n with m by lia; rewrite Z.compare_refl. }
  rewrite Nat2Z.inj_succ, Z.pow_succ_r in Hn, Hm by lia. simpl.
  rewrite IH; [|split; [apply Z.div_pos; lia|apply Z.div_lt_upper_bound; lia]..].
  rewrite digit_compare by (apply Z.mod_pos_bound; lia). by rewrite (compare_div_mod 10 n m), thenBy_assoc by lia.
Qed.

Lemma appendInt_compare w n m s t :
  0 ≤ n < 10 ^ Z.of_nat w → 0 ≤ m < 10 ^ Z.of_nat w →
  String.compare (appendInt w n s) (appendInt w m t) = thenBy (n ?= m) (String.compare s t).
Proof.
  intros Hn Hm. unfold appendInt. rewrite !(proj2 (Z.ltb_ge _ 0)) by lia.
  rewrite !(proj2 (Z.ltb_lt _ _)) by lia. by apply padded_compare.
Qed.

Lemma literal_compare c s t : String.compare (String c s) (String c t) = String.compare s t.
Proof. cbn [String.compare]. unfold Ascii.compare. by rewrite N.compare_refl. Qed.

(** A later month begins after every day of an earlier one. *)
Lemma month_order leap m m' d d' :
  1 ≤ m ≤ 12 → 1 ≤ m' ≤ 12 → 1 ≤ d' → d ≤ (if (m =? 2) && leap then 29 else daysBefore m - daysBefore (m - 1)) →
  m < m' →
  daysBefore (m - 1) + (if leap && (2 <? m) then 1 else 0) + d <
  daysBefore (m' - 1) + (if leap && (2 <? m') then 1 else 0) + d'.
Proof.
  intros Hm Hm' Hd' Hd Hlt.
  set (start m := daysBefore (m - 1) + (if leap && (2 <? m) then 1 else 0)).
  set (len m := if (m =? 2) && leap then 29 else daysBefore m - daysBefore (m - 1)).
  assert ((m <? 1) || (m' <=? m) || (start m + len m <=? start m') = true) as Hs.
  { refine (below_all 13 (fun m' => (m <? 1) || (m' <=? m) || (start m + len m <=? start m')) m' _ ltac:(lia)).
    refine (below_all 13 (fun m => forallb (fun m' => (m <? 1) || (m' <=? m) || (start m + len m <=? start m'))
      (map Z.of_nat (seq 0 13))) m _ ltac:(lia)). subst start len. destruct leap; vm_compute; reflexivity. }
  subst start len. cbn beta in *. lia.
Qed.

(** Days compare as their dates do. *)
Lemma date_compare a b ya ma da yb mb db :
  ya = yearOf a → monthDay (isLeap ya) (a - yearStart ya) = (ma, da) →
  yb = yearOf b → monthDay (isLeap yb) (b - yearStart yb) = (mb, db) →
  (a ?= b) = thenBy (ya ?= yb) (thenBy (ma ?= mb) (da ?= db)).
Proof.
  intros -> Ea -> Eb. pose proof (yearOf_spec a) as Ha. pose proof (yearOf_spec b) as Hb.
  destruct (date_spec a) as (ma' & da' & Ea' & Hma & Hda & Hia & Hdays). cbn zeta in *. rewrite Ea in Ea'. injection Ea' as <- <-.
  destruct (date_spec b) as (mb' & db' & Eb' & Hmb & Hdb & Hib & Hdays'). rewrite Eb in Eb'. injection Eb' as <- <-.
  destruct (Z.compare_spec (yearOf a) (yearOf b)) as [E|E|E]; simpl.
  - rewrite E in *. unfold dateDays, daysIn in *. set (leap := isLeap (yearOf b)) in *.
    pose proof (month_order leap) as Hlt.
    destruct (Z.compare_spec ma mb) as [Em|Em|Em]; simpl.
    + rewrite Em in *. destruct (Z.compare_spec da db); [apply Z.compare_eq_iff|apply Z.compare_lt_iff|apply Z.compare_gt_iff]; lia.
    + apply Z.compare_lt_iff. specialize (Hlt ma mb da db). lia.
    + apply Z.compare_gt_iff. specialize (Hlt mb ma db da). lia.
  - apply Z.compare_lt_iff. pose proof (yearStart_mono (yearOf a + 1) (yearOf b) ltac:(lia)). lia.
  - apply Z.compare_gt_iff. pose proof (yearStart_mono (yearOf b + 1) (yearOf a) ltac:(lia)). lia.
Qed.

(** The fields of a text: where they come from and what they range over. *)
Lemma fields_range s :
  let sod := s mod 86400 in
  0 ≤ sod / 3600 < 24 ∧ 0 ≤ sod mod 3600 / 60 < 60 ∧ 0 ≤ sod mod 3600 mod 60 < 60.
Proof. cbn zeta. Z.to_euclidean_division_equations; lia. Qed.

Lemma timeText_compare a b :
  fourDigitYear a = true → fourDigitYear b = true → String.compare (timeText a) (timeText b) = (a ?= b).
Proof.
  unfold fourDigitYear, timeText. intros Ha Hb. cbn zeta in *. propify.
  rewrite (compare_div_mod second a b), (compare_div_mod 86400 (a / second)) by done.
  assert ((a / second / 86400 ?= b / second / 86400) = (a / second / 86400 + unixDay ?= b / second / 86400 + unixDay)) as ->
    by (by rewrite !(Z.add_comm _ unixDay), Z.add_compare_mono_l).
  set (da := a / second / 86400 + unixDay) in *. set (db := b / second / 86400 + unixDay) in *.
  destruct (date_spec da) as (ma & xa & Ea & Hma & Hxa & _ & _). destruct (date_spec db) as (mb & xb & Eb & Hmb & Hxb & _ & _).
  rewrite (date_compare da db (yearOf da) ma xa (yearOf db) mb xb) by done. cbn zeta in *. rewrite Ea, Eb.
  pose proof (fields_range (a / second)) as (? & ? & ?). pose proof (fields_range (b / second)) as (? & ? & ?).
  pose proof (Z.mod_pos_bound a second ltac:(done)). pose proof (Z.mod_pos_bound b second ltac:(done)).
  rewrite (compare_div_mod 3600 ((a / second) mod 86400)), (compare_div_mod 60 ((a / second) mod 86400 mod 3600)) by lia.
  repeat (first [rewrite appendInt_compare by (unfold second in *; simpl; lia) | rewrite literal_compare]).
  rewrite !thenBy_assoc. repeat f_equal. change (String.compare "Z" "Z") with Eq. by destruct (_ ?= _).
Qed.

(** ** Parsing a text gives its instant back *)

Lemma digit_val_digit n : 0 ≤ n < 10 → digit_val (digit n) = Some n.
Proof.
  intros Hn. set (ok n := match digit_val (digit n) with Some v => v =? n | None => false end).
  assert (ok n = true) as Ho by (by apply (below_all 10 ok)). unfold ok in Ho. case_match; [|done]. by propify; subst.
Qed.

Lemma digits_padded w : ∀ n s acc, 0 ≤ n < 10 ^ Z.of_nat w →
  digits_val acc (padded w n s) = digits_val (acc * 10 ^ Z.of_nat w + n) s.
Proof.
  induction w as [|w IH]; intros n s acc Hn.
  { simpl in *. f_equal. lia. }
  rewrite Nat2Z.inj_succ, Z.pow_succ_r in * by lia. cbn [padded].
  rewrite IH by (split; [apply Z.div_pos; lia|apply Z.div_lt_upper_bound; lia]). cbn [digits_val].
  rewrite digit_val_digit by (apply Z.mod_pos_bound; lia). f_equal. Z.to_euclidean_division_equations; lia.
Qed.

(** The text of a padded number, split off what follows. *)
Lemma padded_split w : ∀ n s, padded w n s = String.append (padded w n "") s.
Proof.
  induction w as [|w IH]; intros n s; [done|]. cbn [padded]. rewrite IH, (IH _ (String _ "")).
  generalize (padded w (n / 10) ""). intros p. induction p as [|c p IHp]; [done|]. exact (f_equal (String c) IHp).
Qed.

Lemma length_padded w : ∀ n s, String.length (padded w n s) = (w + String.length s)%nat.
Proof. induction w as [|w IH]; intros n s; [done|]. cbn [padded]. rewrite IH. cbn [String.length]. lia. Qed.

Lemma takeString_app p s : takeString (String.length p) (String.append p s) = Some (p, s).
Proof.
  unfold takeString. rewrite length_append, (proj2 (Nat.leb_le _ _)) by lia. do 2 f_equal.
  - induction p as [|c p IH]; [by destruct s|]. exact (f_equal (String c) IH).
  - induction p as [|c p IH]; [by destruct s|]. exact IH.
Qed.

Lemma takeString_padded w n s : takeString w (padded w n s) = Some (padded w n "", s).
Proof. rewrite padded_split. rewrite <-(takeString_app (padded w n "")). by rewrite length_padded, Nat.add_0_r. Qed.

Lemma padded_first w n : ∃ c s, padded (S w) n "" = String c s ∧ is_Some (digit_val c).
Proof.
  pose proof (length_padded (S w) n "") as Hl. destruct (padded (S w) n "") as [|c s] eqn:E; [done|]. exists c, s. split; [done|].
  clear Hl. revert n c s E. cut (∀ n r c s, padded (S w) n r = String c s → is_Some (digit_val c)); [eauto|].
  induction w as [|w IH]; intros n r c s.
  - cbn [padded]. intros [= <- _]. exists (n mod 10). apply digit_val_digit, Z.mod_pos_bound. lia.
  - cbn [padded] in *. apply IH.
Qed.

Lemma timeAtoi_padded w n : 0 ≤ n < 10 ^ Z.of_nat w → timeAtoi (padded w n "") = Some n.
Proof.
  intros Hn. pose proof (digits_padded w n "" 0 Hn) as Hd. rewrite Z.mul_0_l, Z.add_0_l in Hd. cbn [digits_val] in Hd.
  destruct w as [|w]; [simpl in *; by rewrite Hd|]. destruct (padded_first w n) as (c & s & E & [v Hc]). rewrite E in *.
  cbn [timeAtoi]. destruct (Ascii.eqb_spec c "-"%char) as [->|]; [done|]. by destruct (Ascii.eqb_spec c "+"%char) as [->|].
Qed.

Lemma getnum_padded fixed n s : 0 ≤ n < 100 → getnum fixed (padded 2 n s) = Some (n, s).
Proof.
  intros Hn. cbn [padded getnum]. rewrite !digit_val_digit by (Z.to_euclidean_division_equations; lia).
  cbn. do 2 f_equal. Z.to_euclidean_division_equations; lia.
Qed.

Lemma getYear_padded y s : 0 ≤ y < 10000 → getYear (padded 4 y s) = Some (y, s).
Proof.
  intros Hy. unfold getYear. rewrite takeString_padded. cbn [mbind option_bind].
  pose proof (timeAtoi_padded 4 y Hy) as Ht. destruct (padded_first 3 y) as (c & r & E & [v Hc]).
  rewrite E in *. by rewrite Hc, Ht.
Qed.

Lemma getFraction_padded n s : 0 ≤ n < second → getFraction (String "." (padded 9 n s)) = Some (n, s).
Proof.
  intros Hn. unfold getFraction. rewrite padded_split.
  assert (takeString 10 (String "." (String.append (padded 9 n "") s)) = Some (String "." (padded 9 n ""), s)) as ->.
  { rewrite <-(takeString_app (String "." (padded 9 n ""))). cbn [String.length]. by rewrite length_padded. }
  cbn [mbind option_bind]. rewrite timeAtoi_padded by done. cbn. by rewrite (proj2 (Z.ltb_ge n 0)) by lia.
Qed.

Lemma appendInt_padded w n s : 0 ≤ n < 10 ^ Z.of_nat w → appendInt w n s = padded w n s.
Proof. intros Hn. unfold appendInt. by rewrite (proj2 (Z.ltb_ge _ 0)), (proj2 (Z.ltb_lt _ _)) by lia. Qed.

Lemma literal_skip c s : literal c (String c s) = Some s.
Proof. cbn [literal]. by rewrite Ascii.eqb_refl. Qed.

Lemma parse_timeText t : fourDigitYear t = true → parseTime (timeText t) = Some t.
Proof.
  unfold fourDigitYear, timeText. intros Ht. cbn zeta in *. propify.
  set (days := t / second / 86400 + unixDay) in *.
  destruct (date_spec days) as (m & d & E & Hm & Hd & Hin & Hdays). cbn zeta in *. rewrite E.
  pose proof (fields_range (t / second)) as (? & ? & ?). pose proof (Z.mod_pos_bound t second ltac:(done)).
  rewrite !appendInt_padded by (unfold second in *; simpl; lia). unfold parseTime.
  rewrite getYear_padded by lia. cbn [mbind option_bind].
  repeat (first [rewrite literal_skip | rewrite getnum_padded by lia | rewrite getFraction_padded by lia]; cbn [mbind option_bind]).
  change (getZone "Z") with (Some 0). cbn [mbind option_bind].
  rewrite !(proj2 (Z.leb_gt _ _)), !(proj2 (Z.ltb_ge _ _)) by lia. cbn [orb]. f_equal. rewrite Hdays. subst days.
  unfold second in *. Z.to_euclidean_division_equations; lia.
Qed.
