(* ===== verification/AlarmHistory.v ===== *)
(** * The alarm history: [internal/storage/alarm_history_v2.go], its migration,
      and [internal/alarmhistory]

    An append-only table of alarm transitions, read in pages by cursor.  A row
    holds the texts SQLite stores: instants as [GoTime.timeText], details as
    JSON.  [marshal] and [unmarshal] are [encoding/json] on the details map.
    Every statement may fail; [ahFaults] lists the outcomes to come. *)

From Stdlib Require Import Ascii String.
From S2P Require Import Prelude GoTime.

Definition MaxPageSize : Z := 200.

Record AlarmRecord (D : Type) := mkAlarm {
  hrAlarmRecordID : string;
  hrHistoryCursor : Z;
  hrAlarmID : string;
  hrEventKind : string;
  hrCode : string;
  hrSeverity : string;
  hrText : string;
  hrOccurredAt : Z;
  hrDetails : D
}.
Arguments mkAlarm {D}.
Arguments hrAlarmRecordID {D}.
Arguments hrHistoryCursor {D}.
Arguments hrAlarmID {D}.
Arguments hrEventKind {D}.
Arguments hrCode {D}.
Arguments hrSeverity {D}.
Arguments hrText {D}.
Arguments hrOccurredAt {D}.
Arguments hrDetails {D}.

(** A row of [alarm_history_v2]; [ahOther] are columns of the legacy schema. *)
Record AlarmRow := mkAlarmRow {
  ahCursor : Z;
  ahRecordID : string;
  ahAlarmID : string;
  ahEventKind : string;
  ahCode : string;
  ahSeverity : string;
  ahText : string;
  ahOccurredAt : string;
  ahDetails : string;
  ahOther : list (string * string)
}.

(** The table with the sequence of its AUTOINCREMENT key. *)
Record AlarmLog := mkAlarmLog { ahRows : list AlarmRow; ahSeq : Z; ahFaults : list (option string) }.

Record HistoryQuery := mkHistoryQuery { hqFrom : Z; hqTo : Z; hqAfterCursor : Z; hqLimit : Z }.

Record HistoryPage (D : Type) := mkHistoryPage {
  hpRecords : list (AlarmRecord D);
  hpNextCursor : option Z;
  hpHasMore : bool
}.
Arguments mkHistoryPage {D}.
Arguments hpRecords {D}.
Arguments hpNextCursor {D}.
Arguments hpHasMore {D}.

Inductive history_error : Type :=
| HEInvalidRecord | HEEncode | HESql (e : string) | HECheck | HEUnique | HEFull | HECursor
| HEInvalidQuery | HEHighBit | HETime | HEDetails | HEPersisted | HEUnavailable | HEInvalidPage
| HEIncompatible | HELegacyExists.

Abbreviation HistoryM := (GoM AlarmLog history_error).

(** One statement of the database. *)
Definition statement : HistoryM unit := fun l =>
  match ahFaults l with
  | [] => (Ok tt, l)
  | None :: rest => (Ok tt, mkAlarmLog (ahRows l) (ahSeq l) rest)
  | Some e :: rest => (Err (HESql e), mkAlarmLog (ahRows l) (ahSeq l) rest)
  end.

(** ** Validation *)

Definition validateQuery (q : HistoryQuery) : result history_error unit :=
  if isZero (hqFrom q) || isZero (hqTo q) || (hqTo q <=? hqFrom q) || (hqLimit q <? 1) || (MaxPageSize <? hqLimit q)
  then Err HEInvalidQuery else Ok tt.

(** SQLite's CHECK constraints; [length] counts up to the first NUL. *)
Definition sqlNonEmpty (s : string) : bool :=
  match s with EmptyString => false | String a _ => negb (Ascii.eqb a "000") end.

Definition checkRow (row : AlarmRow) : bool :=
  sqlNonEmpty (ahRecordID row) && sqlNonEmpty (ahAlarmID row) &&
  ((ahEventKind row =s "RAISED") || (ahEventKind row =s "CLEARED")) &&
  sqlNonEmpty (ahCode row) && sqlNonEmpty (ahSeverity row) && sqlNonEmpty (ahText row).

(** Executes the INSERT of [Append]; the key is one more than any before. *)
Definition insertRow (row : Z → AlarmRow) : HistoryM Z :=
  run! statement;
  do! l <- gget;
  if negb (checkRow (row 0)) then gfail HECheck
  else if existsb (fun r => ahRecordID r =s ahRecordID (row 0)) (ahRows l) then gfail HEUnique
  else if 2 ^ 63 - 1 <=? ahSeq l then gfail HEFull
  else
    let cursor := ahSeq l + 1 in
    run! gput (mkAlarmLog (ahRows l ++ [row cursor]) cursor (ahFaults l));
    gret cursor.

(** The rows a query selects, in cursor order. *)
Definition cursorLe (l r : AlarmRow) : Prop := ahCursor l ≤ ahCursor r.
#[global] Instance cursorLe_dec : RelDecision cursorLe.
Proof. intros l r. unfold cursorLe. apply _. Defined.

Definition inRange (q : HistoryQuery) (row : AlarmRow) : bool :=
  match String.compare (timeText (hqFrom q)) (ahOccurredAt row) with Gt => false | _ => true end &&
  match String.compare (ahOccurredAt row) (timeText (hqTo q)) with Lt => true | _ => false end &&
  (hqAfterCursor q <? ahCursor row).

Definition selectRows (q : HistoryQuery) (rows : list AlarmRow) : list AlarmRow :=
  take (Z.to_nat (hqLimit q + 1)) (merge_sort cursorLe (filter (fun row => inRange q row = true) rows)).

Section history.
Context {D : Type}.
Variables (marshal : D → option string) (unmarshal : string → option D).

Definition validateRecord (r : AlarmRecord D) : result history_error unit :=
  if (hrAlarmRecordID r =s "") || (hrAlarmID r =s "") || (hrCode r =s "") || (hrSeverity r =s "") ||
     (hrText r =s "") || isZero (hrOccurredAt r)
  then Err HEInvalidRecord
  else if (hrEventKind r =s "RAISED") || (hrEventKind r =s "CLEARED") then Ok tt else Err HEInvalidRecord.

Definition setCursor (cursor : Z) (r : AlarmRecord D) : AlarmRecord D :=
  mkAlarm (hrAlarmRecordID r) cursor (hrAlarmID r) (hrEventKind r) (hrCode r) (hrSeverity r) (hrText r)
    (hrOccurredAt r) (hrDetails r).

(** [Store.Append]. *)
Definition appendRecord (r : AlarmRecord D) : HistoryM (AlarmRecord D) :=
  run! glift (validateRecord r);
  match marshal (hrDetails r) with
  | None => gfail HEEncode
  | Some details =>
      do! cursor <- insertRow (fun cursor =>
        mkAlarmRow cursor (hrAlarmRecordID r) (hrAlarmID r) (hrEventKind r) (hrCode r) (hrSeverity r) (hrText r)
          (timeText (hrOccurredAt r)) details []);
      if cursor <? 1 then gfail HECursor else gret (setCursor cursor r)
  end.

(** [scanAlarmHistoryRecord]. *)
Definition scanRecord (row : AlarmRow) : result history_error (AlarmRecord D) :=
  if ahCursor row <? 1 then Err HECursor
  else match parseTime (ahOccurredAt row) with
       | None => Err HETime
       | Some occurredAt =>
           match unmarshal (ahDetails row) with
           | None => Err HEDetails
           | Some details =>
               let r := mkAlarm (ahRecordID row) (ahCursor row) (ahAlarmID row) (ahEventKind row) (ahCode row)
                          (ahSeverity row) (ahText row) occurredAt details in
               match validateRecord r with Ok _ => Ok r | Err _ => Err HEPersisted end
           end
       end.

Fixpoint scanRows (rows : list AlarmRow) : result history_error (list (AlarmRecord D)) :=
  match rows with
  | [] => Ok []
  | row :: rest =>
      let? r := scanRecord row in
      let? rs := scanRows rest in
      Ok (r :: rs)
  end.

(** [Store.List]; a cursor that is no int64 is refused by [database/sql]. *)
Definition listRecords (q : HistoryQuery) : HistoryM (list (AlarmRecord D) * bool) :=
  run! glift (validateQuery q);
  if 2 ^ 63 <=? hqAfterCursor q then gfail HEHighBit
  else
    run! statement;
    do! l <- gget;
    do! records <- glift (scanRows (selectRows q (ahRows l)));
    run! statement;
    let hasMore := hqLimit q <? Z.of_nat (length records) in
    gret (if hasMore then take (Z.to_nat (hqLimit q)) records else records, hasMore).

(** ** The service *)

Definition validatePage (p : HistoryPage D) : result history_error unit :=
  let zero := match hpNextCursor p with Some c => c =? 0 | None => false end in
  if hpHasMore p && (match hpRecords p with [] => true | _ => false end ||
                     match hpNextCursor p with None => true | Some _ => false end || zero)
  then Err HEInvalidPage
  else if zero then Err HEInvalidPage else Ok tt.

(** [Service.List]; [available] is whether the service has a store. *)
Definition serviceList (available : bool) (q : HistoryQuery) : HistoryM (HistoryPage D) :=
  if negb available then gfail HEUnavailable
  else
    run! glift (validateQuery q);
    do! found <- listRecords q;
    let '(records, hasMore) := found in
    let lastCursor := match last records with Some r => hrHistoryCursor r | None => 0 end in
    if hasMore && (lastCursor =? 0) then gfail HEInvalidPage
    else
      let page := mkHistoryPage records (if hasMore then Some lastCursor else None) hasMore in
      run! glift (validatePage page);
      gret page.

(** [Service.Append]: the record is stored before the one notification, whose
    error is dropped. *)
Definition serviceAppend {N} (available : bool) (notify : option (AlarmRecord D → N → N)) (r : AlarmRecord D)
    (s : AlarmLog * N) : result history_error (AlarmRecord D) * (AlarmLog * N) :=
  if negb available then (Err HEUnavailable, s)
  else match appendRecord r s.1 with
       | (Err e, l) => (Err e, (l, s.2))
       | (Ok stored, l) => (Ok stored, (l, match notify with Some f => f stored s.2 | None => s.2 end))
       end.
End history.

(** ** The migration of an older table: [alarm_history_v2_migration.go] *)

Record HistoryColumn := mkColumn { coName : string; coType : string; coNotNull : bool; coPrimaryKey : Z }.

Definition currentColumns : list HistoryColumn :=
  mkColumn "history_cursor" "INTEGER" false 1 ::
  map (fun name => mkColumn name "TEXT" true 0)
    ["alarm_record_id"; "alarm_id"; "event_kind"; "code"; "severity"; "text"; "occurred_at"; "details_json"].

(** The table as [PRAGMA table_info] and its rows show it, and the archive. *)
Record HistoryDB := mkHistoryDB {
  hdColumns : list HistoryColumn;
  hdLog : AlarmLog;
  hdLegacy : option (list HistoryColumn * list AlarmRow)
}.

Abbreviation SchemaM := (GoM HistoryDB history_error).

Definition upper (a : ascii) : ascii :=
  let n := nat_of_ascii a in if (97 <=? n)%nat && (n <=? 122)%nat then ascii_of_nat (n - 32) else a.

(** [strings.EqualFold] against an ASCII text without [K] and [S], which have
    no other foldings than their case. *)
Fixpoint equalFold (s t : string) : bool :=
  match s, t with
  | EmptyString, EmptyString => true
  | String a s', String b t' => Ascii.eqb (upper a) (upper b) && equalFold s' t'
  | _, _ => false
  end.

Definition columnMatches (actual expected : HistoryColumn) : bool :=
  (coName actual =s coName expected) && equalFold (trimSpace (coType actual)) (coType expected) &&
  (coPrimaryKey actual =? coPrimaryKey expected) && negb (coNotNull expected && negb (coNotNull actual)).

Definition schemaMatches (columns : list HistoryColumn) : bool :=
  (length columns =? length currentColumns)%nat &&
  forallb (fun p => columnMatches p.1 p.2) (combine columns currentColumns).

Definition containsCommonColumns (columns : list HistoryColumn) : bool :=
  forallb (fun expected => existsb (fun c => coName c =s coName expected) columns) currentColumns.

(** A statement, and what a failing transaction leaves: the statements it used. *)
Definition onLog (m : HistoryM unit) : SchemaM unit := fun db =>
  let '(r, l) := m (hdLog db) in (r, mkHistoryDB (hdColumns db) l (hdLegacy db)).

Definition schemaStatement : SchemaM unit := onLog statement.

Definition transaction (body : SchemaM unit) : SchemaM unit := fun db =>
  match body db with
  | (Ok _, db') => (Ok tt, db')
  | (Err e, db') =>
      (Err e, mkHistoryDB (hdColumns db) (mkAlarmLog (ahRows (hdLog db)) (ahSeq (hdLog db)) (ahFaults (hdLog db')))
                (hdLegacy db))
  end.

Definition tableColumns : SchemaM (list HistoryColumn) :=
  run! schemaStatement;
  do! db <- gget;
  gret (hdColumns db).

Definition current (row : AlarmRow) : AlarmRow :=
  mkAlarmRow (ahCursor row) (ahRecordID row) (ahAlarmID row) (ahEventKind row) (ahCode row) (ahSeverity row)
    (ahText row) (ahOccurredAt row) (ahDetails row) [].

(** [INSERT ... SELECT ... ORDER BY history_cursor ASC]: all rows, or the first
    constraint that fails. *)
Fixpoint insertAll (rows : list AlarmRow) (l : AlarmLog) : result history_error AlarmLog :=
  match rows with
  | [] => Ok l
  | row :: rest =>
      if negb (checkRow row) then Err HECheck
      else if existsb (fun r => (ahRecordID r =s ahRecordID row) || (ahCursor r =? ahCursor row)) (ahRows l)
      then Err HEUnique
      else insertAll rest (mkAlarmLog (ahRows l ++ [current row]) (Z.max (ahSeq l) (ahCursor row)) (ahFaults l))
  end.

Definition rebuildTable : SchemaM unit :=
  run! schemaStatement;                     (* ALTER TABLE ... RENAME *)
  do! db <- gget;
  match hdLegacy db with
  | Some _ => gfail HELegacyExists
  | None =>
      let rows := ahRows (hdLog db) in
      run! gput (mkHistoryDB (hdColumns db) (hdLog db) (Some (hdColumns db, rows)));
      run! schemaStatement;                 (* CREATE TABLE *)
      run! schemaStatement;                 (* INSERT *)
      do! db <- gget;
      do! l <- glift (insertAll (merge_sort cursorLe rows) (mkAlarmLog [] 0 (ahFaults (hdLog db))));
      run! gput (mkHistoryDB currentColumns l (hdLegacy db));
      run! schemaStatement;                 (* CREATE INDEX *)
      schemaStatement                       (* COMMIT *)
  end.

Definition ensureAlarmHistoryV2Schema : SchemaM unit :=
  do! columns <- tableColumns;
  if schemaMatches columns then gret tt
  else if negb (containsCommonColumns columns) then gfail HEIncompatible
  else
    transaction (
      run! schemaStatement;                 (* BEGIN *)
      do! columns <- tableColumns;
      if schemaMatches columns then schemaStatement
      else if negb (containsCommonColumns columns) then gfail HEIncompatible
      else rebuildTable).
