(* ===== verification/AlarmHistoryProofs.v ===== *)
(** * The alarm history as a list of records

    [keeps rs l]: the table [l] stores the records [rs].  Appending adds one
    record at the end, a page is a slice of the list, and following the cursors
    of the pages reads the list once. *)

From Stdlib Require Import Ascii String Sorted.
From S2P Require Import Prelude GoTime AlarmHistory.

Section history.
Context {D : Type}.
Variables (marshal : D → option string) (unmarshal : string → option D).

(** ** What a row stores *)

Definition stores (r : AlarmRecord D) (row : AlarmRow) : Prop :=
  ∃ details, marshal (hrDetails r) = Some details ∧ validateRecord r = Ok tt ∧
    row = mkAlarmRow (hrHistoryCursor r) (hrAlarmRecordID r) (hrAlarmID r) (hrEventKind r) (hrCode r) (hrSeverity r)
            (hrText r) (timeText (hrOccurredAt r)) details [].

Record keeps (rs : list (AlarmRecord D)) (l : AlarmLog) : Prop := {
  kp_rows : Forall2 stores rs (ahRows l);
  kp_order : StronglySorted Z.lt (map hrHistoryCursor rs);
  kp_cursors : Forall (fun r => 1 ≤ hrHistoryCursor r ≤ ahSeq l) rs;
  kp_seq : 0 ≤ ahSeq l < 2 ^ 63;
  kp_ids : NoDup (map hrAlarmRecordID rs)
}.

(** The record a row is read back as: its details have been through JSON. *)
Definition reread (r : AlarmRecord D) : AlarmRecord D :=
  match marshal (hrDetails r) with
  | Some s =>
      match unmarshal s with
      | Some d => mkAlarm (hrAlarmRecordID r) (hrHistoryCursor r) (hrAlarmID r) (hrEventKind r) (hrCode r) (hrSeverity r)
                    (hrText r) (hrOccurredAt r) d
      | None => r
      end
  | None => r
  end.

(** Reading leaves the table alone. *)
Lemma serviceList_rows q l r l' : serviceList unmarshal true q l = (r, l') → ahRows l' = ahRows l.
Proof.
  unfold serviceList, listRecords, gbind, glift, gfail, gret, gget, statement. cbn [negb].
  destruct (validateQuery q) as [[]|]; [|by intros [= _ <-]]. destruct (2 ^ 63 <=? hqAfterCursor q); [by intros [= _ <-]|].
  destruct (ahFaults l) as [|[e|] rest] eqn:E; [|by intros [= _ <-]|]; cbn [ahFaults ahRows];
    (destruct (scanRows unmarshal _); [|by intros [= _ <-]]); rewrite ?E; intros; repeat (case_match; simplify_eq/=; try done).
Qed.

(** ** Appending *)

Lemma statement_rows l : ahRows (statement l).2 = ahRows l ∧ ahSeq (statement l).2 = ahSeq l.
Proof. unfold statement. by destruct (ahFaults l) as [|[e|] rest]. Qed.

Lemma keeps_same rs l l' : ahRows l' = ahRows l → ahSeq l' = ahSeq l → keeps rs l → keeps rs l'.
Proof. intros Hr Hs []. split; by rewrite ?Hr, ?Hs. Qed.

Lemma sorted_snoc (l : list Z) x : StronglySorted Z.lt l → Forall (fun y => y < x) l → StronglySorted Z.lt (l ++ [x]).
Proof.
  intros Hs. induction Hs as [|y l Hs IH Hy]; intros Hx; simpl; [repeat constructor|].
  inversion_clear Hx. constructor; [by apply IH|]. apply Forall_app. split; [done|by repeat constructor].
Qed.

Lemma stored_ids rs rows : Forall2 stores rs rows → map ahRecordID rows = map hrAlarmRecordID rs.
Proof. induction 1 as [|r row rs rows (d & _ & _ & ->) _ IH]; [done|]. simpl. by rewrite IH. Qed.

Lemma keeps_snoc rs l r details faults :
  keeps rs l → validateRecord r = Ok tt → marshal (hrDetails r) = Some details →
  hrAlarmRecordID r ∉ map ahRecordID (ahRows l) → ahSeq l < 2 ^ 63 - 1 →
  keeps (rs ++ [setCursor (ahSeq l + 1) r])
    (mkAlarmLog (ahRows l ++
       [mkAlarmRow (ahSeq l + 1) (hrAlarmRecordID r) (hrAlarmID r) (hrEventKind r) (hrCode r) (hrSeverity r) (hrText r)
          (timeText (hrOccurredAt r)) details []]) (ahSeq l + 1) faults).
Proof.
  intros [Hr Ho Hc Hs Hi] Hv Hm Hn Hf. split; cbn [ahRows ahSeq].
  - apply Forall2_app; [done|]. repeat constructor. by exists details.
  - rewrite map_app. apply sorted_snoc; [done|]. rewrite Forall_map. eapply Forall_impl; [exact Hc|]. simpl. lia.
  - apply Forall_app. split; [|repeat constructor; simpl; lia]. eapply Forall_impl; [exact Hc|]. simpl. lia.
  - lia.
  - rewrite map_app, NoDup_app. split_and!; [done| |apply NoDup_singleton].
    intros x Hx Hx'. apply list_elem_of_singleton in Hx' as ->. apply Hn. by rewrite (stored_ids _ _ Hr).
Qed.

(** [Append] adds the record with the next cursor, or nothing. *)
Lemma appendRecord_spec rs l r :
  keeps rs l →
  match appendRecord marshal r l with
  | (Ok r', l') => r' = setCursor (ahSeq l + 1) r ∧ keeps (rs ++ [r']) l'
  | (Err _, l') => keeps rs l' ∧ ahRows l' = ahRows l
  end.
Proof.
  intros Hk. unfold appendRecord, gbind, glift. destruct (validateRecord r) as [[]|e] eqn:Hv; [|done].
  destruct (marshal (hrDetails r)) as [details|] eqn:Hm; [|done]. unfold insertRow, gbind, gget, gput, gret, gfail.
  pose proof (statement_rows l) as [Hr Hs]. destruct (statement l) as [[u|e] l1]; cbn [fst snd] in *;
    [|split; [by eapply keeps_same|done]]. apply (keeps_same rs l l1) in Hk as Hk1; [|done..].
  cbn [ahRecordID]. destruct (checkRow _); cbn [negb]; [|done].
  destruct (existsb _ _) eqn:He; [done|]. destruct (Z.leb_spec (2 ^ 63 - 1) (ahSeq l1)) as [Hf|Hf]; [done|].
  pose proof (kp_seq _ _ Hk). rewrite (proj2 (Z.ltb_ge _ _)) by lia. rewrite Hs in *. split; [done|].
  rewrite <-Hs. apply keeps_snoc; [done..| |lia]. intros Hin. apply not_true_iff_false in He. apply He.
  apply list_elem_of_fmap in Hin as (row & E & Hrow). apply existsb_exists. exists row.
  split; [by apply list_elem_of_In|]. apply String.eqb_eq. done.
Qed.

(** ** Reading *)

Definition matches (q : HistoryQuery) (r : AlarmRecord D) : bool :=
  (hqFrom q <=? hrOccurredAt r) && (hrOccurredAt r <? hqTo q) && (hqAfterCursor q <? hrHistoryCursor r).

Abbreviation matching q rs := (filter (fun r => matches q r = true) rs).

(** Instants that the fixed-width texts order. *)
Definition dated (r : AlarmRecord D) : Prop := fourDigitYear (hrOccurredAt r) = true.
Definition query_ok (q : HistoryQuery) : Prop :=
  validateQuery q = Ok tt ∧ 0 ≤ hqAfterCursor q < 2 ^ 63 ∧ fourDigitYear (hqFrom q) = true ∧ fourDigitYear (hqTo q) = true.

(** [json.Unmarshal] accepts what [json.Marshal] wrote. *)
Hypothesis (Hjson : ∀ d s, marshal d = Some s → is_Some (unmarshal s)).

Lemma inRange_matches q r row :
  fourDigitYear (hqFrom q) = true → fourDigitYear (hqTo q) = true → dated r → stores r row → inRange q row = matches q r.
Proof.
  intros Hf Ht Hr (d & _ & _ & ->). unfold inRange, matches. cbn [ahOccurredAt ahCursor].
  rewrite !timeText_compare by done. unfold Z.leb, Z.ltb. by destruct (hqFrom q ?= _), (_ ?= hqTo q).
Qed.

Lemma filter_stores q rs rows :
  fourDigitYear (hqFrom q) = true → fourDigitYear (hqTo q) = true → Forall dated rs → Forall2 stores rs rows →
  Forall2 stores (matching q rs) (filter (fun row => inRange q row = true) rows).
Proof.
  intros Hf Ht Hd Hs. induction Hs as [|r row rs rows Hr Hs IH]; [constructor|].
  inversion_clear Hd. pose proof (inRange_matches q r row Hf Ht) as E. rewrite !filter_cons, E by done.
  case_decide; [constructor; auto|auto].
Qed.

Lemma Forall_filter_ {A} (P Q : A → Prop) `{∀ a, Decision (Q a)} l : Forall P l → Forall P (filter Q l).
Proof. rewrite !Forall_forall. intros Hl x Hx. apply list_elem_of_filter in Hx as [_ Hx]. by apply Hl. Qed.

Lemma sorted_filter {A} (f : A → Z) (P : A → Prop) `{∀ a, Decision (P a)} l :
  StronglySorted Z.lt (map f l) → StronglySorted Z.lt (map f (filter P l)).
Proof.
  induction l as [|a l IH]; simpl; [done|]. intros Hs. inversion_clear Hs. rewrite filter_cons.
  case_decide; [|auto]. simpl. constructor; [auto|]. rewrite Forall_map in *. by apply Forall_filter_.
Qed.

#[local] Instance cursorLe_trans : Transitive cursorLe.
Proof. intros a b c. unfold cursorLe. lia. Qed.
#[local] Instance cursorLe_total : Total cursorLe.
Proof. intros a b. unfold cursorLe. lia. Qed.

Lemma sorted_weak rows : StronglySorted Z.lt (map ahCursor rows) → StronglySorted cursorLe rows.
Proof.
  induction rows as [|a l IH]; simpl; [constructor|]. intros Hs. inversion_clear Hs as [|?? Hl Ha]. constructor; [auto|].
  rewrite Forall_map in Ha. eapply Forall_impl; [exact Ha|]. unfold cursorLe. simpl. lia.
Qed.

Lemma sorted_inj {A} (f : A → Z) l a b :
  StronglySorted Z.lt (map f l) → a ∈ l → b ∈ l → f a = f b → a = b.
Proof.
  induction l as [|c l IH]; simpl; [by intros _ ?%elem_of_nil|]. intros Hs Ha Hb E. inversion_clear Hs as [|?? Hl Hc].
  rewrite Forall_map, Forall_forall in Hc. apply elem_of_cons in Ha as [->|Ha], Hb as [->|Hb]; [done| | |by apply IH];
    [specialize (Hc b Hb)|specialize (Hc a Ha)]; simpl in Hc; lia.
Qed.

Lemma merge_sort_sorted rows : StronglySorted Z.lt (map ahCursor rows) → merge_sort cursorLe rows = rows.
Proof.
  intros Hs. apply (StronglySorted_unique_strong cursorLe).
  - intros a b. rewrite merge_sort_Permutation. intros Ha Hb H1 H2. apply (sorted_inj ahCursor rows); [done..|].
    unfold cursorLe in *. lia.
  - apply (StronglySorted_merge_sort _).
  - by apply sorted_weak.
  - apply merge_sort_Permutation.
Qed.

Lemma stored_cursors rs rows : Forall2 stores rs rows → map ahCursor rows = map hrHistoryCursor rs.
Proof. induction 1 as [|r row rs rows (d & _ & _ & ->) _ IH]; [done|]. simpl. by rewrite IH. Qed.

Lemma scanRows_stores rs rows :
  Forall dated rs → Forall (fun r => 1 ≤ hrHistoryCursor r) rs → Forall2 stores rs rows →
  scanRows unmarshal rows = Ok (map reread rs).
Proof.
  intros Hd Hc Hs. induction Hs as [|r row rs rows (s & Hm & Hv & ->) _ IH]; [done|].
  inversion_clear Hd. inversion_clear Hc. cbn [scanRows]. rewrite IH by done.
  destruct (Hjson _ _ Hm) as [d Hd']. unfold scanRecord. cbn [ahCursor ahOccurredAt ahDetails ahRecordID ahAlarmID ahEventKind ahCode ahSeverity ahText].
  rewrite (proj2 (Z.ltb_ge _ _)), parse_timeText, Hd' by done.
  assert (reread r = mkAlarm (hrAlarmRecordID r) (hrHistoryCursor r) (hrAlarmID r) (hrEventKind r) (hrCode r) (hrSeverity r)
    (hrText r) (hrOccurredAt r) d) as E by (unfold reread; by rewrite Hm, Hd').
  cbn [map]. rewrite E. unfold validateRecord in *.
  cbn [hrAlarmRecordID hrAlarmID hrCode hrSeverity hrText hrOccurredAt hrEventKind]. by rewrite Hv.
Qed.

(** A page is a slice of the matching records. *)
Lemma listRecords_spec rs l q :
  keeps rs l → Forall dated rs → query_ok q → ahFaults l = [] →
  listRecords unmarshal q l =
    (Ok (map reread (take (Z.to_nat (hqLimit q)) (matching q rs)),
         bool_decide (hqLimit q < Z.of_nat (length (matching q rs)))), l).
Proof.
  intros [Hr Ho Hc Hs Hi] Hd (Hv & Ha & Hf & Ht) Hfa. unfold listRecords, gbind, glift, gget, gret, statement.
  rewrite Hv, (proj2 (Z.leb_gt _ _)), Hfa by lia.
  assert (1 ≤ hqLimit q ≤ 200) as Hlim by (unfold validateQuery, MaxPageSize in Hv; case_match; [done|]; propify; lia).
  assert (Forall2 stores (take (Z.to_nat (hqLimit q + 1)) (matching q rs)) (selectRows q (ahRows l))) as Hsel.
  { unfold selectRows. rewrite merge_sort_sorted by (apply sorted_filter; by rewrite (stored_cursors _ _ Hr)).
    apply Forall2_take. by apply filter_stores. }
  rewrite (scanRows_stores (take (Z.to_nat (hqLimit q + 1)) (matching q rs))); [|..|done].
  2:{ by apply Forall_take, Forall_filter_. }
  2:{ apply Forall_take, Forall_filter_. eapply Forall_impl; [exact Hc|]. simpl. lia. }
  rewrite Hfa. cbn [fst snd]. rewrite !length_map, !length_take. f_equal. f_equal. f_equal.
  - destruct (Z.ltb_spec (hqLimit q) (Z.of_nat (Z.to_nat (hqLimit q + 1) `min` length (matching q rs)))).
    + rewrite firstn_map, take_take. do 2 f_equal. lia.
    + f_equal. rewrite !take_ge by lia. done.
  - destruct (Z.ltb_spec (hqLimit q) (Z.of_nat (Z.to_nat (hqLimit q + 1) `min` length (matching q rs))));
      symmetry; [apply bool_decide_eq_true_2|apply bool_decide_eq_false_2]; lia.
Qed.

(** ** Pages *)

Definition after (cursor : Z) (q : HistoryQuery) : HistoryQuery := mkHistoryQuery (hqFrom q) (hqTo q) cursor (hqLimit q).

Definition lastCursor (rs : list (AlarmRecord D)) : Z :=
  match last rs with Some r => hrHistoryCursor r | None => 0 end.

Lemma reread_cursor r : hrHistoryCursor (reread r) = hrHistoryCursor r.
Proof. unfold reread. by repeat case_match. Qed.

Lemma lastCursor_reread rs : lastCursor (map reread rs) = lastCursor rs.
Proof. unfold lastCursor. rewrite fmap_last. destruct (last rs); [apply reread_cursor|done]. Qed.

(** What [Service.List] answers. *)
Definition pageOf (q : HistoryQuery) (rs : list (AlarmRecord D)) : HistoryPage D :=
  let page := take (Z.to_nat (hqLimit q)) (matching q rs) in
  let more := bool_decide (hqLimit q < Z.of_nat (length (matching q rs))) in
  mkHistoryPage (map reread page) (if more then Some (lastCursor page) else None) more.

Lemma query_limit q : query_ok q → 1 ≤ hqLimit q ≤ 200.
Proof. intros (Hv & _). unfold validateQuery, MaxPageSize in Hv. case_match; [done|]. propify. lia. Qed.

Lemma last_take_elem {A} (l : list A) n : (0 < n)%nat → (n < length l)%nat → ∃ x, last (take n l) = Some x ∧ x ∈ l.
Proof.
  intros Hn Hl. destruct (last (take n l)) as [x|] eqn:E; [|apply last_None in E; destruct l, n; simpl in *; try lia; done].
  exists x. split; [done|]. apply last_Some in E as [l' E]. rewrite <-(take_drop n l), E. set_solver.
Qed.

Lemma serviceList_spec rs l q :
  keeps rs l → Forall dated rs → query_ok q → ahFaults l = [] →
  serviceList unmarshal true q l = (Ok (pageOf q rs), l).
Proof.
  intros Hk Hd Hq Hf. unfold serviceList, gbind, glift. pose proof Hq as (Hv & _). cbn [negb]. rewrite Hv.
  rewrite (listRecords_spec rs l q) by done. pose proof (query_limit q Hq) as Hlim.
  change (match last ?r with Some x => hrHistoryCursor x | None => 0 end) with (lastCursor r). rewrite lastCursor_reread.
  unfold pageOf. case_bool_decide as Hm; cbn [andb].
  - destruct (last_take_elem (matching q rs) (Z.to_nat (hqLimit q))) as (x & Hx & Hin); [lia..|].
    assert (1 ≤ hrHistoryCursor x) as Hc.
    { apply list_elem_of_filter in Hin as [_ Hin]. pose proof (kp_cursors _ _ Hk) as Hcs. rewrite Forall_forall in Hcs.
      specialize (Hcs x Hin). simpl in Hcs. lia. }
    unfold lastCursor. rewrite Hx. rewrite (proj2 (Z.eqb_neq _ _)) by lia. unfold validatePage. cbn [hpRecords hpNextCursor hpHasMore andb].
    rewrite (proj2 (Z.eqb_neq _ _)) by lia.
    destruct (map reread (take (Z.to_nat (hqLimit q)) (matching q rs))) eqn:E; [|done].
    apply map_eq_nil in E. by rewrite E in Hx.
  - done.
Qed.

(** A reader that follows the cursors, while records are appended before each
    page: what it has read, whether it has come to the end, and the table. *)
Definition appendAll (news : list (AlarmRecord D)) (l : AlarmLog) : AlarmLog :=
  foldl (fun l r => (appendRecord marshal r l).2) l news.

Fixpoint readPages (schedule : list (list (AlarmRecord D))) (q : HistoryQuery) (l : AlarmLog)
    : list (AlarmRecord D) * bool * AlarmLog :=
  match schedule with
  | [] => ([], false, l)
  | news :: rest =>
      match serviceList unmarshal true q (appendAll news l) with
      | (Err _, l) => ([], false, l)
      | (Ok page, l) =>
          match hpNextCursor page with
          | None => (hpRecords page, true, l)
          | Some c => let '(records, done, l) := readPages rest (after c q) l in (hpRecords page ++ records, done, l)
          end
      end
  end.

Lemma appendRecord_faults r l : ahFaults l = [] → ahFaults (appendRecord marshal r l).2 = [].
Proof.
  intros Hf. unfold appendRecord, insertRow, gbind, glift, gget, gput, gret, gfail, statement.
  destruct (validateRecord r); [|done]. destruct (marshal _); [|done]. rewrite Hf. repeat case_match; by simplify_eq.
Qed.

Lemma appendAll_keeps news rs l :
  keeps rs l → Forall dated rs → Forall dated news → ahFaults l = [] →
  ∃ rs', keeps rs' (appendAll news l) ∧ rs `prefix_of` rs' ∧ Forall dated rs' ∧ ahFaults (appendAll news l) = [].
Proof.
  revert rs l. induction news as [|r news IH]; intros rs l Hk Hd Hn Hf; [by exists rs|].
  inversion_clear Hn as [|?? Hr Hn']. pose proof (appendRecord_spec rs l r Hk) as Hs.
  pose proof (appendRecord_faults r l Hf) as Hf'. unfold appendAll. cbn [foldl]. fold (appendAll news (appendRecord marshal r l).2).
  destruct (appendRecord marshal r l) as [[r'|e] l']; cbn [fst snd] in *.
  - destruct Hs as [-> Hk']. destruct (IH _ _ Hk') as (rs' & ? & Hp & ? & ?); [|done..|].
    { apply Forall_app. split; [done|]. by apply Forall_singleton. }
    exists rs'. split_and!; try done. etrans; [|exact Hp]. by eexists.
  - destruct Hs as [Hk' _]. by apply IH.
Qed.

Lemma matching_prefix q rs rs' : rs `prefix_of` rs' → matching q rs `prefix_of` matching q rs'.
Proof. intros [k ->]. rewrite filter_app. by eexists. Qed.

Lemma filter_everything {A} (P : A → Prop) `{∀ a, Decision (P a)} l : Forall P l → filter P l = l.
Proof. induction 1 as [|x l Hx _ IH]; [done|]. by rewrite filter_cons_True, IH. Qed.

(** In a list in cursor order, the records after one of them are its tail. *)
Lemma filter_tail (l1 l2 : list (AlarmRecord D)) x :
  StronglySorted Z.lt (map hrHistoryCursor (l1 ++ x :: l2)) →
  filter (fun r => hrHistoryCursor x < hrHistoryCursor r) (l1 ++ x :: l2) = l2.
Proof.
  induction l1 as [|y l1 IH]; simpl; intros Hs; inversion_clear Hs as [|?? Hl Hx]; rewrite Forall_map in Hx;
    rewrite filter_cons_False.
  - by apply filter_everything.
  - lia.
  - by apply IH.
  - rewrite Forall_app, Forall_cons in Hx. destruct Hx as (_ & Hx & _). simpl in Hx. lia.
Qed.

Lemma matching_after q rs n :
  StronglySorted Z.lt (map hrHistoryCursor rs) → (0 < n)%nat → (n < length (matching q rs))%nat →
  matching (after (lastCursor (take n (matching q rs))) q) rs = drop n (matching q rs).
Proof.
  intros Hs Hn Hl. unfold lastCursor. destruct (last_take_elem (matching q rs) n Hn Hl) as (x & Hx & Hin). rewrite Hx.
  pose proof Hx as [l1 E]%last_Some.
  assert (matching q rs = l1 ++ x :: drop n (matching q rs)) as EL.
  { rewrite <-(take_drop n (matching q rs)) at 1. rewrite E. by rewrite <-app_assoc. }
  apply list_elem_of_filter in Hin as [Hm _]. unfold matches in Hm. propify.
  trans (filter (fun r => hrHistoryCursor x < hrHistoryCursor r) (matching q rs)).
  - rewrite list_filter_filter. apply list_filter_iff. intros r. unfold matches, after. cbn [hqFrom hqTo hqAfterCursor].
    rewrite !andb_true_iff, !Z.ltb_lt, !Z.leb_le. lia.
  - rewrite EL at 1. apply filter_tail. rewrite <-EL. by apply sorted_filter.
Qed.

(** Following the cursors reads every matching record once, in order. *)
Lemma readPages_spec schedule : ∀ q rs l,
  keeps rs l → Forall dated rs → Forall (Forall dated) schedule → query_ok q → ahFaults l = [] →
  let '(got, done, l') := readPages schedule q l in
  ∃ rs', keeps rs' l' ∧ rs `prefix_of` rs' ∧ Forall dated rs' ∧
    (done = true → got = map reread (matching q rs')) ∧ got `prefix_of` map reread (matching q rs') ∧
    ((length (matching q rs') < length schedule)%nat → done = true).
Proof.
  induction schedule as [|news rest IH]; intros q rs l Hk Hd Hn Hq Hf; cbn [readPages].
  { exists rs. split_and!; try done; [apply prefix_nil|simpl; lia]. }
  inversion_clear Hn as [|?? Hnews Hrest]. destruct (appendAll_keeps news rs l) as (rs1 & Hk1 & Hp1 & Hd1 & Hf1); [done..|].
  rewrite (serviceList_spec rs1) by done. pose proof (query_limit q Hq) as Hlim. unfold pageOf. cbn [hpNextCursor hpRecords].
  case_bool_decide as Hmore; cycle 1.
  { exists rs1. rewrite take_ge by lia. split_and!; done. }
  set (n := Z.to_nat (hqLimit q)). set (c := lastCursor (take n (matching q rs1))).
  assert (n < length (matching q rs1))%nat as Hlt by lia.
  assert (c ∈ map hrHistoryCursor rs1) as Hc.
  { unfold c, lastCursor. destruct (last_take_elem (matching q rs1) n ltac:(lia) Hlt) as (x & -> & Hx).
    apply list_elem_of_filter in Hx as [_ Hx]. apply list_elem_of_fmap. by exists x. }
  assert (query_ok (after c q)) as Hq'.
  { destruct Hq as (Hv & _ & ? & ?). split_and!; try done; cbn [hqAfterCursor after]; apply list_elem_of_fmap in Hc as (x & -> & Hx);
      pose proof (kp_cursors _ _ Hk1) as Hcs; rewrite Forall_forall in Hcs; specialize (Hcs x Hx);
      pose proof (kp_seq _ _ Hk1); simpl in Hcs; lia. }
  specialize (IH (after c q) rs1 _ Hk1 Hd1 Hrest Hq' Hf1).
  destruct (readPages rest (after c q) (appendAll news l)) as [[got done] l'].
  destruct IH as (rs' & Hk' & Hp' & Hd' & Hgot & Hpre & Hdone).
  assert (take n (matching q rs1) = take n (matching q rs')) as Et.
  { destruct (matching_prefix q rs1 rs' Hp') as [k ->]. by rewrite take_app_le by lia. }
  assert (n < length (matching q rs'))%nat as Hlt' by (apply (Nat.lt_le_trans _ _ _ Hlt), prefix_length, matching_prefix; done).
  assert (matching (after c q) rs' = drop n (matching q rs')) as Ea.
  { unfold c. rewrite Et. apply matching_after; [apply (kp_order _ _ Hk')|lia|done]. }
  rewrite Ea in *. exists rs'. split_and!; [done|by etrans|done| | |].
  - intros Hdn. rewrite (Hgot Hdn), Et, <-map_app. by rewrite take_drop.
  - destruct Hpre as [k Hk0]. exists k. rewrite <-app_assoc, <-Hk0, Et, <-map_app. by rewrite take_drop.
  - rewrite length_drop in Hdone. cbn [length]. intros Hl. apply Hdone. lia.
Qed.
End history.

(** ** The migration *)

(** The same schema, rows and archive; statements may have been used up. *)
Record same_history (db db' : HistoryDB) : Prop := {
  sh_columns : hdColumns db' = hdColumns db;
  sh_rows : ahRows (hdLog db') = ahRows (hdLog db);
  sh_seq : ahSeq (hdLog db') = ahSeq (hdLog db);
  sh_legacy : hdLegacy db' = hdLegacy db
}.

#[export] Instance same_history_equiv : Equivalence same_history.
Proof.
  split; [intros ?; by split|intros ?? []; by split|intros ??? [] []; split; congruence].
Qed.

Lemma wp_schemaStatement (Q : result history_error unit → HistoryDB → Prop) db :
  (∀ r db', same_history db db' → Q r db') → wp schemaStatement Q db.
Proof.
  intros HQ. unfold wp, schemaStatement, onLog. pose proof (statement_rows (hdLog db)) as [Hr Hs].
  destruct (statement (hdLog db)) as [r l]. by apply HQ.
Qed.

Lemma wp_tableColumns (Q : result history_error (list HistoryColumn) → HistoryDB → Prop) db :
  (∀ db', same_history db db' → Q (Ok (hdColumns db)) db') → (∀ e db', same_history db db' → Q (Err e) db') →
  wp tableColumns Q db.
Proof.
  intros HO HE. unfold tableColumns. apply wp_bind, wp_schemaStatement. intros [[]|e] db' Hs; [|by apply HE].
  apply wp_bind. apply wp_ret. rewrite (sh_columns _ _ Hs). by apply HO.
Qed.

Lemma wp_transaction body (Q : result history_error unit → HistoryDB → Prop) db :
  wp body (fun r db' => match r with
                        | Ok _ => Q (Ok tt) db'
                        | Err e => ∀ db', same_history db db' → Q (Err e) db'
                        end) db →
  wp (transaction body) Q db.
Proof. unfold wp, transaction. destruct (body db) as [[[]|e] db']; cbn [fst snd]; [done|]. intros HQ. by apply HQ. Qed.

Lemma insertAll_spec rows : ∀ l l',
  insertAll rows l = Ok l' →
  ahRows l' = ahRows l ++ map current rows ∧ ahSeq l ≤ ahSeq l' ∧
  Forall (fun row => ahCursor row ≤ ahSeq l' ∧ checkRow row = true) rows.
Proof.
  induction rows as [|row rows IH]; intros l l'; cbn [insertAll map].
  { intros [= <-]. rewrite app_nil_r. split_and!; [done|lia|constructor]. }
  destruct (checkRow row) eqn:Hc; cbn [negb]; [|done]. destruct (existsb _ _); [done|].
  intros (Hr & Hs & Hf)%IH. cbn [ahRows ahSeq] in *. rewrite Hr, <-app_assoc. split_and!; [done|lia|].
  constructor; [split; [lia|done]|done].
Qed.

(** What a successful migration leaves. *)
Definition migrated (db db' : HistoryDB) : Prop :=
  hdColumns db' = currentColumns ∧ hdLegacy db' = Some (hdColumns db, ahRows (hdLog db)) ∧
  ahRows (hdLog db') = map current (merge_sort cursorLe (ahRows (hdLog db))) ∧
  Forall (fun row => ahCursor row ≤ ahSeq (hdLog db') ∧ checkRow row = true) (ahRows (hdLog db)).

(** Steps over an access to the state. *)
Ltac wp_state := apply wp_bind; unfold wp at 1; cbn [gget gput glift fst snd].

Lemma rebuildTable_spec db :
  wp rebuildTable (fun r db' => match r with Ok _ => migrated db db' | Err _ => True end) db.
Proof.
  unfold rebuildTable. apply wp_bind, wp_schemaStatement. intros [[]|e] db1 H1; [|done].
  wp_state. destruct (hdLegacy db1) eqn:Hl; [done|]. wp_state.
  apply wp_bind, wp_schemaStatement. intros [[]|e] db2 H2; [|done].
  apply wp_bind, wp_schemaStatement. intros [[]|e] db3 H3; [|done]. wp_state. wp_state.
  destruct (insertAll _ _) as [l|e] eqn:Hi; [|done]. apply insertAll_spec in Hi as (Hr & _ & Hf).
  wp_state. apply wp_bind, wp_schemaStatement. intros [[]|e] db4 H4; [|done].
  apply wp_schemaStatement. intros [[]|e] db5 H5; [|done].
  pose proof (transitivity H4 H5) as H6. destruct H6 as [C6 R6 S6 L6], H1 as [C1 R1 S1 L1]. cbn in *.
  pose proof (transitivity H2 H3) as [C3 R3 S3 L3]. cbn in *.
  split; [done|]. split; [rewrite L6, L3, C1, R1; done|]. split.
  - by rewrite R6, Hr, R1.
  - rewrite S6. rewrite Forall_forall in Hf |- *. intros row Hrow. apply Hf. by rewrite merge_sort_Permutation, R1.
Qed.

Lemma ensure_spec db :
  wp ensureAlarmHistoryV2Schema (fun r db' =>
    match r with
    | Ok _ => schemaMatches (hdColumns db') = true ∧ (same_history db db' ∨ migrated db db')
    | Err _ => same_history db db'
    end) db.
Proof.
  unfold ensureAlarmHistoryV2Schema. apply wp_bind, wp_tableColumns; [|done]. intros db1 H1.
  destruct (schemaMatches (hdColumns db)) eqn:Hm.
  { apply wp_ret. split; [by rewrite (sh_columns _ _ H1)|by left]. }
  destruct (containsCommonColumns (hdColumns db)) eqn:Hc; cbn [negb]; [|by apply wp_fail].
  apply wp_transaction, wp_bind, wp_schemaStatement.
  intros [[]|e] db2 H2; [|intros db' H'; by trans db1].
  apply wp_bind, wp_tableColumns; [|intros e db' _ db3 H3; by trans db1]. intros db3 H3.
  rewrite (sh_columns _ _ H2), (sh_columns _ _ H1), Hm, Hc. cbn [negb].
  eapply wp_mono; [apply rebuildTable_spec|]. intros [[]|e] db4; [|intros _ db' H'; by trans db1].
  intros (Hcol & Hleg & Hrow & Hf). pose proof (transitivity H1 (transitivity H2 H3)) as [C R S L].
  split; [rewrite Hcol; by vm_compute|right]. unfold migrated. by rewrite <-C, <-R.
Qed.
