(* ===== verification/MqttPacket.v ===== *)
(** * MQTT 5 packets: the wire format of [internal/mqttv2/session.go]

    The packets the client writes and the ones it reads, over lists of bytes.
    The reader is a function of the bytes received so far: a packet and what
    follows it, not enough bytes yet, or an invalid length. *)

From Stdlib Require Import Ascii String.
From S2P Require Import Prelude GoText Easy521.

(** [Publication], and [Inbound], which has the same fields. *)
Record Publication := mkPublication { pbTopic : string; pbPayload : string; pbQoS : Z; pbRetain : bool }.

#[global] Instance Publication_eq_dec : EqDecision Publication. Proof. solve_decision. Defined.

Inductive mqtt_error : Type :=
| MEDisconnected | MESenderMissing | MEInboundPolicy | MEInvalidRequest | MEDecode | MEEncode | METooLarge
| MEHistoryMissing | MEHistory | MEConnack | MESuback | MEIO (e : string).

(** ** Writing *)

(** One digit per round; [int] has 64 bits, so ten rounds are enough. *)
Fixpoint encodeLength (fuel : nat) (length_ : Z) : list Z :=
  match fuel with
  | O => []
  | S fuel' =>
      let digit := u8 (length_ mod 128) in
      let length_ := length_ / 128 in
      if 0 <? length_ then Z.lor digit 128 :: encodeLength fuel' length_ else [digit]
  end.

Definition encodeRemainingLength (length_ : Z) : list Z := encodeLength 10 length_.

Definition mqttString (value : string) : list Z :=
  let n := Z.of_nat (String.length value) in u8 (Z.shiftr n 8) :: u8 n :: bytesOf value.

Definition connectPayload (clientID : string) : list Z :=
  mqttString "MQTT" ++ [5; 2; 0; 30; 0] ++ mqttString clientID.

Definition publishPayload (p : Publication) : list Z := mqttString (pbTopic p) ++ [0] ++ bytesOf (pbPayload p).

Definition subscribePayload (subscriptions : list string) : list Z :=
  [0; 1; 0] ++ mjoin (map (fun topic => mqttString topic ++ [0]) subscriptions).

(** What [writePacket] writes. *)
Definition packet (header : Z) (payload : list Z) : list Z :=
  header :: encodeRemainingLength (Z.of_nat (length payload)) ++ payload.

(** [client.Publish] on the current connection, if there is one: the bytes
    written to it. *)
Definition clientPublish (connected : bool) (p : Publication) : result mqtt_error (list Z) :=
  if negb (pbQoS p =? 0) || pbRetain p then Err MEInvalidRequest
  else if negb connected then Err MEDisconnected
  else Ok (packet 48 (publishPayload p)).

(** ** Reading *)

Inductive packet_read : Type :=
| PacketShort
| PacketInvalid
| PacketOk (header : Z) (payload rest : list Z).

Fixpoint readLength (count : nat) (header length_ multiplier : Z) (input : list Z) : packet_read :=
  match count with
  | O => PacketInvalid
  | S count' =>
      match input with
      | [] => PacketShort
      | digit :: rest =>
          let length_ := length_ + Z.land digit 127 * multiplier in
          if Z.land digit 128 =? 0 then
            if (length rest <? Z.to_nat length_)%nat then PacketShort
            else PacketOk header (take (Z.to_nat length_) rest) (drop (Z.to_nat length_) rest)
          else readLength count' header length_ (multiplier * 128) rest
      end
  end.

Definition readPacket (input : list Z) : packet_read :=
  match input with
  | [] => PacketShort
  | first :: rest => readLength 4 first 0 1 rest
  end.

Fixpoint decodeFrom (count : nat) (offset value multiplier : Z) (payload : list Z) : option (Z * Z) :=
  match count with
  | O => None
  | S count' =>
      match payload with
      | [] => None
      | digit :: rest =>
          let value := value + Z.land digit 127 * multiplier in
          if Z.land digit 128 =? 0 then Some (value, offset + 1)
          else decodeFrom count' (offset + 1) value (multiplier * 128) rest
      end
  end.

Definition decodeVariableByteInteger (payload : list Z) : option (Z * Z) := decodeFrom 4 0 0 1 payload.

(** [handlePublish], up to the call of [OnMessage]. *)
Definition handlePublish (header : Z) (payload : list Z) : result mqtt_error Publication :=
  let qos := Z.land (Z.shiftr header 1) 3 in
  let size := Z.of_nat (length payload) in
  if negb (qos =? 0) || negb (Z.land header 1 =? 0) || (size <? 2) then Err MEInboundPolicy
  else
    let length_ := u16At payload 0 in
    if (length_ =? 0) || (size <? 2 + length_) then Err MEInvalidRequest
    else
      match decodeVariableByteInteger (drop (Z.to_nat (2 + length_)) payload) with
      | None => Err MEInvalidRequest
      | Some (propertiesLength, propertiesStart) =>
          if size - (2 + length_ + propertiesStart) <? propertiesLength then Err MEInvalidRequest
          else
            let payloadStart := 2 + length_ + propertiesStart + propertiesLength in
            Ok (mkPublication (textOf (take (Z.to_nat length_) (drop 2 payload)))
                  (textOf (drop (Z.to_nat payloadStart) payload)) qos (negb (Z.land header 1 =? 0)))
      end.

Definition validateConnack (payload : list Z) : result mqtt_error unit :=
  if (length payload <? 3)%nat then Err MEConnack
  else
    let ackFlags := byteAt payload 0 in
    if negb (Z.ldiff ackFlags 1 =? 0) || negb (Z.land ackFlags 1 =? 0) then Err MEConnack
    else match decodeVariableByteInteger (drop 2 payload) with
         | None => Err MEConnack
         | Some (propertiesLength, propertiesStart) =>
             if negb (propertiesLength =? Z.of_nat (length payload) - (2 + propertiesStart)) then Err MEConnack
             else if negb (byteAt payload 1 =? 0) then Err MEConnack else Ok tt
         end.

Definition validateSuback (payload : list Z) (subscriptions : nat) : result mqtt_error unit :=
  if (length payload <? 3)%nat || negb (byteAt payload 0 =? 0) || negb (byteAt payload 1 =? 1) then Err MESuback
  else match decodeVariableByteInteger (drop 2 payload) with
       | None => Err MESuback
       | Some (propertiesLength, propertiesStart) =>
           let reasonsStart := 2 + propertiesStart + propertiesLength in
           let size := Z.of_nat (length payload) in
           if (size <? reasonsStart) || negb (size - reasonsStart =? Z.of_nat subscriptions) then Err MESuback
           else if forallb (fun reasonCode => reasonCode =? 0) (drop (Z.to_nat reasonsStart) payload) then Ok tt
           else Err MESuback
       end.

(** [connect] over the bytes the broker answers: what has been written, and
    whether the connection is kept, with the bytes left to [serve]. *)
Definition connect (clientID : string) (subscriptions : list string) (input : list Z)
    : list Z * result mqtt_error (list Z) :=
  let hello := packet 16 (connectPayload clientID) in
  match readPacket input with
  | PacketShort | PacketInvalid => (hello, Err (MEIO "read"))
  | PacketOk header payload rest =>
      if negb (header =? 32) then (hello, Err MEConnack)
      else match validateConnack payload with
           | Err e => (hello, Err e)
           | Ok _ =>
               if (0 <? length subscriptions)%nat then
                 let subscribe := packet 130 (subscribePayload subscriptions) in
                 match readPacket rest with
                 | PacketShort | PacketInvalid => (hello ++ subscribe, Err (MEIO "read"))
                 | PacketOk header payload rest =>
                     if negb (header =? 144) then (hello ++ subscribe, Err MESuback)
                     else match validateSuback payload (length subscriptions) with
                          | Err e => (hello ++ subscribe, Err e)
                          | Ok _ => (hello ++ subscribe, Ok rest)
                          end
                 end
               else (hello, Ok rest)
           end
  end.

(** ** Serving a connection

    [serve] runs a reader in a goroutine of its own, which hands each publication
    to [OnMessage], and itself waits for the end of the context, the reader's
    error or the next ping. *)

Record Serving (S : Type) := mkServing {
  cnInput : list Z;                            (* what has arrived and is not read *)
  cnEnd : option string;                       (* reading past it fails *)
  cnReader : option mqtt_error;                (* what the reader has sent to its channel *)
  cnState : S;                                 (* what [OnMessage] works on *)
  cnCancelled : bool;
  cnWritten : list Z;
  cnServe : option (result mqtt_error unit)    (* what [serve] has returned *)
}.
Arguments mkServing {S} cnInput cnEnd cnReader cnState cnCancelled cnWritten cnServe.
Arguments cnInput {S} s.
Arguments cnEnd {S} s.
Arguments cnReader {S} s.
Arguments cnState {S} s.
Arguments cnCancelled {S} s.
Arguments cnWritten {S} s.
Arguments cnServe {S} s.

(** [serve] on a connection that [connect] has made; [rest] has arrived with its
    answers. *)
Definition startServing {S : Type} (rest : list Z) (s : S) : Serving S := mkServing rest None None s false [] None.

Inductive serve_event : Type :=
| SvArrive (bytes : list Z)              (* bytes arrive *)
| SvEnd (e : string)                     (* the connection is closed or lost *)
| SvRound                                (* a round of the reader *)
| SvCancel                               (* the context ends *)
| SvDone                                 (* [serve] sees that it has ended *)
| SvError                                (* [serve] takes the reader's error *)
| SvPing (fault : option string).        (* a tick; the write may fail *)

Section serving.
Context {S : Type} (OnMessage : Publication → S → result mqtt_error unit * S).

Definition setReader (input : list Z) (reader : option mqtt_error) (s : S) (c : Serving S) : Serving S :=
  mkServing input (cnEnd c) reader s (cnCancelled c) (cnWritten c) (cnServe c).
Definition setServe (e : option string) (written : list Z) (r : option (result mqtt_error unit)) (c : Serving S) : Serving S :=
  mkServing (cnInput c) e (cnReader c) (cnState c) (cnCancelled c) written r.

(** The loop's body; [None] while it waits for bytes or has ended. *)
Definition readRound (c : Serving S) : option (Serving S) :=
  match cnReader c with
  | Some _ => None
  | None =>
      match readPacket (cnInput c) with
      | PacketShort =>
          match cnEnd c with Some e => Some (setReader [] (Some (MEIO e)) (cnState c) c) | None => None end
      | PacketInvalid => Some (setReader [] (Some (MEIO "MQTT remaining length is invalid")) (cnState c) c)
      | PacketOk header payload rest =>
          if Z.shiftr header 4 =? 3 then
            match handlePublish header payload with
            | Err e => Some (setReader rest (Some e) (cnState c) c)
            | Ok inbound =>
                let '(r, s) := OnMessage inbound (cnState c) in
                Some (setReader rest (match r with Ok _ => None | Err e => Some e end) s c)
            end
          else Some (setReader rest None (cnState c) c)
      end
  end.

Definition serveEvent (ev : serve_event) (c : Serving S) : option (Serving S) :=
  match ev with
  | SvArrive bytes =>
      match cnEnd c with
      | None => Some (setReader (cnInput c ++ bytes) (cnReader c) (cnState c) c)
      | Some _ => None
      end
  | SvEnd e => match cnEnd c with None => Some (setServe (Some e) (cnWritten c) (cnServe c) c) | Some _ => None end
  | SvRound => readRound c
  | SvCancel => Some (mkServing (cnInput c) (cnEnd c) (cnReader c) (cnState c) true (cnWritten c) (cnServe c))
  | SvDone =>
      match cnServe c, cnCancelled c with
      | None, true => Some (setServe (Some (default "use of closed network connection"%string (cnEnd c))) (cnWritten c) (Some (Ok tt)) c)
      | _, _ => None
      end
  | SvError =>
      match cnServe c, cnReader c with
      | None, Some e => Some (setServe (cnEnd c) (cnWritten c) (Some (Err e)) c)
      | _, _ => None
      end
  | SvPing fault =>
      match cnServe c, fault with
      | None, None => Some (setServe (cnEnd c) (cnWritten c ++ packet 192 []) None c)
      | None, Some e => Some (setServe (cnEnd c) (cnWritten c) (Some (Err (MEIO e))) c)
      | Some _, _ => None
      end
  end.

Fixpoint serveRun (events : list serve_event) (c : Serving S) : option (Serving S) :=
  match events with
  | [] => Some c
  | ev :: rest => match serveEvent ev c with Some c => serveRun rest c | None => None end
  end.
End serving.

(** The packets of the repository's own tests. *)
Example connect_payload :
  connectPayload "block-001" =
    [0; 4; 77; 81; 84; 84; 5; 2; 0; 30; 0; 0; 9; 98; 108; 111; 99; 107; 45; 48; 48; 49].
Proof. reflexivity. Qed.
Example subscribe_payload :
  subscribePayload ["one"; "two"] = [0; 1; 0; 0; 3; 111; 110; 101; 0; 0; 3; 116; 119; 111; 0].
Proof. reflexivity. Qed.
Example connack_payload : validateConnack [0; 0; 3; 33; 0; 10] = Ok tt ∧ validateConnack [0; 135; 0] = Err MEConnack.
Proof. split; reflexivity. Qed.
Example suback_payload : validateSuback [0; 1; 0; 0; 0] 2 = Ok tt ∧ validateSuback [0; 1; 0; 128; 0] 2 = Err MESuback.
Proof. split; reflexivity. Qed.
