(* ===== verification/MqttManager.v ===== *)
(** * The MQTT manager: [internal/mqttv2/manager.go] and [contract.go]

    The best-effort link to the data hub: the latest state, published on change,
    on connection and periodically, alarm notifications, and two read-only
    requests.  Each operation is what it does under the manager's lock, with the
    publication it leads to; [Link] interleaves the goroutines that hand the
    publications to the sender after the lock was released.  Encoding and
    decoding JSON, the fingerprint's JSON text and RFC 3339 parsing are
    arguments; an operation's clock readings are its arguments. *)

From Stdlib Require Import Ascii String.
From S2P Require Import Prelude GoText GoValue PointStore AlarmHistory MqttPacket.

Definition DefaultPublishInterval : Z := 60 * second.
Definition maximumJSONPayload : Z := 65536.

Record Source := mkSource { soSiteID : string; soBlockID : string; soDeviceID : string }.

Record Topics := mkTopics {
  tpStateLatest : string; tpStateGet : string; tpAlarmNotify : string; tpAlarmHistoryQuery : string;
  tpAlarmHistoryPage : string
}.

Definition NewTopics (siteID blockID : string) : Topics :=
  let base := ("bdm/v2/sites/" +:+ siteID +:+ "/blocks/" +:+ blockID)%string in
  mkTopics (base +:+ "/up/state/latest") (base +:+ "/down/state/get") (base +:+ "/up/alarm/notify")
    (base +:+ "/down/alarm-history/query") (base +:+ "/up/alarm-history/page").

Record MqttSnapshot := mkMqttSnapshot { msValues : gmap string PointValue; msStateAt : Z }.

(** [toMQTTSnapshot] of the agent: the store's values under the link's types. *)
Definition toMQTTSnapshot (values : gmap string PointValue) (now : Z) : MqttSnapshot := mkMqttSnapshot values now.

Record StateGet := mkStateGet { sgType : string; sgSchemaVersion : string; sgRequestID : string; sgTarget : Source }.

Record AlarmHistoryQuery := mkAlarmHistoryQuery {
  aqType : string; aqSchemaVersion : string; aqRequestID : string; aqTarget : Source;
  aqFromOccurredAt : string; aqToOccurredAt : string; aqAfterCursor : option Z; aqLimit : Z
}.

(** The three documents; type, version and source are the same in all. *)
Inductive document (D : Type) : Type :=
| StateCurrent (requestID : string) (stateAt sentAt : Z) (state : gmap string PointValue)
| AlarmNotification (sentAt : Z) (alarm : AlarmRecord D)
| AlarmHistoryPage (requestID : string) (page : HistoryPage D).
Arguments StateCurrent {D}.
Arguments AlarmNotification {D}.
Arguments AlarmHistoryPage {D}.

Record Manager := mkManager {
  mgSource : Source;
  mgInterval : Z;
  mgConnected : bool;
  mgLatest : option MqttSnapshot;
  mgLastAttemptedState : string;
  mgLastPeriodicPublish : Z
}.

Definition mgTopics (m : Manager) : Topics := NewTopics (soSiteID (mgSource m)) (soBlockID (mgSource m)).

Definition NewManager (source : Source) (interval : Z) : Manager :=
  mkManager source (if interval <=? 0 then DefaultPublishInterval else interval) false None "" zeroTime.

Definition setConnected (v : bool) (m : Manager) : Manager :=
  mkManager (mgSource m) (mgInterval m) v (mgLatest m) (mgLastAttemptedState m) (mgLastPeriodicPublish m).
Definition setLatest (v : MqttSnapshot) (m : Manager) : Manager :=
  mkManager (mgSource m) (mgInterval m) (mgConnected m) (Some v) (mgLastAttemptedState m) (mgLastPeriodicPublish m).
Definition setAttempted (v : string) (m : Manager) : Manager :=
  mkManager (mgSource m) (mgInterval m) (mgConnected m) (mgLatest m) v (mgLastPeriodicPublish m).
Definition setPeriodic (v : Z) (m : Manager) : Manager :=
  mkManager (mgSource m) (mgInterval m) (mgConnected m) (mgLatest m) (mgLastAttemptedState m) v.

(** ** Contract *)

Definition validSource (s : Source) : bool := (soSiteID s <>s "") && (soBlockID s <>s "") && (soDeviceID s <>s "").

Definition isHex (a : ascii) : bool :=
  let n := nat_of_ascii a in
  ((48 <=? n) && (n <=? 57) || (65 <=? n) && (n <=? 70) || (97 <=? n) && (n <=? 102))%nat.

(** [requestIDPattern]: groups of hex digits joined by dashes. *)
Fixpoint matchGroups (groups : list nat) (s : string) : bool :=
  match groups with
  | [] => false
  | n :: rest =>
      let head := String.substring 0 n s in
      let tail := drop_str n s in
      (String.length head =? n)%nat && forallb isHex (list_ascii_of_string head) &&
      match rest, tail with
      | [], EmptyString => true
      | _ :: _, String "-" tail => matchGroups rest tail
      | _, _ => false
      end
  end.

Definition validRequestID (s : string) : bool := matchGroups [8; 4; 4; 4; 12]%nat s.

Definition isGood (kv : string * PointValue) : Prop := pvQuality kv.2 = "good"%string.
#[global] Instance isGood_dec kv : Decision (isGood kv).
Proof. unfold isGood. apply _. Defined.

(** The good points, and the newest instant among them and the snapshot's. *)
Definition goodPoints (snapshot : MqttSnapshot) : gmap string PointValue * Z :=
  let points := filter isGood (msValues snapshot) in
  (points, map_fold (fun _ point stateAt => if stateAt <? pvUpdatedAt point then pvUpdatedAt point else stateAt)
             (msStateAt snapshot) points).

Definition hasSuffixZ (s : string) : bool :=
  match String.rev s with String "Z" _ => true | _ => false end.

(** The history the manager reads pages of. *)
Class HistoryReader (D H : Type) := { hList : HistoryQuery → H → result history_error (HistoryPage D) * H }.

Section manager.
Context {D H : Type} `{HistoryReader D H}.
Variables (encode : Source → document D → option string) (fingerprint : gmap string PointValue → string)
  (decodeStateGet : string → option StateGet) (decodeQuery : string → option AlarmHistoryQuery)
  (parseRFC3339 : string → option Z).

Definition publicationFor (m : Manager) (topic : string) (value : document D) : result mqtt_error Publication :=
  match encode (mgSource m) value with
  | None => Err MEEncode
  | Some payload =>
      if maximumJSONPayload <? Z.of_nat (String.length payload) then Err METooLarge
      else Ok (mkPublication topic payload 0 false)
  end.

(** ** What the operations do under the lock *)

Definition currentPublicationLocked (requestID : string) (force : bool) (now : Z) (m : Manager)
    : result mqtt_error (option Publication) * Manager :=
  match mgConnected m, mgLatest m with
  | true, Some latest =>
      if negb (validSource (mgSource m)) then (Err MEInvalidRequest, m)
      else
        let '(points, stateAt) := goodPoints latest in
        if bool_decide (points = ∅) then (Ok None, m)
        else if negb force && (fingerprint points =s mgLastAttemptedState m) then (Ok None, m)
        else
          let m := setAttempted (fingerprint points) m in
          let stateAt := if isZero stateAt then now else stateAt in
          (rbind (publicationFor m (tpStateLatest (mgTopics m)) (StateCurrent requestID stateAt now points))
             (fun p => Ok (Some p)), m)
  | _, _ => (Ok None, m)
  end.

(** [now] dates the publication, [now'] is the second reading of the clock. *)
Definition Connected (now now' : Z) (m : Manager) : result mqtt_error (option Publication) * Manager :=
  if mgConnected m then (Ok None, m)
  else
    let '(r, m) := currentPublicationLocked "" true now (setConnected true m) in
    (r, setPeriodic now' m).

Definition Disconnected (m : Manager) : Manager := setConnected false m.

Definition ObserveSnapshot (snapshot : MqttSnapshot) (now : Z) (m : Manager)
    : result mqtt_error (option Publication) * Manager :=
  currentPublicationLocked "" false now (setLatest snapshot m).

(** [now] decides, [now'] dates the publication. *)
Definition tickDue (now : Z) (m : Manager) : bool :=
  mgConnected m &&
  (isZero (mgLastPeriodicPublish m) || negb (timeSub now (mgLastPeriodicPublish m) <? mgInterval m)).

Definition Tick (now now' : Z) (m : Manager) : result mqtt_error (option Publication) * Manager :=
  if negb (tickDue now m) then (Ok None, m)
  else
    let '(r, m) := currentPublicationLocked "" true now' m in
    (r, setPeriodic now m).

Definition Notify (record : AlarmRecord D) (now : Z) (m : Manager) : result mqtt_error (option Publication) :=
  if negb (mgConnected m) then Err MEDisconnected
  else rbind (publicationFor m (tpAlarmNotify (mgTopics m)) (AlarmNotification now record)) (fun p => Ok (Some p)).

(** ** Requests *)

Definition matchesTarget (target : Source) (m : Manager) : bool :=
  (soSiteID target =s soSiteID (mgSource m)) && (soBlockID target =s soBlockID (mgSource m)) &&
  (soDeviceID target =s soDeviceID (mgSource m)).

(** [decodeStrict]: the payload's size, then the decoder. *)
Definition decodeStrict {A} (decode : string → option A) (payload : string) : result mqtt_error A :=
  if (payload =s "") || (maximumJSONPayload <? Z.of_nat (String.length payload)) then Err MEInvalidRequest
  else match decode payload with Some a => Ok a | None => Err MEDecode end.

(** [handleStateGet] up to the publication: the request id. *)
Definition checkStateGet (payload : string) (m : Manager) : result mqtt_error string :=
  let? request := decodeStrict decodeStateGet payload in
  if negb (sgType request =s "device.state.get") || negb (sgSchemaVersion request =s "2.0") ||
     negb (validRequestID (sgRequestID request)) || negb (matchesTarget (sgTarget request) m)
  then Err MEInvalidRequest
  else if negb (mgConnected m) then Err MEDisconnected
  else Ok (sgRequestID request).

(** [handleAlarmHistoryQuery] up to the lock: the request id and the query. *)
Definition checkHistoryQuery (payload : string) (m : Manager) : result mqtt_error (string * HistoryQuery) :=
  let? request := decodeStrict decodeQuery payload in
  if negb (aqType request =s "alarm.history.query") || negb (aqSchemaVersion request =s "2.0") ||
     negb (validRequestID (aqRequestID request)) || negb (matchesTarget (aqTarget request) m) ||
     (aqLimit request <? 1) || (MaxPageSize <? aqLimit request)
  then Err MEInvalidRequest
  else if negb (hasSuffixZ (aqFromOccurredAt request)) || negb (hasSuffixZ (aqToOccurredAt request))
  then Err MEInvalidRequest
  else match parseRFC3339 (aqFromOccurredAt request), parseRFC3339 (aqToOccurredAt request) with
       | Some from, Some to =>
           let query := mkHistoryQuery from to (default 0 (aqAfterCursor request)) (aqLimit request) in
           match validateQuery query with
           | Ok _ => if mgConnected m then Ok (aqRequestID request, query) else Err MEDisconnected
           | Err _ => Err MEHistory
           end
       | _, _ => Err MEInvalidRequest
       end.

(** The rest of it, after the lock. *)
Definition answerHistoryQuery (requestID : string) (query : HistoryQuery) (m : Manager) (h : H)
    : result mqtt_error Publication * H :=
  match hList query h with
  | (Err _, h) => (Err MEHistory, h)
  | (Ok page, h) =>
      match validatePage page with
      | Err _ => (Err MEHistory, h)
      | Ok _ => (publicationFor m (tpAlarmHistoryPage (mgTopics m)) (AlarmHistoryPage requestID page), h)
      end
  end.

(** What a message asks for once it has passed all checks. *)
Inductive inbound_request : Type :=
| StateRequest (requestID : string)
| HistoryRequest (requestID : string) (query : HistoryQuery).

Definition checkInbound (inbound : Publication) (m : Manager) : result mqtt_error inbound_request :=
  if negb (pbQoS inbound =? 0) || pbRetain inbound then Err MEInboundPolicy
  else if pbTopic inbound =s tpStateGet (mgTopics m) then
    rbind (checkStateGet (pbPayload inbound) m) (fun requestID => Ok (StateRequest requestID))
  else if pbTopic inbound =s tpAlarmHistoryQuery (mgTopics m) then
    rbind (checkHistoryQuery (pbPayload inbound) m) (fun p => Ok (HistoryRequest p.1 p.2))
  else Err MEInvalidRequest.

Definition HandleInbound (inbound : Publication) (now : Z) (m : Manager) (h : H)
    : result mqtt_error (option Publication) * Manager * H :=
  match checkInbound inbound m with
  | Err e => (Err e, m, h)
  | Ok (StateRequest requestID) => (currentPublicationLocked requestID true now m, h)
  | Ok (HistoryRequest requestID query) =>
      let '(r, h) := answerHistoryQuery requestID query m h in
      (rbind r (fun p => Ok (Some p)), m, h)
  end.

(** ** The goroutines around the manager

    A refused message changes nothing and needs no step. *)

Inductive pending : Type :=
| PSend (p : Publication)                              (* on its way to the sender *)
| PQuery (requestID : string) (query : HistoryQuery).  (* released the lock before it reads the history *)

(** What asked for the state: [Connected], [ObserveSnapshot], [Tick] or a request. *)
Inductive cause : Type := CConnected | CObserved | CTicked | CRequested.

(** An operation that may publish the state, as it has ended: the clock reading
    that it remembers or dates with, its answer, and the latest snapshot and the
    last periodic publication of the manager that it leaves. *)
Record turn := mkTurn {
  tnCause : cause;
  tnNow : Z;
  tnLatest : option MqttSnapshot;
  tnResult : result mqtt_error (option Publication);
  tnLast : Z
}.

Definition turnOf (c : cause) (now : Z) (r : result mqtt_error (option Publication)) (m : Manager) : turn :=
  mkTurn c now (mgLatest m) r (mgLastPeriodicPublish m).

(** [lkTurns] keeps the operations in their order. *)
Record Link := mkLink {
  lkManager : Manager;
  lkHistory : H;
  lkPending : list pending;
  lkSent : list Publication;
  lkObserved : list MqttSnapshot;
  lkTurns : list turn
}.

Definition sending (r : result mqtt_error (option Publication)) : list pending :=
  match r with Ok (Some p) => [PSend p] | _ => [] end.

Inductive link_step : Link → Link → Prop :=
| link_connected now now' m h ps sent obs turns r m' :
    Connected now now' m = (r, m') →
    link_step (mkLink m h ps sent obs turns)
      (mkLink m' h (ps ++ sending r) sent obs (turns ++ [turnOf CConnected now' r m']))
| link_disconnected m h ps sent obs turns :
    link_step (mkLink m h ps sent obs turns) (mkLink (Disconnected m) h ps sent obs turns)
| link_observe snapshot now m h ps sent obs turns r m' :
    ObserveSnapshot snapshot now m = (r, m') →
    link_step (mkLink m h ps sent obs turns)
      (mkLink m' h (ps ++ sending r) sent (obs ++ [snapshot]) (turns ++ [turnOf CObserved now r m']))
| link_tick now now' m h ps sent obs turns r m' :
    Tick now now' m = (r, m') →
    link_step (mkLink m h ps sent obs turns)
      (mkLink m' h (ps ++ sending r) sent obs (turns ++ [turnOf CTicked now r m']))
| link_notify record now m h ps sent obs turns :
    link_step (mkLink m h ps sent obs turns) (mkLink m h (ps ++ sending (Notify record now m)) sent obs turns)
| link_state inbound requestID now m h ps sent obs turns r m' :
    checkInbound inbound m = Ok (StateRequest requestID) →
    currentPublicationLocked requestID true now m = (r, m') →
    link_step (mkLink m h ps sent obs turns)
      (mkLink m' h (ps ++ sending r) sent obs (turns ++ [turnOf CRequested now r m']))
| link_query inbound requestID query m h ps sent obs turns :
    checkInbound inbound m = Ok (HistoryRequest requestID query) →
    link_step (mkLink m h ps sent obs turns) (mkLink m h (ps ++ [PQuery requestID query]) sent obs turns)
| link_answer before requestID query behind m h h' sent obs turns r :
    answerHistoryQuery requestID query m h = (r, h') →
    link_step (mkLink m h (before ++ PQuery requestID query :: behind) sent obs turns)
      (mkLink m h' (before ++ behind ++ match r with Ok p => [PSend p] | Err _ => [] end) sent obs turns)
| link_send before p behind m h sent obs turns :
    link_step (mkLink m h (before ++ PSend p :: behind) sent obs turns)
      (mkLink m h (before ++ behind) (sent ++ [p]) obs turns).

Inductive link_reachable (source : Source) (interval : Z) (h : H) : Link → Prop :=
| link_start : link_reachable source interval h (mkLink (NewManager source interval) h [] [] [] [])
| link_next l l' : link_reachable source interval h l → link_step l l' → link_reachable source interval h l'.
End manager.

Example request_id : validRequestID "315a1ea6-1cdc-47d9-96f9-b4f80ffbda7c" = true ∧ validRequestID "315a1ea6" = false.
Proof. split; reflexivity. Qed.
