(* ===== verification/MqttProofs.v ===== *)
(** * Proofs about MQTT: packets that are written are read back, and the runs of
      the manager *)

From Stdlib Require Import Ascii String.
From S2P Require Import Prelude GoValue GoText PointStore Easy521 GoTime AlarmHistory AlarmHistoryProofs MqttPacket MqttManager.

(** ** Digits of a variable byte integer *)

Definition digitFacts (d : Z) : bool :=
  (u8 d =? d) && (Z.land d 127 =? d) && (Z.land d 128 =? 0) &&
  (Z.land (Z.lor d 128) 127 =? d) && negb (Z.land (Z.lor d 128) 128 =? 0).

Lemma digit_facts d : 0 ≤ d < 128 →
  u8 d = d ∧ Z.land d 127 = d ∧ (Z.land d 128 =? 0) = true ∧ Z.land (Z.lor d 128) 127 = d ∧
  (Z.land (Z.lor d 128) 128 =? 0) = false.
Proof.
  intros Hd. assert (digitFacts d = true) as Hf by (apply (below_all 128 digitFacts); [vm_compute; reflexivity|done]).
  unfold digitFacts in Hf. rewrite !andb_true_iff, negb_true_iff, !Z.eqb_eq in Hf. rewrite Z.eqb_eq. tauto.
Qed.

(** More rounds than the length needs change nothing. *)
Lemma encodeLength_step fuel n :
  encodeLength (S fuel) n =
    if 0 <? n / 128 then Z.lor (n mod 128) 128 :: encodeLength fuel (n / 128) else [n mod 128].
Proof.
  cbn [encodeLength]. pose proof (Z.mod_pos_bound n 128 ltac:(done)) as Hm.
  by destruct (digit_facts (n mod 128) Hm) as (-> & _).
Qed.

Lemma digits_times n m : n * m = n mod 128 * m + n / 128 * (m * 128).
Proof. rewrite (Z.div_mod n 128) at 1 by done. ring. Qed.

(** Both readers take exactly the digits that were written. *)
Lemma decodeFrom_encode count : ∀ fuel n offset value multiplier rest,
  (count ≤ fuel)%nat → 0 ≤ n < 128 ^ Z.of_nat count → (0 < count)%nat →
  decodeFrom count offset value multiplier (encodeLength fuel n ++ rest) =
    Some (value + n * multiplier, offset + Z.of_nat (length (encodeLength fuel n))).
Proof.
  induction count as [|count IH]; intros [|fuel] n offset value multiplier rest Hf Hn Hc; try lia.
  rewrite encodeLength_step. pose proof (Z.mod_pos_bound n 128 ltac:(done)) as Hm.
  destruct (digit_facts (n mod 128) Hm) as (_ & H127 & H128 & L127 & L128).
  destruct (Z.ltb_spec 0 (n / 128)) as [Hd|Hd]; cbn [app decodeFrom].
  - rewrite L127, L128. rewrite Nat2Z.inj_succ, Z.pow_succ_r in Hn by lia.
    assert (0 ≤ n / 128 < 128 ^ Z.of_nat count) as Hn' by (split; [lia|apply Z.div_lt_upper_bound; lia]).
    assert (0 < count)%nat by (destruct count; simpl in *; lia).
    rewrite IH by lia. cbn [length]. rewrite (digits_times n multiplier). f_equal. f_equal; lia.
  - rewrite H127, H128. cbn [length]. assert (n / 128 = 0) as E0 by (pose proof (Z.div_pos n 128); lia).
    rewrite (digits_times n multiplier), E0. f_equal. f_equal; lia.
Qed.

Lemma readLength_encode count : ∀ fuel header n value multiplier body,
  (count ≤ fuel)%nat → 0 ≤ n < 128 ^ Z.of_nat count → (0 < count)%nat →
  readLength count header value multiplier (encodeLength fuel n ++ body) =
    if (length body <? Z.to_nat (value + n * multiplier))%nat then PacketShort
    else PacketOk header (take (Z.to_nat (value + n * multiplier)) body) (drop (Z.to_nat (value + n * multiplier)) body).
Proof.
  induction count as [|count IH]; intros [|fuel] header n value multiplier body Hf Hn Hc; try lia.
  rewrite encodeLength_step. pose proof (Z.mod_pos_bound n 128 ltac:(done)) as Hm.
  destruct (digit_facts (n mod 128) Hm) as (_ & H127 & H128 & L127 & L128).
  destruct (Z.ltb_spec 0 (n / 128)) as [Hd|Hd]; cbn [app readLength].
  - rewrite L127, L128. rewrite Nat2Z.inj_succ, Z.pow_succ_r in Hn by lia.
    assert (0 ≤ n / 128 < 128 ^ Z.of_nat count) as Hn' by (split; [lia|apply Z.div_lt_upper_bound; lia]).
    assert (0 < count)%nat by (destruct count; simpl in *; lia).
    rewrite IH by lia. by rewrite (digits_times n multiplier), Z.add_assoc.
  - rewrite H127, H128. assert (n / 128 = 0) as E0 by (pose proof (Z.div_pos n 128); lia).
    by rewrite (digits_times n multiplier), E0, Z.mul_0_l, Z.add_0_r.
Qed.

(** Part of the digits is never enough. *)
Lemma readLength_partial count : ∀ fuel header n value multiplier k,
  (count ≤ fuel)%nat → 0 ≤ n < 128 ^ Z.of_nat count → (0 < count)%nat → (k < length (encodeLength fuel n))%nat →
  readLength count header value multiplier (take k (encodeLength fuel n)) = PacketShort.
Proof.
  induction count as [|count IH]; intros [|fuel] header n value multiplier k Hf Hn Hc Hk; try lia.
  rewrite encodeLength_step in *. pose proof (Z.mod_pos_bound n 128 ltac:(done)) as Hm.
  destruct (digit_facts (n mod 128) Hm) as (_ & H127 & H128 & L127 & L128).
  destruct k as [|k]; [by destruct (0 <? n / 128)|].
  destruct (Z.ltb_spec 0 (n / 128)) as [Hd|Hd]; [|simpl in Hk; lia]. cbn [take readLength]. rewrite L128.
  rewrite Nat2Z.inj_succ, Z.pow_succ_r in Hn by lia. cbn [length] in Hk.
  assert (0 ≤ n / 128 < 128 ^ Z.of_nat count) as Hn' by (split; [lia|apply Z.div_lt_upper_bound; lia]).
  apply IH; [lia|done|destruct count; simpl in *; lia|lia].
Qed.

(** ** Packets *)

Lemma remainingLength_bound (payload : list Z) :
  Z.of_nat (length payload) < 2 ^ 28 → 0 ≤ Z.of_nat (length payload) < 128 ^ Z.of_nat 4.
Proof. simpl. lia. Qed.

Lemma readPacket_packet header payload rest :
  Z.of_nat (length payload) < 2 ^ 28 →
  readPacket (packet header payload ++ rest) = PacketOk header payload rest.
Proof.
  intros Hl. unfold readPacket, packet, encodeRemainingLength. cbn [app]. rewrite <-app_assoc.
  rewrite readLength_encode; [|lia|by apply remainingLength_bound|lia].
  rewrite Z.mul_1_r, Z.add_0_l, Nat2Z.id, length_app, (proj2 (Nat.ltb_ge _ _)) by lia.
  by rewrite take_app_length, drop_app_length.
Qed.

Lemma readPacket_partial header payload k :
  Z.of_nat (length payload) < 2 ^ 28 → (k < length (packet header payload))%nat →
  readPacket (take k (packet header payload)) = PacketShort.
Proof.
  intros Hl Hk. unfold packet, encodeRemainingLength in *. destruct k as [|k]; [done|]. cbn [take readPacket length] in *.
  set (n := Z.of_nat (length payload)) in *. rewrite length_app in Hk.
  destruct (decide (k < length (encodeLength 10 n))%nat) as [Hd|Hd].
  - rewrite take_app_le by lia. apply readLength_partial; [lia|by apply remainingLength_bound|lia|done].
  - rewrite take_app_ge by lia. rewrite readLength_encode; [|lia|by apply remainingLength_bound|lia].
    rewrite (proj2 (Nat.ltb_lt _ _)); [done|]. rewrite length_take. lia.
Qed.


(** The client takes its own publications apart again. *)
Lemma handlePublish_publish p header :
  1 ≤ Z.of_nat (String.length (pbTopic p)) < 2 ^ 16 → Z.land (Z.shiftr header 1) 3 = 0 → Z.land header 1 = 0 →
  handlePublish header (publishPayload p) = Ok (mkPublication (pbTopic p) (pbPayload p) 0 false).
Proof.
  intros Ht Hq Hr. unfold handlePublish, publishPayload, mqttString. rewrite Hq, Hr. cbn [Z.eqb negb orb].
  set (n := Z.of_nat (String.length (pbTopic p))).
  rewrite (proj2 (Z.ltb_ge _ 2)) by (cbn [app length]; lia). cbn [app].
  assert (u16At (u8 (Z.shiftr n 8) :: u8 n :: bytesOf (pbTopic p) ++ 0 :: bytesOf (pbPayload p)) 0 = n) as ->.
  { unfold u16At, byteAt. cbn [nth]. assert (in_range 16 n) as Hr16 by (unfold in_range; change (2 ^ 16) with 65536; lia).
    pose proof (getU16_putU16 n Hr16) as E. by rewrite !land_255 in E. }
  rewrite (proj2 (Z.eqb_neq n 0)) by lia. cbn [length]. rewrite length_app, length_bytesOf, (proj2 (Z.ltb_ge _ (2 + n))) by (cbn [length]; lia).
  cbn [orb]. replace (Z.to_nat (2 + n)) with (2 + String.length (pbTopic p))%nat by lia.
  assert (∀ l, drop (2 + String.length (pbTopic p)) (u8 (Z.shiftr n 8) :: u8 n :: bytesOf (pbTopic p) ++ l) = l) as Hdrop.
  { intros l. cbn [Nat.add drop]. by rewrite drop_app_length' by (symmetry; apply length_bytesOf). }
  rewrite Hdrop. unfold decodeVariableByteInteger. cbn [decodeFrom]. change (Z.land 0 128 =? 0) with true. cbv iota.
  change (0 + Z.land 0 127 * 1) with 0. rewrite (proj2 (Z.ltb_ge _ 0)) by (cbn [length]; lia).
  do 2 f_equal.
  - match goal with |- context [drop 2 (?a :: ?b :: ?l)] => change (drop 2 (a :: b :: l)) with l end.
    replace (Z.to_nat n) with (length (bytesOf (pbTopic p))) by (rewrite length_bytesOf; lia).
    rewrite take_app_length. apply textOf_bytesOf.
  - replace (Z.to_nat (2 + n + (0 + 1) + 0)) with (1 + (2 + String.length (pbTopic p)))%nat by lia.
    rewrite Nat.add_comm, <-drop_drop, Hdrop. cbn [drop]. apply textOf_bytesOf.
Qed.

(** Every element of a list is right after what precedes it. *)
Definition chained {A} (R : list A → A → Prop) (l : list A) : Prop :=
  ∀ i x, l !! i = Some x → R (take i l) x.

Lemma chained_snoc {A} (R : list A → A → Prop) l y : chained R l → R l y → chained R (l ++ [y]).
Proof.
  intros Hl Hy i x Hx. apply lookup_app_Some in Hx as [Hx|[Hi Hx]].
  - rewrite take_app_le by (apply lookup_lt_Some in Hx; lia). by apply Hl.
  - apply list_lookup_singleton_Some in Hx as [Hz <-]. assert (i = length l) as -> by lia. by rewrite take_app_length.
Qed.

(** ** Turns *)

(** The good points of the latest snapshot. *)
Definition statesOf (latest : option MqttSnapshot) : gmap string PointValue :=
  match latest with Some snapshot => (goodPoints snapshot).1 | None => ∅ end.

(** The state was written, or could not be. *)
Definition tried (t : turn) : bool :=
  match tnResult t with Ok None | Err MEInvalidRequest => false | _ => true end.

(** The instant of the last periodic publication after some turns. *)
Definition periodicAfter (turns : list turn) : Z := default zeroTime (tnLast <$> last turns).
#[global] Arguments periodicAfter : simpl never.

Section manager.
Context {D H : Type} `{HistoryReader D H}.
Variables (encode : Source → document D → option string) (fingerprint : gmap string PointValue → string)
  (decodeStateGet : string → option StateGet) (decodeQuery : string → option AlarmHistoryQuery)
  (parseRFC3339 : string → option Z).

Abbreviation link := (Link (H := H)).
Abbreviation step := (link_step encode fingerprint decodeStateGet decodeQuery parseRFC3339).
Abbreviation reachable := (link_reachable encode fingerprint decodeStateGet decodeQuery parseRFC3339).

(** What may leave the agent: one of three documents on its topic, small enough,
    not retained and without acknowledgement; a state holds the good points of a
    snapshot the worker has shown. *)
Definition allowed (source : Source) (observed : list MqttSnapshot) (p : Publication) : Prop :=
  let topics := NewTopics (soSiteID source) (soBlockID source) in
  pbQoS p = 0 ∧ pbRetain p = false ∧ Z.of_nat (String.length (pbPayload p)) ≤ 65536 ∧
  ∃ doc, encode source doc = Some (pbPayload p) ∧
    match doc with
    | StateCurrent _ _ _ state =>
        pbTopic p = tpStateLatest topics ∧ state ≠ ∅ ∧ ∃ snapshot, snapshot ∈ observed ∧ state = filter isGood (msValues snapshot)
    | AlarmNotification _ _ => pbTopic p = tpAlarmNotify topics
    | AlarmHistoryPage _ _ => pbTopic p = tpAlarmHistoryPage topics
    end.

(** The state that was last tried. *)
Definition lastTried (turns : list turn) : string :=
  default ""%string ((fun t => fingerprint (statesOf (tnLatest t))) <$> last (filter (fun t => tried t = true) turns)).
#[local] Arguments lastTried : simpl never.

(** A publication of a turn is a document of the good points then; what a turn
    publishes because a snapshot was observed differs from the state last tried;
    what a tick publishes comes an interval after the last time, and the next
    interval begins with it, or with the connection. *)
Record turn_ok (source : Source) (interval : Z) (before : list turn) (t : turn) : Prop := {
  to_state : ∀ p, tnResult t = Ok (Some p) →
    ∃ requestID stateAt sentAt, encode source (StateCurrent requestID stateAt sentAt (statesOf (tnLatest t))) = Some (pbPayload p);
  to_fresh : ∀ p, tnResult t = Ok (Some p) → tnCause t = CObserved →
    fingerprint (statesOf (tnLatest t)) ≠ lastTried before;
  to_spaced : ∀ p, tnResult t = Ok (Some p) → tnCause t = CTicked →
    isZero (periodicAfter before) = true ∨ interval ≤ timeSub (tnNow t) (periodicAfter before);
  to_periodic : ∀ p, tnResult t = Ok (Some p) →
    tnLast t = match tnCause t with CTicked | CConnected => tnNow t | _ => periodicAfter before end
}.

Record link_ok (source : Source) (interval : Z) (l : link) : Prop := {
  lo_source : mgSource (lkManager l) = source;
  lo_interval : mgInterval (lkManager l) = interval;
  lo_latest : mgLatest (lkManager l) = last (lkObserved l);
  lo_pending : ∀ p, PSend p ∈ lkPending l → allowed source (lkObserved l) p;
  lo_sent : ∀ p, p ∈ lkSent l → allowed source (lkObserved l) p;
  lo_of_turns : ∀ p, PSend p ∈ lkPending l ∨ p ∈ lkSent l → pbTopic p = tpStateLatest (NewTopics (soSiteID source) (soBlockID source)) →
    ∃ t, t ∈ lkTurns l ∧ tnResult t = Ok (Some p);
  lo_attempted : mgLastAttemptedState (lkManager l) = lastTried (lkTurns l);
  lo_periodic : mgLastPeriodicPublish (lkManager l) = periodicAfter (lkTurns l);
  lo_turns : chained (turn_ok source interval) (lkTurns l)
}.

Lemma publicationFor_ok m topic doc p :
  publicationFor encode m topic doc = Ok p →
  pbTopic p = topic ∧ pbQoS p = 0 ∧ pbRetain p = false ∧ Z.of_nat (String.length (pbPayload p)) ≤ 65536 ∧
  encode (mgSource m) doc = Some (pbPayload p).
Proof.
  unfold publicationFor. destruct (encode (mgSource m) doc) as [payload|]; [|done].
  destruct (Z.ltb_spec maximumJSONPayload (Z.of_nat (String.length payload))); [done|]. by intros [= <-].
Qed.

(** What an operation that may publish the state does. *)
Record current_facts (force : bool) (observed : list MqttSnapshot) (m : Manager) (r : result mqtt_error (option Publication))
    (m' : Manager) : Prop := {
  cu_source : mgSource m' = mgSource m;
  cu_interval : mgInterval m' = mgInterval m;
  cu_latest : mgLatest m' = mgLatest m;
  cu_periodic : mgLastPeriodicPublish m' = mgLastPeriodicPublish m;
  cu_allowed : ∀ p, r = Ok (Some p) → allowed (mgSource m) observed p;
  cu_state : ∀ p, r = Ok (Some p) →
    ∃ requestID stateAt sentAt, encode (mgSource m) (StateCurrent requestID stateAt sentAt (statesOf (mgLatest m))) = Some (pbPayload p);
  cu_tried : ∀ c now last, if tried (mkTurn c now (mgLatest m) r last)
    then mgLastAttemptedState m' = fingerprint (statesOf (mgLatest m)) ∧ (force = false → fingerprint (statesOf (mgLatest m)) ≠ mgLastAttemptedState m)
    else mgLastAttemptedState m' = mgLastAttemptedState m
}.

Lemma publicationFor_tried m topic doc c now latest t :
  tried (mkTurn c now latest (rbind (publicationFor encode m topic doc) (fun p => Ok (Some p))) t) = true.
Proof. unfold publicationFor. destruct (encode _ _); [|done]. by case_match. Qed.

Lemma current_spec requestID force now m r m' observed :
  currentPublicationLocked encode fingerprint requestID force now m = (r, m') →
  mgLatest m = last observed → current_facts force observed m r m'.
Proof.
  unfold currentPublicationLocked. intros E Hl.
  assert (∀ e, (r, m') = (e, m) → e = Ok None ∨ e = Err MEInvalidRequest → current_facts force observed m r m') as Hquiet.
  { intros e [= -> ->] He. by split; destruct He as [-> | ->]. }
  destruct (mgConnected m) eqn:Hc; [|eapply Hquiet; [by symmetry|by left]].
  destruct (mgLatest m) as [latest|] eqn:Hlat; [|eapply Hquiet; [by symmetry|by left]].
  destruct (validSource (mgSource m)); cbn [negb] in *; [|eapply Hquiet; [by symmetry|by right]].
  assert (goodPoints latest = (statesOf (mgLatest m), (goodPoints latest).2)) as Hg by (rewrite Hlat; apply surjective_pairing).
  rewrite Hg in E. case_bool_decide as He; [eapply Hquiet; [by symmetry|by left]|].
  destruct (negb force && _) eqn:Hf; [eapply Hquiet; [by symmetry|by left]|].
  injection E as <- <-. split; try done.
  - cbn [setAttempted mgSource]. intros p Hp.
    destruct (publicationFor _ _ _ _) as [q|e] eqn:Hq; cbn [rbind] in Hp; [|done]. injection Hp as ->.
    apply publicationFor_ok in Hq as (Ht & H1 & H2 & H3 & H4).
    split_and!; try done. eexists. split; [exact H4|]. split_and!; [exact Ht|done|]. exists latest.
    split; [|by rewrite Hlat]. symmetry in Hl. apply last_Some in Hl as [l' ->]. set_solver.
  - intros p Hp. destruct (publicationFor _ _ _ _) as [q|e] eqn:Hq; cbn [rbind] in Hp; [|done]. injection Hp as ->.
    apply publicationFor_ok in Hq as (_ & _ & _ & _ & H4). by do 3 eexists.
  - intros c t l. rewrite publicationFor_tried. split; [done|]. intros ->. cbn [negb andb] in Hf. by propify.
Qed.

Lemma allowed_more source observed x p : allowed source observed p → allowed source (observed ++ x) p.
Proof.
  intros (? & ? & ? & doc & He & Hd). split_and!; try done. exists doc. split; [done|]. destruct doc; [|done..].
  destruct Hd as (? & ? & s & ? & ?). split_and!; try done. exists s. set_solver.
Qed.

Lemma sending_elem (ps : list pending) r p :
  PSend p ∈ ps ++ sending r → PSend p ∈ ps ∨ PSend p ∈ sending r.
Proof. apply elem_of_app. Qed.

Lemma sending_result r p : PSend p ∈ sending r → r = Ok (Some p).
Proof. destruct r as [[q|]|]; cbn; try by intros ?%elem_of_nil. by intros [= ->]%list_elem_of_singleton. Qed.

Lemma lastTried_snoc turns t :
  lastTried (turns ++ [t]) = if tried t then fingerprint (statesOf (tnLatest t)) else lastTried turns.
Proof.
  unfold lastTried. rewrite filter_app, filter_cons, filter_nil. case_decide as Ht; rewrite ?Ht; [by rewrite last_snoc|].
  apply not_true_is_false in Ht. by rewrite Ht, app_nil_r.
Qed.

Lemma periodicAfter_snoc turns t : periodicAfter (turns ++ [t]) = tnLast t.
Proof. unfold periodicAfter. by rewrite last_snoc. Qed.

(** ** Each piece of an operation keeps the invariant *)

(** The operation reads the state, and [periodic] is the time that it remembers. *)
Lemma link_ok_current source interval requestID force now c t (periodic : option Z) m h ps sent obs turns r m' :
  link_ok source interval (mkLink m h ps sent obs turns) →
  currentPublicationLocked encode fingerprint requestID force now m = (r, m') →
  (c = CObserved → force = false) →
  (c = CTicked → isZero (mgLastPeriodicPublish m) = true ∨ mgInterval m ≤ timeSub t (mgLastPeriodicPublish m)) →
  periodic = match c with CTicked | CConnected => Some t | _ => None end →
  let m'' := match periodic with Some t => setPeriodic t m' | None => m' end in
  link_ok source interval (mkLink m'' h (ps ++ sending r) sent obs (turns ++ [turnOf c t r m''])).
Proof.
  intros [Hs Hi Hl Hp Hse Hof Ha Hpe Htu] E Hforce Hdue Hper m''. cbn in *.
  destruct (current_spec _ _ _ _ _ _ obs E Hl) as [E1 E2 E3 E4 E5 E6 E7].
  assert (mgSource m'' = mgSource m ∧ mgInterval m'' = mgInterval m ∧ mgLatest m'' = mgLatest m ∧
          mgLastAttemptedState m'' = mgLastAttemptedState m' ∧
          mgLastPeriodicPublish m'' = default (mgLastPeriodicPublish m) periodic) as (F1 & F2 & F3 & F4 & F5)
    by (unfold m''; by destruct periodic).
  clearbody m''. specialize (E7 c t (mgLastPeriodicPublish m'')).
  assert (turnOf c t r m'' = mkTurn c t (mgLatest m) r (mgLastPeriodicPublish m'')) as Hturn by (unfold turnOf; by rewrite F3).
  split; cbn.
  - congruence.
  - congruence.
  - congruence.
  - intros p [Hin|Hin]%sending_elem; [by apply Hp|]. rewrite <-Hs. by apply E5, sending_result.
  - done.
  - intros p [[Hin|Hin]%sending_elem|Hin] Ht.
    + destruct (Hof p) as (x & ? & ?); [by left|done|]. exists x. set_solver.
    + apply sending_result in Hin. exists (turnOf c t r m''). split; [|done]. apply elem_of_app. right. by apply list_elem_of_singleton.
    + destruct (Hof p) as (x & ? & ?); [by right|done|]. exists x. set_solver.
  - rewrite lastTried_snoc, F4, Hturn. destruct (tried _); [by destruct E7|congruence].
  - by rewrite periodicAfter_snoc.
  - apply chained_snoc; [done|]. rewrite Hturn. split; cbn.
    + rewrite <-Hs. exact E6.
    + intros p Hr Hc. rewrite <-Ha. unfold tried in E7. cbn in E7. rewrite Hr in E7. by apply E7, Hforce.
    + intros p _ Hc. rewrite <-Hpe, <-Hi. by apply Hdue.
    + intros p _. rewrite F5, Hper, <-Hpe. by destruct c.
Qed.

(** An operation that does nothing. *)
Lemma link_ok_quiet source interval c t m h ps sent obs turns :
  link_ok source interval (mkLink m h ps sent obs turns) →
  link_ok source interval (mkLink m h (ps ++ []) sent obs (turns ++ [turnOf c t (Ok None) m])).
Proof.
  intros [Hs Hi Hl Hp Hse Hof Ha Hpe Htu]. cbn in *. rewrite app_nil_r. split; cbn; try done.
  - intros p Hin Ht. destruct (Hof p Hin Ht) as (x & ? & ?). exists x. set_solver.
  - by rewrite lastTried_snoc.
  - by rewrite periodicAfter_snoc.
  - by apply chained_snoc.
Qed.

Lemma link_ok_connect source interval v m h ps sent obs turns :
  link_ok source interval (mkLink m h ps sent obs turns) →
  link_ok source interval (mkLink (setConnected v m) h ps sent obs turns).
Proof. intros []. by split. Qed.

Lemma link_ok_latest source interval snapshot m h ps sent obs turns :
  link_ok source interval (mkLink m h ps sent obs turns) →
  link_ok source interval (mkLink (setLatest snapshot m) h ps sent (obs ++ [snapshot]) turns).
Proof.
  intros []. split; cbn in *; try done.
  - by rewrite last_snoc.
  - intros p Hp. apply allowed_more. auto.
  - intros p Hp. apply allowed_more. auto.
Qed.

(** A new publication that is not a state. *)
Lemma link_ok_pending source interval m h h' ps ps' sent sent' obs turns :
  link_ok source interval (mkLink m h ps sent obs turns) →
  (∀ p, PSend p ∈ ps' → PSend p ∈ ps ∨ (allowed (mgSource m) obs p ∧ pbTopic p ≠ tpStateLatest (mgTopics m))) →
  (∀ p, p ∈ sent' → p ∈ sent ∨ PSend p ∈ ps) →
  link_ok source interval (mkLink m h' ps' sent' obs turns).
Proof.
  intros [Hs Hi Hl Hp Hse Hof Ha Hpe Htu] H1 H2. split; cbn in *; try done.
  - intros p [?|[? _]]%H1; [by apply Hp|by rewrite <-Hs].
  - intros p [?|?]%H2; [by apply Hse|by apply Hp].
  - intros p [[?|[_ Hn]]%H1|[?|?]%H2] Ht; [|destruct Hn; by rewrite Ht, <-Hs| |]; apply Hof; auto.
Qed.

Lemma topics_differ m : tpAlarmNotify (mgTopics m) ≠ tpStateLatest (mgTopics m) ∧ tpAlarmHistoryPage (mgTopics m) ≠ tpStateLatest (mgTopics m).
Proof. split; by intros ?%(inj (String.append _)). Qed.

Lemma document_allowed m topic doc p obs :
  publicationFor encode m topic doc = Ok p →
  match doc with
  | StateCurrent _ _ _ _ => False
  | AlarmNotification _ _ => topic = tpAlarmNotify (mgTopics m)
  | AlarmHistoryPage _ _ => topic = tpAlarmHistoryPage (mgTopics m)
  end → allowed (mgSource m) obs p ∧ pbTopic p ≠ tpStateLatest (mgTopics m).
Proof.
  intros (Ht & H1 & H2 & H3 & H4)%publicationFor_ok Hdoc. destruct (topics_differ m) as [Hd1 Hd2]. split.
  - split_and!; try done. exists doc. split; [done|]. destruct doc; [done|by rewrite Ht..].
  - rewrite Ht. destruct doc; [done|by rewrite Hdoc..].
Qed.

Lemma link_ok_step source interval l l' : link_ok source interval l → step l l' → link_ok source interval l'.
Proof.
  intros Hok Hst. destruct Hst as [now now' m h ps sent obs turns r m' E|m h ps sent obs turns|snapshot now m h ps sent obs turns r m' E
    |now now' m h ps sent obs turns r m' E|record now m h ps sent obs turns|inbound requestID now m h ps sent obs turns r m' Hc E
    |inbound requestID query m h ps sent obs turns Hc|before requestID query behind m h h' sent obs turns r E
    |before p behind m h sent obs turns].
  - unfold Connected in E. destruct (mgConnected m) eqn:Hc; [simplify_eq/=; by apply link_ok_quiet|].
    destruct (currentPublicationLocked _ _ _ _ _ _) as [r0 m0] eqn:Ec. injection E as <- <-.
    eapply (link_ok_current _ _ _ _ _ CConnected now' (Some now')); [by apply link_ok_connect|exact Ec|done..].
  - by apply link_ok_connect.
  - eapply (link_ok_current _ _ _ _ _ CObserved now None); [by apply link_ok_latest|exact E|done..].
  - unfold Tick in E. destruct (tickDue now m) eqn:Hd; cbn [negb] in E; [|simplify_eq/=; by apply link_ok_quiet].
    destruct (currentPublicationLocked _ _ _ _ _ _) as [r0 m0] eqn:Ec. injection E as <- <-.
    eapply (link_ok_current _ _ _ _ _ CTicked now (Some now)); [exact Hok|exact Ec|done| |done]. intros _. unfold tickDue in Hd.
    apply andb_true_iff in Hd as [_ [?|Hd]%orb_true_iff]; [by left|right]. by propify.
  - eapply link_ok_pending; [exact Hok| |by left]. intros p [?|Hp%sending_result]%sending_elem; [by left|right].
    unfold Notify in Hp. destruct (mgConnected m); cbn [negb] in Hp; [|done].
    destruct (publicationFor _ _ _ _) as [q|e] eqn:Hq; cbn in Hp; [|done]. injection Hp as ->. by eapply document_allowed.
  - eapply (link_ok_current _ _ _ _ _ CRequested now None); [exact Hok|exact E|done..].
  - eapply link_ok_pending; [exact Hok| |by left]. intros p [?|Hp]%elem_of_app; [by left|].
    by apply list_elem_of_singleton in Hp.
  - eapply link_ok_pending; [exact Hok| |by left]. intros p.
    rewrite !elem_of_app, elem_of_cons. intros [?|[?|Hp]]; [by left; left|by left; right; right|right].
    unfold answerHistoryQuery in E. repeat (case_match; simplify_eq/=; try by apply elem_of_nil in Hp).
    apply list_elem_of_singleton in Hp as [= ->]. by eapply document_allowed.
  - eapply link_ok_pending; [exact Hok| |].
    + intros q. rewrite !elem_of_app, elem_of_cons. tauto.
    + intros q. rewrite elem_of_app, list_elem_of_singleton. intros [?| ->]; [by left|right]. set_solver.
Qed.

Lemma link_ok_reachable source interval h l :
  reachable source interval h l →
  link_ok source (if interval <=? 0 then DefaultPublishInterval else interval) l.
Proof.
  induction 1 as [|l l' _ IH Hst]; [|by eapply link_ok_step].
  split; try done; cbn; [by intros ? ?%elem_of_nil..|]. by intros ? [?%elem_of_nil|?%elem_of_nil].
Qed.
End manager.

(** ** The alarm history behind the manager *)

(** The history service as the manager's reader. *)
Definition history_reader {D} (unmarshal : string → option D) : HistoryReader D AlarmLog :=
  {| hList := serviceList unmarshal true |}.

Lemma serviceList_valid {D} (unmarshal : string → option D) q l page l' :
  serviceList unmarshal true q l = (Ok page, l') → validatePage page = Ok tt.
Proof.
  unfold serviceList, gbind, glift, gfail, gret. cbn [negb]. destruct (validateQuery q) as [[]|]; [|done].
  destruct (listRecords unmarshal q l) as [[[records hasMore]|] l1]; [|done]. case_match; [done|].
  destruct (validatePage _) as [[]|] eqn:E; [|done]. by intros [= <- _].
Qed.

(** A request that passes the checks asks for a query the history answers. *)
Lemma checked_query (parseRFC3339 : string → option Z) decodeQuery payload m id q :
  (∀ s t, parseRFC3339 s = Some t → hasSuffixZ s = true → fourDigitYear t = true) →
  checkHistoryQuery decodeQuery parseRFC3339 payload m = Ok (id, q) → 0 ≤ hqAfterCursor q < 2 ^ 63 → query_ok q.
Proof.
  intros Hp. unfold checkHistoryQuery. destruct (decodeStrict decodeQuery payload) as [request|]; [|done]. cbn [rbind].
  case_match; [done|]. destruct (hasSuffixZ (aqFromOccurredAt request)) eqn:Hf, (hasSuffixZ (aqToOccurredAt request)) eqn:Ht; try done.
  cbn [negb orb]. destruct (parseRFC3339 (aqFromOccurredAt request)) as [from|] eqn:Ef; [|done].
  destruct (parseRFC3339 (aqToOccurredAt request)) as [to_|] eqn:Et; [|done].
  destruct (validateQuery _) as [[]|] eqn:Hv; [|done]. destruct (mgConnected m); [|done].
  intros [= _ <-] Ha. split_and!; [done|apply Ha..|by eapply Hp|by eapply Hp].
Qed.

(** ** Serving a connection *)

(** What a broker writes: a publication, or another packet. *)
Inductive wire_item : Type := WirePublication (p : Publication) | WireOther (header : Z) (payload : list Z).

Definition itemWire (item : wire_item) : list Z :=
  match item with
  | WirePublication p => packet 48 (publishPayload p)
  | WireOther header payload => packet header payload
  end.

Definition item_ok (item : wire_item) : Prop :=
  match item with
  | WirePublication p =>
      1 ≤ Z.of_nat (String.length (pbTopic p)) < 2 ^ 16 ∧ Z.of_nat (String.length (pbPayload p)) < 2 ^ 27 ∧
      pbQoS p = 0 ∧ pbRetain p = false
  | WireOther header payload => Z.shiftr header 4 ≠ 3 ∧ Z.of_nat (length payload) < 2 ^ 28
  end.

Definition publicationOf (item : wire_item) : option Publication :=
  match item with WirePublication p => Some p | WireOther _ _ => None end.

Definition wireOf (items : list wire_item) : list Z := mjoin (map itemWire items).

Definition arrivedOf (events : list serve_event) : list Z :=
  mjoin (map (fun ev => match ev with SvArrive bytes => bytes | _ => [] end) events).

Lemma arrivedOf_cons ev events : arrivedOf (ev :: events) = arrivedOf [ev] ++ arrivedOf events.
Proof. unfold arrivedOf. cbn. by rewrite app_nil_r. Qed.

Lemma publishPayload_bound p :
  Z.of_nat (String.length (pbTopic p)) < 2 ^ 16 → Z.of_nat (String.length (pbPayload p)) < 2 ^ 27 →
  Z.of_nat (length (publishPayload p)) < 2 ^ 28.
Proof.
  intros Ht Hp. unfold publishPayload, mqttString. cbn [app length]. rewrite length_app. cbn [length].
  rewrite !length_bytesOf. lia.
Qed.

(** The reader either waits inside the next packet or has all of it. *)
Lemma readPacket_items input more items :
  Forall item_ok items → input ++ more = wireOf items →
  readPacket input = PacketShort ∨
  ∃ item rest header payload, items = item :: rest ∧ readPacket input = PacketOk header payload (drop (length (itemWire item)) input) ∧
    drop (length (itemWire item)) input ++ more = wireOf rest ∧
    match item with
    | WirePublication p => header = 48 ∧ payload = publishPayload p
    | WireOther h q => header = h ∧ payload = q
    end.
Proof.
  intros Hok Hw. destruct items as [|item items].
  { left. by apply app_eq_nil in Hw as [-> _]. }
  apply Forall_cons in Hok as [Hi _].
  assert (∃ header payload, itemWire item = packet header payload ∧ Z.of_nat (length payload) < 2 ^ 28 ∧
    match item with WirePublication p => header = 48 ∧ payload = publishPayload p | WireOther h q => header = h ∧ payload = q end)
    as (header & payload & Hp & Hl & Hm).
  { destruct item as [p|h q]; cbn in *; [|naive_solver]. exists 48, (publishPayload p). split; [done|]. split; [|done].
    apply publishPayload_bound; lia. }
  change (wireOf (item :: items)) with (itemWire item ++ wireOf items) in Hw. rewrite Hp in *.
  destruct (decide (length input < length (packet header payload))%nat) as [Hs|Hs].
  - left. assert (input = take (length input) (packet header payload)) as ->; [|by apply readPacket_partial].
    rewrite <-(take_app_le _ (wireOf items)), <-Hw, take_app_length by lia. done.
  - right. exists item, items, header, payload. rewrite Hp. split; [done|].
    assert (input = packet header payload ++ drop (length (packet header payload)) input) as Hin.
    { rewrite <-(take_drop (length (packet header payload)) input) at 1. f_equal.
      rewrite <-(take_app_le _ more), Hw, take_app_length by lia. done. }
    split; [rewrite Hin at 1; by apply readPacket_packet|]. split; [|done].
    rewrite Hin, <-app_assoc in Hw. by apply app_inv_head in Hw.
Qed.

Lemma readPacket_short items : Forall item_ok items → readPacket (wireOf items) = PacketShort → items = [].
Proof.
  intros Hok Hs. destruct Hok as [|item items Hi Hok]; [done|]. exfalso.
  change (wireOf (item :: items)) with (itemWire item ++ wireOf items) in Hs.
  destruct item as [p|h q]; cbn [itemWire item_ok] in *.
  - rewrite readPacket_packet in Hs by (apply publishPayload_bound; lia). done.
  - rewrite readPacket_packet in Hs by apply Hi. done.
Qed.

Section serving.
Context {S : Type} (OnMessage : Publication → S → result mqtt_error unit * S).

(** One message after the other, until one is refused. *)
Fixpoint deliver (ps : list Publication) (s : S) : result mqtt_error unit * S :=
  match ps with
  | [] => (Ok tt, s)
  | p :: rest => match OnMessage p s with (Ok _, s) => deliver rest s | (Err e, s) => (Err e, s) end
  end.

(** What a run does to the reader, from one that is reading a stream of packets. *)
Definition serve_result (ps : list Publication) (s : S) (c : Serving S) : Prop :=
  (∃ k, cnState c = (deliver (take k ps) s).2) ∧
  (readRound OnMessage c = None → cnState c = (deliver ps s).2 ∧ (cnReader c = None → (deliver ps s).1 = Ok tt)) ∧
  (∀ e, cnReader c = Some e → (deliver ps s).1 = Err e ∨ (deliver ps s).1 = Ok tt ∧ is_Some (cnEnd c)).

Lemma round_or_not ev : ev = SvRound ∨ ev ≠ SvRound.
Proof. destruct ev; first [by left|by right]. Qed.

Lemma serveEvent_reader ev c c' :
  ev ≠ SvRound → serveEvent OnMessage ev c = Some c' →
  cnReader c' = cnReader c ∧ cnState c' = cnState c ∧ (is_Some (cnEnd c) → is_Some (cnEnd c')) ∧
  cnInput c' = cnInput c ++ arrivedOf [ev] ∧ (is_Some (cnEnd c) → arrivedOf [ev] = []).
Proof.
  intros Hev. destruct c as [input e0 rd s canc wr sv]. unfold arrivedOf.
  destruct ev as [bytes|e| | | | |[f|]]; cbn; try done;
    repeat case_match; intros [= <-]; cbn; subst; rewrite ?app_nil_r; eauto; split_and!; try done; by intros [? ?].
Qed.

Lemma serveRun_ended events c c' :
  is_Some (cnEnd c) → serveRun OnMessage events c = Some c' → arrivedOf events = [] ∧ is_Some (cnEnd c').
Proof.
  revert c. induction events as [|ev events IH]; intros c He; cbn [serveRun]; [by intros [= <-]|].
  destruct (serveEvent OnMessage ev c) as [c1|] eqn:E; [|done]. intros Hrun.
  assert (is_Some (cnEnd c1) ∧ arrivedOf [ev] = []) as [He1 Ha].
  { destruct (round_or_not ev) as [->|Hev].
    - split; [|done]. cbn in E. unfold readRound in E. repeat case_match; by simplify_eq.
    - apply serveEvent_reader in E as (_ & _ & H1 & _ & H2); auto. }
  destruct (IH c1 He1 Hrun) as [H1 H2]. split; [|done]. by rewrite arrivedOf_cons, Ha, H1.
Qed.

Lemma serveRun_failed events c c' e :
  cnReader c = Some e → serveRun OnMessage events c = Some c' →
  cnReader c' = Some e ∧ cnState c' = cnState c ∧ (is_Some (cnEnd c) → is_Some (cnEnd c')).
Proof.
  revert c. induction events as [|ev events IH]; intros c He; cbn [serveRun]; [by intros [= <-]|].
  destruct (serveEvent OnMessage ev c) as [c1|] eqn:E; [|done]. intros Hrun.
  assert (ev ≠ SvRound) as Hev by (intros ->; cbn in E; unfold readRound in E; by rewrite He in E).
  apply serveEvent_reader in E as (H1 & H2 & H3 & _); [|done]. rewrite He in H1.
  destruct (IH c1 H1 Hrun) as (H4 & H5 & H6). split; [done|]. split; [by rewrite H5|auto].
Qed.

(** A round on a stream of packets takes the next one, waits for more, or finds
    the end of the connection. *)
Lemma round_spec c c1 more items :
  Forall item_ok items → cnReader c = None → cnInput c ++ more = wireOf items → readRound OnMessage c = Some c1 →
  (∃ e, cnEnd c = Some e ∧ cnEnd c1 = Some e ∧ cnReader c1 = Some (MEIO e) ∧ cnState c1 = cnState c ∧ (more = [] → items = [])) ∨
  ∃ item rest, items = item :: rest ∧ cnInput c1 ++ more = wireOf rest ∧ cnEnd c1 = cnEnd c ∧
    match publicationOf item with
    | None => cnReader c1 = None ∧ cnState c1 = cnState c
    | Some p =>
        cnState c1 = (OnMessage p (cnState c)).2 ∧
        cnReader c1 = match (OnMessage p (cnState c)).1 with Ok _ => None | Err e => Some e end
    end.
Proof.
  intros Hok Hr Hw. unfold readRound. rewrite Hr.
  destruct (readPacket_items _ _ _ Hok Hw) as [Hs|(item & rest & header & payload & -> & Hp & Hd & Hm)].
  - rewrite Hs. destruct (cnEnd c) as [e|] eqn:He; [|done]. intros [= <-]. left. exists e. do 4 (split; [done|]). intros ->.
    rewrite app_nil_r in Hw. rewrite Hw in Hs. by apply readPacket_short.
  - rewrite Hp. apply Forall_cons in Hok as [Hi _]. intros H. right. exists item, rest. split; [done|].
    destruct item as [p|h q]; destruct Hm as [-> ->]; cbn [publicationOf itemWire] in *.
    + change (Z.shiftr 48 4 =? 3) with true in H. cbn iota in H. destruct Hi as (H1 & _ & Hq & Hret).
      rewrite handlePublish_publish in H by done.
      assert (mkPublication (pbTopic p) (pbPayload p) 0 false = p) as Hpe by (destruct p; cbn in *; by subst).
      rewrite Hpe in H. destruct (OnMessage p (cnState c)) as [r s]. injection H as <-. done.
    + rewrite (proj2 (Z.eqb_neq _ _) (proj1 Hi)) in H. injection H as <-. done.
Qed.

Lemma serveRun_spec events c c' items :
  Forall item_ok items → cnReader c = None → cnInput c ++ arrivedOf events = wireOf items →
  serveRun OnMessage events c = Some c' →
  serve_result (omap publicationOf items) (cnState c) c'.
Proof.
  revert c items. induction events as [|ev events IH]; intros c items Hok Hr Hw; cbn [serveRun].
  { intros [= <-]. rewrite app_nil_r in Hw. split; [by exists 0%nat|]. split; [|intros e; by rewrite Hr].
    unfold readRound. rewrite Hr.
    intros Hn. assert (readPacket (cnInput c) = PacketShort) as Hs.
    { destruct (readPacket_items _ [] _ Hok ltac:(by rewrite app_nil_r)) as [Hs|(item & rest & header & payload & _ & Hp & _)]; [done|].
      rewrite Hp in Hn. repeat case_match; done. }
    rewrite Hw in Hs. by rewrite (readPacket_short _ Hok Hs). }
  destruct (serveEvent OnMessage ev c) as [c1|] eqn:E; [|done]. intros Hrun.
  destruct (round_or_not ev) as [->|Hev].
  - cbn [serveEvent] in E. destruct (round_spec _ _ _ _ Hok Hr Hw E) as [(e & He & He1 & Hr1 & Hs1 & Hn)|(item & rest & -> & Hw1 & He1 & Hm)].
    + destruct (serveRun_ended _ _ _ ltac:(by eexists) Hrun) as [Ha He']. rewrite (Hn Ha).
      destruct (serveRun_failed _ _ _ _ Hr1 Hrun) as (H1 & H2 & _). split; [exists 0%nat; by rewrite H2|]. split.
      * intros _. rewrite H2, H1. done.
      * intros e'. rewrite H1. intros [= <-]. by right.
    + apply Forall_cons in Hok as [_ Hok]. destruct item as [p|h q]; cbn [publicationOf] in Hm.
      * destruct Hm as [Hs1 Hr1]. cbn [omap list_omap publicationOf].
        destruct (OnMessage p (cnState c)) as [[[]|e] s] eqn:Ho; cbn in Hs1, Hr1; subst s.
        -- destruct (IH c1 rest Hok Hr1 Hw1 Hrun) as ((k & H1) & H2 & H3). unfold serve_result. cbn [deliver]. rewrite Ho.
           split; [exists (Datatypes.S k); cbn [take deliver]; by rewrite Ho|]. by split.
        -- destruct (serveRun_failed _ _ _ _ Hr1 Hrun) as (H1 & H2 & _). unfold serve_result. cbn [deliver]. rewrite Ho, H1, H2.
           split; [exists 1%nat; cbn [take deliver]; by rewrite Ho|]. split; [done|]. intros e' [= <-]. by left.
      * destruct Hm as [Hr1 Hs1]. rewrite <-Hs1. by apply (IH c1 rest).
  - apply serveEvent_reader in E as (H1 & H2 & H3 & H4 & H5); [|done]. rewrite Hr in H1. rewrite <-H2. apply (IH c1); [done|done| |done].
    by rewrite H4, <-app_assoc, <-arrivedOf_cons.
Qed.

(** [serve] gives up for a reason, and writes nothing but pings. *)
Lemma serveRun_serve events c c' :
  serveRun OnMessage events c = Some c' → cnServe c = None →
  (∀ r, cnServe c' = Some r →
     r = Ok tt ∧ cnCancelled c' = true ∨ ∃ e, r = Err e ∧ (cnReader c' = Some e ∨ ∃ f, e = MEIO f ∧ SvPing (Some f) ∈ events)) ∧
  ∃ n, cnWritten c' = cnWritten c ++ mjoin (replicate n (packet 192 [])).
Proof.
  intros Hrun Hs.
  enough ((∀ r, cnServe c' = Some r → cnServe c = Some r ∨
     r = Ok tt ∧ cnCancelled c' = true ∨ ∃ e, r = Err e ∧ (cnReader c' = Some e ∨ ∃ f, e = MEIO f ∧ SvPing (Some f) ∈ events)) ∧
    (cnCancelled c = true → cnCancelled c' = true) ∧
    ∃ n, cnWritten c' = cnWritten c ++ mjoin (replicate n (packet 192 []))) as (H1 & _ & H2).
  { split; [|done]. intros r Hr. destruct (H1 r Hr) as [H|H]; [by rewrite Hs in H|done]. }
  clear Hs. revert c Hrun. induction events as [|ev events IH]; intros c; cbn [serveRun].
  { intros [= <-]. split; [by left|]. split; [done|]. exists 0%nat. cbn. by rewrite app_nil_r. }
  destruct (serveEvent OnMessage ev c) as [c1|] eqn:E; [|done]. intros Hrun. destruct (IH c1 Hrun) as (H1 & H2 & n & H3).
  assert (cnServe c1 = cnServe c ∧ (cnCancelled c = true → cnCancelled c1 = true) ∧ cnWritten c1 = cnWritten c ∨
    cnServe c = None ∧ cnCancelled c1 = cnCancelled c ∧
      (cnServe c1 = Some (Ok tt) ∧ cnCancelled c = true ∧ cnWritten c1 = cnWritten c ∨
       (∃ e, cnServe c1 = Some (Err e) ∧ cnReader c1 = Some e ∧ cnWritten c1 = cnWritten c) ∨
       (∃ f, ev = SvPing (Some f) ∧ cnServe c1 = Some (Err (MEIO f)) ∧ cnWritten c1 = cnWritten c) ∨
       (cnServe c1 = None ∧ cnWritten c1 = cnWritten c ++ packet 192 []))) as Hev.
  { clear -E. destruct ev as [bytes|e| | | | |[f|]]; cbn in E; unfold readRound in E; repeat case_match; simplify_eq; cbn; eauto 10. }
  destruct Hev as [(Hs1 & Hc1 & Hw1)|(Hs & Hc1 & Hev)].
  - split; [|split; [by auto|exists n; by rewrite <-Hw1]]. intros r Hr. rewrite <-Hs1.
    destruct (H1 r Hr) as [H|[H|(e & -> & [H|(f & -> & Hf)])]]; [by left|by right; left|right; right; exists e; by split; [|left]|].
    right. right. exists (MEIO f). split; [done|]. right. exists f. split; [done|]. by apply elem_of_cons; right.
  - split; [|split; [rewrite <-Hc1; done|]].
    + intros r Hr. right. destruct (H1 r Hr) as [H|[H|(e & -> & [H|(f & -> & Hf)])]]; [|by left|right; exists e; by split; [|left]|].
      * destruct Hev as [(Hs1 & Hc & _)|[(e & Hs1 & Hrd & _)|[(f & -> & Hs1 & _)|[Hs1 _]]]]; rewrite Hs1 in H; simplify_eq.
        -- left. split; [done|]. apply H2. by rewrite Hc1.
        -- right. exists e. split; [done|]. left. by destruct (serveRun_failed _ _ _ _ Hrd Hrun).
        -- right. exists (MEIO f). split; [done|]. right. exists f. split; [done|]. by apply elem_of_cons; left.
      * right. exists (MEIO f). split; [done|]. right. exists f. split; [done|]. by apply elem_of_cons; right.
    + assert (cnWritten c1 = cnWritten c ∨ cnWritten c1 = cnWritten c ++ packet 192 []) as [Hw|Hw] by naive_solver.
      * exists n. by rewrite <-Hw.
      * exists (Datatypes.S n). rewrite H3, Hw, <-app_assoc. done.
Qed.
End serving.
