(* ===== verification/MqttSession.v ===== *)
(** * The MQTT connection and its session: the goroutines of
      [internal/mqttv2/session.go]

    [client.Run] keeps one connection at a time and signals its two events on
    channels that hold one signal each; [Session.Run] receives the signals, in
    any order when both are there, and tells the manager.  Of the manager only
    [connected] matters here; [MqttManager] has the rest. *)

From stdpp Require Import relations.
From S2P Require Import Prelude.

(** Where [client.Run] stands. *)
Inductive client_phase : Type :=
| ClientDialing            (* in [connect] *)
| ClientServing (n : nat)  (* in [serve] on connection [n] *)
| ClientSleeping           (* the five seconds before the next attempt *)
| ClientDone.

Record Session := mkSession {
  ssPhase : client_phase;
  ssConnection : option nat;     (* [c.connection] *)
  ssConnected : bool;            (* a signal waits in [c.connected] *)
  ssDisconnected : bool;         (* a signal waits in [c.disconnected] *)
  ssManager : bool;              (* [manager.connected] *)
  ssRunning : bool;              (* [Session.Run] has not returned *)
  ssCancelled : bool
}.

Definition startSession : Session := mkSession ClientDialing None false false false true false.

(** [setConnection] and the signal after it. *)
Definition dialed (n : nat) (s : Session) : Session :=
  mkSession (ClientServing n) (Some n) true (ssDisconnected s) (ssManager s) (ssRunning s) (ssCancelled s).

(** [clearConnection] after [serve] has returned; it signals only the end of
    the current connection. *)
Definition clearConnection (n : nat) (s : Session) : Session :=
  let wasCurrent := bool_decide (ssConnection s = Some n) in
  mkSession (if ssCancelled s then ClientDone else ClientSleeping)
    (if wasCurrent then None else ssConnection s) (ssConnected s) (ssDisconnected s || wasCurrent)
    (ssManager s) (ssRunning s) (ssCancelled s).

(** [client.close], at the top of the loop. *)
Definition closeSession (s : Session) : Session :=
  mkSession ClientDone None (ssConnected s)
    (ssDisconnected s || match ssConnection s with Some _ => true | None => false end)
    (ssManager s) (ssRunning s) (ssCancelled s).

Definition toPhase (p : client_phase) (s : Session) : Session :=
  mkSession p (ssConnection s) (ssConnected s) (ssDisconnected s) (ssManager s) (ssRunning s) (ssCancelled s).

Inductive session_step : Session → Session → Prop :=
| se_dialed n s : ssPhase s = ClientDialing → session_step s (dialed n s)
| se_dial_failed s :
    ssPhase s = ClientDialing → session_step s (toPhase (if ssCancelled s then ClientDone else ClientSleeping) s)
| se_lost n s : ssPhase s = ClientServing n → session_step s (clearConnection n s)
| se_slept s : ssPhase s = ClientSleeping → ssCancelled s = false → session_step s (toPhase ClientDialing s)
| se_stopped s : ssPhase s = ClientSleeping → ssCancelled s = true → session_step s (toPhase ClientDone s)
| se_closed s : ssPhase s = ClientDialing → ssCancelled s = true → session_step s (closeSession s)
| se_cancel s :
    session_step s (mkSession (ssPhase s) (ssConnection s) (ssConnected s) (ssDisconnected s) (ssManager s) (ssRunning s) true)
| se_connected s :
    ssRunning s = true → ssConnected s = true →
    session_step s (mkSession (ssPhase s) (ssConnection s) false (ssDisconnected s) true true (ssCancelled s))
| se_disconnected s :
    ssRunning s = true → ssDisconnected s = true →
    session_step s (mkSession (ssPhase s) (ssConnection s) (ssConnected s) false false true (ssCancelled s))
| se_finished s :
    ssRunning s = true → ssCancelled s = true →
    session_step s (mkSession (ssPhase s) (ssConnection s) (ssConnected s) (ssDisconnected s) false false true).

Definition session_reachable (s : Session) : Prop := rtc session_step startSession s.

(** The signals are received as they come: none waits when the next is sent. *)
Definition prompt_step (s s' : Session) : Prop :=
  session_step s s' ∧ (ssConnected s = true ∨ ssDisconnected s = true → ssPhase s' = ssPhase s).

Record session_ok (s : Session) : Prop := {
  so_connection : ssConnection s = match ssPhase s with ClientServing n => Some n | _ => None end;
  so_stopped : ssRunning s = false → ssManager s = false ∧ ssCancelled s = true
}.

Lemma session_ok_step s s' : session_ok s → session_step s s' → session_ok s'.
Proof.
  intros Hok Hst. destruct Hst as [n s E|s E|n s E|s E F|s E F|s E F|s|s E F|s E F|s E F]; destruct Hok as [Hc Hs];
    rewrite ?E in Hc; split; cbn; try done.
  - by destruct (ssCancelled s).
  - rewrite Hc, bool_decide_eq_true_2 by done. by destruct (ssCancelled s).
  - intros Hr. by destruct (Hs Hr).
Qed.

Lemma session_ok_reachable s : session_reachable s → session_ok s.
Proof.
  unfold session_reachable. intros Hr. assert (session_ok startSession) as Hs by (by split).
  induction Hr as [|x y z Hxy _ IH]; [done|]. apply IH. by eapply session_ok_step.
Qed.

(** While the session runs and signals are received promptly, the manager is
    connected exactly when the client is, up to the one signal on its way. *)
Record prompt_ok (s : Session) : Prop := {
  po_one : ¬ (ssConnected s = true ∧ ssDisconnected s = true);
  po_manager : ssRunning s = true →
    if ssConnected s then is_Some (ssConnection s)
    else if ssDisconnected s then ssConnection s = None
    else ssManager s = match ssConnection s with Some _ => true | None => false end
}.

Lemma prompt_ok_step s s' : session_ok s → prompt_ok s → prompt_step s s' → prompt_ok s'.
Proof.
  intros Hok Hpo [Hst Hp].
  destruct Hst as [n s0 E|s0 E|n s0 E|s0 E F|s0 E F|s0 E F|s0|s0 E F|s0 E F|s0 E F]; destruct Hok as [Hc _], Hpo as [H1 H2];
    rewrite ?E in Hc; cbn in *.
  - assert (ssConnected s0 = false ∧ ssDisconnected s0 = false) as [Hc0 Hd0].
    { destruct (ssConnected s0), (ssDisconnected s0); try done; rewrite E in Hp; naive_solver. }
    split; cbn; [rewrite Hd0; naive_solver|done].
  - assert (ssConnected s0 = false ∧ ssDisconnected s0 = false) as [Hc0 Hd0].
    { destruct (ssConnected s0), (ssDisconnected s0), (ssCancelled s0); try done; rewrite E in Hp; naive_solver. }
    split; cbn; rewrite ?Hc0, ?Hd0 in *; [naive_solver|done].
  - assert (ssConnected s0 = false ∧ ssDisconnected s0 = false) as [Hc0 Hd0].
    { destruct (ssConnected s0), (ssDisconnected s0), (ssCancelled s0); try done; rewrite E in Hp; naive_solver. }
    unfold clearConnection. rewrite Hc, bool_decide_eq_true_2 by done. split; cbn; rewrite ?Hc0, ?Hd0; [naive_solver|done].
  - by split.
  - by split.
  - unfold closeSession. rewrite Hc. split; cbn; rewrite ?orb_false_r; [done|]. by rewrite Hc in H2.
  - by split.
  - split; cbn; [naive_solver|]. intros _. specialize (H2 E). rewrite F in H2. destruct (ssDisconnected s0); [naive_solver|].
    by destruct H2 as [n ->].
  - split; cbn; [naive_solver|]. intros _. specialize (H2 E). destruct (ssConnected s0); [naive_solver|].
    rewrite F in H2. by rewrite H2.
  - by split.
Qed.

Lemma prompt_ok_reachable s : rtc prompt_step startSession s → session_ok s ∧ prompt_ok s.
Proof.
  intros Hr. assert (session_ok startSession ∧ prompt_ok startSession) as Hs by (split; split; cbn; [done|done|naive_solver|done]).
  induction Hr as [|x y z Hxy _ IH]; [done|]. apply IH. destruct Hs. split; [by eapply session_ok_step; [|apply Hxy]|].
  by eapply prompt_ok_step.
Qed.
