(* ===== verification/Interleave.v ===== *)
(** * Handlers that share a state and one mutex

    A handler is a process: statements on the shared state, each of them atomic,
    and the mutex between them.  [exec] runs a process alone; [server_step] is the
    server, which runs any number of processes in any interleaving.  [rely] is the
    proof rule: a process keeps a ghost value, and what it knows about the state
    from that value is stable. *)

From S2P Require Import Prelude.

(** ** Processes *)

Inductive Proc (S R : Type) : Type :=
| PRet (r : R)
| PLock (k : Proc S R)
| PUnlock (k : Proc S R)
| PCall {A : Type} (m : S → A * S) (k : A → Proc S R).
Arguments PRet {S R} r.
Arguments PLock {S R} k.
Arguments PUnlock {S R} k.
Arguments PCall {S R A} m k.

Fixpoint pbind {S R R'} (p : Proc S R) (f : R → Proc S R') : Proc S R' :=
  match p with
  | PRet r => f r
  | PLock k => PLock (pbind k f)
  | PUnlock k => PUnlock (pbind k f)
  | PCall m k => PCall m (fun a => pbind (k a) f)
  end.

(** One statement, and the sequencing of fallible processes. *)
Definition pcall {S E A} (m : GoM S E A) : Proc S (result E A) := PCall m PRet.
Definition pseq {S E A B} (p : Proc S (result E A)) (f : A → Proc S (result E B)) : Proc S (result E B) :=
  pbind p (fun r => match r with Ok a => f a | Err e => PRet (Err e) end).
Definition plift {S E A} (r : result E A) : Proc S (result E A) := PRet r.

(** [mu.Lock(); defer mu.Unlock()]. *)
Definition plocked {S R} (p : Proc S R) : Proc S R := PLock (pbind p (fun r => PUnlock (PRet r))).

Notation "'step!' x <- p ; k" := (pseq p (fun x => k))
  (at level 10, x name, p at level 100, k at level 200) : go_scope.
Notation "'then!' p ; k" := (pseq p (fun _ => k))
  (at level 10, p at level 100, k at level 200) : go_scope.

(** A process alone; the mutex is free then. *)
Fixpoint exec {S R} (p : Proc S R) (s : S) : R * S :=
  match p with
  | PRet r => (r, s)
  | PLock k | PUnlock k => exec k s
  | PCall m k => let '(a, s') := m s in exec (k a) s'
  end.

Lemma exec_bind {S R R'} (p : Proc S R) (f : R → Proc S R') s :
  exec (pbind p f) s = let '(r, s') := exec p s in exec (f r) s'.
Proof.
  revert s. induction p as [r|k IH|k IH|A m k IH]; intros s; cbn [pbind exec]; [done|apply IH|apply IH|].
  destruct (m s) as [a s']. apply IH.
Qed.

Lemma exec_call {S E A} (m : GoM S E A) s : exec (pcall m) s = m s.
Proof. unfold pcall. cbn. by destruct (m s). Qed.

Lemma exec_seq {S E A B} (p : Proc S (result E A)) (f : A → Proc S (result E B)) s :
  exec (pseq p f) s = match exec p s with (Ok a, s') => exec (f a) s' | (Err e, s') => (Err e, s') end.
Proof. unfold pseq. rewrite exec_bind. by destruct (exec p s) as [[a|e] s']. Qed.

Lemma exec_locked {S R} (p : Proc S R) s : exec (plocked p) s = exec p s.
Proof. unfold plocked. cbn. rewrite exec_bind. by destruct (exec p s). Qed.

(** ** The server *)

Record Server (S R : Type) := mkServer {
  ssState : S;
  ssLocked : bool;
  ssTasks : list (Proc S R);
  ssAnswers : list R
}.
Arguments mkServer {S R}.
Arguments ssState {S R}.
Arguments ssLocked {S R}.
Arguments ssTasks {S R}.
Arguments ssAnswers {S R}.

Section server.
Context {S R : Type}.
(** The requests a server accepts, and what else changes its state. *)
Variables (request : Proc S R → Prop) (environment : S → S → Prop).

Inductive server_step : Server S R → Server S R → Prop :=
| step_request s l ts as_ p :
    request p → server_step (mkServer s l ts as_) (mkServer s l (ts ++ [p]) as_)
| step_environment s s' l ts as_ :
    environment s s' → server_step (mkServer s l ts as_) (mkServer s' l ts as_)
| step_lock s ts as_ i k :
    ts !! i = Some (PLock k) → server_step (mkServer s false ts as_) (mkServer s true (<[i := k]> ts) as_)
| step_unlock s ts as_ i k :
    ts !! i = Some (PUnlock k) → server_step (mkServer s true ts as_) (mkServer s false (<[i := k]> ts) as_)
| step_call s s' l ts as_ i A (m : S → A * S) a k :
    ts !! i = Some (PCall m k) → m s = (a, s') →
    server_step (mkServer s l ts as_) (mkServer s' l (<[i := k a]> ts) as_)
| step_answer s l ts as_ i r :
    ts !! i = Some (PRet r) → server_step (mkServer s l ts as_) (mkServer s l (delete i ts) (as_ ++ [r])).

Definition server_reachable (s : S) : Server S R → Prop := rtc server_step (mkServer s false [] []).

(** One step of the [i]-th task, when it can take one; and a schedule. *)
Definition advance (v : Server S R) (i : nat) : Server S R :=
  match ssTasks v !! i with
  | None => v
  | Some (PRet r) => mkServer (ssState v) (ssLocked v) (delete i (ssTasks v)) (ssAnswers v ++ [r])
  | Some (PLock k) => if ssLocked v then v else mkServer (ssState v) true (<[i := k]> (ssTasks v)) (ssAnswers v)
  | Some (PUnlock k) => if ssLocked v then mkServer (ssState v) false (<[i := k]> (ssTasks v)) (ssAnswers v) else v
  | Some (PCall m k) =>
      let '(a, s') := m (ssState v) in mkServer s' (ssLocked v) (<[i := k a]> (ssTasks v)) (ssAnswers v)
  end.

Definition play (schedule : list nat) (v : Server S R) : Server S R := fold_left advance schedule v.

Lemma advance_steps v i : rtc server_step v (advance v i).
Proof.
  destruct v as [s l ts as_]. unfold advance. cbn. destruct (ts !! i) as [[r|k|k|A m k]|] eqn:Hi; [| | | |done].
  - by apply rtc_once, step_answer.
  - destruct l; [done|]. by apply rtc_once, step_lock.
  - destruct l; [|done]. by apply rtc_once, step_unlock.
  - destruct (m s) as [a s'] eqn:Hm. apply rtc_once. by eapply step_call.
Qed.

Lemma play_steps schedule v : rtc server_step v (play schedule v).
Proof.
  revert v. induction schedule as [|i schedule IH]; intros v; [done|]. etrans; [apply advance_steps|apply IH].
Qed.

Lemma requests_reachable s ps : Forall request ps → server_reachable s (mkServer s false ps []).
Proof.
  unfold server_reachable. induction ps as [|p ps IH] using rev_ind; intros Hps; [done|]. apply Forall_app in Hps as [Hps [Hp _]%Forall_cons].
  etrans; [by apply IH|]. by apply rtc_once, step_request.
Qed.

(** ** The proof rule *)

(** [G] is what a task remembers; [whole] relates the state, the mutex, what all
    tasks remember and the answers given. *)
Class Rely (G : Type) := {
  start : G;
  view : G → S → Prop;
  acquire : G → G → Prop;
  release : G → G → Prop;
  statement_ok : G → S → G → S → Prop;
  answer_ok : G → R → Prop;
  whole : S → bool → list G → list R → Prop
}.

Class RelyLaws {G} (L : Rely G) := {
  whole_view s l gs as_ i g : whole s l gs as_ → gs !! i = Some g → view g s;
  whole_request s l gs as_ : whole s l gs as_ → whole s l (gs ++ [start]) as_;
  whole_environment s s' l gs as_ : whole s l gs as_ → environment s s' → whole s' l gs as_;
  whole_acquire s gs as_ i g g' : whole s false gs as_ → gs !! i = Some g → acquire g g' → whole s true (<[i := g']> gs) as_;
  whole_release s gs as_ i g g' : whole s true gs as_ → gs !! i = Some g → release g g' → whole s false (<[i := g']> gs) as_;
  whole_statement s s' l gs as_ i g g' :
    whole s l gs as_ → gs !! i = Some g → view g s → statement_ok g s g' s' → whole s' l (<[i := g']> gs) as_;
  whole_answer s l gs as_ i g r : whole s l gs as_ → gs !! i = Some g → answer_ok g r → whole s l (delete i gs) (as_ ++ [r])
}.

(** A process keeps the rule from what it remembers, up to a postcondition. *)
Fixpoint rely {G} {L : Rely G} {A} (post : G → A → Prop) (g : G) (p : Proc S A) : Prop :=
  match p with
  | PRet r => post g r
  | PLock k => ∃ g', acquire g g' ∧ rely post g' k
  | PUnlock k => ∃ g', release g g' ∧ rely post g' k
  | PCall m k => ∀ s a s', view g s → m s = (a, s') → ∃ g', statement_ok g s g' s' ∧ rely post g' (k a)
  end.

Lemma rely_bind {G} {L : Rely G} {A B} (post : G → B → Prop) g (p : Proc S A) (f : A → Proc S B) :
  rely (fun g' a => rely post g' (f a)) g p → rely post g (pbind p f).
Proof.
  revert g. induction p as [r|k IH|k IH|A' m k IH]; intros g; cbn [rely pbind]; [done| | |].
  - intros (g' & Ha & Hk). eauto.
  - intros (g' & Ha & Hk). eauto.
  - intros Hc s a s' Hv Hm. destruct (Hc s a s' Hv Hm) as (g' & Hs & Hk). eauto.
Qed.

Lemma rely_mono {G} {L : Rely G} {A} (post post' : G → A → Prop) g (p : Proc S A) :
  (∀ g a, post g a → post' g a) → rely post g p → rely post' g p.
Proof.
  intros Hp. revert g. induction p as [r|k IH|k IH|A' m k IH]; intros g; cbn [rely]; [auto| | |].
  - intros (g' & Ha & Hk). eauto.
  - intros (g' & Ha & Hk). eauto.
  - intros Hc s a s' Hv Hm. destruct (Hc s a s' Hv Hm) as (g' & Hs & Hk). eauto.
Qed.

Lemma rely_seq {G} {L : Rely G} {E A B} (post : G → result E B → Prop) g (p : Proc S (result E A)) f :
  rely (fun g' r => match r with Ok a => rely post g' (f a) | Err e => post g' (Err e) end) g p → rely post g (pseq p f).
Proof. intros Hp. apply rely_bind. eapply rely_mono; [|exact Hp]. by intros g' [a|e]. Qed.

Lemma rely_call {G} {L : Rely G} {E A} (post : G → result E A → Prop) g (m : GoM S E A) :
  (∀ s r s', view g s → m s = (r, s') → ∃ g', statement_ok g s g' s' ∧ post g' r) → rely post g (pcall m).
Proof. intros Hm s r s' Hv E'. eauto. Qed.

(** A deferred unlock: what is remembered at the end can be released. *)
Lemma rely_locked {G} {L : Rely G} {A} (post : G → A → Prop) g g1 (p : Proc S A) :
  acquire g g1 → rely (fun g' r => ∃ g'', release g' g'' ∧ post g'' r) g1 p → rely post g (plocked p).
Proof. intros Ha Hp. exists g1. split; [done|]. apply rely_bind. exact Hp. Qed.

Definition server_ok {G} {L : Rely G} (v : Server S R) : Prop :=
  ∃ gs, Forall2 (rely answer_ok) gs (ssTasks v) ∧ whole (ssState v) (ssLocked v) gs (ssAnswers v).

Context {G} {L : Rely G} {Laws : RelyLaws L}.
Hypothesis (Hrequest : ∀ p, request p → rely answer_ok start p).

Lemma server_step_ok v v' : server_ok v → server_step v v' → server_ok v'.
Proof.
  intros (gs & Hts & Hw) Hs.
  destruct Hs as [s l ts as_ p Hp|s s' l ts as_ He|s ts as_ i k Hi|s ts as_ i k Hi|s s' l ts as_ i A m a k Hi Hm|s l ts as_ i r Hi];
    cbn [ssTasks ssState ssLocked ssAnswers] in *.
  - exists (gs ++ [start]). cbn. split; [|by apply whole_request]. apply Forall2_app; [done|]. constructor; [auto|constructor].
  - exists gs. split; [done|]. by eapply whole_environment.
  - destruct (Forall2_lookup_r _ _ _ _ _ Hts Hi) as (g & Hg & g' & Ha & Hk). exists (<[i := g']> gs). cbn.
    split; [by apply Forall2_insert|]. by eapply whole_acquire.
  - destruct (Forall2_lookup_r _ _ _ _ _ Hts Hi) as (g & Hg & g' & Ha & Hk). exists (<[i := g']> gs). cbn.
    split; [by apply Forall2_insert|]. by eapply whole_release.
  - destruct (Forall2_lookup_r _ _ _ _ _ Hts Hi) as (g & Hg & Hc). cbn in Hc.
    destruct (Hc s a s' (whole_view _ _ _ _ _ _ Hw Hg) Hm) as (g' & Ha & Hk). exists (<[i := g']> gs). cbn.
    split; [by apply Forall2_insert|]. eapply whole_statement; [done|done|by eapply whole_view|done].
  - destruct (Forall2_lookup_r _ _ _ _ _ Hts Hi) as (g & Hg & Ha). exists (delete i gs). cbn.
    split; [by apply Forall2_delete|]. by eapply whole_answer.
Qed.

Lemma server_reachable_ok s v : whole s false [] [] → server_reachable s v → server_ok v.
Proof.
  intros H0 Hr. assert (server_ok (mkServer s false [] [])) as Hok by (exists []; split; [constructor|done]).
  unfold server_reachable in Hr. clear H0. induction Hr as [|v1 v2 v3 H12 _ IH]; [done|]. apply IH. by eapply server_step_ok.
Qed.
End server.

(** ** Counting *)

Definition countIf {A} (f : A → bool) (l : list A) : nat := length (List.filter f l).

Lemma countIf_app {A} (f : A → bool) l l' : countIf f (l ++ l') = (countIf f l + countIf f l')%nat.
Proof. unfold countIf. by rewrite List.filter_app, length_app. Qed.

Lemma countIf_cons {A} (f : A → bool) a l : countIf f (a :: l) = (Nat.b2n (f a) + countIf f l)%nat.
Proof. unfold countIf. simpl. by destruct (f a). Qed.

Lemma countIf_insert {A} (f : A → bool) l i a a' :
  l !! i = Some a → (countIf f (<[i := a']> l) + Nat.b2n (f a) = countIf f l + Nat.b2n (f a'))%nat.
Proof.
  revert i. induction l as [|b l IH]; intros [|i]; simpl; try done.
  - intros [= ->]. rewrite !countIf_cons. lia.
  - intros Hi. specialize (IH i Hi). rewrite !countIf_cons. lia.
Qed.

Lemma countIf_delete {A} (f : A → bool) l i a :
  l !! i = Some a → (countIf f (delete i l) + Nat.b2n (f a) = countIf f l)%nat.
Proof.
  revert i. induction l as [|b l IH]; intros [|i]; simpl; try done.
  - intros [= ->]. rewrite !countIf_cons. lia.
  - intros Hi. specialize (IH i Hi). rewrite !countIf_cons. lia.
Qed.

Lemma countIf_elem {A} (f : A → bool) l i a : l !! i = Some a → f a = true → (0 < countIf f l)%nat.
Proof. intros Hi Ha. pose proof (countIf_delete f l i a Hi) as E. rewrite Ha in E. simpl in E. lia. Qed.
