(* ===== verification/Auth.v ===== *)
(** * Local accounts: [internal/auth], [internal/storage/auth.go] and the
      handlers of [internal/agent/auth_http.go]

    The two tables as a value, the store's statements, the service's operations
    as processes ([Interleave]) because the HTTP server runs them side by side,
    and the handlers after the JSON body has been decoded.  [idKey] is
    [argon2.IDKey]; the bytes that [rand.Read] delivers are an argument. *)

From Stdlib Require Import Ascii String.
From stdpp Require Import pretty.
From S2P Require Import Prelude GoText Interleave.

Definition RoleViewer : string := "VIEWER".
Definition RoleOperator : string := "OPERATOR".
Definition RoleAdmin : string := "ADMIN".
Definition MinIdleTimeout : Z := 60 * second.
Definition MaxIdleTimeout : Z := 3600 * second.
Definition MaxUsernameLength : Z := 128.
Definition MaxPasswordLength : Z := 4096.

Inductive auth_error : Type :=
| ErrInvalidCredentials | ErrSetupCompleted | ErrPasswordMismatch | ErrInvalidUsername | ErrInvalidPassword
| ErrInvalidRole | ErrAccountExists | ErrAccountNotFound | ErrInvalidIdleTimeout
| ErrNoRows | ErrConstraint | ErrSql (e : string) | ErrRand (e : string).

Record Account := mkAccount { acUsername : string; acPasswordHash : string; acRole : string }.
Record Identity := mkIdentity { idUsername : string; idRole : string }.
Record Permissions := mkPermissions { pmOperate : bool; pmMaintenance : bool }.

#[global] Instance Identity_eq_dec : EqDecision Identity. Proof. solve_decision. Defined.

Definition roleValid (r : string) : bool := (r =s RoleViewer) || (r =s RoleOperator) || (r =s RoleAdmin).

(** [Identity.Permissions]. *)
Definition permissionsOf (i : Identity) : Permissions :=
  if idRole i =s RoleAdmin then mkPermissions true true
  else if idRole i =s RoleOperator then mkPermissions true false
  else mkPermissions false false.

(** ** Passwords *)

Definition argonMemory : Z := 64 * 1024.
Definition argonIterations : Z := 3.
Definition argonParallelism : Z := 1.
Definition argonSaltLength : Z := 16.
Definition argonKeyLength : Z := 32.

Section passwords.
(** [argon2.IDKey(password, salt, iterations, memory, parallelism, keyLength)]. *)
Variable (idKey : list Z → list Z → Z → Z → Z → Z → list Z).

Definition paramText : string :=
  String.append "m=" (String.append (pretty argonMemory) (String.append ",t="
    (String.append (pretty argonIterations) (String.append ",p=" (pretty argonParallelism))))).

(** [HashPassword]; [random] is what [rand.Read] fills the salt with. *)
Definition HashPassword (random : result string (list Z)) (password : string) : result auth_error string :=
  match random with
  | Err e => Err (ErrRand e)
  | Ok salt =>
      let key := idKey (bytesOf password) salt argonIterations argonMemory argonParallelism argonKeyLength in
      Ok (String.append "$argon2id$v=19$" (String.append paramText (String "$"
           (String.append (EncodeToString RawStdEncoding salt) (String "$" (EncodeToString RawStdEncoding key))))))
  end.

(** Memory, iterations and parallelism, as the loop over the items sets them. *)
Fixpoint readParams (items : list string) (acc : Z * Z * Z) : option (Z * Z * Z) :=
  match items with
  | [] => Some acc
  | item :: rest =>
      match cutChar item "="%char with
      | None => None
      | Some (name, text) =>
          match parseUint text 32 with
          | None => None
          | Some value =>
              let '(memory, iterations, parallelism) := acc in
              if name =s "m" then readParams rest (value, iterations, parallelism)
              else if name =s "t" then readParams rest (memory, value, parallelism)
              else if name =s "p" then readParams rest (memory, iterations, value)
              else None
          end
      end
  end.

Definition VerifyPassword (encoded password : string) : bool :=
  match splitChar encoded "$"%char with
  | [_; algorithm; version; params; saltText; keyText] =>
      if (algorithm <>s "argon2id") || (version <>s "v=19") then false
      else match readParams (splitChar params ","%char) (0, 0, 0) with
           | None => false
           | Some (memory, iterations, parallelism) =>
               if negb (memory =? argonMemory) || negb (iterations =? argonIterations) ||
                  negb (parallelism =? argonParallelism)
               then false
               else match DecodeString RawStdEncoding saltText, DecodeString RawStdEncoding keyText with
                    | Some salt, Some expected =>
                        if negb (Z.of_nat (length salt) =? argonSaltLength) ||
                           negb (Z.of_nat (length expected) =? argonKeyLength)
                        then false
                        else bool_decide (idKey (bytesOf password) salt iterations memory parallelism
                                            (Z.of_nat (length expected)) = expected)
                    | _, _ => false
                    end
           end
  | _ => false
  end.
End passwords.

(** ** The tables *)

(** [local_accounts] by its key (password hash and role), the row of
    [local_system_settings], and the outcomes of the statements to come. *)
Record AuthDB := mkAuthDB {
  adAccounts : gmap string (string * string);
  adIdleSeconds : option Z;
  adFaults : list (option string)
}.

Abbreviation AuthM := (GoM AuthDB auth_error).
Abbreviation AuthP A := (Proc AuthDB (result auth_error A)).

Definition authStatement : AuthM unit := fun db =>
  match adFaults db with
  | [] => (Ok tt, db)
  | None :: rest => (Ok tt, mkAuthDB (adAccounts db) (adIdleSeconds db) rest)
  | Some e :: rest => (Err (ErrSql e), mkAuthDB (adAccounts db) (adIdleSeconds db) rest)
  end.

Definition setAccounts (accounts : gmap string (string * string)) (db : AuthDB) : AuthDB :=
  mkAuthDB accounts (adIdleSeconds db) (adFaults db).

Definition isAdmin (row : string * (string * string)) : Prop := row.2.2 = RoleAdmin.
#[global] Instance isAdmin_dec row : Decision (isAdmin row). Proof. unfold isAdmin. apply _. Defined.

Definition admins (db : AuthDB) : gmap string (string * string) := filter isAdmin (adAccounts db).

Definition queryHasAdmin : AuthM bool :=
  run! authStatement;
  do! db <- gget;
  gret (negb (bool_decide (admins db = ∅))).

Definition queryAccount (username : string) : AuthM (option Account) :=
  run! authStatement;
  do! db <- gget;
  gret (match adAccounts db !! username with
        | Some (hash, role) => Some (mkAccount username hash role)
        | None => None
        end).

(** The table's CHECK and PRIMARY KEY. *)
Definition insertAccount (account : Account) : AuthM unit :=
  run! authStatement;
  do! db <- gget;
  if negb (roleValid (acRole account)) then gfail ErrConstraint
  else match adAccounts db !! acUsername account with
       | Some _ => gfail ErrConstraint
       | None => gmod (setAccounts (<[acUsername account := (acPasswordHash account, acRole account)]> (adAccounts db)))
       end.

(** The number of rows that an UPDATE of a password meets. *)
Definition updatePassword (username hash : string) : AuthM Z :=
  run! authStatement;
  do! db <- gget;
  match adAccounts db !! username with
  | Some (_, role) => run! gmod (setAccounts (<[username := (hash, role)]> (adAccounts db))); gret 1
  | None => gret 0
  end.

Definition queryIdleTimeout : AuthM Z :=
  run! authStatement;
  do! db <- gget;
  match adIdleSeconds db with
  | None => gfail ErrNoRows
  | Some seconds => gret (i64 (seconds * second))
  end.

Definition updateIdleTimeout (seconds : Z) : AuthM unit :=
  run! authStatement;
  do! db <- gget;
  match adIdleSeconds db with
  | None => gret tt
  | Some _ =>
      if (60 <=? seconds) && (seconds <=? 3600)
      then gmod (fun db => mkAuthDB (adAccounts db) (Some seconds) (adFaults db))
      else gfail ErrConstraint
  end.

(** ** The store *)

Definition CreateAccount (account : Account) : AuthP unit :=
  if negb (roleValid (acRole account)) then plift (Err ErrInvalidRole)
  else
    step! found <- pcall (queryAccount (acUsername account));
    match found with
    | Some _ => plift (Err ErrAccountExists)
    | None => pcall (insertAccount account)
    end.

Definition SetPassword (username hash : string) : AuthP unit :=
  step! changed <- pcall (updatePassword username hash);
  plift (if changed =? 0 then Err ErrAccountNotFound else Ok tt).

Definition storeSetIdleTimeout (timeout : Z) : AuthP unit :=
  if (timeout <? MinIdleTimeout) || (MaxIdleTimeout <? timeout) || negb (Z.rem timeout second =? 0)
  then plift (Err ErrInvalidIdleTimeout)
  else pcall (updateIdleTimeout (Z.quot timeout second)).

(** ** The service *)

Definition validIdleTimeout (timeout : Z) : bool :=
  (MinIdleTimeout <=? timeout) && (timeout <=? MaxIdleTimeout) && (Z.rem timeout second =? 0).

Definition validateUsername (username : string) : result auth_error unit :=
  if (username =s "") || (MaxUsernameLength <? runeCount username) then Err ErrInvalidUsername else Ok tt.

Definition validatePassword (password : string) : result auth_error unit :=
  if (password =s "") || (MaxPasswordLength <? runeCount password) then Err ErrInvalidPassword else Ok tt.

Definition validateCredentials (username password confirmPassword : string) : result auth_error unit :=
  let? _ := validateUsername username in
  let? _ := validatePassword password in
  let? _ := validatePassword confirmPassword in
  if password <>s confirmPassword then Err ErrPasswordMismatch else Ok tt.

(** Whether [NewService] succeeds. *)
Definition NewService : AuthM unit :=
  do! timeout <- queryIdleTimeout;
  if negb (validIdleTimeout timeout) then gfail ErrInvalidIdleTimeout else gret tt.

Section service.
Variable (idKey : list Z → list Z → Z → Z → Z → Z → list Z).

Definition FirstSetup (random : result string (list Z)) (username password confirmPassword : string) : AuthP Identity :=
  then! plift (validateCredentials username password confirmPassword);
  plocked (
    step! hasAdmin <- pcall queryHasAdmin;
    if hasAdmin then plift (Err ErrSetupCompleted)
    else
      step! hash <- plift (HashPassword idKey random password);
      then! CreateAccount (mkAccount username hash RoleAdmin);
      plift (Ok (mkIdentity username RoleAdmin))).

Definition Login (username password : string) : AuthP Identity :=
  then! plift (validateUsername username);
  then! plift (validatePassword password);
  step! found <- pcall (queryAccount username);
  plift match found with
        | None => Err ErrInvalidCredentials
        | Some account =>
            if negb (VerifyPassword idKey (acPasswordHash account) password) then Err ErrInvalidCredentials
            else Ok (mkIdentity (acUsername account) (acRole account))
        end.

Definition ChangePassword (random : result string (list Z)) (username currentPassword newPassword : string) : AuthP unit :=
  then! plift (validateUsername username);
  then! plift (validatePassword currentPassword);
  then! plift (validatePassword newPassword);
  step! found <- pcall (queryAccount username);
  match found with
  | None => plift (Err ErrInvalidCredentials)
  | Some account =>
      if negb (VerifyPassword idKey (acPasswordHash account) currentPassword) then plift (Err ErrInvalidCredentials)
      else
        step! hash <- plift (HashPassword idKey random newPassword);
        SetPassword (acUsername account) hash
  end.

Definition SetIdleTimeout (timeout : Z) : AuthP unit :=
  if negb (validIdleTimeout timeout) then plift (Err ErrInvalidIdleTimeout) else storeSetIdleTimeout timeout.

(** ** The handlers *)

Inductive response_body : Type :=
| BodyNone
| BodyBootstrap (bootstrapRequired : bool)
| BodyIdentity (identity : Identity) (permissions : Permissions)
| BodyIdleTimeout (seconds : Z)
| BodyError (error : string).

Record Response := mkResponse { rsStatus : Z; rsBody : response_body }.

Definition authErrorText (e : auth_error) : string :=
  match e with
  | ErrInvalidCredentials => "invalid username or password"
  | ErrSetupCompleted => "initial setup is already complete"
  | ErrPasswordMismatch => "password confirmation does not match"
  | ErrInvalidUsername => "username is required"
  | ErrInvalidPassword => "password is required"
  | ErrInvalidRole => "invalid account role"
  | ErrAccountExists => "account already exists"
  | ErrAccountNotFound => "account does not exist"
  | ErrInvalidIdleTimeout => "idle timeout must be between 60 and 3600 seconds"
  | ErrNoRows => "sql: no rows in result set"
  | ErrConstraint => "constraint failed"
  | ErrSql e | ErrRand e => e
  end.

Fixpoint replaceNewlines (s : string) : string :=
  match s with
  | EmptyString => ""
  | String a s' => String (if code a =? 10 then " "%char else a) (replaceNewlines s')
  end.

Definition writeAuthError (e : auth_error) : Response :=
  let status :=
    match e with
    | ErrInvalidCredentials => 401
    | ErrSetupCompleted | ErrAccountExists => 409
    | ErrPasswordMismatch | ErrInvalidUsername | ErrInvalidPassword | ErrInvalidRole | ErrInvalidIdleTimeout => 400
    | ErrAccountNotFound => 404
    | ErrNoRows | ErrConstraint | ErrSql _ | ErrRand _ => 500
    end in
  mkResponse status (BodyError (replaceNewlines (authErrorText e))).

Definition responseIdentity (i : Identity) : response_body := BodyIdentity i (permissionsOf i).

Definition notFound : Response := mkResponse 404 BodyNone.
Definition methodNotAllowed : Response := mkResponse 405 BodyNone.
(** What [decodeJSON] writes when a body is not what the handler expects. *)
Definition invalidJSON : Response := mkResponse 400 (BodyError "invalid JSON request").

Definition answer {A} (p : AuthP A) (f : A → Response) : Proc AuthDB Response :=
  pbind p (fun r => PRet (match r with Ok a => f a | Err e => writeAuthError e end)).

(** [available]: the runtime has an authentication service.  A body of [None]
    is one that [decodeJSON] refuses. *)
Definition bootstrap (available : bool) (method : string) (body : option (string * string * string))
    (random : result string (list Z)) : Proc AuthDB Response :=
  if negb available then PRet notFound
  else if method =s "GET" then
    answer (pcall queryHasAdmin) (fun hasAdmin => mkResponse 200 (BodyBootstrap (negb hasAdmin)))
  else if method =s "POST" then
    match body with
    | None => PRet invalidJSON
    | Some (username, password, confirmPassword) =>
        answer (FirstSetup random username password confirmPassword)
          (fun identity => mkResponse 201 (responseIdentity identity))
    end
  else PRet methodNotAllowed.

Definition login (available : bool) (method : string) (body : option (string * string)) : Proc AuthDB Response :=
  if method <>s "POST" then PRet methodNotAllowed
  else if negb available then PRet notFound
  else match body with
       | None => PRet invalidJSON
       | Some (username, password) =>
           answer (Login username password) (fun identity => mkResponse 200 (responseIdentity identity))
       end.

Definition changePassword (available : bool) (method : string) (body : option (string * string * string))
    (random : result string (list Z)) : Proc AuthDB Response :=
  if method <>s "POST" then PRet methodNotAllowed
  else if negb available then PRet notFound
  else match body with
       | None => PRet invalidJSON
       | Some (username, currentPassword, newPassword) =>
           answer (ChangePassword random username currentPassword newPassword) (fun _ => mkResponse 204 BodyNone)
       end.

(** The product of a duration and [time.Second] wraps at 64 bits. *)
Definition sessionPolicy (available : bool) (method : string) (body : option Z) : Proc AuthDB Response :=
  if negb available then PRet notFound
  else if method =s "GET" then
    answer (pcall queryIdleTimeout) (fun timeout => mkResponse 200 (BodyIdleTimeout (Z.quot timeout second)))
  else if method =s "PUT" then
    match body with
    | None => PRet invalidJSON
    | Some idleTimeoutSeconds =>
        answer (SetIdleTimeout (i64 (idleTimeoutSeconds * second)))
          (fun _ => mkResponse 200 (BodyIdleTimeout idleTimeoutSeconds))
    end
  else PRet methodNotAllowed.

(** The requests the server runs side by side. *)
Inductive auth_request : Proc AuthDB Response → Prop :=
| request_bootstrap available method body random : auth_request (bootstrap available method body random)
| request_login available method body : auth_request (login available method body)
| request_changePassword available method body random : auth_request (changePassword available method body random)
| request_sessionPolicy available method body : auth_request (sessionPolicy available method body).
End service.
