(* ===== verification/AuthProofs.v ===== *)
(** * Proofs about accounts: the tables, the setup race, and passwords *)

From Stdlib Require Import Ascii String.
From stdpp Require Import pretty.
From S2P Require Import Prelude GoText Interleave Auth.

(** ** The tables *)

Definition auth_ok (db : AuthDB) : Prop :=
  map_Forall (fun _ row => roleValid row.2 = true) (adAccounts db) ∧
  ∃ seconds, adIdleSeconds db = Some seconds ∧ 60 ≤ seconds ≤ 3600.

(** The administrators. *)
Definition adminNames (db : AuthDB) : gset string := dom (admins db).

(** Statements that only read, and changes outside the program. *)
Definition same_tables (db db' : AuthDB) : Prop :=
  adAccounts db' = adAccounts db ∧ adIdleSeconds db' = adIdleSeconds db.

Lemma same_tables_ok db db' : same_tables db db' → auth_ok db → auth_ok db'.
Proof. intros [E1 E2]. unfold auth_ok. by rewrite E1, E2. Qed.

Lemma same_tables_names db db' : same_tables db db' → adminNames db' = adminNames db.
Proof. intros [E1 _]. unfold adminNames, admins. by rewrite E1. Qed.

Lemma authStatement_spec db r db' : authStatement db = (r, db') → same_tables db db' ∧ (adFaults db = [] → r = Ok tt ∧ db' = db).
Proof. unfold authStatement. destruct db as [a i [|[e|] fs]]; cbn; intros [= <- <-]; repeat split; done. Qed.

(** Follows a statement of the store to its first outcome. *)
Ltac statement H :=
  unfold gbind, gget, gret, gfail, gmod in H;
  match type of H with
  | context [authStatement ?db] =>
      let Es := fresh "Es" in let Hs := fresh "Hs" in let db1 := fresh "db" in
      destruct (authStatement db) as [[[]|?] db1] eqn:Es;
      pose proof (proj1 (authStatement_spec _ _ _ Es)) as Hs
  end.

Lemma queryHasAdmin_spec db r db' :
  queryHasAdmin db = (r, db') → same_tables db db' ∧ (r = Ok false → adminNames db' = ∅).
Proof.
  intros H. unfold queryHasAdmin in H. statement H; simplify_eq; split; try done.
  intros [= Hb]. apply negb_false_iff, bool_decide_eq_true in Hb. unfold adminNames. by rewrite Hb, dom_empty_L.
Qed.

Lemma queryAccount_spec username db r db' :
  queryAccount username db = (r, db') →
  same_tables db db' ∧ ∀ found, r = Ok found →
    found = match adAccounts db !! username with Some (hash, role) => Some (mkAccount username hash role) | None => None end.
Proof.
  intros H. unfold queryAccount in H. statement H; simplify_eq; split; try done.
  intros found [= <-]. by rewrite (proj1 Hs).
Qed.

Lemma queryIdleTimeout_spec db r db' : queryIdleTimeout db = (r, db') → same_tables db db'.
Proof.
  intros H. unfold queryIdleTimeout in H. statement H; [|by simplify_eq].
  destruct (adIdleSeconds db0); by simplify_eq.
Qed.

Lemma updateIdleTimeout_spec seconds db r db' :
  updateIdleTimeout seconds db = (r, db') → auth_ok db →
  adAccounts db' = adAccounts db ∧ auth_ok db' ∧ (adIdleSeconds db' = adIdleSeconds db ∨ adIdleSeconds db' = Some seconds).
Proof.
  intros H Hok. unfold updateIdleTimeout in H.
  assert (∀ db1, same_tables db db1 → adAccounts db1 = adAccounts db ∧ auth_ok db1 ∧
            (adIdleSeconds db1 = adIdleSeconds db ∨ adIdleSeconds db1 = Some seconds)) as Hsame.
  { intros db1 Hs. pose proof (same_tables_ok _ _ Hs Hok). destruct Hs. eauto. }
  statement H; [|simplify_eq; by apply Hsame]. destruct (Hsame _ Hs) as (E1 & Hok' & E2).
  destruct (adIdleSeconds db0) as [old|] eqn:Ea; [|simplify_eq; by apply Hsame].
  case_match eqn:Hr; [|simplify_eq; by apply Hsame]. simplify_eq; cbn. propify.
  split; [done|]. split; [|by right]. split; [apply Hok'|]. exists seconds. split; [done|lia].
Qed.

(** A new password keeps the names and roles. *)
Lemma updatePassword_spec username hash db r db' :
  updatePassword username hash db = (r, db') → auth_ok db →
  adminNames db' = adminNames db ∧ auth_ok db' ∧ adIdleSeconds db' = adIdleSeconds db ∧
  match r with
  | Ok 0 => adAccounts db !! username = None ∧ adAccounts db' = adAccounts db
  | Ok _ => ∃ old role, adAccounts db !! username = Some (old, role) ∧
                        adAccounts db' = <[username := (hash, role)]> (adAccounts db)
  | Err _ => adAccounts db' = adAccounts db
  end.
Proof.
  intros H Hok. unfold updatePassword in H. statement H; pose proof (same_tables_ok _ _ Hs Hok) as Hok';
    pose proof (same_tables_names _ _ Hs) as Hn; destruct Hs as [E1 E2]; [|by simplify_eq].
  destruct (adAccounts db0 !! username) as [[old role]|] eqn:Ea; [|simplify_eq; rewrite <-E1; by rewrite Ea].
  simplify_eq. cbn. split; [|split; [|split; [done|]]].
  - rewrite <-Hn. apply set_eq. intros u. unfold adminNames, admins. cbn. rewrite !elem_of_dom.
    unfold is_Some. setoid_rewrite map_lookup_filter_Some. destruct (decide (u = username)) as [->|Hu].
    + setoid_rewrite lookup_insert_eq. setoid_rewrite Ea. unfold isAdmin. naive_solver.
    + by setoid_rewrite lookup_insert_ne.
  - split; [|apply Hok']. cbn. apply map_Forall_insert_2; [|apply Hok']. cbn. by apply (proj1 Hok' username (old, role)).
  - exists old, role. rewrite <-E1. by rewrite Ea.
Qed.

Lemma insertAccount_spec account db r db' :
  insertAccount account db = (r, db') → auth_ok db →
  auth_ok db' ∧ adIdleSeconds db' = adIdleSeconds db ∧
  match r with
  | Ok _ => adAccounts db !! acUsername account = None ∧
            adAccounts db' = <[acUsername account := (acPasswordHash account, acRole account)]> (adAccounts db)
  | Err _ => adAccounts db' = adAccounts db
  end.
Proof.
  intros H Hok. unfold insertAccount in H. statement H; pose proof (same_tables_ok _ _ Hs Hok) as Hok';
    destruct Hs as [E1 E2]; [|by simplify_eq].
  destruct (roleValid (acRole account)) eqn:Hrole; cbn [negb] in H; [|by simplify_eq].
  destruct (adAccounts db0 !! acUsername account) eqn:Ea; simplify_eq; [done|]. cbn. rewrite <-E1.
  split; [|done]. split; [|apply Hok']. cbn. apply map_Forall_insert_2; [done|apply Hok'].
Qed.

Lemma insert_admin_names account db db' :
  acRole account = RoleAdmin → adminNames db = ∅ →
  adAccounts db' = <[acUsername account := (acPasswordHash account, acRole account)]> (adAccounts db) →
  adminNames db' = {[ acUsername account ]}.
Proof.
  intros Hr Hn E. apply set_eq. intros u. unfold adminNames, admins in *. rewrite E, elem_of_dom, elem_of_singleton.
  destruct (decide (u = acUsername account)) as [->|Hu].
  - split; [done|]. intros _. exists (acPasswordHash account, acRole account). apply map_lookup_filter_Some.
    by rewrite lookup_insert_eq.
  - split; [|done]. intros [row [Hrow Ha]%map_lookup_filter_Some]. rewrite lookup_insert_ne in Hrow by done.
    assert (u ∈ (∅ : gset string)) as Hin; [|set_solver]. rewrite <-Hn. apply elem_of_dom. exists row. by apply map_lookup_filter_Some.
Qed.

(** ** The setup race

    What a handler remembers: nothing; that it holds the mutex; that it also saw
    no administrator; that it then made one; and that it has let the mutex go. *)

Inductive setup_state : Type := SIdle | SHolding | SClear | SMade | SDone.

Definition holds (g : setup_state) : bool := match g with SHolding | SClear | SMade => true | _ => false end.
Definition sawNone (g : setup_state) : bool := match g with SClear => true | _ => false end.
Definition madeAdmin (g : setup_state) : bool := match g with SMade | SDone => true | _ => false end.
Definition created (r : Response) : bool := rsStatus r =? 201.

Inductive setup_release : setup_state → setup_state → Prop :=
| release_holding : setup_release SHolding SIdle
| release_clear : setup_release SClear SIdle
| release_made : setup_release SMade SDone.

Inductive setup_statement : setup_state → AuthDB → setup_state → AuthDB → Prop :=
| statement_keep g db db' : auth_ok db' → adminNames db' = adminNames db → setup_statement g db g db'
| statement_clear db db' : auth_ok db' → adminNames db' = adminNames db → adminNames db' = ∅ → setup_statement SHolding db SClear db'
| statement_made db db' username : auth_ok db' → adminNames db = ∅ → adminNames db' = {[username]} → setup_statement SClear db SMade db'.

Definition setup_answer (g : setup_state) (r : Response) : Prop :=
  (g = SIdle ∧ created r = false) ∨ (g = SDone ∧ created r = true).

(** No request is answered [201] beyond the administrators there are. *)
Record setup_whole (before : nat) (db : AuthDB) (locked : bool) (gs : list setup_state) (answers : list Response) : Prop := {
  sw_ok : auth_ok db;
  sw_lock : countIf holds gs = if locked then 1%nat else 0%nat;
  sw_clear : (0 < countIf sawNone gs)%nat → adminNames db = ∅;
  sw_count : (before + countIf madeAdmin gs + countIf created answers ≤ size (adminNames db))%nat;
  sw_one : (size (adminNames db) ≤ 1)%nat
}.

#[export] Instance setup_rely (before : nat) : Rely (S := AuthDB) (R := Response) setup_state := {
  start := SIdle;
  view g db := auth_ok db ∧ (g = SClear → adminNames db = ∅);
  acquire g g' := g = SIdle ∧ g' = SHolding;
  release := setup_release;
  statement_ok := setup_statement;
  answer_ok := setup_answer;
  whole := setup_whole before
}.

(** Other connections to the database do not write these tables. *)
#[export] Instance setup_rely_laws before : RelyLaws same_tables (setup_rely before).
Proof.
  split; cbn.
  - intros db l gs as_ i g Hw Hi. split; [apply Hw|]. intros ->. apply (sw_clear _ _ _ _ _ Hw). by eapply countIf_elem.
  - intros db l gs as_ [H1 H2 H3 H4 H5]. split; rewrite ?countIf_app; cbn; rewrite ?Nat.add_0_r; done.
  - intros db db' l gs as_ [H1 H2 H3 H4 H5] Hs. pose proof (same_tables_names _ _ Hs) as En.
    split; rewrite ?En; eauto using same_tables_ok.
  - intros db gs as_ i g g' [H1 H2 H3 H4 H5] Hi [-> ->].
    pose proof (countIf_insert holds gs i SIdle SHolding Hi). pose proof (countIf_insert sawNone gs i SIdle SHolding Hi).
    pose proof (countIf_insert madeAdmin gs i SIdle SHolding Hi). cbn in *. split; try done; try lia. intros. apply H3. lia.
  - intros db gs as_ i g g' [H1 H2 H3 H4 H5] Hi Hr.
    pose proof (countIf_insert holds gs i g g' Hi). pose proof (countIf_insert sawNone gs i g g' Hi).
    pose proof (countIf_insert madeAdmin gs i g g' Hi).
    destruct Hr; cbn in *; split; try done; try lia; intros; apply H3; lia.
  - intros db db' l gs as_ i g g' [H1 H2 H3 H4 H5] Hi _ Hs.
    pose proof (countIf_insert holds gs i g g' Hi). pose proof (countIf_insert sawNone gs i g g' Hi).
    pose proof (countIf_insert madeAdmin gs i g g' Hi).
    destruct Hs as [g db db' Hok En|db db' Hok En E0|db db' u Hok E0 E1]; cbn in *.
    + split; rewrite ?En; try done; try lia. intros. apply H3. lia.
    + split; rewrite ?En; try done; try lia. by rewrite <-En.
    + rewrite E0, size_empty in H4. split; rewrite ?E1, ?size_singleton; try done; try lia.
      intros Hc. exfalso.
      assert (countIf sawNone (<[i:=SMade]> gs) ≤ countIf holds (<[i:=SMade]> gs) - 1)%nat as Hle; [|destruct l; lia].
      assert (∀ l0, countIf sawNone l0 + countIf (fun g => match g with SMade => true | _ => false end) l0 ≤ countIf holds l0)%nat as Hall.
      { induction l0 as [|g l0 IH]; [done|]. rewrite !countIf_cons. destruct g; cbn; lia. }
      specialize (Hall (<[i:=SMade]> gs)).
      assert (0 < countIf (fun g => match g with SMade => true | _ => false end) (<[i:=SMade]> gs))%nat; [|lia].
      eapply (countIf_elem _ _ i SMade); [|done]. apply list_lookup_insert_eq. by eapply lookup_lt_Some.
  - intros db l gs as_ i g r [H1 H2 H3 H4 H5] Hi Hr.
    pose proof (countIf_delete holds gs i g Hi). pose proof (countIf_delete sawNone gs i g Hi).
    pose proof (countIf_delete madeAdmin gs i g Hi).
    split; rewrite ?countIf_app, ?countIf_cons; cbn [countIf List.filter length]; try done;
      destruct Hr as [[-> Er]|[-> Er]]; rewrite ?Er; cbn in *; try lia; intros; apply H3; lia.
Qed.

(** *** Every handler keeps the rule *)

Section handlers.
Context (before : nat) (idKey : list Z → list Z → Z → Z → Z → Z → list Z).
#[local] Existing Instance setup_rely.

(** A statement that leaves the administrators alone. *)
Lemma rely_keep {A} (m : AuthM A) (post : setup_state → result auth_error A → Prop) g :
  (∀ db r db', auth_ok db → m db = (r, db') → auth_ok db' ∧ adminNames db' = adminNames db) →
  (∀ r, post g r) → rely (L := setup_rely before) post g (pcall m).
Proof.
  intros Hm Hp. apply rely_call. intros db r db' [Hok _] E. destruct (Hm db r db' Hok E) as [H1 H2].
  exists g. split; [by apply statement_keep|apply Hp].
Qed.

Lemma rely_read {A} (m : AuthM A) (post : setup_state → result auth_error A → Prop) g :
  (∀ db r db', m db = (r, db') → same_tables db db') → (∀ r, post g r) → rely (L := setup_rely before) post g (pcall m).
Proof.
  intros Hm Hp. apply rely_keep; [|done]. intros db r db' Hok E. pose proof (Hm _ _ _ E) as Hs.
  split; [by eapply same_tables_ok|by apply same_tables_names].
Qed.

Lemma read_queryAccount username db r db' : queryAccount username db = (r, db') → same_tables db db'.
Proof. by intros [? _]%queryAccount_spec. Qed.

Lemma read_queryHasAdmin db r db' : queryHasAdmin db = (r, db') → same_tables db db'.
Proof. by intros [? _]%queryHasAdmin_spec. Qed.

(** What the setup leaves: an administrator exactly when it succeeds. *)
Definition setup_post (g : setup_state) (r : result auth_error Identity) : Prop :=
  match r with Ok _ => g = SDone | Err _ => g = SIdle end.

Lemma rely_FirstSetup random u p c : rely (L := setup_rely before) setup_post SIdle (FirstSetup idKey random u p c).
Proof.
  unfold FirstSetup. apply rely_seq. cbn [rely plift]. destruct (validateCredentials u p c) as [[]|e]; [|done].
  eapply rely_locked; [by split|]. apply rely_seq. apply rely_call. intros db r db' [Hok _] E.
  pose proof (queryHasAdmin_spec _ _ _ E) as [Hs Hn].
  pose proof (same_tables_ok _ _ Hs Hok). pose proof (same_tables_names _ _ Hs).
  destruct r as [[]|e].
  - exists SHolding. split; [by apply statement_keep|]. cbn. exists SIdle. split; [constructor|done].
  - exists SClear. split; [apply statement_clear; auto|]. apply rely_seq. cbn [rely plift].
    destruct (HashPassword idKey random p) as [hash|e]; [|exists SIdle; split; [constructor|done]].
    apply rely_seq. unfold CreateAccount. cbn [acRole roleValid]. change (negb (roleValid RoleAdmin)) with false.
    apply rely_seq, rely_read; [apply read_queryAccount|]. intros [[found|]|e]; [exists SIdle; split; [constructor|done]| |exists SIdle; split; [constructor|done]].
    apply rely_call. intros db1 r1 db1' [Hok1 Hn1] E1. pose proof (insertAccount_spec _ _ _ _ E1 Hok1) as (Hok1' & _ & Hr).
    destruct r1 as [[]|e].
    + destruct Hr as [_ Hr]. exists SMade. split; [|exists SDone; split; [constructor|done]].
      eapply (statement_made _ _ u); [done|by apply Hn1|]. by eapply (insert_admin_names (mkAccount u hash RoleAdmin)); [|apply Hn1|].
    + exists SClear. split; [|exists SIdle; split; [constructor|done]]. apply statement_keep; [done|].
      unfold adminNames, admins. by rewrite Hr.
  - exists SHolding. split; [by apply statement_keep|]. exists SIdle. split; [constructor|done].
Qed.

Lemma rely_answer {A} (p : AuthP A) (f : A → Response) :
  rely (L := setup_rely before) (fun g r => g = SIdle) SIdle p → (∀ a, created (f a) = false) →
  rely (L := setup_rely before) setup_answer SIdle (answer p f).
Proof.
  intros Hp Hf. apply rely_bind. eapply rely_mono; [|exact Hp]. intros g r ->. left. split; [done|].
  destruct r as [a|e]; [apply Hf|]. by destruct e.
Qed.

Lemma rely_requests p : auth_request idKey p → rely (L := setup_rely before) setup_answer SIdle p.
Proof.
  intros Hp. destruct Hp as [available method body random|available method body|available method body random|available method body].
  - unfold bootstrap. destruct available; cbn [negb]; [|by left]. case_match.
    { apply rely_answer; [|done]. apply rely_read; [apply read_queryHasAdmin|done]. }
    case_match; [|by left]. destruct body as [[[u pw] c]|]; [|by left].
    apply rely_bind. eapply rely_mono; [|apply rely_FirstSetup]. intros g [i|e]; cbn; [intros ->; by right|].
    intros ->. left. split; [done|]. by destruct e.
  - unfold login. case_match; [by left|]. destruct available; cbn [negb]; [|by left]. destruct body as [[u pw]|]; [|by left].
    apply rely_answer; [|done]. unfold Login. apply rely_seq. cbn [rely plift]. destruct (validateUsername u); [|done].
    apply rely_seq. cbn [rely plift]. destruct (validatePassword pw); [|done].
    apply rely_seq, rely_read; [apply read_queryAccount|]. by intros [?|?].
  - unfold changePassword. case_match; [by left|]. destruct available; cbn [negb]; [|by left]. destruct body as [[[u pw] np]|]; [|by left].
    apply rely_answer; [|done]. unfold ChangePassword.
    do 3 (apply rely_seq; cbn [rely plift]; match goal with |- context [match ?x with _ => _ end] => destruct x end; [|done]).
    apply rely_seq, rely_read; [apply read_queryAccount|]. intros [[account|]|e]; [|done|done].
    case_match; [done|]. apply rely_seq. cbn [rely plift]. destruct (HashPassword idKey random np); [|done].
    apply rely_seq, rely_keep; [|by intros [?|?]]. intros db r db' Hok (Hn & Hok' & _)%updatePassword_spec; done.
  - unfold sessionPolicy. destruct available; cbn [negb]; [|by left]. case_match.
    { apply rely_answer; [|done]. apply rely_read; [apply queryIdleTimeout_spec|done]. }
    case_match; [|by left]. destruct body as [seconds|]; [|by left]. apply rely_answer; [|done].
    unfold SetIdleTimeout. case_match; [done|]. unfold storeSetIdleTimeout. case_match; [done|].
    apply rely_keep; [|done]. intros db r db' Hok (Ha & Hok' & _)%updateIdleTimeout_spec; [|done].
    split; [done|]. unfold adminNames, admins. by rewrite Ha.
Qed.

(** Over all interleavings of requests. *)
Theorem setup_reachable db v :
  auth_ok db → (size (adminNames db) ≤ 1)%nat → before = size (adminNames db) →
  server_reachable (auth_request idKey) same_tables db v →
  auth_ok (ssState v) ∧ (size (adminNames (ssState v)) ≤ 1)%nat ∧
  (countIf created (ssAnswers v) + before ≤ size (adminNames (ssState v)))%nat.
Proof.
  intros Hok H1 Hb Hv.
  destruct (server_reachable_ok (L := setup_rely before) _ _ rely_requests db v) as (gs & _ & [A B C D E]); [|done|].
  - split; [done|done|by intros ?%Nat.lt_irrefl|cbn; lia|done].
  - split; [done|]. split; [done|]. lia.
Qed.
End handlers.

(** ** Passwords *)

(** [argon2.IDKey] delivers as many bytes as it is asked for. *)
Class Argon (idKey : list Z → list Z → Z → Z → Z → Z → list Z) : Prop := {
  idKey_length p s t m c n : length (idKey p s t m c n) = Z.to_nat n;
  idKey_bytes p s t m c n : Forall byte_ok (idKey p s t m c n)
}.

(** A salt as [rand.Read] delivers it. *)
Definition salt_ok (salt : list Z) : Prop := length salt = Z.to_nat argonSaltLength ∧ Forall byte_ok salt.

(** The key a password has under a salt. *)
Definition keyOf (idKey : list Z → list Z → Z → Z → Z → Z → list Z) (salt : list Z) (password : string) : list Z :=
  idKey (bytesOf password) salt argonIterations argonMemory argonParallelism argonKeyLength.

Lemma base64_no_dollar l : Forall byte_ok l → containsChar (EncodeToString RawStdEncoding l) "$"%char = false.
Proof. intros Hl. by eapply allChars_contains; [apply EncodeToString_class|]. Qed.

(** The texts that [HashPassword] writes verify exactly the passwords with the key. *)
Lemma VerifyPassword_HashPassword idKey salt password hash other :
  Argon idKey → salt_ok salt → HashPassword idKey (Ok salt) password = Ok hash →
  VerifyPassword idKey hash other = bool_decide (keyOf idKey salt other = keyOf idKey salt password).
Proof.
  intros HA [Hlen Hsalt] [= <-]. unfold VerifyPassword.
  set (key := idKey (bytesOf password) salt argonIterations argonMemory argonParallelism argonKeyLength).
  assert (Forall byte_ok key) as Hkey by apply idKey_bytes.
  assert (length key = 32%nat) as Hklen by (unfold key; by rewrite idKey_length).
  set (saltText := EncodeToString RawStdEncoding salt). set (keyText := EncodeToString RawStdEncoding key).
  replace (String.append "$argon2id$v=19$" (String.append paramText (String "$" (String.append saltText (String "$" keyText)))))
    with (String.append "" (String "$" (String.append "argon2id" (String "$" (String.append "v=19" (String "$"
            (String.append paramText (String "$" (String.append saltText (String "$" keyText))))))))))
    by (rewrite !append_nil; done).
  rewrite !splitChar_append by (first [done|by apply base64_no_dollar]). rewrite splitChar_end by by apply base64_no_dollar.
  change (readParams (splitChar paramText ","%char) (0, 0, 0)) with (Some (argonMemory, argonIterations, argonParallelism)).
  cbn [negb orb String.eqb]. unfold saltText, keyText. rewrite !DecodeString_EncodeToString by done.
  rewrite Hlen, Hklen. unfold keyOf.
  by change (Z.of_nat 32) with argonKeyLength.
Qed.

(** A login on tables whose statements do not fail. *)
Lemma Login_row idKey u pw db :
  adFaults db = [] → validateUsername u = Ok tt → validatePassword pw = Ok tt →
  exec (Login idKey u pw) db =
    (match adAccounts db !! u with
     | Some (hash, role) => if VerifyPassword idKey hash pw then Ok (mkIdentity u role) else Err ErrInvalidCredentials
     | None => Err ErrInvalidCredentials
     end, db).
Proof.
  intros Hf Hu Hp. unfold Login. rewrite Hu, Hp. do 2 (rewrite exec_seq; cbn [exec plift]). rewrite exec_seq, exec_call.
  destruct db as [accounts idle faults]. cbn in Hf. subst faults. cbn.
  destruct (accounts !! u) as [[hash role]|]; cbn; [|done]. by destruct (VerifyPassword idKey hash pw).
Qed.

(** What a change of the password does, whatever fails. *)
Lemma ChangePassword_spec idKey random u cur new db r db' :
  auth_ok db → exec (ChangePassword idKey random u cur new) db = (r, db') →
  match r with
  | Ok _ => validateUsername u = Ok tt ∧ ∃ hash role hash',
      adAccounts db !! u = Some (hash, role) ∧ VerifyPassword idKey hash cur = true ∧
      HashPassword idKey random new = Ok hash' ∧ adAccounts db' = <[u := (hash', role)]> (adAccounts db)
  | Err _ => adAccounts db' = adAccounts db
  end.
Proof.
  intros Hok. unfold ChangePassword. rewrite !exec_seq. cbn [exec plift]. destruct (validateUsername u) as [[]|e]; [|by intros [= <- <-]].
  rewrite exec_seq. cbn [exec plift]. destruct (validatePassword cur); [|by intros [= <- <-]].
  rewrite exec_seq. cbn [exec plift]. destruct (validatePassword new); [|by intros [= <- <-]].
  rewrite exec_seq, exec_call. destruct (queryAccount u db) as [[found|e] db1] eqn:Eq;
    pose proof (queryAccount_spec _ _ _ _ Eq) as [Hs Hf]; [|intros [= <- <-]; apply Hs].
  rewrite (Hf found eq_refl). pose proof (same_tables_ok _ _ Hs Hok) as Hok1. destruct Hs as [E1 E2].
  destruct (adAccounts db !! u) as [[hash role]|] eqn:Ea; [|by intros [= <- <-]]. cbn [acPasswordHash acUsername].
  destruct (VerifyPassword idKey hash cur) eqn:Hv; cbn [negb]; [|by intros [= <- <-]].
  rewrite exec_seq. cbn [exec plift]. destruct (HashPassword idKey random new) as [hash'|e] eqn:Hh; [|by intros [= <- <-]].
  unfold SetPassword. rewrite exec_seq, exec_call. destruct (updatePassword u hash' db1) as [r1 db2] eqn:Eu.
  destruct (updatePassword_spec _ _ _ _ _ Eu Hok1) as (_ & _ & _ & Hr). rewrite E1 in Hr.
  destruct r1 as [n|e]; [|intros [= <- <-]; congruence]. cbn [exec plift]. destruct (n =? 0) eqn:En; intros [= <- <-].
  - apply Z.eqb_eq in En as ->. destruct Hr. congruence.
  - destruct n; [done| |]; destruct Hr as (old & role' & Ho & Hr); rewrite Ea in Ho; injection Ho as <- <-; eauto 10.
Qed.

(** ** The timeout at 64 bits *)

Lemma seconds_modulo n m :
  - 2 ^ 63 ≤ n < 2 ^ 63 → 60 ≤ m ≤ 3600 → (i64 (n * second) = m * second ↔ n mod 2 ^ 55 = m).
Proof.
  intros Hn Hm. unfold swrap, second. change (2 ^ 63) with 9223372036854775808 in *.
  change (64 - 1) with 63. change (2 ^ 64) with 18446744073709551616. change (2 ^ 63) with 9223372036854775808.
  change (2 ^ 55) with 36028797018963968.
  pose proof (Z.div_mod n 36028797018963968 ltac:(done)) as En. pose proof (Z.mod_pos_bound n 36028797018963968 ltac:(done)) as Hb.
  set (q := n / 36028797018963968) in *. set (r := n mod 36028797018963968) in *.
  replace (n * 1000000000 + 9223372036854775808) with ((r * 1000000000 + 9223372036854775808) + (q * 1953125) * 18446744073709551616) by lia.
  rewrite Z_mod_plus_full. split.
  - intros E.
    pose proof (Z.div_mod (r * 1000000000 + 9223372036854775808) 18446744073709551616 ltac:(done)) as Er.
    set (k := (r * 1000000000 + 9223372036854775808) / 18446744073709551616) in *.
    assert (1000000000 * (r - m) = 18446744073709551616 * k) as Ek by lia.
    assert (1953125 * (r - m) = 36028797018963968 * k) as Ek' by lia.
    assert ((36028797018963968 | r - m)) as [t Ht].
    { apply (Z.gauss _ 1953125); [exists k; lia|]. vm_compute. reflexivity. }
    lia.
  - intros ->. rewrite Z.mod_small; lia.
Qed.

Lemma validIdleTimeout_iff t : validIdleTimeout t = true ↔ ∃ m, 60 ≤ m ≤ 3600 ∧ t = m * second.
Proof.
  unfold validIdleTimeout, MinIdleTimeout, MaxIdleTimeout. rewrite !andb_true_iff, !Z.leb_le, Z.eqb_eq. unfold second. split.
  - intros [[H1 H2] H3]. exists (Z.quot t 1000000000). pose proof (Z.quot_rem' t 1000000000). lia.
  - intros (m & Hm & ->). rewrite Z.rem_mul by done. lia.
Qed.
