(* ===== verification/SshBootstrap.v ===== *)
(** * SSH certificates for maintenance: [internal/sshbootstrap]

    The signed request ([token.go], [contract.go]), the key it carries
    ([keys.go]), the store of used nonces ([nonce.go]), the certificate
    ([certificate.go]) and the handler ([handler.go]).  Parameters: sha256, the
    signature check [ed25519.Verify] under the administrator's key, JSON, the
    media type parser, and [ssh-keygen].  A text of Go is its bytes. *)

From Stdlib Require Import Ascii String.
From stdpp Require Import pretty.
From S2P Require Import Prelude GoText.

Definition certificatePath : string := "/v1/ssh/cert".
Definition CertificateTTL : Z := 300 * second.

(** ** Patterns *)

Definition kidChar (a : ascii) : bool := isUpper a || isLower a || isDigit a || oneOf "._-" a.
Definition tokenChar (a : ascii) : bool := base64Char true a.
Definition identifierStart (a : ascii) : bool := isLower a || isDigit a.
Definition identifierChar (a : ascii) : bool := isLower a || isDigit a || oneOf "_-" a.
Definition hostChar (a : ascii) : bool := isUpper a || isLower a || isDigit a || oneOf "._:-" a.

Definition lengthIn (lo hi : nat) (s : string) : bool :=
  (lo <=? String.length s)%nat && (String.length s <=? hi)%nat.

Definition kidPattern (s : string) : bool := allChars kidChar s && lengthIn 1 64 s.
Definition identifierPattern (s : string) : bool :=
  match s with
  | EmptyString => false
  | String a rest => identifierStart a && allChars identifierChar rest && lengthIn 0 62 rest
  end.
Definition hostPattern (s : string) : bool := allChars hostChar s && lengthIn 1 253 s.
Definition fingerprintPattern (s : string) : bool :=
  match expect "SHA256:" s with
  | Some rest => allChars (base64Char false) rest && lengthIn 43 43 rest
  | None => false
  end.

(** Zero, or digits without a leading zero; the digits are given. *)
Definition decimalPattern (s : string) : bool :=
  match s with
  | EmptyString => false
  | String a rest => if Ascii.eqb a "0"%char then rest =s "" else true
  end.

Definition noLineEnd (s : string) : bool := negb (containsChar s "013"%char) && negb (containsChar s "010"%char).

(** The type, base64 text with its padding, and a comment on the same line. *)
Definition publicKeyPattern (s : string) : bool :=
  match expect "ssh-ed25519 " s with
  | None => false
  | Some s =>
      let '(key, s) := span (base64Char false) s in
      let '(pad, s) := span (oneOf "=") s in
      lengthIn 1 (String.length key) key && lengthIn 0 2 pad &&
      match s with
      | EmptyString => true
      | String a comment =>
          Ascii.eqb a " "%char && noLineEnd comment && (1 <=? runeCount comment) && (runeCount comment <=? 128)
      end
  end.

(** ** The configuration *)

Record Config := mkConfig {
  cfTargetNode : string;
  cfSiteID : string;
  cfBlockID : string;
  cfDeviceID : string;
  cfAdvertisedHost : string;
  cfSSHPort : Z;
  cfAdministratorKID : string;
  cfPaths : list string;
  cfSSHHostKeyFingerprint : string;
  cfReleaseUsername : string;
  cfDebugUsername : string
}.

(** [Config.Validate] behind the check of the listen address; the absolute paths
    are the six fields of [absolutePathFieldList]. *)
Definition validateConfig (c : Config) : bool :=
  (cfTargetNode c =s "BLOCK") &&
  identifierPattern (cfSiteID c) && identifierPattern (cfBlockID c) && identifierPattern (cfDeviceID c) &&
  hostPattern (cfAdvertisedHost c) && (1 <=? cfSSHPort c) && (cfSSHPort c <=? 65535) &&
  kidPattern (cfAdministratorKID c) && forallb (fun p => hasPrefix p "/") (cfPaths c) &&
  fingerprintPattern (cfSSHHostKeyFingerprint c) &&
  (cfReleaseUsername c =s "release") && (cfDebugUsername c =s "debug").

Definition usernameOf (c : Config) (accessProfile : string) : option string :=
  if accessProfile =s "release" then Some (cfReleaseUsername c)
  else if accessProfile =s "debug" then Some (cfDebugUsername c)
  else None.

(** ** Tokens *)

Inductive token_error : Type := TEPattern | TETimestamp | TENonce | TESignature.

Record SuperToken := mkToken {
  stKID : string;
  stTimestamp : Z;
  stTimestampString : string;
  stNonce : string;
  stSignature : list Z
}.

(** [authorizationPattern.FindStringSubmatch]. *)
Definition authorizationPattern (value : string) : option (string * string * string * string) :=
  match expect "SuperToken v1 kid=" value with
  | None => None
  | Some s =>
      let '(kid, s) := span kidChar s in
      match expect ",timestamp=" s with
      | None => None
      | Some s =>
          let '(timestamp, s) := span isDigit s in
          match expect ",nonce=" s with
          | None => None
          | Some s =>
              let '(nonce, s) := span tokenChar s in
              match expect ",signature=" s with
              | None => None
              | Some s =>
                  let '(signature, s) := span tokenChar s in
                  if lengthIn 1 64 kid && decimalPattern timestamp && (nonce <>s "") && (signature <>s "") && (s =s "")
                  then Some (kid, timestamp, nonce, signature) else None
              end
          end
      end
  end.

Definition ParseSuperToken (value : string) : result token_error SuperToken :=
  match authorizationPattern value with
  | None => Err TEPattern
  | Some (kid, timestampString, nonceString, signatureString) =>
      match parseUint timestampString 63 with
      | None => Err TETimestamp
      | Some timestamp =>
          match DecodeString RawURLEncoding nonceString with
          | None => Err TENonce
          | Some nonce =>
              if (length nonce <? 16)%nat || (64 <? length nonce)%nat then Err TENonce
              else match DecodeString RawURLEncoding signatureString with
                   | None => Err TESignature
                   | Some signature =>
                       if negb (length signature =? 64)%nat then Err TESignature
                       else Ok (mkToken kid timestamp timestampString nonceString signature)
                   end
          end
      end
  end.

Record SignedIdentity := mkSigned { siSiteID : string; siBlockID : string; siDeviceID : string }.

(** One line of the signed text. *)
Definition signedLine (name value rest : string) : string :=
  String.append name (String.append value (String "010" rest)).

Section token.
Variables (sha256 : list Z → list Z) (verify : string → list Z → bool).

Definition CanonicalBytes (token : SuperToken) (method path : string) (body : list Z) (identity : SignedIdentity) : string :=
  signedLine "SUPERTOKEN-V1" "" (signedLine "version=" "v1" (signedLine "kid=" (stKID token)
    (signedLine "timestamp=" (stTimestampString token) (signedLine "nonce=" (stNonce token)
      (signedLine "method=" method (signedLine "path=" path (signedLine "bodySHA256=" (hexOf (sha256 body))
        (signedLine "siteId=" (siSiteID identity) (signedLine "blockId=" (siBlockID identity)
          (signedLine "deviceId=" (siDeviceID identity) "")))))))))).

Definition VerifySuperToken (token : SuperToken) (method path : string) (body : list Z) (identity : SignedIdentity) : bool :=
  verify (CanonicalBytes token method path body identity) (stSignature token).
End token.

(** ** Requests *)

Record CertificateRequest := mkRequest {
  crTargetNode : string;
  crSiteID : string;
  crBlockID : string;
  crDeviceID : string;
  crAccessProfile : string;
  crPublicKey : string
}.

Inductive request_error : Type := REInvalid | REUnsupportedPublicKey.

Definition validateRequest (r : CertificateRequest) : result request_error unit :=
  if (crTargetNode r <>s "BLOCK") && (crTargetNode r <>s "BDM") then Err REInvalid
  else if negb (forallb identifierPattern [crSiteID r; crBlockID r; crDeviceID r]) then Err REInvalid
  else if (crAccessProfile r <>s "release") && (crAccessProfile r <>s "debug") then Err REInvalid
  else if crPublicKey r =s "" then Err REInvalid
  else if (runeCount (crPublicKey r) <? 81) || (1024 <? runeCount (crPublicKey r)) || negb (publicKeyPattern (crPublicKey r))
  then Err REUnsupportedPublicKey
  else Ok tt.

(** [DecodeCertificateRequest]; [json] decodes one object without unknown fields
    and nothing behind it. *)
Definition DecodeCertificateRequest (json : list Z → option CertificateRequest) (body : list Z)
  : result request_error CertificateRequest :=
  match json body with
  | None => Err REInvalid
  | Some request => let? _ := validateRequest request in Ok request
  end.

Definition identityOf (r : CertificateRequest) : SignedIdentity := mkSigned (crSiteID r) (crBlockID r) (crDeviceID r).

(** ** Public keys *)

Record AuthorizedKey := mkKey { akLine : string; akBlob : list Z }.

Definition readSSHString (value : list Z) : option (list Z * list Z) :=
  match value with
  | a :: b :: c :: d :: rest =>
      let length_ := getU16 a b * 65536 + getU16 c d in
      if Z.of_nat (length rest) <? length_ then None
      else Some (take (Z.to_nat length_) rest, drop (Z.to_nat length_) rest)
  | _ => None
  end.

(** [strings.SplitN(value, " ", 3)]. *)
Definition splitTwice (value : string) : list string :=
  match cutChar value " "%char with
  | None => [value]
  | Some (first, rest) =>
      match cutChar rest " "%char with
      | None => [first; rest]
      | Some (second, comment) => [first; second; comment]
      end
  end.

Definition keyBlob (encoded : string) : option (list Z) :=
  match DecodeString StdEncoding encoded with
  | None => None
  | Some blob =>
      match readSSHString blob with
      | None => None
      | Some (keyType, rest) =>
          if negb (bool_decide (keyType = bytesOf "ssh-ed25519")) then None
          else match readSSHString rest with
               | None => None
               | Some (keyBytes, rest) =>
                   if negb (length keyBytes =? 32)%nat || negb (length rest =? 0)%nat then None else Some blob
               end
      end
  end.

Definition ParseED25519AuthorizedKey (value : string) : option AuthorizedKey :=
  if negb (noLineEnd value) then None
  else if (runeCount value <? 81) || (1024 <? runeCount value) then None
  else
    let key encoded := match keyBlob encoded with Some blob => Some (mkKey value blob) | None => None end in
    match splitTwice value with
    | [kind; encoded] => if (kind <>s "ssh-ed25519") || (encoded =s "") then None else key encoded
    | [kind; encoded; comment] =>
        if (kind <>s "ssh-ed25519") || (encoded =s "") then None
        else if (comment =s "") || hasPrefix comment " " || (128 <? runeCount comment) then None
        else key encoded
    | _ => None
    end.

(** ** Certificates *)

Record IssuedCertificate := mkCertificate { icAuthorizedKey : string; icValidAfter : Z; icValidBefore : Z }.

Section certificates.
(** [ssh-keygen -I id -n principal -V after:before] on a key, with everything
    around it that can fail. *)
Variable (keygen : string → string → Z → Z → string → option string).

Definition Issue (publicKey : AuthorizedKey) (principal requestID : string) (validAfter : Z) : option IssuedCertificate :=
  if (akLine publicKey =s "") || (length (akBlob publicKey) =? 0)%nat then None
  else if (principal <>s "release") && (principal <>s "debug") then None
  else if requestID =s "" then None
  else
    let validAfter := validAfter / second * second in
    let validBefore := validAfter + CertificateTTL in
    match keygen requestID principal validAfter validBefore (akLine publicKey) with
    | None => None
    | Some certificate =>
        let authorizedKey := trimSpace certificate in
        if negb (hasPrefix authorizedKey "ssh-ed25519-cert-v01@openssh.com ") then None
        else Some (mkCertificate authorizedKey validAfter validBefore)
    end.
End certificates.

(** ** Used nonces *)

(** [used_nonce] with the expiry of each row, and the statements' outcomes. *)
Record NonceDB := mkNonceDB { ndUsed : gmap (string * string) Z; ndFaults : list (option string) }.

Abbreviation NonceM := (GoM NonceDB string).

Definition nonceStatement : NonceM unit := fun db =>
  match ndFaults db with
  | [] => (Ok tt, db)
  | None :: rest => (Ok tt, mkNonceDB (ndUsed db) rest)
  | Some e :: rest => (Err e, mkNonceDB (ndUsed db) rest)
  end.

Definition unexpired (serverSeconds : Z) (row : (string * string) * Z) : Prop := serverSeconds ≤ row.2.
#[global] Instance unexpired_dec s row : Decision (unexpired s row). Proof. unfold unexpired. apply _. Defined.

(** [NonceStore.Register]: one transaction, whose effect is only there when it
    commits. *)
Definition Register (kid nonce : string) (tokenTimestamp serverSeconds : Z) : NonceM bool :=
  run! nonceStatement;                          (* BEGIN *)
  run! nonceStatement;                          (* DELETE *)
  run! nonceStatement;                          (* INSERT OR IGNORE *)
  run! nonceStatement;                          (* COMMIT *)
  do! db <- gget;
  let kept := filter (unexpired serverSeconds) (ndUsed db) in
  match kept !! (kid, nonce) with
  | Some _ => run! gput (mkNonceDB kept (ndFaults db)); gret false
  | None =>
      run! gput (mkNonceDB (<[(kid, nonce) := i64 (tokenTimestamp + 60)]> kept) (ndFaults db));
      gret true
  end.

(** ** The handler *)

Record HttpRequest := mkHttp {
  hrqMethod : string;
  hrqPath : string;
  hrqRawQuery : string;
  hrqContentEncoding : string;
  hrqContentType : string;
  hrqBody : option (list Z);
  hrqAuthorization : list string
}.

Record CertificateResponse := mkCertResponse {
  cpCertificate : string;
  cpHost : string;
  cpPort : Z;
  cpUsername : string;
  cpHostKeyFingerprint : string;
  cpValidAfter : Z;
  cpValidBefore : Z;
  cpRequestID : string
}.

Inductive ssh_response : Type :=
| StatusPage
| NotFoundPage
| Panicked
| Refused (status : Z) (code requestID : string)
| Granted (response : CertificateResponse).

Definition NewCertificateResponse (c : Config) (certificate : IssuedCertificate) (username requestID : string)
  : CertificateResponse :=
  mkCertResponse (trimSpace (icAuthorizedKey certificate)) (cfAdvertisedHost c) (cfSSHPort c) username
    (cfSSHHostKeyFingerprint c) (icValidAfter certificate) (icValidBefore certificate) requestID.

(** [NewRequestID]; [random] is what [rand.Read] delivers. *)
Definition NewRequestID (random : option (list Z)) : option string :=
  match random with
  | Some [a0; a1; a2; a3; a4; a5; a6; a7; a8; a9; a10; a11; a12; a13; a14; a15] =>
      let a6 := Z.lor (Z.land a6 15) 64 in
      let a8 := Z.lor (Z.land a8 63) 128 in
      Some (String.append (hexOf [a0; a1; a2; a3]) (String "-" (String.append (hexOf [a4; a5]) (String "-"
             (String.append (hexOf [a6; a7]) (String "-" (String.append (hexOf [a8; a9]) (String "-"
               (hexOf [a10; a11; a12; a13; a14; a15])))))))))
  | _ => None
  end.

Section handler.
Variables (sha256 : list Z → list Z) (verify : string → list Z → bool).
Variables (json : list Z → option CertificateRequest) (parseMediaType : string → option string).
Variable (keygen : string → string → Z → Z → string → option string).
Variable (c : Config).

(** What [ServeHTTP] checks of a request before it looks at the clock. *)
Definition checkRequest (r : HttpRequest) (requestID : string) : result ssh_response (list Z * CertificateRequest * SuperToken) :=
  let invalid := Err (Refused 400 "INVALID_REQUEST" requestID) in
  if (hrqPath r <>s certificatePath) || (hrqRawQuery r <>s "") then invalid
  else if hrqMethod r <>s "POST" then invalid
  else if hrqContentEncoding r <>s "" then invalid
  else if negb (bool_decide (parseMediaType (hrqContentType r) = Some "application/json"%string)) then invalid
  else match hrqBody r with
       | None => invalid
       | Some body =>
           if (16384 <? Z.of_nat (length body)) || negb (utf8Valid body) then invalid
           else match DecodeCertificateRequest json body with
                | Err REUnsupportedPublicKey => Err (Refused 400 "UNSUPPORTED_PUBLIC_KEY" requestID)
                | Err REInvalid => invalid
                | Ok request =>
                    match hrqAuthorization r with
                    | [] => Err (Refused 401 "AUTHORIZATION_REQUIRED" requestID)
                    | [value] =>
                        match ParseSuperToken value with
                        | Err _ => Err (Refused 401 "AUTHORIZATION_INVALID" requestID)
                        | Ok token =>
                            if stKID token <>s cfAdministratorKID c
                            then Err (Refused 401 "AUTHORIZATION_INVALID" requestID)
                            else if (crTargetNode request <>s cfTargetNode c) || (crSiteID request <>s cfSiteID c) ||
                                    (crBlockID request <>s cfBlockID c) || (crDeviceID request <>s cfDeviceID c)
                            then Err (Refused 403 "TARGET_MISMATCH" requestID)
                            else Ok (body, request, token)
                        end
                    | _ => Err (Refused 401 "AUTHORIZATION_INVALID" requestID)
                    end
                end
       end.

(** The window of the token's timestamp, and its signature. *)
Definition checkToken (r : HttpRequest) (requestID : string) (body : list Z) (request : CertificateRequest)
    (token : SuperToken) (serverSeconds : Z) : result ssh_response unit :=
  if (stTimestamp token <? serverSeconds - 60) || (serverSeconds + 60 <? stTimestamp token)
  then Err (Refused 401 "TIMESTAMP_OUT_OF_WINDOW" requestID)
  else if negb (VerifySuperToken sha256 verify token (hrqMethod r) (hrqPath r) body (identityOf request))
  then Err (Refused 401 "AUTHORIZATION_INVALID" requestID)
  else Ok tt.

(** What follows the registration of the nonce. *)
Definition grant (requestID : string) (request : CertificateRequest) (now : Z) : ssh_response :=
  match ParseED25519AuthorizedKey (crPublicKey request) with
  | None => Refused 400 "UNSUPPORTED_PUBLIC_KEY" requestID
  | Some publicKey =>
      match usernameOf c (crAccessProfile request) with
      | None => Refused 400 "INVALID_REQUEST" requestID
      | Some username =>
          match Issue keygen publicKey (crAccessProfile request) requestID now with
          | None => Refused 500 "CERTIFICATE_ISSUE_FAILED" requestID
          | Some certificate => Granted (NewCertificateResponse c certificate username requestID)
          end
      end
  end.

(** [ServeHTTP] at the clock reading [clock], with the outcome of [NewRequestID]. *)
Definition ServeHTTP (r : HttpRequest) (newID : option string) (clock : Z) (db : NonceDB) : ssh_response * NonceDB :=
  if hrqMethod r =s "GET" then
    (if (hrqPath r =s "/") && (hrqRawQuery r =s "") then StatusPage else NotFoundPage, db)
  else
    match newID with
    | None => (Panicked, db)
    | Some requestID =>
        match checkRequest r requestID with
        | Err response => (response, db)
        | Ok (body, request, token) =>
            let now := clock / second * second in
            let serverSeconds := now / second in
            match checkToken r requestID body request token serverSeconds with
            | Err response => (response, db)
            | Ok _ =>
                match Register (stKID token) (stNonce token) (stTimestamp token) serverSeconds db with
                | (Err _, db) => (Refused 500 "CERTIFICATE_ISSUE_FAILED" requestID, db)
                | (Ok false, db) => (Refused 409 "NONCE_REPLAYED" requestID, db)
                | (Ok true, db) => (grant requestID request now, db)
                end
            end
        end
    end.
End handler.
