(* ===== verification/SshProofs.v ===== *)
(** * Proofs about SSH certificates: tokens, signed texts, and used nonces *)

From Stdlib Require Import Ascii String.
From stdpp Require Import pretty.
From S2P Require Import Prelude GoText SshBootstrap.

(** ** Tokens *)

(** The header of a token with the text of its signature. *)
Definition headerText (kid timestamp nonce signature : string) : string :=
  String.append "SuperToken v1 kid=" (String.append kid (String.append ",timestamp=" (String.append timestamp
    (String.append ",nonce=" (String.append nonce (String.append ",signature=" signature)))))).

Lemma comma_stops f name rest : f ","%char = false → match String.append (String "," name) rest with
  | String b _ => f b = false | EmptyString => True end.
Proof. done. Qed.

Lemma authorizationPattern_text kid timestamp nonce signature :
  kidPattern kid = true → allChars isDigit timestamp = true → decimalPattern timestamp = true →
  allChars tokenChar nonce = true → nonce ≠ "" → allChars tokenChar signature = true → signature ≠ "" →
  authorizationPattern (headerText kid timestamp nonce signature) = Some (kid, timestamp, nonce, signature).
Proof.
  intros [Hk Hkl]%andb_true_iff Ht Htd Hn Hnn Hs Hsn. unfold authorizationPattern, headerText.
  rewrite expect_append, (span_append _ kid) by first [done|by apply comma_stops].
  rewrite expect_append, (span_append _ timestamp) by first [done|by apply comma_stops].
  rewrite expect_append, (span_append _ nonce) by first [done|by apply comma_stops].
  rewrite expect_append. rewrite <-(append_nil_r signature) at 1. rewrite (span_append _ signature) by done.
  rewrite Hkl, Htd. cbn [andb]. rewrite !(proj2 (String.eqb_neq _ _)) by done. by rewrite String.eqb_refl.
Qed.

Lemma authorizationPattern_spec value kid timestamp nonce signature :
  authorizationPattern value = Some (kid, timestamp, nonce, signature) →
  value = headerText kid timestamp nonce signature ∧ kidPattern kid = true ∧ allChars isDigit timestamp = true ∧
  decimalPattern timestamp = true ∧ allChars tokenChar nonce = true ∧ nonce ≠ "" ∧
  allChars tokenChar signature = true ∧ signature ≠ "".
Proof.
  unfold authorizationPattern. destruct (expect _ value) as [s0|] eqn:E0; [|done]. apply expect_spec in E0 as ->.
  destruct (span kidChar s0) as [k s1] eqn:S1. apply span_spec in S1 as [-> Hk].
  destruct (expect _ s1) as [s2|] eqn:E2; [|done]. apply expect_spec in E2 as ->.
  destruct (span isDigit s2) as [t s3] eqn:S3. apply span_spec in S3 as [-> Ht].
  destruct (expect _ s3) as [s4|] eqn:E4; [|done]. apply expect_spec in E4 as ->.
  destruct (span tokenChar s4) as [n s5] eqn:S5. apply span_spec in S5 as [-> Hn].
  destruct (expect _ s5) as [s6|] eqn:E6; [|done]. apply expect_spec in E6 as ->.
  destruct (span tokenChar s6) as [g s7] eqn:S7. apply span_spec in S7 as [-> Hg].
  case_match eqn:Hc; [|done]. intros [= <- <- <- <-]. rewrite !andb_true_iff in Hc. destruct Hc as [[[[Hkl Hd] Hnn] Hgn] He].
  apply String.eqb_eq in He as ->. apply negb_true_iff, String.eqb_neq in Hnn, Hgn.
  unfold kidPattern. rewrite Hk, Hkl, append_nil_r. done.
Qed.

(** A token as the header is read from, and the facts the reader checked. *)
Lemma ParseSuperToken_spec value token :
  ParseSuperToken value = Ok token →
  ∃ signature, value = headerText (stKID token) (stTimestampString token) (stNonce token) signature ∧
    kidPattern (stKID token) = true ∧ allChars isDigit (stTimestampString token) = true ∧
    parseUint (stTimestampString token) 63 = Some (stTimestamp token) ∧ allChars tokenChar (stNonce token) = true ∧
    length (stSignature token) = 64%nat.
Proof.
  unfold ParseSuperToken. destruct (authorizationPattern value) as [[[[k t] n] g]|] eqn:Ea; [|done].
  apply authorizationPattern_spec in Ea as (-> & Hk & Ht & _ & Hn & _ & _ & _).
  destruct (parseUint t 63) as [ts|] eqn:Et; [|done]. destruct (DecodeString RawURLEncoding n) as [nb|]; [|done].
  case_match; [done|]. destruct (DecodeString RawURLEncoding g) as [sig|] eqn:Eg; [|done].
  case_match eqn:El; [done|]. intros [= <-]. exists g. cbn. apply negb_false_iff, Nat.eqb_eq in El. done.
Qed.

Lemma pretty_leading x s : (x ≠ 0)%N → ∃ a rest, pretty_N_go x s = String a rest ∧ a ≠ "0"%char.
Proof.
  revert s. induction (N.lt_wf_0 x) as [x _ IH]. intros s Hx. rewrite pretty_N_go_step by lia.
  destruct (decide (x / 10 = 0)%N) as [E|E]; [|apply IH; [apply N.div_lt; lia|done]].
  rewrite E, pretty_N_go_0. eexists _, _. split; [done|]. rewrite N.mod_small by (apply N.div_small_iff; lia).
  assert (x < 10)%N by (apply N.div_small_iff; lia).
  assert (x = 1 ∨ x = 2 ∨ x = 3 ∨ x = 4 ∨ x = 5 ∨ x = 6 ∨ x = 7 ∨ x = 8 ∨ x = 9)%N as Hd by lia.
  by destruct Hd as [->|[->|[->|[->|[->|[->|[->|[->| ->]]]]]]]].
Qed.

Lemma pretty_decimal z : 0 ≤ z → decimalPattern (pretty z) = true.
Proof.
  intros Hz. rewrite pretty_nonneg by done. unfold pretty, pretty_N. case_decide as E; [done|].
  destruct (pretty_leading (Z.to_N z) "" E) as (a & rest & -> & Ha). unfold decimalPattern.
  by destruct (Ascii.eqb_spec a "0"%char).
Qed.

(** What a client writes is read back. *)
Lemma ParseSuperToken_header kid timestamp nonce signature :
  kidPattern kid = true → 0 ≤ timestamp < 2 ^ 63 →
  Forall byte_ok nonce → (16 ≤ length nonce ≤ 64)%nat → Forall byte_ok signature → length signature = 64%nat →
  let nonceText := EncodeToString RawURLEncoding nonce in
  ParseSuperToken (headerText kid (pretty timestamp) nonceText (EncodeToString RawURLEncoding signature)) =
    Ok (mkToken kid timestamp (pretty timestamp) nonceText signature).
Proof.
  intros Hk Ht Hn Hnl Hs Hsl nonceText. unfold ParseSuperToken. rewrite authorizationPattern_text.
  - rewrite parseUint_pretty by done. unfold nonceText. rewrite !DecodeString_EncodeToString by done.
    rewrite (proj2 (Nat.ltb_ge _ _)), (proj2 (Nat.ltb_ge _ _)) by lia. cbn [orb]. by rewrite Hsl.
  - done.
  - apply pretty_digits. lia.
  - apply pretty_decimal. lia.
  - by apply (EncodeToString_class RawURLEncoding).
  - intros ->%EncodeToString_empty. simpl in Hnl. lia.
  - by apply (EncodeToString_class RawURLEncoding).
  - intros ->%EncodeToString_empty. done.
Qed.

(** ** The signed text determines its fields *)

Lemma signedLine_inj name v v' rest rest' :
  containsChar v "010"%char = false → containsChar v' "010"%char = false →
  signedLine name v rest = signedLine name v' rest' → v = v' ∧ rest = rest'.
Proof.
  intros Hv Hv' E. unfold signedLine in E. apply (inj (String.append name)) in E.
  pose proof (cutChar_append _ _ rest Hv) as C. rewrite E, cutChar_append in C by done. by injection C as <- <-.
Qed.

Definition plainText (s : string) : Prop := containsChar s "010"%char = false.

(** A token and an identity without line ends. *)
Definition plainToken (t : SuperToken) : Prop := plainText (stKID t) ∧ plainText (stTimestampString t) ∧ plainText (stNonce t).
Definition plainIdentity (i : SignedIdentity) : Prop := plainText (siSiteID i) ∧ plainText (siBlockID i) ∧ plainText (siDeviceID i).

Lemma CanonicalBytes_inj sha256 t t' m m' p p' b b' i i' :
  (∀ l, Forall byte_ok (sha256 l)) → plainToken t → plainToken t' → plainText m → plainText m' → plainText p → plainText p' →
  plainIdentity i → plainIdentity i' →
  CanonicalBytes sha256 t m p b i = CanonicalBytes sha256 t' m' p' b' i' →
  stKID t = stKID t' ∧ stTimestampString t = stTimestampString t' ∧ stNonce t = stNonce t' ∧ m = m' ∧ p = p' ∧
  sha256 b = sha256 b' ∧ i = i'.
Proof.
  intros Hsha (K & T & N) (K' & T' & N') Hm Hm' Hp Hp' (A & B & C) (A' & B' & C') E. unfold CanonicalBytes in E.
  assert (∀ l, plainText (hexOf (sha256 l))) as Hhex.
  { intros l. apply (allChars_contains hexLower); [apply hexOf_class, Hsha|reflexivity]. }
  do 2 (apply signedLine_inj in E as [_ E]; [|reflexivity|reflexivity]).
  apply signedLine_inj in E as [E1 E]; [|done|done]. apply signedLine_inj in E as [E2 E]; [|done|done].
  apply signedLine_inj in E as [E3 E]; [|done|done]. apply signedLine_inj in E as [E4 E]; [|done|done].
  apply signedLine_inj in E as [E5 E]; [|done|done]. apply signedLine_inj in E as [E6 E]; [|apply Hhex|apply Hhex].
  apply signedLine_inj in E as [E7 E]; [|done|done]. apply signedLine_inj in E as [E8 E]; [|done|done].
  apply signedLine_inj in E as [E9 _]; [|done|done]. repeat split; try done.
  - by apply hexOf_inj.
  - destruct i, i'. cbn in *. congruence.
Qed.

Lemma parsed_plain value token : ParseSuperToken value = Ok token → plainToken token.
Proof.
  intros (signature & _ & [Hk _]%andb_true_iff & Ht & _ & Hn & _)%ParseSuperToken_spec. repeat split.
  - by eapply allChars_contains.
  - by eapply allChars_contains.
  - by eapply allChars_contains.
Qed.

Lemma identifier_plain s : identifierPattern s = true → plainText s.
Proof.
  unfold identifierPattern. destruct s as [|a s]; [done|]. rewrite !andb_true_iff. intros [[Ha Hs] _].
  apply (allChars_contains identifierChar); [|done]. cbn [allChars]. rewrite Hs, andb_true_r.
  unfold identifierStart in Ha. unfold identifierChar. by rewrite Ha.
Qed.

Lemma validated_plain request : validateRequest request = Ok tt → plainIdentity (identityOf request).
Proof.
  unfold validateRequest. case_match; [done|]. case_match eqn:Hi; [done|]. intros _.
  apply negb_false_iff in Hi. cbn [forallb] in Hi. rewrite !andb_true_iff in Hi. destruct Hi as (A & B & C & _).
  repeat split; by apply identifier_plain.
Qed.

(** ** The store of used nonces *)

Lemma nonceStatement_used db r db' : nonceStatement db = (r, db') → ndUsed db' = ndUsed db.
Proof. unfold nonceStatement. destruct db as [u [|[e|] fs]]; cbn; by intros [= <- <-]. Qed.

Definition keptNonces (seconds : Z) (db : NonceDB) : gmap (string * string) Z := filter (unexpired seconds) (ndUsed db).

Lemma Register_spec kid nonce ts seconds db r db' :
  Register kid nonce ts seconds db = (r, db') →
  match r with
  | Ok true => keptNonces seconds db !! (kid, nonce) = None ∧
               ndUsed db' = <[(kid, nonce) := i64 (ts + 60)]> (keptNonces seconds db)
  | Ok false => is_Some (keptNonces seconds db !! (kid, nonce)) ∧ ndUsed db' = keptNonces seconds db
  | Err _ => ndUsed db' = ndUsed db
  end.
Proof.
  unfold Register, gbind, gget, gput, gret.
  destruct (nonceStatement db) as [[[]|e] d1] eqn:E1; apply nonceStatement_used in E1; [|by intros [= <- <-]].
  destruct (nonceStatement d1) as [[[]|e] d2] eqn:E2; apply nonceStatement_used in E2; [|intros [= <- <-]; congruence].
  destruct (nonceStatement d2) as [[[]|e] d3] eqn:E3; apply nonceStatement_used in E3; [|intros [= <- <-]; congruence].
  destruct (nonceStatement d3) as [[[]|e] d4] eqn:E4; apply nonceStatement_used in E4; [|intros [= <- <-]; congruence].
  unfold keptNonces. replace (ndUsed d4) with (ndUsed db) by congruence.
  destruct (filter _ _ !! _) eqn:Hk; intros [= <- <-]; cbn; eauto.
Qed.

Lemma keptNonces_Some seconds db key e :
  ndUsed db !! key = Some e → seconds ≤ e → keptNonces seconds db !! key = Some e.
Proof. intros Hk He. unfold keptNonces. by apply map_lookup_filter_Some. Qed.

(** A used nonce stays as long as it has not expired. *)
Lemma Register_keeps kid nonce ts seconds db r db' key e :
  Register kid nonce ts seconds db = (r, db') → ndUsed db !! key = Some e → seconds ≤ e → ndUsed db' !! key = Some e.
Proof.
  intros Hr Hk He. pose proof (Register_spec _ _ _ _ _ _ _ Hr) as Hs. pose proof (keptNonces_Some _ _ _ _ Hk He) as Hkept.
  destruct r as [[]|err]; [destruct Hs as [Hn ->]|destruct Hs as [_ ->]|by rewrite Hs]; [|done].
  rewrite lookup_insert_ne; [done|]. intros E. rewrite E in Hn. congruence.
Qed.

(** ** The handler *)

Section handler.
Context (sha256 : list Z → list Z) (verify : string → list Z → bool) (json : list Z → option CertificateRequest)
  (parseMediaType : string → option string) (keygen : string → string → Z → Z → string → option string) (c : Config).

(** The second a handler takes its reading for. *)
Definition secondsOf (clock : Z) : Z := clock / second * second / second.

Lemma secondsOf_div clock : secondsOf clock = clock / second.
Proof. unfold secondsOf. by rewrite Z.div_mul. Qed.

(** What a request must have to come to the registration of its nonce. *)
Record signedRequest (r : HttpRequest) (requestID : string) (clock : Z) (request : CertificateRequest)
    (token : SuperToken) : Prop := {
  sr_method : hrqMethod r = "POST"%string;
  sr_path : hrqPath r = certificatePath;
  sr_authorization : ∃ value, hrqAuthorization r = [value] ∧ ParseSuperToken value = Ok token;
  sr_kid : stKID token = cfAdministratorKID c;
  sr_request : ∃ body, hrqBody r = Some body ∧ json body = Some request ∧
    verify (CanonicalBytes sha256 token "POST" certificatePath body (identityOf request)) (stSignature token) = true;
  sr_valid : validateRequest request = Ok tt;
  sr_target : crTargetNode request = cfTargetNode c ∧ crSiteID request = cfSiteID c ∧
              crBlockID request = cfBlockID c ∧ crDeviceID request = cfDeviceID c;
  sr_window : secondsOf clock - 60 ≤ stTimestamp token ≤ secondsOf clock + 60
}.

Lemma checkRequest_Ok r requestID body request token :
  checkRequest json parseMediaType c r requestID = Ok (body, request, token) →
  hrqMethod r = "POST"%string ∧ hrqPath r = certificatePath ∧ hrqBody r = Some body ∧ json body = Some request ∧
  validateRequest request = Ok tt ∧ (∃ value, hrqAuthorization r = [value] ∧ ParseSuperToken value = Ok token) ∧
  stKID token = cfAdministratorKID c ∧ crTargetNode request = cfTargetNode c ∧ crSiteID request = cfSiteID c ∧
  crBlockID request = cfBlockID c ∧ crDeviceID request = cfDeviceID c.
Proof.
  unfold checkRequest. case_match eqn:H1; [done|]. case_match eqn:H2; [done|]. case_match; [done|]. case_match; [done|].
  destruct (hrqBody r) as [b|]; [|done]. case_match; [done|]. unfold DecodeCertificateRequest.
  destruct (json b) as [q|] eqn:Hj; [|done]. destruct (validateRequest q) as [[]|e] eqn:Hv; cbn [rbind]; [|by destruct e].
  destruct (hrqAuthorization r) as [|value [|? ?]]; [done| |done]. destruct (ParseSuperToken value) as [t|] eqn:Ht; [|done].
  case_match eqn:Hk; [done|]. case_match eqn:Hi; [done|]. intros [= -> -> ->]. propify. eauto 20.
Qed.

Lemma ServeHTTP_past r newID clock db :
  (∃ response, ServeHTTP sha256 verify json parseMediaType keygen c r newID clock db = (response, db) ∧
     ∀ p, response ≠ Granted p) ∨
  ∃ requestID request token, newID = Some requestID ∧ signedRequest r requestID clock request token ∧
    ServeHTTP sha256 verify json parseMediaType keygen c r newID clock db =
      match Register (stKID token) (stNonce token) (stTimestamp token) (secondsOf clock) db with
      | (Err _, db) => (Refused 500 "CERTIFICATE_ISSUE_FAILED" requestID, db)
      | (Ok false, db) => (Refused 409 "NONCE_REPLAYED" requestID, db)
      | (Ok true, db) => (grant keygen c requestID request (clock / second * second), db)
      end.
Proof.
  unfold ServeHTTP. case_match eqn:Hget; [left; eexists; split; [done|]; by case_match|].
  destruct newID as [requestID|]; [|by left; eexists]. destruct (checkRequest _ _ _ r requestID) as [[[body request] token]|response] eqn:Hc.
  2: { left. eexists. split; [done|]. intros p ->. clear Hget. revert Hc. unfold checkRequest.
       repeat (case_match; try done). }
  apply checkRequest_Ok in Hc as (Hm & Hp & Hb & Hj & Hv & Ha & Hk & H1 & H2 & H3 & H4). unfold checkToken. fold (secondsOf clock).
  destruct ((stTimestamp token <? secondsOf clock - 60) || (secondsOf clock + 60 <? stTimestamp token)) eqn:Hw; [by left; eexists|].
  destruct (negb (VerifySuperToken sha256 verify token (hrqMethod r) (hrqPath r) body (identityOf request))) eqn:Hs; [by left; eexists|].
  right.
  exists requestID, request, token. split; [done|]. split; [|done].
  apply orb_false_iff in Hw as [Hw1%Z.ltb_ge Hw2%Z.ltb_ge]. apply negb_false_iff in Hs. unfold VerifySuperToken in Hs. rewrite Hm, Hp in Hs.
  split; eauto 10; lia.
Qed.

(** A certificate is granted only behind a registration. *)
Lemma ServeHTTP_Granted r newID clock db p db' :
  ServeHTTP sha256 verify json parseMediaType keygen c r newID clock db = (Granted p, db') →
  ∃ requestID request token, newID = Some requestID ∧ signedRequest r requestID clock request token ∧
    Register (stKID token) (stNonce token) (stTimestamp token) (secondsOf clock) db = (Ok true, db') ∧
    grant keygen c requestID request (clock / second * second) = Granted p.
Proof.
  intros H. destruct (ServeHTTP_past r newID clock db) as [(response & E & Hne)|(requestID & request & token & Hid & Hs & E)].
  - rewrite H in E. injection E as <- <-. by destruct (Hne p).
  - rewrite H in E. exists requestID, request, token. split; [done|]. split; [done|].
    destruct (Register _ _ _ _ db) as [[[]|e] d]; [|done|done]. by injection E as -> ->.
Qed.

(** ** Histories of requests *)

Record arrival := mkArrival { arRequest : HttpRequest; arID : option string; arClock : Z }.

Fixpoint serveAll (arrivals : list arrival) (db : NonceDB) : list ssh_response * NonceDB :=
  match arrivals with
  | [] => ([], db)
  | a :: rest =>
      let '(response, db) := ServeHTTP sha256 verify json parseMediaType keygen c (arRequest a) (arID a) (arClock a) db in
      let '(responses, db) := serveAll rest db in
      (response :: responses, db)
  end.

(** The answer to a request is the handler's on some table. *)
Lemma serveAll_nth arrivals : ∀ db j a response,
  arrivals !! j = Some a → (serveAll arrivals db).1 !! j = Some response →
  ∃ dbj dbj', ServeHTTP sha256 verify json parseMediaType keygen c (arRequest a) (arID a) (arClock a) dbj = (response, dbj').
Proof.
  induction arrivals as [|a0 arrivals IH]; intros db j a response Hj Hr; [done|]. cbn [serveAll] in Hr.
  destruct (ServeHTTP sha256 verify json parseMediaType keygen c (arRequest a0) (arID a0) (arClock a0) db) as [response0 db1] eqn:E0.
  destruct (serveAll arrivals db1) as [responses db2] eqn:E1. cbn [fst] in Hr. destruct j as [|j]; cbn in Hj, Hr.
  - injection Hj as ->. injection Hr as ->. eauto.
  - eapply IH; [done|]. by rewrite E1.
Qed.

Definition tokenOf (r : HttpRequest) : option SuperToken :=
  match hrqAuthorization r with
  | [value] => match ParseSuperToken value with Ok token => Some token | Err _ => None end
  | _ => None
  end.

Lemma signed_tokenOf r requestID clock request token : signedRequest r requestID clock request token → tokenOf r = Some token.
Proof. intros [_ _ (value & E & Ht) _ _ _ _ _]. unfold tokenOf. by rewrite E, Ht. Qed.

(** A nonce in the table is refused until it has expired. *)
Lemma used_nonce_waits arrivals : ∀ db key e j a p token,
  Sorted Z.le (map arClock arrivals) → ndUsed db !! key = Some e →
  arrivals !! j = Some a → (serveAll arrivals db).1 !! j = Some (Granted p) → tokenOf (arRequest a) = Some token →
  (stKID token, stNonce token) = key → e < secondsOf (arClock a).
Proof.
  induction arrivals as [|a0 arrivals IH]; intros db key e j a p token Hsort Hk Hj Hr Ht Hkey; [done|].
  cbn [serveAll] in Hr. destruct (ServeHTTP sha256 verify json parseMediaType keygen c (arRequest a0) (arID a0) (arClock a0) db) as [response db1] eqn:E0.
  destruct (serveAll arrivals db1) as [responses db2] eqn:E1. cbn [fst] in Hr.
  destruct j as [|j]; cbn in Hj, Hr.
  - injection Hj as ->. injection Hr as ->. apply ServeHTTP_Granted in E0 as (requestID & request & token' & _ & Hs & Hreg & _).
    rewrite (signed_tokenOf _ _ _ _ _ Hs) in Ht. injection Ht as ->. apply Register_spec in Hreg as [Hn _].
    destruct (Z.lt_ge_cases e (secondsOf (arClock a))) as [|He]; [done|]. rewrite Hkey in Hn. by rewrite (keptNonces_Some _ _ _ _ Hk He) in Hn.
  - destruct (Z.lt_ge_cases e (secondsOf (arClock a0))) as [He|He].
    + eapply Z.lt_le_trans; [exact He|]. rewrite !secondsOf_div. apply Z.div_le_mono; [done|].
      cbn [map] in Hsort. apply Sorted_StronglySorted in Hsort; [|intros x y z; lia]. apply StronglySorted_inv in Hsort as [_ Hall].
      rewrite Forall_forall in Hall. apply Hall, list_elem_of_fmap. exists a. split; [done|]. by eapply list_elem_of_lookup_2.
    + apply (IH db1 key e j a p token); try done.
      * by apply Sorted_inv in Hsort as [? _].
      * destruct (ServeHTTP_past (arRequest a0) (arID a0) (arClock a0) db) as [(response' & E & _)|(requestID & request & token' & _ & _ & E)];
          rewrite E0 in E; [by injection E as _ ->|].
        destruct (Register _ _ _ _ db) as [r d] eqn:Er. pose proof (Register_keeps _ _ _ _ _ _ _ _ _ Er Hk He) as Hd.
        by destruct r as [[]|]; injection E as _ ->.
      * by rewrite E1.
Qed.

(** Two grants on one nonce: the first token's time is over when the second is
    granted, and the second token is younger. *)
Lemma grants_apart arrivals : ∀ db i j a a' p p' token token',
  Sorted Z.le (map arClock arrivals) → Forall (fun a => secondsOf (arClock a) < 2 ^ 62 ∧ - 2 ^ 62 < secondsOf (arClock a)) arrivals →
  (i < j)%nat → arrivals !! i = Some a → arrivals !! j = Some a' →
  (serveAll arrivals db).1 !! i = Some (Granted p) → (serveAll arrivals db).1 !! j = Some (Granted p') →
  tokenOf (arRequest a) = Some token → tokenOf (arRequest a') = Some token' →
  stKID token = stKID token' → stNonce token = stNonce token' →
  stTimestamp token + 60 < secondsOf (arClock a').
Proof.
  induction arrivals as [|a0 arrivals IH]; intros db i j a a' p p' token token' Hsort Hb Hij Hi Hj Hr Hr' Ht Ht' Hkid Hn; [done|].
  apply Forall_cons in Hb as [[Hb1 Hb2] Hb]. cbn [serveAll] in Hr, Hr'.
  destruct (ServeHTTP sha256 verify json parseMediaType keygen c (arRequest a0) (arID a0) (arClock a0) db) as [response db1] eqn:E0.
  destruct (serveAll arrivals db1) as [responses db2] eqn:E1. cbn [fst] in Hr, Hr'.
  destruct j as [|j]; [lia|]. cbn in Hj, Hr'. apply Sorted_inv in Hsort as Hsort'. destruct Hsort' as [Hs' _].
  destruct i as [|i]; cbn in Hi, Hr.
  - injection Hi as ->. injection Hr as ->. apply ServeHTTP_Granted in E0 as (requestID & request & token0 & _ & Hs & Hreg & _).
    rewrite (signed_tokenOf _ _ _ _ _ Hs) in Ht. injection Ht as ->. apply Register_spec in Hreg as [_ Hused].
    pose proof (sr_window _ _ _ _ _ Hs) as Hw.
    apply (used_nonce_waits arrivals db1 (stKID token, stNonce token) _ j a' p' token'); try done.
    + rewrite Hused, lookup_insert_eq. f_equal. apply swrap_id; [done|]. change (2 ^ (64 - 1)) with 9223372036854775808.
      change (2 ^ 62) with 4611686018427387904 in *. lia.
    + by rewrite E1.
    + congruence.
  - apply (IH db1 i j a a' p p' token token'); try done; [lia|by rewrite E1|by rewrite E1].
Qed.
End handler.

(** ** Keys *)

Lemma length_encodePadded l : Z.of_nat (length (encodeQuanta StdEncoding l)) = (Z.of_nat (length l) + 2) / 3 * 4.
Proof.
  induction l as [|x|x y|x y z l IH] using quanta_ind; [done|done|done|].
  cbn [encodeQuanta length]. rewrite !Nat2Z.inj_succ, IH.
  replace (Z.succ (Z.succ (Z.succ (Z.of_nat (length l)))) + 2) with (Z.of_nat (length l) + 2 + 1 * 3) by lia.
  rewrite Z.div_add by done. lia.
Qed.

Lemma length_of_list l : String.length (string_of_list_ascii l) = length l.
Proof. induction l as [|a l IH]; [done|]. exact (f_equal S IH). Qed.

(** The blob of an Ed25519 key. *)
Definition ed25519Blob (key : list Z) : list Z := [0; 0; 0; 11] ++ bytesOf "ssh-ed25519" ++ [0; 0; 0; 32] ++ key.

Lemma ed25519Blob_bytes key : Forall byte_ok key → Forall byte_ok (ed25519Blob key).
Proof. intros Hk. repeat (apply Forall_cons; split; [split; vm_compute; congruence|]). done. Qed.

Lemma keyBlob_ed25519 key :
  length key = 32%nat → Forall byte_ok key → keyBlob (EncodeToString StdEncoding (ed25519Blob key)) = Some (ed25519Blob key).
Proof.
  intros Hl Hk. unfold keyBlob. rewrite DecodeString_EncodeToString.
  - unfold ed25519Blob. cbn [app readSSHString]. change (getU16 0 0 * 65536 + getU16 0 11) with 11.
    rewrite (proj2 (Z.ltb_ge _ _)) by (rewrite length_app; change (length (bytesOf "ssh-ed25519")) with 11%nat; lia).
    change (Z.to_nat 11) with (length (bytesOf "ssh-ed25519")). rewrite take_app_length, drop_app_length.
    rewrite bool_decide_eq_true_2 by done. cbn [negb readSSHString]. change (getU16 0 0 * 65536 + getU16 0 32) with 32.
    rewrite Hl. change (Z.of_nat 32 <? 32) with false. cbn iota. change (Z.to_nat 32) with 32%nat. rewrite <-Hl, take_ge, drop_all by done.
    by rewrite Hl.
  - by apply ed25519Blob_bytes.
Qed.

Lemma length_bare_key key : length key = 32%nat → String.length (EncodeToString StdEncoding (ed25519Blob key)) = 68%nat.
Proof.
  intros Hl. apply Nat2Z.inj. unfold EncodeToString. rewrite length_of_list, length_encodePadded.
  unfold ed25519Blob. by rewrite !length_app, Hl.
Qed.

Lemma bare_key_short key :
  length key = 32%nat →
  runeCount (String.append "ssh-ed25519 " (EncodeToString StdEncoding (ed25519Blob key))) ≤ 80.
Proof.
  intros Hl. etrans; [apply runeCount_length|]. rewrite length_append, length_bare_key by done. vm_compute. congruence.
Qed.

(** Whole quanta have no padding. *)
Lemma encode_whole url padded l n :
  length l = (3 * n)%nat → encodeQuanta (mkEncoding url padded) l = encodeQuanta (mkEncoding url false) l.
Proof.
  revert n. induction l as [|x|x y|x y z l IH] using quanta_ind; intros n Hl; cbn [length] in Hl; [done|lia|lia|].
  destruct n as [|n]; [lia|]. cbn [encodeQuanta]. by rewrite (IH n) by lia.
Qed.

Lemma bare_key_pattern key :
  length key = 32%nat → Forall byte_ok key →
  publicKeyPattern (String.append "ssh-ed25519 " (EncodeToString StdEncoding (ed25519Blob key))) = true.
Proof.
  intros Hl Hk. unfold publicKeyPattern. rewrite expect_append. pose proof (length_bare_key key Hl) as H68.
  set (encoded := EncodeToString StdEncoding (ed25519Blob key)) in *.
  assert (allChars (base64Char false) encoded = true) as Hc.
  { unfold encoded, EncodeToString, StdEncoding. rewrite (encode_whole _ _ _ 17) by (unfold ed25519Blob; rewrite !length_app, Hl; reflexivity).
    apply (EncodeToString_class RawStdEncoding); [by apply ed25519Blob_bytes|done]. }
  rewrite <-(append_nil_r encoded) at 1. rewrite (span_append _ encoded) by done. cbn [span]. unfold lengthIn. rewrite H68. reflexivity.
Qed.
