(* ===== verification/SshKeys.v ===== *)
(** * One-time maintenance keys: [internal/sshbootstrap/key_handler.go]

    The handler that exchanges the super key for a fresh SSH key, as a process
    over the state of [KeyHandler] with its clock and the authorized-keys file:
    concurrent requests interleave between its critical sections.  Key generation
    and the steps of the file's replacement succeed or fail as the request says. *)

From Stdlib Require Import Ascii String.
From S2P Require Import Prelude GoText Interleave Auth SshBootstrap.

Definition keyEndpoint : string := "/api/maintenance/ssh-key".

Record KeyConfig := mkKeyConfig {
  kcSuperKeyHash : string;
  kcAuthorizedKeysPath : string;
  kcDeviceID : string;
  kcAdvertisedHost : string
}.

Definition validateKeyConfig (c : KeyConfig) : bool :=
  (trimSpace (kcSuperKeyHash c) <>s "") &&
  (kcAuthorizedKeysPath c <>s "") && hasPrefix (kcAuthorizedKeysPath c) "/" &&
  identifierPattern (kcDeviceID c) && hostPattern (kcAdvertisedHost c).

(** The handler, the clock, and what the authorized-keys file has held: the
    content that each rename put there, with its instant, the last one last. *)
Record KeyState := mkKeyState {
  ksNow : Z;
  ksBusy : bool;
  ksCooldownUntil : Z;
  ksFailures : Z;
  ksBlockedUntil : Z;
  ksFile : list (Z * string)
}.

Definition NewKeyHandler (now : Z) : KeyState := mkKeyState now false zeroTime 0 zeroTime [].

(** ** The critical sections *)

Definition rateLimited (s : KeyState) : bool * KeyState := (ksNow s <? ksBlockedUntil s, s).

Definition recordFailure (s : KeyState) : unit * KeyState :=
  let failures := ksFailures s + 1 in
  if 5 <=? failures
  then (tt, mkKeyState (ksNow s) (ksBusy s) (ksCooldownUntil s) 0 (ksNow s + 60 * second) (ksFile s))
  else (tt, mkKeyState (ksNow s) (ksBusy s) (ksCooldownUntil s) failures (ksBlockedUntil s) (ksFile s)).

Definition beginGeneration (s : KeyState) : bool * KeyState :=
  if ksBusy s || (ksNow s <? ksCooldownUntil s) then (false, s)
  else (true, mkKeyState (ksNow s) true (ksCooldownUntil s) 0 (ksBlockedUntil s) (ksFile s)).

Definition finishGeneration (completed : bool) (s : KeyState) : unit * KeyState :=
  (tt, mkKeyState (ksNow s) false (if completed then ksNow s + 10 * second else ksCooldownUntil s)
         (ksFailures s) (ksBlockedUntil s) (ksFile s)).

(** [installAuthorizedKey]: the file is replaced by the last step, the rename;
    [fault] is the step that fails. *)
Definition installAuthorizedKey (fault : option string) (publicKey : string) (s : KeyState) : bool * KeyState :=
  match fault with
  | Some _ => (false, s)
  | None => (true, mkKeyState (ksNow s) (ksBusy s) (ksCooldownUntil s) (ksFailures s) (ksBlockedUntil s)
                     (ksFile s ++ [(ksNow s, publicKey)]))
  end.

(** ** The handler *)

Record KeyRequest := mkKeyRequest {
  kqMethod : string;
  kqPath : string;
  kqRawQuery : string;
  kqContentType : string;
  kqSuperKey : option string;             (* None: the body is not what is expected *)
  kqGenerated : option (string * string); (* public and private key, when the generation succeeds *)
  kqInstallFault : option string
}.

Inductive key_response : Type :=
| KeyNotFound
| KeyRefused (status : Z) (code : string)
| KeyGranted (privateKey : string).

Section keys.
Variables (idKey : list Z → list Z → Z → Z → Z → Z → list Z) (parseMediaType : string → option string) (c : KeyConfig).

Definition critical {A} (m : KeyState → A * KeyState) : Proc KeyState A := plocked (PCall m PRet).

(** The generation between [beginGeneration] and the deferred [finishGeneration]. *)
Definition generateKey (generated : option (string * string)) (fault : option string) : Proc KeyState (bool * key_response) :=
  match generated with
  | None => PRet (false, KeyRefused 500 "KEY_INSTALL_FAILED")
  | Some (publicKey, privateKey) =>
      PCall (installAuthorizedKey fault publicKey) (fun installed =>
        PRet (if installed then (true, KeyGranted privateKey) else (false, KeyRefused 500 "KEY_INSTALL_FAILED")))
  end.

Definition serveKey (r : KeyRequest) : Proc KeyState key_response :=
  if (kqPath r <>s keyEndpoint) || (kqRawQuery r <>s "") then PRet KeyNotFound
  else if kqMethod r <>s "POST" then PRet KeyNotFound
  else if negb (bool_decide (parseMediaType (kqContentType r) = Some "application/json"%string))
  then PRet (KeyRefused 400 "INVALID_REQUEST")
  else match kqSuperKey r with
       | None => PRet (KeyRefused 400 "INVALID_REQUEST")
       | Some superKey =>
           if superKey =s "" then PRet (KeyRefused 400 "INVALID_REQUEST")
           else pbind (critical rateLimited) (fun limited =>
             if limited then PRet (KeyRefused 429 "TOO_MANY_ATTEMPTS")
             else if negb (VerifyPassword idKey (kcSuperKeyHash c) superKey)
             then pbind (critical recordFailure) (fun _ => PRet (KeyRefused 401 "INVALID_SUPER_KEY"))
             else pbind (critical beginGeneration) (fun started =>
               if negb started then PRet (KeyRefused 409 "KEY_GENERATION_IN_PROGRESS")
               else pbind (generateKey (kqGenerated r) (kqInstallFault r)) (fun outcome =>
                 pbind (critical (finishGeneration outcome.1)) (fun _ => PRet outcome.2))))
       end.

Inductive key_request : Proc KeyState key_response → Prop :=
| key_request_any r : key_request (serveKey r).
End keys.

(** Time passes. *)
Definition tick (s s' : KeyState) : Prop :=
  ∃ now, ksNow s ≤ now ∧
    s' = mkKeyState now (ksBusy s) (ksCooldownUntil s) (ksFailures s) (ksBlockedUntil s) (ksFile s).

(** ** One generation at a time

    What a request remembers: nothing; that it generates; that it has installed
    its key; and that it has finished with it. *)

Inductive key_task : Type := KIdle | KGenerating | KInstalled | KFinished.

Definition generating (g : key_task) : bool := match g with KGenerating | KInstalled => true | _ => false end.
Definition installed (g : key_task) : bool := match g with KInstalled | KFinished => true | _ => false end.
Definition waiting (g : key_task) : bool := match g with KGenerating => true | _ => false end.
Definition granted (r : key_response) : bool := match r with KeyGranted _ => true | _ => false end.

(** The instants of the installations, each ten seconds after the one before. *)
Fixpoint spaced (last : option Z) (file : list (Z * string)) : Prop :=
  match file with
  | [] => True
  | (t, _) :: rest => match last with Some l => l + 10 * second ≤ t | None => True end ∧ spaced (Some t) rest
  end.

Lemma spaced_snoc lst file t key :
  spaced lst file → (∀ l, (match last file with Some e => Some e.1 | None => lst end) = Some l → l + 10 * second ≤ t) →
  spaced lst (file ++ [(t, key)]).
Proof.
  revert lst. induction file as [|[u k] file IH]; intros lst Hs Hl; cbn [app spaced].
  - split; [|done]. destruct lst as [l|]; [by apply Hl|done].
  - destruct Hs as [Hu Hs]. split; [done|]. apply IH; [done|]. intros l E. apply Hl. rewrite last_cons. by destruct (last file).
Qed.

(** No installation is later than [t]. *)
Definition lastBefore (file : list (Z * string)) (t : Z) : Prop := ∀ e, last file = Some e → e.1 ≤ t.

Lemma lastBefore_mono file t t' : lastBefore file t → t ≤ t' → lastBefore file t'.
Proof. intros H Ht e He. specialize (H e He). lia. Qed.

Lemma lastBefore_snoc file t key : lastBefore (file ++ [(t, key)]) t.
Proof. intros e. rewrite last_snoc. by intros [= <-]. Qed.

Record key_whole (s : KeyState) (locked : bool) (gs : list key_task) (answers : list key_response) : Prop := {
  kw_busy : countIf generating gs = if ksBusy s then 1%nat else 0%nat;
  kw_spaced : spaced None (ksFile s);
  kw_now : lastBefore (ksFile s) (ksNow s);
  kw_idle : ksBusy s = false → lastBefore (ksFile s) (ksCooldownUntil s - 10 * second);
  kw_waiting : (0 < countIf waiting gs)%nat → lastBefore (ksFile s) (ksNow s - 10 * second) ;
  kw_cooldown : (0 < countIf waiting gs)%nat → lastBefore (ksFile s) (ksCooldownUntil s - 10 * second);
  kw_count : (countIf installed gs + countIf granted answers)%nat = length (ksFile s);
  kw_failures : 0 ≤ ksFailures s < 5
}.

(** What one statement does to the fields the invariant is about. *)
Inductive key_statement : key_task → KeyState → key_task → KeyState → Prop :=
| key_same g s failures blocked :
    0 ≤ failures < 5 →
    key_statement g s g (mkKeyState (ksNow s) (ksBusy s) (ksCooldownUntil s) failures blocked (ksFile s))
| key_begin s :
    ksBusy s = false → ksCooldownUntil s ≤ ksNow s →
    key_statement KIdle s KGenerating (mkKeyState (ksNow s) true (ksCooldownUntil s) 0 (ksBlockedUntil s) (ksFile s))
| key_install s key :
    key_statement KGenerating s KInstalled
      (mkKeyState (ksNow s) (ksBusy s) (ksCooldownUntil s) (ksFailures s) (ksBlockedUntil s) (ksFile s ++ [(ksNow s, key)]))
| key_give_up s :
    key_statement KGenerating s KIdle
      (mkKeyState (ksNow s) false (ksCooldownUntil s) (ksFailures s) (ksBlockedUntil s) (ksFile s))
| key_finish s :
    key_statement KInstalled s KFinished
      (mkKeyState (ksNow s) false (ksNow s + 10 * second) (ksFailures s) (ksBlockedUntil s) (ksFile s)).

Definition key_answer (g : key_task) (r : key_response) : Prop :=
  (g = KIdle ∧ granted r = false) ∨ (g = KFinished ∧ granted r = true).

#[export] Instance key_rely : Rely (S := KeyState) (R := key_response) key_task := {
  start := KIdle;
  view g s := 0 ≤ ksFailures s < 5;
  acquire g g' := g = g';
  release g g' := g = g';
  statement_ok := key_statement;
  answer_ok := key_answer;
  whole := key_whole
}.

Lemma waiting_generating gs : (countIf waiting gs ≤ countIf generating gs)%nat.
Proof. induction gs as [|g gs IH]; [done|]. rewrite !countIf_cons. destruct g; cbn; lia. Qed.

Lemma key_statement_whole s s' l gs as_ i g g' :
  key_whole s l gs as_ → gs !! i = Some g → key_statement g s g' s' → key_whole s' l (<[i := g']> gs) as_.
Proof.
  intros [H1 H2 H3 H4 H5 H6 H7 H8] Hi Hs.
  pose proof (countIf_insert generating gs i g g' Hi) as C1. pose proof (countIf_insert waiting gs i g g' Hi) as C2.
  pose proof (countIf_insert installed gs i g g' Hi) as C3. pose proof (waiting_generating (<[i:=g']> gs)) as C4. pose proof (waiting_generating gs) as C5.
  assert (generating g = true → ksBusy s = true) as busy_when.
  { intros Hg. pose proof (countIf_elem generating gs i _ Hi Hg). destruct (ksBusy s); [done|lia]. }
  destruct Hs as [g s failures blocked Hf|s Hb Hc|s key|s|s]; cbn in C1, C2, C3.
  - split; cbn; try done; try lia; intros ?; [apply H5|apply H6]; lia.
  - rewrite Hb in H1. pose proof (H4 Hb) as H4'.
    split; cbn; try done; try lia. intros _. eapply lastBefore_mono; [apply H4'|lia].
  - pose proof (countIf_elem waiting gs i _ Hi eq_refl). assert (ksBusy s = true) as Hbusy by (by apply busy_when). rewrite Hbusy in *.
    assert (lastBefore (ksFile s) (ksNow s - 10 * second)) as Hw by (apply H5; lia).
    split; cbn; rewrite ?length_app; cbn; try done; try lia.
    + apply spaced_snoc; [done|]. intros t Ht. destruct (last (ksFile s)) as [e|] eqn:El; [|done]. injection Ht as <-.
      specialize (Hw e El). lia.
    + apply lastBefore_snoc.
  - pose proof (countIf_elem waiting gs i _ Hi eq_refl). assert (ksBusy s = true) as Hbusy by (by apply busy_when). rewrite Hbusy in *.
    assert (lastBefore (ksFile s) (ksCooldownUntil s - 10 * second)) as Hw by (apply H6; lia).
    split; cbn; try done; lia.
  - assert (ksBusy s = true) as Hbusy by (by apply busy_when). rewrite Hbusy in *.
    split; cbn; try done; try lia; intros ?; try lia. by eapply lastBefore_mono; [apply H3|lia].
Qed.

#[export] Instance key_rely_laws : RelyLaws tick key_rely.
Proof.
  split; cbn.
  - intros s l gs as_ i g Hw _. apply Hw.
  - intros s l gs as_ [H1 H2 H3 H4 H5 H6 H7 H8]. split; rewrite ?countIf_app, ?countIf_cons; cbn; rewrite ?Nat.add_0_r; done.
  - intros s s' l gs as_ [H1 H2 H3 H4 H5 H6 H7 H8] (now & Hn & ->). split; cbn; try done.
    + by eapply lastBefore_mono.
    + intros Hw. eapply lastBefore_mono; [by apply H5|lia].
  - intros s gs as_ i g g' [H1 H2 H3 H4 H5 H6 H7 H8] Hi <-. by rewrite list_insert_id.
  - intros s gs as_ i g g' [H1 H2 H3 H4 H5 H6 H7 H8] Hi <-. by rewrite list_insert_id.
  - intros s s' l gs as_ i g g' Hw Hi _ Hs. by eapply key_statement_whole.
  - intros s l gs as_ i g r [H1 H2 H3 H4 H5 H6 H7 H8] Hi Hr.
    pose proof (countIf_delete generating gs i g Hi) as C1. pose proof (countIf_delete waiting gs i g Hi) as C2.
    pose proof (countIf_delete installed gs i g Hi) as C3.
    destruct Hr as [[-> Er]|[-> Er]]; cbn in C1, C2, C3; split; rewrite ?countIf_app, ?countIf_cons, ?Er; cbn; try done;
      try lia; intros ?; first [apply H5|apply H6]; lia.
Qed.

(** *** Every request keeps the rule *)

Section requests.
Context (idKey : list Z → list Z → Z → Z → Z → Z → list Z) (parseMediaType : string → option string) (c : KeyConfig).

(** A critical section behind the mutex, and what follows it. *)
Lemma rely_critical {A B} (m : KeyState → A * KeyState) (f : A → Proc KeyState B) post g :
  (∀ s a s', 0 ≤ ksFailures s < 5 → m s = (a, s') → ∃ g', key_statement g s g' s' ∧ rely post g' (f a)) →
  rely post g (pbind (critical m) f).
Proof.
  intros Hm. apply rely_bind. apply (rely_locked _ _ g); [done|]. intros s a s' Hv E.
  destruct (Hm s a s' Hv E) as (g' & Hs & Hk). exists g'. split; [done|]. by exists g'.
Qed.

Lemma key_unchanged g s : 0 ≤ ksFailures s < 5 → key_statement g s g s.
Proof. intros Hf. destruct s. by apply (key_same g (mkKeyState _ _ _ _ _ _)). Qed.

Lemma rely_serveKey r : rely key_answer KIdle (serveKey idKey parseMediaType c r).
Proof.
  unfold serveKey. case_match; [by left|]. case_match; [by left|]. case_match; [by left|].
  destruct (kqSuperKey r) as [superKey|]; [|by left]. case_match; [by left|].
  apply rely_critical. intros s a s' Hf [= <- <-]. exists KIdle. split; [by apply key_unchanged|].
  case_match; [by left|]. case_match.
  { apply rely_critical. intros s1 a s1' Hf1 E. exists KIdle. split; [|by left].
    unfold recordFailure in E. case_match eqn:H5; injection E as <- <-; apply key_same; propify; lia. }
  apply rely_critical. intros s1 a s1' Hf1 E. unfold beginGeneration in E.
  destruct (ksBusy s1 || (ksNow s1 <? ksCooldownUntil s1)) eqn:Hb; injection E as <- <-.
  { exists KIdle. split; [by apply key_unchanged|by left]. }
  apply orb_false_iff in Hb as [Hb Hc%Z.ltb_ge]. exists KGenerating. split; [by apply key_begin|]. cbn [negb].
  apply rely_bind.
  assert (∀ g outcome, (g = KGenerating ∧ outcome.1 = false ∧ granted outcome.2 = false) ∨ (g = KInstalled ∧ outcome.1 = true ∧ granted outcome.2 = true) →
    rely key_answer g (pbind (critical (finishGeneration outcome.1)) (fun _ => PRet outcome.2))) as Hfinish.
  { intros g [completed response]. cbn [fst snd]. intros [(-> & -> & Hg)|(-> & -> & Hg)]; apply rely_critical;
      intros s2 a2 s2' Hf2 [= <- <-]; eexists; (split; [constructor|]); [by left|by right]. }
  unfold generateKey. destruct (kqGenerated r) as [[publicKey privateKey]|]; [|apply Hfinish; by left].
  intros s3 a3 s3' Hf3 E3. unfold installAuthorizedKey in E3. destruct (kqInstallFault r); injection E3 as <- <-.
  - exists KGenerating. split; [by apply key_unchanged|]. apply Hfinish. by left.
  - exists KInstalled. split; [constructor|]. apply Hfinish. by right.
Qed.

Lemma serveKey_granted r s privateKey s' :
  exec (serveKey idKey parseMediaType c r) s = (KeyGranted privateKey, s') →
  ∃ superKey, kqSuperKey r = Some superKey ∧ VerifyPassword idKey (kcSuperKeyHash c) superKey = true.
Proof.
  unfold serveKey. case_match; [done|]. case_match; [done|]. case_match; [done|].
  destruct (kqSuperKey r) as [superKey|]; [|done]. case_match; [done|].
  rewrite exec_bind. unfold critical at 1. rewrite exec_locked. cbn [exec rateLimited].
  destruct (ksNow s <? ksBlockedUntil s); [done|]. destruct (VerifyPassword idKey (kcSuperKeyHash c) superKey) eqn:Hv; [eauto|].
  cbn [negb]. rewrite exec_bind. unfold critical. rewrite exec_locked. cbn [exec]. by destruct (recordFailure s).
Qed.

Lemma keys_reachable now v :
  server_reachable (key_request idKey parseMediaType c) tick (NewKeyHandler now) v → server_ok (L := key_rely) v.
Proof.
  intros Hv. refine (server_reachable_ok (L := key_rely) _ _ _ _ _ _ Hv).
  - intros p []. apply rely_serveKey.
  - split; cbn; try done; intros; lia.
Qed.
End requests.
