(* ===== verification/Maintenance.v ===== *)
(** * Production settings: [internal/maintenance/production.go] and
      [productionSettings] of [internal/agent/maintenance_http.go]

    Four numbers with their bounds, kept in a JSON file that is replaced
    atomically.  A file's object may lack members, which then keep the value they
    have, so a decoded file is a patch.  [Patch] and [Get] run under the store's
    mutex; a history of operations is a sequence. *)

From S2P Require Import Prelude.

Record Production := mkProduction {
  prTargetProduction : Z;
  prToolChangePieces : Z;
  prInspectionInterval : Z;
  prPiecesPerBox : Z
}.

Record ProductionPatch := mkPatch {
  ppTargetProduction : option Z;
  ppToolChangePieces : option Z;
  ppInspectionInterval : option Z;
  ppPiecesPerBox : option Z
}.

#[global] Instance Production_eq_dec : EqDecision Production. Proof. solve_decision. Defined.
#[global] Instance ProductionPatch_eq_dec : EqDecision ProductionPatch. Proof. solve_decision. Defined.

(** The settings file: absent, unreadable, not the expected JSON, or an object. *)
Inductive settings_file : Type :=
| FileAbsent
| FileUnreadable (e : string)
| FileInvalid (e : string)
| FileObject (members : ProductionPatch).

Record ProductionStore := mkProductionStore { psPath : string; psData : Production; psFile : settings_file }.

Inductive production_error : Type := PErrRead (e : string) | PErrDecode (e : string) | PErrInvalid | PErrWrite (e : string).

Definition DefaultProduction : Production := mkProduction 30 100 30 1.

Definition orKeep (o : option Z) (old : Z) : Z := match o with Some v => v | None => old end.

Definition applyPatch (patch : ProductionPatch) (data : Production) : Production :=
  mkProduction (orKeep (ppTargetProduction patch) (prTargetProduction data))
    (orKeep (ppToolChangePieces patch) (prToolChangePieces data))
    (orKeep (ppInspectionInterval patch) (prInspectionInterval data))
    (orKeep (ppPiecesPerBox patch) (prPiecesPerBox data)).

Definition validateProduction (data : Production) : result production_error unit :=
  if (prTargetProduction data <? 1) || (60000 <? prTargetProduction data) then Err PErrInvalid
  else if (prToolChangePieces data <? 1) || (99999 <? prToolChangePieces data) then Err PErrInvalid
  else if (prInspectionInterval data <? 1) || (9999 <? prInspectionInterval data) then Err PErrInvalid
  else if prPiecesPerBox data <? 1 then Err PErrInvalid
  else Ok tt.

(** [Open]: a missing file is the defaults. *)
Definition OpenProduction (path : string) (file : settings_file) : result production_error ProductionStore :=
  let store data := mkProductionStore path data file in
  if path =s "" then Ok (store DefaultProduction)
  else match file with
       | FileAbsent => Ok (store DefaultProduction)
       | FileUnreadable e => Err (PErrRead e)
       | FileInvalid e => Err (PErrDecode e)
       | FileObject members =>
           let data := applyPatch members DefaultProduction in
           let? _ := validateProduction data in
           Ok (store data)
       end.

(** What [json.Marshal] writes. *)
Definition membersOf (data : Production) : ProductionPatch :=
  mkPatch (Some (prTargetProduction data)) (Some (prToolChangePieces data)) (Some (prInspectionInterval data))
    (Some (prPiecesPerBox data)).

(** [writeAtomic]: the file is replaced by its last step, the rename; [fault] is
    the step that fails. *)
Definition writeAtomic (fault : option string) (path : string) (data : Production) (file : settings_file)
  : result production_error settings_file :=
  if path =s "" then Ok file
  else match fault with
       | Some e => Err (PErrWrite e)
       | None => Ok (FileObject (membersOf data))
       end.

Definition GetProduction (s : ProductionStore) : Production := psData s.

(** [Store.Patch]. *)
Definition PatchProduction (fault : option string) (patch : ProductionPatch) (s : ProductionStore)
  : result production_error Production * ProductionStore :=
  let next := applyPatch patch (psData s) in
  match validateProduction next with
  | Err e => (Err e, s)
  | Ok _ =>
      match writeAtomic fault (psPath s) next (psFile s) with
      | Err e => (Err e, s)
      | Ok file => (Ok next, mkProductionStore (psPath s) next file)
      end
  end.

(** ** The handler *)

Inductive settings_response : Type :=
| SettingsOK (data : Production)
| SettingsError (status : Z) (error : string)
| SettingsMethod.

Definition noMembers : ProductionPatch := mkPatch None None None None.

(** [productionSettings]; a body of [None] is one that [decodeJSON] refuses. *)
Definition productionSettings (method : string) (body : option ProductionPatch) (fault : option string) (s : ProductionStore)
  : settings_response * ProductionStore :=
  if method =s "GET" then (SettingsOK (GetProduction s), s)
  else if method =s "PATCH" then
    match body with
    | None => (SettingsError 400 "invalid JSON request", s)
    | Some patch =>
        if bool_decide (patch = noMembers) then (SettingsError 400 "at least one production value is required", s)
        else match PatchProduction fault patch s with
             | (Err _, s) => (SettingsError 400 "invalid production values", s)
             | (Ok data, s) => (SettingsOK data, s)
             end
    end
  else (SettingsMethod, s).

(** A history of requests. *)
Definition settings_request : Type := string * option ProductionPatch * option string.

Definition serveSettings (requests : list settings_request) (s : ProductionStore) : ProductionStore :=
  foldl (fun s '(method, body, fault) => (productionSettings method body fault s).2) s requests.

(** ** The invariant *)

Definition settings_valid (data : Production) : Prop :=
  1 ≤ prTargetProduction data ≤ 60000 ∧ 1 ≤ prToolChangePieces data ≤ 99999 ∧
  1 ≤ prInspectionInterval data ≤ 9999 ∧ 1 ≤ prPiecesPerBox data.

Lemma validateProduction_iff data : validateProduction data = Ok tt ↔ settings_valid data.
Proof.
  unfold validateProduction, settings_valid. destruct data as [a b c d]. cbn.
  destruct (Z.ltb_spec a 1), (Z.ltb_spec 60000 a), (Z.ltb_spec b 1), (Z.ltb_spec 99999 b), (Z.ltb_spec c 1), (Z.ltb_spec 9999 c),
    (Z.ltb_spec d 1); cbn; split; try done; try lia; tauto.
Qed.

Lemma applyPatch_members data base : applyPatch (membersOf data) base = data.
Proof. by destruct data. Qed.

(** Valid data, which the file gives back. *)
Definition store_ok (s : ProductionStore) : Prop :=
  settings_valid (psData s) ∧ OpenProduction (psPath s) (psFile s) = Ok s.

Lemma OpenProduction_ok path file s : OpenProduction path file = Ok s → store_ok s ∧ psPath s = path.
Proof.
  assert (settings_valid DefaultProduction) as Hd by (apply validateProduction_iff; reflexivity).
  unfold store_ok, OpenProduction. case_match eqn:Hp.
  { intros [= <-]. cbn. rewrite Hp. done. }
  destruct file as [| | |members]; try done.
  { intros [= <-]. cbn. rewrite Hp. done. }
  destruct (validateProduction _) as [[]|] eqn:Hv; [|done]. intros [= <-]. cbn. rewrite Hp, Hv. cbn.
  by apply validateProduction_iff in Hv.
Qed.

Lemma PatchProduction_spec fault patch s r s' :
  PatchProduction fault patch s = (r, s') →
  match r with
  | Ok data => data = applyPatch patch (psData s) ∧ settings_valid data ∧
               s' = mkProductionStore (psPath s) data (if psPath s =s "" then psFile s else FileObject (membersOf data)) ∧
               (psPath s = ""%string ∨ fault = None)
  | Err _ => s' = s ∧ (¬ settings_valid (applyPatch patch (psData s)) ∨ psPath s ≠ ""%string ∧ fault ≠ None)
  end.
Proof.
  unfold PatchProduction, writeAtomic. destruct (validateProduction _) as [[]|e] eqn:Hv.
  - apply validateProduction_iff in Hv. destruct (String.eqb_spec (psPath s) "") as [Hp|Hp].
    + intros [= <- <-]. auto.
    + destruct fault as [e|]; intros [= <- <-]; eauto 10.
  - intros [= <- <-]. split; [done|]. left. intros H%validateProduction_iff. congruence.
Qed.

Lemma PatchProduction_ok fault patch s r s' :
  store_ok s → PatchProduction fault patch s = (r, s') →
  settings_valid (psData s') ∧ psPath s' = psPath s ∧ (psPath s ≠ ""%string → store_ok s').
Proof.
  intros [Hv Ho] Hp. apply PatchProduction_spec in Hp. destruct r as [data|e].
  - destruct Hp as (-> & Hd & -> & _). cbn. split; [done|]. split; [done|]. intros Hne. split; [done|]. cbn.
    unfold OpenProduction. rewrite (proj2 (String.eqb_neq _ _) Hne). rewrite applyPatch_members.
    by rewrite (proj2 (validateProduction_iff _) Hd).
  - destruct Hp as [-> _]. split; [done|]. split; [done|]. intros _. by split.
Qed.

Lemma serveSettings_snoc requests method body fault s :
  serveSettings (requests ++ [(method, body, fault)]) s = (productionSettings method body fault (serveSettings requests s)).2.
Proof. unfold serveSettings. by rewrite foldl_app. Qed.

(** Every history keeps the settings valid and readable. *)
Lemma serveSettings_ok requests : ∀ s,
  store_ok s → settings_valid (psData (serveSettings requests s)) ∧ psPath (serveSettings requests s) = psPath s ∧
    (psPath s ≠ ""%string → store_ok (serveSettings requests s)).
Proof.
  induction requests as [|[[method body] fault] requests IH] using rev_ind; intros s Hs; [by repeat split; try apply Hs|].
  rewrite serveSettings_snoc. destruct (IH s Hs) as (Hv & Hp & Hok). clear IH.
  set (s1 := serveSettings requests s) in *. clearbody s1. unfold productionSettings. case_match; [done|]. case_match; [|done].
  destruct body as [patch|]; [|done]. case_match; [done|]. destruct (PatchProduction fault patch s1) as [r s2] eqn:E.
  assert (settings_valid (psData s2) ∧ psPath s2 = psPath s1 ∧ (psPath s1 ≠ ""%string → store_ok s2)) as (K1 & K2 & K3).
  { destruct (String.eqb_spec (psPath s1) "") as [Hempty|Hne].
    - apply PatchProduction_spec in E. destruct r as [data|e]; [destruct E as (-> & Hd & -> & _)|destruct E as [-> _]]; done.
    - destruct (PatchProduction_ok _ _ _ _ _ (Hok ltac:(congruence)) E) as (? & ? & ?). done. }
  destruct r; cbn; (split; [done|]); (split; [congruence|]); intros; apply K3; congruence.
Qed.
