(* ===== verification/SimPoints.v ===== *)
(** * The point table of the register simulator: [tools/plc-simulator/points.go]
      and the routes of [web.go]

    Point definitions on the registers of [SimServer], the JSON file they are kept
    in, the view of a point, and the page's event channels.  Every operation runs
    under the manager's mutex; a change of a register, from the page or over
    Modbus, is reported to [onRegisterChange].  [equalFold] is
    [strings.EqualFold].  [os.WriteFile] is not atomic: a write that fails leaves
    whatever the outcome says. *)

From Stdlib Require Import Ascii String.
From stdpp Require Import pretty.
From S2P Require Import Prelude GoText Easy521 SimServer.

(** ** Data *)

Definition pointTypeBool : string := "bool".
Definition pointTypeInt16 : string := "int16".
Definition pointTypeUint16 : string := "uint16".

Record Point := mkPoint {
  ptID : string;
  ptName : string;
  ptType : string;
  ptDescription : string;
  ptAddress : string;
  ptWritable : bool
}.

Record PointInput := mkInput {
  inName : string;
  inType : string;
  inDescription : string;
  inAddress : string;
  inWritable : bool
}.

Record pointLocation := mkLocation { plRegister : Z; plBit : Z; plIsBit : bool }.
Record pointRecord := mkRecord { rcPoint : Point; rcLocation : pointLocation }.
Record pointState := mkState { psUpdatedAt : Z; psSource : string }.

#[global] Instance Point_eq_dec : EqDecision Point. Proof. solve_decision. Defined.
#[global] Instance pointLocation_eq_dec : EqDecision pointLocation. Proof. solve_decision. Defined.

Inductive point_value : Type := PVNil | PVBool (b : bool) | PVInt16 (z : Z) | PVUint16 (z : Z).

Record PointView := mkView { vwPoint : Point; vwValue : point_value; vwUpdatedAt : Z; vwSource : string }.

Record simulatorEvent := mkEvent { evType : string; evPoints : list PointView }.

Inductive invalid_point : Type :=
| IPID | IPName | IPAddress | IPRegister | IPBoolAddress | IPBit | IPType | IPWordAddress
| IPSameID | IPSameName | IPSameAddress | IPBoolValue | IPInt16Value | IPUint16Value | IPUnsupported.

Inductive point_error : Type :=
| PENotFound | PENotWritable | PEInvalid (what : invalid_point) | PEFile (e : string) | PEDecode.

(** The points file. *)
Inductive points_file : Type := NoFile | Garbled | Definitions (points : list Point).

Record PointManager := mkManager {
  pmPoints : list pointRecord;
  pmStates : gmap string pointState;
  pmNextID : Z;
  pmServer : Server;
  pmFile : points_file;
  pmEvents : gmap nat (list simulatorEvent);
  pmFaults : list (option (string * points_file))
}.

Abbreviation PointM := (GoM PointManager point_error).

(** ** Addresses *)

(** [^D([0-9]+)(?:\.([0-9]+))?$]: the register's digits, and the bit's if there is one. *)
Definition pointAddressPattern (text : string) : option (string * option string) :=
  match expect "D" text with
  | None => None
  | Some rest =>
      let '(register, rest) := span isDigit rest in
      if register =s "" then None
      else match rest with
           | EmptyString => Some (register, None)
           | String a rest =>
               let '(bit, rest) := span isDigit rest in
               if Ascii.eqb a "."%char && (bit <>s "") && (rest =s "") then Some (register, Some bit) else None
           end
  end.

Definition parsePointAddress (pointType text : string) : result point_error (pointLocation * string) :=
  match pointAddressPattern (trimSpace text) with
  | None => Err (PEInvalid IPAddress)
  | Some (registerText, bitText) =>
      match parseUint registerText 16 with
      | None => Err (PEInvalid IPRegister)
      | Some register =>
          let word := String.append "D" (pretty register) in
          if pointType =s pointTypeBool then
            match bitText with
            | None => Err (PEInvalid IPBoolAddress)
            | Some digits =>
                match parseUint digits 8 with
                | None => Err (PEInvalid IPBit)
                | Some bit =>
                    if 15 <? bit then Err (PEInvalid IPBit)
                    else Ok (mkLocation register bit true, String.append word (String "." (pretty bit)))
                end
            end
          else if (pointType <>s pointTypeInt16) && (pointType <>s pointTypeUint16) then Err (PEInvalid IPType)
          else match bitText with
               | Some _ => Err (PEInvalid IPWordAddress)
               | None => Ok (mkLocation register 0 false, word)
               end
      end
  end.

Definition sameLocation (left right : pointLocation) : bool :=
  (plRegister left =? plRegister right) && (plBit left =? plBit right) && Bool.eqb (plIsBit left) (plIsBit right).

Definition recordID (record : pointRecord) : string := ptID (rcPoint record).

(** [findLocation]; no address has the location of an unknown id. *)
Definition findLocation (records : list pointRecord) (id : string) : pointLocation :=
  match List.find (fun record => recordID record =s id) records with
  | Some record => rcLocation record
  | None => mkLocation 65535 (-1) false
  end.

(** ** Definitions *)

Section definitions.
Variable (equalFold : string → string → bool).

(** [normalizeRecord]. *)
Definition normalizeRecord (point : Point) (requireID : bool) : result point_error pointRecord :=
  let id := trimSpace (ptID point) in
  if requireID && (id =s "") then Err (PEInvalid IPID)
  else
    let name := trimSpace (ptName point) in
    if name =s "" then Err (PEInvalid IPName)
    else
      let? found := parsePointAddress (ptType point) (ptAddress point) in
      Ok (mkRecord (mkPoint id name (ptType point) (ptDescription point) found.2 (ptWritable point)) found.1).

(** What two records must not share. *)
Definition clash (record candidate : pointRecord) : result point_error unit :=
  let r := rcPoint record in
  let c := rcPoint candidate in
  if (ptID r =s ptID c) && (ptID c <>s "") then Err (PEInvalid IPSameID)
  else if equalFold (ptName r) (ptName c) then Err (PEInvalid IPSameName)
  else if (ptType r =s ptType c) && (ptAddress r =s ptAddress c) then Err (PEInvalid IPSameAddress)
  else Ok tt.

(** [validateUnique]; [skip] is the index of the record that is replaced. *)
Fixpoint validateUniqueFrom (index : nat) (records : list pointRecord) (candidate : pointRecord) (skip : option nat)
  : result point_error unit :=
  match records with
  | [] => Ok tt
  | record :: rest =>
      if bool_decide (skip = Some index) then validateUniqueFrom (S index) rest candidate skip
      else
        let? _ := clash record candidate in
        validateUniqueFrom (S index) rest candidate skip
  end.
Definition validateUnique := validateUniqueFrom 0.

Fixpoint normalizeFrom (records : list pointRecord) (points : list Point) (requireID : bool) : result point_error (list pointRecord) :=
  match points with
  | [] => Ok records
  | point :: rest =>
      let? record := normalizeRecord point requireID in
      let? _ := validateUnique records record None in
      normalizeFrom (records ++ [record]) rest requireID
  end.
Definition normalizeRecords (points : list Point) (requireID : bool) : result point_error (list pointRecord) :=
  normalizeFrom [] points requireID.

(** ** Views and events *)

Definition viewForValue (record : pointRecord) (registerValue : Z) (state : pointState) : PointView :=
  let type := ptType (rcPoint record) in
  let value :=
    if type =s pointTypeBool then PVBool (negb (Z.land registerValue (bitMask (plBit (rcLocation record))) =? 0))
    else if type =s pointTypeInt16 then PVInt16 (i16 registerValue)
    else if type =s pointTypeUint16 then PVUint16 registerValue
    else PVNil in
  mkView (rcPoint record) value (psUpdatedAt state) (psSource state).

Definition eventCapacity : nat := 32.

(** [eventBroker.publish]: a full channel misses the event. *)
Definition publish (event : simulatorEvent) (subscribers : gmap nat (list simulatorEvent)) : gmap nat (list simulatorEvent) :=
  (fun queue => if (length queue <? eventCapacity)%nat then queue ++ [event] else queue) <$> subscribers.

Definition setEvents (events : gmap nat (list simulatorEvent)) (m : PointManager) : PointManager :=
  mkManager (pmPoints m) (pmStates m) (pmNextID m) (pmServer m) (pmFile m) events (pmFaults m).

(** A new channel, a closed one, and the page that takes an event. *)
Definition subscribe (channel : nat) (m : PointManager) : PointManager := setEvents (<[channel := []]> (pmEvents m)) m.
Definition unsubscribe (channel : nat) (m : PointManager) : PointManager := setEvents (delete channel (pmEvents m)) m.
Definition receive (channel : nat) (m : PointManager) : option simulatorEvent * PointManager :=
  match pmEvents m !! channel with
  | Some (event :: rest) => (Some event, setEvents (<[channel := rest]> (pmEvents m)) m)
  | _ => (None, m)
  end.

Definition publishEvent (event : simulatorEvent) : PointM unit := gmod (fun m => setEvents (publish event (pmEvents m)) m).
Definition definitionsEvent : simulatorEvent := mkEvent "definitions" [].

(** ** The file *)

Definition setFile (file : points_file) (faults : list (option (string * points_file))) (m : PointManager) : PointManager :=
  mkManager (pmPoints m) (pmStates m) (pmNextID m) (pmServer m) file (pmEvents m) faults.

(** [saveLocked]. *)
Definition saveLocked (records : list pointRecord) : PointM unit := fun m =>
  let file := Definitions (map rcPoint records) in
  match pmFaults m with
  | [] => (Ok tt, setFile file [] m)
  | None :: rest => (Ok tt, setFile file rest m)
  | Some (e, remains) :: rest => (Err (PEFile e), setFile remains rest m)
  end.

(** [readPointDefinitions]. *)
Definition readPointDefinitions : PointM (list Point) := fun m =>
  let read :=
    match pmFile m with NoFile => Ok [] | Garbled => Err PEDecode | Definitions points => Ok points end in
  match pmFaults m with
  | [] => (read, m)
  | None :: rest => (read, setFile (pmFile m) rest m)
  | Some (e, _) :: rest => (Err (PEFile e), setFile (pmFile m) rest m)
  end.

(** ** Operations *)

Definition setTable (points : list pointRecord) (states : gmap string pointState) (m : PointManager) : PointManager :=
  mkManager points states (pmNextID m) (pmServer m) (pmFile m) (pmEvents m) (pmFaults m).

Definition definitionState (now : Z) : pointState := mkState now "definition".

(** The states of the reloaded records: kept where id and location are. *)
Definition reloadStates (now : Z) (m : PointManager) (records : list pointRecord) : gmap string pointState :=
  foldl (fun states record =>
    let id := recordID record in
    let state :=
      match pmStates m !! id with
      | Some state => if sameLocation (rcLocation record) (findLocation (pmPoints m) id) then state else definitionState now
      | None => definitionState now
      end in
    <[id := state]> states) ∅ records.

Definition Reload (now : Z) : PointM unit :=
  do! points <- readPointDefinitions;
  do! records <- glift (normalizeRecords points true);
  run! gmod (fun m => setTable records (reloadStates now m records) m);
  publishEvent definitionsEvent.

Definition stateOf (m : PointManager) (id : string) : pointState := default (mkState zeroTime "") (pmStates m !! id).

Definition viewOf (m : PointManager) (record : pointRecord) : PointView :=
  viewForValue record (svRegisters (pmServer m) (plRegister (rcLocation record))) (stateOf m (recordID record)).

Definition listPoints (m : PointManager) : list PointView := map (viewOf m) (pmPoints m).

(** [recordByIDLocked]. *)
Definition recordByID (m : PointManager) (id : string) : option pointRecord :=
  List.find (fun record => recordID record =s id) (pmPoints m).

Definition getPoint (id : string) : PointM PointView :=
  do! m <- gget;
  match recordByID m id with
  | None => gfail PENotFound
  | Some record => gret (viewOf m record)
  end.

Definition inputPoint (id : string) (input : PointInput) : Point :=
  mkPoint id (inName input) (inType input) (inDescription input) (inAddress input) (inWritable input).

Definition withID (id : string) (record : pointRecord) : pointRecord :=
  let p := rcPoint record in
  mkRecord (mkPoint id (ptName p) (ptType p) (ptDescription p) (ptAddress p) (ptWritable p)) (rcLocation record).

(** [newIDLocked]. *)
Definition newID : PointM string :=
  do! m <- gget;
  let next := u64 (pmNextID m + 1) in
  run! gput (mkManager (pmPoints m) (pmStates m) next (pmServer m) (pmFile m) (pmEvents m) (pmFaults m));
  gret (String.append "point-" (pretty next)).

Definition addPoint (now : Z) (input : PointInput) : PointM PointView :=
  do! record <- glift (normalizeRecord (inputPoint "" input) false);
  do! id <- newID;
  let record := withID id record in
  do! m <- gget;
  run! glift (validateUnique (pmPoints m) record None);
  let candidate := pmPoints m ++ [record] in
  run! saveLocked candidate;
  run! gmod (fun m => setTable candidate (<[id := definitionState now]> (pmStates m)) m);
  run! publishEvent definitionsEvent;
  do! m <- gget;
  gret (viewOf m record).

Fixpoint indexOf (records : list pointRecord) (id : string) : option nat :=
  match records with
  | [] => None
  | record :: rest => if recordID record =s id then Some 0%nat else option_map S (indexOf rest id)
  end.

Definition updatePoint (now : Z) (id : string) (input : PointInput) : PointM PointView :=
  do! record <- glift (normalizeRecord (inputPoint id input) true);
  do! m <- gget;
  match indexOf (pmPoints m) id with
  | None => gfail PENotFound
  | Some index =>
      run! glift (validateUnique (pmPoints m) record (Some index));
      let candidate := <[index := record]> (pmPoints m) in
      run! saveLocked candidate;
      run! gmod (fun m => setTable candidate (<[id := definitionState now]> (pmStates m)) m);
      run! publishEvent definitionsEvent;
      do! m <- gget;
      gret (viewForValue record (svRegisters (pmServer m) (plRegister (rcLocation record))) (stateOf m id))
  end.

Definition deletePoint (id : string) : PointM unit :=
  do! m <- gget;
  match indexOf (pmPoints m) id with
  | None => gfail PENotFound
  | Some index =>
      let candidate := take index (pmPoints m) ++ drop (S index) (pmPoints m) in
      run! saveLocked candidate;
      run! gmod (fun m => setTable candidate (delete id (pmStates m)) m);
      publishEvent definitionsEvent
  end.

(** [onRegisterChange]. *)
Definition onRegisterChange (now address value : Z) (source : string) (m : PointManager) : PointManager :=
  let state := mkState now source in
  let changed := List.filter (fun record => plRegister (rcLocation record) =? address) (pmPoints m) in
  let states := foldl (fun states record => <[recordID record := state]> states) (pmStates m) changed in
  let views := map (fun record => viewForValue record value state) changed in
  let m := setTable (pmPoints m) states m in
  match views with [] => m | _ => setEvents (publish (mkEvent "values" views) (pmEvents m)) m end.

(** The server after some requests: each of its changes is reported. *)
Definition serverChanged (now : Z) (server : Server) (m : PointManager) : PointManager :=
  let changes := drop (length (svChanges (pmServer m))) (svChanges server) in
  foldl (fun m '(address, value, source) => onRegisterChange now address value source m)
    (mkManager (pmPoints m) (pmStates m) (pmNextID m) server (pmFile m) (pmEvents m) (pmFaults m)) changes.

(** What [json.Unmarshal] makes of a raw value as a bool, an int64 and a uint64. *)
Record RawValue := mkRaw { rwBool : option bool; rwInt64 : option Z; rwUint64 : option Z }.

Definition setValue (now : Z) (id : string) (raw : RawValue) : PointM PointView :=
  do! m <- gget;
  match recordByID m id with
  | None => gfail PENotFound
  | Some record =>
      let register := plRegister (rcLocation record) in
      let type := ptType (rcPoint record) in
      if negb (ptWritable (rcPoint record)) then gfail PENotWritable
      else if type =s pointTypeBool then
        match rwBool raw with
        | None => gfail (PEInvalid IPBoolValue)
        | Some value =>
            let mask := bitMask (plBit (rcLocation record)) in
            run! gmod (serverChanged now
                   (maskWriteRegister (pmServer m) register (Z.lxor 65535 mask) (if value then mask else 0) "ui"));
            getPoint id
        end
      else if type =s pointTypeInt16 then
        match rwInt64 raw with
        | None => gfail (PEInvalid IPInt16Value)
        | Some value =>
            if (value <? -32768) || (32767 <? value) then gfail (PEInvalid IPInt16Value)
            else
              run! gmod (serverChanged now (writeRegister (pmServer m) register (u16 value) "ui"));
              getPoint id
        end
      else if type =s pointTypeUint16 then
        match rwUint64 raw with
        | None => gfail (PEInvalid IPUint16Value)
        | Some value =>
            if 65535 <? value then gfail (PEInvalid IPUint16Value)
            else
              run! gmod (serverChanged now (writeRegister (pmServer m) register (u16 value) "ui"));
              getPoint id
        end
      else gfail (PEInvalid IPUnsupported)
  end.

(** [NewPointManager]: [nextID] is the clock's nanoseconds. *)
Definition NewPointManager (fileName : string) (now nextID : Z) (server : Server) (file : points_file)
    (faults : list (option (string * points_file))) : result point_error PointManager :=
  if trimSpace fileName =s "" then Err (PEFile "points file is required")
  else match Reload now (mkManager [] ∅ (u64 nextID) server file ∅ faults) with
       | (Err e, _) => Err e
       | (Ok _, m) => Ok m
       end.

(** A Modbus request of a client. *)
Definition modbusRequest (now : Z) (pdu : list Z) (m : PointManager) : list Z * PointManager :=
  let '(response, _, server) := handlePDU (pmServer m) pdu in (response, serverChanged now server m).

(** ** The routes *)

Inductive web_response : Type :=
| WebView (status : Z) (view : PointView)
| WebList (views : list PointView)
| WebNoContent
| WebError (status : Z) (error : point_error)
| WebInvalidJSON
| WebMethod
| WebNotFound.

Definition writePointError (e : point_error) : web_response :=
  match e with
  | PENotFound => WebError 404 e
  | PENotWritable => WebError 403 e
  | PEInvalid _ => WebError 400 e
  | PEFile _ | PEDecode => WebError 500 e
  end.

Definition respond {A} (f : A → web_response) (op : PointM A) : PointManager → web_response * PointManager := fun m =>
  match op m with
  | (Ok a, m) => (f a, m)
  | (Err e, m) => (writePointError e, m)
  end.

Definition handlePoints (method : string) (now : Z) (input : option PointInput) (m : PointManager) : web_response * PointManager :=
  if method =s "GET" then (WebList (listPoints m), m)
  else if method =s "POST" then
    match input with
    | None => (WebInvalidJSON, m)
    | Some input => respond (WebView 201) (addPoint now input) m
    end
  else (WebMethod, m).

Definition handlePointValue (method id : string) (now : Z) (raw : option RawValue) (m : PointManager) : web_response * PointManager :=
  if method <>s "PUT" then (WebMethod, m)
  else match raw with
       | None => (WebInvalidJSON, m)
       | Some raw => respond (WebView 200) (setValue now id raw) m
       end.

Fixpoint trimSlashes (s : string) : string :=
  match s with
  | String a s' => if Ascii.eqb a "/"%char then trimSlashes s' else s
  | EmptyString => ""
  end.

(** [strings.Trim(s, "/")]. *)
Definition trimSlash (s : string) : string := String.rev (trimSlashes (String.rev (trimSlashes s))).

(** [path] is the request's path behind [/api/points/]. *)
Definition handlePoint (method path : string) (now : Z) (input : option PointInput) (raw : option RawValue) (m : PointManager)
  : web_response * PointManager :=
  match splitChar (trimSlash path) "/"%char with
  | [] => (WebNotFound, m)
  | id :: rest =>
      if id =s "" then (WebNotFound, m)
      else match rest with
           | [] =>
               if method =s "PUT" then
                 match input with
                 | None => (WebInvalidJSON, m)
                 | Some input => respond (WebView 200) (updatePoint now id input) m
                 end
               else if method =s "DELETE" then respond (fun _ => WebNoContent) (deletePoint id) m
               else (WebMethod, m)
           | [last] => if last =s "value" then handlePointValue method id now raw m else (WebNotFound, m)
           | _ => (WebNotFound, m)
           end
  end.
End definitions.
