(* ===== verification/SimPointsProofs.v ===== *)
(** * Proofs about the simulator's point table *)

From Stdlib Require Import Ascii String.
From stdpp Require Import pretty.
From S2P Require Import Prelude GoText Easy521 SimServer SimPoints.

(** ** Canonical addresses *)

Lemma digits_last s : allChars isDigit s = true → s ≠ "" → ∃ t b, s = String.append t (String b "") ∧ isDigit b = true.
Proof.
  induction s as [|a s IH]; [done|]. cbn [allChars]. intros [Ha Hs]%andb_true_iff _. destruct s as [|c s].
  - by exists "", a.
  - destruct (IH Hs) as (t & b & E & Hb); [done|]. exists (String a t), b. by rewrite E.
Qed.

Lemma digit_graphic b : isDigit b = true → graphic b = true.
Proof. unfold isDigit, graphic, inside. rewrite !andb_true_iff, !Z.leb_le. lia. Qed.

Lemma pretty_nonempty z : 0 ≤ z → pretty z ≠ "".
Proof. intros Hz E. by destruct (digits_nonempty z (pretty z) Hz eq_refl) as (c & rest & E' & _); rewrite E in E'. Qed.

(** A text that starts visibly and ends in a number is trimmed. *)
Lemma trimSpace_numbered a s z :
  graphic a = true → 0 ≤ z → trimSpace (String a (String.append s (pretty z))) = String a (String.append s (pretty z)).
Proof.
  intros Ha Hz. destruct (digits_last (pretty z)) as (t & b & E & Hb); [by apply pretty_digits|by apply pretty_nonempty|].
  apply (trimSpace_graphic a _ b (String a (String.append s t))); [|done|by apply digit_graphic].
  rewrite append_cons, append_assoc, <-E. done.
Qed.

Definition wordText (register : Z) : string := String.append "D" (pretty register).
Definition bitText (register bit : Z) : string := String.append (wordText register) (String "." (pretty bit)).

Lemma pattern_word register : 0 ≤ register → pointAddressPattern (wordText register) = Some (pretty register, None).
Proof.
  intros Hr. unfold pointAddressPattern, wordText. rewrite expect_append. rewrite <-(append_nil_r (pretty register)) at 1.
  rewrite span_append by first [by apply pretty_digits|done]. by rewrite (proj2 (String.eqb_neq _ _)) by by apply pretty_nonempty.
Qed.

Lemma pattern_bit register bit : 0 ≤ register → 0 ≤ bit →
  pointAddressPattern (bitText register bit) = Some (pretty register, Some (pretty bit)).
Proof.
  intros Hr Hb. unfold pointAddressPattern, bitText, wordText. rewrite append_assoc, expect_append.
  rewrite span_append by first [by apply pretty_digits|done]. rewrite (proj2 (String.eqb_neq _ _)) by by apply pretty_nonempty.
  rewrite <-(append_nil_r (pretty bit)) at 1. rewrite span_append by first [by apply pretty_digits|done].
  rewrite (proj2 (String.eqb_neq _ _)) by by apply pretty_nonempty. done.
Qed.

Lemma trim_word register : 0 ≤ register → trimSpace (wordText register) = wordText register.
Proof. intros Hr. by apply (trimSpace_numbered "D"%char ""). Qed.

Lemma trim_bit register bit : 0 ≤ register → 0 ≤ bit → trimSpace (bitText register bit) = bitText register bit.
Proof.
  intros Hr Hb. unfold bitText, wordText. rewrite append_assoc, append_cons, append_nil.
  change (String "." (pretty bit)) with (String.append "." (pretty bit)). rewrite <-append_assoc. by apply trimSpace_numbered.
Qed.

(** Where a point of a type can be. *)
Definition location_ok (type : string) (loc : pointLocation) : Prop :=
  in_range 16 (plRegister loc) ∧
  if type =s pointTypeBool then plIsBit loc = true ∧ 0 ≤ plBit loc ≤ 15
  else (type = pointTypeInt16 ∨ type = pointTypeUint16) ∧ plIsBit loc = false ∧ plBit loc = 0.

Lemma parsePointAddress_again type text loc address :
  parsePointAddress type text = Ok (loc, address) →
  parsePointAddress type address = Ok (loc, address) ∧ location_ok type loc.
Proof.
  unfold parsePointAddress at 1. destruct (pointAddressPattern (trimSpace text)) as [[registerText bits]|]; [|done].
  destruct (parseUint registerText 16) as [register|] eqn:Hr; [|done]. apply parseUint_range in Hr as Hrange. destruct Hrange as [Hr0 Hr1].
  unfold location_ok. destruct (type =s pointTypeBool) eqn:Hbool.
  - destruct bits as [digits|]; [|done]. destruct (parseUint digits 8) as [bit|] eqn:Hb; [|done].
    apply parseUint_range in Hb as [Hb0 _]. destruct (15 <? bit) eqn:Hb15; [done|]. apply Z.ltb_ge in Hb15. intros [= <- <-].
    cbn. split; [|done]. change (String.append _ (String "." (pretty bit))) with (bitText register bit).
    unfold parsePointAddress. rewrite trim_bit, pattern_bit, Hbool by done. rewrite !parseUint_pretty by (split; [done|change (2 ^ 8) with 256; lia]).
    by rewrite (proj2 (Z.ltb_ge 15 bit)) by done.
  - destruct ((type <>s pointTypeInt16) && (type <>s pointTypeUint16)) eqn:Ht; [done|]. destruct bits; [done|]. intros [= <- <-].
    cbn. split.
    + fold (wordText register). unfold parsePointAddress.
      rewrite trim_word, pattern_word, Hbool by done. rewrite parseUint_pretty by done. by rewrite Ht.
    + split; [done|]. split; [|done]. apply andb_false_iff in Ht as [Ht|Ht]; propify; auto.
Qed.

(** ** Records *)

Section definitions.
Context (equalFold : string → string → bool) (fold_sym : ∀ s t, equalFold s t = equalFold t s).

(** A record that reads as itself. *)
Definition record_ok (r : pointRecord) : Prop := normalizeRecord (rcPoint r) true = Ok r.

Lemma normalizeRecord_spec point b r :
  normalizeRecord point b = Ok r →
  recordID r = trimSpace (ptID point) ∧ trimSpace (recordID r) = recordID r ∧ ptType (rcPoint r) = ptType point ∧
  ptWritable (rcPoint r) = ptWritable point ∧
  (b = true → recordID r ≠ "") ∧
  ∀ id, trimSpace id = id → id ≠ "" → record_ok (withID id r).
Proof.
  unfold normalizeRecord. destruct (b && (trimSpace (ptID point) =s "")) eqn:Hid; [done|].
  destruct (trimSpace (ptName point) =s "") eqn:Hname; [done|].
  destruct (parsePointAddress (ptType point) (ptAddress point)) as [[loc address]|] eqn:Ha; [|done]. cbn [rbind]. intros [= <-].
  apply parsePointAddress_again in Ha as [Ha _]. unfold recordID. cbn. split; [done|]. split; [apply trimSpace_idem|].
  split; [done|]. split; [done|]. split.
  - intros -> E. by rewrite E in Hid.
  - intros id Ht Hne. unfold record_ok, withID, normalizeRecord.
    cbn [rcPoint rcLocation ptID ptName ptType ptDescription ptAddress ptWritable andb]. rewrite Ht, trimSpace_idem, Hname, Ha.
    rewrite (proj2 (String.eqb_neq _ _)) by done. done.
Qed.

Lemma withID_same r : withID (recordID r) r = r.
Proof. destruct r as [[] loc]. done. Qed.

Lemma normalizeRecord_ok point r : normalizeRecord point true = Ok r → record_ok r.
Proof.
  intros (_ & Ht & _ & _ & Hne & Hok)%normalizeRecord_spec. rewrite <-(withID_same r). apply Hok; auto.
Qed.

Lemma record_trimmed r : record_ok r → trimSpace (recordID r) = recordID r.
Proof. by intros (_ & Ht & _)%normalizeRecord_spec. Qed.

Lemma record_ok_location r : record_ok r → recordID r ≠ "" ∧ location_ok (ptType (rcPoint r)) (rcLocation r).
Proof.
  intros Hr. split; [by apply normalizeRecord_spec in Hr as (_ & _ & _ & _ & Hne & _); auto|].
  unfold record_ok, normalizeRecord in Hr. case_match; [done|]. case_match; [done|].
  destruct (parsePointAddress _ _) as [[loc address]|] eqn:Ha; [|done]. apply parsePointAddress_again in Ha as [_ Ha].
  cbn in Hr. injection Hr as Hr. rewrite <-Hr. exact Ha.
Qed.

(** ** Uniqueness *)

Lemma validateUniqueFrom_ok rs c skip : ∀ k,
  validateUniqueFrom equalFold k rs c skip = Ok tt ↔
  ∀ i r, rs !! i = Some r → skip ≠ Some (k + i)%nat → clash equalFold r c = Ok tt.
Proof.
  induction rs as [|r rs IH]; intros k; cbn [validateUniqueFrom].
  - split; [done|]. done.
  - case_bool_decide as Hs.
    + rewrite IH. split.
      * intros H [|i] r' Hi Hne; [by rewrite Nat.add_0_r in Hne|]. apply (H i r' Hi). by rewrite Nat.add_succ_r in Hne.
      * intros H i r' Hi Hne. apply (H (S i) r' Hi). by rewrite Nat.add_succ_r.
    + destruct (clash equalFold r c) as [[]|e] eqn:Hc; cbn [rbind].
      * rewrite IH. split.
        -- intros H [|i] r' Hi Hne; [by injection Hi as <-|]. apply (H i r' Hi). by rewrite Nat.add_succ_r in Hne.
        -- intros H i r' Hi Hne. apply (H (S i) r' Hi). by rewrite Nat.add_succ_r.
      * split; [done|]. intros H. rewrite <-Hc. apply (H 0%nat r); [done|]. by rewrite Nat.add_0_r.
Qed.

(** No two records clash. *)
Definition unique (rs : list pointRecord) : Prop :=
  ∀ i j r c, i ≠ j → rs !! i = Some r → rs !! j = Some c → clash equalFold r c = Ok tt.

Lemma clash_sym r c : recordID r ≠ "" → recordID c ≠ "" → clash equalFold r c = Ok tt → clash equalFold c r = Ok tt.
Proof.
  unfold clash, recordID. destruct r as [r rl], c as [c cl]. cbn [rcPoint]. intros Hr Hc.
  rewrite (String.eqb_sym (ptID c) (ptID r)), (fold_sym (ptName c) (ptName r)), (String.eqb_sym (ptType c) (ptType r)),
    (String.eqb_sym (ptAddress c) (ptAddress r)).
  by rewrite !(proj2 (String.eqb_neq _ "")) by done.
Qed.

Lemma clash_ids r c : clash equalFold r c = Ok tt → recordID c ≠ "" → recordID r ≠ recordID c.
Proof.
  unfold clash, recordID. intros H Hc E. rewrite E, String.eqb_refl, (proj2 (String.eqb_neq _ "")) in H by done. done.
Qed.

(** Well-formed definitions. *)
Definition records_ok (rs : list pointRecord) : Prop := Forall record_ok rs ∧ unique rs.

Lemma records_ok_id rs i r : records_ok rs → rs !! i = Some r → recordID r ≠ "".
Proof. intros [Hall _] Hi. apply record_ok_location. by eapply Forall_lookup_1. Qed.

Lemma records_snoc rs c :
  records_ok rs → record_ok c → validateUnique equalFold rs c None = Ok tt → records_ok (rs ++ [c]).
Proof.
  intros Hok Hc Hu. apply record_ok_location in Hc as Hid. destruct Hid as [Hid _].
  pose proof (proj1 (validateUniqueFrom_ok rs c None 0) Hu) as Hclash. split; [apply Forall_app; split; [apply Hok|by constructor]|].
  assert (∀ i r, rs !! i = Some r → clash equalFold r c = Ok tt) as H1 by (intros i r Hi; by apply (Hclash i)).
  intros i j r r' Hij [Hi|[Hil Hi]]%lookup_app_Some [Hj|[Hjl Hj]]%lookup_app_Some.
  - by apply (proj2 Hok i j).
  - apply list_lookup_singleton_Some in Hj as [_ <-]. by eapply H1.
  - apply list_lookup_singleton_Some in Hi as [_ <-]. apply clash_sym; [by eapply records_ok_id|done|by eapply H1].
  - apply list_lookup_singleton_Some in Hi as [Hi _]. apply list_lookup_singleton_Some in Hj as [Hj _]. lia.
Qed.

Lemma records_insert rs index c :
  records_ok rs → record_ok c → validateUnique equalFold rs c (Some index) = Ok tt → records_ok (<[index := c]> rs).
Proof.
  intros Hok Hc Hu. apply record_ok_location in Hc as Hid. destruct Hid as [Hid _].
  pose proof (proj1 (validateUniqueFrom_ok rs c (Some index) 0) Hu) as Hclash. split; [apply Forall_insert; [apply Hok|done]|].
  intros i j r r' Hij Hi Hj. apply list_lookup_insert_Some in Hi, Hj.
  destruct Hi as [(-> & -> & Hl)|[Hi Hri]], Hj as [(-> & -> & _)|[Hj Hrj]]; [done| | |by apply (proj2 Hok i j)].
  - apply clash_sym; [by eapply records_ok_id|done|]. apply (Hclash j r' Hrj). intros [= ->]. done.
  - apply (Hclash i r Hri). intros [= ->]. done.
Qed.

Lemma records_delete rs index : records_ok rs → records_ok (take index rs ++ drop (S index) rs).
Proof.
  intros [Hall Hu]. rewrite <-delete_take_drop. split; [by apply Forall_delete|].
  intros i j r r' Hij. rewrite !list_lookup_delete. intros Hi Hj. repeat case_decide; (eapply (Hu _ _ r r'); [|exact Hi|exact Hj]); lia.
Qed.
End definitions.

(** ** Reading a file again *)

Section reading.
Context (equalFold : string → string → bool) (fold_sym : ∀ s t, equalFold s t = equalFold t s).

Lemma normalizeFrom_ok points : ∀ pre rs,
  records_ok equalFold pre → normalizeFrom equalFold pre points true = Ok rs → records_ok equalFold rs.
Proof.
  induction points as [|point points IH]; intros pre rs Hpre; cbn [normalizeFrom]; [by intros [= <-]|].
  destruct (normalizeRecord point true) as [r|] eqn:Hr; [|done]. cbn [rbind].
  destruct (validateUnique equalFold pre r None) as [[]|] eqn:Hu; [|done]. cbn [rbind].
  apply IH. by apply records_snoc; [..|eapply normalizeRecord_ok|].
Qed.

Lemma normalizeFrom_again rs : ∀ pre,
  records_ok equalFold (pre ++ rs) → normalizeFrom equalFold pre (map rcPoint rs) true = Ok (pre ++ rs).
Proof.
  induction rs as [|r rs IH]; intros pre Hok; cbn [normalizeFrom map]; [by rewrite app_nil_r|].
  pose proof Hok as [Hall Hu]. rewrite Forall_app, Forall_cons in Hall. destruct Hall as (_ & Hr & _). rewrite Hr. cbn [rbind].
  assert (validateUnique equalFold pre r None = Ok tt) as ->.
  { apply validateUniqueFrom_ok. intros i c Hi _. apply (Hu i (length pre)).
    - apply lookup_lt_Some in Hi. lia.
    - by apply lookup_app_l_Some.
    - by rewrite list_lookup_middle. }
  cbn [rbind]. rewrite (IH (pre ++ [r])); by rewrite <-app_assoc.
Qed.

(** The definitions of a table are read back as the table. *)
Lemma normalizeRecords_again rs : records_ok equalFold rs → normalizeRecords equalFold (map rcPoint rs) true = Ok rs.
Proof. intros Hok. by apply (normalizeFrom_again rs []). Qed.

Lemma no_records : records_ok equalFold [].
Proof. split; [constructor|]. intros i j r c _ Hi. by rewrite lookup_nil in Hi. Qed.

(** ** Ids *)

Definition recordIDs (rs : list pointRecord) : gset string := list_to_set (map recordID rs).

Lemma ids_nodup rs : records_ok equalFold rs → NoDup (map recordID rs).
Proof.
  intros Hok. apply NoDup_alt. intros i j id Hi Hj. destruct (decide (i = j)) as [|Hij]; [done|exfalso].
  rewrite list_lookup_fmap in Hi, Hj. destruct (rs !! i) as [r|] eqn:Er; [|done]. destruct (rs !! j) as [c|] eqn:Ec; [|done].
  injection Hi as <-. injection Hj as Hj. apply (clash_ids equalFold r c); [by apply (proj2 Hok i j)|by eapply records_ok_id|done].
Qed.

Lemma find_id rs r : records_ok equalFold rs → r ∈ rs → List.find (fun record => recordID record =s recordID r) rs = Some r.
Proof.
  intros Hok Hin. pose proof (ids_nodup rs Hok) as Hn. clear Hok. induction rs as [|c rs IH]; [by apply not_elem_of_nil in Hin|].
  cbn [map List.find] in *. apply NoDup_cons in Hn as [Hc Hn]. apply elem_of_cons in Hin as [->|Hin]; [by rewrite String.eqb_refl|].
  rewrite (proj2 (String.eqb_neq _ _)); [by apply IH|]. intros E. apply Hc. rewrite E. by apply list_elem_of_fmap_2.
Qed.

Lemma find_id_Some rs id r : List.find (fun record => recordID record =s id) rs = Some r → r ∈ rs ∧ recordID r = id.
Proof. intros [Hin E%String.eqb_eq]%find_some. split; [by apply list_elem_of_In|done]. Qed.

Lemma indexOf_Some rs id index : indexOf rs id = Some index → ∃ r, rs !! index = Some r ∧ recordID r = id.
Proof.
  revert index. induction rs as [|c rs IH]; intros index; cbn [indexOf]; [done|].
  destruct (String.eqb_spec (recordID c) id) as [E|E]; [intros [= <-]; by exists c|].
  destruct (indexOf rs id) as [k|]; [|done]. intros [= <-]. destruct (IH k eq_refl) as (r & Hr & Hid). by exists r.
Qed.

Lemma recordIDs_snoc rs r : recordIDs (rs ++ [r]) = recordIDs rs ∪ {[recordID r]}.
Proof. unfold recordIDs. rewrite map_app, list_to_set_app_L. cbn. by rewrite union_empty_r_L. Qed.

Lemma recordIDs_insert rs index r c :
  rs !! index = Some c → recordID c = recordID r → recordIDs (<[index := r]> rs) = recordIDs rs.
Proof.
  intros Hc E. unfold recordIDs. f_equal. rewrite list_fmap_insert. apply list_insert_id. by rewrite list_lookup_fmap, Hc, <-E.
Qed.

Lemma recordIDs_delete rs index c :
  records_ok equalFold rs → rs !! index = Some c →
  recordIDs (take index rs ++ drop (S index) rs) = recordIDs rs ∖ {[recordID c]}.
Proof.
  intros Hok Hc. pose proof (ids_nodup rs Hok) as Hn. unfold recordIDs.
  rewrite <-(take_drop_middle rs index c Hc) in Hn at 1. rewrite <-(take_drop_middle rs index c Hc) at 3.
  rewrite !map_app in *. cbn [map] in *. apply NoDup_app in Hn as (_ & Hd & Hn). apply NoDup_cons in Hn as [Hc' _].
  rewrite !list_to_set_app_L, list_to_set_cons. apply set_eq. intros id. rewrite elem_of_difference, !elem_of_union, elem_of_singleton, !elem_of_list_to_set.
  split; [|by intuition]. intros [H|H]; split; auto; intros ->; [|done].
  apply (Hd _ H). by left.
Qed.
End reading.

(** ** The invariant of a table *)

Lemma fold_states_out (g : pointRecord → pointState) rs id : ∀ base : gmap string pointState,
  id ∉ map recordID rs → foldl (fun states r => <[recordID r := g r]> states) base rs !! id = base !! id.
Proof.
  induction rs as [|r rs IH]; intros base Hid; cbn [foldl map] in *; [done|]. apply not_elem_of_cons in Hid as [Hne Hid].
  rewrite IH by done. by rewrite lookup_insert_ne.
Qed.

Lemma fold_states_in (g : pointRecord → pointState) rs r : ∀ base : gmap string pointState,
  NoDup (map recordID rs) → r ∈ rs → foldl (fun states r => <[recordID r := g r]> states) base rs !! recordID r = Some (g r).
Proof.
  induction rs as [|c rs IH]; intros base Hn Hr; [by apply not_elem_of_nil in Hr|].
  cbn [foldl map] in *. apply NoDup_cons in Hn as [Hc Hn]. apply elem_of_cons in Hr as [->|Hr]; [|by apply IH].
  rewrite fold_states_out by done. by rewrite lookup_insert_eq.
Qed.

Lemma fold_states_dom (g : pointRecord → pointState) rs : ∀ base : gmap string pointState,
  dom (foldl (fun states r => <[recordID r := g r]> states) base rs) = dom base ∪ recordIDs rs.
Proof.
  induction rs as [|r rs IH]; intros base; cbn [foldl]; [unfold recordIDs; cbn; by rewrite union_empty_r_L|].
  rewrite IH, dom_insert_L. unfold recordIDs. cbn [map]. rewrite list_to_set_cons. set_solver.
Qed.

Section table.
Context (equalFold : string → string → bool) (fold_sym : ∀ s t, equalFold s t = equalFold t s).

Record table_ok (m : PointManager) : Prop := {
  to_records : records_ok equalFold (pmPoints m);
  to_states : dom (pmStates m) = recordIDs (pmPoints m);
  to_events : map_Forall (fun _ queue => (length queue ≤ eventCapacity)%nat) (pmEvents m);
  to_registers : registers_ok (pmServer m)
}.

(** The file reads as the table. *)
Definition in_sync (m : PointManager) : Prop :=
  match pmFile m with
  | NoFile => pmPoints m = []
  | Definitions points => normalizeRecords equalFold points true = Ok (pmPoints m)
  | Garbled => False
  end.

(** What an operation must do: keep the invariant; when it fails, leave the table
    and the registers; and keep the file in step as long as no write fails. *)
Definition op_ok (m m' : PointManager) (failed : bool) : Prop :=
  table_ok m' ∧
  (failed = true → pmPoints m' = pmPoints m ∧ pmStates m' = pmStates m ∧ pmServer m' = pmServer m) ∧
  (pmFaults m = [] → pmFaults m' = [] ∧ (in_sync m → in_sync m')).

Lemma op_ok_refl m failed : table_ok m → op_ok m m failed.
Proof. intros Hm. repeat split; try apply Hm; auto. Qed.

Lemma publish_bounded event events :
  map_Forall (fun _ queue => (length queue ≤ eventCapacity)%nat) events →
  map_Forall (fun _ queue => (length queue ≤ eventCapacity)%nat) (publish event events).
Proof.
  intros He i queue Hi. unfold publish in Hi. apply lookup_fmap_Some in Hi as (old & <- & Hold). specialize (He i old Hold). cbn in He.
  destruct (Nat.ltb_spec (length old) eventCapacity); [|done]. rewrite length_app. cbn. lia.
Qed.

Lemma setEvents_ok m events :
  table_ok m → map_Forall (fun _ queue => (length queue ≤ eventCapacity)%nat) events → table_ok (setEvents events m).
Proof. intros [H1 H2 H3 H4] He. by split. Qed.

Lemma setFile_ok m file faults : table_ok m → table_ok (setFile file faults m).
Proof. intros [H1 H2 H3 H4]. by split. Qed.

Lemma setTable_ok m points states :
  table_ok m → records_ok equalFold points → dom states = recordIDs points → table_ok (setTable points states m).
Proof. intros [H1 H2 H3 H4] Hp Hs. by split. Qed.

(** *** Registers *)

Lemma onRegisterChange_ok now address value source m :
  table_ok m →
  let m' := onRegisterChange now address value source m in
  table_ok m' ∧ pmPoints m' = pmPoints m ∧ pmServer m' = pmServer m ∧ pmFile m' = pmFile m ∧ pmFaults m' = pmFaults m ∧
  pmNextID m' = pmNextID m.
Proof.
  intros Hm. unfold onRegisterChange. set (changed := List.filter _ (pmPoints m)).
  assert (table_ok (setTable (pmPoints m)
    (foldl (fun states record => <[recordID record := mkState now source]> states) (pmStates m) changed) m)) as Ht.
  { apply setTable_ok; [done|apply Hm|]. rewrite (fold_states_dom (fun _ => mkState now source)), (to_states _ Hm).
    assert (recordIDs changed ⊆ recordIDs (pmPoints m)); [|set_solver].
    intros id. unfold recordIDs. rewrite !elem_of_list_to_set, !list_elem_of_fmap. intros (r & -> & Hr). exists r. split; [done|].
    apply list_elem_of_In in Hr. apply filter_In in Hr as [Hr _]. by apply list_elem_of_In. }
  destruct (map _ changed); cbn; [repeat split; done || apply Ht|]. split; [|done].
  apply (setEvents_ok (setTable _ _ m)); [done|]. apply publish_bounded, (to_events _ Ht).
Qed.

Lemma serverChanged_ok now server m :
  table_ok m → registers_ok server →
  let m' := serverChanged now server m in
  table_ok m' ∧ pmPoints m' = pmPoints m ∧ pmServer m' = server ∧ pmFile m' = pmFile m ∧ pmFaults m' = pmFaults m ∧
  pmNextID m' = pmNextID m.
Proof.
  intros Hm Hs. unfold serverChanged. generalize (drop (length (svChanges (pmServer m))) (svChanges server)). intros changes.
  set (m0 := mkManager _ _ _ server _ _ _).
  assert (table_ok m0) as H0 by (destruct Hm; by split).
  assert (∀ m1, table_ok m1 → let m' := foldl (fun m '(address, value, source) => onRegisterChange now address value source m) m1 changes in
    table_ok m' ∧ pmPoints m' = pmPoints m1 ∧ pmServer m' = pmServer m1 ∧ pmFile m' = pmFile m1 ∧ pmFaults m' = pmFaults m1 ∧
    pmNextID m' = pmNextID m1) as Hfold; [|exact (Hfold m0 H0)].
  clear m0 H0. induction changes as [|[[a v] source] changes IH]; intros m1 Hm1; cbn [foldl]; [done|].
  destruct (onRegisterChange_ok now a v source m1 Hm1) as (H1 & H2 & H3 & H4 & H5 & H6).
  destruct (IH _ H1) as (K1 & K2 & K3 & K4 & K5 & K6). repeat split; try apply K1; congruence.
Qed.

(** Changes of registers are no changes of the table. *)
Lemma serverChanged_op now server m : table_ok m → registers_ok server → op_ok m (serverChanged now server m) false.
Proof.
  intros Hm Hs. destruct (serverChanged_ok now server m Hm Hs) as (H1 & H2 & H3 & H4 & H5 & _). split; [done|]. split; [done|].
  intros Hf. split; [by rewrite H5|]. unfold in_sync. by rewrite H2, H4.
Qed.

Lemma writeRegister_ok sv address value source : registers_ok sv → in_range 16 value → registers_ok (writeRegister sv address value source).
Proof. intros Hs Hv a. cbn. unfold setRegister. by case_match. Qed.

Lemma mask_range current andMask orMask :
  in_range 16 current → in_range 16 andMask → in_range 16 orMask → in_range 16 (maskWriteValue current andMask orMask).
Proof.
  intros Hc Ha Ho. unfold maskWriteValue, in_range in *. split.
  - apply Z.lor_nonneg. split; [apply Z.land_nonneg; lia|apply Z.ldiff_nonneg; lia].
  - destruct (Z.eq_dec (Z.lor (Z.land current andMask) (Z.ldiff orMask andMask)) 0) as [->|Hne]; [lia|].
    apply Z.log2_lt_pow2; [apply Z.le_neq; split; [apply Z.lor_nonneg; split; [apply Z.land_nonneg|apply Z.ldiff_nonneg]; lia|done]|].
    destruct (Z.lt_ge_cases (Z.log2 (Z.lor (Z.land current andMask) (Z.ldiff orMask andMask))) 16) as [|Hge]; [done|exfalso].
    pose proof (Z.bit_log2 (Z.lor (Z.land current andMask) (Z.ldiff orMask andMask))) as Hb.
    assert (0 < Z.lor (Z.land current andMask) (Z.ldiff orMask andMask)) as Hpos.
    { apply Z.le_neq. split; [apply Z.lor_nonneg; split; [apply Z.land_nonneg|apply Z.ldiff_nonneg]; lia|done]. }
    specialize (Hb Hpos). rewrite Z.lor_spec, Z.land_spec, Z.ldiff_spec in Hb.
    rewrite (u16_testbit_high current), (u16_testbit_high orMask) in Hb by (done || lia). done.
Qed.

Lemma maskWriteRegister_ok sv address andMask orMask source :
  registers_ok sv → in_range 16 andMask → in_range 16 orMask → registers_ok (maskWriteRegister sv address andMask orMask source).
Proof. intros Hs Ha Ho a. cbn. unfold setRegister. case_match; [|apply Hs]. apply mask_range; [apply Hs|done|done]. Qed.

Lemma byteAt_ok l i : Forall byte_ok l → byte_ok (byteAt l i).
Proof.
  unfold byteAt. intros Hl. revert i. induction Hl as [|b l Hb Hl IH]; intros [|i]; cbn [nth]; try done; split; vm_compute; congruence.
Qed.

Lemma handlePDU_ok sv pdu : registers_ok sv → Forall byte_ok pdu → registers_ok (handlePDU sv pdu).2.
Proof.
  intros Hs Hp. unfold handlePDU. destruct pdu as [|function rest]; [done|]. case_match; [done|]. case_match; [|done].
  unfold handleMaskWriteRegister. case_match; [done|]. cbn [snd].
  assert (∀ i, in_range 16 (u16At (function :: rest) i)) as Hu.
  { intros i. unfold u16At. by apply getU16_range; apply byteAt_ok. }
  apply maskWriteRegister_ok; done.
Qed.
End table.

(** ** Operations *)

Section operations.
Context (equalFold : string → string → bool) (fold_sym : ∀ s t, equalFold s t = equalFold t s).

Lemma saveLocked_spec records m r m' :
  saveLocked records m = (r, m') →
  ∃ file faults, m' = setFile file faults m ∧
    match r with
    | Ok _ => file = Definitions (map rcPoint records)
    | Err _ => pmFaults m ≠ []
    end ∧ (pmFaults m = [] → faults = []).
Proof.
  unfold saveLocked. destruct (pmFaults m) as [|[[e remains]|] faults]; intros [= <- <-]; by do 2 eexists.
Qed.

(** A save, and then the table that was saved. *)
Lemma save_ok records states m m1 :
  table_ok equalFold m → records_ok equalFold records → dom states = recordIDs records →
  saveLocked records m = (Ok tt, m1) →
  let m' := setEvents (publish definitionsEvent (pmEvents m1)) (setTable records states m1) in
  op_ok equalFold m m' false.
Proof.
  intros Hm Hr Hd Hs. apply saveLocked_spec in Hs as (file & faults & -> & -> & Hf). cbn. split.
  - apply setEvents_ok; [by apply setTable_ok; [apply setFile_ok|..]|]. apply publish_bounded, (to_events _ _ Hm).
  - split; [done|]. intros H0. split; [by apply Hf|]. intros _. by apply normalizeRecords_again.
Qed.

Lemma save_failed records m e m1 :
  table_ok equalFold m → saveLocked records m = (Err e, m1) → op_ok equalFold m m1 true.
Proof.
  intros Hm Hs. apply saveLocked_spec in Hs as (file & faults & -> & Hf & _). split; [by apply setFile_ok|]. split; [done|].
  intros H0. done.
Qed.

Lemma getPoint_state id m r m' : getPoint id m = (r, m') → m' = m.
Proof. unfold getPoint, gbind, gget. by destruct (recordByID m id); intros [= _ <-]. Qed.

Lemma Reload_ok now m r m' :
  table_ok equalFold m → Reload equalFold now m = (r, m') → op_ok equalFold m m' (negb (is_ok r)).
Proof.
  intros Hm. unfold Reload, gbind. destruct (readPointDefinitions m) as [[points|e] m1] eqn:Er.
  2: { intros [= <- <-]. revert Er. unfold readPointDefinitions. destruct (pmFaults m) as [|[[? ?]|] ?] eqn:Ef;
         intros [= ? <-]; (split; [try done; by apply setFile_ok|]); split; try done; intros E0; first [discriminate E0|congruence|by split]. }
  assert (∃ faults, m1 = setFile (pmFile m) faults m ∧ (pmFaults m = [] → faults = []) ∧
     match pmFile m with NoFile => points = [] | Garbled => False | Definitions ps => points = ps end) as (faults & -> & Hf & Hp).
  { revert Er. unfold readPointDefinitions. destruct (pmFaults m) as [|[[? ?]|] ?] eqn:Ef; intros [= E <-].
    - exists []. split; [by destruct m; cbn in *; subst|]. split; [done|]. by destruct (pmFile m); simplify_eq.
    - eexists. split; [done|]. split; [done|]. by destruct (pmFile m); simplify_eq. }
  unfold glift. destruct (normalizeRecords equalFold points true) as [records|e] eqn:Hn.
  2: { intros [= <- <-]. split; [by apply setFile_ok|]. split; [done|]. intros E0. split; [by apply Hf|done]. }
  unfold gmod, publishEvent. intros [= <- <-]. cbn [negb is_ok].
  pose proof (normalizeFrom_ok equalFold fold_sym points [] records (no_records equalFold) Hn) as Hok. split; [|split; [done|]].
  - apply setEvents_ok; [apply setTable_ok; [by apply setFile_ok|done|]|apply publish_bounded, (to_events _ _ Hm)].
    unfold reloadStates. cbn [pmStates pmPoints setFile]. rewrite (fold_states_dom (fun record =>
      match pmStates m !! recordID record with
      | Some state => if sameLocation (rcLocation record) (findLocation (pmPoints m) (recordID record)) then state else definitionState now
      | None => definitionState now
      end)). by rewrite dom_empty_L, union_empty_l_L.
  - intros E0. split; [by apply Hf|]. intros _. unfold in_sync. cbn. destruct (pmFile m); [subst; by injection Hn as <-|done|by subst].
Qed.

Lemma addPoint_ok now input m r m' :
  (∀ z, trimSpace (String.append "point-" (pretty (u64 z))) = String.append "point-" (pretty (u64 z))) →
  table_ok equalFold m → addPoint equalFold now input m = (r, m') → op_ok equalFold m m' (negb (is_ok r)).
Proof.
  intros Htrim Hm. unfold addPoint, gbind, glift. destruct (normalizeRecord _ false) as [r0|e] eqn:Hn; [|intros [= <- <-]; by apply op_ok_refl].
  unfold newID, gbind, gget, gput, gret. set (next := u64 (pmNextID m + 1)). set (id := String.append "point-" (pretty next)).
  set (m1 := mkManager _ _ next _ _ _ _). assert (table_ok equalFold m1) as Hm1 by (destruct Hm; by split).
  assert (∀ m2 failed, op_ok equalFold m1 m2 failed → op_ok equalFold m m2 failed) as Hsame by (intros m2 failed H; exact H).
  cbn [pmPoints]. change (pmPoints m1) with (pmPoints m).
  destruct (validateUnique equalFold (pmPoints m) (withID id r0) None) as [[]|e] eqn:Hu; [|intros [= <- <-]; by apply Hsame, op_ok_refl].
  assert (record_ok (withID id r0)) as Hr.
  { apply normalizeRecord_spec in Hn as (_ & _ & _ & _ & _ & Hok). apply Hok; [apply Htrim|done]. }
  pose proof (records_snoc equalFold fold_sym _ _ (to_records _ _ Hm) Hr Hu) as Hrs.
  destruct (saveLocked (pmPoints m ++ [withID id r0]) m1) as [[[]|e] m2] eqn:Es; [|intros [= <- <-]; by eapply Hsame, save_failed].
  unfold gmod, publishEvent. intros [= <- <-]. apply Hsame. apply (save_ok _ (<[id := definitionState now]> (pmStates m2))) in Es; try done.
  apply saveLocked_spec in Es as (file & faults & -> & _). cbn [pmStates setFile m1]. rewrite dom_insert_L, (to_states _ _ Hm), recordIDs_snoc.
  change (recordID (withID id r0)) with id. set_solver.
Qed.

Lemma updatePoint_ok now id input m r m' :
  table_ok equalFold m → updatePoint equalFold now id input m = (r, m') → op_ok equalFold m m' (negb (is_ok r)).
Proof.
  intros Hm. unfold updatePoint, gbind, glift. destruct (normalizeRecord _ true) as [r0|e] eqn:Hn; [|intros [= <- <-]; by apply op_ok_refl].
  unfold gget, gfail. destruct (indexOf (pmPoints m) id) as [index|] eqn:Hi; [|intros [= <- <-]; by apply op_ok_refl].
  destruct (validateUnique equalFold (pmPoints m) r0 (Some index)) as [[]|e] eqn:Hu; [|intros [= <- <-]; by apply op_ok_refl].
  pose proof (records_insert equalFold fold_sym _ _ _ (to_records _ _ Hm) (normalizeRecord_ok _ _ Hn) Hu) as Hrs.
  apply indexOf_Some in Hi as (old & Hold & Hid).
  destruct (saveLocked (<[index := r0]> (pmPoints m)) m) as [[[]|e] m2] eqn:Es; [|intros [= <- <-]; by eapply save_failed].
  unfold gmod, publishEvent, gret. intros [= <- <-].
  apply (save_ok _ (<[id := definitionState now]> (pmStates m2))) in Es; try done.
  apply saveLocked_spec in Es as (file & faults & -> & _). cbn [pmStates setFile]. rewrite dom_insert_L, (to_states _ _ Hm).
  assert (recordID r0 = id) as Hr0.
  { apply normalizeRecord_spec in Hn as (-> & _). cbn. rewrite <-Hid. by apply record_trimmed, (Forall_lookup_1 _ _ _ _ (proj1 (to_records _ _ Hm)) Hold). }
  rewrite (recordIDs_insert (pmPoints m) index r0 old) by congruence.
  assert (id ∈ recordIDs (pmPoints m)); [|set_solver]. unfold recordIDs. rewrite elem_of_list_to_set, <-Hid.
  apply list_elem_of_fmap_2. by eapply list_elem_of_lookup_2.
Qed.

Lemma deletePoint_ok id m r m' :
  table_ok equalFold m → deletePoint id m = (r, m') → op_ok equalFold m m' (negb (is_ok r)).
Proof.
  intros Hm. unfold deletePoint, gbind, gget, gfail. destruct (indexOf (pmPoints m) id) as [index|] eqn:Hi; [|intros [= <- <-]; by apply op_ok_refl].
  apply indexOf_Some in Hi as (old & Hold & Hid).
  destruct (saveLocked (take index (pmPoints m) ++ drop (S index) (pmPoints m)) m) as [[[]|e] m2] eqn:Es; [|intros [= <- <-]; by eapply save_failed].
  unfold gmod, publishEvent. intros [= <- <-].
  apply (save_ok _ (delete id (pmStates m2))) in Es; try done.
  - by apply records_delete, (to_records _ _ Hm).
  - apply saveLocked_spec in Es as (file & faults & -> & _). cbn [pmStates setFile]. rewrite dom_delete_L, (to_states _ _ Hm), <-Hid.
    symmetry. apply (recordIDs_delete equalFold); [apply (to_records _ _ Hm)|done].
Qed.

Lemma mask_of_bit bit : in_range 16 (bitMask bit).
Proof. by apply wrap_range. Qed.

Lemma notMask_range bit : 0 ≤ bit ≤ 15 → in_range 16 (Z.lxor 65535 (bitMask bit)).
Proof.
  intros Hb. set (inRange16 z := (0 <=? z) && (z <? 65536)).
  assert (inRange16 (Z.lxor 65535 (bitMask bit)) = true) as H.
  { apply (below_all 16 (fun bit => inRange16 (Z.lxor 65535 (bitMask bit)))); [vm_compute; reflexivity|lia]. }
  unfold inRange16 in H. propify. unfold in_range. change (2 ^ 16) with 65536. lia.
Qed.

Lemma setValue_ok now id raw m r m' :
  table_ok equalFold m → setValue now id raw m = (r, m') → op_ok equalFold m m' (negb (is_ok r)).
Proof.
  intros Hm. unfold setValue, gbind, gget, gfail. destruct (recordByID m id) as [record|] eqn:Hrec; [|intros [= <- <-]; by apply op_ok_refl].
  destruct (negb (ptWritable (rcPoint record))); [intros [= <- <-]; by apply op_ok_refl|].
  apply find_id_Some in Hrec as Hin. destruct Hin as [Hin Hid].
  pose proof (proj1 (Forall_forall _ _) (proj1 (to_records _ _ Hm)) record Hin) as Hr. apply record_ok_location in Hr as [_ [_ Hloc]].
  assert (∀ server, registers_ok server → ∀ r m', getPoint id (serverChanged now server m) = (r, m') →
    op_ok equalFold m m' (negb (is_ok r))) as Hget.
  { intros server Hs r1 m1 Hg. apply getPoint_state in Hg as E. subst m1.
    destruct (serverChanged_ok equalFold fold_sym now server m Hm Hs) as (_ & H2 & _).
    unfold getPoint, gbind, gget, recordByID in Hg. rewrite H2 in Hg. unfold recordByID in Hrec. rewrite Hrec in Hg. injection Hg as <-.
    by apply serverChanged_op. }
  unfold gmod. pose proof (to_registers _ _ Hm) as Hregs.
  destruct (ptType (rcPoint record) =s pointTypeBool).
  { destruct (rwBool raw) as [value|]; [|intros [= <- <-]; by apply op_ok_refl]. apply Hget. apply maskWriteRegister_ok; [done| |].
    - apply notMask_range, Hloc.
    - destruct value; [apply mask_of_bit|done]. }
  destruct (ptType (rcPoint record) =s pointTypeInt16).
  { destruct (rwInt64 raw) as [value|]; [|intros [= <- <-]; by apply op_ok_refl]. case_match; [intros [= <- <-]; by apply op_ok_refl|].
    apply Hget. apply writeRegister_ok; [done|by apply wrap_range]. }
  destruct (ptType (rcPoint record) =s pointTypeUint16).
  { destruct (rwUint64 raw) as [value|]; [|intros [= <- <-]; by apply op_ok_refl]. case_match; [intros [= <- <-]; by apply op_ok_refl|].
    apply Hget. apply writeRegister_ok; [done|by apply wrap_range]. }
  intros [= <- <-]. by apply op_ok_refl.
Qed.
End operations.

(** ** Histories *)

Lemma trim_new_id z : trimSpace (String.append "point-" (pretty (u64 z))) = String.append "point-" (pretty (u64 z)).
Proof. apply (trimSpace_numbered "p"%char "oint-"); [done|]. apply (wrap_range 64 z). lia. Qed.

Inductive point_op : Type :=
| OpReload (now : Z)
| OpAdd (now : Z) (input : PointInput)
| OpUpdate (now : Z) (id : string) (input : PointInput)
| OpDelete (id : string)
| OpSetValue (now : Z) (id : string) (raw : RawValue)
| OpModbus (now : Z) (pdu : list Z)
| OpSubscribe (channel : nat)
| OpUnsubscribe (channel : nat)
| OpReceive (channel : nat)
| OpEdit (file : points_file) (faults : list (option (string * points_file))).

Definition op_bytes (op : point_op) : Prop := match op with OpModbus _ pdu => Forall byte_ok pdu | _ => True end.
(** Whether an operation is the program's, on a file system that works. *)
Definition op_undisturbed (op : point_op) : Prop := match op with OpEdit _ _ => False | _ => True end.

Section histories.
Context (equalFold : string → string → bool) (fold_sym : ∀ s t, equalFold s t = equalFold t s).

Definition run_op (op : point_op) (m : PointManager) : PointManager :=
  match op with
  | OpReload now => (Reload equalFold now m).2
  | OpAdd now input => (addPoint equalFold now input m).2
  | OpUpdate now id input => (updatePoint equalFold now id input m).2
  | OpDelete id => (deletePoint id m).2
  | OpSetValue now id raw => (setValue now id raw m).2
  | OpModbus now pdu => (modbusRequest now pdu m).2
  | OpSubscribe channel => subscribe channel m
  | OpUnsubscribe channel => unsubscribe channel m
  | OpReceive channel => (receive channel m).2
  | OpEdit file faults => setFile file faults m
  end.

Definition run_ops (ops : list point_op) (m : PointManager) : PointManager := foldl (fun m op => run_op op m) m ops.

Lemma run_op_ok op m :
  table_ok equalFold m → op_bytes op → table_ok equalFold (run_op op m) ∧
  (op_undisturbed op → pmFaults m = [] → pmFaults (run_op op m) = [] ∧ (in_sync equalFold m → in_sync equalFold (run_op op m))).
Proof.
  intros Hm Hb.
  assert (∀ m' failed, op_ok equalFold m m' failed →
    table_ok equalFold m' ∧ (op_undisturbed op → pmFaults m = [] → pmFaults m' = [] ∧ (in_sync equalFold m → in_sync equalFold m'))) as Hop
    by (intros m' failed (H1 & _ & H3); auto).
  assert (∀ events, map_Forall (fun _ queue => (length queue ≤ eventCapacity)%nat) events → op_ok equalFold m (setEvents events m) false) as Hev.
  { intros events He. split; [by apply setEvents_ok|]. split; [done|]. done. }
  pose proof (to_events _ _ Hm) as He.
  destruct op as [now|now input|now id input|id|now id raw|now pdu|channel|channel|channel|file faults]; cbn [run_op].
  - destruct (Reload equalFold now m) as [r m'] eqn:E. by eapply Hop, (Reload_ok equalFold fold_sym).
  - destruct (addPoint equalFold now input m) as [r m'] eqn:E. by eapply Hop, (addPoint_ok equalFold fold_sym); [apply trim_new_id|..].
  - destruct (updatePoint equalFold now id input m) as [r m'] eqn:E. by eapply Hop, (updatePoint_ok equalFold fold_sym).
  - destruct (deletePoint id m) as [r m'] eqn:E. by eapply Hop, (deletePoint_ok equalFold).
  - destruct (setValue now id raw m) as [r m'] eqn:E. by eapply Hop, (setValue_ok equalFold fold_sym).
  - unfold modbusRequest. destruct (handlePDU (pmServer m) pdu) as [[response what] server] eqn:E. apply (Hop _ false).
    apply (serverChanged_op equalFold fold_sym); [done|]. pose proof (handlePDU_ok (pmServer m) pdu (to_registers _ _ Hm) Hb) as Hs.
    by rewrite E in Hs.
  - apply (Hop _ false), Hev. apply map_Forall_insert_2; [unfold eventCapacity; cbn; lia|done].
  - apply (Hop _ false), Hev. by apply map_Forall_delete.
  - unfold receive. destruct (pmEvents m !! channel) as [[|event queue]|] eqn:E; try by apply (Hop _ false), op_ok_refl.
    apply (Hop _ false), Hev. apply map_Forall_insert_2; [|done]. specialize (He channel _ E). cbn in He. lia.
  - split; [by apply setFile_ok|]. done.
Qed.

Lemma run_ops_ok ops : ∀ m,
  table_ok equalFold m → Forall op_bytes ops → table_ok equalFold (run_ops ops m) ∧
  (Forall op_undisturbed ops → pmFaults m = [] → in_sync equalFold m → in_sync equalFold (run_ops ops m) ∧ pmFaults (run_ops ops m) = []).
Proof.
  induction ops as [|op ops IH]; intros m Hm Hb; [done|]. apply Forall_cons in Hb as [Hb Hbs].
  destruct (run_op_ok op m Hm Hb) as [H1 H2]. destruct (IH _ H1 Hbs) as [K1 K2]. split; [exact K1|].
  intros [Hu Hus]%Forall_cons Hf Hsync. destruct (H2 Hu Hf) as [H3 H4]. by apply K2; [| |apply H4].
Qed.

(** A reload brings table and file in step. *)
Lemma Reload_sync now m m' : Reload equalFold now m = (Ok tt, m') → in_sync equalFold m'.
Proof.
  unfold Reload, gbind, glift, gmod, publishEvent. destruct (readPointDefinitions m) as [[points|e] m1] eqn:Er; [|done].
  destruct (normalizeRecords equalFold points true) as [records|] eqn:Hn; [|done]. intros [= <-].
  unfold in_sync. cbn. revert Er. unfold readPointDefinitions.
  destruct (pmFaults m) as [|[[? ?]|] ?]; intros [= E <-]; cbn; destruct (pmFile m); simplify_eq; try done; by injection Hn as <-.
Qed.

Lemma NewPointManager_ok fileName now nextID server file faults m :
  registers_ok server → NewPointManager equalFold fileName now nextID server file faults = Ok m →
  table_ok equalFold m ∧ in_sync equalFold m.
Proof.
  intros Hs. unfold NewPointManager. case_match; [done|].
  set (m0 := mkManager [] ∅ (u64 nextID) server file ∅ faults).
  assert (table_ok equalFold m0) as H0.
  { split; cbn; [apply no_records|by rewrite dom_empty_L|apply map_Forall_empty|done]. }
  destruct (Reload equalFold now m0) as [[[]|e] m1] eqn:Er; [|done]. intros [= <-].
  split; [|by eapply Reload_sync]. eapply (Reload_ok equalFold fold_sym) in Er; [|done]. apply Er.
Qed.

(** A reload of the table's own file changes neither points nor states. *)
Lemma Reload_same now m :
  table_ok equalFold m → in_sync equalFold m → pmFaults m = [] →
  ∃ m', Reload equalFold now m = (Ok tt, m') ∧ pmPoints m' = pmPoints m ∧ pmStates m' = pmStates m ∧ pmServer m' = pmServer m.
Proof.
  intros Hm Hsync Hf. unfold in_sync in Hsync. unfold Reload, gbind, readPointDefinitions. rewrite Hf.
  assert (∃ points, match pmFile m with NoFile => Ok [] | Garbled => Err PEDecode | Definitions points => Ok points end = Ok points ∧
    normalizeRecords equalFold points true = Ok (pmPoints m)) as (points & -> & Hn).
  { destruct (pmFile m); [exists []; split; [done|by rewrite Hsync]|done|by eexists]. }
  unfold glift. rewrite Hn. unfold gmod, publishEvent. eexists. split; [done|]. cbn. split; [done|]. split; [|done].
  unfold reloadStates. apply map_eq. intros id.
  set (g record := match pmStates m !! recordID record with
      | Some state => if sameLocation (rcLocation record) (findLocation (pmPoints m) (recordID record)) then state else definitionState now
      | None => definitionState now end).
  pose proof (ids_nodup equalFold _ (to_records _ _ Hm)) as Hnd.
  destruct (decide (id ∈ map recordID (pmPoints m))) as [Hin|Hout].
  - apply list_elem_of_fmap in Hin as (r & -> & Hr). rewrite (fold_states_in g) by done. unfold g.
    assert (recordID r ∈ dom (pmStates m)) as [state Hst]%elem_of_dom.
    { rewrite (to_states _ _ Hm). unfold recordIDs. rewrite elem_of_list_to_set. by apply list_elem_of_fmap_2. }
    rewrite Hst. unfold findLocation. rewrite (find_id equalFold) by first [apply Hm|done]. unfold sameLocation.
    rewrite !Z.eqb_refl. by destruct (plIsBit (rcLocation r)).
  - rewrite (fold_states_out g) by done. rewrite lookup_empty. symmetry. apply not_elem_of_dom.
    rewrite (to_states _ _ Hm). unfold recordIDs. by rewrite elem_of_list_to_set.
Qed.
End histories.

(** ** A value that is set *)

(** One change of a register, reported to the table. *)
Lemma serverChanged_one now server m address value source :
  svChanges server = svChanges (pmServer m) ++ [(address, value, source)] →
  serverChanged now server m =
    onRegisterChange now address value source
      (mkManager (pmPoints m) (pmStates m) (pmNextID m) server (pmFile m) (pmEvents m) (pmFaults m)).
Proof. intros E. unfold serverChanged. rewrite E, drop_app_length. done. Qed.

(** What the page writes for a value of a type, and the view of it. *)
Definition writtenValue (record : pointRecord) (current : Z) (raw : RawValue) : option (Z * point_value) :=
  let type := ptType (rcPoint record) in
  if type =s pointTypeBool then
    match rwBool raw with Some b => Some (maskedValue current (plBit (rcLocation record)) b, PVBool b) | None => None end
  else if type =s pointTypeInt16 then
    match rwInt64 raw with
    | Some v => if (v <? -32768) || (32767 <? v) then None else Some (u16 v, PVInt16 v)
    | None => None
    end
  else if type =s pointTypeUint16 then
    match rwUint64 raw with Some v => if 65535 <? v then None else Some (u16 v, PVUint16 v) | None => None end
  else None.

Lemma negb_land_pow2 v k : 0 ≤ k → negb (Z.land v (2 ^ k) =? 0) = Z.testbit v k.
Proof.
  intros Hk. destruct (Z.testbit v k) eqn:Hb.
  - apply negb_true_iff, Z.eqb_neq. intros E. assert (Z.testbit (Z.land v (2 ^ k)) k = true) as H by (by rewrite Z.land_spec, Hb, Z.pow2_bits_true).
    by rewrite E, Z.bits_0 in H.
  - apply negb_false_iff, Z.eqb_eq. apply Z.bits_inj'. intros i Hi. rewrite Z.land_spec, Z.bits_0, Z.pow2_bits_eqb by done.
    destruct (Z.eqb_spec k i) as [<-|]; [by rewrite Hb|by rewrite andb_false_r].
Qed.

Lemma viewForValue_written record current raw register value state :
  location_ok (ptType (rcPoint record)) (rcLocation record) → in_range 16 current →
  match rwUint64 raw with Some v => 0 ≤ v | None => True end →
  writtenValue record current raw = Some (register, value) →
  vwValue (viewForValue record register state) = value.
Proof.
  intros [_ Hloc] Hc Hu. unfold writtenValue, viewForValue. cbn [vwValue].
  destruct (ptType (rcPoint record) =s pointTypeBool).
  { destruct (rwBool raw) as [b|]; [|done]. intros [= <- <-]. f_equal. destruct Hloc as [_ Hb].
    rewrite bitMask_spec, negb_land_pow2, maskedValue_testbit by (done || lia). by rewrite Z.eqb_refl. }
  destruct (ptType (rcPoint record) =s pointTypeInt16).
  { destruct (rwInt64 raw) as [v|]; [|done]. destruct ((v <? -32768) || (32767 <? v)) eqn:Hv; [done|]. intros [= <- <-]. propify. f_equal.
    rewrite swrap_wrap by done. apply swrap_id; [done|]. change (2 ^ (16 - 1)) with 32768. lia. }
  destruct (ptType (rcPoint record) =s pointTypeUint16); [|done].
  destruct (rwUint64 raw) as [v|]; [|done]. destruct (65535 <? v) eqn:Hv; [done|]. intros [= <- <-]. propify. f_equal.
  apply wrap_id. unfold in_range. change (2 ^ 16) with 65536. lia.
Qed.

Lemma setValue_written now id raw m record register value :
  recordByID m id = Some record → ptWritable (rcPoint record) = true →
  let a := plRegister (rcLocation record) in
  writtenValue record (svRegisters (pmServer m) a) raw = Some (register, value) →
  ∃ server,
    svRegisters server = setRegister (svRegisters (pmServer m)) a register ∧ svUnitID server = svUnitID (pmServer m) ∧
    setValue now id raw m =
      getPoint id (onRegisterChange now a register "ui"
        (mkManager (pmPoints m) (pmStates m) (pmNextID m) server (pmFile m) (pmEvents m) (pmFaults m))).
Proof.
  intros Hrec Hw a Hv. unfold setValue, gbind, gget. rewrite Hrec, Hw. cbn [negb]. unfold writtenValue in Hv. fold a. unfold gmod.
  destruct (ptType (rcPoint record) =s pointTypeBool).
  { destruct (rwBool raw) as [b|]; [|done]. injection Hv as <- _. eexists. split; [|split; [|by erewrite serverChanged_one by done]]; done. }
  destruct (ptType (rcPoint record) =s pointTypeInt16).
  { destruct (rwInt64 raw) as [v|]; [|done]. destruct ((v <? -32768) || (32767 <? v)); [done|]. injection Hv as <- _.
    eexists. split; [|split; [|by erewrite serverChanged_one by done]]; done. }
  destruct (ptType (rcPoint record) =s pointTypeUint16); [|done].
  destruct (rwUint64 raw) as [v|]; [|done]. destruct (65535 <? v); [done|]. injection Hv as <- _.
  eexists. split; [|split; [|by erewrite serverChanged_one by done]]; done.
Qed.

(** The points of a register, as a change reports them. *)
Definition changedViews (m : PointManager) (now a register : Z) (source : string) : list PointView :=
  map (fun record => viewForValue record register (mkState now source))
    (List.filter (fun record => plRegister (rcLocation record) =? a) (pmPoints m)).

Lemma onRegisterChange_events now a register source m channel queue record :
  record ∈ pmPoints m → plRegister (rcLocation record) = a →
  pmEvents m !! channel = Some queue → (length queue < eventCapacity)%nat →
  pmEvents (onRegisterChange now a register source m) !! channel =
    Some (queue ++ [mkEvent "values" (changedViews m now a register source)]).
Proof.
  intros Hin Ha Hq Hl. unfold onRegisterChange. fold (changedViews m now a register source).
  destruct (changedViews m now a register source) as [|view views] eqn:E.
  - exfalso. apply (not_elem_of_nil (viewForValue record register (mkState now source))). rewrite <-E. unfold changedViews.
    apply (list_elem_of_fmap_2 (fun record => viewForValue record register (mkState now source))), list_elem_of_In, filter_In. split; [by apply list_elem_of_In|]. rewrite Ha. apply Z.eqb_refl.
  - unfold setEvents, setTable. cbn [pmEvents]. unfold publish. rewrite lookup_fmap, Hq. unfold fmap, option_fmap, option_map.
    by rewrite (proj2 (Nat.ltb_lt _ _)) by done.
Qed.

Lemma onRegisterChange_state equalFold now a register source m record :
  table_ok equalFold m → record ∈ pmPoints m → plRegister (rcLocation record) = a →
  stateOf (onRegisterChange now a register source m) (recordID record) = mkState now source.
Proof.
  intros Hm Hin Ha. unfold stateOf, onRegisterChange. set (changed := List.filter _ (pmPoints m)).
  assert (foldl (fun states record => <[recordID record := mkState now source]> states) (pmStates m) changed !! recordID record =
          Some (mkState now source)) as Hs.
  { apply (fold_states_in (fun _ => mkState now source)).
    - pose proof (ids_nodup equalFold _ (to_records _ _ Hm)) as Hn. unfold changed. clear -Hn. induction (pmPoints m) as [|r rs IH]; [constructor|].
      cbn [map List.filter] in *. apply NoDup_cons in Hn as [Hr Hn]. case_match; [|by apply IH]. cbn [map]. apply NoDup_cons. split; [|by apply IH].
      intros H'. apply Hr. apply list_elem_of_fmap in H' as (c & E & Hc). rewrite E. apply list_elem_of_fmap_2.
      apply list_elem_of_In in Hc. apply filter_In in Hc as [Hc _]. by apply list_elem_of_In.
    - apply list_elem_of_In, filter_In. split; [by apply list_elem_of_In|]. rewrite Ha. apply Z.eqb_refl. }
  destruct (map _ changed); cbn; by rewrite Hs.
Qed.

(** A Modbus read of one register. *)
Lemma read_one sv a : in_range 16 a → registers_ok sv →
  (handlePDU sv ([functionReadHoldingRegisters] ++ putU16 a ++ putU16 1)).1 =
    ([functionReadHoldingRegisters; 2] ++ putU16 (svRegisters sv a), "ok"%string).
Proof.
  intros Ha Hs. unfold putU16 at 1 2. cbn [app]. unfold handlePDU.
  change (functionReadHoldingRegisters =? functionReadHoldingRegisters) with true. cbn iota. unfold handleReadHoldingRegisters.
  cbn [length Nat.eqb negb]. unfold u16At, byteAt. cbn [nth].
  change (getU16 (Z.land (Z.shiftr 1 8) 255) (Z.land 1 255)) with 1. cbn [Z.eqb orb]. change (maxReadHoldingRegisters <? 1) with false. cbn iota.
  rewrite !getU16_putU16 by done. destruct Ha as [Ha0 Ha1]. rewrite (proj2 (Z.ltb_ge (2 ^ 16) (a + 1))) by lia. unfold read.
  change (seq 0 (Z.to_nat 1)) with [0%nat]. cbn [map length fst]. change (Z.of_nat 0) with 0. by rewrite Z.add_0_r.
Qed.

Lemma written_range record old raw register value :
  location_ok (ptType (rcPoint record)) (rcLocation record) → in_range 16 old →
  writtenValue record old raw = Some (register, value) → in_range 16 register.
Proof.
  intros [_ Hloc] Hold. unfold writtenValue. destruct (ptType (rcPoint record) =s pointTypeBool).
  { destruct (rwBool raw) as [b|]; [|done]. intros [= <- _]. destruct Hloc as [_ Hb]. unfold maskedValue.
    apply mask_range; [done|by apply notMask_range|]. destruct b; [apply mask_of_bit|done]. }
  destruct (ptType (rcPoint record) =s pointTypeInt16).
  { destruct (rwInt64 raw) as [v|]; [|done]. destruct ((v <? -32768) || (32767 <? v)); [done|]. intros [= <- _]. by apply wrap_range. }
  destruct (ptType (rcPoint record) =s pointTypeUint16); [|done].
  destruct (rwUint64 raw) as [v|]; [|done]. destruct (65535 <? v); [done|]. intros [= <- _]. by apply wrap_range.
Qed.

Lemma record_ok_address r :
  record_ok r → parsePointAddress (ptType (rcPoint r)) (ptAddress (rcPoint r)) = Ok (rcLocation r, ptAddress (rcPoint r)).
Proof.
  unfold record_ok, normalizeRecord. case_match; [done|]. case_match; [done|].
  destruct (parsePointAddress _ _) as [[loc address]|] eqn:Ha; [|done]. cbn [rbind fst snd].
  intros Hr. injection Hr as Hr. rewrite <-Hr in Ha |- *. cbn in *. done.
Qed.

(** A manager on the file of a table in step. *)
Lemma Reload_fresh equalFold later nextID newServer m :
  in_sync equalFold m →
  ∃ m2, (match Reload equalFold later (mkManager [] ∅ (u64 nextID) newServer (pmFile m) ∅ []) with
         | (Err e, _) => Err e
         | (Ok _, m) => Ok m
         end) = Ok m2 ∧ pmPoints m2 = pmPoints m.
Proof.
  unfold in_sync. intros Hs. unfold Reload, gbind, readPointDefinitions, glift, gmod, publishEvent. cbn [pmFaults pmFile].
  destruct (pmFile m) as [| |points]; [|done|].
  - cbn. eexists. split; [done|]. cbn. done.
  - rewrite Hs. eexists. split; done.
Qed.
