(* ===== verification/Wifi.v ===== *)
(** * Wi-Fi: [internal/wifi/manager.go], and [connectivity] and [connectWiFi] of
      [internal/agent/maintenance_http.go]

    [Apply] writes a NetworkManager profile with the password to a temporary
    file, has [nmcli] load and activate it, and removes the file.  A [Machine]
    is the files by their path, the outside world that [nmcli] acts on and a log
    of the commands run, each with the files it could see.  The runner, the random
    part of a temporary name, the failures of file operations and
    [filepath.Clean] are arguments. *)

From Stdlib Require Import Ascii String.
From S2P Require Import Prelude GoText.

Record Status := mkStatus {
  stState : string;
  stInterface : string;
  stSSID : option string;
  stIPv4 : option string
}.

Inductive wifi_error : Type :=
| ErrUnavailable (detail : string)
| WifiFile (e : string).

(** ** The profile *)

(** [strings.ReplaceAll] of one character. *)
Fixpoint replaceChar (c : ascii) (by_ : string) (s : string) : string :=
  match s with
  | EmptyString => EmptyString
  | String a rest => if Ascii.eqb a c then String.append by_ (replaceChar c by_ rest) else String a (replaceChar c by_ rest)
  end.

Definition newline : ascii := "010"%char.
Definition carriageReturn : ascii := "013"%char.
Definition backslash : ascii := "\"%char.

Definition stripLineBreaks (value : string) : string := replaceChar carriageReturn "" (replaceChar newline "" value).

Definition escapeKeyfile (value : string) : string := stripLineBreaks (replaceChar backslash "\\" value).

Definition profilePrefix : string := "block-wifi-".
Definition profileIDOf (ssid : string) : string := String.append profilePrefix (stripLineBreaks ssid).

Definition profileLines (iface ssid password : string) : list string :=
  ["[connection]";
   String.append "id=" (escapeKeyfile (profileIDOf ssid));
   "type=wifi";
   String.append "interface-name=" (escapeKeyfile iface);
   "[wifi]";
   "mode=infrastructure";
   String.append "ssid=" (escapeKeyfile ssid);
   "[wifi-security]";
   "key-mgmt=wpa-psk";
   String.append "psk=" (escapeKeyfile password);
   "[ipv4]"; "method=auto"; "[ipv6]"; "method=auto"]%string.

(** Each line with its line break. *)
Fixpoint unlines (lines : list string) : string :=
  match lines with
  | [] => EmptyString
  | line :: rest => String.append line (String newline (unlines rest))
  end.

Definition profileText (iface ssid password : string) : string := unlines (profileLines iface ssid password).

(** ** Status *)

(** [strings.TrimPrefix]. *)
Definition trimPrefix (s p : string) : string := match expect p s with Some rest => rest | None => s end.

Definition statusLine (line : string) (status : Status) : Status :=
  match cutChar line ":" with
  | None => status
  | Some (key, value) =>
      if key =s "GENERAL.STATE" then
        if hasPrefix value "100" then mkStatus "connected" (stInterface status) (stSSID status) (stIPv4 status) else status
      else if key =s "GENERAL.CONNECTION" then
        if (value <>s "") && (value <>s "--")
        then mkStatus (stState status) (stInterface status) (Some (trimPrefix value profilePrefix)) (stIPv4 status)
        else status
      else if key =s "IP4.ADDRESS[1]" then
        let value := match cutChar value "/" with Some (host, _) => host | None => value end in
        if value <>s "" then mkStatus (stState status) (stInterface status) (stSSID status) (Some value) else status
      else status
  end.

Definition readStatus (iface output : string) : Status :=
  foldl (fun status line => statusLine line status) (mkStatus "disconnected" iface None None) (splitChar output newline).

(** ** NetworkManager *)

(** A file's mode and content. *)
Notation Files := (gmap string (Z * string)%type).

(** What can go wrong with the temporary file, and how much of the text a failed
    write leaves behind. *)
Record TempFaults := mkTempFaults {
  tfMkdir : option string;
  tfCreate : option string;
  tfNames : list string;                  (* the random parts that are tried *)
  tfChmod : option string;
  tfWrite : option (string * nat);
  tfClose : option string;
  tfRemove : option string
}.

Section manager.
Context {W : Type}.
Variables (runner : list string → Files → W → result string string * W) (clean : string → string).

Record Machine := mkMachine { mcFiles : Files; mcWorld : W; mcRuns : list (list string * Files) }.

Definition setFiles (files : Files) (m : Machine) : Machine := mkMachine files (mcWorld m) (mcRuns m).

(** [Runner.Run]: the program and its arguments. *)
Definition Run (argv : list string) (m : Machine) : result string string * Machine :=
  let '(r, w) := runner argv (mcFiles m) (mcWorld m) in
  (r, mkMachine (mcFiles m) w (mcRuns m ++ [(argv, mcFiles m)])).

Definition statusArgv (iface : string) : list string :=
  ["nmcli"; "-t"; "-f"; "GENERAL.STATE,GENERAL.CONNECTION,IP4.ADDRESS"; "device"; "show"; iface]%string.
Definition loadArgv (path : string) : list string := ["nmcli"; "connection"; "load"; clean path]%string.
Definition upArgv (iface ssid : string) : list string :=
  ["nmcli"; "connection"; "up"; "id"; profileIDOf ssid; "ifname"; iface]%string.

Definition StatusOf (iface : string) (m : Machine) : result wifi_error Status * Machine :=
  match Run (statusArgv iface) m with
  | (Err e, m) => (Err (ErrUnavailable e), m)
  | (Ok output, m) => (Ok (readStatus iface output), m)
  end.

(** [os.CreateTemp] opens, with mode 0600, the first name that no file has. *)
Fixpoint createTemp (dir : string) (names : list string) (files : Files) : option string :=
  match names with
  | [] => None
  | name :: rest =>
      let path := String.append dir (String.append "/block-wifi-" (String.append name ".nmconnection")) in
      match files !! path with None => Some path | Some _ => createTemp dir rest files end
  end.

Definition mode0600 : Z := 384.

(** [Apply] from the chmod on; its file is removed by [Apply]. *)
Definition applyProfile (faults : TempFaults) (path iface ssid password : string) (m : Machine)
  : result wifi_error Status * Machine :=
  let text := profileText iface ssid password in
  match tfChmod faults with
  | Some e => (Err (WifiFile e), m)
  | None =>
      match tfWrite faults with
      | Some (e, n) => (Err (WifiFile e), setFiles (<[path := (mode0600, String.substring 0 n text)]> (mcFiles m)) m)
      | None =>
          let m := setFiles (<[path := (mode0600, text)]> (mcFiles m)) m in
          match tfClose faults with
          | Some e => (Err (WifiFile e), m)
          | None =>
              match Run (loadArgv path) m with
              | (Err _, m) => (Err (ErrUnavailable "load Wi-Fi profile"), m)
              | (Ok _, m) =>
                  match Run (upArgv iface ssid) m with
                  | (Err _, m) => (Err (ErrUnavailable "activate Wi-Fi profile"), m)
                  | (Ok _, m) => StatusOf iface m
                  end
              end
          end
      end
  end.

Definition removeTemp (faults : TempFaults) (path : string) (m : Machine) : Machine :=
  match tfRemove faults with None => setFiles (delete path (mcFiles m)) m | Some _ => m end.

Definition Apply (faults : TempFaults) (tempDir iface ssid password : string) (m : Machine)
  : result wifi_error Status * Machine :=
  match tfMkdir faults with
  | Some e => (Err (WifiFile e), m)
  | None =>
      match tfCreate faults, createTemp tempDir (tfNames faults) (mcFiles m) with
      | Some e, _ => (Err (WifiFile e), m)
      | None, None => (Err (WifiFile "file exists"), m)
      | None, Some path =>
          let m := setFiles (<[path := (mode0600, EmptyString)]> (mcFiles m)) m in
          let '(r, m) := applyProfile faults path iface ssid password m in
          (r, removeTemp faults path m)
      end
  end.

(** ** The handlers *)

Record networkInterface := mkInterface { niName : string; niIPv4 : string }.
Record bdmConnectivity := mkBdm { bdState : string; bdLastSuccessAt : option string; bdLastError : option string }.
Record connectivityResponse := mkConnectivity {
  cnInterfaces : list networkInterface;
  cnWiFi : Status;
  cnBDM : bdmConnectivity
}.

(** An interface as [net.Interfaces] lists it; [None]: its addresses cannot be read. *)
Record hostInterface := mkHostInterface { hiName : string; hiLoopback : bool; hiAddrs : option (list string) }.

(** [cidrIPv4]: the IPv4 address that [net.ParseCIDR] finds in a text. *)
Variable cidrIPv4 : string → option string.

Fixpoint firstIPv4 (addresses : list string) : string :=
  match addresses with
  | [] => EmptyString
  | address :: rest => match cidrIPv4 address with Some ip => ip | None => firstIPv4 rest end
  end.

Definition localNetworkInterfaces (interfaces : option (list hostInterface)) : list networkInterface :=
  match interfaces with
  | None => []
  | Some interfaces =>
      map (fun current => mkInterface (hiName current)
             (match hiAddrs current with Some addresses => firstIPv4 addresses | None => EmptyString end))
        (List.filter (fun current => negb (hiLoopback current)) interfaces)
  end.

(** What the runtime was given: the backend's directory, the interface, and
    whether MQTT is enabled. *)
Record ConnectivityOptions := mkConnectivityOptions {
  coBackend : option string;
  coInterface : string;
  coMQTT : bool
}.

Definition currentConnectivity (options : ConnectivityOptions) (interfaces : option (list hostInterface)) (m : Machine)
  : connectivityResponse * Machine :=
  let bdm := mkBdm (if coMQTT options then "unknown" else "not_configured") None None in
  let answer status := mkConnectivity (localNetworkInterfaces interfaces) status bdm in
  match coBackend options with
  | Some _ =>
      if coInterface options =s "" then (answer (mkStatus "not_configured" (coInterface options) None None), m)
      else match StatusOf (coInterface options) m with
           | (Ok status, m) => (answer status, m)
           | (Err _, m) => (answer (mkStatus "unknown" (coInterface options) None None), m)
           end
  | None => (answer (mkStatus "not_configured" (coInterface options) None None), m)
  end.

Inductive wifi_response : Type :=
| ConnectivityOK (body : connectivityResponse)
| WifiRefused (status : Z) (error : string)
| WifiMethod (allow : string).

Definition connectivity (method : string) (options : ConnectivityOptions) (interfaces : option (list hostInterface))
    (m : Machine) : wifi_response * Machine :=
  if method <>s "GET" then (WifiMethod "GET", m)
  else let '(body, m) := currentConnectivity options interfaces m in (ConnectivityOK body, m).

(** A body of [None] is one that [decodeJSON] refuses. *)
Definition connectWiFi (method : string) (body : option (string * string)) (options : ConnectivityOptions)
    (faults : TempFaults) (interfaces : option (list hostInterface)) (m : Machine) : wifi_response * Machine :=
  if method <>s "POST" then (WifiMethod "POST", m)
  else match body with
       | None => (WifiRefused 400 "invalid JSON request", m)
       | Some (ssid, password) =>
           if (trimSpace ssid =s "") || (password =s "") then (WifiRefused 400 "SSID and password are required", m)
           else match coBackend options with
                | Some tempDir =>
                    if coInterface options =s "" then (WifiRefused 503 "Wi-Fi connection is unavailable", m)
                    else match Apply faults tempDir (coInterface options) ssid password m with
                         | (Err _, m) => (WifiRefused 503 "Wi-Fi connection failed", m)
                         | (Ok _, m) =>
                             let '(body, m) := currentConnectivity options interfaces m in (ConnectivityOK body, m)
                         end
                | None => (WifiRefused 503 "Wi-Fi connection is unavailable", m)
                end
       end.
End manager.
