(* ===== verification/AgentHttp.v ===== *)
(** * The HTTP edge of the agent: [internal/agent/runtime.go] (addresses, routes,
      health), the static files of [internal/agent/auth_http.go], and the TLS
      listener of [internal/sshbootstrap/tls.go]

    The server listens on the loopback address, cleans a request's path, sends
    it to one of its handlers, and serves the HMI's files for everything else.
    Parameters: the origin that [websocket.Origin] reads, the duration and
    outcome of a TLS handshake, and [http.FileServer].  A request's escaped path
    is its path. *)

From Stdlib Require Import Ascii String.
From S2P Require Import Prelude GoText PlcScan Maintenance.

(** ** Addresses *)

(** The parts before and after the last [c]. *)
Fixpoint cutLast (c : ascii) (s : string) : option (string * string) :=
  match s with
  | EmptyString => None
  | String a rest =>
      match cutLast c rest with
      | Some (before, after) => Some (String a before, after)
      | None => if Ascii.eqb a c then Some (EmptyString, rest) else None
      end
  end.

(** [net.SplitHostPort]; its errors are not told apart. *)
Definition SplitHostPort (hostport : string) : option (string * string) :=
  match cutLast ":" hostport with
  | None => None
  | Some (before, port) =>
      let host :=
        if hasPrefix hostport "[" then
          match cutChar (drop_str 1 hostport) "]" with
          | Some (host, rest) =>
              (* the bracket must end where the last colon is *)
              if (rest =s String ":" port) && negb (containsChar host "[") then Some host else None
          | None => None
          end
        else if containsChar before ":" || containsChar before "[" || containsChar before "]" then None
        else Some before in
      match host with
      | None => None
      | Some host => if containsChar port "[" || containsChar port "]" then None else Some (host, port)
      end
  end.

Inductive runtime_error : Type :=
| RELoopback | REPort | REListener | RECertificate | REProduction (e : production_error) | REOther (e : string).

Definition validateLoopbackAddress (address : string) : result runtime_error unit :=
  match SplitHostPort address with
  | None => Err RELoopback
  | Some (host, rawPort) =>
      if host <>s "127.0.0.1" then Err RELoopback
      else match Atoi rawPort with
           | None => Err REPort
           | Some port => if (port <? 0) || (65535 <? port) then Err REPort else Ok tt
           end
  end.

(** A listener's address: a TCP address with the bytes of its IP, or another kind. *)
Definition mappedPrefix : list Z := [0; 0; 0; 0; 0; 0; 0; 0; 0; 0; 255; 255].
Definition loopbackIP : list Z := [127; 0; 0; 1].

Definition validateLoopbackListener (address : option (list Z)) : result runtime_error unit :=
  match address with
  | Some ip => if bool_decide (ip = loopbackIP) || bool_decide (ip = mappedPrefix ++ loopbackIP) then Ok tt else Err REListener
  | None => Err REListener
  end.

(** ** Origins *)

Record origin := mkOrigin { orScheme : string; orHost : string; orHostname : string }.

(** [checkLocalOrigin]: [read] is what [websocket.Origin] answers, [host] the
    host the client asked for. *)
Definition checkLocalOrigin (read : result string (option origin)) (host scheme : string) : result string unit :=
  match read with
  | Err e => Err e
  | Ok None => Ok tt
  | Ok (Some o) =>
      if (orScheme o <>s scheme) || (orHost o <>s host) || (orHostname o <>s "127.0.0.1")
      then Err "WebSocket Origin is not local"%string else Ok tt
  end.

Definition websocketOriginScheme (testPlaintext : bool) : string := if testPlaintext then "http" else "https".

Definition checkHandshake (testPlaintext : bool) (read : result string (option origin)) (host : string) : result string unit :=
  checkLocalOrigin read host (websocketOriginScheme testPlaintext).

(** ** Paths *)

Fixpoint joinSegments (segments : list string) : string :=
  match segments with
  | [] => EmptyString
  | segment :: rest => String "/" (String.append segment (joinSegments rest))
  end.

(** [path.Clean] on the segments of a rooted path; [done] is reversed. *)
Fixpoint cleanSegments (done_ segments : list string) : list string :=
  match segments with
  | [] => reverse done_
  | segment :: rest =>
      if (segment =s "") || (segment =s ".") then cleanSegments done_ rest
      else if segment =s ".." then cleanSegments (tail done_) rest
      else cleanSegments (segment :: done_) rest
  end.

Fixpoint endsWith (c : ascii) (s : string) : bool :=
  match s with
  | EmptyString => false
  | String a EmptyString => Ascii.eqb a c
  | String _ rest => endsWith c rest
  end.

(** The [cleanPath] of [net/http]. *)
Definition cleanPath (p : string) : string :=
  let p := if hasPrefix p "/" then p else String "/" p in
  let segments := cleanSegments [] (splitChar p "/") in
  match segments with
  | [] => "/"
  | _ => if endsWith "/" p then String.append (joinSegments segments) "/" else joinSegments segments
  end.

(** [path.Ext]: from the last dot of the last segment. *)
Fixpoint extFrom (found : string) (s : string) : string :=
  match s with
  | EmptyString => found
  | String a rest =>
      if Ascii.eqb a "/" then extFrom EmptyString rest
      else if Ascii.eqb a "." then extFrom s rest
      else extFrom found rest
  end.
Definition pathExt (p : string) : string := extFrom EmptyString p.

(** ** Routes *)

Inductive endpoint : Type :=
| EHealth | EInitialAdmin | ELogin | EPassword | ESession | EProduction | EConnectivity | EWiFi | EWebSocket | EStatic.

#[global] Instance endpoint_eq_dec : EqDecision endpoint. Proof. solve_decision. Defined.

Definition routes : list (string * endpoint) :=
  [("/healthz", EHealth); ("/api/auth/initial-admin", EInitialAdmin); ("/api/auth/login", ELogin);
   ("/api/auth/password", EPassword); ("/api/config/session", ESession); ("/api/maintenance/production", EProduction);
   ("/api/maintenance/connectivity", EConnectivity); ("/api/maintenance/wifi/connect", EWiFi); ("/ws", EWebSocket)]%string.

Fixpoint findRoute (path : string) (table : list (string * endpoint)) : endpoint :=
  match table with
  | [] => EStatic                         (* the pattern "/" *)
  | (pattern, e) :: rest => if path =s pattern then e else findRoute path rest
  end.

Inductive routed : Type :=
| Redirect (path : string)
| Handle (e : endpoint).

(** [ServeMux]: a path that is not clean is redirected, except for CONNECT. *)
Definition serveMux (method path : string) : routed :=
  if method =s "CONNECT" then Handle (findRoute path routes)
  else let clean := cleanPath path in
       if clean =s path then Handle (findRoute path routes) else Redirect clean.

(** ** Handlers of the edge *)

Inductive edge_answer : Type :=
| NotFound
| MethodNotAllowed (allow : string)
| HealthOK (body : bool)                  (* with [no-store] *)
| ServeFile (path : string) (noStore : bool).

Definition health (method : string) : edge_answer :=
  if (method <>s "GET") && (method <>s "HEAD") then MethodNotAllowed "GET, HEAD"
  else HealthOK (method <>s "HEAD").

Definition staticExtensions : list string :=
  [".css"; ".html"; ".ico"; ".jpeg"; ".jpg"; ".js"; ".json"; ".mjs"; ".png"; ".svg"; ".webp"; ".woff"; ".woff2"]%string.

Definition isHMIStaticResource (requestPath : string) : bool :=
  if (requestPath =s "/") || (requestPath =s "/index.html") then true
  else if hasPrefix requestPath "/api/" || (requestPath =s "/ws") then false
  else existsb (String.eqb (pathExt requestPath)) staticExtensions.

(** [files]: whether the agent was given an HMI. *)
Definition staticHMI (files : bool) (method path : string) : edge_answer :=
  if negb files then NotFound
  else if hasPrefix path "/api/" || (path =s "/ws") then NotFound
  else if (method <>s "GET") && (method <>s "HEAD") then MethodNotAllowed "GET, HEAD"
  else ServeFile path (isHMIStaticResource path).

Definition requireAuthMethod (method required : string) : option edge_answer :=
  if method =s required then None else Some (MethodNotAllowed required).

(** ** Starting and ending *)

Record RuntimeOptions := mkRuntimeOptions {
  roAlarmStore : bool;
  roEndpointStore : bool;
  roMaintenancePath : string;
  roMQTT : bool;
  roWiFi : option string;                 (* the backend's directory *)
  roWiFiInterface : string
}.

Record runtime_parts := mkParts {
  ruAddress : string;
  ruOptions : RuntimeOptions;
  ruProduction : ProductionStore;
  ruFiles : bool;
  ruTestPlaintext : bool
}.

(** [NewLocalRuntimeWithOptions], the parts outside the session. *)
Definition NewLocalRuntimeWithOptions (address : string) (files : bool) (options : RuntimeOptions) (settings : settings_file)
  : result runtime_error runtime_parts :=
  match validateLoopbackAddress address with
  | Err e => Err e
  | Ok _ =>
      match OpenProduction (roMaintenancePath options) settings with
      | Err e => Err (REProduction e)
      | Ok production => Ok (mkParts address options production files false)
      end
  end.

(** How [serve] ends: the context is done and the server shuts down, or the
    server stops by itself.  The session is stopped in both cases. *)
Inductive serve_end : Type :=
| ContextDone (shutdown : option string)
| ServerClosed
| ServerFailed (e : string).

Definition serve {R} (StopSession : R → R) (ended : serve_end) (r : R) : result runtime_error unit * R :=
  let r := StopSession r in
  match ended with
  | ContextDone None => (Ok tt, r)
  | ContextDone (Some e) => (Err (REOther e), r)
  | ServerClosed => (Ok tt, r)
  | ServerFailed e => (Err (REOther e), r)
  end.

(** [RunTLS] up to serving: [pair] and [listen] are what loading the certificate
    and listening answer. *)
Definition RunTLS (certificatePath privateKeyPath : string) (pair : option string) (listen : result string (option (list Z)))
    (parts : runtime_parts) : result runtime_error runtime_parts :=
  if (certificatePath =s "") || (privateKeyPath =s "") then Err RECertificate
  else match pair with
       | Some e => Err (REOther e)
       | None =>
           match listen with
           | Err e => Err (REOther e)
           | Ok listener =>
               match validateLoopbackListener listener with
               | Err e => Err e
               | Ok _ => Ok (mkParts (ruAddress parts) (ruOptions parts) (ruProduction parts) (ruFiles parts) false)
               end
           end
       end.

(** ** The TLS listener *)

Definition tlsHandshakeTimeout : Z := 10 * second.

(** A connection: when it arrives, how long its handshake takes if nothing ends
    it, and whether it succeeds then. *)
Record tls_connection := mkConnection { tcArrives : Z; tcTakes : Z; tcSucceeds : bool }.

Definition handshakeDeadline (now : Z) : Z := now + tlsHandshakeTimeout.

(** One round of [Accept] that starts at [now]: when it is over, and whether the
    connection is handed to the server. *)
Definition handshake (now : Z) (c : tls_connection) : Z * bool :=
  let start := Z.max now (tcArrives c) in
  if start + tcTakes c <? handshakeDeadline start then (start + tcTakes c, tcSucceeds c)
  else (handshakeDeadline start, false).

(** Calls of [Accept] one after another, on the connections as they arrive: when
    each is over, and whether it was accepted. *)
Fixpoint accepts (now : Z) (connections : list tls_connection) : list (Z * bool) :=
  match connections with
  | [] => []
  | c :: rest => let '(over, ok) := handshake now c in (over, ok) :: accepts over rest
  end.
