(* ===== verification/Messages.v ===== *)
(** * The HMI's messages: the decoding in [internal/agent/runtime.go] and
      plc_runtime.go, and [Decode] of [internal/runtimeconfig/config.go]

    From the text of a WebSocket message to the message that [Hmi] handles.
    [decodeAllowed] first looks at the member names of the JSON object, then
    decodes the object into a struct.  The rules of [encoding/json] are written
    out: members in order, so that a later one wins; an exact name before one
    that differs in case; null leaves a plain field alone and empties a pointer;
    a value of the wrong kind is an error that does not stop the decoding; an
    array is decoded over the elements that are there.

    Parameters: the parsing of a text as JSON, the folding of a name's case, and
    the parsing and printing that values need. *)

From S2P Require Import Prelude GoValue RuntimeConfig PlcScan Hmi.

(** A number is kept as its literal. *)
Inductive json : Type :=
| JNull
| JBool (b : bool)
| JNum (literal : string)
| JStr (s : string)
| JArr (elements : list json)
| JObj (members : list (string * json)).

Section messages.
Variables (unmarshal : string → option json) (foldName : string → string)
  (parseFloat : string → option spec_float) (compact : json → string).

(** ** Values: the new value, and whether there was an error *)

(** No number in the value is out of the range of a float64. *)
Fixpoint numbersOk (j : json) : bool :=
  match j with
  | JNum literal => match parseFloat literal with Some _ => true | None => false end
  | JArr elements => forallb numbersOk elements
  | JObj members => forallb (fun m => numbersOk m.2) members
  | _ => true
  end.

Definition decodeAny (j : json) (old : goval) : goval * bool :=
  match j with
  | JNull => (VNil, false)
  | JBool b => (VBool b, false)
  | JNum literal => match parseFloat literal with Some f => (VFloat64 f, false) | None => (old, true) end
  | JStr s => (VString s, false)
  | JArr _ | JObj _ => (VComposite (compact j), negb (numbersOk j))
  end.

Definition decodeString (j : json) (old : string) : string * bool :=
  match j with JStr s => (s, false) | JNull => (old, false) | _ => (old, true) end.

Definition decodeInt (j : json) (old : Z) : Z * bool :=
  match j with
  | JNum literal => match Atoi literal with Some z => (z, false) | None => (old, true) end
  | JNull => (old, false)
  | _ => (old, true)
  end.

(** A pointer: what it points to is made when there is something to decode. *)
Definition decodePointer {A} (decode : json → A → A * bool) (zero : A) (j : json) (old : option A) : option A * bool :=
  match j with
  | JNull => (None, false)
  | _ => let '(a, bad) := decode j (default zero old) in (Some a, bad)
  end.

(** ** Structs *)

(** The field that a member's name means. *)
Definition fieldOf (fields : list string) (key : string) : option string :=
  if existsb (String.eqb key) fields then Some key
  else List.find (fun name => foldName name =s foldName key) fields.

Section struct.
Context {A : Type} (fields : list string) (set : string → json → A → A * bool).

Definition decodeMember (st : A * bool) (member : string * json) : A * bool :=
  match fieldOf fields member.1 with
  | None => st
  | Some name => let '(a, bad) := set name member.2 st.1 in (a, st.2 || bad)
  end.

Definition decodeStruct (j : json) (old : A) : A * bool :=
  match j with
  | JNull => (old, false)
  | JObj members => foldl decodeMember (old, false) members
  | _ => (old, true)
  end.
End struct.

Definition writeFields : list string := ["mode"; "activeValue"; "defaultValue"; "pulseMs"]%string.
Definition setWrite (name : string) (j : json) (w : WriteDefinition) : WriteDefinition * bool :=
  if name =s "mode" then
    let '(s, bad) := decodeString j (wMode w) in (mkWriteDefinition s (wActiveValue w) (wDefaultValue w) (wPulseMs w), bad)
  else if name =s "activeValue" then
    let '(v, bad) := decodeAny j (wActiveValue w) in (mkWriteDefinition (wMode w) v (wDefaultValue w) (wPulseMs w), bad)
  else if name =s "defaultValue" then
    let '(v, bad) := decodeAny j (wDefaultValue w) in (mkWriteDefinition (wMode w) (wActiveValue w) v (wPulseMs w), bad)
  else
    let '(z, bad) := decodeInt j (wPulseMs w) in (mkWriteDefinition (wMode w) (wActiveValue w) (wDefaultValue w) z, bad).
Definition zeroWrite : WriteDefinition := mkWriteDefinition "" VNil VNil 0.

Definition alarmFields : list string := ["normalValue"; "alarmValue"; "message"]%string.
Definition setAlarm (name : string) (j : json) (a : AlarmDefinition) : AlarmDefinition * bool :=
  if name =s "normalValue" then let '(v, bad) := decodeAny j (aNormalValue a) in (mkAlarmDefinition v (aAlarmValue a) (aMessage a), bad)
  else if name =s "alarmValue" then let '(v, bad) := decodeAny j (aAlarmValue a) in (mkAlarmDefinition (aNormalValue a) v (aMessage a), bad)
  else let '(s, bad) := decodeString j (aMessage a) in (mkAlarmDefinition (aNormalValue a) (aAlarmValue a) s, bad).
Definition zeroAlarm : AlarmDefinition := mkAlarmDefinition VNil VNil "".

Definition pointFields : list string :=
  ["pointId"; "address"; "type"; "access"; "readPoint"; "writePoint"; "writeMethod"; "registerCount"; "wordOrder";
   "write"; "alarm"]%string.
Definition zeroPoint : PointDefinition := mkPointDefinition "" "" "" "" "" "" "" 0 "" None None.

Definition setPoint (name : string) (j : json) (p : PointDefinition) : PointDefinition * bool :=
  let '(mkPointDefinition id address ty access readPoint writePoint writeMethod count order write alarm) := p in
  let text old (k : string → PointDefinition) := let '(s, bad) := decodeString j old in (k s, bad) in
  if name =s "pointId" then text id (fun s => mkPointDefinition s address ty access readPoint writePoint writeMethod count order write alarm)
  else if name =s "address" then text address (fun s => mkPointDefinition id s ty access readPoint writePoint writeMethod count order write alarm)
  else if name =s "type" then text ty (fun s => mkPointDefinition id address s access readPoint writePoint writeMethod count order write alarm)
  else if name =s "access" then text access (fun s => mkPointDefinition id address ty s readPoint writePoint writeMethod count order write alarm)
  else if name =s "readPoint" then text readPoint (fun s => mkPointDefinition id address ty access s writePoint writeMethod count order write alarm)
  else if name =s "writePoint" then text writePoint (fun s => mkPointDefinition id address ty access readPoint s writeMethod count order write alarm)
  else if name =s "writeMethod" then text writeMethod (fun s => mkPointDefinition id address ty access readPoint writePoint s count order write alarm)
  else if name =s "registerCount" then
    let '(z, bad) := decodeInt j count in (mkPointDefinition id address ty access readPoint writePoint writeMethod z order write alarm, bad)
  else if name =s "wordOrder" then text order (fun s => mkPointDefinition id address ty access readPoint writePoint writeMethod count s write alarm)
  else if name =s "write" then
    let '(w, bad) := decodePointer (decodeStruct writeFields setWrite) zeroWrite j write in
    (mkPointDefinition id address ty access readPoint writePoint writeMethod count order w alarm, bad)
  else
    let '(a, bad) := decodePointer (decodeStruct alarmFields setAlarm) zeroAlarm j alarm in
    (mkPointDefinition id address ty access readPoint writePoint writeMethod count order write a, bad).

Definition decodePoint : json → PointDefinition → PointDefinition * bool := decodeStruct pointFields setPoint.

(** A slice: the elements of its array, of which [sLen] are in it.  A second
    decoding finds the elements of the first. *)
Record slice (A : Type) := mkSlice { sArray : list A; sLen : nat }.
Arguments mkSlice {A} sArray sLen.
Arguments sArray {A} s.
Arguments sLen {A} s.

Definition sliceOf {A} (s : slice A) : list A := take (sLen s) (sArray s).

Fixpoint decodeElements {A} (decode : json → A → A * bool) (zero : A) (elements : list json) (array : list A) : list A * bool :=
  match elements with
  | [] => (array, false)
  | j :: rest =>
      let '(a, bad) := decode j (default zero (head array)) in
      let '(array, bad') := decodeElements decode zero rest (tail array) in
      (a :: array, bad || bad')
  end.

Definition decodeSlice {A} (decode : json → A → A * bool) (zero : A) (j : json) (s : slice A) : slice A * bool :=
  match j with
  | JNull => (mkSlice [] 0, false)
  | JArr [] => (mkSlice [] 0, false)
  | JArr elements =>
      let '(array, bad) := decodeElements decode zero elements (sArray s) in (mkSlice array (length elements), bad)
  | _ => (s, true)
  end.

(** ** The request structs of the handlers, in one record *)

Record request := mkRequest {
  rqProtocol : string;
  rqType : string;
  rqTimestamp : string;
  rqRequestID : string;
  rqScanInterval : Z;
  rqPoints : slice PointDefinition;
  rqAddressRange : string;
  rqPort : option Z;
  rqUnitID : option Z;
  rqDeviceID : string;
  rqPointID : string;
  rqAction : string;
  rqValue : option json
}.

Definition zeroRequest : request := mkRequest "" "" "" "" 0 (mkSlice [] 0) "" None None "" "" "" None.

Definition setRequest (name : string) (j : json) (q : request) : request * bool :=
  let '(mkRequest protocol ty timestamp id interval points address port unit device point action value) := q in
  let text old (k : string → request) := let '(s, bad) := decodeString j old in (k s, bad) in
  if name =s "protocolVersion" then text protocol (fun s => mkRequest s ty timestamp id interval points address port unit device point action value)
  else if name =s "type" then text ty (fun s => mkRequest protocol s timestamp id interval points address port unit device point action value)
  else if name =s "timestamp" then text timestamp (fun s => mkRequest protocol ty s id interval points address port unit device point action value)
  else if name =s "requestId" then text id (fun s => mkRequest protocol ty timestamp s interval points address port unit device point action value)
  else if name =s "scanIntervalMs" then
    let '(z, bad) := decodeInt j interval in (mkRequest protocol ty timestamp id z points address port unit device point action value, bad)
  else if name =s "points" then
    let '(l, bad) := decodeSlice decodePoint zeroPoint j points in
    (mkRequest protocol ty timestamp id interval l address port unit device point action value, bad)
  else if name =s "addressRange" then text address (fun s => mkRequest protocol ty timestamp id interval points s port unit device point action value)
  else if name =s "port" then
    let '(o, bad) := decodePointer decodeInt 0 j port in
    (mkRequest protocol ty timestamp id interval points address o unit device point action value, bad)
  else if name =s "unitId" then
    let '(o, bad) := decodePointer decodeInt 0 j unit in
    (mkRequest protocol ty timestamp id interval points address port o device point action value, bad)
  else if name =s "deviceId" then text device (fun s => mkRequest protocol ty timestamp id interval points address port unit s point action value)
  else if name =s "pointId" then text point (fun s => mkRequest protocol ty timestamp id interval points address port unit device s action value)
  else if name =s "action" then text action (fun s => mkRequest protocol ty timestamp id interval points address port unit device point s value)
  else (* value: a pointer to the text as it stands *)
    (mkRequest protocol ty timestamp id interval points address port unit device point action
       (match j with JNull => None | _ => Some j end), false).

Definition envelopeFields : list string := ["protocolVersion"; "type"; "timestamp"; "requestId"]%string.
Definition configureFields : list string := envelopeFields ++ ["scanIntervalMs"; "points"]%string.
Definition scanFields : list string := envelopeFields ++ ["addressRange"; "port"; "unitId"]%string.
Definition connectFields : list string := envelopeFields ++ ["deviceId"]%string.
Definition commandFields : list string := envelopeFields ++ ["pointId"; "action"; "value"]%string.

(** The request, and whether there was an error. *)
Definition decodeAllowed (allowed : list string) (j : json) : request * bool :=
  match j with
  | JObj members =>
      if forallb (fun m => existsb (String.eqb m.1) allowed) members
      then decodeStruct allowed setRequest j zeroRequest
      else (zeroRequest, true)
  | _ => (zeroRequest, true)
  end.

(** The type that the last member of this name gives. *)
Definition readMessageType (j : json) : option string :=
  match j with
  | JObj members =>
      match List.find (fun m => m.1 =s "type") (reverse members) with
      | Some (_, JStr s) => if s =s "" then None else Some s
      | _ => None
      end
  | _ => None
  end.

(** ** The message of a text *)

Definition envelopeOf (ty : string) (decoded : request * bool) : envelope :=
  let '(q, bad) := decoded in mkEnvelope (bad || (rqType q <>s ty)) (rqProtocol q) (rqTimestamp q) (rqRequestID q).

(** [configure] and [Decode] of the point table. *)
Definition decodeConfigure (j : json) : inbound :=
  let d := decodeAllowed configureFields j in
  InConfigure (envelopeOf "runtime.configure" d) (rqScanInterval d.1) (sliceOf (rqPoints d.1)).

Definition validateSnapshotRequest (j : json) : inbound :=
  InSnapshotGet (envelopeOf "points.snapshot.get" (decodeAllowed envelopeFields j)).

Definition decodeScan (j : json) : inbound :=
  let d := decodeAllowed scanFields j in
  InScan (envelopeOf "plc.scan" d) (rqAddressRange d.1) (rqPort d.1) (rqUnitID d.1).

Definition decodeConnect (j : json) : inbound :=
  let d := decodeAllowed connectFields j in InConnect (envelopeOf "plc.connect" d) (rqDeviceID d.1).

Definition decodeDisconnect (j : json) : inbound :=
  InDisconnect (envelopeOf "plc.disconnect" (decodeAllowed envelopeFields j)).

(** The value of a command is decoded again by itself. *)
Definition decodeCommand (j : json) : inbound :=
  let d := decodeAllowed commandFields j in
  InCommand (envelopeOf "point.command" d) (rqPointID d.1) (rqAction d.1)
    (match rqValue d.1 with
     | None => None
     | Some value => let '(v, bad) := decodeAny value VNil in Some (if bad : bool then None else Some v)
     end).

(** [serveWS]: what a received text means. *)
Definition readInbound (raw : string) : inbound :=
  match unmarshal raw with
  | None => InMalformed
  | Some j =>
      match readMessageType j with
      | None => InMalformed
      | Some ty =>
          if ty =s "runtime.configure" then decodeConfigure j
          else if ty =s "points.snapshot.get" then validateSnapshotRequest j
          else if ty =s "plc.scan" then decodeScan j
          else if ty =s "plc.connect" then decodeConnect j
          else if ty =s "plc.disconnect" then decodeDisconnect j
          else if ty =s "point.command" then decodeCommand j
          else InOther ty
      end
  end.

Definition configOf (q : slice PointDefinition * Z) : Config := mkConfig q.2 (sliceOf q.1).

(** [runtimeconfig.Decode]: the runtime part of a configure message; unknown
    members are ignored. *)
Definition setConfig (name : string) (j : json) (q : slice PointDefinition * Z) : slice PointDefinition * Z * bool :=
  if name =s "scanIntervalMs" then let '(z, bad) := decodeInt j q.2 in (q.1, z, bad)
  else let '(l, bad) := decodeSlice decodePoint zeroPoint j q.1 in (l, q.2, bad).

Definition Decode (raw : string) : option Config :=
  match unmarshal raw with
  | None => None
  | Some j =>
      let '(q, bad) := decodeStruct ["scanIntervalMs"; "points"]%string setConfig j (mkSlice [] 0, 0) in
      if bad : bool then None
      else match Normalize (configOf q) with Ok config => Some config | Err _ => None end
  end.
End messages.
