(* ===== verification/AgentConfig.v ===== *)
(** * Configuration files: [internal/config/config.go]

    The two JSON configurations with every check of [LoadAgent] and
    [LoadSimulator].  Parameters: JSON, and [time.ParseDuration].  Paths are
    those of the Linux target.  The fields of [config.Simulator] that the engine
    reads are [PlcSim.Simulator]. *)

From Stdlib Require Import Ascii String.
From S2P Require Import Prelude GoText GoValue PlcSim.

Record AgentAdapter := mkAgentAdapter { aaType : string; aaIOSocket : string }.

Record Agent := mkAgent {
  agSiteID : string;
  agBlockID : string;
  agDeviceID : string;
  agAdapter : AgentAdapter;
  agDatabasePath : string;
  agSamplePeriod : string;
  agStaleAfter : string;
  agCommandTimeout : string
}.

Record SimulatorConfig := mkSimulatorConfig {
  scIOSocket : string;
  scIOSocketGroup : string;
  scControlSocket : string;
  scControlSocketGroup : string;
  scStateFile : string;
  scSamplePeriod : string;
  scEngine : Simulator
}.

(** A configuration file: unreadable, not one JSON value without unknown fields,
    or a value. *)
Inductive config_file (A : Type) : Type :=
| ConfigUnreadable (e : string)
| ConfigInvalid (e : string)
| ConfigValue (value : A).
Arguments ConfigUnreadable {A} e.
Arguments ConfigInvalid {A} e.
Arguments ConfigValue {A} value.

Inductive config_error : Type :=
| CENotAbsolute (name : string)
| CERead (e : string)
| CEDecode (e : string)
| CEIdentifier
| CEAdapterType
| CEDuration (name : string)
| CEStale
| CEGroup (name : string)
| CESameGroup
| CESameSocket
| CEPassRate
| CEBins
| CECapacity (index : nat)
| CEInitial.

(** [^[a-z0-9](?:[a-z0-9_-]{0,62})$] *)
Definition identifierPattern (s : string) : bool :=
  match s with
  | EmptyString => false
  | String a rest =>
      (isLower a || isDigit a) && allChars (fun a => isLower a || isDigit a || oneOf "_-" a) rest &&
      (String.length rest <=? 62)%nat
  end.

Definition requireAbsolute (name value : string) : result config_error unit :=
  let value := trimSpace value in
  if (value =s "") || negb (hasPrefix value "/") then Err (CENotAbsolute name) else Ok tt.

Definition requireGroup (name value : string) : result config_error unit :=
  let value := trimSpace value in
  if value =s "" then Err (CEGroup name)
  else if allChars (fun a => isLower a || isDigit a || oneOf "-_" a) value then Ok tt
  else Err (CEGroup name).

(** [loadStrict]. *)
Definition loadStrict {A} (path : string) (file : config_file A) : result config_error A :=
  let? _ := requireAbsolute "config path" path in
  match file with
  | ConfigUnreadable e => Err (CERead e)
  | ConfigInvalid e => Err (CEDecode e)
  | ConfigValue value => Ok value
  end.

Section durations.
Variable (parseDuration : string → option Z).

Definition positiveDuration (name value : string) : result config_error Z :=
  match parseDuration value with
  | None => Err (CEDuration name)
  | Some duration => if duration <=? 0 then Err (CEDuration name) else Ok duration
  end.

(** The sample period, the staleness limit and the command timeout. *)
Definition Durations (c : Agent) : result config_error (Z * Z * Z) :=
  let? samplePeriod := positiveDuration "samplePeriod" (agSamplePeriod c) in
  let? staleAfter := positiveDuration "staleAfter" (agStaleAfter c) in
  let? commandTimeout := positiveDuration "commandTimeout" (agCommandTimeout c) in
  if staleAfter <? samplePeriod then Err CEStale else Ok (samplePeriod, staleAfter, commandTimeout).

Definition LoadAgent (path : string) (file : config_file Agent) : result config_error Agent :=
  let? value := loadStrict path file in
  if negb (forallb identifierPattern [agSiteID value; agBlockID value; agDeviceID value]) then Err CEIdentifier
  else
    let type := aaType (agAdapter value) in
    if (type <>s "simulator") && (type <>s "disabled") then Err CEAdapterType
    else
      let? _ := if type =s "simulator" then requireAbsolute "adapter.ioSocket" (aaIOSocket (agAdapter value)) else Ok tt in
      let? _ := requireAbsolute "databasePath" (agDatabasePath value) in
      let? _ := Durations value in
      Ok value.

Definition SampleDuration (c : SimulatorConfig) : result config_error Z := positiveDuration "samplePeriod" (scSamplePeriod c).

(** The loop over the capacities. *)
Fixpoint checkCapacities (index : nat) (capacities : list Z) : result config_error unit :=
  match capacities with
  | [] => Ok tt
  | capacity :: rest => if capacity <? 1 then Err (CECapacity index) else checkCapacities (S index) rest
  end.

Definition LoadSimulator (path : string) (file : config_file SimulatorConfig) : result config_error SimulatorConfig :=
  let? value := loadStrict path file in
  let? _ := requireAbsolute "ioSocket" (scIOSocket value) in
  let? _ := requireAbsolute "controlSocket" (scControlSocket value) in
  let? _ := requireGroup "ioSocketGroup" (scIOSocketGroup value) in
  let? _ := requireGroup "controlSocketGroup" (scControlSocketGroup value) in
  if scIOSocketGroup value =s scControlSocketGroup value then Err CESameGroup
  else if scIOSocket value =s scControlSocket value then Err CESameSocket
  else
    let? _ := requireAbsolute "stateFile" (scStateFile value) in
    let? _ := SampleDuration value in
    let e := scEngine value in
    if f64_ltb (cfPassRate e) (f64_of_Z 0) || f64_ltb (f64_of_Z 1) (cfPassRate e) then Err CEPassRate
    else if negb (length (cfBinCapacities e) =? 3)%nat then Err CEBins
    else
      let? _ := checkCapacities 0 (cfBinCapacities e) in
      if (cfInitialTarget e <? 1) || (cfInitialCycleSeconds e <? 1) || (cfInitialToolLimit e <? 1) ||
         (cfInitialInspectInterval e <? 1)
      then Err CEInitial
      else Ok value.
End durations.
