(* ===== verification/Startup.v ===== *)
(** * Starting: [internal/socketperm/listen.go], [Open] and [initialize] of
      [internal/storage/store.go], the set-up of [internal/mqttv2/session.go] and
      of [internal/sshbootstrap/], and [cmd/ssh-bootstrapd]

    What a program does before it serves.  Parameters: the SQL of the
    migrations, PEM and X.509, [ssh-keygen], the group database, and the failures
    of system calls. *)

From Stdlib Require Import Ascii String.
From S2P Require Import Prelude GoText PlcScan Storage AlarmHistory MqttManager SshBootstrap AgentConfig AgentHttp.

(** ** [socketperm.Listen] *)

Inductive node : Type :=
| NDir (mode gid : Z)
| NSocket (mode gid : Z)
| NLink
| NFile.

#[global] Instance node_eq_dec : EqDecision node. Proof. solve_decision. Defined.

(** What the system makes of a path: the file that it names, after the links in
    the directories before the last element, [.] and [..]: different texts may
    name one file.  And the mode of a new directory: 0750 less the umask. *)
Class FileSystem := { nodeOf : string → string; newDirMode : Z }.

(** The files, by what names them, and the outcome of the system calls to come. *)
Record OS := mkOS { osFiles : gmap string node; osFaults : list (option string) }.

Inductive listen_error : Type :=
| LESystem (e : string)
| LENotDirectory | LENotSocket | LEGroupRequired | LEGroup (e : string).

Abbreviation OsM := (GoM OS listen_error).

Definition syscall : OsM unit := fun os =>
  match osFaults os with
  | [] => (Ok tt, os)
  | fault :: rest =>
      let os := mkOS (osFiles os) rest in
      match fault with None => (Ok tt, os) | Some e => (Err (LESystem e), os) end
  end.

Section files.
Context `{FileSystem}.

Definition nodeAt (path : string) (os : OS) : option node := osFiles os !! nodeOf path.
Definition putNode (path : string) (n : node) : OsM unit := gmod (fun os => mkOS (<[nodeOf path := n]> (osFiles os)) (osFaults os)).
Definition dropNode (path : string) : OsM unit := gmod (fun os => mkOS (delete (nodeOf path) (osFiles os)) (osFaults os)).
End files.

(** [filepath.Dir] of an absolute path. *)
Definition dirOf (path : string) : string :=
  match cutLast "/" path with
  | Some (before, _) =>
      match cleanSegments [] (splitChar before "/") with [] => "/" | segments => joinSegments segments end
  | None => "."
  end.

Definition mode0750 : Z := 488.
Definition mode0660 : Z := 432.

(** The beginnings of a text that end with a slash. *)
Fixpoint slashPrefixes (s : string) : list string :=
  match s with
  | EmptyString => []
  | String a rest => (if Ascii.eqb a "/" then ["/"%string] else []) ++ map (String a) (slashPrefixes rest)
  end.

(** The directories above a clean path, the nearest first. *)
Definition parents (path : string) : list string := if path =s "/" then [] else reverse (slashPrefixes path).

Section listen.
Context `{FileSystem}.

(** A group's id, or an error; the group of new files; their mode for sockets. *)
Variables (lookupGroup : string → result string Z) (ownGid socketMode : Z).

(** [os.Stat]: whether the path is a directory, or a link to one; [None] for an
    error. *)
Definition stat (path : string) : GoM OS listen_error (option bool) := fun os =>
  match syscall os with
  | (Err _, os) => (Ok None, os)
  | (Ok _, os) =>
      (Ok (if nodeOf path =s "/" then Some true
           else match nodeAt path os with
                | None => None
                | Some (NDir _ _) | Some NLink => Some true
                | Some _ => Some false
                end), os)
  end.

(** [os.Mkdir], and what [os.MkdirAll] does when it fails. *)
Definition mkdir (path : string) : OsM unit := fun os =>
  let '(made, os) :=
    (run! syscall;
     do! os <- gget;
     match nodeAt path os with None => putNode path (NDir newDirMode ownGid) | Some _ => gfail (LESystem "file exists") end) os in
  match made with
  | Ok _ => (Ok tt, os)
  | Err e =>
      match syscall os with        (* Lstat *)
      | (Ok _, os) => match nodeAt path os with Some (NDir _ _) => (Ok tt, os) | _ => (Err e, os) end
      | (Err _, os) => (Err e, os)
      end
  end.

(** [os.MkdirAll] of the first path, the others being the directories above it. *)
Fixpoint makeAll (paths : list string) : OsM unit :=
  match paths with
  | [] => gret tt
  | path :: above =>
      do! found <- stat path;
      match found with
      | Some true => gret tt
      | Some false => gfail (LESystem "not a directory")
      | None => run! makeAll above; mkdir path
      end
  end.

Definition mkdirAll (directory : string) : OsM unit := makeAll (directory :: parents directory).

Definition withGid (gid : Z) (n : node) : node :=
  match n with NDir mode _ => NDir mode gid | NSocket mode _ => NSocket mode gid | n => n end.
Definition withMode (mode : Z) (n : node) : node :=
  match n with NDir _ gid => NDir mode gid | NSocket _ gid => NSocket mode gid | n => n end.

Definition onNode (path : string) (f : node → node) : OsM unit :=
  run! syscall;
  gmod (fun os => mkOS (alter f (nodeOf path) (osFiles os)) (osFaults os)).

Definition setGroup (path name : string) : OsM unit :=
  if name =s "" then gfail LEGroupRequired
  else match lookupGroup name with
       | Err e => gfail (LEGroup e)
       | Ok gid => onNode path (withGid gid)
       end.

(** A failure after the socket exists: the listener's close unlinks it, and so
    does [os.Remove], each unless it fails. *)
Definition orRemove (path : string) (m : OsM unit) : OsM unit := fun os =>
  match m os with
  | (Ok _, os) => (Ok tt, os)
  | (Err e, os) =>
      let '(r1, os) := (run! syscall; dropNode path) os in
      let '(r2, os) := (run! syscall; dropNode path) os in
      (Err e, os)
  end.

Definition Listen (path socketGroup : string) : OsM unit :=
  let directory := dirOf path in
  run! mkdirAll directory;
  run! syscall;                           (* Lstat *)
  do! os <- gget;
  match nodeAt directory os with
  | Some (NDir _ _) =>
      run! setGroup directory socketGroup;
      run! onNode directory (withMode mode0750);
      run! syscall;                       (* Lstat *)
      do! os <- gget;
      run! match nodeAt path os with
           | Some (NSocket _ _) => run! syscall; dropNode path
           | Some _ => gfail LENotSocket
           | None => gret tt
           end;
      run! syscall;                       (* net.Listen *)
      run! putNode path (NSocket socketMode ownGid);
      run! orRemove path (setGroup path socketGroup);
      orRemove path (onNode path (withMode mode0660))
  | _ => gfail LENotDirectory
  end.
End listen.

(** ** [storage.Open] *)

(** The database file: the tables of [Storage], the alarm table, and the columns
    of the command table. *)
Record Database := mkDatabase { daStore : Storage.Store; daHistory : HistoryDB; daColumns : list string }.

Inductive open_error : Type :=
| OEStatement (e : string)
| OEJournal (mode : string)
| OEHistory (e : history_error)
| OERecover (e : store_error).

Definition migrationFiles : list string :=
  ["001_init.sql"; "004_auth.sql"; "005_alarm_history_v2.sql"; "006_cleanup.sql"; "007_plc_endpoint.sql"]%string.

Section open.
Variables (migrate : string → Database → result string Database)   (* one file of SQL *)
  (details : string → CommandRow → string) (now : string → Z).

Fixpoint applyMigrations (files : list string) (d : Database) : result open_error Database :=
  match files with
  | [] => Ok d
  | file :: rest => match migrate file d with Err e => Err (OEStatement e) | Ok d => applyMigrations rest d end
  end.

(** [faults]: the outcome of reading the columns and of the two statements. *)
Definition ensureCommandMetadataColumns (faults : option string * option string * option string) (d : Database)
  : result open_error Database :=
  let '(read, first, second) := faults in
  let add name fault d :=
    if existsb (String.eqb name) (daColumns d) then Ok d
    else match fault with
         | Some e => Err (OEStatement e)
         | None => Ok (mkDatabase (daStore d) (daHistory d) (daColumns d ++ [name]))
         end in
  match read with
  | Some e => Err (OEStatement e)
  | None => let? d := add "operator" first d in add "request_id" second d
  end.

(** [pragmas] is the first failure of the three pragmas, [journal] what setting
    the journal mode answers. *)
Definition initialize (pragmas : option string) (journal : result string string)
    (columnFaults : option string * option string * option string) (d : Database) : result open_error Database :=
  match pragmas with
  | Some e => Err (OEStatement e)
  | None =>
      match journal with
      | Err e => Err (OEStatement e)
      | Ok mode =>
          if mode <>s "wal" then Err (OEJournal mode)
          else
            let? d := applyMigrations migrationFiles d in
            match ensureAlarmHistoryV2Schema (daHistory d) with
            | (Err e, _) => Err (OEHistory e)
            | (Ok _, history) =>
                let? d := ensureCommandMetadataColumns columnFaults (mkDatabase (daStore d) history (daColumns d)) in
                match RecoverPending details now (daStore d) with
                | (Err e, _) => Err (OERecover e)
                | (Ok _, st) => Ok (mkDatabase st (daHistory d) (daColumns d))
                end
            end
      end
  end.

(** A store that has seen no snapshot yet: the backend is unavailable. *)
Definition Open (directory connect pragmas : option string) (journal : result string string)
    (columnFaults : option string * option string * option string) (d : Database) : result open_error Database :=
  match directory with
  | Some e => Err (OEStatement e)
  | None =>
      match connect with
      | Some e => Err (OEStatement e)
      | None =>
          initialize pragmas journal columnFaults
            (mkDatabase (setHealth false AvailabilityBackendUnavailable (daStore d)) (daHistory d) (daColumns d))
      end
  end.

(** [Close]. *)
Definition Close (d : Database) : Database :=
  mkDatabase (Storage.SetSourceUnavailable AvailabilityBackendUnavailable (daStore d)).2 (daHistory d) (daColumns d).
End open.

(** ** The MQTT session's set-up *)

Record ConnectionConfig := mkConnectionConfig {
  ccEndpoint : string;
  ccPrincipal : string;
  ccSource : Source
}.

Inductive key_usage : Type := UsageClientAuth | UsageAny | UsageOther.

Record certificate := mkCert { ceCommonName : string; ceNotBefore : Z; ceNotAfter : Z; ceUsages : list key_usage }.

(** A parsed endpoint: [url.Parse] with the parts that the check reads. *)
Record endpoint_url := mkEndpointURL {
  euScheme : string; euHostname : string; euPort : string; euUser : bool; euPath : string; euRawQuery : string;
  euFragment : string; euHost : string
}.

(** What reading the files gives: the CA file and whether it has certificates;
    the key pair's chain; its parsed leaf. *)
Record tls_files := mkTlsFiles {
  tfCA : result string bool;
  tfPair : result string nat;               (* the length of the chain *)
  tfLeaf : result string certificate
}.

Inductive setup_error : Type :=
| SESource | SEEndpoint | SEPrincipal | SEReadCA (e : string) | SENoCA | SELoadPair (e : string) | SEEmptyChain
| SEParse (e : string) | SECommonName | SEValidity | SEClientAuth | SEHistory.

(** The TLS settings: versions, the server's name, the client's certificate. *)
Record tls_settings := mkTlsSettings { tsMinVersion : Z; tsMaxVersion : Z; tsServerName : string; tsLeaf : certificate }.

Definition VersionTLS12 : Z := 771.
Definition VersionTLS13 : Z := 772.

Section mqtt.
Variable (parseURL : string → option endpoint_url).

Definition clientUsage (u : key_usage) : bool := match u with UsageClientAuth | UsageAny => true | UsageOther => false end.

Definition endpointOk (u : endpoint_url) : bool :=
  (euScheme u =s "mqtts") && (euHostname u <>s "") && (euPort u =s "8883") && negb (euUser u) && (euPath u =s "") &&
  (euRawQuery u =s "") && (euFragment u =s "").

Definition newTLSConfig (config : ConnectionConfig) (files : tls_files) (now : Z) : result setup_error (tls_settings * string) :=
  match parseURL (ccEndpoint config) with
  | None => Err SEEndpoint
  | Some parsed =>
      if negb (endpointOk parsed) then Err SEEndpoint
      else if ccPrincipal config =s "" then Err SEPrincipal
      else match tfCA files with
           | Err e => Err (SEReadCA e)
           | Ok false => Err SENoCA
           | Ok true =>
               match tfPair files with
               | Err e => Err (SELoadPair e)
               | Ok 0%nat => Err SEEmptyChain
               | Ok (S _) =>
                   match tfLeaf files with
                   | Err e => Err (SEParse e)
                   | Ok leaf =>
                       if ceCommonName leaf <>s ccPrincipal config then Err SECommonName
                       else if (now <? ceNotBefore leaf) || (ceNotAfter leaf <? now) then Err SEValidity
                       else if negb (existsb clientUsage (ceUsages leaf)) then Err SEClientAuth
                       else Ok (mkTlsSettings VersionTLS12 VersionTLS13 (euHostname parsed) leaf, euHost parsed)
                   end
               end
           end
  end.

Record mqtt_session := mkMqttSession {
  msTLS : tls_settings;
  msAddress : string;
  msClientID : string;
  msSubscriptions : list string;
  msManager : Manager
}.

Definition NewSession (config : ConnectionConfig) (interval : Z) (files : tls_files) (now : Z) : result setup_error mqtt_session :=
  if negb (validSource (ccSource config)) then Err SESource
  else
    let? t := newTLSConfig config files now in
    let topics := NewTopics (soSiteID (ccSource config)) (soBlockID (ccSource config)) in
    Ok (mkMqttSession t.1 t.2 (ccPrincipal config) [tpStateGet topics; tpAlarmHistoryQuery topics]
          (NewManager (ccSource config) interval)).

(** [newMQTTSession] of the runtime; [history] is whether it has an alarm history. *)
Definition newMQTTSession (enabled history : bool) (config : ConnectionConfig) (files : tls_files) (now : Z)
  : result setup_error (option mqtt_session) :=
  if negb enabled then Ok None
  else if negb history then Err SEHistory
  else let? s := NewSession config 0 files now in Ok (Some s).
End mqtt.

(** ** The SSH bootstrap service *)

Record BootstrapConfig := mkBootstrap { bsListenAddress : string; bsConfig : SshBootstrap.Config }.

Inductive bootstrap_error : Type :=
| BEPath | BERead (e : string) | BEDecode (e : string) | BEListen | BEConfig | BEAdminKey | BESigner | BEKeyPair | BENonces | BEParts.

Definition validateBootstrap (c : BootstrapConfig) : result bootstrap_error unit :=
  match SplitHostPort (bsListenAddress c) with
  | None => Err BEListen
  | Some (_, port) => if port =s "" then Err BEListen else if validateConfig (bsConfig c) then Ok tt else Err BEConfig
  end.

Definition LoadConfig (path : string) (file : config_file BootstrapConfig) : result bootstrap_error BootstrapConfig :=
  if negb (hasPrefix path "/") then Err BEPath
  else match file with
       | ConfigUnreadable e => Err (BERead e)
       | ConfigInvalid e => Err (BEDecode e)
       | ConfigValue c =>
           let c := if bsListenAddress c =s "" then mkBootstrap ":9443" (bsConfig c) else c in
           let? _ := validateBootstrap c in Ok c
       end.

(** [strings.Fields]; [skip] counts the rest of a space that has been seen. *)
Fixpoint fieldsFrom (skip : nat) (cur : string) (s : string) : list string :=
  let flush rest := if cur =s "" then rest else String.rev cur :: rest in
  match s with
  | EmptyString => flush []
  | String a rest =>
      match skip with
      | S skip => fieldsFrom skip cur rest
      | O =>
          match prefix_len space_runes s with
          | Some (S n) => flush (fieldsFrom n "" rest)
          | _ => fieldsFrom 0 (String a cur) rest
          end
      end
  end.
Definition Fields (s : string) : list string := fieldsFrom 0 "" s.

Section bootstrap.
(** A file's text; the first PEM block and the rest; the ED25519 key of a block;
    what [ssh-keygen -y] prints. *)
Variables (readFile : string → option string) (pemDecode : string → option (string * string))
  (parseKey : string → option (list Z)) (keygen : string → option string).

Definition LoadAdministratorPublicKey (path : string) : result bootstrap_error (list Z) :=
  match readFile path with
  | None => Err BEAdminKey
  | Some contents =>
      match pemDecode contents with
      | None => Err BEAdminKey
      | Some (block, rest) =>
          if trimSpace rest <>s "" then Err BEAdminKey
          else match parseKey block with Some key => Ok key | None => Err BEAdminKey end
      end
  end.

Record SSHSigner := mkSigner { sgPath : string; sgPublicLine : string }.

Definition LoadSSHSigner (path : string) : result bootstrap_error SSHSigner :=
  if path =s "" then Err BESigner
  else match keygen path with
       | None => Err BESigner
       | Some output =>
           let publicLine := trimSpace output in
           if negb (hasPrefix publicLine "ssh-ed25519 ") then Err BESigner else Ok (mkSigner path publicLine)
       end.

Definition ValidateSSHCAKeyPair (signer : SSHSigner) (publicKeyPath : string) : result bootstrap_error unit :=
  match readFile publicKeyPath with
  | None => Err BEKeyPair
  | Some contents =>
      match Fields (trimSpace contents), Fields (sgPublicLine signer) with
      | type :: key :: _, type' :: key' :: _ =>
          if (type =s "ssh-ed25519") && (type =s type') && (key =s key') then Ok tt else Err BEKeyPair
      | _, _ => Err BEKeyPair
      end
  end.

Definition NewCertificateIssuer (ca : SSHSigner) : result bootstrap_error SSHSigner :=
  if sgPath ca =s "" then Err BESigner else Ok ca.

(** [OpenNonceStore] with the outcome of its file operations and statements. *)
Definition OpenNonceStore (path : string) (faults : list (option string)) (existing : NonceDB) : result bootstrap_error NonceDB :=
  if negb (hasPrefix path "/") then Err BENonces
  else if forallb (fun f => match f with None => true | Some _ => false end) faults then Ok existing else Err BENonces.

Record Handler := mkHandler { hdConfig : BootstrapConfig; hdAdminKey : list Z; hdIssuer : SSHSigner; hdNonces : NonceDB }.

Definition NewHandler (config : BootstrapConfig) (adminKey : list Z) (nonces : option NonceDB) (issuer : option SSHSigner)
  : result bootstrap_error Handler :=
  let? _ := validateBootstrap config in
  if negb (length adminKey =? 32)%nat then Err BEAdminKey
  else match nonces, issuer with
       | Some nonces, Some issuer => Ok (mkHandler config adminKey issuer nonces)
       | _, _ => Err BEParts
       end.

(** [main] of ssh-bootstrapd up to serving; the paths are in the order of
    [absolutePathFieldList]. *)
Definition bootstrapMain (configPath : string) (file : config_file BootstrapConfig) (faults : list (option string)) (existing : NonceDB)
  : result bootstrap_error Handler :=
  if configPath =s "" then Err BEPath
  else
    let? config := LoadConfig configPath file in
    let path n := nth n (cfPaths (bsConfig config)) ""%string in
    let? adminKey := LoadAdministratorPublicKey (path 0%nat) in
    let? signer := LoadSSHSigner (path 3%nat) in
    let? _ := ValidateSSHCAKeyPair signer (path 4%nat) in
    let? issuer := NewCertificateIssuer signer in
    let? nonces := OpenNonceStore (path 5%nat) faults existing in
    NewHandler config adminKey (Some nonces) (Some issuer).
End bootstrap.
