(* ===== verification/SimAccept.v ===== *)
(** * The register simulator's connections: [Serve] of
      [src/tools/plc-simulator/server.go]

    The accept loop, the goroutine that waits for the context, and one goroutine
    per connection, as a step relation.  A step is what one of them does between
    two accesses to what they share: the listener, the connections, the set of
    active connections under its mutex, the counter and the context.  A handler
    reads and answers requests ([SimServer]) as long as its connection is open. *)

From stdpp Require Import relations.
From S2P Require Import Prelude.

(** Where a connection's goroutine stands. *)
Inductive handler : Type :=
| HWaiting            (* accepted, not registered: no goroutine yet *)
| HServing            (* in [serveConnection] *)
| HClosing            (* no longer in the set; about to close *)
| HDone.

Record connection := mkConnection { coOpen : bool; coHandler : handler }.

(** The accept loop of [Serve], and its deferred function. *)
Inductive serve_phase : Type :=
| SAccepting
| SAccepted (n : nat)              (* has a connection, before the mutex *)
| SDeferred (result : option string)
| SWaiting (result : option string)    (* [connections.Wait] *)
| SReturned (result : option string).

(** [shutdownOnce]: not begun; the listener is closed; everything is. *)
Inductive once : Type := OnceIdle | OnceListener | OnceDone.

Record Serving := mkServing {
  svPhase : serve_phase;
  svCancelled : bool;                    (* [ctx.Err() != nil] *)
  svStopped : bool;                      (* [stopped] is closed *)
  svListening : bool;
  svShutdown : once;
  svBacklog : nat;                       (* connections that [Accept] has not taken *)
  svConnections : gmap nat connection;
  svActive : gset nat;                   (* [activeConnections] *)
  svCount : Z                            (* [s.activeConnections] *)
}.

Definition startServing : Serving := mkServing SAccepting false false true OnceIdle 0 ∅ ∅ 0.

Definition setPhase (p : serve_phase) (s : Serving) : Serving :=
  mkServing p (svCancelled s) (svStopped s) (svListening s) (svShutdown s) (svBacklog s) (svConnections s) (svActive s) (svCount s).
Definition setConnection (n : nat) (c : connection) (s : Serving) : Serving :=
  mkServing (svPhase s) (svCancelled s) (svStopped s) (svListening s) (svShutdown s) (svBacklog s)
    (<[n := c]> (svConnections s)) (svActive s) (svCount s).

(** [listener.Accept] returns a connection. *)
Definition accepted (n : nat) (s : Serving) : Serving :=
  mkServing (SAccepted n) (svCancelled s) (svStopped s) (svListening s) (svShutdown s) (pred (svBacklog s))
    (<[n := mkConnection true HWaiting]> (svConnections s)) (svActive s) (svCount s).

(** It returns an error: nil if the context is done. *)
Definition acceptFailed (e : string) (s : Serving) : Serving :=
  setPhase (SDeferred (if svCancelled s then None else Some (String.append "accept connection: " e))) s.

(** Under the mutex: registered with its goroutine, or closed. *)
Definition register (n : nat) (s : Serving) : Serving :=
  if svCancelled s then setPhase (SDeferred None) (setConnection n (mkConnection false HDone) s)
  else
    mkServing SAccepting (svCancelled s) (svStopped s) (svListening s) (svShutdown s) (svBacklog s)
      (<[n := mkConnection true HServing]> (svConnections s)) ({[n]} ∪ svActive s) (svCount s + 1).

(** The deferred calls of a handler: out of the set, then closed. *)
Definition unregister (n : nat) (c : connection) (s : Serving) : Serving :=
  mkServing (svPhase s) (svCancelled s) (svStopped s) (svListening s) (svShutdown s) (svBacklog s)
    (<[n := mkConnection (coOpen c) HClosing]> (svConnections s)) (svActive s ∖ {[n]}) (svCount s - 1).

(** [shutdown]: the listener first, then the active connections under the mutex. *)
Definition closeListener (s : Serving) : Serving :=
  mkServing (svPhase s) (svCancelled s) (svStopped s) false OnceListener 0 (svConnections s) (svActive s) (svCount s).

Definition closeActive (s : Serving) : Serving :=
  mkServing (svPhase s) (svCancelled s) (svStopped s) (svListening s) OnceDone (svBacklog s)
    (map_imap (fun n c => Some (if bool_decide (n ∈ svActive s) then mkConnection false (coHandler c) else c)) (svConnections s))
    (svActive s) (svCount s).

(** [close(stopped)], the first deferred statement. *)
Definition stop (result : option string) (s : Serving) : Serving :=
  mkServing (SWaiting result) (svCancelled s) true (svListening s) (svShutdown s) (svBacklog s) (svConnections s) (svActive s) (svCount s).

(** The wait group is at zero: no connection has a goroutine. *)
Definition running (h : handler) : Prop := match h with HServing | HClosing => True | _ => False end.
#[global] Instance running_dec h : Decision (running h). Proof. destruct h; solve_decision. Defined.
Definition allDone (s : Serving) : Prop := map_Forall (fun _ c => ¬ running (coHandler c)) (svConnections s).

(** What clients and the caller do. *)
Inductive outer_step (s : Serving) : Serving → Prop :=
| ac_cancel :
    outer_step s (mkServing (svPhase s) true (svStopped s) (svListening s) (svShutdown s) (svBacklog s) (svConnections s) (svActive s) (svCount s))
| ac_dial :
    svListening s = true →
    outer_step s (mkServing (svPhase s) (svCancelled s) (svStopped s) (svListening s) (svShutdown s) (S (svBacklog s))
                    (svConnections s) (svActive s) (svCount s))
| ac_hang_up n c :
    svConnections s !! n = Some c → coHandler c = HServing → outer_step s (setConnection n (mkConnection false HServing) s)
| ac_reject n c :      (* a request that is not one: the handler leaves, the connection is still open *)
    svConnections s !! n = Some c → coHandler c = HServing → outer_step s (unregister n c s)
| ac_broken e : svPhase s = SAccepting → outer_step s (acceptFailed e s).

(** What the server does. *)
Inductive inner_step (s : Serving) : Serving → Prop :=
| ac_accept n :
    svPhase s = SAccepting → svListening s = true → svBacklog s ≠ 0%nat → svConnections s !! n = None →
    inner_step s (accepted n s)
| ac_closed : svPhase s = SAccepting → svListening s = false → inner_step s (acceptFailed "use of closed network connection" s)
| ac_register n : svPhase s = SAccepted n → inner_step s (register n s)
| ac_stop result : svPhase s = SDeferred result → inner_step s (stop result s)
| ac_shutdown :
    svShutdown s = OnceIdle → (svCancelled s = true ∧ svStopped s = false ∨ ∃ result, svPhase s = SWaiting result) →
    inner_step s (closeListener s)
| ac_close_all : svShutdown s = OnceListener → inner_step s (closeActive s)
| ac_return result :
    svPhase s = SWaiting result → svShutdown s = OnceDone → allDone s → inner_step s (setPhase (SReturned result) s)
| ac_leave n c :
    svConnections s !! n = Some c → coHandler c = HServing → coOpen c = false → inner_step s (unregister n c s)
| ac_close n c :
    svConnections s !! n = Some c → coHandler c = HClosing → inner_step s (setConnection n (mkConnection false HDone) s).

Definition serving_step (s s' : Serving) : Prop := inner_step s s' ∨ outer_step s s'.
Definition serving_reachable (s : Serving) : Prop := rtc serving_step startServing s.
