(* ===== verification/Programs.v ===== *)
(** * The programs: [cmd/block-agent], [cmd/plc-simulator] with [Serve] of
      [internal/plcsim/server.go], [src/tools/plc-simulator] (main.go and the
      status and event stream of web.go), and [cmd/block-e2e]

    How a program is put together from its flags, what it does until it serves,
    and how it ends.  Parameters: the SQL of the migrations, the failures of
    system calls, [net.ParseIP] and [strings.EqualFold], the JSON text of an event,
    and what the test program meets: HTTP answers, messages, failing calls. *)

From Stdlib Require Import Ascii String.
From stdpp Require Import pretty.
From S2P Require Import Prelude GoText RuntimeConfig PlcScan Hmi Messages PlcSim Storage Interleave Auth SshBootstrap SshKeys Maintenance AgentConfig AgentHttp SimServer SimPoints Startup.

(** ** Paths of files *)

(** [path.Clean] on the segments of a path that is not rooted. *)
Fixpoint cleanRelative (done_ segments : list string) : list string :=
  match segments with
  | [] => reverse done_
  | segment :: rest =>
      if (segment =s "") || (segment =s ".") then cleanRelative done_ rest
      else if segment =s ".." then
        match done_ with
        | [] => cleanRelative [".."%string] rest
        | last :: before => if last =s ".." then cleanRelative (".."%string :: done_) rest else cleanRelative before rest
        end
      else cleanRelative (segment :: done_) rest
  end.

(** [filepath.Clean], [filepath.Dir], and [filepath.Join] of a clean path and a name. *)
Definition cleanFile (p : string) : string :=
  if hasPrefix p "/" then match cleanSegments [] (splitChar p "/") with [] => "/" | segments => joinSegments segments end
  else match cleanRelative [] (splitChar p "/") with [] => "." | segments => drop_str 1 (joinSegments segments) end.

Definition fileDir (p : string) : string :=
  match cutLast "/" p with Some (before, _) => cleanFile (String.append before "/") | None => "." end.

Definition fileJoin (directory name : string) : string := cleanFile (String.append directory (String "/" name)).

(** ** block-agent *)

Record AgentFlags := mkAgentFlags {
  fgLocalAddress : string;
  fgLocalCert : string;
  fgLocalKey : string;
  fgStateDB : string;
  fgHMIDirectory : string;
  fgWiFiInterface : string;
  fgMaintenanceAddress : string;
  fgMaintenanceCert : string;
  fgMaintenanceKey : string;
  fgKeys : KeyConfig;
  fgMQTT : bool
}.

(** What the program finds: [os.Stat] of the HMI's directory, the outcomes of
    opening the database and its tables, the settings file, the time, and what
    loading the certificate and listening answer. *)
Record AgentMachine := mkAgentMachine {
  amHMI : result string bool;
  amOpen : option string * option string * option string * result string string * (option string * option string * option string);
  amDatabase : Database;
  amAccounts : AuthDB;
  amSettings : settings_file;
  amNow : Z;
  amPair : option string;
  amListen : result string (option (list Z))
}.

Inductive agent_fatal : Type :=
| AFHMI (e : string) | AFNotDirectory | AFDatabase (e : open_error) | AFAccounts (e : auth_error) | AFRuntime (e : runtime_error)
| AFLocalTLS | AFMaintenanceTLS | AFMaintenance | AFRun (e : runtime_error).

Record AgentParts := mkAgentParts {
  apDatabase : Database;
  apAccounts : AuthDB;
  apRuntime : runtime_parts;
  apMaintenance : option KeyState
}.

Section agent.
Variables (migrate : string → Database → result string Database) (details : string → CommandRow → string) (now : string → Z).

Definition openDatabase (m : AgentMachine) : result open_error Database :=
  let '(directory, connect, pragmas, journal, columnFaults) := amOpen m in
  Open migrate details now directory connect pragmas journal columnFaults (amDatabase m).

Definition agentOptions (flags : AgentFlags) : RuntimeOptions :=
  let directory := fileDir (fgStateDB flags) in
  mkRuntimeOptions true true (fileJoin directory "maintenance.json") (fgMQTT flags)
    (Some (fileJoin directory "wifi-tmp")) (fgWiFiInterface flags).

(** The maintenance server, if its address is set. *)
Definition maintenanceSetup (flags : AgentFlags) (m : AgentMachine) : result agent_fatal (option KeyState) :=
  if fgMaintenanceAddress flags =s "" then Ok None
  else if (fgMaintenanceCert flags =s "") || (fgMaintenanceKey flags =s "") then Err AFMaintenanceTLS
  else if validateKeyConfig (fgKeys flags) then Ok (Some (NewKeyHandler (amNow m))) else Err AFMaintenance.

(** [main] up to serving; an error is a [log.Fatal]. *)
Definition agentMain (flags : AgentFlags) (m : AgentMachine) : result agent_fatal AgentParts :=
  let? hmi :=
    if fgHMIDirectory flags =s "" then Ok false
    else match amHMI m with Err e => Err (AFHMI e) | Ok false => Err AFNotDirectory | Ok true => Ok true end in
  let? database := match openDatabase m with Err e => Err (AFDatabase e) | Ok d => Ok d end in
  let? accounts := match NewService (amAccounts m) with (Err e, _) => Err (AFAccounts e) | (Ok _, db) => Ok db end in
  let? parts :=
    match NewLocalRuntimeWithOptions (fgLocalAddress flags) hmi (agentOptions flags) (amSettings m) with
    | Err e => Err (AFRuntime e)
    | Ok parts => Ok parts
    end in
  if (fgLocalCert flags =s "") || (fgLocalKey flags =s "") then Err AFLocalTLS
  else
    let? maintenance := maintenanceSetup flags m in
    match RunTLS (fgLocalCert flags) (fgLocalKey flags) (amPair m) (amListen m) parts with
    | Err e => Err (AFRun e)
    | Ok parts => Ok (mkAgentParts database accounts parts maintenance)
    end.
End agent.

(** *** The agent at work *)

(** [Exited] with a status, or killed by the default action of a signal. *)
Inductive agent_end : Type := Exited (status : Z) | Killed.

(** [RunTLS] runs; it has returned nil and the deferred calls run; [stop] has
    been called among them. *)
Inductive agent_phase : Type := PhaseServing | PhaseDeferred | PhaseClosing.

Record AgentProcess (R : Type) := mkProcess {
  agCancelled : bool;                     (* the context of the signals is done *)
  agRestored : bool;                      (* signals have their default action again *)
  agServing : bool;                       (* the maintenance server *)
  agPhase : agent_phase;
  agRuntime : R;
  agEnd : option agent_end
}.
Arguments mkProcess {R} agCancelled agRestored agServing agPhase agRuntime agEnd.
Arguments agCancelled {R} a.
Arguments agRestored {R} a.
Arguments agServing {R} a.
Arguments agPhase {R} a.
Arguments agRuntime {R} a.
Arguments agEnd {R} a.

Inductive agent_event : Type :=
| EvSignal                                (* SIGINT or SIGTERM *)
| EvMaintenance (e : string)              (* the maintenance server stops by itself *)
| EvLocal (ended : serve_end)             (* the local server stops *)
| EvDeferred.                             (* [main]'s deferred calls go on *)

(** The [stop] of [signal.NotifyContext] cancels the context and ends the
    notification: from then on a signal has its default action. *)
Definition stopSignals {R} (p : AgentProcess R) : AgentProcess R :=
  mkProcess true true (agServing p) (agPhase p) (agRuntime p) (agEnd p).

Section process.
Context {R : Type} (StopSession : R → R).

(** [None]: not possible.  A first signal cancels the context, the next ones are
    dropped; once [stop] was called a signal kills the process.  A failed
    maintenance server calls [stop].  The deferred calls ([Shutdown] of the
    maintenance server and [stop]; then [store.Close]) run when [RunTLS] returns
    nil, and not after [log.Fatalf]. *)
Definition agentEvent (ev : agent_event) (p : AgentProcess R) : option (AgentProcess R) :=
  match agEnd p with
  | Some _ => None
  | None =>
      match ev with
      | EvSignal =>
          if agRestored p then Some (mkProcess (agCancelled p) true false (agPhase p) (agRuntime p) (Some Killed))
          else Some (mkProcess true false (agServing p) (agPhase p) (agRuntime p) None)
      | EvMaintenance _ =>
          if agServing p then Some (stopSignals (mkProcess (agCancelled p) (agRestored p) false (agPhase p) (agRuntime p) None)) else None
      | EvLocal ended =>
          match agPhase p with
          | PhaseServing =>
              if match ended with ContextDone _ => agCancelled p | _ => true end then
                match serve StopSession ended (agRuntime p) with
                | (Ok _, r) => Some (mkProcess (agCancelled p) (agRestored p) (agServing p) PhaseDeferred r None)
                | (Err _, r) => Some (mkProcess (agCancelled p) (agRestored p) (agServing p) PhaseServing r (Some (Exited 1)))
                end
              else None
          | _ => None
          end
      | EvDeferred =>
          match agPhase p with
          | PhaseServing => None
          | PhaseDeferred => Some (stopSignals (mkProcess (agCancelled p) (agRestored p) false PhaseClosing (agRuntime p) None))
          | PhaseClosing => Some (mkProcess (agCancelled p) (agRestored p) false PhaseClosing (agRuntime p) (Some (Exited 0)))
          end
      end
  end.

Fixpoint agentRun (events : list agent_event) (p : AgentProcess R) : option (AgentProcess R) :=
  match events with
  | [] => Some p
  | ev :: rest => match agentEvent ev p with Some p => agentRun rest p | None => None end
  end.
End process.

(** ** plc-simulator: the simulated PLC's two sockets *)

Inductive sockets_error : Type := SEIO (e : listen_error) | SEControl (e : listen_error).

Abbreviation SocketsM := (GoM OS sockets_error).

Section sockets.
Context `{FileSystem}.
Variables (lookupGroup : string → result string Z) (ownGid socketMode : Z).

(** A call whose error is dropped. *)
Definition ignore {E} (m : OsM unit) : GoM OS E unit := fun os => let '(_, os) := m os in (Ok tt, os).

(** Another error for the one of [m]. *)
Definition listenAs (wrap_ : listen_error → sockets_error) (m : OsM unit) : SocketsM unit := fun os =>
  match m os with (Ok _, os) => (Ok tt, os) | (Err e, os) => (Err (wrap_ e), os) end.

(** [listener.Close] unlinks the socket; [os.Remove] does it again. *)
Definition unlink (path : string) : OsM unit := run! syscall; dropNode path.

(** When the control socket cannot be made, the IO socket goes again. *)
Definition orUnlink (path : string) (m : OsM unit) : SocketsM unit := fun os =>
  match m os with
  | (Ok _, os) => (Ok tt, os)
  | (Err e, os) => (run! ignore (unlink path); run! ignore (unlink path); gfail (SEControl e)) os
  end.

(** [Serve] up to serving. *)
Definition openSockets (c : SimulatorConfig) : SocketsM unit :=
  run! listenAs SEIO (Listen lookupGroup ownGid socketMode (scIOSocket c) (scIOSocketGroup c));
  run! orUnlink (scIOSocket c) (Listen lookupGroup ownGid socketMode (scControlSocket c) (scControlSocketGroup c));
  run! ignore (onNode (scIOSocket c) (withMode mode0660));
  ignore (onNode (scControlSocket c) (withMode mode0660)).

(** The deferred calls. *)
Definition closeSockets (c : SimulatorConfig) : SocketsM unit :=
  run! ignore (unlink (scIOSocket c));
  run! ignore (unlink (scControlSocket c));
  run! ignore (unlink (scIOSocket c));
  ignore (unlink (scControlSocket c)).
End sockets.

Inductive simulator_fatal : Type := SFFlag | SFConfig (e : config_error) | SFState (e : sim_error).

(** [main] up to [Serve]: the configuration, the period of its ticks and the
    engine. *)
Definition simulatorMain (parseDuration : string → option Z) (configPath : string) (file : config_file SimulatorConfig)
    (state : stateFile) (now : Z) (sessionID io : option string) : result simulator_fatal (SimulatorConfig * Z * Engine) :=
  if configPath =s "" then Err SFFlag
  else match LoadSimulator parseDuration configPath file with
       | Err e => Err (SFConfig e)
       | Ok c =>
           let period := match SampleDuration parseDuration c with Ok p => p | Err _ => 0 end in
           match PlcSim.Open (scEngine c) state now sessionID io with
           | Err e => Err (SFState e)
           | Ok engine => Ok (c, period, engine)
           end
       end.

(** The goroutine that ticks: an error is logged, and the next tick comes; [None]
    in the list is the end of the context. *)
Fixpoint simulatorTicks (c : Simulator) (ticks : list (option (Z * option string))) (engine : Engine) : Engine :=
  match ticks with
  | [] | None :: _ => engine
  | Some (now, io) :: rest => simulatorTicks c rest (PlcSim.Tick c now io engine).2
  end.

(** How [Serve] ends: it waits for both servers when the context is done; else
    for the first of them that stops by itself. *)
Inductive sim_serve_end : Type := SimContextDone | SimServerClosed | SimServerFailed (e : string).
Definition simServe (ended : sim_serve_end) : result string unit :=
  match ended with SimContextDone => Ok tt | SimServerClosed => Ok tt | SimServerFailed e => Err e end.

(** ** The register simulator's program *)

(** *** [--register ADDRESS=VALUE] *)

Definition lowerChar (a : ascii) : ascii :=
  let n := nat_of_ascii a in if (65 <=? n)%nat && (n <=? 90)%nat then ascii_of_nat (n + 32) else a.

Definition charDigit (a : ascii) : option Z :=
  let n := Z.of_nat (nat_of_ascii (lowerChar a)) in
  if (48 <=? n) && (n <=? 57) then Some (n - 48) else if (97 <=? n) && (n <=? 122) then Some (n - 87) else None.

(** The digits of [strconv.ParseUint] with base 0: the number and whether there
    was an underscore; a number out of range ends it. *)
Fixpoint digitsBase (base limit acc : Z) (underscores : bool) (s : string) : option (Z * bool) :=
  match s with
  | EmptyString => Some (acc, underscores)
  | String a rest =>
      if Ascii.eqb a "_" then digitsBase base limit acc true rest
      else match charDigit a with
           | Some d =>
               if base <=? d then None
               else let acc := acc * base + d in if limit <=? acc then None else digitsBase base limit acc underscores rest
           | None => None
           end
  end.

(** [underscoreOK]: an underscore stands between digits, or between the prefix
    and a digit.  [saw]: a digit, an underscore, or something else. *)
Inductive seen : Type := SeenStart | SeenDigit | SeenUnderscore | SeenOther.

Fixpoint underscoreFrom (hex : bool) (saw : seen) (s : string) : bool :=
  match s with
  | EmptyString => match saw with SeenUnderscore => false | _ => true end
  | String a rest =>
      let digit := match charDigit a with Some d => (d <? 10) || hex && (d <? 16) | None => false end in
      if digit then underscoreFrom hex SeenDigit rest
      else if Ascii.eqb a "_" then match saw with SeenDigit => underscoreFrom hex SeenUnderscore rest | _ => false end
      else match saw with SeenUnderscore => false | _ => underscoreFrom hex SeenOther rest end
  end.

Definition basePrefix (s : string) : option (Z * string) :=
  match s with
  | String "0" (String b rest) =>
      if Ascii.eqb (lowerChar b) "b" then Some (2, rest)
      else if Ascii.eqb (lowerChar b) "o" then Some (8, rest)
      else if Ascii.eqb (lowerChar b) "x" then Some (16, rest)
      else None
  | _ => None
  end.

Definition underscoreOK (s : string) : bool :=
  match s with
  | EmptyString => true
  | String a rest =>
      let s := if Ascii.eqb a "-" || Ascii.eqb a "+" then rest else s in
      match basePrefix s with
      | Some (base, rest) => underscoreFrom (base =? 16) SeenDigit rest
      | None => underscoreFrom false SeenStart s
      end
  end.

(** [strconv.ParseUint(s, 0, 16)]. *)
Definition parseUint16 (s : string) : option Z :=
  let '(base, digits) :=
    match s with
    | String "0" rest =>
        match basePrefix s with
        | Some (base, String a rest') => (base, String a rest')
        | _ => (8, rest)
        end
    | _ => (10, s)
    end in
  if s =s "" then None
  else match digitsBase base 65536 0 false digits with
       | Some (v, underscores) => if underscores && negb (underscoreOK s) then None else Some v
       | None => None
       end.

(** [Set]. *)
Definition setAssignment (text : string) (a : gmap Z Z) : option (gmap Z Z) :=
  match cutChar text "=" with
  | None => None
  | Some (addressText, valueText) =>
      match parseUint16 (trimSpace addressText) with
      | None => None
      | Some address =>
          match parseUint16 (trimSpace valueText) with
          | None => None
          | Some value => Some (<[address := value]> a)
          end
      end
  end.

Fixpoint setAssignments (texts : list string) (a : gmap Z Z) : option (gmap Z Z) :=
  match texts with
  | [] => Some a
  | text :: rest => match setAssignment text a with Some a => setAssignments rest a | None => None end
  end.

(** [NewServer] and [newRegisterStore]. *)
Definition NewServer (unitID : Z) (initial : gmap Z Z) : Server := mkServer unitID (fun a => default 0 (initial !! a)) [].

(** *** [main] *)

Record ToolFlags := mkToolFlags {
  tgListen : string;
  tgUnitID : Z;
  tgUI : string;
  tgPointsFile : string;
  tgRegisters : list string
}.

Inductive tool_exit : Type := TEUsage | TEPoints (e : point_error) | TEListen (e : string) | TEUIListen (e : string).

Section tool.
Variables (equalFold : string → string → bool) (isLoopbackIP : string → option bool).   (* [ParseIP] and [IsLoopback] *)

Definition isLoopbackAddress (address : string) : bool :=
  match SplitHostPort address with
  | None => false
  | Some (host, _) => if equalFold host "localhost" then true else match isLoopbackIP host with Some b => b | None => false end
  end.

(** [main] up to serving: an address of the listener, and the point manager with
    its server. *)
Definition toolMain (flags : ToolFlags) (now nextID : Z) (file : points_file) (faults : list (option (string * points_file)))
    (listen listenUI : result string string) : result tool_exit (string * PointManager) :=
  match setAssignments (tgRegisters flags) ∅ with
  | None => Err TEUsage
  | Some initial =>
      if (tgUnitID flags =? 0) || (247 <? tgUnitID flags) then Err TEUsage
      else if negb (isLoopbackAddress (tgUI flags)) then Err TEUsage
      else match NewPointManager equalFold (tgPointsFile flags) now nextID (NewServer (u8 (tgUnitID flags)) initial) file faults with
           | Err e => Err (TEPoints e)
           | Ok points =>
               match listen with
               | Err e => Err (TEListen e)
               | Ok address => match listenUI with Err e => Err (TEUIListen e) | Ok _ => Ok (address, points) end
               end
           end
  end.
End tool.

(** How [main] ends: what [Serve] of the registers has returned, and what [Serve]
    of the page returns when it is shut down after it. *)
Inductive page_end : Type := PageClosed | PageEnded | PageFailed (e : string).
Definition toolEnd (served : result string unit) (page : page_end) : Z :=
  match served with
  | Err _ => 1
  | Ok _ => match page with PageFailed _ => 1 | PageClosed | PageEnded => 0 end
  end.

(** *** Status and events *)

Record tool_status := mkStatus { tsModbusAddress : string; tsUnitID : Z; tsActiveConnections : Z }.

(** [None]: method not allowed. *)
Definition handleStatus (method address : string) (active : Z) (m : PointManager) : option tool_status :=
  if method <>s "GET" then None else Some (mkStatus address (svUnitID (pmServer m)) active).

(** One page that reads its channel: what it has sent, while nothing failed. *)
Record event_page := mkPage { pgChannel : nat; pgSent : list string; pgOpen : bool }.

Section events.
Variable (marshal : simulatorEvent → option string).

Definition lineFeed : ascii := "010"%char.
Definition quoteMark : ascii := "034"%char.
Definition quoted (s rest : string) : string := String quoteMark (String.append s (String quoteMark rest)).
Definition readyText : string :=
  String.append "event: ready" (String lineFeed (String.append "data: {" (quoted "type" (String ":" (quoted "ready"
    (String "}" (String lineFeed (String lineFeed EmptyString)))))))).
Definition dataText (data : string) : string := String.append "data: " (String.append data (String lineFeed (String lineFeed EmptyString))).

(** [handleEvents] up to its loop; [writes] is whether the first write succeeds. *)
Definition handleEvents (method : string) (channel : nat) (writes : bool) (m : PointManager) : option event_page * PointManager :=
  if method <>s "GET" then (None, m)
  else if writes then (Some (mkPage channel [readyText] true), subscribe channel m)
  else (Some (mkPage channel [] false), m).   (* subscribed and unsubscribed *)

(** A round of the loop: the context is done, or an event is taken. *)
Inductive page_turn : Type := TurnDone | TurnEvent (writes : bool).

Definition pageTurn (turn : page_turn) (x : event_page * PointManager) : event_page * PointManager :=
  let '(p, m) := x in
  let closed m := (mkPage (pgChannel p) (pgSent p) false, unsubscribe (pgChannel p) m) in
  if negb (pgOpen p) then (p, m)
  else match turn with
       | TurnDone => closed m
       | TurnEvent writes =>
           match receive (pgChannel p) m with
           | (None, m) => (p, m)
           | (Some event, m) =>
               match marshal event with
               | None => (p, m)
               | Some data =>
                   if writes : bool then (mkPage (pgChannel p) (pgSent p ++ [dataText data]) true, m) else closed m
               end
           end
       end.

End events.

(** ** block-e2e: one run against a served agent *)

(** *** Maps of members *)

(** A Go map with its keys in the order in which [encoding/json] writes them. *)
Fixpoint setMember (m : string * json) (l : list (string * json)) : list (string * json) :=
  match l with
  | [] => [m]
  | x :: rest => if m.1 =s x.1 then m :: rest else if String.ltb m.1 x.1 then m :: l else x :: setMember m rest
  end.

Definition memberMap (members : list (string * json)) : list (string * json) := foldl (fun l m => setMember m l) [] members.

Definition memberOf (key : string) (l : list (string * json)) : option json := snd <$> List.find (fun m => m.1 =s key) l.

(** *** Errors and lines *)

Record protocolFailure := mkFailure { pfType : string; pfRequestID : string; pfCode : string; pfMessage : string }.

Inductive workflow_error : Type :=
| WEPlain (e : string)
| WEStatus (status : Z)
| WEProtocol (f : protocolFailure)
| WEStage (stage : string) (cause : workflow_error).

Record resultLine := mkLine {
  rlStage : string;
  rlStatus : string;
  rlDetails : list (string * json);
  rlErrorCode : string;
  rlMessage : string;
  rlRequestID : string;
  rlMessageType : string
}.

Definition atStage (stage : string) (e : workflow_error) : workflow_error :=
  match e with WEStage _ _ => e | _ => WEStage stage e end.

(** [errors.As] for a failure of the protocol, and for a status. *)
Fixpoint asProtocol (e : workflow_error) : option protocolFailure :=
  match e with WEProtocol f => Some f | WEStage _ cause => asProtocol cause | _ => None end.
Fixpoint asStatus (e : workflow_error) : option Z :=
  match e with WEStatus z => Some z | WEStage _ cause => asStatus cause | _ => None end.

Definition errorCode (e : workflow_error) : string :=
  match asProtocol e with
  | Some f =>
      if pfCode f <>s "" then pfCode f
      else match asStatus e with Some z => String.append "HTTP_" (pretty z) | None => "FAILED" end
  | None => match asStatus e with Some z => String.append "HTTP_" (pretty z) | None => "FAILED" end
  end.

Definition failureResult (e : workflow_error) : resultLine :=
  let stage := match e with WEStage stage _ => stage | _ => "workflow"%string end in
  match asProtocol e with
  | Some f => mkLine stage "failed" [] (pfCode f) (pfMessage f) (pfRequestID f) (pfType f)
  | None => mkLine stage "failed" [] (errorCode e) "" "" ""
  end.

(** *** What the program meets and does

    The statuses of the HTTP answers, the messages that the WebSocket gives until it
    falls silent, the failures of the calls that send and report, the random bytes;
    and what it has posted, dialed, sent and reported. *)
Record Bench := mkBench {
  bnPosts : list (result string Z);
  bnIncoming : list (result string json);
  bnFaults : list (option string);
  bnRandom : list (option (list Z));
  bnPosted : list (string * list (string * json));
  bnDialed : list (string * string * string);
  bnSent : list json;
  bnLines : list resultLine
}.

Abbreviation BenchM := (GoM Bench workflow_error).

(** A call that may fail, and what it does if it does not. *)
Definition effect (f : Bench → Bench) : BenchM unit := fun b =>
  let '(mkBench posts incoming faults random posted dialed sent lines) := b in
  match faults with
  | Some e :: rest => (Err (WEPlain e), mkBench posts incoming rest random posted dialed sent lines)
  | None :: rest => (Ok tt, f (mkBench posts incoming rest random posted dialed sent lines))
  | [] => (Ok tt, f b)
  end.

Definition report (stage status : string) (details : list (string * json)) : BenchM unit :=
  effect (fun b => mkBench (bnPosts b) (bnIncoming b) (bnFaults b) (bnRandom b) (bnPosted b) (bnDialed b) (bnSent b)
                     (bnLines b ++ [mkLine stage status details "" "" "" ""])).

(** [postJSON] on the endpoint of a path: the status. *)
Definition postJSON (path : string) (body : list (string * json)) : BenchM Z := fun b =>
  let '(r, posts) := match bnPosts b with r :: rest => (r, rest) | [] => (Err "context deadline exceeded"%string, []) end in
  (match r with Ok status => Ok status | Err e => Err (WEPlain e) end,
   mkBench posts (bnIncoming b) (bnFaults b) (bnRandom b) (bnPosted b ++ [(path, memberMap body)]) (bnDialed b) (bnSent b) (bnLines b)).

Definition staged {A} (stage : string) (m : BenchM A) : BenchM A := fun b =>
  match m b with (Err e, b) => (Err (atStage stage e), b) | (Ok a, b) => (Ok a, b) end.

Definition authenticate (username password : string) : BenchM unit :=
  do! status <- staged "auth.initial-admin" (postJSON "/api/auth/initial-admin"
        [("username", JStr username); ("password", JStr password); ("confirmPassword", JStr password)]%string);
  if status =? 201 then report "auth.initial-admin" "created" []
  else if status =? 409 then
    run! report "auth.initial-admin" "already_initialized" [];
    do! status <- staged "auth.login" (postJSON "/api/auth/login" [("username", JStr username); ("password", JStr password)]%string);
    if negb (status =? 200) then gfail (WEStage "auth.login" (WEStatus status))
    else staged "auth.login" (report "auth.login" "authenticated" [])
  else gfail (WEStage "auth.initial-admin" (WEStatus status)).

(** *** Starting *)

Record base_url := mkBaseURL { buScheme : string; buHost : string; buHostname : string; buPath : string }.

Definition parseBaseURL (parsed : option base_url) : result workflow_error base_url :=
  match parsed with
  | Some base =>
      if (buScheme base <>s "https") || (buHost base =s "") then Err (WEPlain "base URL must be an absolute https URL") else Ok base
  | None => Err (WEPlain "base URL must be an absolute https URL")
  end.

(** The name that the server's certificate must have; [ca] is what reading the file
    gives: whether it has a certificate. *)
Definition loadTLSConfig (caPath serverName : string) (ca : result string bool) : result workflow_error string :=
  if caPath =s "" then Err (WEPlain "CA file is required")
  else if serverName =s "" then Err (WEPlain "TLS server name is required")
  else match ca with
       | Err e => Err (WEPlain e)
       | Ok false => Err (WEPlain "CA file contains no certificate")
       | Ok true => Ok serverName
       end.

(** [strings.TrimRight(path, "/")]. *)
Fixpoint trimSlashes (s : string) : string :=
  match s with
  | EmptyString => EmptyString
  | String a rest =>
      match trimSlashes rest with
      | EmptyString => if Ascii.eqb a "/" then EmptyString else String a EmptyString
      | rest => String a rest
      end
  end.

Definition openWebSocket (base : base_url) : BenchM unit :=
  run! effect (fun b => mkBench (bnPosts b) (bnIncoming b) (bnFaults b) (bnRandom b) (bnPosted b)
                 (bnDialed b ++ [("wss"%string, buHost base, String.append (trimSlashes (buPath base)) "/ws")]) (bnSent b) (bnLines b));
  report "ws.connect" "connected" [].

(** *** The points of points.json *)

(** [e2ePoint] is [pointDefinition]: the id, the write point, and the mode of the
    write side. *)
Record e2ePoint := mkE2EPoint { epPointID : string; epWritePoint : option string; epMode : option string }.

Definition commandID (p : e2ePoint) : string :=
  match epWritePoint p with Some w => if w <>s "" then w else epPointID p | None => epPointID p end.

Definition actionPoint (points : list e2ePoint) (mode : string) : option e2ePoint :=
  List.find (fun p => bool_decide (epMode p = Some mode) && (commandID p <>s "")) points.

(** The commands of one mode: each action with its attempt. *)
Definition actionsOf (mode : string) : list (string * Z) :=
  if mode =s "pulse" then [("pulse"%string, 1)]
  else if mode =s "momentary" then [("press"%string, 1); ("release"%string, 1)]
  else [("toggle"%string, 1); ("toggle"%string, 2)].

Section bench.
Variables (foldName : string → string) (stamp : nat → string).   (* the time at the n-th message *)

Definition setE2EPoint (name : string) (j : json) (p : e2ePoint) : e2ePoint * bool :=
  if name =s "pointId" then let '(s, bad) := decodeString j (epPointID p) in (mkE2EPoint s (epWritePoint p) (epMode p), bad)
  else if name =s "writePoint" then
    let '(o, bad) := decodePointer decodeString "" j (epWritePoint p) in (mkE2EPoint (epPointID p) o (epMode p), bad)
  else
    let '(o, bad) := decodePointer (decodeStruct foldName ["mode"%string] (fun _ => decodeString)) "" j (epMode p) in
    (mkE2EPoint (epPointID p) (epWritePoint p) o, bad).

Definition decodeE2EPoint : json → e2ePoint → e2ePoint * bool :=
  decodeStruct foldName ["pointId"; "writePoint"; "write"]%string setE2EPoint.

(** [file]: what reading and parsing points.json gives. *)
Definition loadPoints (file : result string json) : result workflow_error (json * list e2ePoint) :=
  match file with
  | Err e => Err (WEPlain e)
  | Ok j =>
      let none := Err (WEPlain "points.json must contain a non-empty points array") in
      match decodeStruct foldName ["points"%string] (fun _ j _ => (Some j, false)) j None with
      | (_, true) => Err (WEPlain "cannot unmarshal points.json")
      | (None, false) => none
      | (Some points, false) =>
          let '(definitions, bad) := decodeSlice decodeE2EPoint (mkE2EPoint "" None None) points (mkSlice _ [] 0) in
          if (bad : bool) || (length (sliceOf definitions) =? 0)%nat then none else Ok (points, sliceOf definitions)
      end
  end.

(** *** Messages *)

Definition newRequestID : BenchM string := fun b =>
  let '(random, rest) := match bnRandom b with r :: rest => (r, rest) | [] => (None, []) end in
  (match NewRequestID random with Some id => Ok id | None => Err (WEPlain "random") end,
   mkBench (bnPosts b) (bnIncoming b) (bnFaults b) rest (bnPosted b) (bnDialed b) (bnSent b) (bnLines b)).

Definition messageOf (messageType requestID timestamp : string) (fields : list (string * json)) : json :=
  JObj (memberMap ([("protocolVersion", JStr "1.0"); ("type", JStr messageType); ("requestId", JStr requestID);
                    ("timestamp", JStr timestamp)]%string ++ fields)).

Definition send (messageType : string) (fields : list (string * json)) : BenchM unit :=
  do! requestID <- newRequestID;
  effect (fun b => mkBench (bnPosts b) (bnIncoming b) (bnFaults b) (bnRandom b) (bnPosted b) (bnDialed b)
                     (bnSent b ++ [messageOf messageType requestID (stamp (length (bnSent b))) fields]) (bnLines b)).

(** [failureFrom] of a message, whose own errors are ignored. *)
Definition setError (name : string) (j : json) (f : protocolFailure) : protocolFailure * bool :=
  if name =s "code" then let '(s, bad) := decodeString j (pfCode f) in (mkFailure (pfType f) (pfRequestID f) s (pfMessage f), bad)
  else let '(s, bad) := decodeString j (pfMessage f) in (mkFailure (pfType f) (pfRequestID f) (pfCode f) s, bad).

Definition setFailure (name : string) (j : json) (f : protocolFailure) : protocolFailure * bool :=
  if name =s "type" then let '(s, bad) := decodeString j (pfType f) in (mkFailure s (pfRequestID f) (pfCode f) (pfMessage f), bad)
  else if name =s "requestId" then let '(s, bad) := decodeString j (pfRequestID f) in (mkFailure (pfType f) s (pfCode f) (pfMessage f), bad)
  else decodeStruct foldName ["code"; "message"]%string setError j f.

Definition failureFrom (message : list (string * json)) : workflow_error :=
  WEProtocol (decodeStruct foldName ["type"; "requestId"; "error"]%string setFailure (JObj message) (mkFailure "" "" "" "")).1.

(** [receive] on what comes: the first message of the type, unless an error comes
    before it.  Every message has its own deadline. *)
Fixpoint receiveFrom (expectedType : string) (incoming : list (result string json))
    : result workflow_error (list (string * json)) * list (result string json) :=
  match incoming with
  | [] => (Err (WEPlain "i/o timeout"), [])
  | Err e :: rest => (Err (WEPlain e), rest)
  | Ok (JObj members) :: rest =>
      let message := memberMap members in
      match match memberOf "type" message with Some (JStr s) => Some s | Some JNull => Some ""%string | _ => None end with
      | None => (Err (WEPlain "WebSocket message has no type"), rest)
      | Some messageType =>
          if messageType =s "error" then (Err (failureFrom message), rest)
          else if messageType =s expectedType then (Ok message, rest)
          else receiveFrom expectedType rest
      end
  | Ok JNull :: rest => (Err (WEPlain "WebSocket message has no type"), rest)
  | Ok _ :: rest => (Err (WEPlain "cannot unmarshal message"), rest)
  end.

Definition receive (expectedType : string) : BenchM (list (string * json)) := fun b =>
  let '(r, rest) := receiveFrom expectedType (bnIncoming b) in
  (r, mkBench (bnPosts b) rest (bnFaults b) (bnRandom b) (bnPosted b) (bnDialed b) (bnSent b) (bnLines b)).

Definition successful (message : list (string * json)) : result workflow_error unit :=
  match memberOf "success" message with
  | None | Some (JBool true) => Ok tt
  | Some (JBool false) | Some JNull => Err (failureFrom message)
  | Some _ => Err (WEPlain "cannot unmarshal success")
  end.

(** A request and its answer. *)
Definition ask (messageType : string) (fields : list (string * json)) (expectedType : string) : BenchM (list (string * json)) :=
  run! send messageType fields;
  do! message <- receive expectedType;
  run! glift (successful message);
  gret message.

Definition decodeMessage {A} (fields : list string) (set : string → json → A → A * bool) (zero : A)
    (message : list (string * json)) : result workflow_error A :=
  match decodeStruct foldName fields set (JObj message) zero with
  | (a, false) => Ok a
  | (_, true) => Err (WEPlain "cannot unmarshal message")
  end.

(** *** The stages *)

Definition jsonInt (z : Z) : json := JNum (pretty z).

Definition configure (points : json) (pointCount : nat) : BenchM unit :=
  do! _ <- ask "runtime.configure" [("scanIntervalMs", jsonInt 500); ("points", points)]%string "runtime.configured";
  report "runtime.configure" "configured" [("pointCount"%string, jsonInt (Z.of_nat pointCount))].

Definition scan (addressRange : string) : BenchM string :=
  do! message <- ask "plc.scan" [("addressRange"%string, JStr addressRange)] "plc.scan.result";
  do! devices <- glift (decodeMessage ["devices"%string]
        (fun _ => decodeSlice (decodeStruct foldName ["deviceId"%string] (fun _ => decodeString)) "") (mkSlice _ [] 0) message);
  match sliceOf devices with
  | [] => gfail (WEPlain "PLC scan returned no device")
  | deviceID :: _ =>
      if deviceID =s "" then gfail (WEPlain "PLC scan returned no device")
      else
        run! report "plc.scan" "found" [("deviceCount", jsonInt (Z.of_nat (length (sliceOf devices)))); ("deviceId", JStr deviceID)]%string;
        gret deviceID
  end.

Definition setValues (_ : string) (j : json) (values : list (string * json)) : list (string * json) * bool :=
  match j with
  | JObj members => (foldl (fun l m => setMember m l) values members, false)
  | JNull => ([], false)
  | _ => (values, true)
  end.

Definition snapshot (stage : string) : BenchM unit :=
  run! (if stage =s "points.snapshot.get" then send "points.snapshot.get" [] else gret tt);
  do! message <- receive "points.snapshot";
  do! values <- glift (decodeMessage ["values"%string] setValues [] message);
  report stage "received" [("pointCount"%string, jsonInt (Z.of_nat (length values)))].

Definition connect (deviceID : string) : BenchM unit :=
  do! _ <- ask "plc.connect" [("deviceId"%string, JStr deviceID)] "plc.connect.result";
  run! report "plc.connect" "connected" [("deviceId"%string, JStr deviceID)];
  snapshot "points.snapshot.initial".

Definition observe (observed : option string) : BenchM unit :=
  match observed with
  | None => gret tt
  | Some duration => report "plc.observe" "completed" [("duration"%string, JStr duration)]
  end.

Definition command (point : e2ePoint) (action : string) (attempt : Z) : BenchM unit :=
  let pointID := commandID point in
  do! message <- ask "point.command" [("pointId", JStr pointID); ("action", JStr action)]%string "point.result";
  do! answered <- glift (decodeMessage ["pointId"%string] (fun _ => decodeString) ""%string message);
  if answered <>s pointID then gfail (WEPlain "point command result did not match the requested point")
  else report "point.command" "completed"
         [("mode", JStr (default ""%string (epMode point))); ("pointId", JStr pointID); ("action", JStr action); ("attempt", jsonInt attempt)]%string.

Fixpoint commands (point : e2ePoint) (actions : list (string * Z)) : BenchM unit :=
  match actions with
  | [] => gret tt
  | (action, attempt) :: rest => run! command point action attempt; commands point rest
  end.

Fixpoint runModes (points : list e2ePoint) (modes : list string) : BenchM unit :=
  match modes with
  | [] => gret tt
  | mode :: rest =>
      run! match actionPoint points mode with
           | None => report "point.command" "skipped" [("mode", JStr mode); ("reason", JStr "points.json has no matching action")]%string
           | Some point => commands point (actionsOf mode)
           end;
      runModes points rest
  end.

Definition runActions (points : list e2ePoint) : BenchM unit := runModes points ["pulse"; "momentary"; "toggle"]%string.

Definition disconnect : BenchM unit :=
  do! _ <- ask "plc.disconnect" [] "plc.disconnect.result";
  report "plc.disconnect" "disconnected" [].

Record e2eOptions := mkE2EOptions {
  eoBase : option base_url;               (* the parsed base URL *)
  eoCAPath : string;
  eoCA : result string bool;
  eoPoints : result string json;
  eoScanCIDR : string;
  eoObserve : option string;              (* the text of a positive duration *)
  eoUsername : string;
  eoPassword : string
}.

Definition run (o : e2eOptions) : BenchM unit :=
  if (eoUsername o =s "") || (eoPassword o =s "") then gfail (WEPlain "credentials are required")
  else
    do! base <- staged "startup" (glift (parseBaseURL (eoBase o)));
    run! staged "startup" (glift (loadTLSConfig (eoCAPath o) (buHostname base) (eoCA o)));
    do! loaded <- staged "points.load" (glift (loadPoints (eoPoints o)));
    run! authenticate (eoUsername o) (eoPassword o);
    run! staged "ws.connect" (openWebSocket base);
    run! staged "runtime.configure" (configure loaded.1 (length loaded.2));
    do! deviceID <- staged "plc.scan" (scan (eoScanCIDR o));
    run! staged "plc.connect" (connect deviceID);
    run! staged "plc.observe" (observe (eoObserve o));
    run! staged "point.command" (runActions loaded.2);
    run! staged "points.snapshot.get" (snapshot "points.snapshot.get");
    staged "plc.disconnect" disconnect.

(** [main]: the exit status; the last line tells of a failure if it can be written. *)
Definition e2eMain (o : e2eOptions) (b : Bench) : Z * Bench :=
  if (eoUsername o =s "") || (eoPassword o =s "") then (2, b)
  else match run o b with
       | (Ok _, b) => (0, b)
       | (Err e, b) =>
           (1, (effect (fun b => mkBench (bnPosts b) (bnIncoming b) (bnFaults b) (bnRandom b) (bnPosted b) (bnDialed b) (bnSent b)
                  (bnLines b ++ [failureResult e])) b).2)
       end.
End bench.
