(* ===== verification/Adapter.v ===== *)
(** * The simulated PLC behind its socket: [internal/plcsim/server.go],
      [internal/adapter/simulator.go] and [adapter.go]

    The two HTTP handlers over the engine, the client that the agent uses, and
    the client as the device of the command queue.  Other requests and the ticker
    act on the engine at any time: an exchange carries what happens before the
    handler and between its calls, how long the request's context lives, and what
    becomes of the response.  JSON between the two is a parameter for a command
    ([sent]), and taken to be faithful for the responses, whose texts the
    simulator itself makes. *)

From Stdlib Require Import Ascii String.
From stdpp Require Import pretty.
From S2P Require Import Prelude GoText GoValue PlcContract PlcSim PlcSimProofs AgentConfig StateModel Storage CommandQueue.

(** ** Responses *)

Inductive wire_body : Type :=
| BodyHealth
| BodySnapshot (snapshot : Snapshot)
| BodyResult (r : CommandResult)
| BodyProblem (code message : string)
| BodyText.                                (* not one of the simulator's JSON values *)

Record wire_response := mkWire { wrStatus : Z; wrBody : wire_body }.

Definition writeError (status : Z) (code message : string) : wire_response := mkWire status (BodyProblem code message).

Definition notFound : wire_response := mkWire 404 BodyText.

Section server.
Variables (digest : canonical → string) (quote : string → string) (cfg : Simulator) (errorText : sim_error → string).
Notation runs := (runs digest quote cfg).

(** What a request meets: the instant and the failing write of the engine's
    operation, the operations of others between the handler's calls, and whether
    the context outlives a delay. *)
Record meeting := mkMeeting {
  mtNow : Z;
  mtIO : option string;
  mtSession : option string;
  mtMeanwhile : list operation;
  mtAlive : Z → bool
}.

(** [delay] and [waitContext]: true when the handler goes on. *)
Definition waitContext (m : meeting) (delay : Z) : bool := (delay <=? 0) || mtAlive m delay.

(** No response means that the handler came back without one, because the
    context had ended. *)
Definition snapshotRoute (method : string) (m : meeting) (e : Engine) : option wire_response * Engine :=
  if method <>s "GET" then (Some (writeError 405 "method_not_allowed" "GET required"), e)
  else
    let delay := (ResponseBehavior e).1 in
    let e := runs (mtMeanwhile m) e in
    if waitContext m delay then (Some (mkWire 200 (BodySnapshot (snapshotOf (enState e)))), e) else (None, e).

(** A body of [None] is one that [decodeStrict] refuses, with its text. *)
Definition commandRoute (method : string) (body : result string Command) (m : meeting) (e : Engine)
  : option wire_response * Engine :=
  if method <>s "POST" then (Some (writeError 405 "method_not_allowed" "POST required"), e)
  else match body with
       | Err text => (Some (writeError 400 "invalid_command" text), e)
       | Ok command =>
           match ApplyCommand digest quote cfg command (mtNow m) (mtIO m) e with
           | (Err err, e) => (Some (writeError 500 "simulator_failure" (errorText err)), e)
           | (Ok r, e) =>
               let e := runs (mtMeanwhile m) e in
               let '(delay, appliedTimeout) := ResponseBehavior e in
               if negb (waitContext m delay) then (None, e)
               else if appliedTimeout && (crStatus r =s CommandExecuted) then (None, e)
               else (Some (mkWire 200 (BodyResult r)), e)
           end
       end.

Definition ioHandler (method path : string) (body : result string Command) (m : meeting) (e : Engine)
  : option wire_response * Engine :=
  if path =s "/healthz" then
    (Some (if method <>s "GET" then writeError 405 "method_not_allowed" "GET required" else mkWire 200 BodyHealth), e)
  else if path =s "/v1/snapshot" then snapshotRoute method m e
  else if path =s "/v1/commands" then commandRoute method body m e
  else (Some notFound, e).

Definition controlHandler (method path : string) (body : result string FaultRequest) (m : meeting) (e : Engine)
  : wire_response * Engine :=
  let answer (rejected : string) (x : result sim_error Snapshot * Engine) :=
    match x with
    | (Err err, e) => (writeError 422 rejected (errorText err), e)
    | (Ok snapshot, e) => (mkWire 200 (BodySnapshot snapshot), e)
    end in
  if path =s "/v1/faults" then
    if method <>s "POST" then (writeError 405 "method_not_allowed" "POST required", e)
    else match body with
         | Err text => (writeError 400 "invalid_fault" text, e)
         | Ok request => answer "fault_rejected"%string (SetFault quote cfg request (mtNow m) (mtIO m) e)
         end
  else if path =s "/v1/restart" then
    if method <>s "POST" then (writeError 405 "method_not_allowed" "POST required", e)
    else answer "restart_rejected"%string (RestartSession cfg (mtNow m) (mtSession m) (mtIO m) e)
  else (notFound, e).
End server.

(** ** The client *)

Inductive adapter_error : Type :=
| ErrUnavailable (detail : string)
| ErrBadData (detail : string)
| ErrDisabled
| ErrOutcomeUnknown (detail : string)
| ErrProtocol (text : string).            (* none of the package's errors *)

(** [err.Error()]. *)
Definition adapterText (e : adapter_error) : string :=
  match e with
  | ErrUnavailable detail => String.append "device transport is unavailable: " detail
  | ErrBadData detail => String.append "device returned malformed or invalid data: " detail
  | ErrDisabled => "device transport is unavailable: device adapter is disabled"
  | ErrOutcomeUnknown detail => String.append "command outcome is unknown: " detail
  | ErrProtocol text => text
  end.

Definition ValidateSnapshot (quote : string → string) (s : Snapshot) : result adapter_error unit :=
  if ssSchemaVersion s <>s SchemaVersion then Err (ErrBadData (String.append "unsupported schema " (quote (ssSchemaVersion s))))
  else if ssSimulatorSessionID s =s "" then Err (ErrBadData "simulator session id is empty")
  else if isZero (ssGeneratedAt s) then Err (ErrBadData "generatedAt is zero")
  else if (ssQuality s <>s QualityGood) && (ssQuality s <>s QualityUncertain) && (ssQuality s <>s QualityBad)
  then Err (ErrBadData (String.append "unsupported quality " (quote (ssQuality s))))
  else Ok tt.

Definition decodeProtocolError (truncated : option string) (r : wire_response) : string :=
  match truncated, wrBody r with
  | None, BodyProblem code message => String.append "simulator " (String.append code (String.append ": " message))
  | _, _ => String.append "simulator returned HTTP " (pretty (wrStatus r))
  end.

(** An attempt of the client: what the engine does until the request arrives; the
    transport's failure before that; what the handler meets; and the failure of
    the response on its way, or of its body.  A failure may be a deadline. *)
Record exchange := mkExchange {
  xcBefore : list operation;
  xcUnsent : option string;
  xcMeeting : meeting;
  xcLost : option string;
  xcTruncated : option string;
  xcDeadline : bool
}.

(** How many bytes a snapshot's response has is of no concern: [decodeLimited]
    reads two megabytes. *)
Section client.
Variables (digest : canonical → string) (quote : string → string) (cfg : Simulator) (errorText : sim_error → string).
Variables (sent : Command → result string Command) (socket : string).
Notation runs := (runs digest quote cfg).

(** [client.Do]: the response, or the error's text. *)
Definition roundTrip (handler : meeting → Engine → option wire_response * Engine) (x : exchange) (e : Engine)
  : result string wire_response * Engine :=
  let e := runs (xcBefore x) e in
  match xcUnsent x with
  | Some err => (Err err, e)
  | None =>
      match handler (xcMeeting x) e with
      | (None, e) => (Err (default "context ended"%string (xcLost x)), e)
      | (Some response, e) =>
          match xcLost x with
          | Some err => (Err err, e)
          | None => (Ok response, e)
          end
      end
  end.

Definition Read (x : exchange) (e : Engine) : result adapter_error Snapshot * Engine :=
  let '(r, e) := roundTrip (ioHandler digest quote cfg errorText "GET" "/v1/snapshot" (Err ""%string)) x e in
  (match r with
   | Err err =>
       Err (ErrUnavailable (String.append "read simulator snapshot via " (String.append socket (String.append ": " err))))
   | Ok response =>
       if negb (wrStatus response =? 200) then
         if 500 <=? wrStatus response then Err (ErrUnavailable (decodeProtocolError (xcTruncated x) response))
         else Err (ErrBadData (decodeProtocolError (xcTruncated x) response))
       else match xcTruncated x, wrBody response with
            | None, BodySnapshot snapshot => let? _ := ValidateSnapshot quote snapshot in Ok snapshot
            | Some err, _ => Err (ErrBadData (String.append "decode simulator snapshot: " err))
            | None, _ => Err (ErrBadData "decode simulator snapshot: not a snapshot")
            end
   end, e).

Definition Execute (command : Command) (x : exchange) (e : Engine) : result adapter_error CommandResult * Engine :=
  let '(r, e) := roundTrip (ioHandler digest quote cfg errorText "POST" "/v1/commands" (sent command)) x e in
  (match r with
   | Err err =>
       if xcDeadline x then Err (ErrOutcomeUnknown "simulator command timed out")
       else Err (ErrOutcomeUnknown (String.append "simulator command transport failed: " err))
   | Ok response =>
       if negb (wrStatus response =? 200) then Err (ErrProtocol (decodeProtocolError (xcTruncated x) response))
       else match xcTruncated x, wrBody response with
            | None, BodyResult r => Ok r
            | Some err, _ => Err (ErrOutcomeUnknown (String.append "decode simulator command response: " err))
            | None, _ => Err (ErrOutcomeUnknown "decode simulator command response: not a result")
            end
   end, e).

(** ** The device of the command queue *)

(** The adapter that [New] selects. *)
Inductive adapter_kind : Type := KindSimulator | KindDisabled.

Definition New (cfg : AgentAdapter) : option adapter_kind :=
  if aaType cfg =s "simulator" then Some KindSimulator
  else if aaType cfg =s "disabled" then Some KindDisabled
  else None.

(** The engine at the other end, and the exchanges, clock readings and
    acknowledgements to come. *)
Record PlcDevice := mkDevice {
  dvKind : adapter_kind;
  dvEngine : Engine;
  dvExchanges : list exchange;
  dvClock : list Z;
  dvAcks : list (option string)
}.

Definition idle : exchange :=
  mkExchange [] (Some "connection refused"%string) (mkMeeting 0 None None [] (fun _ => false)) None None false.

(** [Coordinator.Do]: one access at a time. *)
Definition access {A} (operation : exchange → Engine → result adapter_error A * Engine) (d : PlcDevice)
  : result string A * PlcDevice :=
  match dvKind d with
  | KindDisabled => (Err (adapterText ErrDisabled), d)
  | KindSimulator =>
      let '(r, e) := operation (default idle (head (dvExchanges d))) (dvEngine d) in
      (match r with Ok a => Ok a | Err err => Err (adapterText err) end,
       mkDevice KindSimulator e (tail (dvExchanges d)) (dvClock d) (dvAcks d))
  end.

#[export] Instance plc_device : DeviceEnv PlcDevice := {
  devExecute command := access (Execute command);
  devRead := access Read;
  devNow d := (default 0 (head (dvClock d)), mkDevice (dvKind d) (dvEngine d) (dvExchanges d) (tail (dvClock d)) (dvAcks d));
  devAck d := (default None (head (dvAcks d)), mkDevice (dvKind d) (dvEngine d) (dvExchanges d) (dvClock d) (tail (dvAcks d)))
}.
End client.
