(* ===== verification/AdapterProofs.v ===== *)
(** * The simulated PLC behind its socket: lemmas

    What the simulator shows always is a valid snapshot; what an exchange does
    to the engine; and what the queue's persistence leaves of the device. *)

From Stdlib Require Import Ascii String.
From S2P Require Import Prelude GoText GoValue PlcContract PlcSim PlcSimProofs AgentConfig StateModel Storage CommandQueue QueueProofs Adapter.

(** ** Configurations *)

Lemma checkCapacities_ok capacities : ∀ index,
  checkCapacities index capacities = Ok tt → ∀ i, (i < length capacities)%nat → 1 ≤ nth i capacities 0.
Proof.
  induction capacities as [|capacity capacities IH]; intros index Hc i Hi; [cbn in Hi; lia|]. cbn [checkCapacities] in Hc.
  destruct (Z.ltb_spec capacity 1); [done|]. destruct i as [|i]; cbn [nth]; [lia|]. eapply IH; [exact Hc|]. cbn in Hi. lia.
Qed.

Lemma positiveDuration_ok parseDuration name value d :
  positiveDuration parseDuration name value = Ok d → parseDuration value = Some d ∧ 0 < d.
Proof. unfold positiveDuration. destruct (parseDuration value) as [d'|]; [|done]. destruct (Z.leb_spec d' 0); [done|]. by intros [= ->]. Qed.

Lemma LoadSimulator_ok parseDuration path file c :
  LoadSimulator parseDuration path file = Ok c →
  file = ConfigValue c ∧ config_ok (scEngine c) ∧
  (∃ period, SampleDuration parseDuration c = Ok period ∧ 0 < period) ∧
  scIOSocket c ≠ scControlSocket c ∧ scIOSocketGroup c ≠ scControlSocketGroup c.
Proof.
  unfold LoadSimulator, loadStrict. destruct (requireAbsolute "config path" path); [|done]. destruct file as [e|e|value]; [done..|]. cbn.
  destruct (requireAbsolute _ (scIOSocket value)); [|done]. cbn. destruct (requireAbsolute _ (scControlSocket value)); [|done]. cbn.
  destruct (requireGroup _ (scIOSocketGroup value)); [|done]. cbn. destruct (requireGroup _ (scControlSocketGroup value)); [|done]. cbn.
  destruct (String.eqb_spec (scIOSocketGroup value) (scControlSocketGroup value)) as [|Hg]; [done|].
  destruct (String.eqb_spec (scIOSocket value) (scControlSocket value)) as [|Hs]; [done|].
  destruct (requireAbsolute _ (scStateFile value)); [|done]. cbn. destruct (SampleDuration parseDuration value) as [d|] eqn:Hd; [|done]. cbn.
  destruct (_ || _); [done|]. destruct (Nat.eqb_spec (length (cfBinCapacities (scEngine value))) 3) as [Hl|]; [|done]. cbn [negb].
  destruct (checkCapacities 0 (cfBinCapacities (scEngine value))) as [[]|] eqn:Hc; [|done]. cbn.
  destruct (_ || _) eqn:Hi; [done|]. intros [= <-]. propify. split; [done|]. split.
  - split; [done| |lia]. intros i Hlt. unfold capacity. eapply checkCapacities_ok; [exact Hc|]. lia.
  - split; [|done]. exists d. split; [done|]. by apply positiveDuration_ok in Hd as [_ ?].
Qed.

Lemma LoadAgent_ok parseDuration path file c :
  LoadAgent parseDuration path file = Ok c →
  file = ConfigValue c ∧ New (agAdapter c) ≠ None ∧
  ∃ samplePeriod staleAfter commandTimeout, Durations parseDuration c = Ok (samplePeriod, staleAfter, commandTimeout) ∧
    0 < samplePeriod ≤ staleAfter ∧ 0 < commandTimeout.
Proof.
  unfold LoadAgent, loadStrict. destruct (requireAbsolute "config path" path); [|done]. destruct file as [e|e|value]; [done..|]. cbn.
  destruct (negb _); [done|]. destruct (_ && _) eqn:Ht; [done|]. destruct (if _ : bool then _ else _); [|done]. cbn.
  destruct (requireAbsolute _ (agDatabasePath value)); [|done]. cbn.
  destruct (Durations parseDuration value) as [[[sample stale] timeout]|] eqn:Hd; [|done]. cbn. intros [= <-]. split; [done|]. split.
  { unfold New. destruct (_ =s "simulator"); [done|]. destruct (_ =s "disabled"); [done|]. done. }
  exists sample, stale, timeout. split; [done|]. unfold Durations in Hd.
  destruct (positiveDuration parseDuration "samplePeriod" _) eqn:H1; [|done]. cbn in Hd.
  destruct (positiveDuration parseDuration "staleAfter" _) eqn:H2; [|done]. cbn in Hd.
  destruct (positiveDuration parseDuration "commandTimeout" _) eqn:H3; [|done]. cbn in Hd.
  apply positiveDuration_ok in H1 as [_ ?], H2 as [_ ?], H3 as [_ ?].
  match type of Hd with (if ?b then _ else _) = _ => destruct b eqn:Hb; [done|] end. injection Hd as -> -> ->. propify. lia.
Qed.

(** ** What the simulator shows *)

Definition quality_ok (quality : string) : Prop := quality ∈ [""; QualityGood; QualityUncertain; QualityBad]%string.

Record shown_ok (s : persistedState) : Prop := {
  sh_session : psSessionID s ≠ ""%string;
  sh_generated : isZero (psGeneratedAt s) = false;
  sh_quality : quality_ok (flForcedQuality (psFaults s))
}.

(** What a production or a command leaves of it. *)
Definition shownOf (s : persistedState) : string * Z * Faults := (psSessionID s, psGeneratedAt s, psFaults s).

Lemma shown_same s s' : shownOf s' = shownOf s → shown_ok s → shown_ok s'.
Proof. intros [= E1 E2 E3] [H1 H2 H3]. split; congruence. Qed.

Lemma ValidateSnapshot_shown quote s : shown_ok s → ValidateSnapshot quote (snapshotOf s) = Ok tt.
Proof.
  intros [H1 H2 H3]. unfold ValidateSnapshot, snapshotOf. cbn [ssSchemaVersion ssSimulatorSessionID ssGeneratedAt ssQuality].
  rewrite String.eqb_refl, (proj2 (String.eqb_neq _ _) H1), H2. cbn [negb].
  set (q := if (_ <>s "") : bool then _ else _).
  assert (q = QualityGood ∨ q = QualityUncertain ∨ q = QualityBad) as [-> | [-> | ->]]; [|done..].
  unfold q. clear q. unfold quality_ok in H3. rewrite !elem_of_cons, elem_of_nil in H3.
  destruct H3 as [-> | [-> | [-> | [-> | []]]]]; cbn; auto. destruct (ptPLCConnected _); cbn; auto.
Qed.

Section shown.
Variables (digest : canonical → string) (quote : string → string) (cfg : Simulator).
Notation run := (PlcSimProofs.run digest quote cfg).
Notation runs := (runs digest quote cfg).

Lemma inspectOne_shown from s : shownOf (inspectOne cfg from s) = shownOf s.
Proof. unfold inspectOne. by destruct (deterministicPass _ _ _). Qed.

Lemma produceLoop_shown fuel cycle s : shownOf (produceLoop fuel cfg cycle s) = shownOf s.
Proof.
  revert s. induction fuel as [|fuel IH]; intros s; [done|]. rewrite produceLoop_S. destruct (dueForProduction cfg s); [|done].
  rewrite IH. transitivity (shownOf (placeProduced cfg (countProduced s))); [reflexivity|]. unfold placeProduced. cbn zeta.
  destruct (_ && _); [by rewrite inspectOne_shown|reflexivity].
Qed.

Lemma applyCommand_shown command s s' : applyCommand quote cfg command s = Ok s' → shownOf s' = shownOf s.
Proof.
  unfold applyCommand. cbn zeta. intros Ha.
  repeat (case_match; try done; simplify_eq; try apply inspectOne_shown; try done).
Qed.

Lemma afterCommand_shown name now s : shownOf (afterCommand cfg name now s) = (psSessionID s, now, psFaults s).
Proof. unfold afterCommand. cbn zeta. by repeat case_match. Qed.

Lemma commit_shown {A} io s (a : A) e : shown_ok (enState e) → shown_ok s → shown_ok (enState (PlcSim.commit io s a e).2).
Proof. intros ? ?. by destruct io. Qed.

Lemma Tick_shown now io e : isZero now = false → shown_ok (enState e) → shown_ok (enState (Tick cfg now io e).2).
Proof.
  intros Hn He. unfold Tick. destruct (flFreezeData _); [done|]. cbn zeta. set (s1 := applyFaultState _).
  assert (shown_ok s1) as H1 by (destruct He; by split). clearbody s1. set (s2 := if (_ || _) then _ else _).
  assert (shown_ok s2) as H2.
  { eapply shown_same; [|exact H1]. unfold s2. destruct (_ || _); [done|]. unfold produceDue. rewrite produceLoop_shown. by destruct (isZero (psNextProductionAt s1)). }
  clearbody s2. destruct (validateCounters _); [|done]. apply commit_shown; [done|]. by apply (shown_same s2).
Qed.

Lemma quality_member q :
  (q <>s "") && (q <>s QualityGood) && (q <>s QualityUncertain) && (q <>s QualityBad) = false → quality_ok q.
Proof.
  intros E. unfold quality_ok. rewrite !elem_of_cons. destruct (String.eqb_spec q ""); [by left|].
  destruct (String.eqb_spec q QualityGood); [by right; left|]. destruct (String.eqb_spec q QualityUncertain); [by right; right; left|].
  destruct (String.eqb_spec q QualityBad); [by right; right; right; left|]. done.
Qed.

Lemma faultsAfter_quality f request f' :
  quality_ok (flForcedQuality f) → faultsAfter quote f request = Ok f' → quality_ok (flForcedQuality f').
Proof.
  intros Hq. unfold faultsAfter. cbn zeta. destruct f as [disc delay freeze quality stop guard severe reject failc timeout].
  cbn [flForcedQuality] in Hq. generalize (frFault request). intros fault.
  do 8 (match goal with |- (if ?b then _ else _) = _ → _ => destruct b; [intros [= <-]; exact Hq|] end).
  destruct (fault =s "response_delay").
  { destruct (frDelayMillis request); [|done]. destruct (_ || _); [done|]. intros [= <-]. exact Hq. }
  destruct (fault =s "quality"); [|done].
  match goal with |- (if ?b then _ else _) = _ → _ => destruct b eqn:E; [done|] end.
  intros [= <-]. cbn [flForcedQuality]. exact (quality_member _ E).
Qed.

Lemma recordResult_shown command fp r io e :
  shown_ok (enState e) → shown_ok (enState (recordResult command fp r io e).2).
Proof. intros He. unfold recordResult. apply commit_shown; [exact He|]. by destruct He as [? ? ?]; split. Qed.

Lemma ApplyCommand_shown raw now io e :
  isZero now = false → shown_ok (enState e) → shown_ok (enState (ApplyCommand digest quote cfg raw now io e).2).
Proof.
  intros Hn He. unfold ApplyCommand. cbn zeta. generalize (NormalizeCommand raw). intros command.
  destruct (_ || _); [exact He|]. destruct (psProcessed _ !! _) as [previous|]; [destruct (_ <>s _); exact He|].
  destruct (revisionConflict _ _); [by apply recordResult_shown|]. destruct (flRejectCommands _); [by apply recordResult_shown|].
  destruct (flFailCommands _); [by apply recordResult_shown|]. destruct (negb _); [by apply recordResult_shown|].
  destruct (applyCommand _ _ _ _) as [s1|[code reason]] eqn:Ha; [|by apply recordResult_shown].
  apply applyCommand_shown in Ha. injection Ha as E1 E2 E3.
  pose proof (afterCommand_shown (cmName command) now s1) as Hs4. revert Hs4.
  generalize (afterCommand cfg (cmName command) now s1). intros s4 [= F1 F2 F3].
  destruct (validateCounters _); [|exact He]. apply commit_shown; [exact He|].
  destruct He as [H1 H2 H3]. split; cbn [withProcessed psSessionID psGeneratedAt psFaults]; congruence.
Qed.

Lemma run_shown o e : operation_ok o → shown_ok (enState e) → shown_ok (enState (run o e)).
Proof.
  intros Ho He. destruct o as [now io|raw now io|request now io|now id io].
  - exact (Tick_shown now io e Ho He).
  - exact (ApplyCommand_shown raw now io e Ho He).
  - unfold PlcSimProofs.run, SetFault. destruct (negb _); [exact He|]. destruct (faultsAfter _ _ _) as [f|] eqn:Hf; [|exact He].
    apply commit_shown; [exact He|]. apply faultsAfter_quality in Hf; [|exact (sh_quality _ He)]. destruct He as [H1 H2 H3]. split; [exact H1|exact Ho|exact Hf].
  - unfold PlcSimProofs.run, RestartSession. destruct (negb _); [exact He|]. destruct id as [id|]; [|exact He]. destruct Ho as [Hn Hid].
    apply commit_shown; [exact He|]. destruct He as [H1 H2 H3]. split; cbn; [congruence|exact Hn|exact H3].
Qed.

Lemma runs_shown os : ∀ e, Forall operation_ok os → shown_ok (enState e) → shown_ok (enState (runs os e)).
Proof.
  induction os as [|o os IH]; intros e Hos He; [done|]. apply Forall_cons in Hos as [Ho Hos]. apply IH; [done|]. by apply run_shown.
Qed.

Lemma Open_shown now id io e :
  isZero now = false → id ≠ ""%string → Open cfg FileMissing now (Some id) io = Ok e → shown_ok (enState e).
Proof.
  intros Hn Hid. unfold Open. cbn zeta. destruct io; [done|]. intros [= <-]. cbn [enState]. split; cbn; [done|done|]. by left.
Qed.
End shown.

(** ** Exchanges *)

Section exchanges.
Variables (digest : canonical → string) (quote : string → string) (cfg : Simulator) (errorText : sim_error → string).
Variables (sent : Command → result string Command) (socket : string).
Notation runs := (runs digest quote cfg).
Notation Read := (Read digest quote cfg errorText socket).
Notation Execute := (Execute digest quote cfg errorText sent).
Notation ApplyCommand := (ApplyCommand digest quote cfg).

(** The engine when a request of [x] is handled. *)
Definition arrived (x : exchange) (e : Engine) : Engine := runs (xcBefore x) e.

(** A read is a look at the engine after the operations of others, or it fails
    on the way. *)
Lemma Read_spec x e r e' :
  Read x e = (r, e') → Forall operation_ok (xcBefore x ++ mtMeanwhile (xcMeeting x)) → shown_ok (enState e) →
  match r with
  | Ok s => s = snapshotOf (enState e')
  | Err (ErrUnavailable _) => xcUnsent x ≠ None ∨ xcLost x ≠ None ∨
      waitContext (xcMeeting x) (ResponseBehavior (arrived x e)).1 = false
  | Err (ErrBadData _) => xcTruncated x ≠ None
  | Err _ => False
  end ∧
  (e' = arrived x e ∨ e' = runs (mtMeanwhile (xcMeeting x)) (arrived x e)).
Proof.
  unfold Adapter.Read, roundTrip. cbn zeta. fold (arrived x e). intros Hr Hos He.
  apply Forall_app in Hos as [Hb Hm].
  destruct (xcUnsent x) as [err|]; [injection Hr as <- <-; split; [by left|by left]|].
  unfold ioHandler, snapshotRoute in Hr. change ("/v1/snapshot" =s "/healthz") with false in Hr.
  change ("/v1/snapshot" =s "/v1/snapshot") with true in Hr. change ("GET" =s "GET") with true in Hr. cbn [negb] in Hr. cbn zeta in Hr.
  destruct (waitContext _ _) eqn:Hw; [|injection Hr as <- <-; split; [by right; right|by right]].
  destruct (xcLost x); [injection Hr as <- <-; split; [by right; left|by right]|]. cbn [wrStatus wrBody negb Z.eqb Pos.eqb] in Hr.
  destruct (xcTruncated x); [injection Hr as <- <-; by split; [|right]|].
  rewrite ValidateSnapshot_shown in Hr by (apply runs_shown; [done|]; by apply runs_shown).
  injection Hr as <- <-. by split; [|right].
Qed.

(** A command is applied, with the operations of others behind it, or the engine
    has not changed by it. *)
Lemma Execute_spec command x e r e' :
  sent command = Ok command → Execute command x e = (r, e') →
  (e' = arrived x e ∧ ∃ err, r = Err err) ∨
  ∃ res e1, ApplyCommand command (mtNow (xcMeeting x)) (mtIO (xcMeeting x)) (arrived x e) = (Ok res, e1) ∧
    e' = runs (mtMeanwhile (xcMeeting x)) e1 ∧ (r = Ok res ∨ ∃ err, r = Err err).
Proof.
  intros Hsent. unfold Adapter.Execute, roundTrip. cbn zeta. fold (arrived x e).
  destruct (xcUnsent x) as [err|].
  { intros [= <- <-]. left. split; [done|]. destruct (xcDeadline x); by eexists. }
  unfold ioHandler, commandRoute. change ("/v1/commands" =s "/healthz") with false. change ("/v1/commands" =s "/v1/snapshot") with false.
  change ("/v1/commands" =s "/v1/commands") with true. change ("POST" =s "POST") with true. cbn [negb]. rewrite Hsent. cbn zeta.
  destruct (ApplyCommand _ _ _ _) as [[res|err] e1] eqn:Ha.
  - right. exists res, e1. split; [done|].
    destruct (ResponseBehavior _) as [delay appliedTimeout].
    destruct (negb (waitContext _ _)).
    { injection H as <- <-. split; [done|]. right. destruct (xcDeadline x); by eexists. }
    destruct (_ && _).
    { injection H as <- <-. split; [done|]. right. destruct (xcDeadline x); by eexists. }
    destruct (xcLost x).
    { injection H as <- <-. split; [done|]. right. destruct (xcDeadline x); by eexists. }
    destruct (xcTruncated x); injection H as <- <-; split; [done|right; by eexists|done|by left].
  - assert (e1 = arrived x e) as ->.
    { by apply ApplyCommand_recorded in Ha as [[-> _]|(y & [=] & _)]. }
    left. destruct (xcLost x); injection H as <- <-; (split; [done|]); [destruct (xcDeadline x); by eexists|by eexists].
Qed.

(** ** What the queue's other steps leave of the device *)

Variables (range : gmap Z ModelAlarm → list (Z * ModelAlarm)) (wall : Z) (details : Command → CommandResult → string) (staleAfter : Z).
Notation device := (plc_device digest quote cfg errorText sent socket).

(** The other end, and the exchanges to come. *)
Definition linkOf (w : World (D := PlcDevice)) : adapter_kind * Engine * list exchange :=
  (dvKind (woDevice w), dvEngine (woDevice w), dvExchanges (woDevice w)).

Lemma onStore_link {A} (m : StoreM A) w : linkOf (onStore m w).2 = linkOf w.
Proof. unfold onStore. by destruct (m (woStore w)). Qed.

Lemma completeOnce_link r readback operation audit w :
  linkOf (completeOnce (H := device) range wall staleAfter r readback operation audit w).2 = linkOf w.
Proof. unfold completeOnce, onDevice. cbn. by rewrite onStore_link. Qed.

Lemma persistLoop_link budget r readback operation audit : ∀ w,
  linkOf (persistLoop (H := device) range wall staleAfter budget r readback operation audit w).2 = linkOf w.
Proof.
  induction budget as [|budget IH]; intros w; cbn [persistLoop]; pose proof (completeOnce_link r readback operation audit w) as Hc;
    destruct (completeOnce _ _ _ _ _ _ _ w) as [[persisted|err] w1]; try exact Hc. by rewrite IH.
Qed.

Lemma persistOutcome_link budget command meta r readback w :
  linkOf (persistOutcome (H := device) range wall details staleAfter budget command meta r readback w).2 = linkOf w.
Proof.
  unfold persistOutcome. cbn zeta. destruct (_ =s CommandExecuted).
  - unfold onDevice. cbn. set (w1 := mkWorld _ _). change (linkOf w) with (linkOf w1).
    pose proof (persistLoop_link budget (ensureResultCode r) readback
      (mkOperationInput "info" "0001" (resultMessage (ensureResultCode r)) (default 0 (head (dvClock (woDevice w)))))
      (auditOf details command meta (ensureResultCode r)) w1) as Hl.
    by destruct (persistLoop _ _ _ _ _ _ _ _ w1) as [[persisted|err] w2].
  - pose proof (persistLoop_link budget (ensureResultCode r) readback (mkOperationInput "" "" "" zeroTime)
      (auditOf details command meta (ensureResultCode r)) w) as Hl.
    by destruct (persistLoop _ _ _ _ _ _ _ _ w) as [[persisted|err] w2].
Qed.

Lemma commandAvailability_link w : linkOf (commandAvailability (H := device) staleAfter w).2 = linkOf w.
Proof.
  unfold commandAvailability. pose proof (onStore_link LoadSnapshot w) as Hl. destruct (onStore LoadSnapshot w) as [[record|e] w1]; [|exact Hl].
  cbn [snd] in Hl. destruct (SourceAvailability _) as [available code]. destruct (negb available); [exact Hl|].
  unfold onDevice. cbn. set (w2 := mkWorld _ _). assert (linkOf w2 = linkOf w) as H2 by exact Hl.
  destruct (Freshness _ _ _) as [fresh code']. destruct (negb fresh); exact H2.
Qed.

(** ** Commands and their record *)

Notation idOf command := (cmCommandID (NormalizeCommand command)).
Notation printOf command := (CommandFingerprint digest (NormalizeCommand command)).

(** A known id is answered from the record, or belongs to other content. *)
Lemma ApplyCommand_known command now io e res e1 p :
  processedIn e (idOf command) = Some p → ApplyCommand command now io e = (Ok res, e1) →
  e1 = e ∧ ((pcFingerprint p = printOf command ∧ pcResult p = res) ∨
    (pcFingerprint p ≠ printOf command ∧ crStatus res = CommandRejected ∧ crCode res = "idempotency_conflict"%string)).
Proof.
  intros Hp Ha. unfold PlcSim.ApplyCommand in Ha. cbn zeta in Ha. destruct (_ || _); [done|]. unfold processedIn in Hp. rewrite Hp in Ha.
  destruct (String.eqb_spec (pcFingerprint p) (printOf command)) as [Hf|Hf]; cbn [negb] in Ha; injection Ha as <- <-;
    (split; [done|]); [by left|by right].
Qed.

(** An answer of the engine is on record there, or the id belongs to other content. *)
Lemma ApplyCommand_answer command now io e res e1 :
  ApplyCommand command now io e = (Ok res, e1) →
  ∃ p, processedIn e1 (idOf command) = Some p ∧
    ((pcFingerprint p = printOf command ∧ pcResult p = res) ∨
     (pcFingerprint p ≠ printOf command ∧ crStatus res = CommandRejected ∧ crCode res = "idempotency_conflict"%string)).
Proof.
  intros Ha. destruct (processedIn e (idOf command)) as [p|] eqn:Hp.
  - exists p. destruct (ApplyCommand_known command now io e res e1 p Hp Ha) as [-> Hr]. by split.
  - apply ApplyCommand_recorded in Ha as [[_ Ha]|(x & [= <-] & _ & _ & Hx & _)].
    + destruct (Ha res eq_refl) as (p & Hp' & _). congruence.
    + exists (mkProcessed (printOf command) res). split; [exact Hx|]. by left.
Qed.

Lemma arrived_keeps x e : keeps e (arrived x e).
Proof. apply runs_keeps. Qed.

Definition meeting_ok (x : exchange) : Prop :=
  Forall operation_ok (xcBefore x ++ mtMeanwhile (xcMeeting x)) ∧ isZero (mtNow (xcMeeting x)) = false.

Lemma Execute_shown command x e r e' :
  sent command = Ok command → meeting_ok x → shown_ok (enState e) → Execute command x e = (r, e') → shown_ok (enState e').
Proof.
  intros Hsent [Hops Hnow] He Hx. apply Forall_app in Hops as [Hb Hm].
  assert (shown_ok (enState (arrived x e))) as Ha by by apply runs_shown.
  destruct (Execute_spec command x e r e' Hsent Hx) as [[-> _]|(res & e1 & Hc & -> & _)]; [done|]. apply runs_shown; [done|].
  pose proof (run_shown digest quote cfg (OpCommand command (mtNow (xcMeeting x)) (mtIO (xcMeeting x))) (arrived x e) Hnow Ha) as H1.
  cbn [PlcSimProofs.run] in H1. by rewrite Hc in H1.
Qed.

Lemma Read_keeps x e r e' : Read x e = (r, e') → Forall operation_ok (xcBefore x ++ mtMeanwhile (xcMeeting x)) →
  shown_ok (enState e) → keeps e e'.
Proof.
  intros Hr Ho He. destruct (Read_spec x e r e' Hr Ho He) as [_ [-> | ->]]; intros id p Hp; [by apply arrived_keeps|].
  apply runs_keeps. by apply arrived_keeps.
Qed.

(** ** What an outcome tells of the PLC *)

(** Before and after an operation of the queue on a command. *)
Record told (command : Command) (r : CommandResult) (e e' : Engine) : Prop := {
  td_executed : crStatus r = CommandExecuted →
    processedIn e' (idOf command) = Some (mkProcessed (printOf command) r) ∧ confirm command r (snapshotOf (enState e')) = Ok tt;
  td_refused : crStatus r = CommandRejected ∨ crStatus r = CommandFailed ∧ crCode r ≠ "readback_failed"%string →
    e' = e ∨ ∃ p, processedIn e' (idOf command) = Some p ∧
      (pcFingerprint p = printOf command → crStatus (pcResult p) = crStatus r)
}.

Lemma told_unknown command r e e' :
  crStatus r = CommandUnknown ∨ crStatus r = CommandFailed ∧ crCode r = "readback_failed"%string → told command r e e'.
Proof. intros [Hs|[Hs Hc]]; split; rewrite Hs; try done; by intros [?|[? ?]]. Qed.

Lemma persistOutcome_result budget command meta r readback w outcome err w' :
  persistOutcome (H := device) range wall details staleAfter budget command meta r readback w = ((outcome, err, false), w') →
  ouResult outcome = ensureResultCode r.
Proof.
  unfold persistOutcome. cbn zeta. destruct (_ =s CommandExecuted); [destruct (onDevice _ _)|];
    destruct (persistLoop _ _ _ _ _ _ _ _ _) as [[persisted|e] w2]; by intros [= <- _ _].
Qed.

Lemma ensureResultCode_executed r : crStatus r = CommandExecuted → ensureResultCode r = r.
Proof. intros Hs. unfold ensureResultCode. rewrite Hs. by destruct (crCode r <>s ""). Qed.
End exchanges.
