(* ===== verification/WorkerSpec.v ===== *)
(** * What the PLC worker promises

    The properties of the plan, the codec, the scan, the commands and the
    command queue of [internal/plcworker/worker.go], each with an instance at a
    small point table and a scripted adapter. *)

From S2P Require Import Prelude GoValue GoFloat RuntimeConfig PointStore WorkerPlan WorkerCodec Worker WorkerTrace WorkerLoop ScanStore.

(** ** A bench: two points, and an adapter that answers reads from a script *)

Module Bench.
Record env := mkEnv { reads : list (result goerr (list Z)) }.

#[export] Instance bench_env : WorkerEnv env := {
  envRead _ _ e := match reads e with
                   | Ok ws :: rest => (Ok (map u16 ws), mkEnv rest)
                   | Err er :: rest => (Err er, mkEnv rest)
                   | [] => (Err (mkErr "no answer" true), e)
                   end;
  envMask _ _ _ e := (Ok tt, e);
  envWriteSingle _ _ e := (Ok tt, e);
  envWriteMultiple _ _ e := (Ok tt, e);
  envPublish _ e := (Ok tt, e);
  envNow e := (1, e);
  envSleep _ e := e;
  envNotifyDisconnected e := e;
  envNotifyReconnected e := e
}.

#[export] Instance bench_laws : WorkerEnvLaws env.
Proof.
  split.
  - intros a q [[|[ws|er] rest]] ws' s'; simpl; try done. intros [= <- _].
    apply Forall_map, Forall_true. intros x. apply wrap_range. lia.
  - by intros s t s' [= <- _].
Defined.

Definition lamp : PointDefinition :=
  mkPointDefinition "lamp" "D100.3" "bool" "read_write" "lamp" "lamp" "maskWrite" 0 ""
    (Some (mkWriteDefinition "pulse" (VBool true) (VBool false) 100)) None.

Definition speed : PointDefinition :=
  mkPointDefinition "speed" "D101" "int32" "read_write" "speed" "speed" "fc10" 2 "low-high"
    (Some (mkWriteDefinition "set" VNil VNil 0)) None.

Definition level : PointDefinition :=
  mkPointDefinition "level" "D110" "float32" "read" "level" "" "" 2 "high-low" None None.

Definition config : Config := mkConfig 500 [lamp; speed; level].

Definition lampPlan : pointPlan := mkPointPlan lamp (mkPointAddress 100 3 1 true).
Definition speedPlan : pointPlan := mkPointPlan speed (mkPointAddress 101 0 2 false).
Definition levelPlan : pointPlan := mkPointPlan level (mkPointAddress 110 0 2 false).

Definition plan : scanPlan :=
  mkScanPlan (<["level" := levelPlan]> (<["speed" := speedPlan]> (<["lamp" := lampPlan]> ∅)))
    (<[110 := [levelPlan]]> (<[101 := [speedPlan]]> (<[100 := [lampPlan]]> ∅)))
    ({["level"]} ∪ ({["speed"]} ∪ ({["lamp"]} ∪ ∅)))
    [mkReadBatch 100 [100; 101; 102]; mkReadBatch 110 [110; 111]].

Lemma config_valid : config_ok config.
Proof. apply Validate_ok. vm_compute. reflexivity. Qed.

Lemma plan_built : buildPlan (fun m => map snd (map_to_list m)) config = Ok plan.
Proof. vm_compute. reflexivity. Qed.

Lemma plan_good : plan_ok plan.
Proof. apply (buildPlan_ok _ config plan config_valid plan_built). Qed.

Definition worker : Worker := mkWorker plan ∅ false.

Lemma worker_good : worker_inv plan worker.
Proof. split; [reflexivity|]. intros id v Hv. discriminate Hv. Qed.

(** Both batches answered, and a transport that is lost at once. *)
Definition answers : list (result goerr (list Z)) := [Ok [8; 7; 0]; Ok [16256; 0]].

Definition start : Worker * Traced env := (worker, mkTraced (mkEnv answers) []).
End Bench.
Import Bench.

(** ** The scan plan *)

(** C15. A plan built from a checked point table (whatever order Go enumerates
    its map in) holds every point of the table; it reads the whole span of
    every readable point in one FC03 batch of at most 125 words that stays
    inside the 16-bit address space; and no batch reads a word between or
    outside the planned points: each of its words belongs to a readable point. *)
Theorem scan_plan_covers_exactly_the_readable_points range c sp :
  config_ok c → buildPlan range c = Ok sp →
  (∀ d, d ∈ cPoints c → ∃ p, spPoints sp !! pPointID d = Some p ∧ ppDefinition p = d) ∧
  (∀ b, b ∈ spBatches sp → batch_ok b) ∧
  (∀ id p, spPoints sp !! id = Some p → planReadable p →
     ∃ b, b ∈ spBatches sp ∧ covers b (ppAddress p)) ∧
  (∀ b w, b ∈ spBatches sp → w ∈ rbWords b →
     ∃ id p, spPoints sp !! id = Some p ∧ planReadable p ∧ planned p w).
Proof.
  intros Hc Hb. destruct (buildPlan_ok range c sp Hc Hb) as [Hp Hd].
  split_and!; [done| |apply Hp|apply Hp]. apply Forall_forall, (pl_batches _ Hp).
Qed.

Lemma scan_plan_witness :
  ∃ p b, spPoints plan !! "speed" = Some p ∧ b ∈ spBatches plan ∧ covers b (ppAddress p).
Proof.
  destruct (scan_plan_covers_exactly_the_readable_points (fun m => map snd (map_to_list m)) config plan)
    as (_ & _ & Hc & _).
  - apply Validate_ok. vm_compute. reflexivity.
  - vm_compute. reflexivity.
  - exists speedPlan. destruct (Hc "speed" speedPlan) as (b & Hb & Hcov); [reflexivity|reflexivity|].
    exists b. split; [reflexivity|]. split; assumption.
Defined.

(** ** The scan *)

(** C3. Whatever the adapter answers, a scan publishes an item for every
    readable point and for no other.  If it leaves the connection lost, the scan
    reports an error and every item is stale; otherwise each item is good, or an
    error when its batch failed; and when the scan reports no error all are
    good.  Every item carries a value decoded from 16-bit registers for its
    point, or none if there never was one, and never a zero time. *)
Theorem scan_publishes_a_complete_snapshot {E} `{HL : WorkerEnvLaws E} (sp : scanPlan)
    (s : Worker * E) values err s' :
  plan_ok sp → worker_inv sp s.1 → readAll s = (values, err, s') →
  worker_inv sp s'.1 ∧
  (∀ id, is_Some (values !! id) ↔ id ∈ spReadable sp) ∧
  (wkDisconnected s'.1 = true → err ≠ None ∧ ∀ id v, values !! id = Some v → item_ok sp "stale" id v) ∧
  (wkDisconnected s'.1 = false →
     ∀ id v, values !! id = Some v → item_ok sp "good" id v ∨ item_ok sp "error" id v) ∧
  (err = None → ∀ id v, values !! id = Some v → item_ok sp "good" id v).
Proof. intros Hp Hw Hr. by destruct (readAll_ok sp Hp s values err s' Hw Hr) as [? []]. Qed.

Lemma scan_witness :
  ∃ values s', readAll (worker, mkEnv answers) = (values, None, s') ∧
    (pvValue <$> values !! "lamp") = Some (VBool true) ∧
    (∀ id v, values !! id = Some v → item_ok plan "good" id v).
Proof.
  assert ((readAll (worker, mkEnv answers)).1.2 = None) as Herr by (vm_compute; reflexivity).
  assert (pvValue <$> (readAll (worker, mkEnv answers)).1.1 !! "lamp" = Some (VBool true)) as Hv
    by (vm_compute; reflexivity).
  destruct (readAll (worker, mkEnv answers)) as [[values err] s'] eqn:Hr. simpl in Herr, Hv. subst err.
  exists values, s'. split; [reflexivity|]. split; [exact Hv|].
  apply (scan_publishes_a_complete_snapshot plan (worker, mkEnv answers) values None s' plan_good worker_good Hr).
  reflexivity.
Defined.

(** What a scan does to the outside: it requests a prefix of the plan's
    batches, in order and each at most once, publishes its snapshot exactly
    once, and then calls the disconnected or reconnected handler exactly once
    if the connection state changed, and not at all if it did not. *)
Theorem scan_notifies_each_transition_once {E} `{WorkerEnv E} (s : Worker * Traced E) values err s' :
  readAll s = (values, err, s') →
  ∃ k, trLog s'.2 = trLog s.2 ++ map readOf (take k (spBatches (wkPlan s.1))) ++ [EvPublish values] ++
                (if wkDisconnected s.1 then (if wkDisconnected s'.1 then [] else [EvReconnected])
                 else (if wkDisconnected s'.1 then [EvDisconnected] else [])).
Proof. intros Hr. destruct (readAll_trace s values err s' Hr) as [k Hk]. by exists k. Qed.

(** The first read answers and the second loses the connection. *)
Lemma scan_trace_witness :
  ∃ values s' k, (readAll (worker, mkTraced (mkEnv [Ok [8; 7; 0]]) [])).2 = s' ∧
    trLog s'.2 = map readOf (take k (spBatches plan)) ++ [EvPublish values; EvDisconnected].
Proof.
  assert (wkDisconnected (readAll (worker, mkTraced (mkEnv [Ok [8; 7; 0]]) [])).2.1 = true) as Hd
    by (vm_compute; reflexivity).
  destruct (readAll (worker, mkTraced (mkEnv [Ok [8; 7; 0]]) [])) as [[values err] s'] eqn:Hr.
  simpl in Hd. destruct (scan_notifies_each_transition_once _ values err s' Hr) as [k Hk].
  exists values, s', k. split; [reflexivity|]. rewrite Hk, Hd. reflexivity.
Defined.

(** The agent's point store takes every scan of a worker configured with
    the same checked table: unless a float32 pair holds NaN or an infinity, each
    item passes the store's checks, so the update (in whatever order Go
    enumerates the map) succeeds and stores exactly the snapshot over the
    values it held. *)
Theorem scans_are_accepted_by_the_point_store {E} `{HL : WorkerEnvLaws E} range c sp
    (st0 st st1 : Store) (s : Worker * E) values err s' items :
  Normalize c = Ok c → Replace c st0 = (Ok tt, st) → buildPlan range c = Ok sp →
  sDefinitions st1 = sDefinitions st → worker_inv sp s.1 → readAll s = (values, err, s') →
  items ≡ₚ map_to_list values → (∀ id v, values !! id = Some v → non_finite (pvValue v) = false) →
  ∃ changed st', Update items st1 = (Ok changed, st') ∧ sValues st' = values ∪ sValues st1.
Proof.
  intros Hn Hr Hb Hd Hw Hs Hit Hf.
  destruct (Replace_definitions c st0 st range sp Hn Hr Hb) as [Hp Hdefs].
  destruct (readAll_ok sp Hp s values err s' Hw Hs) as [_ Hok].
  by eapply snapshot_accepted.
Qed.

Lemma store_witness :
  ∃ values s' changed st',
    readAll (worker, mkEnv answers) = (values, None, s') ∧
    Update (map_to_list values) (Replace config New).2 = (Ok changed, st') ∧ sValues st' = values.
Proof.
  assert ((readAll (worker, mkEnv answers)).1.2 = None) as Herr by (vm_compute; reflexivity).
  assert (map_Forall (fun _ v => non_finite (pvValue v) = false) (readAll (worker, mkEnv answers)).1.1) as Hv
    by (apply (bool_decide_eq_true_1 _); vm_compute; reflexivity).
  destruct (readAll (worker, mkEnv answers)) as [[values err] s'] eqn:Hr. simpl in Herr, Hv. subst err.
  destruct (scans_are_accepted_by_the_point_store (fun m => map snd (map_to_list m)) config plan New
    (Replace config New).2 (Replace config New).2 (worker, mkEnv answers) values None s' (map_to_list values))
    as (changed & st' & Hu & Hst).
  - vm_compute. reflexivity.
  - vm_compute. reflexivity.
  - vm_compute. reflexivity.
  - reflexivity.
  - exact worker_good.
  - exact Hr.
  - reflexivity.
  - exact Hv.
  - exists values, s', changed, st'. split; [reflexivity|]. split; [exact Hu|].
    rewrite Hst. apply map_union_empty.
Defined.

(** ** Commands *)

(** A command that is answered POINT_NOT_FOUND, POINT_NOT_WRITABLE or
    INVALID_REQUEST has done nothing at all: no request was sent to the PLC,
    nothing was published, and the worker's state is unchanged. *)
Theorem rejected_command_does_nothing {E} `{WorkerEnv E} (sp : scanPlan) (cmd : Command)
    (s : Worker * Traced E) r s' :
  plan_ok sp → wkPlan s.1 = sp → execute cmd s = (r, s') →
  rCode r = "POINT_NOT_FOUND" ∨ rCode r = "POINT_NOT_WRITABLE" ∨ rCode r = "INVALID_REQUEST" →
  s' = s.
Proof. intros Hp Hs He Hr. exact (execute_rejected sp Hp cmd s Hs r s' He Hr). Qed.

Lemma rejected_witness :
  ∃ r s', execute (mkCommand "lamp" "set" (VBool true)) Bench.start = (r, s') ∧
    rCode r = "POINT_NOT_WRITABLE" ∧ s' = Bench.start.
Proof.
  assert (rCode (execute (mkCommand "lamp" "set" (VBool true)) Bench.start).1 = "POINT_NOT_WRITABLE") as Hr
    by (vm_compute; reflexivity).
  destruct (execute (mkCommand "lamp" "set" (VBool true)) Bench.start) as [r s'] eqn:He.
  exists r, s'. split; [reflexivity|]. split; [exact Hr|].
  apply (rejected_command_does_nothing plan _ Bench.start r s' plan_good eq_refl He). auto.
Defined.

(** C4. Any command is either refused without touching anything, or it is about
    a writable point of the plan, for an action its write mode allows, and the
    write requests and pauses it makes are an initial part of those of that
    action — one masked bit write for set, press, release and toggle, with the
    commanded, the active and the default value and, for a toggle, the opposite of
    what a scan shows of the read point; the active bit, the configured pause (a
    duration of 64 bits, which wraps beyond 292 years) and the default bit for
    pulse; one FC06 or FC16 request for a number — and all of them when it reports
    success. *)
Theorem command_performs_exactly_its_action {E} `{WorkerEnv E} (sp : scanPlan) (cmd : Command)
    (s : Worker * Traced E) r s' :
  plan_ok sp → wkPlan s.1 = sp → execute cmd s = (r, s') →
  (s' = s ∧ rSuccess r = false) ∨
  ∃ p wp l, spPoints sp !! cmdPointID cmd = Some p ∧
    spPoints sp !! pWritePoint (ppDefinition p) = Some wp ∧
    allowsAction (ppDefinition p) (cmdAction cmd) = true ∧
    actions (trLog s'.2) = actions (trLog s.2) ++ l ∧
    ((l = [] ∧ rSuccess r = false) ∨
     ∃ full, complete_actions (scanned s) (ppDefinition p) wp cmd full ∧ l `prefix_of` full ∧
             (rSuccess r = true → l = full)).
Proof.
  intros Hp Hs He. destruct (execute_did sp Hp cmd s Hs r s' He) as [?|(p & wp & ? & ? & ? & l & ? & ?)]; [by left|].
  right. by exists p, wp, l.
Qed.

(** A pulse: on, 100 ms, off; then the confirming scan. *)
Lemma command_witness :
  ∃ r s', execute (mkCommand "lamp" "pulse" VNil) Bench.start = (r, s') ∧
    rSuccess r = true ∧
    ∃ p wp full, spPoints plan !! "lamp" = Some p ∧
      complete_actions (scanned Bench.start) (ppDefinition p) wp (mkCommand "lamp" "pulse" VNil) full ∧
      actions (trLog s'.2) = full ∧
      full = [EvMask 100 3 true; EvSleep 100000000; EvMask 100 3 false].
Proof.
  assert (rSuccess (execute (mkCommand "lamp" "pulse" VNil) Bench.start).1 = true) as Hr
    by (vm_compute; reflexivity).
  assert (actions (trLog (execute (mkCommand "lamp" "pulse" VNil) Bench.start).2.2) =
    [EvMask 100 3 true; EvSleep 100000000; EvMask 100 3 false]) as Ha by (vm_compute; reflexivity).
  destruct (execute (mkCommand "lamp" "pulse" VNil) Bench.start) as [r s'] eqn:He. simpl in Hr, Ha.
  exists r, s'. split; [reflexivity|]. split; [exact Hr|].
  destruct (command_performs_exactly_its_action plan _ Bench.start r s' plan_good eq_refl He)
    as [[_ Hf]|(p & wp & l & Hp & Hwp & _ & Hl & [[_ Hf]|(full & Hfull & _ & Hall)])];
    [congruence|congruence|].
  exists p, wp, full. split; [exact Hp|]. split; [exact Hfull|]. split; [rewrite Hl; exact (Hall Hr)|].
  rewrite <-(Hall Hr), <-Ha. symmetry. exact Hl.
Defined.

(** ** The register codec *)

(** C28. A number the agent accepts for a numeric point of a checked table is
    written as registers from which the scan reads back, for either word order:
    for int16, uint16 and int32 points an integer of the point's own kind that
    denotes the accepted float64, and for float32 points the accepted number
    rounded to binary32, which is the same number whenever it is a binary32 value. *)
Theorem accepted_numbers_survive_the_registers (p : pointPlan) (f : spec_float) ws :
  planOf p → validatePoint (ppDefinition p) = Ok tt → valid_binary prec64 emax64 f = true →
  numericWords (ppDefinition p) (VFloat64 f) = Ok ws →
  (pType (ppDefinition p) = "int16" → ∃ z, denotes f z ∧ decodePointValue p ws = Ok (VInt KInt16 z)) ∧
  (pType (ppDefinition p) = "uint16" → ∃ z, denotes f z ∧ decodePointValue p ws = Ok (VInt KUint16 z)) ∧
  (pType (ppDefinition p) = "int32" → ∃ z, denotes f z ∧ decodePointValue p ws = Ok (VInt KInt32 z)) ∧
  (pType (ppDefinition p) = "float32" →
     decodePointValue p ws = Ok (VFloat64 (f64_of_f32 (f32_of_f64 f))) ∧
     ∀ g, valid_binary prec32 emax32 g = true → f = f64_of_f32 g → decodePointValue p ws = Ok (VFloat64 f)).
Proof.
  intros Hp Hv Hf Hws. split_and!.
  - by apply int16_roundtrip.
  - by apply uint16_roundtrip.
  - by apply int32_roundtrip.
  - intros Ht. pose proof (float32_roundtrip p f ws Hp Hv Hws Ht) as Hd. split; [done|].
    intros g Hg ->. by rewrite f32_f64_f32 in Hd.
Qed.

Lemma numbers_witness :
  ∃ z, denotes (f64_of_Z (-70000)) z ∧ decodePointValue speedPlan [61072; 65534] = Ok (VInt KInt32 z).
Proof.
  apply (accepted_numbers_survive_the_registers speedPlan (f64_of_Z (-70000)) [61072; 65534]);
    vm_compute; reflexivity.
Defined.

(** C31. Decoding is total and type-safe: every planned point of a checked table
    decodes whenever the scan has its whole span, and the value is one that the
    table accepts for the point's declared type exactly if it is not a NaN or
    infinite float; a bit point's value is the bit of its word. *)
Theorem planned_points_always_decode (p : pointPlan) ws :
  planOf p → validatePoint (ppDefinition p) = Ok tt → address_ok (ppAddress p) →
  Z.of_nat (length ws) = paCount (ppAddress p) → Forall (in_range 16) ws →
  (∃ v, decodePointValue p ws = Ok v ∧
     (ValidateValue (pType (ppDefinition p)) v = Ok tt ↔ non_finite v = false)) ∧
  (paBitIO (ppAddress p) = true → ∀ w, ws = [w] →
     decodePointValue p ws = Ok (VBool (Z.testbit w (paBit (ppAddress p))))).
Proof.
  intros Hp Hv Ha Hl Hw. split; [|by intros ? w ->; apply decode_bit].
  destruct (decode_total p ws) as [v Hd]; try done. exists v. split; [done|]. split; [|by eapply decode_accepted].
  intros Hok. destruct (non_finite v) eqn:Hn; [|done]. by destruct (decode_refused p ws v Hd Hn).
Qed.

Lemma decode_witness : decodePointValue lampPlan [8] = Ok (VBool true).
Proof.
  destruct (planned_points_always_decode lampPlan [8]) as [_ Hb];
    [vm_compute; reflexivity|vm_compute; reflexivity|split; vm_compute; try (split; congruence); congruence
    |reflexivity|repeat constructor; vm_compute; congruence|].
  exact (Hb eq_refl 8 eq_refl).
Defined.

(** The alarm of an integer point whose alarm value is a JSON number never
    becomes active: the scan compares the decoded int16, uint16 or int32 with
    the configured float64 by [reflect.DeepEqual]. *)
Theorem integer_alarms_with_json_values_never_fire {E} `{WorkerEnv E} (p : pointPlan) a f i
    (ws : list Z) (sc : Scan (E := E)) v :
  paBitIO (ppAddress p) = false → pType (ppDefinition p) ≠ "float32" →
  pAlarm (ppDefinition p) = Some a → aAlarmValue a = VFloat64 f →
  scValues (goodPoint i ws sc p) !! pPointID (ppDefinition p) = Some v →
  scValues sc !! pPointID (ppDefinition p) = Some v ∨ pvAlarmActive v = Some false.
Proof.
  intros Hio Ht Ha Hv. unfold goodPoint. case_match; [by left|]. case_match eqn:Hd; [|by left].
  destruct (envNow (scEnv sc)) as [t env]. rewrite Ha, Hv. simpl. rewrite lookup_insert_eq.
  intros [= <-]. right. simpl. by rewrite (int_decode_not_json _ _ _ f Hd Hio Ht).
Qed.

Definition alarmPoint : pointPlan :=
  mkPointPlan (mkPointDefinition "faults" "D7" "int16" "read" "faults" "" "" 1 "" None
    (Some (mkAlarmDefinition (VFloat64 (f64_of_Z 0)) (VFloat64 (f64_of_Z 3)) "fault")))
    (mkPointAddress 7 0 1 false).

(** The register holds the alarm value 3, and the alarm stays inactive. *)
Lemma alarm_witness :
  ∃ v, scValues (goodPoint 0 [3] (mkScan ∅ worker (mkEnv [])) alarmPoint) !! "faults" = Some v ∧
    pvValue v = VInt KInt16 3 ∧ pvAlarmActive v = Some false.
Proof.
  eexists. split; [vm_compute; reflexivity|]. split; [reflexivity|].
  destruct (integer_alarms_with_json_values_never_fire alarmPoint
    (mkAlarmDefinition (VFloat64 (f64_of_Z 0)) (VFloat64 (f64_of_Z 3)) "fault") (f64_of_Z 3) 0%nat [3]
    (mkScan ∅ worker (mkEnv [])) (mkPointValue (VInt KInt16 3) "good" 1 (Some false))) as [Hf|Hok];
    [vm_compute; congruence|vm_compute; congruence|reflexivity|reflexivity|vm_compute; reflexivity
    |discriminate Hf|exact Hok].
Defined.

(** ** The command queue *)

(** C2. In every interleaving of submissions, cancellation and the rounds of
    the worker's goroutine: the queue holds at most 64 requests; the replies
    sent so far are, in order, those of the first admitted commands and the
    queue holds the others, also in order, so no command is answered twice, out
    of order or without having been admitted; and once the goroutine has
    stopped every admitted command has been answered. *)
Theorem commands_are_answered_once_in_order {E} `{WorkerEnv E} (s : Worker * E) (l : Loop (E := E)) :
  reachable s l →
  (length (lpQueue l) ≤ CommandQueueCapacity)%nat ∧ NoDup (lpAdmitted l) ∧
  lpAdmitted l = map fst (lpReplies l) ++ map crTicket (lpQueue l) ∧
  (lpPhase l = Stopped → map fst (lpReplies l) = lpAdmitted l).
Proof.
  intros Hr. destruct (reachable_ok s l Hr) as [Hb Hf Hn _ Hst _]. split_and!; [done|done|done|].
  intros Hp. rewrite <-Hf, (Hst Hp). simpl. by rewrite app_nil_r.
Qed.

Definition lampOn : Command := mkCommand "lamp" "pulse" VNil.

(** Two commands are submitted before the worker starts. *)
Definition submitted : Loop (E := env) :=
  (TrySubmit 2 lampOn (TrySubmit 1 lampOn (New_ (worker, mkEnv answers))).2).2.

Lemma submitted_reachable : reachable (worker, mkEnv answers) submitted.
Proof.
  eapply reach_step; [eapply reach_step; [apply reach_new|]|]; apply step_submit; simpl;
    rewrite ?elem_of_cons, ?elem_of_nil; lia.
Qed.

Lemma queue_witness :
  lpAdmitted submitted = [1; 2]%nat ∧
  lpAdmitted submitted = map fst (lpReplies submitted) ++ map crTicket (lpQueue submitted).
Proof.
  split; [reflexivity|].
  apply (commands_are_answered_once_in_order (worker, mkEnv answers) submitted submitted_reachable).
Defined.

(** A stopping worker always finishes: from any reachable state that is
    starting or polling, once the session is cancelled, the deferred calls of
    the goroutine lead to the stopped state, where every command still queued
    has been answered SERVICE_STOPPING after the replies already sent, and
    every admitted command has exactly one reply. *)
Theorem a_cancelled_worker_drains_its_queue {E} `{WorkerEnv E} (s : Worker * E) (l : Loop (E := E)) :
  reachable s l → lpPhase l = Starting ∨ lpPhase l = Polling → lpCancelled l = true →
  let l' := setPhase Stopped (rejectQueued (lpQueue l) (stopAdmitting l)) in
  steps l l' ∧
  lpReplies l' = lpReplies l ++ map (fun rq => (crTicket rq, stoppingReply rq)) (lpQueue l) ∧
  map fst (lpReplies l') = lpAdmitted l' ∧ lpAdmitted l' = lpAdmitted l.
Proof.
  intros Hr Hp Hc l'. destruct (rejectQueued_steps (stopAdmitting l) (lpQueue l)) as (Hs & Hd & Hq); [done..|].
  destruct (rejectQueued_replies (lpQueue l) (stopAdmitting l)) as [Hre Had]. split_and!.
  - eapply steps_step; [by apply step_stop|]. eapply steps_trans; [exact Hs|].
    eapply steps_step; [by apply step_done|apply steps_refl].
  - exact Hre.
  - destruct (reachable_ok s l Hr) as [_ Hf _ _ _ _]. simpl. rewrite Hre, Had. simpl.
    rewrite <-Hf, map_app, map_map. done.
  - exact Had.
Qed.

Lemma drain_witness :
  let l' := setPhase Stopped (rejectQueued (lpQueue submitted) (stopAdmitting (cancel submitted))) in
  map fst (lpReplies l') = [1; 2]%nat ∧ map fst (lpReplies l') = lpAdmitted l'.
Proof.
  split; [reflexivity|].
  apply (a_cancelled_worker_drains_its_queue (worker, mkEnv answers) (cancel submitted));
    [eapply reach_step; [apply submitted_reachable|apply step_cancel]|left; reflexivity|reflexivity].
Defined.

(** Admission never loses a command silently: a submission is refused only
    when the worker is stopping (SERVICE_STOPPING) or 64 commands are waiting
    (BUSY), and a refused one changes nothing; an admitted one is appended to
    the queue, behind those already there. *)
Theorem submissions_are_admitted_or_refused {E} `{WorkerEnv E} ticket command (l : Loop (E := E)) :
  match TrySubmit ticket command l with
  | (Admitted_, l') =>
      lpStopping l = false ∧ (length (lpQueue l) < CommandQueueCapacity)%nat ∧
      lpQueue l' = lpQueue l ++ [mkRequest ticket command] ∧ lpReplies l' = lpReplies l
  | (Refused r, l') =>
      l' = l ∧ rSuccess r = false ∧
      ((rCode r = "SERVICE_STOPPING" ∧ lpStopping l = true) ∨
       (rCode r = "BUSY" ∧ lpStopping l = false ∧ (CommandQueueCapacity ≤ length (lpQueue l))%nat))
  end.
Proof.
  unfold TrySubmit. destruct (lpStopping l); [by auto|].
  destruct (length (lpQueue l) <? CommandQueueCapacity)%nat eqn:Hl; simpl.
  - apply Nat.ltb_lt in Hl. done.
  - apply Nat.ltb_ge in Hl. auto 6.
Qed.
