(* ===== verification/ConfigSpec.v ===== *)
(** * What the point table's checks and the point store promise

    The properties of [internal/runtimeconfig/config.go] and
    [internal/pointstore/store.go]. *)

From S2P Require Import Prelude GoValue RuntimeConfig PointStore.

Module Table.
Definition door : PointDefinition :=
  mkPointDefinition "door" "D10.1" "bool" "read_write" "door" "door" "maskWrite" 0 ""
    (Some (mkWriteDefinition "pulse" (VBool true) (VBool false) 0))
    (Some (mkAlarmDefinition (VBool false) (VBool true) "door open")).

Definition config : Config := mkConfig 500 [door].

Definition normal : Config := mkConfig 500 [defaultPulse door].

Lemma normalized : Normalize config = Ok normal.
Proof. vm_compute. reflexivity. Qed.

Definition store : Store := (Replace config New).2.

Definition closed : PointValue := mkPointValue (VBool false) "good" 5 (Some false).
End Table.
Import Table.

(** C39. A point table is accepted exactly when it asks for the 500 ms scan, is
    not empty, has distinct point ids, and each of its points is well formed on
    its own and refers, where its access needs it, to a readable point and a
    writable point of its own type. *)
Theorem a_table_is_accepted_iff_well_formed (c : Config) :
  Validate c = Ok tt ↔
    cScanIntervalMs c = RequiredScanIntervalMs ∧ cPoints c ≠ [] ∧ NoDup (map pPointID (cPoints c)) ∧
    ∀ p, p ∈ cPoints c →
      validatePoint p = Ok tt ∧
      (pAccess p ≠ "write" → ∃ r, r ∈ cPoints c ∧ pPointID r = pReadPoint p ∧ pAccess r ≠ "write" ∧ pType r = pType p) ∧
      (pAccess p ≠ "read" → ∃ w, w ∈ cPoints c ∧ pPointID w = pWritePoint p ∧ pAccess w ≠ "read" ∧ pType w = pType p).
Proof.
  rewrite Validate_ok. split.
  - intros [Hi Hn Hu Hp]. split_and!; [done..|]. intros p Hin. destruct (Hp p Hin) as [Hv Hr Hw].
    split_and!; [done|intros Ha; destruct (Hr Ha) as (r & Hl & ? & ?); exists r
                |intros Ha; destruct (Hw Ha) as (r & Hl & ? & ?); exists r];
      apply table_lookup_Some in Hl as [? ?]; by split_and!.
  - intros (Hi & Hn & Hu & Hp). split; [done..|]. intros p Hin. destruct (Hp p Hin) as (Hv & Hr & Hw).
    split; [done|intros Ha; destruct (Hr Ha) as (r & ? & <- & ? & ?); exists r
           |intros Ha; destruct (Hw Ha) as (r & ? & <- & ? & ?); exists r];
      (split; [by apply table_lookup_In|done]).
Qed.

(** Normalizing a table yields an accepted table or an error; normalizing
    again changes nothing; and only an omitted pulse time is filled in: every
    point keeps its id and position, and a pulse in the result is positive. *)
Theorem normalization_is_idempotent (c c' : Config) :
  Normalize c = Ok c' →
  Validate c' = Ok tt ∧ Normalize c' = Ok c' ∧ map pPointID (cPoints c') = map pPointID (cPoints c) ∧
  ∀ p w, p ∈ cPoints c' → pAccess p ≠ "read" → pWrite p = Some w → wMode w = "pulse" → 0 < wPulseMs w.
Proof.
  intros Hn. apply Normalize_ok in Hn as [Hc Hok]. split_and!.
  - by apply Validate_ok.
  - apply Normalize_ok. split; [|done]. rewrite Hc. cbn [cScanIntervalMs cPoints]. f_equal.
    rewrite map_map. apply map_ext. intros p. symmetry. apply defaultPulse_idem.
  - rewrite Hc. cbn [cPoints]. rewrite map_map. apply map_ext, defaultPulse_id.
  - intros p w Hp Ha Hw Hm. destruct (co_points _ Hok p Hp) as [Hv _ _]. by eapply validatePoint_pulse.
Qed.

Lemma normalization_witness : Normalize normal = Ok normal ∧ Validate normal = Ok tt.
Proof.
  destruct (normalization_is_idempotent config normal normalized) as (Hv & Hn & _). split; assumption.
Defined.

(** An update of the point store, whatever order Go enumerates the map in:
    if every item passes the checks it succeeds, the store then holds the items
    over its old values, and the reported changes are exactly the items whose
    value, quality or alarm state differs from what was shown; if it fails, every
    value in the store is an old one or one of the items; and in both cases each
    stored value still passes the checks of the configured point. *)
Theorem updates_store_checked_values items (s : Store) :
  NoDup items.*1 → store_ok s →
  match Update items s with
  | (Ok changed, s') =>
      sValues s' = list_to_map items ∪ sValues s ∧
      (∀ id, changed !! id =
         match (list_to_map items : gmap string PointValue) !! id with
         | Some v => if displayChanged (sValues s !! id) v then Some v else None
         | None => None
         end) ∧ store_ok s' ∧ sDefinitions s' = sDefinitions s
  | (Err e, s') =>
      (∃ kv, kv ∈ items ∧ checkUpdate (sDefinitions s) kv.1 kv.2 = Err e) ∧
      (∀ id v, sValues s' !! id = Some v → (id, v) ∈ items ∨ sValues s !! id = Some v) ∧
      store_ok s' ∧ sDefinitions s' = sDefinitions s
  end.
Proof.
  intros Hnd Hs. destruct (Update items s) as [[changed|e] s'] eqn:Hu; unfold Update in Hu.
  - pose proof (updateLoop_ok _ _ _ _ _ Hs Hu) as Hok. pose proof (updateLoop_defs _ _ _ _ _ Hu) as Hd.
    apply updateLoop_success in Hu as [Hv Hc]; [|done]. split_and!; try done.
  - pose proof (updateLoop_ok _ _ _ _ _ Hs Hu) as Hok. pose proof (updateLoop_defs _ _ _ _ _ Hu) as Hd.
    split_and!; try done; [|intros id v; by eapply updateLoop_failure].
    apply updateLoop_error in Hu as (kv & ? & ?). by exists kv.
Qed.

Lemma update_witness :
  ∃ changed s', Update [("door", closed)] store = (Ok changed, s') ∧ changed !! "door" = Some closed.
Proof.
  pose proof (updates_store_checked_values [("door", closed)] store) as Ht.
  destruct (Update [("door", closed)] store) as [[changed|e] s'] eqn:Hu; [|vm_compute in Hu; discriminate Hu].
  exists changed, s'. split; [reflexivity|].
  destruct Ht as (_ & Hc & _); [apply NoDup_singleton|intros id v Hv; discriminate Hv|].
  rewrite Hc. reflexivity.
Defined.
