(* ===== verification/DeviceSpec.v ===== *)
(** * What the Modbus client and the register simulator promise

    The properties of [internal/easy521/client.go] and
    [tools/plc-simulator/server.go], on their own and talking to each other. *)

From S2P Require Import Prelude Easy521 SimServer.

(** ** Framing *)

(** The reader takes one whole frame and leaves the bytes behind it. *)
Lemma readRequest_framed tid unit pdu rest :
  in_range 16 tid → (1 ≤ length pdu ≤ 253)%nat →
  readRequest (frameOf tid unit pdu ++ rest) = RRequest (mkRequest tid unit pdu) rest.
Proof.
  intros Ht Hl. unfold readRequest, frameOf.
  set (n := u16 (Z.of_nat (length pdu) + 1)).
  assert (n = Z.of_nat (length pdu) + 1) as Hn.
  { unfold n, wrap. apply Z.mod_small. change (2 ^ 16) with 65536. lia. }
  assert (in_range 16 n) as Hnr by (unfold in_range; change (2 ^ 16) with 65536; lia).
  unfold putU16, u16At, byteAt. simpl nth. simpl length. cbn [app drop].
  rewrite !getU16_putU16 by done. simpl.
  unfold maxMBAPLength. rewrite !(proj2 (Z.ltb_ge _ _)) by lia. simpl.
  replace (Z.to_nat n) with (S (length pdu)) by lia. simpl.
  rewrite take_app_length, drop_app_length, Nat.ltb_irrefl. done.
Qed.

(** A frame that has not arrived completely is waited for. *)
Lemma readRequest_partial tid unit pdu k :
  in_range 16 tid → (1 ≤ length pdu ≤ 253)%nat → (k < length (frameOf tid unit pdu))%nat →
  readRequest (take k (frameOf tid unit pdu)) = RNeedMore.
Proof.
  intros Ht Hl Hk. set (f := frameOf tid unit pdu) in *.
  assert (length f = (7 + length pdu)%nat) as Hf by done.
  unfold readRequest. rewrite length_take_le by lia.
  destruct (k <? 6)%nat eqn:H6; [done|]. apply Nat.ltb_ge in H6.
  set (n := u16 (Z.of_nat (length pdu) + 1)).
  assert (n = Z.of_nat (length pdu) + 1) as Hn.
  { unfold n, wrap. apply Z.mod_small. change (2 ^ 16) with 65536. lia. }
  assert (in_range 16 n) as Hnr by (unfold in_range; change (2 ^ 16) with 65536; lia).
  assert (∃ k', k = (6 + k')%nat) as [k' ->] by (exists (k - 6)%nat; lia).
  assert (take (6 + k') f = putU16 tid ++ [0; 0] ++ putU16 n ++ take k' (unit :: pdu)) as -> by reflexivity.
  unfold putU16, u16At, byteAt. simpl nth. cbn [app].
  rewrite !getU16_putU16 by done. simpl negb. cbv iota.
  unfold maxMBAPLength. rewrite !(proj2 (Z.ltb_ge _ _)) by lia. cbn [orb]. cbv iota.
  rewrite (proj2 (Nat.ltb_lt _ _)); [done|].
  change (drop 6 _) with (take k' (unit :: pdu)). rewrite !length_take. simpl length. simpl in Hk. lia.
Qed.

(** The server's framing does not depend on how TCP splits the stream: it
    takes exactly one request off any input that starts with a client's frame,
    leaving the bytes behind it, and waits when only part of a frame is there. *)
Theorem requests_survive_segmentation tid unit pdu rest k :
  in_range 16 tid → (1 ≤ length pdu ≤ 253)%nat →
  readRequest (frameOf tid unit pdu ++ rest) = RRequest (mkRequest tid unit pdu) rest ∧
  ((k < length (frameOf tid unit pdu))%nat → readRequest (take k (frameOf tid unit pdu)) = RNeedMore).
Proof. intros. split; [by apply readRequest_framed|by apply readRequest_partial]. Qed.

Lemma segmentation_witness :
  readRequest (frameOf 7 1 [3; 0; 1; 0; 2] ++ [0; 8]) = RRequest (mkRequest 7 1 [3; 0; 1; 0; 2]) [0; 8].
Proof.
  apply (requests_survive_segmentation 7 1 [3; 0; 1; 0; 2] [0; 8] 0); [split; vm_compute; congruence|simpl; lia].
Defined.

(** ** The client *)

(** No operation of the client leaves a connection in use after a failure:
    whatever the network answers, when a read, a register write (single or
    multiple, with its fallback) or a bit write with legal arguments returns an
    error the connection has been closed, so the next operation dials again and
    cannot take a late response for its own; and the transaction id stays
    between 1 and 65535. *)
Theorem a_failed_operation_drops_the_connection {N} `{Transport N} (s : Client * N) address bit target
    quantity value values :
  1 ≤ clNextID s.1 ≤ 65535 → in_range 16 address → bit ≤ 15 → 1 ≤ quantity ≤ 125 →
  address + quantity ≤ 2 ^ 16 → values ≠ [] → Z.of_nat (length values) ≤ 123 →
  address + Z.of_nat (length values) ≤ 2 ^ 16 →
  wp (ReadHoldingRegisters address quantity) exchanged s ∧
  wp (WriteSingleRegister address value) exchanged s ∧
  wp (WriteMultipleRegisters address values) exchanged s ∧
  wp (MaskWriteBit address bit target) exchanged s.
Proof.
  intros. split_and!.
  - by apply safe_ReadHoldingRegisters.
  - by apply safe_WriteSingleRegister.
  - by apply safe_WriteMultipleRegisters.
  - by apply safe_MaskWriteBit.
Qed.

Definition simConfig : ClientConfig := mkClientConfig "127.0.0.1:502" 1 1000 1000.
Definition freshClient : Client := mkClient simConfig false 1 false false.
Definition zeroServer : Server := mkServer 1 (fun a => if a =? 100 then 8 else 0) [].
Definition freshNet : SimNet := mkSimNet zeroServer false [] [].

(** The simulator has no FC06: the write fails, and the connection is gone. *)
Lemma dropped_witness :
  (WriteSingleRegister 100 1 (freshClient, freshNet)).1 = Err (CEException 1) ∧
  clConn (WriteSingleRegister 100 1 (freshClient, freshNet)).2.1 = false.
Proof.
  split; [vm_compute; reflexivity|].
  apply (a_failed_operation_drops_the_connection (freshClient, freshNet) 100 0 true 1 1 [1]);
    try (vm_compute; congruence); try (split; vm_compute; congruence).
Defined.

(** A bit write never repeats a write request: the requests one
    [MaskWriteBit] sends are, by function code, none, FC22 alone, FC22 followed
    by the FC03 and FC06 of the fallback (or its FC03 alone), or the fallback's
    alone — whatever the network does in between. *)
Theorem a_bit_write_is_never_repeated {N} `{Transport N} (s : Client * Logged N) address bit target :
  ∃ frames, (MaskWriteBit address bit target s).2.2.2 = s.2.2 ++ frames ∧
    map frameFunction frames ∈ [[]; [22]; [22; 3]; [22; 3; 6]; [3]; [3; 6]].
Proof. destruct (MaskWriteBit_writes address bit target s) as (fs & Hfs & Hin). by exists fs. Qed.

(** ** Client and simulator *)

(** Reading through the client returns the simulator's registers: for any
    idle connection state, any registers and any legal range the client gets
    exactly the words at those addresses, and the simulator is unchanged. *)
Theorem the_client_reads_the_registers (c : Client) (n : SimNet) a q :
  linked c n → registers_ok (snServer n) → 0 ≤ a → 1 ≤ q ≤ 125 → a + q ≤ 2 ^ 16 →
  ∃ c', ReadHoldingRegisters a q (c, n) =
      (Ok (read (svRegisters (snServer n)) a q), (c', mkSimNet (snServer n) true [] [])) ∧
    linked c' (mkSimNet (snServer n) true [] []).
Proof.
  intros Hl Hr Ha Hq Haq. exists (exchangedClient c). split; [by apply sim_read_ok|].
  by eapply linked_exchanged.
Qed.

Lemma freshLinked : linked freshClient freshNet.
Proof. split; [split; vm_compute; congruence|reflexivity|discriminate]. Qed.

Lemma zeroRegisters : registers_ok zeroServer.
Proof. intros a. simpl. by destruct (a =? 100). Qed.

Lemma read_witness : ∃ s', ReadHoldingRegisters 99 3 (freshClient, freshNet) = (Ok [0; 8; 0], s').
Proof.
  destruct (the_client_reads_the_registers freshClient freshNet 99 3 freshLinked zeroRegisters) as (c' & Hc & _);
    [lia|lia|lia|]. eexists. exact Hc.
Defined.

(** A bit written through the client changes that bit of that register and
    nothing else: afterwards every other bit of the word and every other
    register of the simulator reads as before, and the bit reads as written.
    The read-modify-write fallback would compute the same word. *)
Theorem a_bit_write_changes_one_bit (c : Client) (n : SimNet) a bit (target : bool) :
  linked c n → registers_ok (snServer n) → clMaskWriteUnsupported c = false →
  in_range 16 a → 0 ≤ bit ≤ 15 →
  ∃ c' n', MaskWriteBit a bit target (c, n) = (Ok tt, (c', n')) ∧ linked c' n' ∧
    (∀ b, b ≠ a → svRegisters (snServer n') b = svRegisters (snServer n) b) ∧
    (∀ i, 0 ≤ i → Z.testbit (svRegisters (snServer n') a) i =
                    if i =? bit then target else Z.testbit (svRegisters (snServer n) a) i) ∧
    svRegisters (snServer n') a =
      (if target then Z.lor (svRegisters (snServer n) a) (bitMask bit)
       else Z.ldiff (svRegisters (snServer n) a) (bitMask bit)).
Proof.
  intros Hl Hr Hf Ha Hb. eexists _, _. split; [by apply sim_mask_ok|]. split; [by eapply linked_exchanged|].
  cbn [snServer svRegisters maskWriteRegister]. unfold setRegister. split_and!.
  - intros b Hne. by rewrite (proj2 (Z.eqb_neq b a)).
  - intros i Hi. rewrite Z.eqb_refl. by apply maskedValue_testbit.
  - rewrite Z.eqb_refl. symmetry. by apply maskedValue_fallback.
Qed.

(** Register 100 holds 8; bit 0 is set. *)
Lemma bit_witness :
  ∃ s', MaskWriteBit 100 0 true (freshClient, freshNet) = (Ok tt, s') ∧ svRegisters (snServer s'.2) 100 = 9.
Proof.
  destruct (a_bit_write_changes_one_bit freshClient freshNet 100 0 true freshLinked zeroRegisters)
    as (c' & n' & Hm & _ & _ & _ & Hv); [reflexivity|split; vm_compute; congruence|lia|].
  exists (c', n'). split; [exact Hm|]. exact Hv.
Defined.

(** The simulator's registers change only by a well-formed FC22 request:
    any other request, well formed or not, leaves the server as it was; every
    non-empty request gets an answer that carries its own function code, with
    the exception bit when it was refused. *)
Theorem only_mask_writes_change_the_simulator sv function body response msg sv' :
  handlePDU sv (function :: body) = (response, msg, sv') →
  (sv' = sv ∨
   (function = functionMaskWriteRegister ∧ length body = 6%nat ∧ response = function :: body ∧
    sv' = maskWriteRegister sv (u16At (function :: body) 1) (u16At (function :: body) 3)
            (u16At (function :: body) 5) "modbus")) ∧
  (byteAt response 0 = function ∨ byteAt response 0 = Z.lor function 128).
Proof.
  unfold handlePDU, handleReadHoldingRegisters, handleMaskWriteRegister, exceptionResponse.
  destruct (Z.eqb_spec function functionReadHoldingRegisters) as [->|].
  { repeat case_match; intros [= <- _ <-]; (split; [by left|]); auto. }
  destruct (Z.eqb_spec function functionMaskWriteRegister) as [->|]; [|intros [= <- _ <-]; auto].
  destruct (Nat.eqb_spec (length (functionMaskWriteRegister :: body)) 7) as [Hl|]; cbn [negb];
    intros [= <- _ <-]; (split; [|auto]).
  - right. simpl in Hl. split_and!; [done|lia|done|done].
  - by left.
Qed.

Lemma simulator_witness : svRegisters (handlePDU zeroServer [6; 0; 100; 0; 1]).2 = svRegisters zeroServer.
Proof.
  destruct (only_mask_writes_change_the_simulator zeroServer 6 [0; 100; 0; 1] [134; 1]
    "exception_illegal_function" (handlePDU zeroServer [6; 0; 100; 0; 1]).2 eq_refl) as [[->|(Hf & _)] _];
    [reflexivity|discriminate Hf].
Defined.
