(* ===== verification/SimSpec.v ===== *)
(** * What the simulated PLC promises

    The properties of [internal/plcsim/engine.go] over whole histories of
    ticks, commands, faults and session restarts. *)

From S2P Require Import Prelude GoValue PlcContract PlcSim PlcSimProofs.

(** ** The control revision *)

Definition revision (e : Engine) : Z := ptControlRevision (psPoints (enState e)).

Lemma inspectOne_revision cfg from s :
  ptControlRevision (psPoints (inspectOne cfg from s)) = ptControlRevision (psPoints s).
Proof. unfold inspectOne. by destruct (deterministicPass _ _ _). Qed.

Lemma produceOne_revision cfg s :
  ptControlRevision (psPoints (produceOne cfg s)) = ptControlRevision (psPoints s).
Proof.
  unfold produceOne. cbn [updatePending onPoints withPoints psPoints setCounts ptControlRevision].
  unfold placeProduced. case_match; [by rewrite inspectOne_revision|done].
Qed.

Lemma produceLoop_revision fuel cfg cycle s :
  ptControlRevision (psPoints (produceLoop fuel cfg cycle s)) = ptControlRevision (psPoints s).
Proof.
  revert s. induction fuel as [|fuel IH]; intros s; [done|]. rewrite produceLoop_S.
  case_match; [|done]. rewrite IH. cbn [withNext psPoints]. apply produceOne_revision.
Qed.

Lemma u64_le z : 0 ≤ z → u64 z ≤ z.
Proof. intros ?. unfold wrap. apply Z.mod_le; lia. Qed.

Section revisions.
Variables (digest : canonical → string) (quote : string → string) (cfg : Simulator).
Hypothesis (Hcfg : config_ok cfg).
Notation run := (run digest quote cfg).
Notation runs := (runs digest quote cfg).

(** What a command leaves of the points. *)
Lemma ApplyCommand_points raw now io e r e' :
  engine_ok cfg (enState e) → ApplyCommand digest quote cfg raw now io e = (Ok r, e') → e' ≠ e →
  if crStatus r =s CommandExecuted
  then revision e' = u64 (revision e + 1) ∧ crControlRevision r = revision e'
  else psPoints (enState e') = psPoints (enState e).
Proof.
  intros He Ha Hne. revert Ha. unfold ApplyCommand. cbn zeta. case_match; [done|].
  destruct (psProcessed (enState e) !! _) as [previous|]; [case_match; intros [= _ <-]; done|].
  assert (∀ only status code reason, status ≠ CommandExecuted →
    recordResult (NormalizeCommand raw) (CommandFingerprint digest (NormalizeCommand raw))
      (mkCommandResult (cmCommandID (NormalizeCommand raw)) (cmName (NormalizeCommand raw)) status code reason
         only (ptControlRevision (psPoints (enState e))) None) io e = (Ok r, e') →
    if crStatus r =s CommandExecuted
    then revision e' = u64 (revision e + 1) ∧ crControlRevision r = revision e'
    else psPoints (enState e') = psPoints (enState e)) as Hrec.
  { intros only status code reason Hst. unfold recordResult. destruct io; [done|]. intros [= <- <-].
    simpl. by rewrite (proj2 (String.eqb_neq _ _)) by done. }
  destruct (revisionConflict _ _); [by apply Hrec|]. destruct (flRejectCommands _); [by apply Hrec|].
  destruct (flFailCommands _); [by apply Hrec|]. destruct (ptPLCConnected _); cbn [negb]; [|by apply Hrec].
  destruct (applyCommand quote cfg (NormalizeCommand raw) (enState e)) as [s1|[code reason]] eqn:Hap;
    [|by apply Hrec].
  apply applyCommand_ok in Hap as (_ & _ & _ & _ & _ & Hr1); [|done|by apply He].
  destruct (validateCounters _); [|by intros [=]]. destruct io; [by intros [=]|]. cbn [commit]. intros [= <- <-].
  cbn [crStatus crControlRevision]. rewrite String.eqb_refl. unfold revision. cbn [enState withProcessed psPoints].
  split; [|done]. unfold afterCommand. cbn zeta. rewrite <-Hr1.
  by repeat case_match.
Qed.


Lemma run_revision o e : engine_ok cfg (enState e) → revision (run o e) ≤ revision e + 1.
Proof.
  intros He. pose proof (id_revision _ (eo_identity _ _ He)) as Hrev. destruct o; cbn [PlcSimProofs.run].
  - unfold Tick. case_match; [simpl; lia|]. cbn zeta. case_match; [|simpl; lia].
    destruct io; [simpl; lia|]. unfold revision. cbn [commit snd enState].
    change (psPoints (refreshDerived cfg ?y)) with (setAlarms (ptAlarms (psPoints (refreshDerived cfg y)))
      (setBins (ptBins (psPoints (refreshDerived cfg y))) (psPoints y))).
    cbn [setAlarms setBins ptControlRevision].
    destruct (_ || _); [simpl; lia|]. unfold produceDue. rewrite produceLoop_revision.
    destruct (isZero _); simpl; lia.
  - destruct (ApplyCommand digest quote cfg raw now io e) as [[r|err] e'] eqn:Ha; simpl.
    + destruct (decide (revision e' = revision e)) as [->|Hne]; [lia|].
      pose proof (ApplyCommand_points raw now io e r e' He Ha ltac:(by intros ->)) as Hp.
      destruct (crStatus r =s CommandExecuted).
      * destruct Hp as [-> _]. unfold revision in *. apply u64_le. lia.
      * unfold revision in Hne. by rewrite Hp in Hne.
    + assert (e' = e) as ->; [|lia].
      by apply ApplyCommand_recorded in Ha as [[-> _]|(x & [=] & _)].
  - unfold SetFault. destruct (cfFaultInjectionEnabled cfg); cbn [negb]; [|simpl; lia].
    destruct (faultsAfter _ _ _); [|simpl; lia]. destruct io; [simpl; lia|]. unfold revision. cbn. lia.
  - unfold RestartSession. destruct (cfFaultInjectionEnabled cfg); cbn [negb]; [|simpl; lia].
    destruct sessionID; [|simpl; lia]. destruct io; [simpl; lia|]. unfold revision. cbn. lia.
Qed.

Lemma runs_ok os e :
  Forall operation_ok os → engine_ok cfg (enState e) → revision e + Z.of_nat (length os) < 2 ^ 64 →
  engine_ok cfg (enState (runs os e)).
Proof.
  revert e. induction os as [|o os IH]; intros e Hos He Hr; [done|].
  apply Forall_cons in Hos as [Ho Hos]. simpl length in Hr. simpl.
  assert (engine_ok cfg (enState (run o e))) as H1.
  { apply run_ok; [done..|]. unfold revision in Hr. lia. }
  apply IH; [done|done|]. pose proof (run_revision o e He). lia.
Qed.

(** A simulator that has never run. *)
Lemma Open_fresh now id :
  isZero now = false → id ≠ "" →
  ∃ e, Open cfg FileMissing now (Some id) None = Ok e ∧ engine_ok cfg (enState e) ∧ saved e ∧ revision e = 1.
Proof.
  intros Hnow Hid. eexists. split; [done|]. split_and!; [|done|done].
  cbn [enState]. apply refreshDerived_ok. destruct Hcfg as [Hb Hc (? & ? & ? & ?)].
  pose proof (Hc 0%nat ltac:(lia)). pose proof (Hc 1%nat ltac:(lia)).
  split; [|apply applyFaultState_link|].
  - apply applyFaultState_stock. split; simpl; try lia; auto. unfold counters_ok. simpl. lia.
  - apply applyFaultState_identity. split; simpl; try done; lia.
Qed.
End revisions.

(** ** A small plant for the instances below: every inspection fails *)

Module Demo.
Definition plant : Simulator := mkSimulator 7 (f64_of_Z 0) true [10; 10; 1] 5 2 100 10.

Lemma plant_ok : config_ok plant.
Proof.
  split; [reflexivity| |vm_compute; repeat split; congruence].
  intros i Hi. destruct i as [|[|[|i]]]; [vm_compute; congruence..|lia].
Qed.

Definition digest (c : canonical) : string := caName c.
Definition quote (s : string) : string := s.

Definition command (id name : string) : Command := mkCommand id name None "" None None "".

(** The machine is started and left to run for a minute. *)
Definition morning : list operation :=
  [OpCommand (command "c1" "start") 1000000000 None; OpTick 61000000000 None].

Definition fresh : Engine :=
  match Open plant FileMissing 1 (Some "s1") None with
  | Ok e => e
  | Err _ => mkEngine (initialState plant 1 "s1") FileMissing
  end.

Lemma fresh_ok : engine_ok plant (enState fresh).
Proof. by destruct (Open_fresh plant plant_ok 1 "s1") as (e & [= <-] & ? & _). Qed.

Lemma morning_ok : Forall operation_ok morning.
Proof. repeat constructor; vm_compute; congruence. Qed.
End Demo.
Import Demo.

(** ** Properties *)

(** C10. The safety interlock and the stock account hold in every state a
    simulator reaches from its first start, by any sequence of ticks, commands,
    faults and session restarts, whatever writes of the state file fail: the
    machine runs only while the link is up, the emergency stop is released and
    the guard door closed; passed plus failed items are the inspected ones, at
    most the produced ones, and the pending count is the difference; the bins
    of blanks and finished items stay within capacity; and the state file holds
    exactly the state shown. *)
Theorem the_interlock_and_the_account_always_hold digest quote cfg now id os :
  config_ok cfg → isZero now = false → id ≠ "" → Forall operation_ok os → Z.of_nat (length os) < 2 ^ 64 - 1 →
  ∃ e, Open cfg FileMissing now (Some id) None = Ok e ∧
    let s := enState (runs digest quote cfg os e) in
    let p := psPoints s in
    enFile (runs digest quote cfg os e) = FileState s ∧
    (ptRunning p = true → ptPLCConnected p = true ∧ ptEmergencyStop p = false ∧ ptGuardDoorClosed p = true ∧
       ptSafetyReady p = true) ∧
    0 ≤ ptInspected p ≤ ptOutput p ∧ ptPassed p + ptNG p = ptInspected p ∧
    ptPending p = ptOutput p - ptInspected p ∧
    0 ≤ ptBlank p ≤ capacity cfg 0 ∧ 0 ≤ ptFinished p ≤ capacity cfg 1.
Proof.
  intros Hcfg Hnow Hid Hos Hlen. destruct (Open_fresh cfg Hcfg now id Hnow Hid) as (e & Ho & He & Hs & Hr).
  exists e. split; [done|]. cbn zeta.
  assert (engine_ok cfg (enState (runs digest quote cfg os e))) as [[] [] _] by (apply runs_ok; (done || lia)).
  split; [by apply runs_saved|]. unfold counters_ok in *. destruct so_counts as (? & ? & ? & ? & ?).
  split_and!; try done; try lia. intros Hrun. specialize (lk_running Hrun). rewrite lk_running in lk_ready.
  symmetry in lk_ready. propify. done.
Qed.

(** After a minute five items are made and the machine is running. *)
Lemma interlock_witness :
  let p := psPoints (enState (runs Demo.digest Demo.quote plant morning fresh)) in
  ptRunning p = true ∧ ptOutput p = 5 ∧ ptSafetyReady p = true.
Proof.
  cbn zeta. split; [vm_compute; reflexivity|]. split; [vm_compute; reflexivity|].
  destruct (the_interlock_and_the_account_always_hold Demo.digest Demo.quote plant 1 "s1" morning plant_ok)
    as (e & Ho & _ & Hi & _); [reflexivity|discriminate|exact morning_ok|vm_compute; reflexivity|].
  assert (e = fresh) as -> by (unfold fresh; by rewrite Ho).
  apply Hi. vm_compute. reflexivity.
Defined.

(** One tick's production loop terminates with nothing left to produce:
    it never makes more items than the target, never overfills a bin, and stops
    only when the next production lies ahead, production is not allowed or there
    is no capacity left. *)
Theorem production_stops_with_nothing_due cfg cycle s :
  stock_ok cfg s →
  let s' := produceDue cfg cycle s in
  dueForProduction cfg s' = false ∧ stock_ok cfg s' ∧
  ptOutput (psPoints s) ≤ ptOutput (psPoints s') ≤ Z.max (ptOutput (psPoints s)) (ptTarget (psPoints s)) ∧
  psRejectBin s' ≤ Z.max (psRejectBin s) (capacity cfg 2) ∧ ptTarget (psPoints s') = ptTarget (psPoints s).
Proof.
  intros Hs. destruct (produceDue_ok cfg cycle s Hs) as [[Hst Hss Ho Hr] Hd]. cbn zeta.
  split_and!; try done; [lia|lia|apply Hss].
Qed.

Lemma production_witness :
  dueForProduction plant (produceDue plant (2 * second) (enState fresh)) = false.
Proof. apply (production_stops_with_nothing_due plant (2 * second) (enState fresh)). apply fresh_ok. Defined.

(** A command takes effect once: after the simulator has answered a command
    id, asking again with the same content, after any further ticks, commands,
    faults and session restarts, returns the recorded answer and changes
    nothing. *)
Theorem a_command_is_applied_once digest quote cfg raw now io e r e' os now' io' :
  ApplyCommand digest quote cfg raw now io e = (Ok r, e') → e' ≠ e →
  let e'' := runs digest quote cfg os e' in
  ApplyCommand digest quote cfg raw now' io' e'' = (Ok r, e'').
Proof.
  intros Ha Hne e''. pose proof (ApplyCommand_id_length _ _ _ _ _ _ _ _ _ Ha) as Hlen.
  apply ApplyCommand_recorded in Ha as [[? _]|(x & [= <-] & _ & _ & Hp & _)]; [done|].
  eapply replay; [done..|exact Hlen|]. by apply runs_keeps.
Qed.

Definition accepted : CommandResult :=
  match (ApplyCommand Demo.digest Demo.quote plant (command "c1" "start") 1000000000 None fresh).1 with
  | Ok r => r
  | Err _ => mkCommandResult "" "" "" "" "" false 0 None
  end.

(** The engine after the first command. *)
Definition started : Engine :=
  run Demo.digest Demo.quote plant (OpCommand (command "c1" "start") 1000000000 None) fresh.

Lemma started_revision : revision started = 2.
Proof. vm_compute. reflexivity. Qed.

Lemma started_changed : started ≠ fresh.
Proof. intros Hf. pose proof started_revision as H2. rewrite Hf in H2. vm_compute in H2. discriminate H2. Qed.

Lemma started_answer :
  ApplyCommand Demo.digest Demo.quote plant (command "c1" "start") 1000000000 None fresh = (Ok accepted, started).
Proof. vm_compute. reflexivity. Qed.

Lemma once_witness :
  let e'' := runs Demo.digest Demo.quote plant [OpTick 61000000000 None] started in
  crStatus accepted = "EXECUTED" ∧
  ApplyCommand Demo.digest Demo.quote plant (command "c1" "start") 90000000000 None e'' = (Ok accepted, e'').
Proof.
  cbn zeta. split; [vm_compute; reflexivity|].
  exact (a_command_is_applied_once Demo.digest Demo.quote plant (command "c1" "start") 1000000000 None fresh accepted
    started [OpTick 61000000000 None] 90000000000 None started_answer started_changed).
Defined.

(** A newly recorded command either executed, and then the control revision
    has advanced by one and the result carries it, or was refused, and then no
    point of the machine has changed. *)
Theorem only_executed_commands_change_the_points digest quote cfg raw now io e r e' :
  config_ok cfg → engine_ok cfg (enState e) →
  ApplyCommand digest quote cfg raw now io e = (Ok r, e') → e' ≠ e →
  if crStatus r =s CommandExecuted
  then revision e' = u64 (revision e + 1) ∧ crControlRevision r = revision e'
  else psPoints (enState e') = psPoints (enState e).
Proof. intros Hcfg He Ha Hne. by eapply ApplyCommand_points. Qed.

Lemma points_witness : revision started = u64 (revision fresh + 1).
Proof.
  pose proof (only_executed_commands_change_the_points Demo.digest Demo.quote plant (command "c1" "start") 1000000000
    None fresh accepted started plant_ok fresh_ok started_answer started_changed) as Hp.
  assert (crStatus accepted = CommandExecuted) as Hst by (vm_compute; reflexivity).
  rewrite Hst in Hp. exact (proj1 Hp).
Defined.

(** Nothing shown is lost by a restart: reopening the simulator from the
    file it has written, in any state of the invariant whose reject bin is
    within capacity, succeeds, and the counters, the faults, the control
    revision and the answers given to commands are those of the file. *)
Theorem a_restart_restores_the_saved_state cfg s now id :
  config_ok cfg → engine_ok cfg s → psRejectBin s ≤ capacity cfg 2 → isZero now = false → id ≠ "" →
  ∃ e, Open cfg (FileState s) now (Some id) None = Ok e ∧ engine_ok cfg (enState e) ∧
    psProcessed (enState e) = psProcessed s ∧ psFaults (enState e) = psFaults s ∧
    ptControlRevision (psPoints (enState e)) = ptControlRevision (psPoints s) ∧
    ptOutput (psPoints (enState e)) = ptOutput (psPoints s) ∧
    ptInspected (psPoints (enState e)) = ptInspected (psPoints s).
Proof.
  intros Hc Hs Hr Hn Hi. destruct (Open_saved cfg s now id Hc Hs Hr Hn Hi) as (e & ? & ? & _ & ? & ? & _ & ? & ? & ?).
  by exists e.
Qed.

Lemma restart_witness : ∃ e, Open plant (FileState (enState fresh)) 5 (Some "s2") None = Ok e.
Proof.
  destruct (a_restart_restores_the_saved_state plant (enState fresh) 5 "s2" plant_ok fresh_ok) as (e & He & _);
    [vm_compute; congruence|reflexivity|discriminate|]. exists e. exact He.
Defined.

(** Two items are inspected by hand; both fail, and the reject bin holds one. *)
Definition inspections : list operation :=
  morning ++ [OpCommand (command "c2" "inspect") 62000000000 None;
              OpCommand (command "c3" "inspect") 63000000000 None].

(** The [inspect] command has no room check: from a state the program
    itself reaches, two accepted inspections put more items into the reject bin
    than its capacity, the state is saved, and the simulator then refuses to
    start from its own file. *)
Theorem inspect_can_make_the_state_file_unusable :
  ∃ e, e = runs Demo.digest Demo.quote plant inspections fresh ∧
    capacity plant 2 < psRejectBin (enState e) ∧ enFile e = FileState (enState e) ∧
    Open plant (enFile e) 70000000000 (Some "s2") None =
      Err (SimText "reject bin quantity is outside configured capacity").
Proof.
  eexists. split; [reflexivity|]. split; [vm_compute; reflexivity|].
  split; [apply runs_saved; reflexivity|]. vm_compute. reflexivity.
Qed.
