(* ===== verification/StoreSpec.v ===== *)
(** * What the store promises

    The properties of [internal/storage/store.go] and [internal/state/model.go]:
    one outcome per command, transactions that happen or do not, snapshots that
    never go back, and the alarm history. *)

From S2P Require Import Prelude PlcContract StateModel Storage StorageProofs StorageRuns.

(** ** A small database for the instances *)

Module Shop.
Definition range (m : gmap Z ModelAlarm) : list (Z * ModelAlarm) := map_to_list m.
Definition digest (c : canonical) : string := caName c.
Definition details (id : string) (row : CommandRow) : string := id.

Definition start : Command := mkCommand "c1" "start" None "" None None "".
Definition meta : CommandMeta := mkCommandMeta "operator" "req-1".

Definition store : Store := mkStore emptyDB true "" [].

Definition executed : CommandResult := mkCommandResult "c1" "start" CommandExecuted "" "" false 2 None.
Definition audit : AuditInput := mkAuditInput "operator" "command.start" "started" 0 "req-1" "{}".
Definition operation_ : OperationInput := mkOperationInput "info" "0001" "started" 5.

Definition begin : operation := OpBegin start meta 1.
Definition complete : operation := OpComplete executed None 5 1000 operation_ audit 5 None.
End Shop.
Import Shop.

(** ** Properties *)

(** C5. Through any history of the store's operations from an empty database,
    whatever statements fail, every command has one outcome: while it is pending
    it has no result and no line in the operation log; once finished it has a
    result of a terminal status under its own id and exactly one line in the
    log, of the same name and status; and the log names no unknown command. *)
Theorem every_command_has_one_outcome range wall digest details os available code faults :
  let d := stDB (performAll range wall digest details os (mkStore emptyDB available code faults)) in
  ∀ id,
    match dbCommands d !! id with
    | None => filter (fun o => opCommandID o = id) (dbOperations d) = []
    | Some row =>
        (rwStatus row = CommandPending ∧ rwResult row = None ∧
         filter (fun o => opCommandID o = id) (dbOperations d) = []) ∨
        (terminalStatus (rwStatus row) = true ∧
         ∃ r o, rwResult row = Some r ∧ crCommandID r = id ∧ crStatus r = rwStatus row ∧
           filter (fun o => opCommandID o = id) (dbOperations d) = [o] ∧
           opAction o = crName r ∧ opStatus o = crStatus r)
    end.
Proof.
  intros d. destruct (performAll_ok range wall digest details os (mkStore emptyDB available code faults)) as [Hok _ _ _ _].
  exact (Hok emptyDB_ok).
Qed.

(** A command begun twice and completed twice: one executed row, one log line. *)
Example one_outcome :
  let d := stDB (performAll Shop.range 0 digest details [begin; begin; complete; complete] store) in
  (rwStatus <$> dbCommands d !! "c1") = Some "EXECUTED" ∧ length (dbOperations d) = 1%nat ∧
  length (dbAudits d) = 1%nat.
Proof. vm_compute. auto. Qed.

(** What is recorded stays: through any further history a finished command
    keeps its row, no command and no line of the log disappears, and the control
    revision of the persisted snapshot never decreases. *)
Theorem recorded_outcomes_are_final range wall digest details os (s : Store) :
  let d := stDB s in
  let d' := stDB (performAll range wall digest details os s) in
  (∀ id row, dbCommands d !! id = Some row → rwStatus row ≠ CommandPending → dbCommands d' !! id = Some row) ∧
  (∀ id, is_Some (dbCommands d !! id) → is_Some (dbCommands d' !! id)) ∧
  dbOperations d `prefix_of` dbOperations d' ∧
  (∀ v, revisionOf d = Some v → ∃ v', revisionOf d' = Some v' ∧ v ≤ v').
Proof.
  destruct (performAll_ok range wall digest details os s) as [_ Hf Hk Hl Hr]. cbn zeta. by split_and!.
Qed.

(** C18. Completing a command is all or nothing: it either leaves the database
    as it was — and then succeeds only for a command that already has this
    outcome — or makes in one commit the only transition of a pending command —
    its result and status, one log line, one audit entry, and the snapshot with
    the accepted read-back and the operator's line — and it reports an error
    after that transition only when the acknowledgement was lost. *)
Theorem completion_is_all_or_nothing range wall r readback received stale operation audit now ack (s : Store) :
  match CompleteCommand range wall r readback received stale operation audit now ack s with
  | (Ok current, s') =>
      current = dbSnapshot (stDB s') ∧
      ((stDB s' = stDB s ∧ ∃ row, dbCommands (stDB s) !! crCommandID r = Some row ∧ already r row) ∨
       first_completion range wall r readback received stale operation audit now (stDB s) (stDB s'))
  | (Err e, s') =>
      stDB s' = stDB s ∨
      (∃ t, e = StAckLost t) ∧
      first_completion range wall r readback received stale operation audit now (stDB s) (stDB s')
  end.
Proof.
  pose proof (CompleteCommand_spec range wall r readback received stale operation audit now ack s) as Hc.
  unfold wp in Hc. by destruct (CompleteCommand range wall r readback received stale operation audit now ack s) as [[a|e] s'].
Qed.

(** Saving a snapshot from the PLC writes it or leaves the database as it
    was; a saved snapshot is the one received, it is never older than the one it
    replaces — not of a lower control revision, nor, at the same revision, of an
    earlier sample of the same session or an earlier time of another — and the
    commands, the log and the audit trail are untouched. *)
Theorem saved_snapshots_never_go_back range wall sn received stale (s : Store) :
  match SavePLC range wall sn received stale s with
  | (Ok r, s') =>
      dbSnapshot (stDB s') = Some r ∧ merged sn (dbSnapshot (stDB s)) r ∧
      (∀ old, dbSnapshot (stDB s) = Some old → not_older old r) ∧
      dbCommands (stDB s') = dbCommands (stDB s) ∧ dbOperations (stDB s') = dbOperations (stDB s) ∧
      dbAudits (stDB s') = dbAudits (stDB s)
  | (Err e, s') => stDB s' = stDB s
  end.
Proof.
  pose proof (SavePLC_atomic range wall sn received stale s) as Ha. unfold wp in Ha.
  destruct (SavePLC range wall sn received stale s) as [[r|e] s']; simpl in Ha; [|done].
  destruct Ha as (Hm & Hs & Hc & Ho & Hau). apply mergeSnapshot_ok in Hm. split_and!; try done.
  intros old Hold. pose proof (merged_not_older sn _ r Hm) as Hn. by rewrite Hold in Hn.
Qed.

(** Recovery at start-up leaves no command pending: it either changes
    nothing and reports the failed statement, or finishes every pending command
    as UNKNOWN; it does so whenever no statement fails. *)
Theorem recovery_leaves_nothing_pending details now (s : Store) :
  match RecoverPending details now s with
  | (Ok _, s') =>
      (∀ id row, dbCommands (stDB s') !! id = Some row → rwStatus row ≠ CommandPending) ∧
      (∀ id row, dbCommands (stDB s) !! id = Some row → rwStatus row = CommandPending →
         ∃ row', dbCommands (stDB s') !! id = Some row' ∧ unknown_row row') ∧
      allowed (stDB s) (stDB s') ∧ dbSnapshot (stDB s') = dbSnapshot (stDB s)
  | (Err e, s') => stDB s' = stDB s ∧ stFaults s ≠ []
  end.
Proof.
  pose proof (RecoverPending_atomic details now s) as Ha. unfold wp in Ha.
  pose proof (RecoverPending_succeeds details now s) as Hs.
  destruct (RecoverPending details now s) as [[[]|e] s']; simpl in *.
  - destruct Ha as (Ha & Hsn & Hp & Hu). split_and!; [| |done|done].
    + intros id row Hrow Hst. apply (Hp id). by exists row.
    + intros id row Hrow Hst. destruct (Hu id row Hrow) as [Hrow'|(_ & Hrow')]; [|done].
      exfalso. apply (Hp id). by exists row.
  - split; [done|]. intros Hf. by specialize (Hs Hf).
Qed.

(** Beginning a command is idempotent: once a command has been recorded,
    beginning it again with the same content finds the record — pending, or with
    its result — and changes nothing, while the same id with other content is a
    conflict that changes nothing either. *)
Theorem beginning_again_finds_the_record digest raw meta meta' now now' raw' (s s1 : Store) rec :
  BeginCommand digest raw meta now s = (Ok rec, s1) →
  cmCommandID (NormalizeCommand raw') = cmCommandID (NormalizeCommand raw) →
  match BeginCommand digest raw' meta' now' s1 with
  | (Ok rec', s2) =>
      stDB s2 = stDB s1 ∧ rcExists rec' = true ∧
      CommandFingerprint digest (NormalizeCommand raw') = CommandFingerprint digest (NormalizeCommand raw)
  | (Err e, s2) => stDB s2 = stDB s1
  end.
Proof.
  intros Hb Hid. pose proof (BeginCommand_atomic digest raw meta now s) as Ha. unfold wp in Ha. rewrite Hb in Ha.
  pose proof (BeginCommand_atomic digest raw' meta' now' s1) as Ha'. unfold wp in Ha'.
  destruct (BeginCommand digest raw' meta' now' s1) as [[rec'|e] s2]; cbn [fst snd] in *; [|done].
  unfold begun in Ha, Ha'. rewrite Hid in Ha'.
  destruct (dbCommands (stDB s) !! cmCommandID (NormalizeCommand raw)) as [row|] eqn:Hrow.
  - destruct Ha as (Hd & Hf & _). rewrite Hd, Hrow in Ha'. rewrite Hd. destruct Ha' as (? & Hf' & ? & _).
    split_and!; [done|done|congruence].
  - destruct Ha as (_ & Hd). rewrite Hd in Ha'. cbn [setCommands dbCommands] in Ha'.
    rewrite lookup_insert_eq in Ha'. rewrite Hd. destruct Ha' as (? & Hf' & ? & _). done.
Qed.

Lemma begin_witness :
  ∃ rec s1 rec' s2, BeginCommand digest start meta 1 store = (Ok rec, s1) ∧
    BeginCommand digest start meta 2 s1 = (Ok rec', s2) ∧ rcExists rec' = true ∧ stDB s2 = stDB s1.
Proof.
  destruct (BeginCommand digest start meta 1 store) as [[rec|e] s1] eqn:Hb; [|vm_compute in Hb; discriminate Hb].
  assert (is_ok (BeginCommand digest start meta 2 s1).1 = true) as Hok.
  { assert (s1 = (BeginCommand digest start meta 1 store).2) as -> by (rewrite Hb; reflexivity). vm_compute. reflexivity. }
  pose proof (beginning_again_finds_the_record digest start meta meta 1 2 start store s1 rec Hb eq_refl) as Ht.
  destruct (BeginCommand digest start meta 2 s1) as [[rec'|e] s2] eqn:Hb2; [|discriminate Hok].
  exists rec, s1, rec', s2. destruct Ht as (Hd & Hx & _).
  split; [reflexivity|]. split; [exact Hb2|]. split; assumption.
Defined.

(** The remembered PLC endpoint: a saved endpoint is one that passed the
    checks (a host, a port from 1 to 65535, a unit from 1 to 247) and loading
    returns it; an invalid one, or a failed write, leaves the stored one. *)
Theorem the_saved_endpoint_is_loaded (e : PLCEndpoint) (s : Store) :
  match SavePLCEndpoint e s with
  | (Ok _, s') =>
      epHost e ≠ "" ∧ 1 ≤ epPort e ≤ 65535 ∧ 1 ≤ epUnitID e ≤ 247 ∧
      (stFaults s' = [] → (LoadPLCEndpoint s').1 = Ok (Some e))
  | (Err _, s') => dbEndpoint (stDB s') = dbEndpoint (stDB s)
  end.
Proof.
  pose proof (SavePLCEndpoint_atomic e s) as Ha. unfold wp in Ha.
  destruct (SavePLCEndpoint e s) as [[[]|er] s']; simpl in Ha; [|by rewrite Ha].
  destruct Ha as [Hv Hd].
  assert (epHost e ≠ "" ∧ 1 ≤ epPort e ≤ 65535 ∧ 1 ≤ epUnitID e ≤ 247) as (? & ? & ?).
  { unfold validatePLCEndpoint in Hv. repeat (case_match; try discriminate Hv). propify. split_and!; (done || lia). }
  split_and!; try done; try lia. intros Hf. unfold LoadPLCEndpoint, gbind, stmt, getDB. rewrite Hf, Hd. simpl.
  unfold glift. by rewrite Hv.
Qed.

(** The alarms and history of a new state: its alarms are the snapshot's
    active ones in order; its history is, newest first, an entry for every alarm
    that disappeared and every alarm that is new, over the old history, cut to
    the newest 100. *)
Theorem state_keeps_active_alarms_and_transitions range now s previous :
  (length (mdHistory previous) ≤ historyLimit)%nat →
  let next := (FromPLC range now s previous).1 in
  let table := alarmTable (mdAlarms previous) in
  let alarms := ptAlarms (ssPoints s) in
  (length (mdHistory next) ≤ historyLimit)%nat ∧
  mdAlarms next = map alarmOf (filter (fun raw => alActive raw = true) alarms) ∧
  mdHistory next = take historyLimit
    (reverse (map (raisedEntry (ssSampleSequence s)) (filter (isRaised table) alarms) ++
              map (fun it => clearedEntry (ssSampleSequence s) (ssGeneratedAt s) it.1 it.2)
                (filter (isCleared (activeIDs alarms)) (range table))) ++ mdHistory previous).
Proof.
  intros Hl. destruct (FromPLC_spec range now s previous Hl) as [Ha Hh]. cbn zeta in *.
  split_and!; [|done|done]. rewrite Hh, length_take. lia.
Qed.

Definition doorOpen : Snapshot :=
  mkSnapshot SchemaVersion "s1" 4 5 "GOOD"
    (mkPoints 2 false "auto" false false false false false true 10 1 5 0 0 0 1 3 1 0 100 5 []
       [mkAlarm "9002" "GUARD_DOOR" "danger" "open" true 4 None false]).

Lemma history_witness :
  mdHistory (FromPLC Shop.range 9 doorOpen emptyModel).1 =
    [mkHistoryEntry (historyID 4 9002) "danger" "GUARD_DOOR" "open" 4].
Proof.
  destruct (state_keeps_active_alarms_and_transitions Shop.range 9 doorOpen emptyModel) as (_ & _ & Hh);
    [simpl; lia|]. rewrite Hh. vm_compute. reflexivity.
Defined.
