(* ===== verification/QueueSpec.v ===== *)
(** * What the command queue promises

    The properties of [internal/command/queue.go] on top of the store. *)

From S2P Require Import Prelude PlcContract StateModel Storage StorageProofs StorageRuns CommandQueue QueueProofs.

Section process.
Context {D : Type} `{DeviceEnv D}.
Variables (range : gmap Z ModelAlarm → list (Z * ModelAlarm)) (wall : Z) (digest : canonical → string)
  (quote : string → string) (details : Command → CommandResult → string) (staleAfter : Z).
Implicit Types w : World (D := Watched D).
Notation process := (process range wall digest quote details staleAfter).

(** The answer to a command that was not known. *)
Record answered (command : Command) w (outcome : Outcome) (err : option queue_error) w' : Prop := {
  an_error : err = None;
  an_recorded : recorded (ouResult outcome) (dbOf w');
  an_id : crCommandID (ouResult outcome) = cmCommandID command;
  an_name : crName (ouResult outcome) = cmName command;
  an_terminal : terminalStatus (crStatus (ouResult outcome)) = true;
  an_code : crStatus (ouResult outcome) ≠ CommandExecuted → crCode (ouResult outcome) ≠ ""%string;
  an_rejected : logOf w' = logOf w → crStatus (ouResult outcome) = CommandRejected;
  an_executed : crStatus (ouResult outcome) = CommandExecuted →
                ∃ value, confirm command (ouResult outcome) value = Ok tt
}.

Lemma operate_answered budget command meta w :
  waiting (cmCommandID command) (dbOf w) →
  let '((outcome, err, fatal), w') := operate range wall quote details staleAfter budget command meta w in
  (logOf w' = logOf w ∨ logOf w' = logOf w ++ [command]) ∧
  (fatal = false → answered command w outcome err w').
Proof.
  intros Hw. destruct (operate_attempted range wall quote details staleAfter budget command meta w)
    as (r & rb & w1 & -> & [Hd Hid Hnm Ht Hdev Hex]).
  rewrite <-Hid, <-Hd in Hw.
  pose proof (persistOutcome_ok range wall details staleAfter budget command meta r rb w1 Hw) as Hp.
  pose proof (persistOutcome_log range wall details staleAfter budget command meta r rb w1) as Hl.
  destruct (persistOutcome _ _ _ _ _ _ _ _ _ w1) as [[[outcome err] fatal] w2]. simpl in Hl.
  split; [rewrite Hl; destruct Hdev as [[-> _]| ->]; auto|]. intros ->. destruct Hp as (-> & Ho & Hr).
  destruct (ensureResultCode_same r) as (Ei & En & Es & Er).
  split; [done|done|..]; rewrite Ho, ?Ei, ?En, ?Es; try done.
  - by apply ensureResultCode_code.
  - rewrite Hl. destruct Hdev as [[_ Hs]|Hlog]; [done|]. rewrite Hlog. intros Hf.
    apply (f_equal length) in Hf. rewrite length_app in Hf. simpl in Hf. lia.
  - intros He. destruct (Hex He) as (value & _ & Hc). exists value. by rewrite (confirm_revision command _ r).
Qed.

Lemma begin_db command meta w :
  NormalizeCommand command = command →
  let '(r, w') := onStore (BeginCommand digest command meta (onDevice devNow w).1) (onDevice devNow w).2 in
  logOf w' = logOf w ∧
  match r with
  | Err _ => dbOf w' = dbOf w
  | Ok record => begun (CommandFingerprint digest command) command meta (onDevice devNow w).1 (dbOf w) record (dbOf w')
  end.
Proof.
  intros Hn. pose proof (onDevice_store devNow w) as Hs. pose proof (now_log w) as Hl.
  destruct (onDevice devNow w) as [now w1]. simpl in Hs, Hl. cbn [fst snd].
  pose proof (BeginCommand_atomic digest command meta now (woStore w1)) as Hb. unfold wp in Hb.
  rewrite Hn in Hb. pose proof (store_log (BeginCommand digest command meta now) w1) as Hl1.
  unfold onStore in *. destruct (BeginCommand digest command meta now (woStore w1)) as [[record|e] s2]; simpl in *;
    rewrite Hs in Hb; (split; [congruence|exact Hb]).
Qed.
End process.

(** ** A device for the instances: it executes, and shows what it did *)

Module Plant.
Definition points : Points :=
  mkPoints 2 true "auto" false false true false true true 10 0 5 0 0 0 0 10 0 0 100 5 [] [].
Definition seen : Snapshot := mkSnapshot SchemaVersion "s1" 4 5 "GOOD" points.

#[export] Instance plant_env : DeviceEnv unit := {
  devExecute c d := (Ok (mkCommandResult (cmCommandID c) (cmName c) CommandExecuted "" "" false 2 None), d);
  devRead d := (Ok seen, d);
  devNow d := (6, d);
  devAck d := (None, d)
}.

Definition range (m : gmap Z ModelAlarm) : list (Z * ModelAlarm) := map_to_list m.
Definition digest (c : canonical) : string := caName c.
Definition quote (s : string) : string := s.
Definition details (c : Command) (r : CommandResult) : string := crStatus r.
Definition start : Command := mkCommand "c1" "start" None "" None None "".
Definition meta : CommandMeta := mkCommandMeta "operator" "req-1".

(** A store that has just saved a snapshot. *)
Definition store : Store := (SavePLC range 0 seen 6 1000 (mkStore emptyDB true "" [])).2.
Definition world : World (D := Watched unit) := mkWorld store (mkWatched tt []).

Definition once := process range 0 digest quote details 1000 3 start meta world.
End Plant.
Import Plant.


(** The command is executed, confirmed and stored. *)
Example command_executed :
  (crStatus (ouResult once.1.1.1), once.1.2, length (logOf once.2)) = ("EXECUTED"%string, false, 1%nat).
Proof. vm_compute. reflexivity. Qed.

(** A command is executed only on a device known to be available: when the
    check finds the stored state missing, the source unavailable, disconnected,
    of bad quality or stale, the command is answered REJECTED with the code of
    that condition and the device never sees it. *)
Theorem unavailable_devices_see_no_command {D} `{DeviceEnv D} range wall quote details stale budget command meta
    (w : World (D := Watched D)) code reason w1 :
  commandAvailability stale w = (code, reason, w1) → code ≠ ""%string →
  waiting (cmCommandID command) (dbOf w) →
  let '((outcome, err, fatal), w') := operate range wall quote details stale budget command meta w in
  logOf w' = logOf w ∧
  (fatal = false → crStatus (ouResult outcome) = CommandRejected ∧ crCode (ouResult outcome) = code).
Proof.
  intros Hav Hc Hw. pose proof (availability_ok stale w) as Ha. rewrite Hav in Ha. destruct Ha as [Hd Hl].
  unfold operate. rewrite Hav. apply String.eqb_neq in Hc as Hc'. rewrite Hc'. cbn [negb].
  set (r := rejectedResult command code reason).
  pose proof (persistOutcome_ok range wall details stale budget command meta r None w1) as Hp.
  pose proof (persistOutcome_log range wall details stale budget command meta r None w1) as Hlog.
  destruct (persistOutcome _ _ _ _ _ _ _ _ _ w1) as [[[outcome err] fatal] w2]. simpl in Hlog.
  split; [congruence|]. intros ->. rewrite Hd in Hp. destruct (Hp Hw) as (_ & -> & _).
  unfold ensureResultCode, r. cbn [rejectedResult crCode]. by rewrite Hc'.
Qed.

Definition stalled : World (D := Watched unit) :=
  mkWorld (BeginCommand Plant.digest start meta 6 (mkStore emptyDB true "" [])).2 (mkWatched tt []).

Lemma unavailable_witness :
  logOf (operate Plant.range 0 Plant.quote Plant.details 1000 3 start meta stalled).2 = [].
Proof.
  pose proof (unavailable_devices_see_no_command Plant.range 0 Plant.quote Plant.details 1000 3 start meta stalled
    "backend_unavailable" "persisted device state is unavailable" stalled) as Ht.
  destruct (operate _ _ _ _ _ _ _ _ stalled) as [[[outcome err] fatal] w']. simpl.
  destruct Ht as [Hl _].
  - vm_compute. reflexivity.
  - discriminate.
  - eexists. split; [vm_compute; reflexivity|reflexivity].
  - exact Hl.
Defined.

(** EXECUTED is what was seen: a read-back confirms a command only if it
    shows the control revision the device answered with (never zero) and the
    state the command asks for — running after start, not running after pause,
    not running with counters at zero after reset, the mode, the pauses and the
    settings that were sent, empty bins, the alarm acknowledged. *)
Theorem a_confirmed_command_was_observed command r value :
  confirm command r value = Ok tt →
  let p := ssPoints value in
  crControlRevision r ≠ 0 ∧ ptControlRevision p = crControlRevision r ∧
  (cmName command = "start" → ptRunning p = true) ∧
  (cmName command = "pause" → ptRunning p = false) ∧
  (cmName command = "reset" → ptRunning p = false ∧ ptOutput p = 0 ∧ ptToolUsed p = 0) ∧
  (cmName command = "set_mode" → ptMode p = cmMode command) ∧
  (cmName command = "set_single_paused" → cmPaused command = Some (ptSinglePaused p)) ∧
  (cmName command = "set_frame_paused" → cmPaused command = Some (ptFramePaused p)) ∧
  (cmName command = "clear_bins" → ∀ b, b ∈ ptBins p → binQuantity b = 0) ∧
  (cmName command = "update_settings" →
     ∃ st, cmSettings command = Some st ∧ ptTarget p = stTarget st ∧ ptToolLimit p = stToolLimit st ∧
           ptInspectInterval p = stInspectInterval st) ∧
  (cmName command = "acknowledge_alarm" →
     ∃ a, a ∈ ptAlarms p ∧ alAlarmID a = cmAlarmID command ∧ alActive a = true ∧ alAcknowledged a = true).
Proof.
  unfold confirm. cbn zeta. destruct (_ || _) eqn:Hrev; [done|]. propify.
  intros Hc. split_and!; [done|done|..]; intros Hname; rewrite Hname in Hc; cbn in Hc.
  - by destruct (ptRunning _).
  - by destruct (ptRunning _).
  - case_match; [|done]. propify. done.
  - case_match; [|done]. by propify.
  - destruct (cmPaused command) as [[]|]; by destruct (ptSinglePaused _).
  - destruct (cmPaused command) as [[]|]; by destruct (ptFramePaused _).
  - case_match eqn:Hf; [|done]. rewrite forallb_forall in Hf. intros b Hb. apply list_elem_of_In, Hf in Hb.
    by propify.
  - destruct (cmSettings command) as [st|]; [|done]. exists st. case_match; [|done]. propify. done.
  - case_match eqn:Hf; [|done]. apply existsb_exists in Hf as (a & Ha & Hm). propify. exists a.
    split; [by apply list_elem_of_In|done].
Qed.

Lemma observed_witness : ptRunning (ssPoints seen) = true.
Proof.
  apply (a_confirmed_command_was_observed start
    (mkCommandResult "c1" "start" CommandExecuted "" "" false 2 None) seen); reflexivity.
Defined.
