(* ===== verification/QueueLoopSpec.v ===== *)
(** * The command queue's goroutine is the queue's sequential run

    The invariant of [QueueLoop]'s steps: the responses are those of
    [CommandQueue.run] on the requests in the order they were taken, and every
    call stands where its request stands.  Then what a caller of [Submit] or
    [Close] may rely on. *)

From stdpp Require Import relations.
From S2P Require Import Prelude PlcContract StateModel Storage CommandQueue QueueLoop QueueProofs QueueSpec.

Section proofs.
Context {D : Type} `{DeviceEnv D}.
Variables (range : gmap Z ModelAlarm → list (Z * ModelAlarm)) (wall : Z) (digest : canonical → string)
  (quote : string → string) (details : Command → CommandResult → string) (staleAfter : Z).
Notation process := (process range wall digest quote details staleAfter).
Notation run := (CommandQueue.run range wall digest quote details staleAfter).
Notation inner_step := (inner_step range wall digest quote details staleAfter).
Notation queue_step := (queue_step range wall digest quote details staleAfter).
Notation queue_reachable := (queue_reachable range wall digest quote details staleAfter).
Notation respond := (respond range wall digest quote details staleAfter).
Implicit Types (q : Queue (D := D)) (w : World (D := D)).

(** ** The invariant *)

Definition answers q (i : nat) : Prop := ∃ r, r ∈ quResponses q ∧ rpCaller r = i.
Definition busy q (i : nat) : Prop := ∃ command meta, quPhase q = RunBusy i command meta.
Definition admitted q (i : nat) : Prop := busy q i ∨ answers q i.

Definition call_ok q (i : nat) (c : call) : Prop :=
  match caState c with
  | SubOffering | SubDone SubTerminated => ¬ admitted q i
  | SubDone SubStopped => quStop q = true ∧ ¬ admitted q i
  | SubWaiting => admitted q i
  | SubDone SubCancelled => caEnded c = true
  | SubDone (SubOutcome outcome err) =>
      ∃ r, r ∈ quResponses q ∧ rpCaller r = i ∧ (rpReply r).1 = (outcome, err)
  end.

(** Whether the last response was fatal, and what [Errors] holds then. *)
Definition phase_ok q (fatal : bool) : Prop :=
  match quPhase q with
  | RunSelecting => fatal = false ∧ quFatal q = None
  | RunBusy i command meta =>
      fatal = false ∧ quFatal q = None ∧ ¬ answers q i ∧
      ∃ c, quCalls q !! i = Some c ∧ caCommand c = command ∧ caMeta c = meta
  | RunReplied answer =>
      fatal = answer.2 ∧ quFatal q = None ∧ last (rpReply <$> quResponses q) = Some answer
  | RunDone =>
      (fatal = true ∨ quStop q = true) ∧
      quFatal q = if fatal then last (rpReply <$> quResponses q) ≫= (fun answer : reply => answer.1.2) else None
  end.

Definition response_ok q (r : response) : Prop :=
  ∃ c, quCalls q !! rpCaller r = Some c ∧ (rpRequest r).1 = (caCommand c, caMeta c).

Record loop_ok w q : Prop := {
  lo_run : ∃ fatal, run (rpRequest <$> quResponses q) w = (rpReply <$> quResponses q, fatal, quWorld q) ∧ phase_ok q fatal;
  lo_once : NoDup (rpCaller <$> quResponses q);
  lo_own : Forall (response_ok q) (quResponses q);
  lo_calls : ∀ i c, quCalls q !! i = Some c → call_ok q i c;
  lo_normal : Forall (fun c => NormalizeCommand (caCommand c) = caCommand c) (quCalls q);
  lo_close : true ∈ quClosers q → quPhase q = RunDone;
  lo_stop : quClosers q ≠ [] → quStop q = true
}.

Lemma run_snoc requests command meta budget w :
  run (requests ++ [(command, meta, budget)]) w =
    match run requests w with
    | (replies, true, w') => (replies, true, w')
    | (replies, false, w') =>
        let '(answer, w'') := process budget (NormalizeCommand command) meta w' in
        (replies ++ [answer], answer.2, w'')
    end.
Proof.
  revert w. induction requests as [|[[c m] b] requests IH]; intros w; cbn [app CommandQueue.run].
  - destruct (process _ _ _ _) as [[[o e] []] w']; reflexivity.
  - destruct (process b _ m w) as [[[o e] []] w'] eqn:Hp; cbn [snd]; [reflexivity|]. rewrite IH.
    destruct (run requests w') as [[replies []] w'']; [reflexivity|].
    by destruct (process budget _ meta w'') as [[[o' e'] []] w3].
Qed.

(** ** Calls are kept *)

Lemma answers_dec q i : Decision (answers q i).
Proof.
  destruct (decide (i ∈ rpCaller <$> quResponses q)) as [Hi|Hi].
  - left. apply list_elem_of_fmap in Hi as (r & -> & Hr). by exists r.
  - right. intros (r & Hr & <-). apply Hi, list_elem_of_fmap. by exists r.
Qed.

Lemma responseOf_spec q i r : responseOf i q = Some r → r ∈ quResponses q ∧ rpCaller r = i.
Proof.
  intros Hr. apply List.find_some in Hr as [Hin He]. apply list_elem_of_In in Hin. split; [done|].
  by apply Nat.eqb_eq.
Qed.

Lemma responseOf_none q i : responseOf i q = None → ¬ answers q i.
Proof.
  intros Hn (r & Hr & <-). apply list_elem_of_In in Hr. apply (List.find_none _ _ Hn) in Hr.
  by rewrite Nat.eqb_refl in Hr.
Qed.

Lemma responseOf_answers q i : answers q i → is_Some (responseOf i q).
Proof. intros Ha. destruct (responseOf i q) eqn:He; [eauto|]. by apply responseOf_none in He. Qed.

(** A change of one call's state or context leaves the requests alone. *)
Definition keeps (f : call → call) : Prop := ∀ c, caCommand (f c) = caCommand c ∧ caMeta (f c) = caMeta c.

Lemma keeps_state s : keeps (setState s).
Proof. done. Qed.
Lemma keeps_context : keeps endContext.
Proof. done. Qed.

Lemma response_ok_alter q q' f k r :
  keeps f → quCalls q' = alter f k (quCalls q) → response_ok q r → response_ok q' r.
Proof.
  intros Hf Hq (c & Hc & He). unfold response_ok. rewrite Hq.
  destruct (decide (k = rpCaller r)) as [->|Hne].
  - exists (f c). rewrite list_lookup_alter_eq, Hc. split; [done|]. destruct (Hf c) as [-> ->]. exact He.
  - exists c. by rewrite list_lookup_alter_ne.
Qed.

Lemma normal_alter f k (calls : list call) :
  keeps f → Forall (fun c => NormalizeCommand (caCommand c) = caCommand c) calls →
  Forall (fun c => NormalizeCommand (caCommand c) = caCommand c) (alter f k calls).
Proof.
  intros Hf Hn. apply Forall_lookup. intros j c Hc. destruct (decide (k = j)) as [->|Hne].
  - rewrite list_lookup_alter_eq in Hc. destruct (calls !! j) as [c0|] eqn:Hj; [|done].
    injection Hc as <-. destruct (Hf c0) as [-> _]. by eapply (Forall_lookup_1 _ _ _ _ Hn).
  - rewrite list_lookup_alter_ne in Hc by done. by eapply (Forall_lookup_1 _ _ _ _ Hn).
Qed.

(** The state changes only in one call; what [run] did is untouched. *)
Lemma alter_ok w q f k :
  keeps f → loop_ok w q →
  (∀ c, quCalls q !! k = Some c → call_ok q k c → call_ok q k (f c)) →
  loop_ok w (setCalls (alter f k (quCalls q)) q).
Proof.
  intros Hf Hok Hc. destruct (lo_run _ _ Hok) as (fatal & Hrun & Hp).
  split; cbn [quResponses quWorld quCalls quPhase quClosers setCalls].
  - exists fatal. split; [done|]. revert Hp. unfold phase_ok. cbn [quPhase setCalls quResponses quStop quCalls].
    destruct (quPhase q) as [|i command meta| |]; try done. intros (-> & Hfn & Hn & c & Hi & <- & <-).
    split; [done|]; split; [done|]; split; [done|]. destruct (decide (k = i)) as [->|Hne].
    + exists (f c). rewrite list_lookup_alter_eq, Hi. destruct (Hf c) as [-> ->]. done.
    + exists c. by rewrite list_lookup_alter_ne.
  - exact (lo_once _ _ Hok).
  - eapply Forall_impl; [exact (lo_own _ _ Hok)|]. intros r. by apply response_ok_alter with f k.
  - intros i c Hi. destruct (decide (k = i)) as [->|Hne].
    + rewrite list_lookup_alter_eq in Hi. destruct (quCalls q !! i) as [c0|] eqn:H0; [|done].
      injection Hi as <-. apply Hc; [done|]. exact (lo_calls _ _ Hok _ _ H0).
    + rewrite list_lookup_alter_ne in Hi by done. exact (lo_calls _ _ Hok _ _ Hi).
  - apply normal_alter; [done|]. exact (lo_normal _ _ Hok).
  - exact (lo_close _ _ Hok).
  - exact (lo_stop _ _ Hok).
Qed.

Lemma moves_ok w q i s :
  loop_ok w q →
  (∀ c, quCalls q !! i = Some c → call_ok q i c → call_ok q i (setState s c)) → loop_ok w (moves i s q).
Proof. intros Hok Hc. apply (alter_ok w q (setState s) i (keeps_state s) Hok Hc). Qed.

(** ** Every step keeps the invariant *)

Lemma take_ok w q i c :
  loop_ok w q → quCalls q !! i = Some c → caState c = SubOffering → quPhase q = RunSelecting → loop_ok w (take i c q).
Proof.
  intros Hok Hi Hs Hsel. assert (¬ answers q i) as Hna.
  { pose proof (lo_calls _ _ Hok _ _ Hi) as Hc. unfold call_ok in Hc. rewrite Hs in Hc. intros Ha. apply Hc. by right. }
  assert (∀ j, j ≠ i → admitted (take i c q) j ↔ admitted q j) as Hadm.
  { intros j Hj. unfold admitted, busy, answers. cbn [quPhase take setPhase moves setCalls quResponses]. rewrite Hsel.
    naive_solver. }
  destruct (lo_run _ _ Hok) as (fatal & Hrun & Hp). unfold phase_ok in Hp. rewrite Hsel in Hp.
  split; cbn [take setPhase moves setCalls quResponses quWorld quCalls quPhase quClosers].
  - exists fatal. destruct Hp as [-> Hfn]. split; [done|]. split; [done|]. split; [done|]. split; [exact Hna|]. exists (setState SubWaiting c).
    cbn [quCalls take setPhase moves setCalls]. by rewrite list_lookup_alter_eq, Hi.
  - exact (lo_once _ _ Hok).
  - eapply Forall_impl; [exact (lo_own _ _ Hok)|]. intros r. by apply response_ok_alter with (setState SubWaiting) i.
  - intros j c' Hj. destruct (decide (i = j)) as [<-|Hne].
    + rewrite list_lookup_alter_eq, Hi in Hj. injection Hj as <-. left. by eexists _, _.
    + rewrite list_lookup_alter_ne in Hj by done. pose proof (lo_calls _ _ Hok _ _ Hj) as Hc.
      unfold call_ok in *. specialize (Hadm j ltac:(done)). destruct (caState c') as [| |[| | |]]; try rewrite Hadm; try exact Hc.
  - apply normal_alter; [done|]. exact (lo_normal _ _ Hok).
  - intros Ht. pose proof (lo_close _ _ Hok Ht) as Hd. by rewrite Hsel in Hd.
  - exact (lo_stop _ _ Hok).
Qed.

Lemma respond_ok w q i command meta budget :
  loop_ok w q → quPhase q = RunBusy i command meta → loop_ok w (respond i command meta budget q).
Proof.
  intros Hok Hb. destruct (lo_run _ _ Hok) as (fatal & Hrun & Hp). unfold phase_ok in Hp. rewrite Hb in Hp.
  destruct Hp as (-> & Hfn & Hna & c & Hi & Hcc & Hcm). unfold QueueLoop.respond.
  destruct (process budget command meta (quWorld q)) as [answer w'] eqn:Hproc.
  assert (NormalizeCommand command = command) as Hnorm.
  { rewrite <-Hcc. exact (Forall_lookup_1 _ _ _ _ (lo_normal _ _ Hok) Hi). }
  assert (∀ q', quPhase q' = RunReplied answer →
    quResponses q' = quResponses q ++ [mkResponse i (command, meta, budget) answer] →
    ∀ j, admitted q' j ↔ admitted q j) as Hadm.
  { intros q' Hp' Hr' j. unfold admitted, busy, answers. rewrite Hp', Hr', Hb. setoid_rewrite elem_of_app.
    setoid_rewrite list_elem_of_singleton. split.
    - intros [(? & ? & ?)|(r & [Hr| ->] & <-)]; [done| |cbn [rpCaller]; left; by eexists _, _]. right. by exists r.
    - intros [(? & ? & [= <- _ _])|(r & Hr & <-)]; right; [by eexists (mkResponse i (command, meta, budget) answer); auto|].
      exists r. auto. }
  split; cbn [quResponses quWorld quCalls quPhase quClosers].
  - exists answer.2. split; [|split; [done|]; split; [done|]; cbn [quResponses]; rewrite fmap_app; apply last_snoc].
    rewrite !fmap_app. cbn [fmap list_fmap rpRequest rpReply]. rewrite run_snoc, Hrun, Hnorm. by rewrite Hproc.
  - rewrite fmap_app. apply NoDup_app. split; [exact (lo_once _ _ Hok)|]. split; [|apply NoDup_singleton].
    intros j Hj. cbn [fmap list_fmap rpCaller]. rewrite list_elem_of_singleton. intros ->. apply Hna.
    apply list_elem_of_fmap in Hj as (r & -> & Hr). by exists r.
  - apply Forall_app. split; [exact (lo_own _ _ Hok)|]. apply Forall_singleton. exists c. cbn [quCalls rpCaller].
    split; [done|]. cbn [rpRequest fst]. by rewrite Hcc, Hcm.
  - intros j c' Hj. pose proof (lo_calls _ _ Hok _ _ Hj) as Hc.
    unfold call_ok in *. cbn [quStop quResponses]. set (q' := mkQueue _ _ _ _ _ _ _).
    specialize (Hadm q' eq_refl eq_refl j).
    destruct (caState c') as [| |[| | |]]; rewrite ?Hadm; try exact Hc.
    destruct Hc as (r & Hr & Hrest). exists r. split; [|exact Hrest]. apply elem_of_app. by left.
  - exact (lo_normal _ _ Hok).
  - intros Ht. pose proof (lo_close _ _ Hok Ht) as Hd. by rewrite Hb in Hd.
  - exact (lo_stop _ _ Hok).
Qed.

(** A step of the phase alone, to one in which no request is being processed. *)
Lemma phase_step_ok w q q' :
  loop_ok w q → quStop q' = quStop q → quCalls q' = quCalls q → quResponses q' = quResponses q →
  quClosers q' = quClosers q → quWorld q' = quWorld q →
  (∀ i command meta, quPhase q ≠ RunBusy i command meta) → (∀ i command meta, quPhase q' ≠ RunBusy i command meta) →
  quPhase q ≠ RunDone → (∀ fatal, phase_ok q fatal → phase_ok q' fatal) → loop_ok w q'.
Proof.
  intros Hok Hs Hc Hr Hcl Hw Hn Hn' Hnd Hp. destruct (lo_run _ _ Hok) as (fatal & Hrun & Hph).
  assert (∀ j, admitted q' j ↔ admitted q j) as Hadm.
  { intros j. unfold admitted, busy, answers. rewrite Hr. split; (intros [(? & ? & ?)|?]; [|auto]); exfalso; naive_solver. }
  split; rewrite ?Hr, ?Hc, ?Hw, ?Hcl, ?Hs.
  - exists fatal. split; [exact Hrun|]. by apply Hp.
  - exact (lo_once _ _ Hok).
  - eapply Forall_impl; [exact (lo_own _ _ Hok)|]. intros r (c & Hi & He). exists c. by rewrite Hc.
  - intros j c Hj. pose proof (lo_calls _ _ Hok _ _ Hj) as Hcall. unfold call_ok in *. rewrite Hs, Hr.
    destruct (caState c) as [| |[| | |]]; rewrite ?Hadm; exact Hcall.
  - exact (lo_normal _ _ Hok).
  - intros Ht. by pose proof (lo_close _ _ Hok Ht).
  - exact (lo_stop _ _ Hok).
Qed.

Lemma afterReply_ok w q answer : loop_ok w q → quPhase q = RunReplied answer → loop_ok w (afterReply answer q).
Proof.
  intros Hok Hp. destruct answer as [[o e] fatal]. unfold afterReply.
  destruct fatal; (eapply (phase_step_ok w q); [exact Hok|try reflexivity..|]); cbn [quPhase setPhase];
    try (intros; congruence); intros fatal; unfold phase_ok; rewrite Hp; cbn [quPhase setPhase quFatal quResponses]; intros (-> & -> & Hl); auto.
  split; [by left|]. rewrite Hl. by destruct e.
Qed.

Lemma stop_ok w q : loop_ok w q → quPhase q = RunSelecting → quStop q = true → loop_ok w (setPhase RunDone q).
Proof.
  intros Hok Hp Hs. eapply (phase_step_ok w q); [exact Hok|try reflexivity..|]; cbn [quPhase setPhase];
    try (intros; congruence). intros fatal. unfold phase_ok. rewrite Hp. intros [-> Hf]. cbn [quPhase setPhase]. auto.
Qed.

Lemma closed_ok w q k :
  loop_ok w q → quPhase q = RunDone → loop_ok w (setClosers (<[k := true]> (quClosers q)) q).
Proof.
  intros Hok Hp. destruct (lo_run _ _ Hok) as (fatal & Hrun & Hph).
  split; [exists fatal; split; [exact Hrun|exact Hph]|..]; cbn [setClosers quResponses quCalls quPhase].
  - exact (lo_once _ _ Hok).
  - exact (lo_own _ _ Hok).
  - exact (lo_calls _ _ Hok).
  - exact (lo_normal _ _ Hok).
  - done.
  - cbn [quClosers quStop]. intros Hne. apply (lo_stop _ _ Hok). intros He. by rewrite He in Hne.
Qed.

Lemma submit_ok w q command meta : loop_ok w q → loop_ok w (Submit command meta q).
Proof.
  intros Hok. destruct (lo_run _ _ Hok) as (fatal & Hrun & Hph).
  assert (∀ i c, quCalls q !! i = Some c → quCalls (Submit command meta q) !! i = Some c) as Hkeep.
  { intros i c Hi. cbn [quCalls Submit setCalls]. by apply lookup_app_l_Some. }
  assert (¬ admitted q (length (quCalls q))) as Hnew.
  { intros [(? & ? & Hb)|(r & Hr & He)].
    - unfold phase_ok in Hph. rewrite Hb in Hph. destruct Hph as (_ & _ & _ & c & Hc & _).
      apply lookup_lt_Some in Hc. lia.
    - destruct (proj1 (Forall_forall _ _) (lo_own _ _ Hok) _ Hr) as (c & Hc & _). rewrite He in Hc.
      apply lookup_lt_Some in Hc. lia. }
  split; cbn [Submit setCalls quResponses quWorld quPhase quClosers].
  - exists fatal. split; [exact Hrun|]. revert Hph. unfold phase_ok. cbn [quPhase quFatal quResponses quStop setCalls Submit].
    destruct (quPhase q); try done. intros (-> & Hf & Hn & c & Hc & Hrest). split; [done|]; split; [done|]; split; [done|].
    exists c. split; [by apply Hkeep|done].
  - exact (lo_once _ _ Hok).
  - eapply Forall_impl; [exact (lo_own _ _ Hok)|]. intros r (c & Hc & He). exists c. split; [by apply Hkeep|done].
  - intros i c Hi. cbn [quCalls Submit setCalls] in Hi. apply lookup_app_Some in Hi as [Hi|[Hlen Hi]].
    + exact (lo_calls _ _ Hok _ _ Hi).
    + apply list_lookup_singleton_Some in Hi as [Hz <-]. unfold call_ok. cbn [caState].
      replace i with (length (quCalls q)) by lia. exact Hnew.
  - cbn [quCalls]. apply Forall_app. split; [exact (lo_normal _ _ Hok)|]. apply Forall_singleton.
    apply NormalizeCommand_idem.
  - exact (lo_close _ _ Hok).
  - exact (lo_stop _ _ Hok).
Qed.

Lemma close_ok w q : loop_ok w q → loop_ok w (Close q).
Proof.
  intros Hok. destruct (lo_run _ _ Hok) as (fatal & Hrun & Hph).
  split; cbn [Close quResponses quWorld quCalls quPhase quClosers].
  - exists fatal. split; [exact Hrun|]. revert Hph. unfold phase_ok. cbn [quPhase quFatal quResponses quStop quCalls Close].
    destruct (quPhase q); try done. intros [_ Hf]. auto.
  - exact (lo_once _ _ Hok).
  - exact (lo_own _ _ Hok).
  - intros i c Hi. pose proof (lo_calls _ _ Hok _ _ Hi) as Hc. unfold call_ok in *.
    destruct (caState c) as [| |[| | |]]; try exact Hc. split; [done|]. exact (proj2 Hc).
  - exact (lo_normal _ _ Hok).
  - intros Ht. apply (lo_close _ _ Hok). apply elem_of_app in Ht as [Ht|Ht]; [done|].
    apply list_elem_of_singleton in Ht. discriminate.
  - done.
Qed.

(** What a call may move to, by where it stands. *)
Lemma offering_ok q i c s :
  caState c = SubOffering → call_ok q i c →
  (s = SubCancelled ∧ caEnded c = true ∨ s = SubStopped ∧ quStop q = true ∨ s = SubTerminated) →
  call_ok q i (setState (SubDone s) c).
Proof. unfold call_ok. intros -> Hn [[-> He]|[[-> Hs]| ->]]; cbn [caState setState caEnded]; auto. Qed.

Lemma inner_ok w q q' : loop_ok w q → inner_step q q' → loop_ok w q'.
Proof.
  intros Hok Hstep. destruct Hstep.
  - by apply take_ok.
  - apply moves_ok; [done|]. intros c' Hc' Hcall. simplify_eq. apply offering_ok; auto.
  - apply moves_ok; [done|]. intros c' Hc' Hcall. simplify_eq. apply offering_ok; auto.
  - apply moves_ok; [done|]. intros c' Hc' Hcall. simplify_eq. apply offering_ok; auto.
  - apply moves_ok; [done|]. intros c' Hc' Hcall. by simplify_eq.
  - apply moves_ok; [done|]. intros c' Hc' Hcall. apply responseOf_spec in H2 as [Hr He].
    exists r. repeat split; [done..|]. by destruct (rpReply r).1.
  - apply moves_ok; [done|]. intros c' Hc' Hcall. simplify_eq. unfold call_ok in Hcall.
    exfalso. revert Hcall. rewrite H1. intros [(? & ? & Hb)|Ha]; [by rewrite H2 in Hb|].
    by apply responseOf_none in H3.
  - by apply respond_ok.
  - by apply afterReply_ok.
  - by apply stop_ok.
  - by apply closed_ok.
Qed.

Lemma outer_ok w q q' : loop_ok w q → outer_step q q' → loop_ok w q'.
Proof.
  intros Hok [command meta|i|].
  - by apply submit_ok.
  - apply alter_ok; [exact keeps_context|done|]. intros c _. unfold call_ok. cbn [caState endContext caEnded].
    by destruct (caState c) as [| |[| | |]].
  - by apply close_ok.
Qed.

Lemma new_ok w : loop_ok w (New w).
Proof.
  split; cbn [New quResponses quCalls quClosers]; try done.
  - exists false. split; [reflexivity|]. done.
  - apply NoDup_nil_2.
  - intros Ht. by apply elem_of_nil in Ht.
Qed.

Lemma queue_reachable_ok w q : queue_reachable w q → loop_ok w q.
Proof.
  unfold QueueLoop.queue_reachable. intros Hr. pose proof (new_ok w) as Hok. revert Hok.
  induction Hr as [|q1 q2 q3 [Hs|Hs] _ IH]; intros Hok; [done|apply IH..].
  - by apply (inner_ok w q1).
  - by apply (outer_ok w q1).
Qed.

(** ** What a caller may rely on *)

Definition mine q (i : nat) : list response := List.filter (fun r => rpCaller r =? i)%nat (quResponses q).

Definition not_taken q (i : nat) : Prop := mine q i = [] ∧ ∀ command meta, quPhase q ≠ RunBusy i command meta.

Definition answered q (i : nat) (c : call) (answer : reply) : Prop :=
  ∃ budget, mine q i = [mkResponse i (caCommand c, caMeta c, budget) answer].

Definition call_promise q (i : nat) (c : call) : Prop :=
  match caState c with
  | SubOffering | SubDone SubTerminated => not_taken q i
  | SubWaiting => (quPhase q = RunBusy i (caCommand c) (caMeta c) ∧ mine q i = []) ∨ ∃ answer, answered q i c answer
  | SubDone (SubOutcome outcome err) => ∃ fatal, answered q i c (outcome, err, fatal)
  | SubDone SubStopped => quStop q = true ∧ not_taken q i
  | SubDone SubCancelled => caEnded c = true
  end.

Lemma filter_absent {A} (f : A → nat) (l : list A) i : i ∉ f <$> l → List.filter (fun x => f x =? i)%nat l = [].
Proof.
  induction l as [|a l IH]; [done|]. cbn [fmap list_fmap List.filter]. intros [Ha Hl]%not_elem_of_cons.
  destruct (f a =? i)%nat eqn:He; [|by apply IH]. apply Nat.eqb_eq in He. by subst.
Qed.

Lemma filter_unique {A} (f : A → nat) (l : list A) r :
  NoDup (f <$> l) → r ∈ l → List.filter (fun x => f x =? f r)%nat l = [r].
Proof.
  induction l as [|a l IH]; intros Hnd Hr; [by apply elem_of_nil in Hr|]. cbn [List.filter fmap list_fmap] in *.
  apply NoDup_cons in Hnd as [Ha Hnd]. apply elem_of_cons in Hr as [->|Hr].
  - rewrite Nat.eqb_refl. f_equal. by apply filter_absent.
  - destruct (f a =? f r)%nat eqn:He; [|by apply IH]. apply Nat.eqb_eq in He. exfalso. apply Ha, list_elem_of_fmap.
    by exists r.
Qed.

Lemma mine_none q i : ¬ answers q i → mine q i = [].
Proof.
  intros Hn. apply filter_absent. intros Hi. apply list_elem_of_fmap in Hi as (r & -> & Hr). apply Hn. by exists r.
Qed.

Lemma not_admitted_not_taken q i : ¬ admitted q i → not_taken q i.
Proof.
  intros Hn. split; [apply mine_none; intros Ha; apply Hn; by right|]. intros command meta Hb. apply Hn. left. by eexists _, _.
Qed.

Lemma answers_answered w q i c r :
  loop_ok w q → quCalls q !! i = Some c → r ∈ quResponses q → rpCaller r = i → answered q i c (rpReply r).
Proof.
  intros Hok Hi Hr <-. destruct (proj1 (Forall_forall _ _) (lo_own _ _ Hok) _ Hr) as (c' & Hc' & He). simplify_eq.
  exists (rpRequest r).2. unfold mine. rewrite (filter_unique rpCaller _ r (lo_once _ _ Hok) Hr). f_equal.
  destruct r as [j [request budget] answer]. cbn in *. by subst.
Qed.

Lemma promise_holds w q i c : loop_ok w q → quCalls q !! i = Some c → call_promise q i c.
Proof.
  intros Hok Hi. pose proof (lo_calls _ _ Hok _ _ Hi) as Hc. unfold call_ok in Hc. unfold call_promise.
  destruct (lo_run _ _ Hok) as (fatal & _ & Hph).
  destruct (caState c) as [| |[outcome err| | |]]; try (by apply not_admitted_not_taken); try exact Hc.
  - destruct Hc as [(command & meta & Hb)|(r & Hr & He)].
    + left. unfold phase_ok in Hph. rewrite Hb in Hph. destruct Hph as (_ & _ & Hna & c' & Hc' & <- & <-). simplify_eq.
      split; [done|]. by apply mine_none.
    + right. exists (rpReply r). by eapply answers_answered.
  - destruct Hc as (r & Hr & He & Ho). exists (rpReply r).2. rewrite <-Ho, <-surjective_pairing.
    by eapply answers_answered.
  - destruct Hc as [Hs Hn]. split; [done|]. by apply not_admitted_not_taken.
Qed.

(** ** Progress *)

Definition callWeight (c : call) : nat := match caState c with SubOffering => 6 | SubWaiting => 1 | SubDone _ => 0 end.
Definition phaseWeight (p : run_phase) : nat :=
  match p with RunSelecting => 1 | RunBusy _ _ _ => 3 | RunReplied _ => 2 | RunDone => 0 end.
Definition closerWeight (returned : bool) : nat := if returned then 0 else 1.

Definition work q : nat :=
  sum_list_with callWeight (quCalls q) + phaseWeight (quPhase q) + sum_list_with closerWeight (quClosers q).

Lemma sum_alter {A} (f : A → nat) (g : A → A) (l : list A) i x :
  l !! i = Some x → (sum_list_with f (alter g i l) + f x = sum_list_with f l + f (g x))%nat.
Proof.
  revert i. induction l as [|y l IH]; intros [|i] Hi; simplify_eq/=; [lia|]. specialize (IH _ Hi).
  change (f y + sum_list_with f (alter g i l) + f x = f y + sum_list_with f l + f (g x))%nat. lia.
Qed.

Lemma inner_decreases q q' : inner_step q q' → (work q' < work q)%nat.
Proof.
  intros Hs. destruct Hs as [i c Hi Hc Hp|i c Hi Hc _|i c Hi Hc _|i c Hi Hc _|i c Hi Hc _|i c r Hi Hc _|i c Hi Hc _ _
                            |i command meta budget Hp|answer Hp|Hp _|k _ Hk]; unfold work.
  1-7: pose proof (fun s => sum_alter callWeight (setState s) _ _ _ Hi) as Hsum; cbn [quCalls quPhase quClosers take setPhase moves setCalls];
    unfold callWeight in *; cbn [caState setState] in Hsum; rewrite Hc in Hsum.
  - specialize (Hsum SubWaiting). rewrite Hp. cbn in *. lia.
  - specialize (Hsum (SubDone SubCancelled)). cbn in *. lia.
  - specialize (Hsum (SubDone SubStopped)). cbn in *. lia.
  - specialize (Hsum (SubDone SubTerminated)). cbn in *. lia.
  - specialize (Hsum (SubDone SubCancelled)). cbn in *. lia.
  - specialize (Hsum (SubDone (SubOutcome (rpReply r).1.1 (rpReply r).1.2))). cbn in *. lia.
  - specialize (Hsum (SubDone SubTerminated)). cbn in *. lia.
  - unfold QueueLoop.respond. destruct (process _ _ _ _) as [answer w']. cbn [quCalls quPhase quClosers]. rewrite Hp. cbn. lia.
  - destruct answer as [[o e] []]; cbn [afterReply quCalls quPhase quClosers setPhase]; rewrite Hp; cbn; lia.
  - cbn [quCalls quPhase quClosers setPhase]. rewrite Hp. cbn. lia.
  - cbn [quCalls quPhase quClosers setClosers]. pose proof (sum_alter closerWeight (fun _ => true) _ _ _ Hk) as Hsum.
    rewrite <-list_insert_alter in Hsum. cbn in *. lia.
Qed.

Lemma inner_bounded n q q' : nsteps inner_step n q q' → (n + work q' ≤ work q)%nat.
Proof. induction 1 as [|n q1 q2 q3 Hs _ IH]; [lia|]. apply inner_decreases in Hs. lia. Qed.

Lemma calls_weight (calls : list call) : (sum_list_with callWeight calls ≤ 6 * length calls)%nat.
Proof. induction calls as [|c calls IH]; cbn [sum_list_with length]; [lia|]. unfold callWeight at 1. destruct (caState c); lia. Qed.

Lemma closers_weight (closers : list bool) : (sum_list_with closerWeight closers ≤ length closers)%nat.
Proof. induction closers as [|[] closers IH]; cbn [sum_list_with length closerWeight]; lia. Qed.

Lemma work_bound q : (work q ≤ 6 * length (quCalls q) + length (quClosers q) + 3)%nat.
Proof.
  unfold work. pose proof (calls_weight (quCalls q)). pose proof (closers_weight (quClosers q)).
  destruct (quPhase q); cbn [phaseWeight]; lia.
Qed.

(** When nothing can move, [run] selects or has ended. *)
Lemma stuck_phase q : nf inner_step q → quPhase q = RunSelecting ∧ quStop q = false ∨ quPhase q = RunDone.
Proof.
  intros Hn. destruct (quPhase q) as [|i command meta|answer|] eqn:Hp; [|exfalso; apply Hn..|by right].
  - left. split; [done|]. destruct (quStop q) eqn:Hs; [|done]. exfalso. apply Hn. eexists. by apply qs_stopped.
  - eexists. by apply (qs_process _ _ _ _ _ _ q i command meta 0).
  - eexists. by apply qs_replied.
Qed.

Lemma stuck_calls w q i c :
  loop_ok w q → nf inner_step q → quCalls q !! i = Some c → ∃ answer, caState c = SubDone answer.
Proof.
  intros Hok Hn Hi. pose proof (lo_calls _ _ Hok _ _ Hi) as Hc. unfold call_ok in Hc.
  destruct (caState c) as [| |answer] eqn:Hs; [exfalso; apply Hn..|by exists answer].
  - destruct (stuck_phase q Hn) as [[Hp _]|Hp]; eexists.
    + by eapply qs_take.
    + by eapply qs_gone.
  - destruct Hc as [(command & meta & Hb)|Ha].
    + by destruct (stuck_phase q Hn) as [[Hp _]|Hp]; rewrite Hp in Hb.
    + destruct (responseOf_answers _ _ Ha) as [r Hr]. eexists. by eapply qs_receive.
Qed.

Lemma stuck_closers w q : loop_ok w q → nf inner_step q → Forall (fun returned => returned = true) (quClosers q).
Proof.
  intros Hok Hn. apply Forall_lookup. intros k [] Hk; [done|]. exfalso.
  assert (quStop q = true) as Hs by (apply (lo_stop _ _ Hok); intros He; by rewrite He in Hk).
  destruct (stuck_phase q Hn) as [[_ Hs']|Hp]; [congruence|]. apply Hn. eexists. by eapply qs_closed.
Qed.

Lemma inner_reach_ok w q q' : loop_ok w q → rtc inner_step q q' → loop_ok w q'.
Proof. intros Hok Hr. induction Hr as [|q1 q2 q3 Hs _ IH]; [done|]. apply IH. by apply (inner_ok w q1). Qed.
End proofs.

(** C8. However calls of [Submit] and [Close], the end of contexts and the
    goroutine's rounds interleave, the queue is the sequential [run]: the
    responses it has sent are those of [run] on the requests in the order they
    were taken, from the store and device it was made with, and its store and
    device are the ones [run] leaves.  After a fatal error nothing more is taken
    and [Errors] holds that error.  A call that returns an outcome returns the
    response to its own command, the only one it caused; a call told that the
    queue is stopped or has terminated was never taken, so its command never
    reached the store; and a call that waits is being processed or has its
    response. *)
Theorem admitted_commands_are_answered {D} `{DeviceEnv D} range wall digest quote details stale (w : World (D := D)) q :
  queue_reachable range wall digest quote details stale w q →
  (∃ stopped, run range wall digest quote details stale (rpRequest <$> quResponses q) w =
                (rpReply <$> quResponses q, stopped, quWorld q) ∧
     (stopped = true →
        quPhase q = RunDone ∧ quFatal q = last (rpReply <$> quResponses q) ≫= (fun answer : reply => answer.1.2) ∨
        ∃ answer, quPhase q = RunReplied answer)) ∧
  ∀ i c, quCalls q !! i = Some c → call_promise q i c.
Proof.
  intros Hr. apply queue_reachable_ok in Hr as Hok. split.
  - destruct (lo_run _ _ _ _ _ _ _ _ Hok) as (fatal & Hrun & Hp). exists fatal. split; [exact Hrun|].
    intros ->. unfold phase_ok in Hp. destruct (quPhase q) as [| |answer|]; [by destruct Hp..|eauto|].
    left. by destruct Hp as [_ ->].
  - intros i c Hi. by apply (promise_holds _ _ _ _ _ _ _ _ _ _ Hok).
Qed.

(** C9. Nobody waits on the queue for ever.  From any reachable state the calls
    and the goroutine can take only a bounded number of steps of their own, six
    per call, one per [Close] and three more; and where they can take none,
    every call of [Submit] and of [Close] has returned. *)
Theorem every_call_comes_back {D} `{DeviceEnv D} range wall digest quote details stale (w : World (D := D)) q :
  queue_reachable range wall digest quote details stale w q →
  (∀ n q', nsteps (inner_step range wall digest quote details stale) n q q' →
     (n ≤ 6 * length (quCalls q) + length (quClosers q) + 3)%nat) ∧
  ∀ q', rtc (inner_step range wall digest quote details stale) q q' →
    nf (inner_step range wall digest quote details stale) q' →
    (∀ i c, quCalls q' !! i = Some c → ∃ answer, caState c = SubDone answer) ∧
    Forall (fun returned => returned = true) (quClosers q').
Proof.
  intros Hr. apply queue_reachable_ok in Hr as Hok. split.
  - intros n q' Hn. apply inner_bounded in Hn. pose proof (work_bound q). lia.
  - intros q' Hq Hn. pose proof (inner_reach_ok _ _ _ _ _ _ _ _ _ Hok Hq) as Hok'. split.
    + intros i c Hi. by eapply stuck_calls.
    + by eapply stuck_closers.
Qed.

(** Two clients send the same command at once; the second is taken first. *)
Module Clients.
Import Plant.
Definition command : Command := NormalizeCommand start.
Definition started := New world.
Definition offered := Submit start meta (Submit start meta started).
Definition waiting (ended : bool) : call := mkCall command meta SubWaiting ended.
Definition taken := take 1 (mkCall command meta SubOffering false) offered.
Definition replied := respond range 0 digest quote details 1000 1 command meta 3 taken.
Definition response := mkResponse 1 (command, meta, 3%nat) (process range 0 digest quote details 1000 3 command meta world).1.
Definition received := moves 1 (SubDone (SubOutcome (rpReply response).1.1 (rpReply response).1.2)) replied.
Notation step := (queue_step range 0 digest quote details 1000).
Notation reached := (queue_reachable range 0 digest quote details 1000 world).

Lemma received_reached : reached received.
Proof.
  eapply rtc_l; [right; apply (qs_submit _ start meta)|]. eapply rtc_l; [right; apply (qs_submit _ start meta)|].
  eapply rtc_l; [left; apply (qs_take _ _ _ _ _ _ offered 1); reflexivity|].
  eapply rtc_l; [left; apply (qs_process _ _ _ _ _ _ taken 1 command meta 3); reflexivity|].
  eapply rtc_l; [|apply rtc_refl]. left.
  apply (qs_receive _ _ _ _ _ _ replied 1 (waiting false) response); vm_compute; reflexivity.
Qed.
End Clients.
Import Plant.

Lemma answered_witness :
  ∃ outcome, caState <$> quCalls Clients.received !! 1%nat = Some (SubDone (SubOutcome outcome None)) ∧
    crStatus (ouResult outcome) = "EXECUTED"%string ∧
    ∃ fatal, answered Clients.received 1 (mkCall Clients.command Plant.meta (SubDone (SubOutcome outcome None)) false)
               (outcome, None, fatal).
Proof.
  exists (rpReply Clients.response).1.1. split; [vm_compute; reflexivity|]. split; [vm_compute; reflexivity|].
  pose proof (admitted_commands_are_answered Plant.range 0 Plant.digest Plant.quote Plant.details 1000 Plant.world
    Clients.received Clients.received_reached) as [_ Hc].
  apply (Hc 1%nat (mkCall Clients.command Plant.meta (SubDone (SubOutcome (rpReply Clients.response).1.1 None)) false)).
  vm_compute. reflexivity.
Defined.

(** The first client is still offering when the queue is closed. *)
Lemma back_witness :
  length (quCalls (Close Clients.received)) = 2%nat ∧
  ∀ n q', nsteps (inner_step Plant.range 0 Plant.digest Plant.quote Plant.details 1000) n (Close Clients.received) q' → (n ≤ 16)%nat.
Proof.
  assert (queue_reachable Plant.range 0 Plant.digest Plant.quote Plant.details 1000 Plant.world (Close Clients.received)) as Hr.
  { eapply rtc_r; [exact Clients.received_reached|]. right. apply qs_close. }
  pose proof (every_call_comes_back Plant.range 0 Plant.digest Plant.quote Plant.details 1000 Plant.world _ Hr) as [Hb _].
  split; [reflexivity|]. intros n q' Hn. apply (Nat.le_trans _ _ _ (Hb n q' Hn)). vm_compute. lia.
Defined.
