(* ===== verification/HmiSpec.v ===== *)
(** * What the HMI runtime promises

    The properties of the session state machine of [internal/agent] over all
    interleavings of its goroutines, each with an instance at a small point
    table, two HMI clients and the real worker. *)

From stdpp Require Import relations.
From S2P Require Import Prelude GoText GoValue RuntimeConfig PointStore Storage WorkerPlan WorkerCodec Worker WorkerLoop WorkerSpec PlcScan PlcScanProofs Hmi HmiSteps HmiProofs HmiInv HmiReach HmiLive HmiTable HmiRoute HmiRuns.

#[local] Existing Instance Bench.bench_env.

(** ** A bench: a table with a lamp and a speed, and runs of the runtime *)

Module Panel.
Definition adapter (ep : plcEndpoint) : Bench.env := Bench.mkEnv Bench.answers.

#[export] Instance panel_worker : PlcWorker (Loop (E := Bench.env)) :=
  loop_worker (fun m => map snd (map_to_list m)) adapter.

Definition validTime (t : string) : bool := t =s "2024-05-01T08:00:00Z".
Definition plc : plcEndpoint := mkEndpoint "10.0.0.5" 502 1.
Definition urlParse (raw : string) : option url := if raw =s DeviceID plc then Some (deviceURL plc) else None.
Definition isIP (host : string) : bool := host =s "10.0.0.5".
Definition range (m : gmap string PointValue) : list (string * PointValue) := map_to_list m.

Definition header : envelope := mkEnvelope false "1.0" "2024-05-01T08:00:00Z" "r1".
Definition configureMessage : inbound := InConfigure header 500 [Bench.lamp; Bench.speed; Bench.level].
Definition idle : Runtime (Loop (E := Bench.env)) := NewLocalRuntime None.

Definition run (acts : list act) : option (Runtime (Loop (E := Bench.env))) :=
  play validTime urlParse isIP range true acts idle.

Lemma run_reachable acts r :
  run acts = Some r → reachable validTime urlParse isIP range true None r.
Proof. apply play_reachable. constructor. Defined.

(** Client 1 configures, connects and waits for its commands. *)
Definition configured (c s : nat) : list act := [AAccept c; AMessage c s (Some false) configureMessage; AClient c s 0].
Definition connected : list act :=
  configured 1 11 ++
  [AMessage 1 12 None (InConnect header "easy521://10.0.0.5:502?unitId=1"); AClient 1 12 0; AClient 1 13 0;
   AClient 1 14 0; AReady 13 true; AFinish].

Definition at_work : Runtime (Loop (E := Bench.env)) := default idle (run connected).

Lemma at_work_reachable : reachable validTime urlParse isIP range true None at_work.
Proof. apply (run_reachable connected). vm_compute. reflexivity. Defined.
End Panel.
#[local] Existing Instance Panel.panel_worker.

Example panel_connects :
  (sePlcState <$> rtSessions Panel.at_work !! 11%nat) = Some "connected"%string ∧ currentWorker Panel.at_work = Some 13%nat.
Proof. vm_compute. done. Qed.

Section claims.
Context {W : Type} `{PlcWorker W}.
Variables (validTime : string → bool) (urlParse : string → option url) (isIP : string → bool)
  (range : gmap string PointValue → list (string * PointValue)) (history : bool).

#[local] Abbreviation reachable := (reachable validTime urlParse isIP range history).
#[local] Abbreviation step := (step validTime urlParse isIP range history).

(** ** Ownership *)

(** C1. In every interleaving there is a session exactly while a client owns
    the runtime; a worker is attached only to the current session, for which it
    was built and started; a session without a worker shows no device, is
    disconnected and does not broadcast; every worker that is neither the
    attached one nor cancelled is one a running [StopSession] is about to
    cancel, so two workers never poll the PLC for long; and the values in the
    point store always fit the table in the store. *)
Theorem one_session_owns_the_plc disk (r : Runtime W) :
  reachable disk r →
  (rtOwner r = None ↔ rtSession r = None) ∧
  (∀ s se w, rtSessions r !! s = Some se → seWorker se = Some w →
     rtSession r = Some s ∧
     ∃ cell, rtWorkers r !! w = Some cell ∧ wcSession cell = s ∧ wcStarted cell = true) ∧
  (∀ s se, rtSessions r !! s = Some se → seWorker se = None →
     seDeviceID se = "" ∧ sePlcState se = "disconnected" ∧ seBroadcasts se = false) ∧
  (∀ w cell, rtWorkers r !! w = Some cell → wcStarted cell = true → wcCancelled cell = false →
     currentWorker r = Some w ∨ stop_pending w r) ∧
  store_ok (rtStore r).
Proof.
  intros Hr. pose proof (reachable_inv _ _ _ _ _ _ _ Hr) as Hi.
  split_and!; [apply Hi|apply Hi|apply Hi| |by eapply reachable_store_ok].
  intros w cell Hw Hst Hcan. by destruct (iv_live _ _ Hi w cell Hw Hst Hcan) as [?|[?|?]]; [left|right|].
Qed.

(** ** The clients' channels *)

(** A client's channel never holds more than 128 messages, in whatever
    order its producers and its writer run; and a client that waits to be closed
    is closed or has the closing message in its channel. *)
Theorem client_channels_are_bounded disk (r : Runtime W) c cl :
  reachable disk r → rtClients r !! c = Some cl →
  (length (clQueue cl) ≤ 128)%nat ∧
  (clPc cl = CClosing → clDone cl = true ∨ ∃ o, (o, true) ∈ clQueue cl).
Proof. intros Hr Hc. exact (iv_client _ _ (reachable_inv _ _ _ _ _ _ _ Hr) c cl Hc). Qed.

(** ** Progress *)

(** C13. No handler gets stuck: from every reachable state the runtime can take
    steps (those of the client's goroutine, and of the worker or the writer it
    waits for) after which the client reads its next message or is gone; and a
    client that has begun to leave is then gone and owns nothing. *)
Theorem handlers_always_finish disk (r : Runtime W) c cl :
  reachable disk r → rtClients r !! c = Some cl →
  ∃ r' cl', rtc step r r' ∧ rtClients r' !! c = Some cl' ∧
    ((∃ b, clPc cl' = CReading b) ∨ clPc cl' = CGone) ∧
    (leaving (clPc cl) = true → clPc cl' = CGone ∧ rtOwner r' ≠ Some c).
Proof.
  intros Hr Hc. pose proof (reachable_inv _ _ _ _ _ _ _ Hr) as Hi.
  destruct (client_settles validTime urlParse isIP range history c (clPc cl) r Hi) as (r' & pc' & Hs & Hpc & Hrk & Hlv);
    [by eapply pc_lookup|].
  apply pc_of_Some in Hpc as (cl' & Hcl' & <-). exists r', cl'. split_and!; [done|done| |].
  - destruct (clPc cl') as [b| | | | | | | | | | | | |s|]; try done; [by left; exists b|by destruct s|by right].
  - intros E%Hlv. assert (clPc cl' = CGone) as Hg by (destruct (clPc cl') as [| | | | | | | | | | | | |s|]; try done; by destruct s).
    split; [done|]. intros Ho. pose proof (inv_steps _ _ _ _ _ _ _ Hi Hs) as Hi'.
    destruct (iv_pc _ _ Hi' c Ho) as (cl2 & Hcl2 & Hown). simplify_eq. by rewrite Hg in Hown.
Qed.

(** ** The table *)

(** C16. In runs where no new session is installed while a [StopSession] has not
    yet cleared the store, the store holds exactly the table of the current
    session, and no table when there is no session and nobody is stopping. *)
Theorem the_store_holds_the_sessions_table disk (r : Runtime W) :
  orderly_run validTime urlParse isIP range history disk r →
  (∀ s se, rtSession r = Some s → rtSessions r !! s = Some se →
     ∃ st, Replace (seConfig se) New = (Ok tt, st) ∧ sDefinitions (rtStore r) = sDefinitions st) ∧
  (rtSession r = None → ¬ stop_clearing r → sDefinitions (rtStore r) = ∅).
Proof.
  intros [Ha _ Hid]%orderly_table. split; [|done]. intros s se Hs Hse.
  destruct (Ha s se Hs Hse) as (st & ? & ?). by exists st.
Qed.
End claims.

Lemma one_session_witness :
  currentWorker Panel.at_work = Some 13%nat ∧ (rtOwner Panel.at_work = None ↔ rtSession Panel.at_work = None).
Proof.
  split; [vm_compute; reflexivity|]. apply (one_session_owns_the_plc _ _ _ _ _ _ _ Panel.at_work_reachable).
Defined.

Definition channels_witness_client : wsClient := default (mkClient [] false [] CGone) (rtClients Panel.at_work !! 1%nat).

Lemma client_channels_witness :
  length (clQueue channels_witness_client) = 5%nat ∧ (length (clQueue channels_witness_client) ≤ 128)%nat.
Proof.
  split; [vm_compute; reflexivity|].
  apply (client_channels_are_bounded _ _ _ _ _ _ _ 1%nat channels_witness_client Panel.at_work_reachable).
  vm_compute. reflexivity.
Defined.

(** The owner's browser goes away while the PLC is connected. *)
Definition closed_browser : Runtime (Loop (E := Bench.env)) :=
  default Panel.idle (Panel.run (Panel.connected ++ [AError 1])).

Definition closed_client : wsClient := default (mkClient [] false [] CGone) (rtClients closed_browser !! 1%nat).

Lemma handlers_witness :
  rtOwner closed_browser = Some 1%nat ∧
  ∃ r' cl', rtc (step Panel.validTime Panel.urlParse Panel.isIP Panel.range true) closed_browser r' ∧
    rtClients r' !! 1%nat = Some cl' ∧ clPc cl' = CGone ∧ rtOwner r' ≠ Some 1%nat.
Proof.
  split; [vm_compute; reflexivity|].
  destruct (handlers_always_finish Panel.validTime Panel.urlParse Panel.isIP Panel.range true None closed_browser 1%nat
              closed_client) as (r' & cl' & Hs & Hc & _ & Hg).
  - apply (Panel.run_reachable (Panel.connected ++ [AError 1])). vm_compute. reflexivity.
  - vm_compute. reflexivity.
  - exists r', cl'. split; [exact Hs|]. split; [exact Hc|]. apply Hg. vm_compute. reflexivity.
Defined.

Lemma sessions_table_witness :
  size (sDefinitions (rtStore Panel.at_work)) = 3%nat ∧
  ∃ st, Replace (mkConfig 500 [Bench.lamp; Bench.speed; Bench.level]) New = (Ok tt, st) ∧
    sDefinitions (rtStore Panel.at_work) = sDefinitions st.
Proof.
  split; [vm_compute; reflexivity|].
  assert (orderly_run Panel.validTime Panel.urlParse Panel.isIP Panel.range true None Panel.at_work) as Hr.
  { apply (playOrderly_run _ _ _ _ _ None Panel.connected Panel.idle); [constructor|vm_compute; reflexivity]. }
  destruct (the_store_holds_the_sessions_table _ _ _ _ _ _ _ Hr) as [Hs _].
  destruct (rtSessions Panel.at_work !! 11%nat) as [se|] eqn:E; [|vm_compute in E; discriminate E].
  assert (seConfig se = mkConfig 500 [Bench.lamp; Bench.speed; Bench.level]) as Hc.
  { assert (seConfig <$> rtSessions Panel.at_work !! 11%nat = Some (mkConfig 500 [Bench.lamp; Bench.speed; Bench.level])) as Hx
      by (vm_compute; reflexivity).
    rewrite E in Hx. injection Hx as Hx. exact Hx. }
  rewrite <-Hc. apply (Hs 11%nat se); [vm_compute; reflexivity|exact E].
Defined.

(** ** Commands *)

(** C27. What the router lets through and what the worker takes.  When the point
    store and the worker were made of the same checked table, a command that
    [handlePointCommand] lets through is executed, and only the PLC can make it
    fail, if it is for a bit point or sets a number, and, when the point is
    write-only, is not a toggle and the point has no read point, not even a blank
    one.  It is never answered POINT_NOT_FOUND, POINT_NOT_WRITABLE or
    INVALID_REQUEST then, in whatever state the connection and the last values
    are.  Every other command that is let through (a pulse of a number, which a
    checked table may allow) is answered INVALID_REQUEST by the worker, with
    nothing sent to the PLC and nothing changed. *)
Theorem routed_commands_are_executed {E} `{WorkerEnv E} validTime range config st0 st sp e id action value v d
    (s : Worker * E) :
  Normalize config = Ok config → Replace config st0 = (Ok tt, st) → buildPlan range config = Ok sp →
  wkPlan s.1 = sp →
  checkCommand validTime (sDefinitions st) e id action value = Ok v →
  sDefinitions st !! id = Some d →
  let '(r, s') := execute (mkCommand id action v) s in
  if bool_decide ((pType d = "bool" ∨ action = "set") ∧ (pAccess d = "write" → pReadPoint d = "" ∧ action ≠ "toggle"))
  then rCode r ≠ "POINT_NOT_FOUND" ∧ rCode r ≠ "POINT_NOT_WRITABLE" ∧ rCode r ≠ "INVALID_REQUEST"
  else rCode r = "INVALID_REQUEST" ∧ s' = s.
Proof.
  intros Hn Hr Hb Hs Hc Hd. destruct (routed_plan validTime range config st0 st sp e id action value v d Hn Hr Hb Hc Hd) as [wp Hro].
  pose proof (routed_accepted _ _ _ _ _ _ s Hro Hs) as Hacc. pose proof (routed_refused _ _ _ _ _ _ s Hro Hs) as Href.
  destruct (execute _ s) as [r s']. unfold executable, refusal in *. cbn [fst snd] in *. case_bool_decide; tauto.
Qed.

Lemma routed_commands_witness :
  checkCommand Panel.validTime (sDefinitions (Replace Bench.config New).2) Panel.header "lamp" "pulse" None = Ok VNil ∧
  rCode (execute (mkCommand "lamp" "pulse" VNil) (Bench.worker, Bench.mkEnv Bench.answers)).1 ≠ "INVALID_REQUEST".
Proof.
  split; [vm_compute; reflexivity|].
  pose proof (routed_commands_are_executed Panel.validTime (fun m => map snd (map_to_list m)) Bench.config New
    (Replace Bench.config New).2 Bench.plan Panel.header "lamp" "pulse" None VNil Bench.lamp
    (Bench.worker, Bench.mkEnv Bench.answers)) as Hx.
  destruct (execute _ _) as [r s']. cbn [fst].
  refine (proj2 (proj2 (Hx _ _ _ _ _ _))).
  - vm_compute. reflexivity.
  - vm_compute. reflexivity.
  - exact Bench.plan_built.
  - reflexivity.
  - vm_compute. reflexivity.
  - vm_compute. reflexivity.
Defined.

(** A checked table may let a number be pulsed; the router lets the command
    through, and the worker refuses it. *)
Definition pulsed : PointDefinition :=
  mkPointDefinition "speed" "D101" "int32" "read_write" "speed" "speed" "fc10" 2 "low-high"
    (Some (mkWriteDefinition "pulse" (VFloat64 (f64_of_Z 1)) (VFloat64 (f64_of_Z 0)) 100)) None.

Example a_number_cannot_be_pulsed :
  match NewWorker (fun m => map snd (map_to_list m)) (mkConfig 500 [pulsed]), Normalize (mkConfig 500 [pulsed]) with
  | Ok w, Ok config =>
      is_ok (checkCommand Panel.validTime (sDefinitions (Replace config New).2) Panel.header "speed" "pulse" None) = true ∧
      rCode (execute (mkCommand "speed" "pulse" VNil) (w, Bench.mkEnv Bench.answers)).1 = "INVALID_REQUEST"
  | _, _ => False
  end.
Proof. vm_compute. split; reflexivity. Qed.

(** ** Alarms *)

(** The alarm records of a session, over any sequence of publications,
    alternate for every point between RAISED and CLEARED, starting from what the
    session remembers (no alarm is active in a new session) and ending in what
    it then remembers; and their serial numbers are consecutive 64-bit numbers,
    so no two of a session's records share one. *)
Theorem alarm_records_alternate {W} `{PlcWorker W} range s changes se (r : Runtime W) :
  rtSession r = Some s → rtSessions r !! s = Some se → in_range 64 (rtAlarmID r) →
  ∃ se' news r',
    recordAll range s changes r = (news, r') ∧ rtSessions r' !! s = Some se' ∧
    map arCounter news = serials (rtAlarmID r) (length news) ∧
    ∀ id, alternating (remembered (seAlarms se) id) (kindsOf id news) (remembered (seAlarms se') id).
Proof. apply recordAll_alternates. Qed.

(** A door that is opened, seen open again, and closed. *)
Definition door (open : bool) : gmap string PointValue :=
  {["door" := mkPointValue (VBool open) "good" 7 (Some open)]}.
Definition doorTable : Config :=
  mkConfig 500 [mkPointDefinition "door" "D5.1" "bool" "read" "door" "" "" 0 "" None
                  (Some (mkAlarmDefinition (VBool false) (VBool true) "door open"))].
Definition doorRuntime : Runtime (Loop (E := Bench.env)) :=
  withStore (Replace doorTable New).2
    (withOwner (Some 1%nat) (Some 2%nat)
       (withSessions {[2%nat := mkSession doorTable None false ∅ false "" "disconnected" false]} Panel.idle)).

Lemma alarm_records_witness :
  kindsOf "door" (recordAll Panel.range 2%nat [door true; door true; door false] doorRuntime).1 = ["RAISED"; "CLEARED"] ∧
  ∃ se' news r', recordAll Panel.range 2%nat [door true; door true; door false] doorRuntime = (news, r') ∧
    rtSessions r' !! 2%nat = Some se' ∧ map arCounter news = serials 0 (length news).
Proof.
  split; [vm_compute; reflexivity|].
  destruct (alarm_records_alternate Panel.range 2%nat [door true; door true; door false]
    (mkSession doorTable None false ∅ false "" "disconnected" false) doorRuntime) as (se' & news & r' & E1 & E2 & E3 & _).
  - reflexivity.
  - vm_compute. reflexivity.
  - vm_compute. split; [discriminate|reflexivity].
  - exists se', news, r'. split; [exact E1|]. split; [exact E2|exact E3].
Defined.

(** ** Races *)

(** Client 1 leaves; client 2 configures between the critical section of its
    [StopSession] and the [store.Clear()] that follows. *)
Definition late_clear : list act :=
  Panel.configured 1 11 ++ [AError 1; AClient 1 20 0; AClient 1 20 0] ++ Panel.configured 2 21 ++
  [AClient 1 30 0; AClient 1 30 0; AClient 1 30 0].

Definition late_state : Runtime (Loop (E := Bench.env)) := default Panel.idle (Panel.run late_clear).

(** C40. [StopSession] gives up the runtime's lock before it clears the point
    store, so a client that configures in between loses its table: there is a
    reachable state in which a client owns a configured session and nobody is
    stopping one, but the store has no definitions, and every command of the
    owner is refused. *)
Theorem a_late_stop_wipes_a_new_session :
  ∃ (r : Runtime (Loop (E := Bench.env))) s se,
    reachable Panel.validTime Panel.urlParse Panel.isIP Panel.range true None r ∧
    rtOwner r = Some 2%nat ∧ rtSession r = Some s ∧ rtSessions r !! s = Some se ∧
    cPoints (seConfig se) = [Bench.lamp; Bench.speed; Bench.level] ∧
    ¬ stop_clearing r ∧ sDefinitions (rtStore r) = ∅ ∧
    ∀ e id action value v, checkCommand Panel.validTime (sDefinitions (rtStore r)) e id action value ≠ Ok v.
Proof.
  assert (reachable Panel.validTime Panel.urlParse Panel.isIP Panel.range true None late_state) as Hr
    by (apply (Panel.run_reachable late_clear); vm_compute; reflexivity).
  assert (sDefinitions (rtStore late_state) = ∅) as Hd by (apply map_to_list_empty_iff; vm_compute; reflexivity).
  assert (noStop late_state = true) as Hn by (vm_compute; reflexivity).
  assert (∃ se, rtSessions late_state !! 21%nat = Some se ∧ cPoints (seConfig se) = [Bench.lamp; Bench.speed; Bench.level])
    as (se & Hse & Hc) by (eexists; split; vm_compute; reflexivity).
  exists late_state, 21%nat, se. rewrite Hd.
  split_and!; [done|vm_compute; reflexivity|vm_compute; reflexivity|done|done|by apply noStop_clearing|done|].
  intros e id action value v. unfold checkCommand. case_match; [done|]. by rewrite lookup_empty.
Qed.

(** Client 1 scans and leaves, client 2 scans; the end of the first scan takes
    the registration of the second. *)
Definition scan_ (c n : nat) : act := AMessage c n None (InScan Panel.header "10.0.0.0/24" None None).
Definition two_scans : list act :=
  Panel.configured 1 11 ++ [scan_ 1 12; AError 1; AClient 1 20 0; AClient 1 20 0; AClient 1 20 0; AClient 1 20 0; AClient 1 20 0] ++
  Panel.configured 2 21 ++ [scan_ 2 22; AScan 12 ScanCanceled; scan_ 2 23].

Definition scanning : Runtime (Loop (E := Bench.env)) := default Panel.idle (Panel.run two_scans).

(** [endScan] unregisters whatever scan is registered, not its own: there is
    a reachable state in which two scans run at once and neither is cancelled,
    although a second scan is to be refused with BUSY, and only one of them can
    still be cancelled by [StopSession]. *)
Theorem two_scans_can_run_at_once :
  ∃ (r : Runtime (Loop (E := Bench.env))) n n' sc sc',
    reachable Panel.validTime Panel.urlParse Panel.isIP Panel.range true None r ∧ n ≠ n' ∧
    rtScans r !! n = Some sc ∧ scCancelled sc = false ∧ rtScans r !! n' = Some sc' ∧ scCancelled sc' = false ∧
    rtScanCancel r = Some n' ∧ rtScans (cancelScan r) !! n = Some sc.
Proof.
  exists scanning, 22%nat, 23%nat, (mkScanCell 2 "r1" "10.0.0.0/24" 502 1 "" false), (mkScanCell 2 "r1" "10.0.0.0/24" 502 1 "" false).
  split_and!; [|done|vm_compute; reflexivity..].
  apply (Panel.run_reachable two_scans). vm_compute. reflexivity.
Qed.
