(* ===== verification/ScanSpec.v ===== *)
(** * What the search for a PLC promises

    The properties of [internal/agent/plc_scan.go] and of the remembered
    endpoint ([plc_endpoint.go]), with instances at a small range. *)

From S2P Require Import Prelude GoText GoValue RuntimeConfig PointStore Storage Worker Easy521 SimServer WorkerLoop WorkerSpec DeviceSpec PlcScan PlcScanProofs Hmi HmiSteps HmiSpec.

#[local] Existing Instance Bench.bench_env.
#[local] Existing Instance Panel.panel_worker.

(** ** The range *)

(** C33. A scan probes exactly the hosts of its IPv4 prefix (all of its addresses,
    without the network and the broadcast address when it has more than two),
    each once and at most 256 of them, with at most 16 probes at a time; however
    the pool's goroutines interleave it can always run to its end, and when it
    has, its answer is what the probes found, sorted by address: the order in
    which they finished does not show. *)
Theorem a_scan_answers_for_every_host probe raw finished devices :
  (∀ a d, probe a = Some d → pdAddress d = addressText a) →
  scanRange probe raw finished devices →
  ∃ a bits hosts, parsePrefix raw = Some (a, bits) ∧ NoDup hosts ∧ (length hosts ≤ 256)%nat ∧
    (∀ x, x ∈ hosts ↔ host a bits x) ∧ devices = sortDevices (omap probe hosts) ∧
    (∀ p, pool_run probe (workerCount hosts) (startPool hosts) p →
       (length (spBusy p) ≤ 16)%nat ∧ ∃ q, pool_run probe (workerCount hosts) p q ∧ pool_done q).
Proof.
  intros Hp (hosts & Hs & Hr & Hd & ->).
  destruct (scanAddresses_ok raw hosts Hs) as (a & bits & E & Hb & Ha & Hnd & Hlen & Hel).
  exists a, bits, hosts. split_and!; try done; [lia| |].
  - apply sort_found; [auto| |by eapply pool_result]. apply Forall_forall. intros x Hx%Hel.
    apply (host_range a bits x); [done|lia|done].
  - intros p Hrun. destruct (pool_inv_run probe hosts (workerCount hosts) _ _ (pool_inv_start probe _ _) Hrun) as [Hw _].
    unfold workerCount, maxScanWorkers in *. split; [lia|]. apply pool_finishes. lia.
Qed.

(** One PLC, at 10.0.0.5. *)
Definition lonely (a : Z) : option plcDevice :=
  if a =? 167772165 then Some (deviceAt (mkEndpoint (addressText a) 502 1) "") else None.

Lemma scan_host_witness :
  scanAddresses "10.0.0.4/30" = Ok [167772165; 167772166] ∧
  ∃ a bits hosts, parsePrefix "10.0.0.4/30" = Some (a, bits) ∧
    [deviceAt (mkEndpoint "10.0.0.5" 502 1) ""] = sortDevices (omap lonely hosts).
Proof.
  split; [vm_compute; reflexivity|].
  destruct (a_scan_answers_for_every_host lonely "10.0.0.4/30" (mkPool [] [] [deviceAt (mkEndpoint "10.0.0.5" 502 1) ""])
    [deviceAt (mkEndpoint "10.0.0.5" 502 1) ""]) as (a & bits & hosts & E & _ & _ & _ & Hd & _).
  - intros a d. unfold lonely. destruct (a =? 167772165); [|discriminate]. intros Hd. injection Hd as <-. reflexivity.
  - exists [167772165; 167772166]. split; [vm_compute; reflexivity|]. split; [|split; [split; reflexivity|vm_compute; reflexivity]].
    apply (pool_more _ _ _ (mkPool [167772166] [167772165] [])); [apply (pool_take _ _ _ _ []); vm_compute; lia|].
    apply (pool_more _ _ _ (mkPool [167772166] [] [deviceAt (mkEndpoint "10.0.0.5" 502 1) ""]));
      [apply (pool_finish lonely _ _ [] 167772165 [])|].
    apply (pool_more _ _ _ (mkPool [] [167772166] [deviceAt (mkEndpoint "10.0.0.5" 502 1) ""]));
      [apply (pool_take _ _ _ _ []); vm_compute; lia|].
    apply (pool_more _ _ _ (mkPool [] [] [deviceAt (mkEndpoint "10.0.0.5" 502 1) ""]));
      [apply (pool_finish lonely _ _ [] 167772166 [])|apply pool_refl].
  - exists a, bits, hosts. split; assumption.
Defined.

(** ** The probe *)

(** The probe finds the register simulator at any address it answers on, with
    a device id that names the address, port and unit probed, and leaves its
    registers alone; it marks the device as selected exactly when it is the one
    in use. *)
Theorem the_probe_finds_the_simulator (n : SimNet) address port selected :
  registers_ok (snServer n) →
  let e := mkEndpoint (addressText address) port (svUnitID (snServer n)) in
  ∃ n', probePLC n address port (svUnitID (snServer n)) selected = (Some (deviceAt e selected), n') ∧
    snServer n' = snServer n.
Proof.
  intros Hr e. unfold probePLC, NewWithDial, validateConfig. cbn [cfgEndpoint cfgConnectTimeout cfgRequestTimeout].
  fold e. assert ((joinHostPort e =s "") = false) as ->.
  { apply String.eqb_neq. unfold joinHostPort. intros E. case_match; [discriminate E|].
    destruct (peHost e); [discriminate E|discriminate E]. }
  change (300 * millisecond <=? 0) with false. cbn [orb rbind].
  rewrite sim_read_ok; [by eexists|by split|done|unfold plcProbeRegister; lia..].
Qed.

Lemma probe_witness :
  ∃ n', probePLC freshNet 167772165 502 1 "" = (Some (deviceAt (mkEndpoint "10.0.0.5" 502 1) ""), n').
Proof.
  destruct (the_probe_finds_the_simulator freshNet 167772165 502 "" zeroRegisters) as (n' & Hn & _).
  exists n'. exact Hn.
Defined.

(** ** The remembered endpoint *)

(** A PLC that was found can be connected, remembered and found again: its
    device id is accepted as a connection request for exactly that endpoint; the
    endpoint passes every check of the store; and once it has been saved,
    the next [configure] loads exactly it and reconnects.  ([url.Parse] splits a
    device id into the parts it was made of.) *)
Theorem a_found_plc_is_remembered {W} `{PlcWorker W} validTime urlParse isIP (r : Runtime W) c e deviceHeader disk :
  urlParse (DeviceID e) = Some (deviceURL e) → isIP (peHost e) = true → peHost e ≠ ""%string → endpoint_ok e →
  validateRequestEnvelope validTime deviceHeader = true → rtDisk r = Some disk → stFaults disk = [] →
  handlePLCConnect validTime urlParse isIP c deviceHeader (DeviceID e) r =
    goto c (CConnect (enRequestID deviceHeader) e true) r ∧
  ∃ r', savePLCEndpoint e r = (true, r') ∧ (loadPLCEndpoint urlParse isIP r').1 = Some (Some e).
Proof.
  intros Hu Hip Hh Hok Hv Hd Hf. pose proof (parse_DeviceID urlParse isIP e Hu Hip Hh Hok) as Hp. split.
  - unfold handlePLCConnect. rewrite Hv, Hp. done.
  - unfold savePLCEndpoint. rewrite Hd. destruct Hok as [Hport Hunit].
    assert (validatePLCEndpoint (mkPLCEndpoint (peHost e) (pePort e) (peUnitID e)) = Ok tt) as Hval.
    { unfold validatePLCEndpoint. cbn [epHost epPort epUnitID]. rewrite (proj2 (String.eqb_neq _ _) Hh).
      by rewrite !(proj2 (Z.ltb_ge _ _)) by lia. }
    unfold SavePLCEndpoint, commit, gbind, glift, stmt, getDB, install. rewrite Hval, Hf. cbn. eexists. split; [done|].
    unfold loadPLCEndpoint. cbn. unfold LoadPLCEndpoint, gbind, stmt, getDB, glift, gret. cbn. rewrite Hf. cbn. rewrite Hval. cbn.
    rewrite wrap_id by (unfold in_range; lia). destruct e as [h p u]. cbn in *. by rewrite Hp.
Qed.

(** The endpoint of the panel, saved to an empty database. *)
Definition emptyDisk : Store := mkStore emptyDB true "" [].
Definition withDisk : Runtime (Loop (E := Bench.env)) := NewLocalRuntime (Some emptyDisk).

Lemma remembered_witness :
  Panel.urlParse (DeviceID Panel.plc) = Some (deviceURL Panel.plc) ∧
  ∃ r', savePLCEndpoint Panel.plc withDisk = (true, r') ∧
    (loadPLCEndpoint Panel.urlParse Panel.isIP r').1 = Some (Some Panel.plc).
Proof.
  split; [vm_compute; reflexivity|].
  refine (proj2 (a_found_plc_is_remembered Panel.validTime Panel.urlParse Panel.isIP withDisk 1%nat Panel.plc Panel.header
    emptyDisk _ _ _ _ _ _ _)).
  - vm_compute. reflexivity.
  - reflexivity.
  - discriminate.
  - split; vm_compute; split; congruence.
  - vm_compute. reflexivity.
  - reflexivity.
  - reflexivity.
Defined.
