(* ===== verification/HistorySpec.v ===== *)
(** * What the alarm history promises

    The properties of the alarm history ([storage/alarm_history_v2.go], its
    migration, [alarmhistory/service.go]) with instances on a short history. *)

From S2P Require Import Prelude GoTime AlarmHistory AlarmHistoryProofs.

(** ** A short history; its details are JSON texts *)

Module Diary.
Definition marshal (d : string) : option string := Some d.
Definition unmarshal (s : string) : option string := Some s.

Lemma json_back d s : marshal d = Some s → is_Some (unmarshal s).
Proof. by eexists. Defined.

(** 5 August 2026, 08:00 UTC. *)
Definition morning : Z := 1785916800000000000.
Definition alarm (id : string) (kind : string) (minute : Z) : AlarmRecord string :=
  mkAlarm id 0 "door" kind "door" "warning" "door open" (morning + minute * 60 * second) "{}".

Definition empty : AlarmLog := mkAlarmLog [] 0 [].
Definition query : HistoryQuery := mkHistoryQuery morning (morning + 3600 * second) 0 2.

Lemma keeps_empty : keeps marshal [] empty.
Proof. split; [constructor|constructor|constructor|vm_compute; split; congruence|constructor]. Defined.

Lemma query_ok : query_ok query.
Proof. repeat split; vm_compute; congruence. Defined.
End Diary.

(** ** The log *)

(** The alarm history is an append-only list of records.  Appending a record
    through the service puts it behind all others with the next cursor, and only
    then notifies, once; an invalid record, an id that is already there or a
    failing statement adds nothing and notifies nobody.  A query returns the
    first [limit] records of its interval of instants behind its cursor, whatever
    was appended when, and a next cursor exactly when there are more. *)
Theorem the_history_is_a_log {D N} (marshal : D → option string) (unmarshal : string → option D)
    (notify : AlarmRecord D → N → N) rs l n r q :
  (∀ d s, marshal d = Some s → is_Some (unmarshal s)) →
  keeps marshal rs l → Forall dated rs → query_ok q → ahFaults l = [] →
  match serviceAppend marshal true (Some notify) r (l, n) with
  | (Ok stored, (l', n')) =>
      stored = setCursor (ahSeq l + 1) r ∧ keeps marshal (rs ++ [stored]) l' ∧ n' = notify stored n
  | (Err _, (l', n')) => keeps marshal rs l' ∧ ahRows l' = ahRows l ∧ n' = n
  end ∧
  serviceList unmarshal true q l = (Ok (pageOf marshal unmarshal q rs), l).
Proof.
  intros Hj Hk Hd Hq Hf. split; [|by apply serviceList_spec].
  pose proof (appendRecord_spec marshal rs l r Hk) as Ha. unfold serviceAppend. cbn [negb fst snd].
  destruct (appendRecord marshal r l) as [[stored|e] l']; [destruct Ha as [-> Ha]|destruct Ha]; done.
Qed.

Lemma log_witness :
  serviceList Diary.unmarshal true Diary.query Diary.empty = (Ok (mkHistoryPage [] None false), Diary.empty).
Proof.
  destruct (the_history_is_a_log Diary.marshal Diary.unmarshal (fun r n => S n) [] Diary.empty 0%nat
    (Diary.alarm "a" "RAISED" 1) Diary.query Diary.json_back Diary.keeps_empty) as [_ Hl].
  - constructor.
  - exact Diary.query_ok.
  - reflexivity.
  - exact Hl.
Defined.

(** ** Pages *)

(** C29. A reader that follows the cursors of the pages reads every record of its
    interval exactly once and in order, although records are appended before
    each of its requests: what it has read is always a beginning of the matching
    records of the final table, and all of them once a page is the last, which is
    so as soon as it has asked more often than there are records. *)
Theorem cursors_read_the_history_once {D} (marshal : D → option string) (unmarshal : string → option D)
    schedule q rs l :
  (∀ d s, marshal d = Some s → is_Some (unmarshal s)) →
  keeps marshal rs l → Forall dated rs → Forall (Forall dated) schedule → query_ok q → ahFaults l = [] →
  let '(got, done, l') := readPages marshal unmarshal schedule q l in
  ∃ rs', keeps marshal rs' l' ∧ rs `prefix_of` rs' ∧
    got `prefix_of` map (reread marshal unmarshal) (filter (fun r => matches q r = true) rs') ∧
    (done = true → got = map (reread marshal unmarshal) (filter (fun r => matches q r = true) rs')) ∧
    ((length (filter (fun r => matches q r = true) rs') < length schedule)%nat → done = true).
Proof.
  intros Hj Hk Hd Hn Hq Hf. pose proof (readPages_spec marshal unmarshal Hj schedule q rs l Hk Hd Hn Hq Hf) as Hs.
  destruct (readPages _ _ _ _ _) as [[got done] l']. destruct Hs as (rs' & ? & ? & ? & ? & ? & ?). by exists rs'.
Qed.

(** Three pages of two, while alarms come in. *)
Definition news : list (list (AlarmRecord string)) :=
  [[Diary.alarm "a" "RAISED" 1; Diary.alarm "b" "CLEARED" 2; Diary.alarm "c" "RAISED" 90; Diary.alarm "d" "RAISED" 3];
   [Diary.alarm "e" "CLEARED" 4; Diary.alarm "a" "RAISED" 5]; []].

Lemma pages_witness :
  map hrAlarmRecordID (readPages Diary.marshal Diary.unmarshal news Diary.query Diary.empty).1.1 = ["a"; "b"; "d"; "e"] ∧
  ∃ rs', keeps Diary.marshal rs' (readPages Diary.marshal Diary.unmarshal news Diary.query Diary.empty).2 ∧
    (readPages Diary.marshal Diary.unmarshal news Diary.query Diary.empty).1.1 =
      map (reread Diary.marshal Diary.unmarshal) (filter (fun r => matches Diary.query r = true) rs').
Proof.
  split; [vm_compute; reflexivity|].
  pose proof (cursors_read_the_history_once Diary.marshal Diary.unmarshal news Diary.query [] Diary.empty
    Diary.json_back Diary.keeps_empty (List.Forall_nil _)) as Ht.
  assert ((readPages Diary.marshal Diary.unmarshal news Diary.query Diary.empty).1.2 = true) as Hdone by (vm_compute; reflexivity).
  destruct (readPages Diary.marshal Diary.unmarshal news Diary.query Diary.empty) as [[got done] l'].
  destruct Ht as (rs' & Hk & _ & _ & Hg & _).
  - repeat constructor.
  - exact Diary.query_ok.
  - reflexivity.
  - exists rs'. split; [exact Hk|]. apply Hg. exact Hdone.
Defined.

(** ** The migration *)

(** Opening the store loses no alarm: the migration of an older alarm table
    either succeeds with the current schema, and then the table was current and
    is untouched, or its rows are in the new table, each with its cursor and in
    cursor order, and in the archive with all their columns, and new cursors
    start behind them; or it fails, and then nothing has changed. *)
Theorem a_migration_loses_no_alarm db :
  match ensureAlarmHistoryV2Schema db with
  | (Ok _, db') => schemaMatches (hdColumns db') = true ∧ (same_history db db' ∨ migrated db db')
  | (Err _, db') => same_history db db'
  end.
Proof. pose proof (ensure_spec db) as Hs. unfold wp in Hs. by destruct (ensureAlarmHistoryV2Schema db) as [[[]|e] db']. Qed.
