(* ===== verification/MqttSpec.v ===== *)
(** * What the link to the data hub promises

    The properties of [internal/mqttv2]: the wire format, what the manager lets
    out, history requests end to end, and the life of the connection. *)

From stdpp Require Import relations.
From S2P Require Import Prelude GoText GoValue GoTime PointStore AlarmHistory AlarmHistoryProofs HistorySpec MqttPacket MqttManager MqttProofs MqttSession.

(** ** The wire *)

(** What the client writes can be read back: a publication of any topic and
    payload that fit MQTT goes out as one packet; followed by anything, that
    packet is read with the rest left over, and taken apart it is the
    publication again; and a part of the packet is waited for, however TCP
    splits it. *)
Theorem publications_survive_the_wire p :
  1 ≤ Z.of_nat (String.length (pbTopic p)) < 2 ^ 16 → Z.of_nat (String.length (pbPayload p)) < 2 ^ 27 →
  pbQoS p = 0 → pbRetain p = false →
  ∃ wire, clientPublish true p = Ok wire ∧
    (∀ rest, ∃ payload, readPacket (wire ++ rest) = PacketOk 48 payload rest ∧ handlePublish 48 payload = Ok p) ∧
    (∀ k, (k < length wire)%nat → readPacket (take k wire) = PacketShort).
Proof.
  intros Ht Hp Hq Hr. assert (Z.of_nat (length (publishPayload p)) < 2 ^ 28) as Hl.
  { unfold publishPayload, mqttString. cbn [app length]. rewrite length_app. cbn [length]. rewrite !length_bytesOf. lia. }
  eexists. split; [unfold clientPublish; by rewrite Hq, Hr|]. split; [|intros k; by apply readPacket_partial].
  intros rest. eexists. split; [by apply readPacket_packet|]. rewrite handlePublish_publish by done.
  destruct p as [topic payload qos retain]. cbn in *. by rewrite Hq, Hr.
Qed.

Lemma wire_witness :
  clientPublish true (mkPublication "a/b" "{}" 0 false) = Ok [48; 8; 0; 3; 97; 47; 98; 0; 123; 125] ∧
  ∃ payload, readPacket ([48; 8; 0; 3; 97; 47; 98; 0; 123; 125] ++ [192; 0]) = PacketOk 48 payload [192; 0] ∧
    handlePublish 48 payload = Ok (mkPublication "a/b" "{}" 0 false).
Proof.
  split; [vm_compute; reflexivity|].
  destruct (publications_survive_the_wire (mkPublication "a/b" "{}" 0 false)) as (wire & Hw & Hr & _);
    [vm_compute; split; congruence|vm_compute; reflexivity|reflexivity|reflexivity|].
  assert (wire = [48; 8; 0; 3; 97; 47; 98; 0; 123; 125]) as -> by (injection Hw as <-; vm_compute; reflexivity).
  exact (Hr [192; 0]).
Defined.

(** C38. What a broker writes reaches the handler.  A connection is served while
    bytes arrive in any pieces, pings go out and rounds of the reader come when
    they come.  If the stream is publications, each as the client would write it,
    and other packets, the handler gets a part of the publications at any time,
    each once and in their order, up to the first that it refuses, and all of them
    once the reader waits or has failed; the reader fails with the handler's error
    or because the connection has ended; and [serve] returns only when the context
    has ended, the reader has failed or a ping could not be written. *)
Theorem publications_reach_the_handler {S} (OnMessage : Publication → S → result mqtt_error unit * S) items events rest s c :
  Forall item_ok items → rest ++ arrivedOf events = wireOf items →
  serveRun OnMessage events (startServing rest s) = Some c →
  let ps := omap publicationOf items in
  Forall (fun p => ∃ wire, clientPublish true p = Ok wire ∧ WirePublication p ∈ items ∧ itemWire (WirePublication p) = wire) ps ∧
  (∃ k, cnState c = (deliver OnMessage (take k ps) s).2) ∧
  (readRound OnMessage c = None → cnState c = (deliver OnMessage ps s).2) ∧
  (∀ e, cnReader c = Some e → (deliver OnMessage ps s).1 = Err e ∨ (deliver OnMessage ps s).1 = Ok tt ∧ is_Some (cnEnd c)) ∧
  (∀ r, cnServe c = Some r →
     r = Ok tt ∧ cnCancelled c = true ∨ ∃ e, r = Err e ∧ (cnReader c = Some e ∨ ∃ f, e = MEIO f ∧ SvPing (Some f) ∈ events)) ∧
  ∃ n, cnWritten c = mjoin (replicate n [192; 0]).
Proof.
  intros Hok Hw Hrun ps. destruct (serveRun_spec OnMessage events (startServing rest s) c items Hok eq_refl Hw Hrun) as (H1 & H2 & H3).
  destruct (serveRun_serve OnMessage _ _ _ Hrun eq_refl) as (H4 & H5). split.
  - apply Forall_forall. intros p Hp. apply list_elem_of_omap in Hp as (item & Hin & Hp). destruct item as [p'|]; [|done].
    injection Hp as ->. rewrite Forall_forall in Hok. destruct (Hok _ Hin) as (_ & _ & Hq & Hr).
    eexists. split; [unfold clientPublish; by rewrite Hq, Hr|]. by split.
  - split; [exact H1|]. split; [intros Hn; by apply H2|]. split; [exact H3|]. split; [exact H4|exact H5].
Qed.

(** A message that is split and followed by the next one in the same piece, with a
    ping's answer in between. *)
Lemma handler_witness :
  serveRun (fun p s => (Ok tt, s ++ [pbTopic p]))
    [SvArrive [48; 8; 0; 3; 97; 47]; SvPing None; SvArrive [98; 0; 123; 125; 208; 0; 48; 5; 0; 1; 99; 0; 49]; SvRound; SvRound; SvRound]
    (startServing [] []) =
    Some (mkServing [] None None ["a/b"; "c"]%string false [192; 0] None) ∧
  ["a/b"; "c"]%string = (deliver (fun p s => (Ok tt, s ++ [pbTopic p]))
    [mkPublication "a/b" "{}" 0 false; mkPublication "c" "1" 0 false] []).2.
Proof.
  split; [vm_compute; reflexivity|].
  destruct (publications_reach_the_handler (fun p s => (Ok tt, s ++ [pbTopic p]))
    [WirePublication (mkPublication "a/b" "{}" 0 false); WireOther 208 []; WirePublication (mkPublication "c" "1" 0 false)]
    [SvArrive [48; 8; 0; 3; 97; 47]; SvPing None; SvArrive [98; 0; 123; 125; 208; 0; 48; 5; 0; 1; 99; 0; 49]; SvRound; SvRound; SvRound]
    [] [] (mkServing [] None None ["a/b"; "c"]%string false [192; 0] None)) as (_ & _ & H & _).
  - rewrite !Forall_cons, Forall_nil; cbn [item_ok]; split_and!; first [done|vm_compute; congruence].
  - vm_compute. reflexivity.
  - vm_compute. reflexivity.
  - exact (H eq_refl).
Defined.

(** ** The manager *)

Section manager.
Context {D H : Type} `{HistoryReader D H}.
Variables (encode : Source → document D → option string) (fingerprint : gmap string PointValue → string)
  (decodeStateGet : string → option StateGet) (decodeQuery : string → option AlarmHistoryQuery)
  (parseRFC3339 : string → option Z).

End manager.

(** A hub with one block; documents are encoded by their kind. *)
Module Hub.
Definition source : Source := mkSource "site" "block" "device".
Definition encode (s : Source) (d : document string) : option string :=
  Some match d with StateCurrent _ _ _ _ => "state" | AlarmNotification _ _ => "alarm" | AlarmHistoryPage _ _ => "page" end%string.
Definition fingerprint (points : gmap string PointValue) : string :=
  String.concat "," (map (fun kv => match pvValue kv.2 with VBool true => kv.1 | _ => "-"%string end) (map_to_list points)).
Definition noStateGet (s : string) : option StateGet := None.
Definition requestID : string := "315a1ea6-1cdc-47d9-96f9-b4f80ffbda7c".
Definition decodeQuery (s : string) : option AlarmHistoryQuery :=
  Some (mkAlarmHistoryQuery "alarm.history.query" "2.0" requestID source "2026-08-05T08:00:00Z" "2026-08-05T09:00:00Z" None 2).
Definition parse (s : string) : option Z :=
  if s =s "2026-08-05T08:00:00Z" then Some Diary.morning
  else if s =s "2026-08-05T09:00:00Z" then Some (Diary.morning + 3600 * second) else None.

#[export] Instance diary_reader : HistoryReader string AlarmLog := history_reader Diary.unmarshal.

Definition lamp (on : bool) : MqttSnapshot :=
  mkMqttSnapshot {["lamp"%string := mkPointValue (VBool on) "good" Diary.morning None]} Diary.morning.
End Hub.
#[local] Existing Instance Hub.diary_reader.

(** Runs of the hub: it connects, a snapshot is observed, a publication is sent. *)
Abbreviation hub_reachable :=
  (link_reachable Hub.encode Hub.fingerprint Hub.noStateGet Hub.decodeQuery Hub.parse Hub.source 0 Diary.empty).

Definition connects (now : Z) (l : Link (H := AlarmLog)) : Link (H := AlarmLog) :=
  let '(r, m) := Connected Hub.encode Hub.fingerprint now now (lkManager l) in
  mkLink m (lkHistory l) (lkPending l ++ sending r) (lkSent l) (lkObserved l) (lkTurns l ++ [turnOf CConnected now r m]).

Definition observes (snapshot : MqttSnapshot) (now : Z) (l : Link (H := AlarmLog)) : Link (H := AlarmLog) :=
  let '(r, m) := ObserveSnapshot Hub.encode Hub.fingerprint snapshot now (lkManager l) in
  mkLink m (lkHistory l) (lkPending l ++ sending r) (lkSent l) (lkObserved l ++ [snapshot])
    (lkTurns l ++ [turnOf CObserved now r m]).

Definition sends (l : Link (H := AlarmLog)) : Link (H := AlarmLog) :=
  match lkPending l with
  | PSend p :: behind => mkLink (lkManager l) (lkHistory l) behind (lkSent l ++ [p]) (lkObserved l) (lkTurns l)
  | _ => l
  end.

Lemma connects_reachable now l : hub_reachable l → hub_reachable (connects now l).
Proof.
  intros Hl. unfold connects. destruct (Connected _ _ _ _ _) as [r m'] eqn:E. eapply link_next; [exact Hl|].
  destruct l. by eapply link_connected.
Defined.

Lemma observes_reachable snapshot now l : hub_reachable l → hub_reachable (observes snapshot now l).
Proof.
  intros Hl. unfold observes. destruct (ObserveSnapshot _ _ _ _ _) as [r m'] eqn:E. eapply link_next; [exact Hl|].
  destruct l. by eapply link_observe.
Defined.

Lemma sends_reachable l : hub_reachable l → hub_reachable (sends l).
Proof.
  intros Hl. unfold sends. destruct l as [m h [|[p|] behind] sent obs turns]; cbn; [done| |done].
  eapply link_next; [exact Hl|]. apply (link_send _ _ _ _ _ []).
Defined.

(** The hub is connected, and the lamp is seen on, on again, and off. *)
Definition lit : Link (H := AlarmLog) :=
  sends (sends (observes (Hub.lamp false) (Diary.morning + 4) (observes (Hub.lamp true) (Diary.morning + 3)
    (observes (Hub.lamp true) (Diary.morning + 2)
      (connects (Diary.morning + 1) (mkLink (NewManager Hub.source 0) Diary.empty [] [] [] [])))))).

Lemma lit_reachable : hub_reachable lit.
Proof.
  apply sends_reachable, sends_reachable, observes_reachable, observes_reachable, observes_reachable, connects_reachable, link_start.
Defined.


(** ** Requests *)

(** The hub reads the alarm history through the link: a history request that
    passes the manager's checks is answered with the page of the history service,
    under the request's id, unless the page is larger than 64 KiB; so the hub
    sees exactly the records of its interval behind its cursor.  And requests are
    read-only: whatever the message, the history, the connection and the latest
    state are what they were. *)
Theorem history_requests_are_answered {D} (marshal : D → option string) (unmarshal : string → option D)
    encode fingerprint decodeStateGet decodeQuery parseRFC3339 inbound now m rs l :
  (∀ d s, marshal d = Some s → is_Some (unmarshal s)) →
  (∀ s t, parseRFC3339 s = Some t → hasSuffixZ s = true → fourDigitYear t = true) →
  keeps marshal rs l → Forall dated rs → ahFaults l = [] →
  let handle := HandleInbound (H0 := history_reader unmarshal) encode fingerprint decodeStateGet decodeQuery parseRFC3339 in
  (∀ id q, checkInbound decodeStateGet decodeQuery parseRFC3339 inbound m = Ok (HistoryRequest id q) →
     0 ≤ hqAfterCursor q < 2 ^ 63 →
     handle inbound now m l =
       (rbind (publicationFor encode m (tpAlarmHistoryPage (mgTopics m))
                 (AlarmHistoryPage id (pageOf marshal unmarshal q rs))) (fun p => Ok (Some p)), m, l)) ∧
  let '(_, m', l') := handle inbound now m l in
  ahRows l' = ahRows l ∧ mgConnected m' = mgConnected m ∧ mgLatest m' = mgLatest m.
Proof.
  intros Hj Hp Hk Hd Hf handle. split.
  - intros id q Hc Ha. unfold handle, HandleInbound. rewrite Hc. unfold answerHistoryQuery. cbn [hList history_reader].
    assert (query_ok q) as Hq.
    { unfold checkInbound in Hc. do 2 (case_match; [by try (destruct (checkStateGet _ _ _))|]). case_match; [|done].
      destruct (checkHistoryQuery _ _ _ _) as [[id' q']|] eqn:E; [|done]. injection Hc as -> ->. by eapply checked_query. }
    pose proof (serviceList_spec marshal unmarshal Hj rs l q Hk Hd Hq Hf) as Hs. rewrite Hs.
    by rewrite (serviceList_valid unmarshal q l _ l Hs).
  - unfold handle, HandleInbound. destruct (checkInbound _ _ _ _ _) as [[id|id q]|e]; [| |done].
    + destruct (currentPublicationLocked _ _ _ _ _ _) as [r m'] eqn:E. unfold currentPublicationLocked in E.
      repeat (case_match; simplify_eq/=; try done).
    + unfold answerHistoryQuery. cbn [hList history_reader].
      destruct (serviceList unmarshal true q l) as [r l'] eqn:E. assert (ahRows l' = ahRows l) as Hr by by eapply serviceList_rows.
      destruct r; [by destruct (validatePage _)|done].
Qed.

Definition hubQuery : Publication := mkPublication "bdm/v2/sites/site/blocks/block/down/alarm-history/query" "{}" 0 false.
Definition opened : AlarmRecord string := Diary.alarm "a" "RAISED" 1.
Definition oneAlarm : AlarmLog := (appendRecord Diary.marshal opened Diary.empty).2.

Lemma request_witness :
  checkInbound Hub.noStateGet Hub.decodeQuery Hub.parse hubQuery (lkManager lit) =
    Ok (HistoryRequest Hub.requestID (mkHistoryQuery Diary.morning (Diary.morning + 3600 * second) 0 2)) ∧
  HandleInbound Hub.encode Hub.fingerprint Hub.noStateGet Hub.decodeQuery Hub.parse hubQuery 0 (lkManager lit) oneAlarm =
    (Ok (Some (mkPublication "bdm/v2/sites/site/blocks/block/up/alarm-history/page" "page" 0 false)), lkManager lit, oneAlarm).
Proof.
  assert (checkInbound Hub.noStateGet Hub.decodeQuery Hub.parse hubQuery (lkManager lit) =
    Ok (HistoryRequest Hub.requestID (mkHistoryQuery Diary.morning (Diary.morning + 3600 * second) 0 2))) as Hc
    by (vm_compute; reflexivity).
  split; [exact Hc|].
  destruct (history_requests_are_answered Diary.marshal Diary.unmarshal Hub.encode Hub.fingerprint Hub.noStateGet Hub.decodeQuery
    Hub.parse hubQuery 0 (lkManager lit) [setCursor 1 opened] oneAlarm Diary.json_back) as [Ha _].
  - intros s t. unfold Hub.parse. destruct (s =s "2026-08-05T08:00:00Z");
      [|destruct (s =s "2026-08-05T09:00:00Z"); [|discriminate]]; intros E _; injection E as <-; vm_compute; reflexivity.
  - exact (proj2 (appendRecord_spec Diary.marshal [] Diary.empty opened Diary.keeps_empty)).
  - repeat constructor.
  - reflexivity.
  - etransitivity; [apply (Ha _ _ Hc); split; vm_compute; congruence|vm_compute; reflexivity].
Defined.

(** ** The connection *)

(** When the session receives each signal before the client sends the next,
    the manager is connected exactly while the client has a connection, whenever
    no signal is on its way; and in every run, however signals race, a session
    that has ended is disconnected, and its client, once it is done, has closed
    its connection. *)
Theorem the_manager_follows_the_connection s :
  (rtc prompt_step startSession s → ssRunning s = true → ssConnected s = false → ssDisconnected s = false →
     ssManager s = match ssConnection s with Some _ => true | None => false end) ∧
  (session_reachable s →
     (ssRunning s = false → ssManager s = false ∧ ssCancelled s = true) ∧
     (ssPhase s = ClientDone → ssConnection s = None)).
Proof.
  split.
  - intros [_ [_ Hm]]%prompt_ok_reachable Hr Hc Hd. specialize (Hm Hr). by rewrite Hc, Hd in Hm.
  - intros [Hc Hs]%session_ok_reachable. split; [done|]. intros E. by rewrite E in Hc.
Qed.

Lemma connection_witness :
  ∃ s, rtc prompt_step startSession s ∧ ssConnection s = Some 1%nat ∧ ssManager s = true.
Proof.
  set (s1 := dialed 1 startSession).
  set (s2 := mkSession (ssPhase s1) (ssConnection s1) false (ssDisconnected s1) true true (ssCancelled s1)).
  assert (rtc prompt_step startSession s2) as Hr.
  { eapply rtc_l; [|eapply rtc_once].
    - split; [exact (se_dialed 1 startSession eq_refl)|intros [E|E]; discriminate E].
    - split; [exact (se_connected s1 eq_refl eq_refl)|reflexivity]. }
  exists s2. split; [exact Hr|]. split; [reflexivity|].
  exact (proj1 (the_manager_follows_the_connection s2) Hr eq_refl eq_refl eq_refl).
Defined.

(** A reconnect whose two signals are received in the wrong order leaves the
    session silent: the client is connected, no signal is on its way, but the
    manager believes it is not, so it publishes nothing and refuses requests. *)
Theorem a_reconnect_can_leave_the_session_silent :
  ∃ s, session_reachable s ∧ ssRunning s = true ∧ ssCancelled s = false ∧
    ssConnection s = Some 2%nat ∧ ssConnected s = false ∧ ssDisconnected s = false ∧ ssManager s = false.
Proof.
  set (s1 := dialed 1 startSession).
  set (s2 := mkSession (ssPhase s1) (ssConnection s1) false (ssDisconnected s1) true true (ssCancelled s1)).
  set (s3 := clearConnection 1 s2). set (s4 := toPhase ClientDialing s3). set (s5 := dialed 2 s4).
  set (s6 := mkSession (ssPhase s5) (ssConnection s5) false (ssDisconnected s5) true true (ssCancelled s5)).
  set (s7 := mkSession (ssPhase s6) (ssConnection s6) (ssConnected s6) false false true (ssCancelled s6)).
  exists s7. split; [|done]. unfold session_reachable.
  eapply rtc_l; [exact (se_dialed 1 startSession eq_refl)|]. eapply rtc_l; [exact (se_connected s1 eq_refl eq_refl)|].
  eapply rtc_l; [exact (se_lost 1 s2 eq_refl)|]. eapply rtc_l; [exact (se_slept s3 eq_refl eq_refl)|].
  eapply rtc_l; [exact (se_dialed 2 s4 eq_refl)|]. eapply rtc_l; [exact (se_connected s5 eq_refl eq_refl)|].
  eapply rtc_l; [exact (se_disconnected s6 eq_refl eq_refl)|apply rtc_refl].
Qed.
