(* ===== verification/AuthSpec.v ===== *)
(** * What the local accounts promise

    The properties of [internal/auth], its store and its handlers, with instances
    on a fresh database. *)

From Stdlib Require Import Ascii String.
From S2P Require Import Prelude GoText Interleave Auth AuthProofs.

(** ** A fresh database, and a key function for the examples *)

Module Accounts.
(** As many bytes as asked for, from the password and the salt. *)
Definition idKey (password salt : list Z) (_ _ _ : Z) (n : Z) : list Z :=
  take (Z.to_nat n) (map u8 (password ++ salt) ++ repeat 0 (Z.to_nat n)).

#[export] Instance idKey_argon : Argon idKey.
Proof.
  split; intros.
  - unfold idKey. rewrite length_take, length_app, repeat_length. lia.
  - apply Forall_take, Forall_app. split.
    + apply Forall_forall. intros b Hb. apply list_elem_of_fmap in Hb as (x & -> & _). by apply wrap_range.
    + apply Forall_forall. intros b Hb%list_elem_of_In%repeat_spec. subst. done.
Defined.

Definition salt : list Z := repeat 7 16.
Definition fresh : AuthDB := mkAuthDB ∅ (Some 300) [].

Lemma salt_ok_salt : salt_ok salt.
Proof. split; [reflexivity|]. cbn. repeat (constructor; [split; vm_compute; congruence|]). constructor. Defined.

Lemma accounts_ok : auth_ok fresh.
Proof. split; [apply map_Forall_empty|]. exists 300. split; [reflexivity|split; vm_compute; congruence]. Defined.

(** Two setups at once. *)
Definition setup (username : string) : Proc AuthDB Response :=
  bootstrap idKey true "POST" (Some (username, "secret", "secret")%string) (Ok salt).

Definition race (schedule : list nat) : Server AuthDB Response :=
  play schedule (mkServer fresh false [setup "ann"; setup "bob"] []).

(** Bob runs between the statements of Ann; whoever has the mutex first wins. *)
Definition schedule : list nat := [1; 0; 1; 0; 1; 0; 1; 1; 0; 0; 1; 0; 0; 0; 0; 0]%nat.

Definition oldHash : string :=
  match HashPassword idKey (Ok salt) "old" with Ok h => h | Err _ => "" end.
Definition withAnn : AuthDB := mkAuthDB {["ann" := (oldHash, RoleOperator)]} (Some 300) [].
Definition newHash : string :=
  match HashPassword idKey (Ok salt) "new" with Ok h => h | Err _ => "" end.

Lemma withAnn_ok : auth_ok withAnn.
Proof.
  split; [apply map_Forall_singleton; reflexivity|]. exists 300. split; [reflexivity|split; vm_compute; congruence].
Defined.
End Accounts.

(** ** Setup *)

(** C11. However the requests of any number of clients interleave, whatever
    statements fail: a database that starts with at most one administrator never
    has two, and [POST bootstrap] is answered [201] at most once, and never when
    there was an administrator to begin with; roles stay valid, and the idle
    timeout stays one with which the service starts again. *)
Theorem setup_makes_one_administrator idKey db v :
  auth_ok db → (size (adminNames db) ≤ 1)%nat →
  server_reachable (auth_request idKey) same_tables db v →
  (size (adminNames (ssState v)) ≤ 1)%nat ∧
  (size (adminNames db) + countIf created (ssAnswers v) ≤ size (adminNames (ssState v)))%nat ∧
  map_Forall (fun _ row => roleValid row.2 = true) (adAccounts (ssState v)) ∧
  (adFaults (ssState v) = [] → NewService (ssState v) = (Ok tt, ssState v)).
Proof.
  intros Hok H1 Hv. destruct (setup_reachable _ idKey db v Hok H1 eq_refl Hv) as ([Hr (seconds & Hs & Hb)] & H2 & H3).
  split; [done|]. split; [lia|]. split; [done|]. intros Hf. unfold NewService, queryIdleTimeout, gbind, authStatement, gget, gret.
  rewrite Hf, Hs. rewrite swrap_id by (unfold second; change (2 ^ (64 - 1)) with 9223372036854775808; lia).
  by rewrite (proj2 (validIdleTimeout_iff _)) by eauto.
Qed.

Lemma setup_witness :
  map rsStatus (ssAnswers (Accounts.race Accounts.schedule)) = [201; 409] ∧
  (size (adminNames (ssState (Accounts.race Accounts.schedule))) ≤ 1)%nat.
Proof.
  split; [vm_compute; reflexivity|].
  apply (setup_makes_one_administrator Accounts.idKey Accounts.fresh (Accounts.race Accounts.schedule) Accounts.accounts_ok).
  - vm_compute. repeat constructor.
  - unfold server_reachable. apply (transitivity (y := mkServer Accounts.fresh false [Accounts.setup "ann"; Accounts.setup "bob"] [])).
    + apply requests_reachable. repeat constructor.
    + apply play_steps.
Defined.

(** ** Passwords *)

(** A password is changed only by a request that knows the current one, and
    the new one is then the only one that opens the account: as long as the
    account's row stays, a login with a valid password succeeds, with the name
    and role of the account, exactly if the password has the key of the new one
    under the salt.  The change touches no other account and no role; a change
    that fails at any point changes nothing. *)
Theorem a_new_password_is_the_only_key idKey salt u current new db r db' :
  Argon idKey → salt_ok salt → auth_ok db →
  exec (ChangePassword idKey (Ok salt) u current new) db = (r, db') →
  match r with
  | Err _ => adAccounts db' = adAccounts db
  | Ok _ => ∃ hash role, adAccounts db !! u = Some (hash, role) ∧ VerifyPassword idKey hash current = true ∧
      delete u (adAccounts db') = delete u (adAccounts db) ∧
      ∀ db1 pw, adAccounts db1 !! u = adAccounts db' !! u → adFaults db1 = [] → validatePassword pw = Ok tt →
        exec (Login idKey u pw) db1 =
          (if bool_decide (keyOf idKey salt pw = keyOf idKey salt new) then Ok (mkIdentity u role)
           else Err ErrInvalidCredentials, db1)
  end.
Proof.
  intros HA Hsalt Hok Hx. pose proof (ChangePassword_spec _ _ _ _ _ _ _ _ Hok Hx) as Hc.
  destruct r as [[]|e]; [|done]. destruct Hc as (Hu & hash & role & hash' & Hrow & Hv & Hh & Hdb'). rewrite Hdb'.
  exists hash, role. split; [done|]. split; [done|]. split; [by rewrite delete_insert_eq|].
  intros db1 pw Hdb1 Hf Hpw. rewrite lookup_insert_eq in Hdb1. rewrite (Login_row _ _ _ _ Hf Hu Hpw), Hdb1.
  rewrite (VerifyPassword_HashPassword _ _ _ _ _ HA Hsalt Hh). by case_bool_decide.
Qed.

Lemma new_password_witness :
  exec (Login Accounts.idKey "ann" "new") (mkAuthDB {["ann" := (Accounts.newHash, RoleOperator)]} (Some 300) []) =
    (Ok (mkIdentity "ann" RoleOperator), mkAuthDB {["ann" := (Accounts.newHash, RoleOperator)]} (Some 300) []).
Proof.
  destruct (a_new_password_is_the_only_key Accounts.idKey Accounts.salt "ann" "old" "new" Accounts.withAnn (Ok tt)
    (mkAuthDB {["ann" := (Accounts.newHash, RoleOperator)]} (Some 300) []) Accounts.idKey_argon Accounts.salt_ok_salt Accounts.withAnn_ok)
    as (hash & role & Hrow & _ & _ & Hl).
  - vm_compute. reflexivity.
  - vm_compute in Hrow. injection Hrow as _ <-. apply (Hl _ "new"); vm_compute; reflexivity.
Defined.

(** ** The idle timeout *)

(** The handler accepts a number of seconds exactly if its remainder by
    2^55 is from 60 to 3600, because the product with a second wraps at 64 bits;
    it stores this remainder, and answers with the number it was sent.  So every
    timeout within the bounds is stored as it is, and what is stored always is
    within the bounds; but a huge number is answered as accepted while a small one
    was stored. *)
Theorem timeouts_are_taken_modulo_2_55 n db :
  - 2 ^ 63 ≤ n < 2 ^ 63 → auth_ok db → adFaults db = [] →
  exec (sessionPolicy true "PUT" (Some n)) db =
    let m := n mod 2 ^ 55 in
    if (60 <=? m) && (m <=? 3600)
    then (mkResponse 200 (BodyIdleTimeout n), mkAuthDB (adAccounts db) (Some m) [])
    else (writeAuthError ErrInvalidIdleTimeout, db).
Proof.
  intros Hn [_ (old & Ho & _)] Hf. unfold sessionPolicy, answer, SetIdleTimeout. cbn [negb].
  change ("PUT" =s "GET") with false. change ("PUT" =s "PUT") with true. cbn iota. rewrite exec_bind.
  set (m := n mod 2 ^ 55). cbv zeta. destruct ((60 <=? m) && (m <=? 3600)) eqn:Hm.
  - apply andb_true_iff in Hm as [H1%Z.leb_le H2%Z.leb_le].
    rewrite (proj2 (seconds_modulo n m Hn ltac:(lia)) eq_refl).
    rewrite (proj2 (validIdleTimeout_iff _)) by eauto. cbn [negb]. unfold storeSetIdleTimeout, MinIdleTimeout, MaxIdleTimeout.
    rewrite Z.rem_mul by done. unfold second. rewrite !(proj2 (Z.ltb_ge _ _)) by lia. cbn [orb negb Z.eqb].
    rewrite Z.quot_mul by done. rewrite exec_call. unfold updateIdleTimeout, gbind, gget, gmod, authStatement. rewrite Hf, Ho.
    rewrite !(proj2 (Z.leb_le _ _)) by lia. cbn [andb exec]. by rewrite Hf.
  - destruct (validIdleTimeout (i64 (n * second))) eqn:Hv; [|done]. exfalso.
    apply validIdleTimeout_iff in Hv as (k & Hk & E). apply seconds_modulo in E; [|done|done]. fold m in E. subst k.
    apply andb_false_iff in Hm as [H%Z.leb_gt|H%Z.leb_gt]; lia.
Qed.

Lemma timeouts_witness :
  exec (sessionPolicy true "PUT" (Some 36028797018964268)) Accounts.fresh =
    (mkResponse 200 (BodyIdleTimeout 36028797018964268), mkAuthDB ∅ (Some 300) []).
Proof.
  rewrite (timeouts_are_taken_modulo_2_55 36028797018964268 Accounts.fresh); [vm_compute; reflexivity| |exact Accounts.accounts_ok|reflexivity].
  vm_compute. split; congruence.
Defined.
