(* ===== verification/SshSpec.v ===== *)
(** * What the SSH bootstrap promises

    The properties of [internal/sshbootstrap], with instances on a small node. *)

From Stdlib Require Import Ascii String.
From stdpp Require Import pretty.
From S2P Require Import Prelude GoText Interleave Auth AuthProofs AuthSpec SshBootstrap SshProofs SshKeys.

(** ** A node, its administrator, and a request *)

Module Node.
(** For the examples: a digest of fixed length, and a signature that repeats a
    byte of the signed text's length. *)
Definition sha256 (l : list Z) : list Z := repeat (u8 (foldr Z.add 0 l)) 32.
Definition verify (text : string) (signature : list Z) : bool :=
  bool_decide (signature = repeat (u8 (Z.of_nat (String.length text))) 64).

Definition key : list Z := repeat 5 32.
Definition publicKey : string :=
  String.append "ssh-ed25519 " (String.append (EncodeToString StdEncoding (ed25519Blob key)) " ann").
Definition request : CertificateRequest := mkRequest "BLOCK" "site-1" "block-1" "device-1" "debug" publicKey.
Definition body : list Z := bytesOf "request".
Definition json (b : list Z) : option CertificateRequest := if bool_decide (b = body) then Some request else None.
Definition parseMediaType (s : string) : option string := Some s.
Definition keygen (requestID principal : string) (_ _ : Z) (line : string) : option string :=
  Some (String.append "ssh-ed25519-cert-v01@openssh.com " line).

Definition config : Config :=
  mkConfig "BLOCK" "site-1" "block-1" "device-1" "block.local" 22 "admin" ["/etc/a"; "/etc/b"]%string
    (String.append "SHA256:" "0123456789012345678901234567890123456789012") "release" "debug".

Definition start : Z := 1785916800.
(** The token of the administrator at an instant, with one repeated byte as its nonce. *)
Definition nonceText (b : Z) : string := EncodeToString RawURLEncoding (repeat b 16).
Definition signature (ts b : Z) : list Z :=
  let token := mkToken "admin" ts (pretty ts) (nonceText b) [] in
  repeat (u8 (Z.of_nat (String.length (CanonicalBytes sha256 token "POST" certificatePath body (identityOf request))))) 64.
Definition header (ts b : Z) : string :=
  headerText "admin" (pretty ts) (nonceText b) (EncodeToString RawURLEncoding (signature ts b)).
Definition signed (ts b : Z) : SuperToken := mkToken "admin" ts (pretty ts) (nonceText b) (signature ts b).

Definition http (ts b : Z) : HttpRequest :=
  mkHttp "POST" certificatePath "" "" "application/json" (Some body) [header ts b].
(** A request with the token of [ts], handled at the clock reading [at_]. *)
Definition arrive (ts b at_ : Z) : arrival := mkArrival (http (start + ts) b) (Some "id"%string) ((start + at_) * second).
Definition serve (arrivals : list arrival) : list ssh_response :=
  (serveAll sha256 verify json parseMediaType keygen config arrivals (mkNonceDB ∅ [])).1.

Definition isGranted (r : ssh_response) : bool := match r with Granted _ => true | _ => false end.

Lemma sha256_bytes l : Forall byte_ok (sha256 l).
Proof. unfold sha256. apply Forall_forall. intros b Hb%list_elem_of_In%repeat_spec. subst. by apply wrap_range. Defined.
End Node.

(** ** Signatures *)

(** What a client writes into the header is read back, and the administrator's
    signature binds a request: if the texts that are signed for two parsed headers
    with their requests are equal, then so are the administrator's key id, the
    timestamp, the nonce, the method, the path, the digest of the body, and the
    identity of the node. *)
Theorem the_signature_binds_the_request sha256 value value' token token' request request' body body' method method' path path' :
  (∀ l, Forall byte_ok (sha256 l)) →
  ParseSuperToken value = Ok token → ParseSuperToken value' = Ok token' →
  validateRequest request = Ok tt → validateRequest request' = Ok tt →
  plainText method → plainText method' → plainText path → plainText path' →
  CanonicalBytes sha256 token method path body (identityOf request) =
    CanonicalBytes sha256 token' method' path' body' (identityOf request') →
  (stKID token, stTimestamp token, stNonce token) = (stKID token', stTimestamp token', stNonce token') ∧
  (method, path, sha256 body, identityOf request) = (method', path', sha256 body', identityOf request') ∧
  ∀ kid timestamp nonce signature, kidPattern kid = true → 0 ≤ timestamp < 2 ^ 63 →
    Forall byte_ok nonce → (16 ≤ length nonce ≤ 64)%nat → Forall byte_ok signature → length signature = 64%nat →
    ParseSuperToken (headerText kid (pretty timestamp) (EncodeToString RawURLEncoding nonce) (EncodeToString RawURLEncoding signature)) =
      Ok (mkToken kid timestamp (pretty timestamp) (EncodeToString RawURLEncoding nonce) signature).
Proof.
  intros Hsha Hp Hp' Hv Hv' Hm Hm' Hpa Hpa' E.
  destruct (CanonicalBytes_inj _ _ _ _ _ _ _ _ _ _ _ Hsha (parsed_plain _ _ Hp) (parsed_plain _ _ Hp') Hm Hm' Hpa Hpa'
    (validated_plain _ Hv) (validated_plain _ Hv') E) as (E1 & E2 & E3 & E4 & E5 & E6 & E7).
  destruct (ParseSuperToken_spec _ _ Hp) as (_ & _ & _ & _ & Ht & _).
  destruct (ParseSuperToken_spec _ _ Hp') as (_ & _ & _ & _ & Ht' & _).
  split; [congruence|]. split; [congruence|]. intros. by apply ParseSuperToken_header.
Qed.

Lemma signature_witness :
  ParseSuperToken (Node.header Node.start 9) = Ok (Node.signed Node.start 9) ∧
  stNonce (Node.signed Node.start 9) = stNonce (Node.signed Node.start 9).
Proof.
  assert (ParseSuperToken (Node.header Node.start 9) = Ok (Node.signed Node.start 9)) as Hp by (vm_compute; reflexivity).
  split; [exact Hp|]. assert (validateRequest Node.request = Ok tt) as Hv by (vm_compute; reflexivity).
  destruct (the_signature_binds_the_request Node.sha256 _ _ _ _ Node.request Node.request Node.body Node.body
    "POST" "POST" certificatePath certificatePath Node.sha256_bytes Hp Hp Hv Hv) as [E _]; try reflexivity.
Defined.

(** C12. A certificate is granted only for a [POST] with one authorization header
    whose token names the configured administrator, lies within a minute of the
    clock and carries a valid signature over exactly this request; only for this
    node; only when its nonce was not in use, which then is; for an Ed25519 key,
    for the user and the principal of the requested profile, and for exactly five
    minutes from the second of the clock. *)
Theorem a_certificate_costs_a_fresh_signature sha256 verify json parseMediaType keygen c r newID clock db p db' :
  validateConfig c = true →
  ServeHTTP sha256 verify json parseMediaType keygen c r newID clock db = (Granted p, db') →
  ∃ requestID request token, newID = Some requestID ∧ cpRequestID p = requestID ∧
    signedRequest sha256 verify json c r requestID clock request token ∧
    keptNonces (secondsOf clock) db !! (stKID token, stNonce token) = None ∧
    ndUsed db' = <[(stKID token, stNonce token) := i64 (stTimestamp token + 60)]> (keptNonces (secondsOf clock) db) ∧
    is_Some (ParseED25519AuthorizedKey (crPublicKey request)) ∧
    cpUsername p = crAccessProfile request ∧
    cpValidAfter p = secondsOf clock * second ∧ cpValidBefore p = cpValidAfter p + 300 * second ∧
    ∃ certificate, keygen requestID (crAccessProfile request) (cpValidAfter p) (cpValidBefore p) (crPublicKey request) = Some certificate ∧
      cpCertificate p = trimSpace (trimSpace certificate).
Proof.
  intros Hc Hs. apply ServeHTTP_Granted in Hs as (requestID & request & token & Hid & Hs & Hr & Hg).
  apply Register_spec in Hr as [Hn Hu]. exists requestID, request, token. unfold grant in Hg.
  destruct (ParseED25519AuthorizedKey (crPublicKey request)) as [key|] eqn:Hk; [|done].
  assert (akLine key = crPublicKey request) as Hline.
  { unfold ParseED25519AuthorizedKey in Hk. repeat (case_match; try done); by injection Hk as <-. }
  destruct (usernameOf c (crAccessProfile request)) as [username|] eqn:Hn'; [|done].
  unfold Issue in Hg. destruct ((akLine key =s "") || _); [done|]. destruct ((crAccessProfile request <>s "release") && _); [done|].
  destruct (requestID =s ""); [done|].
  destruct (keygen requestID (crAccessProfile request) _ _ (akLine key)) as [certificate|] eqn:Hkey; [|done].
  destruct (negb (hasPrefix _ _)); [done|]. injection Hg as <-. cbn.
  assert (clock / second * second / second * second = secondsOf clock * second) as E by done. rewrite E in *. clear E.
  unfold validateConfig in Hc. rewrite !andb_true_iff, !String.eqb_eq in Hc. destruct Hc as [[Hc Hrel] Hdeb].
  split; [done|]. split; [done|]. split; [done|]. split; [done|]. split; [done|]. split; [by eexists|].
  split; [|split; [done|split; [done|exists certificate; by rewrite <-Hline]]].
  unfold usernameOf in Hn'. repeat case_match; propify; congruence.
Qed.

Lemma fresh_signature_witness :
  ∃ p, Node.serve [Node.arrive 0 9 0] = [Granted p] ∧ cpUsername p = "debug"%string ∧
    cpValidBefore p = (Node.start + 300) * second.
Proof.
  destruct (ServeHTTP Node.sha256 Node.verify Node.json Node.parseMediaType Node.keygen Node.config (Node.http Node.start 9)
    (Some "id"%string) (Node.start * second) (mkNonceDB ∅ [])) as [response db'] eqn:E.
  destruct response as [| | | |p]; try (vm_compute in E; discriminate E).
  exists p. destruct (a_certificate_costs_a_fresh_signature Node.sha256 Node.verify Node.json Node.parseMediaType Node.keygen
    Node.config (Node.http Node.start 9) (Some "id"%string) (Node.start * second) (mkNonceDB ∅ []) p db')
    as (requestID & request & token & _ & _ & Hs & _ & _ & _ & Hu & Ha & Hb & _).
  - vm_compute. reflexivity.
  - exact E.
  - assert (request = Node.request) as ->.
    { destruct Hs as [_ _ _ _ (body & Eb & Ej & _) _ _ _]. injection Eb as <-. vm_compute in Ej. by injection Ej as <-. }
    split; [|split; [exact Hu|]].
    + unfold Node.serve. cbn [serveAll]. unfold Node.arrive. cbn [arRequest arID arClock]. rewrite !Z.add_0_r, E. reflexivity.
    + rewrite Hb, Ha. vm_compute. reflexivity.
Defined.

(** As long as the requests come to the nonce store in the order of their
    clock readings, no nonce is granted two certificates while the first token is
    valid; in particular no authorization header is ever granted two. *)
Theorem tokens_are_granted_once sha256 verify json parseMediaType keygen c arrivals db i j a a' p p' token token' :
  Sorted Z.le (map arClock arrivals) →
  Forall (fun a => secondsOf (arClock a) < 2 ^ 62 ∧ - 2 ^ 62 < secondsOf (arClock a)) arrivals →
  (i < j)%nat → arrivals !! i = Some a → arrivals !! j = Some a' →
  let responses := (serveAll sha256 verify json parseMediaType keygen c arrivals db).1 in
  responses !! i = Some (Granted p) → responses !! j = Some (Granted p') →
  tokenOf (arRequest a) = Some token → tokenOf (arRequest a') = Some token' →
  (stKID token, stNonce token) = (stKID token', stNonce token') →
  stTimestamp token + 60 < secondsOf (arClock a') ∧ hrqAuthorization (arRequest a) ≠ hrqAuthorization (arRequest a').
Proof.
  intros Hsort Hb Hij Hi Hj responses Hr Hr' Ht Ht' [= Hk Hn].
  pose proof (grants_apart _ _ _ _ _ _ arrivals db i j a a' p p' token token' Hsort Hb Hij Hi Hj Hr Hr' Ht Ht' Hk Hn) as Hlt.
  split; [done|]. intros E. unfold tokenOf in *. rewrite E, Ht' in Ht. injection Ht as <-.
  subst responses. destruct (serveAll_nth _ _ _ _ _ _ arrivals db j a' _ Hj Hr') as (dbj & dbj' & Ej).
  apply ServeHTTP_Granted in Ej as (requestID & request & token & _ & Hs & _).
  pose proof (signed_tokenOf _ _ _ _ _ _ _ _ _ Hs) as Ht. unfold tokenOf in Ht. rewrite Ht' in Ht. injection Ht as <-.
  pose proof (sr_window _ _ _ _ _ _ _ _ _ Hs). lia.
Qed.

(** The same nonce again, in a token of a hundred seconds later. *)
Lemma granted_once_witness :
  let arrivals := [Node.arrive 0 9 0; Node.arrive 100 9 100] in
  map Node.isGranted (Node.serve arrivals) = [true; true] ∧ Node.start + 60 < Node.start + 100.
Proof.
  split; [vm_compute; reflexivity|].
  destruct (Node.serve [Node.arrive 0 9 0; Node.arrive 100 9 100]) as [|r [|r' [|? ?]]] eqn:E; try (vm_compute in E; discriminate E).
  destruct r as [| | | |p]; try (vm_compute in E; discriminate E).
  destruct r' as [| | | |p']; try (vm_compute in E; discriminate E).
  refine (proj1 (tokens_are_granted_once Node.sha256 Node.verify Node.json Node.parseMediaType Node.keygen Node.config
    [Node.arrive 0 9 0; Node.arrive 100 9 100] (mkNonceDB ∅ []) 0 1 (Node.arrive 0 9 0) (Node.arrive 100 9 100) p p'
    (Node.signed Node.start 9) (Node.signed (Node.start + 100) 9) _ _ _ _ _ _ _ _ _ _)); try reflexivity.
  - repeat constructor. vm_compute. congruence.
  - repeat constructor; vm_compute; congruence.
  - lia.
  - unfold Node.serve in E. rewrite E. reflexivity.
  - unfold Node.serve in E. rewrite E. reflexivity.
Defined.

(** A request whose handler read the clock before its token expired, but comes to
    the store behind a request of the next second, finds its nonce deleted: the
    same header is granted a second certificate. *)
Theorem a_stale_clock_reading_replays_a_token :
  map Node.isGranted (Node.serve [Node.arrive 0 9 0; Node.arrive 61 8 61; Node.arrive 0 9 60]) = [true; true; true].
Proof. vm_compute. reflexivity. Qed.

(** ** Keys without a comment *)

(** A line of an Ed25519 public key without a comment has eighty characters,
    and is refused by the request's check, although it is a key and its pattern
    makes the comment optional. *)
Theorem a_key_without_comment_is_refused target site block device profile key :
  length key = 32%nat → Forall byte_ok key →
  let encoded := EncodeToString StdEncoding (ed25519Blob key) in
  let line := String.append "ssh-ed25519 " encoded in
  keyBlob encoded = Some (ed25519Blob key) ∧ publicKeyPattern line = true ∧
  (∃ e, validateRequest (mkRequest target site block device profile line) = Err e) ∧
  ParseED25519AuthorizedKey line = None.
Proof.
  intros Hl Hk encoded line. pose proof (bare_key_short key Hl) as Hs. fold encoded line in Hs.
  split; [by apply keyBlob_ed25519|]. split; [by apply bare_key_pattern|]. split.
  - unfold validateRequest. cbn [crTargetNode crSiteID crBlockID crDeviceID crAccessProfile crPublicKey].
    rewrite (proj2 (Z.ltb_lt (runeCount line) 81)) by lia. cbn [orb]. repeat case_match; eauto.
  - unfold ParseED25519AuthorizedKey. rewrite (proj2 (Z.ltb_lt (runeCount line) 81)) by lia. cbn [orb]. by case_match.
Qed.

Lemma bare_key_witness :
  ∃ e, validateRequest (mkRequest "BLOCK" "s" "b" "d" "debug"
         (String.append "ssh-ed25519 " (EncodeToString StdEncoding (ed25519Blob Node.key)))) = Err e.
Proof.
  destruct (a_key_without_comment_is_refused "BLOCK" "s" "b" "d" "debug" Node.key) as (_ & _ & He & _).
  - reflexivity.
  - apply List.Forall_forall. intros b Hb%repeat_spec. subst. split; vm_compute; congruence.
  - exact He.
Defined.

(** ** One-time keys *)

(** C23. However requests interleave and whatever of a generation fails: at most
    one request generates at a time, exactly while the handler is marked busy; the
    authorized-keys file is replaced once for each private key that is or will be
    handed out, never less than ten seconds after the replacement before, and
    never later than the clock.  And no request is granted a key without the super
    key. *)
Theorem one_key_at_a_time idKey parseMediaType c now v :
  server_reachable (key_request idKey parseMediaType c) tick (NewKeyHandler now) v →
  (∃ tasks : list key_task, countIf generating tasks = (if ksBusy (ssState v) then 1 else 0)%nat ∧
     Forall2 (rely key_answer) tasks (ssTasks v) ∧
     (countIf installed tasks + countIf granted (ssAnswers v))%nat = length (ksFile (ssState v))) ∧
  spaced None (ksFile (ssState v)) ∧ lastBefore (ksFile (ssState v)) (ksNow (ssState v)) ∧
  ∀ r s privateKey s', exec (serveKey idKey parseMediaType c r) s = (KeyGranted privateKey, s') →
    ∃ superKey, kqSuperKey r = Some superKey ∧ VerifyPassword idKey (kcSuperKeyHash c) superKey = true.
Proof.
  intros (gs & Hts & [H1 H2 H3 H4 H5 H6 H7 H8])%keys_reachable. split; [by exists gs|]. split; [done|]. split; [done|].
  apply serveKey_granted.
Qed.

Module Keys.
Definition hash : string := match HashPassword Accounts.idKey (Ok Accounts.salt) "super" with Ok h => h | Err _ => "" end.
Definition config : KeyConfig := mkKeyConfig hash "/home/block/.ssh/authorized_keys" "device-1" "block.local".
Definition request (superKey publicKey : string) : KeyRequest :=
  mkKeyRequest "POST" keyEndpoint "" "application/json" (Some superKey) (Some (publicKey, "private")%string) None.
Definition serve (superKey publicKey : string) : Proc KeyState key_response :=
  serveKey Accounts.idKey Node.parseMediaType config (request superKey publicKey).

(** Two requests with the super key at once. *)
Definition both : Server KeyState key_response :=
  play [0; 0; 0; 0; 0; 0; 1; 1; 1; 1; 1; 1; 0; 1; 0; 0; 0; 0; 0]%nat
    (mkServer (NewKeyHandler 0) false [serve "super" "one"; serve "super" "two"] []).

(** Eight guesses: in turn, and at once. *)
Definition guesses : list (Proc KeyState key_response) := repeat (serve "wrong" "one") 8.
Definition inTurn : list key_response :=
  (foldl (fun '(answers, s) p => let '(r, s') := exec p s in (answers ++ [r], s')) ([], NewKeyHandler 0) guesses).1.
Definition atOnce : list key_response :=
  ssAnswers (play (flat_map (fun i => [i; i; i]%nat) (seq 0 8) ++ flat_map (fun i => [0; 0; 0; 0]%nat) (seq 0 8))
               (mkServer (NewKeyHandler 0) false guesses [])).
End Keys.

Lemma one_key_witness :
  ssAnswers Keys.both = [KeyRefused 409 "KEY_GENERATION_IN_PROGRESS"; KeyGranted "private"] ∧
  spaced None (ksFile (ssState Keys.both)) ∧ ksFile (ssState Keys.both) = [(0, "one"%string)].
Proof.
  split; [vm_compute; reflexivity|]. split; [|vm_compute; reflexivity].
  refine (proj1 (proj2 (one_key_at_a_time Accounts.idKey Node.parseMediaType Keys.config 0 Keys.both _))).
  unfold server_reachable.
  apply (transitivity (y := mkServer (NewKeyHandler 0) false [Keys.serve "super" "one"; Keys.serve "super" "two"] [])).
  - apply requests_reachable. repeat constructor.
  - apply play_steps.
Defined.

(** The limit of five guesses holds for requests in turn; requests that all pass
    [rateLimited] before the first failure is recorded escape it. *)
Theorem guesses_at_once_escape_the_limit :
  Keys.inTurn = repeat (KeyRefused 401 "INVALID_SUPER_KEY") 5 ++ repeat (KeyRefused 429 "TOO_MANY_ATTEMPTS") 3 ∧
  Keys.atOnce = repeat (KeyRefused 401 "INVALID_SUPER_KEY") 8.
Proof. vm_compute. split; reflexivity. Qed.
