(* ===== verification/PointsSpec.v ===== *)
(** * What the simulator's point table and the production settings promise

    The properties of [tools/plc-simulator/points.go] and of
    [internal/maintenance/production.go], with instances on small tables. *)

From Stdlib Require Import Ascii String.
From stdpp Require Import pretty.
From S2P Require Import Prelude GoText Easy521 SimServer SimPoints SimPointsProofs Maintenance.

(** ** A small table *)

Module Table.
Definition equalFold (s t : string) : bool := s =s t.
Lemma fold_sym s t : equalFold s t = equalFold t s.
Proof. apply String.eqb_sym. Qed.

Definition server : Server := mkServer 1 (fun _ => 0) [].
Definition file : points_file :=
  Definitions [mkPoint " door " "Door" "bool" "" "D504.3" true; mkPoint "level" "Level" "int16" "" " D00504 " true]%string.
Definition manager : PointManager :=
  match NewPointManager equalFold "points.json" 5 100 server file [] with
  | Ok m => m
  | Err _ => mkManager [] ∅ 0 server NoFile ∅ []
  end.

Lemma manager_new : NewPointManager equalFold "points.json" 5 100 server file [] = Ok manager.
Proof. vm_compute. reflexivity. Defined.

Lemma server_ok : registers_ok server.
Proof. intros a. split; vm_compute; congruence. Defined.

Definition ops : list point_op :=
  [OpSubscribe 1; OpAdd 6 (mkInput "Speed" "uint16" "" "D10" true); OpAdd 7 (mkInput "Door" "uint16" "" "D11" true);
   OpSetValue 8 "door" (mkRaw (Some true) None None); OpUpdate 9 "level" (mkInput "Height" "int16" "" "D504" false);
   OpModbus 10 [22; 1; 248; 255; 255; 0; 1]; OpDelete "door"].

Lemma ops_bytes : Forall op_bytes ops.
Proof. repeat constructor; vm_compute; congruence. Defined.
End Table.

(** ** The table *)

(** C30. Whatever is done to the point table, over the page, by its file or over
    Modbus, and whatever fails: no two points have the same id, names that fold to
    the same, or the same type and address; every point is the normal form of
    itself, so its address is the text of its register and bit and reads back as
    them; there is a state for exactly the points; no event channel holds more than
    its capacity; and registers stay 16 bits wide. *)
Theorem the_point_table_stays_well_formed equalFold fileName now nextID server file faults m ops :
  (∀ s t, equalFold s t = equalFold t s) → registers_ok server → Forall op_bytes ops →
  NewPointManager equalFold fileName now nextID server file faults = Ok m →
  let m' := run_ops equalFold ops m in
  (∀ i j r c, i ≠ j → pmPoints m' !! i = Some r → pmPoints m' !! j = Some c →
     recordID r ≠ recordID c ∧ equalFold (ptName (rcPoint r)) (ptName (rcPoint c)) = false ∧
     ¬ (ptType (rcPoint r) = ptType (rcPoint c) ∧ ptAddress (rcPoint r) = ptAddress (rcPoint c))) ∧
  (∀ r, r ∈ pmPoints m' → normalizeRecord (rcPoint r) true = Ok r ∧ location_ok (ptType (rcPoint r)) (rcLocation r) ∧
     parsePointAddress (ptType (rcPoint r)) (ptAddress (rcPoint r)) = Ok (rcLocation r, ptAddress (rcPoint r))) ∧
  dom (pmStates m') = list_to_set (map recordID (pmPoints m')) ∧
  map_Forall (fun _ queue => (length queue ≤ eventCapacity)%nat) (pmEvents m') ∧
  registers_ok (pmServer m').
Proof.
  intros Hsym Hs Hb Hn m'. destruct (NewPointManager_ok equalFold Hsym _ _ _ _ _ _ _ Hs Hn) as [Hm _].
  destruct (run_ops_ok equalFold Hsym ops m Hm Hb) as [Hm' _]. fold m' in Hm'. destruct Hm' as [Hrecs Hst Hev Hreg].
  split; [|split; [|done]].
  - intros i j r c Hij Hi Hj. pose proof (proj2 Hrecs i j r c Hij Hi Hj) as Hc.
    pose proof (records_ok_id _ _ _ _ Hrecs Hj) as Hid. split; [by eapply clash_ids|].
    unfold clash in Hc. case_match; [done|]. destruct (equalFold _ _); [done|]. split; [done|]. intros [E1 E2].
    by rewrite E1, E2, !String.eqb_refl in Hc.
  - intros r Hr. pose proof (proj1 (Forall_forall _ _) (proj1 Hrecs) r Hr) as Hok. split; [exact Hok|].
    split; [by apply record_ok_location|by apply record_ok_address].
Qed.

Lemma table_witness :
  map recordID (pmPoints (run_ops Table.equalFold Table.ops Table.manager)) = ["level"; "point-101"]%string ∧
  registers_ok (pmServer (run_ops Table.equalFold Table.ops Table.manager)).
Proof.
  split; [vm_compute; reflexivity|].
  apply (the_point_table_stays_well_formed Table.equalFold "points.json" 5 100 Table.server Table.file [] Table.manager Table.ops
    Table.fold_sym Table.server_ok Table.ops_bytes Table.manager_new).
Defined.

(** As long as no write of the file fails and nobody else edits it, the file
    is the table: after any operations a reload succeeds and changes neither a
    point nor a state nor a register, and a new manager on the file has the same
    points. *)
Theorem saved_points_are_read_back equalFold fileName now nextID server file m ops :
  (∀ s t, equalFold s t = equalFold t s) → registers_ok server → Forall op_bytes ops → Forall op_undisturbed ops →
  NewPointManager equalFold fileName now nextID server file [] = Ok m → pmFaults m = [] →
  let m' := run_ops equalFold ops m in
  ∀ later, (∃ m2, Reload equalFold later m' = (Ok tt, m2) ∧ pmPoints m2 = pmPoints m' ∧ pmStates m2 = pmStates m' ∧
              pmServer m2 = pmServer m') ∧
  ∀ newServer, ∃ m2, NewPointManager equalFold fileName later nextID newServer (pmFile m') [] = Ok m2 ∧ pmPoints m2 = pmPoints m'.
Proof.
  intros Hsym Hs Hb Hu Hn Hf m' later. destruct (NewPointManager_ok equalFold Hsym _ _ _ _ _ _ _ Hs Hn) as [Hm Hsync].
  destruct (run_ops_ok equalFold Hsym ops m Hm Hb) as [Hm' Hr]. destruct (Hr Hu Hf Hsync) as [Hsync' Hf'].
  split; [by apply (Reload_same equalFold)|]. intros newServer. unfold NewPointManager in *. case_match; [done|].
  apply (Reload_fresh equalFold). exact Hsync'.
Qed.

Lemma read_back_witness :
  ∃ m2, Reload Table.equalFold 50 (run_ops Table.equalFold Table.ops Table.manager) = (Ok tt, m2) ∧
    map recordID (pmPoints m2) = ["level"; "point-101"]%string.
Proof.
  destruct (saved_points_are_read_back Table.equalFold "points.json" 5 100 Table.server Table.file Table.manager Table.ops
    Table.fold_sym Table.server_ok Table.ops_bytes) with (later := 50) as [(m2 & Hr & Hp & _) _].
  - repeat constructor.
  - exact Table.manager_new.
  - vm_compute. reflexivity.
  - exists m2. split; [exact Hr|]. rewrite Hp. vm_compute. reflexivity.
Defined.

(** A value the page sets on a writable point is the value everybody reads:
    the view that is answered has it, and the instant and the source of the write;
    a Modbus read of the register delivers the new word; of a bool point only its
    bit changes, and no other register does; every event channel with room is told
    the new values of all points on the register. *)
Theorem a_value_set_is_the_value_read equalFold now id raw m record register value :
  (∀ s t, equalFold s t = equalFold t s) → table_ok equalFold m → recordByID m id = Some record → ptWritable (rcPoint record) = true →
  match rwUint64 raw with Some v => 0 ≤ v | None => True end →
  let a := plRegister (rcLocation record) in
  let old := svRegisters (pmServer m) a in
  writtenValue record old raw = Some (register, value) →
  ∃ view m', setValue now id raw m = (Ok view, m') ∧
    vwPoint view = rcPoint record ∧ vwValue view = value ∧ vwUpdatedAt view = now ∧ vwSource view = "ui"%string ∧
    svRegisters (pmServer m') a = register ∧ (∀ b, b ≠ a → svRegisters (pmServer m') b = svRegisters (pmServer m) b) ∧
    (handlePDU (pmServer m') ([functionReadHoldingRegisters] ++ putU16 a ++ putU16 1)).1 =
      ([functionReadHoldingRegisters; 2] ++ putU16 register, "ok"%string) ∧
    (ptType (rcPoint record) = pointTypeBool →
       ∀ i, 0 ≤ i → i ≠ plBit (rcLocation record) → Z.testbit register i = Z.testbit old i) ∧
    pmPoints m' = pmPoints m ∧ pmFile m' = pmFile m ∧
    ∀ channel queue, pmEvents m !! channel = Some queue → (length queue < eventCapacity)%nat →
      pmEvents m' !! channel = Some (queue ++ [mkEvent "values" (changedViews m now a register "ui")]).
Proof.
  intros Hsym Hm Hrec Hw Hu a old Hv. destruct (setValue_written now id raw m record register value Hrec Hw Hv) as (server & Hregs & _ & Hset).
  fold a in Hregs, Hset. apply find_id_Some in Hrec as Hin. destruct Hin as [Hin Hid].
  pose proof (record_ok_location _ (proj1 (Forall_forall _ _) (proj1 (to_records _ _ Hm)) record Hin)) as [_ Hloc].
  pose proof (to_registers _ _ Hm a) as Hold. fold old in Hold.
  pose proof (written_range record old raw register value Hloc Hold Hv) as Hreg.
  set (m1 := mkManager _ _ _ server _ _ _) in Hset.
  assert (table_ok equalFold m1) as Hm1.
  { destruct Hm as [H1 H2 H3 H4]. split; try done. intros b. cbn. rewrite Hregs. unfold setRegister. by destruct (b =? a). }
  destruct (onRegisterChange_ok equalFold Hsym now a register "ui" m1 Hm1) as (Hok & Hp & Hsv & Hfile & _ & _).
  set (m' := onRegisterChange now a register "ui" m1) in *. exists (viewOf m' record), m'.
  assert (stateOf m' (recordID record) = mkState now "ui") as Hst by by apply (onRegisterChange_state equalFold).
  assert (svRegisters (pmServer m') a = register) as Ha by (rewrite Hsv; cbn; rewrite Hregs; unfold setRegister; by rewrite Z.eqb_refl).
  split; [|split; [done|split; [|split; [|split; [|split; [done|split]]]]]].
  - rewrite Hset. unfold getPoint, gbind, gget, recordByID. rewrite Hp. change (pmPoints m1) with (pmPoints m). unfold recordByID in Hrec. by rewrite Hrec.
  - unfold viewOf. fold a. rewrite Ha. exact (viewForValue_written record old raw register value _ Hloc Hold Hu Hv).
  - unfold viewOf. cbn [vwUpdatedAt viewForValue]. by rewrite Hst.
  - unfold viewOf. cbn [vwSource viewForValue]. by rewrite Hst.
  - intros b Hb. rewrite Hsv. cbn. rewrite Hregs. unfold setRegister. by rewrite (proj2 (Z.eqb_neq b a)).
  - split; [rewrite read_one, Ha; [done|apply Hloc|apply Hok]|]. split; [|split; [done|split; [done|]]].
    + intros Ht i Hi Hne. unfold writtenValue in Hv. rewrite Ht in Hv. change (pointTypeBool =s pointTypeBool) with true in Hv.
      destruct (rwBool raw) as [b|]; [|done]. injection Hv as <- _. destruct Hloc as [_ Hloc]. rewrite Ht in Hloc.
      change (pointTypeBool =s pointTypeBool) with true in Hloc. rewrite maskedValue_testbit by (done || apply Hloc).
      by rewrite (proj2 (Z.eqb_neq i _)).
    + intros channel queue Hq Hl. by apply (onRegisterChange_events _ _ _ _ m1 _ _ record).
Qed.

Lemma value_witness :
  ∃ view m', setValue 8 "door" (mkRaw (Some true) None None) Table.manager = (Ok view, m') ∧ vwValue view = PVBool true ∧
    svRegisters (pmServer m') 504 = 8.
Proof.
  destruct (NewPointManager_ok Table.equalFold Table.fold_sym _ _ _ _ _ _ _ Table.server_ok Table.manager_new) as [Hm _].
  destruct (a_value_set_is_the_value_read Table.equalFold 8 "door" (mkRaw (Some true) None None) Table.manager
    (mkRecord (mkPoint "door" "Door" "bool" "" "D504.3" true) (mkLocation 504 3 true)) 8 (PVBool true) Table.fold_sym Hm)
    as (view & m' & Hs & _ & Hv & _ & _ & Hr & _); try reflexivity.
  exists view, m'. split; [exact Hs|]. split; [exact Hv|exact Hr].
Defined.

(** ** Production settings *)

(** Over every history of requests with failing writes the settings are within
    their bounds, and, with a file, opening the store again gives exactly the
    current settings.  A patch that succeeds changes the members it names to its
    values and no other; one that is out of bounds or cannot be written is answered
    [400] and changes neither the settings nor the file; and a patch within bounds
    only fails with its write. *)
Theorem production_settings_survive path file s requests fault patch :
  OpenProduction path file = Ok s →
  let s1 := serveSettings requests s in
  settings_valid (psData s1) ∧
  (path ≠ ""%string → OpenProduction path (psFile s1) = Ok s1) ∧
  let '(r, s2) := productionSettings "PATCH" (Some patch) fault s1 in
  match r with
  | SettingsOK data => data = applyPatch patch (psData s1) ∧ psData s2 = data ∧ patch ≠ noMembers ∧
      (path ≠ ""%string → psFile s2 = FileObject (membersOf data))
  | SettingsError status _ => status = 400 ∧ s2 = s1 ∧
      (patch = noMembers ∨ ¬ settings_valid (applyPatch patch (psData s1)) ∨ path ≠ ""%string ∧ fault ≠ None)
  | SettingsMethod => False
  end.
Proof.
  intros Ho s1. apply OpenProduction_ok in Ho as [Hok <-]. destruct (serveSettings_ok requests s Hok) as (Hv & Hp & Hs1).
  fold s1 in Hv, Hp, Hs1. split; [done|]. split; [intros Hne; rewrite <-Hp; by apply Hs1|].
  unfold productionSettings. change ("PATCH" =s "GET") with false. change ("PATCH" =s "PATCH") with true. cbn iota.
  case_bool_decide as Hno; [by split; [|split; [|left]]|]. destruct (PatchProduction fault patch s1) as [r s2] eqn:E.
  apply PatchProduction_spec in E. rewrite Hp in E. destruct r as [data|e].
  - destruct E as (-> & _ & -> & _). cbn. repeat split; try done. intros Hne. by rewrite (proj2 (String.eqb_neq _ _) Hne).
  - destruct E as [-> E]. split; [done|]. split; [done|]. by right.
Qed.

Lemma settings_witness :
  let s1 := serveSettings [("PATCH", Some (mkPatch (Some 50) None None (Some 0)), None);
                           ("PATCH", Some (mkPatch (Some 50) None None (Some 4)), None)]%string
              (mkProductionStore "p.json" DefaultProduction FileAbsent) in
  psData s1 = mkProduction 50 100 30 4 ∧ OpenProduction "p.json" (psFile s1) = Ok s1.
Proof.
  intros s1. split; [vm_compute; reflexivity|].
  refine (proj1 (proj2 (production_settings_survive "p.json" FileAbsent (mkProductionStore "p.json" DefaultProduction FileAbsent)
    _ None noMembers _)) _); [reflexivity|discriminate].
Defined.
