(* ===== verification/EdgeSpec.v ===== *)
(** * What the edges of the agent let through

    Wi-Fi: the password reaches [nmcli] through one private file and nothing else;
    no network name or password changes what else that file says; the status
    shows the network that was joined.  HTTP: which addresses the agent listens
    on, which paths reach the files, and how long a connection waits for its
    turn. *)

From Stdlib Require Import Ascii String.
From S2P Require Import Prelude GoText PlcScan Maintenance Wifi AgentHttp.

(** ** Escaped texts have no line breaks and are read back *)

Lemma replaceChar_app c t s1 s2 : replaceChar c t (String.append s1 s2) = String.append (replaceChar c t s1) (replaceChar c t s2).
Proof.
  induction s1 as [|a s1 IH]; [reflexivity|]. rewrite append_cons. cbn [replaceChar]. rewrite IH.
  case_match; [by rewrite append_assoc|reflexivity].
Qed.

Lemma replaceChar_gone c t s : containsChar t c = false → containsChar (replaceChar c t s) c = false.
Proof.
  intros Ht. induction s as [|a s IH]; [done|]. cbn [replaceChar]. destruct (Ascii.eqb a c) eqn:He.
  - by rewrite containsChar_append, Ht, IH.
  - cbn [containsChar]. by rewrite He, IH.
Qed.

Lemma replaceChar_keeps c d t s : containsChar t d = false → containsChar s d = false → containsChar (replaceChar c t s) d = false.
Proof.
  intros Ht. induction s as [|a s IH]; [done|]. cbn [replaceChar containsChar]. intros [Ha Hs]%orb_false_iff.
  case_match; [by rewrite containsChar_append, Ht, IH|]. cbn [containsChar]. by rewrite Ha, IH.
Qed.

Lemma strip_newline s : containsChar (stripLineBreaks s) newline = false.
Proof. apply replaceChar_keeps; [done|]. by apply replaceChar_gone. Qed.

Lemma strip_carriage s : containsChar (stripLineBreaks s) carriageReturn = false.
Proof. by apply replaceChar_gone. Qed.

Lemma escape_newline s : containsChar (escapeKeyfile s) newline = false.
Proof. apply strip_newline. Qed.

(** Reading a value of a key file: a backslash escapes a backslash and stands
    for a space, a line break, a tab or a carriage return before their letters. *)
Fixpoint unescape (s : string) : option string :=
  match s with
  | EmptyString => Some EmptyString
  | String a rest =>
      if Ascii.eqb a backslash then
        match rest with
        | String b rest =>
            let letter c := String c <$> unescape rest in
            if Ascii.eqb b backslash then letter backslash
            else if Ascii.eqb b "s"%char then letter " "%char
            else if Ascii.eqb b "n"%char then letter newline
            else if Ascii.eqb b "t"%char then letter "009"%char
            else if Ascii.eqb b "r"%char then letter carriageReturn
            else None
        | EmptyString => None
        end
      else String a <$> unescape rest
  end.

Definition isBreak (a : ascii) : bool := Ascii.eqb a newline || Ascii.eqb a carriageReturn.

Lemma strip_cons a s : stripLineBreaks (String a s) = if isBreak a then stripLineBreaks s else String a (stripLineBreaks s).
Proof.
  unfold stripLineBreaks, isBreak. cbn [replaceChar]. destruct (Ascii.eqb a newline) eqn:Hn; [reflexivity|].
  cbn [replaceChar]. by destruct (Ascii.eqb a carriageReturn).
Qed.

Lemma escape_cons a s :
  escapeKeyfile (String a s) =
    if Ascii.eqb a backslash then String backslash (String backslash (escapeKeyfile s))
    else if isBreak a then escapeKeyfile s else String a (escapeKeyfile s).
Proof.
  unfold escapeKeyfile. cbn [replaceChar]. destruct (Ascii.eqb a backslash) eqn:Hb.
  - rewrite !append_cons, append_nil, !strip_cons. reflexivity.
  - by rewrite strip_cons.
Qed.

Lemma unescape_escape s : unescape (escapeKeyfile s) = Some (stripLineBreaks s).
Proof.
  induction s as [|a s IH]; [reflexivity|]. rewrite escape_cons, strip_cons.
  destruct (Ascii.eqb_spec a backslash) as [->|Hne].
  - cbn [unescape]. rewrite IH. reflexivity.
  - destruct (isBreak a) eqn:Hb; [exact IH|]. cbn [unescape]. rewrite IH.
    by rewrite (proj2 (Ascii.eqb_neq a backslash) Hne).
Qed.

(** ** A key file is a list of settings *)

Definition setting : Type := string * string * string.   (* group, key, value *)

Fixpoint settingsOf (group : string) (lines : list string) : list setting :=
  match lines with
  | [] => []
  | line :: rest =>
      if hasPrefix line "[" then
        match cutChar (drop_str 1 line) "]" with Some (name, _) => settingsOf name rest | None => settingsOf group rest end
      else match cutChar line "=" with
           | Some (key, value) => (group, key, value) :: settingsOf group rest
           | None => settingsOf group rest
           end
  end.

Definition readKeyfile (text : string) : list setting := settingsOf "" (splitChar text newline).

Lemma splitChar_unlines lines :
  Forall (fun line => containsChar line newline = false) lines → splitChar (unlines lines) newline = lines ++ [EmptyString].
Proof.
  induction 1 as [|line lines Hl _ IH]; [reflexivity|]. cbn [unlines]. rewrite splitChar_append by done. by rewrite IH.
Qed.

Lemma line_whole key value :
  containsChar key newline = false → containsChar value newline = false →
  containsChar (String.append key value) newline = false.
Proof. intros Hk Hv. by rewrite containsChar_append, Hk, Hv. Qed.

Lemma profile_whole iface ssid password :
  Forall (fun line => containsChar line newline = false) (profileLines iface ssid password).
Proof.
  unfold profileLines.
  repeat (apply Forall_cons; split; [first [reflexivity | apply line_whole; [reflexivity|apply escape_newline]]|]).
  apply Forall_nil_2.
Qed.

Lemma settings_value group key value rest :
  containsChar key "=" = false → hasPrefix (String.append key (String "=" value)) "[" = false →
  settingsOf group (String.append key (String "=" value) :: rest) = (group, key, value) :: settingsOf group rest.
Proof. intros Hk Hp. cbn [settingsOf]. by rewrite Hp, cutChar_append. Qed.

(** ** The commands that [Apply] runs *)

Section apply.
Context {W : Type}.
Variables (runner : list string → Files → W → result string string * W) (clean : string → string).
Notation Apply := (Apply runner clean).
Implicit Types m : Machine (W := W).

Lemma createTemp_fresh dir names files path : createTemp dir names files = Some path → files !! path = None.
Proof.
  induction names as [|name names IH]; [done|]. cbn [createTemp]. case_match eqn:Hf; [exact IH|]. intros [= <-]. exact Hf.
Qed.

(** What a run of [nmcli] adds to the log. *)
Lemma Run_log argv m r m' :
  Run runner argv m = (r, m') → mcFiles m' = mcFiles m ∧ mcRuns m' = mcRuns m ++ [(argv, mcFiles m)].
Proof. unfold Run. destruct (runner _ _ _) as [r0 w]. by intros [= <- <-]. Qed.

Lemma StatusOf_log iface m r m' :
  StatusOf runner iface m = (r, m') → mcFiles m' = mcFiles m ∧ mcRuns m' = mcRuns m ++ [(statusArgv iface, mcFiles m)].
Proof.
  unfold StatusOf. destruct (Run runner _ m) as [[output|e] m1] eqn:Hr; apply Run_log in Hr; by intros [= <- <-].
Qed.

(** The commands that were run, each with the profile in place. *)
Definition ran (path iface ssid : string) (files : Files) (ok : bool) (runs : list (list string * Files)) : Prop :=
  ∃ n, runs = (fun argv => (argv, files)) <$> take n [loadArgv clean path; upArgv iface ssid; statusArgv iface] ∧
       (ok = true → n = 3%nat).

Lemma applyProfile_log faults path iface ssid password m r m' :
  applyProfile runner clean faults path iface ssid password m = (r, m') →
  (∃ content, delete path (mcFiles m') = delete path (mcFiles m) ∧ (mcFiles m' = mcFiles m ∨ mcFiles m' !! path = Some (mode0600, content))) ∧
  ∃ runs, mcRuns m' = mcRuns m ++ runs ∧
    ran path iface ssid (<[path := (mode0600, profileText iface ssid password)]> (mcFiles m)) (is_ok r) runs.
Proof.
  unfold applyProfile. set (text := profileText iface ssid password).
  destruct (tfChmod faults) as [e|].
  { intros [= <- <-]. split; [exists text; auto|]. exists []. rewrite app_nil_r. split; [done|]. by exists 0%nat. }
  destruct (tfWrite faults) as [[e n]|].
  { intros [= <- <-]. cbn [mcFiles mcRuns setFiles]. split.
    - exists (String.substring 0 n text). rewrite delete_insert_eq, lookup_insert_eq. auto.
    - exists []. rewrite app_nil_r. split; [done|]. by exists 0%nat. }
  set (m1 := setFiles _ m).
  assert (∀ m2, mcFiles m2 = mcFiles m1 →
    ∃ content, delete path (mcFiles m2) = delete path (mcFiles m) ∧
      (mcFiles m2 = mcFiles m ∨ mcFiles m2 !! path = Some (mode0600, content))) as Hfiles.
  { intros m2 ->. exists text. cbn [m1 mcFiles setFiles]. rewrite delete_insert_eq, lookup_insert_eq. auto. }
  destruct (tfClose faults) as [e|].
  { intros [= <- <-]. split; [by apply Hfiles|]. exists []. rewrite app_nil_r. split; [done|]. by exists 0%nat. }
  destruct (Run runner (loadArgv clean path) m1) as [r2 m2] eqn:H2. apply Run_log in H2 as [Hf2 Hr2].
  change (mcRuns m1) with (mcRuns m) in Hr2. destruct r2 as [out|e].
  2: { intros [= <- <-]. split; [by apply Hfiles|]. eexists. split; [exact Hr2|]. by exists 1%nat. }
  destruct (Run runner (upArgv iface ssid) m2) as [r3 m3] eqn:H3. apply Run_log in H3 as [Hf3 Hr3].
  rewrite Hr2, <-app_assoc in Hr3. rewrite Hf2 in Hf3, Hr3. destruct r3 as [out3|e].
  2: { intros [= <- <-]. split; [by apply Hfiles|]. eexists. split; [exact Hr3|]. by exists 2%nat. }
  intros Hs. apply StatusOf_log in Hs as [Hf4 Hr4]. rewrite Hr3, <-app_assoc, Hf3 in Hr4. rewrite Hf3 in Hf4.
  split; [by apply Hfiles|]. eexists. split; [exact Hr4|]. by exists 3%nat.
Qed.

Lemma applyProfile_ok faults path iface ssid password m st m' :
  applyProfile runner clean faults path iface ssid password m = (Ok st, m') →
  mcFiles m' = <[path := (mode0600, profileText iface ssid password)]> (mcFiles m).
Proof.
  unfold applyProfile. destruct (tfChmod faults), (tfWrite faults) as [[]|], (tfClose faults); try done.
  set (m1 := setFiles _ m). destruct (Run runner (loadArgv clean path) m1) as [[|] m2] eqn:H2; [|done].
  destruct (Run runner (upArgv iface ssid) m2) as [[|] m3] eqn:H3; [|done].
  apply Run_log in H2 as [Hf2 _]. apply Run_log in H3 as [Hf3 _]. intros [Hf4 _]%StatusOf_log. by rewrite Hf4, Hf3, Hf2.
Qed.
End apply.

(** C25. The password reaches the outside through one private file.  [Apply] runs
    at most three commands, load, up and show in this order, and all of them
    when it succeeds; their arguments are made of the interface, the network's
    name and a file's path.  Each command finds the files as they were before,
    and one more that no file was before: the profile, readable by its owner
    only.  Afterwards the files are as they were, whatever else failed, unless
    the removal of the profile does: its failure is not told, and then at most
    that private file is left, which after a success is the profile with its
    password. *)
Theorem the_password_is_only_in_its_file {W} runner clean faults tempDir iface ssid password (m : Machine (W := W)) :
  let '(r, m') := Apply runner clean faults tempDir iface ssid password m in
  ∃ runs, mcRuns m' = mcRuns m ++ runs ∧
    ((∃ path n, mcFiles m !! path = None ∧ (is_ok r = true → n = 3%nat) ∧
       runs = (fun argv => (argv, <[path := (mode0600, profileText iface ssid password)]> (mcFiles m))) <$>
                take n [loadArgv clean path; upArgv iface ssid; statusArgv iface] ∧
       (∀ file, file ≠ path → mcFiles m' !! file = mcFiles m !! file) ∧
       (∀ mode content, mcFiles m' !! path = Some (mode, content) → mode = mode0600) ∧
       (tfRemove faults ≠ None → is_ok r = true → mcFiles m' !! path = Some (mode0600, profileText iface ssid password))) ∨
     runs = [] ∧ is_ok r = false ∧ mcFiles m' = mcFiles m) ∧
    (tfRemove faults = None → mcFiles m' = mcFiles m).
Proof.
  destruct (Apply runner clean faults tempDir iface ssid password m) as [r m'] eqn:Ha. revert Ha. unfold Apply.
  match goal with |- _ → ?G => assert (∀ e : wifi_error, (Err e, m) = (r, m') → G) as Hnone end.
  { intros e [= <- <-]. exists []. rewrite app_nil_r. split; [done|]. split; [by right|done]. }
  destruct (tfMkdir faults); [apply Hnone|]. destruct (tfCreate faults); [apply Hnone|].
  destruct (createTemp tempDir _ _) as [path|] eqn:Hc; [|apply Hnone].
  clear Hnone. apply createTemp_fresh in Hc. set (m1 := setFiles _ m).
  destruct (applyProfile _ _ _ _ _ _ _ m1) as [r1 m2] eqn:Hp. pose proof Hp as Hap. apply applyProfile_log in Hp.
  destruct Hp as ((content & Hd & Hp) & runs & Hr & (n & -> & Hn)). intros [= <- <-].
  cbn [m1 mcFiles setFiles] in *. rewrite delete_insert_eq, (delete_id _ _ Hc) in Hd. rewrite insert_insert_eq in Hr.
  assert (mcFiles (removeTemp faults path m2) = mcFiles m2 ∧ tfRemove faults ≠ None ∨
          mcFiles (removeTemp faults path m2) = mcFiles m) as Hrem.
  { unfold removeTemp. destruct (tfRemove faults); [left; done|right; exact Hd]. }
  assert (mcRuns (removeTemp faults path m2) = mcRuns m2) as -> by (unfold removeTemp; by destruct (tfRemove faults)).
  eexists. split; [exact Hr|]. split; [|intros Hrm; destruct Hrem as [[_ Hx]|Hx]; [congruence|exact Hx]]. left. exists path, n.
  split; [exact Hc|]. split; [exact Hn|]. split; [done|]. split; [|split].
  - intros file Hf. destruct Hrem as [[-> _]| ->]; [|done]. rewrite <-Hd. by rewrite lookup_delete_ne.
  - intros mode cont Hl. destruct Hrem as [[He _]|He]; rewrite He in Hl; [|congruence].
    destruct Hp as [Hp|Hp]; rewrite Hp in Hl; [rewrite lookup_insert_eq in Hl|]; congruence.
  - intros Hf Hok. destruct r1 as [st|]; [|done]. apply applyProfile_ok in Hap. cbn [m1 mcFiles setFiles] in Hap.
    rewrite insert_insert_eq in Hap. unfold removeTemp. destruct (tfRemove faults); [|done]. by rewrite Hap, lookup_insert_eq.
Qed.

(** A network that is joined while the temporary file cannot be removed: Apply
    reports success, and the password stays on the disk. *)
Module Join.
Definition runner (argv : list string) (_ : gmap string (Z * string)) (_ : unit) : result string string * unit :=
  (Ok "GENERAL.STATE:100 (connected)"%string, ()).
Definition joined (remove : option string) :=
  Apply runner id (mkTempFaults None None ["1"%string] None None None remove) "/tmp" "wlan0" "plant" "secret" (mkMachine ∅ () []).
Definition file : string := "/tmp/block-wifi-1.nmconnection".
End Join.

Lemma join_witness :
  mcFiles (Join.joined None).2 = ∅ ∧
  is_ok (Join.joined (Some "EPERM"%string)).1 = true ∧
  mcFiles (Join.joined (Some "EPERM"%string)).2 !! Join.file = Some (mode0600, profileText "wlan0" "plant" "secret").
Proof.
  split; [|split; [vm_compute; reflexivity|]].
  - pose proof (the_password_is_only_in_its_file Join.runner id (mkTempFaults None None ["1"%string] None None None None)
      "/tmp" "wlan0" "plant" "secret" (mkMachine ∅ () [])) as H.
    fold (Join.joined None) in H. destruct (Join.joined None) as [r m']. destruct H as (runs & _ & _ & H). exact (H eq_refl).
  - pose proof (the_password_is_only_in_its_file Join.runner id (mkTempFaults None None ["1"%string] None None None (Some "EPERM"%string))
      "/tmp" "wlan0" "plant" "secret" (mkMachine ∅ () [])) as H.
    fold (Join.joined (Some "EPERM"%string)) in H.
    assert (mcFiles (Join.joined (Some "EPERM"%string)).2 !! Join.file ≠ None) as Hin by (vm_compute; congruence).
    assert (is_ok (Join.joined (Some "EPERM"%string)).1 = true) as Hok by (vm_compute; reflexivity).
    destruct (Join.joined (Some "EPERM"%string)) as [r m']. cbn [fst snd] in *.
    destruct H as (runs & _ & [(path & n & _ & _ & _ & Hother & _ & Hkeep)|(_ & Hno & _)] & _); [|congruence].
    destruct (decide (Join.file = path)) as [->|Hne]; [apply Hkeep; [cbn; congruence|exact Hok]|].
    destruct Hin. exact (Hother Join.file Hne).
Defined.

(** A profile holds exactly its settings.  Read as a key file, the text that
    [Apply] writes is one network on the given interface: whatever the interface,
    the name and the password contain, they add no line, group or key, and a
    reader that undoes the escapes gets each of them back without its line
    breaks. *)
Theorem a_profile_holds_exactly_its_settings iface ssid password :
  readKeyfile (profileText iface ssid password) =
    [("connection", "id", escapeKeyfile (profileIDOf ssid));
     ("connection", "type", "wifi");
     ("connection", "interface-name", escapeKeyfile iface);
     ("wifi", "mode", "infrastructure");
     ("wifi", "ssid", escapeKeyfile ssid);
     ("wifi-security", "key-mgmt", "wpa-psk");
     ("wifi-security", "psk", escapeKeyfile password);
     ("ipv4", "method", "auto"); ("ipv6", "method", "auto")]%string ∧
  unescape (escapeKeyfile ssid) = Some (stripLineBreaks ssid) ∧
  unescape (escapeKeyfile password) = Some (stripLineBreaks password) ∧
  unescape (escapeKeyfile iface) = Some (stripLineBreaks iface).
Proof.
  split; [|by rewrite !unescape_escape]. unfold readKeyfile, profileText.
  rewrite (splitChar_unlines _ (profile_whole iface ssid password)). unfold profileLines.
  change (String.append "id=" ?v) with (String.append "id" (String "=" v)).
  change (String.append "interface-name=" ?v) with (String.append "interface-name" (String "=" v)).
  change (String.append "ssid=" ?v) with (String.append "ssid" (String "=" v)).
  change (String.append "psk=" ?v) with (String.append "psk" (String "=" v)).
  reflexivity.
Qed.

(** What [nmcli] prints about a device, from its state, connection and address;
    it prints a name as it is if it has no colon and no backslash. *)
Definition shown (state connection address : string) : string :=
  unlines [String.append "GENERAL.STATE:" state; String.append "GENERAL.CONNECTION:" connection;
           String.append "IP4.ADDRESS[1]:" address].

Lemma status_line key value status :
  containsChar key ":" = false →
  statusLine (String.append key (String ":" value)) status =
    if key =s "GENERAL.STATE" then
      if hasPrefix value "100" then mkStatus "connected" (stInterface status) (stSSID status) (stIPv4 status) else status
    else if key =s "GENERAL.CONNECTION" then
      if (value <>s "") && (value <>s "--")
      then mkStatus (stState status) (stInterface status) (Some (trimPrefix value profilePrefix)) (stIPv4 status)
      else status
    else if key =s "IP4.ADDRESS[1]" then
      let value := match cutChar value "/" with Some (host, _) => host | None => value end in
      if value <>s "" then mkStatus (stState status) (stInterface status) (stSSID status) (Some value) else status
    else status.
Proof. intros Hk. unfold statusLine. by rewrite cutChar_append. Qed.

Lemma trimPrefix_app p s : trimPrefix (String.append p s) p = s.
Proof. unfold trimPrefix. by rewrite expect_append. Qed.

(** The network that was joined is the one that is shown.  When [nmcli]
    reports the interface connected through the profile that [Apply] activated
    for a network, with an address, [Status] says connected, to that network's
    name without line breaks, with that address without its prefix length;
    the same names, up to line breaks, are the only ones with that profile. *)
Theorem the_joined_network_is_shown iface ssid state ip bits :
  containsChar state newline = false → containsChar ip newline = false → containsChar ip "/" = false → ip ≠ ""%string →
  containsChar bits newline = false → hasPrefix state "100" = true →
  readStatus iface (shown state (profileIDOf ssid) (String.append ip (String "/" bits))) =
    mkStatus "connected" iface (Some (stripLineBreaks ssid)) (Some ip) ∧
  ∀ ssid', profileIDOf ssid' = profileIDOf ssid ↔ stripLineBreaks ssid' = stripLineBreaks ssid.
Proof.
  intros Hs Hi Hsl Hne Hl Hp. split.
  - unfold readStatus, shown. rewrite splitChar_unlines.
    2: { repeat (apply Forall_cons; split; [apply line_whole; [reflexivity|]|]); [exact Hs|apply line_whole; [reflexivity|apply strip_newline]| |apply Forall_nil_2].
         apply line_whole; [exact Hi|]. cbn [containsChar]. exact Hl. }
    cbn [app foldl].
    change (String.append "GENERAL.STATE:" state) with (String.append "GENERAL.STATE" (String ":" state)).
    change (String.append "GENERAL.CONNECTION:" ?v) with (String.append "GENERAL.CONNECTION" (String ":" v)).
    change (String.append "IP4.ADDRESS[1]:" ?v) with (String.append "IP4.ADDRESS[1]" (String ":" v)).
    rewrite !status_line by reflexivity. rewrite Hp, cutChar_append by exact Hsl. cbn [String.eqb Ascii.eqb Bool.eqb].
    rewrite (proj2 (String.eqb_neq _ _) Hne). unfold profileIDOf. rewrite trimPrefix_app. reflexivity.
  - intros ssid'. unfold profileIDOf. split; [|by intros ->]. intros He. rewrite <-(trimPrefix_app profilePrefix (stripLineBreaks ssid')), He.
    apply trimPrefix_app.
Qed.

Lemma shown_witness :
  readStatus "wlan0" (shown "100 (connected)" (profileIDOf "Factory") "192.168.1.104/24") =
    mkStatus "connected" "wlan0" (Some "Factory"%string) (Some "192.168.1.104"%string).
Proof.
  pose proof (the_joined_network_is_shown "wlan0" "Factory" "100 (connected)" "192.168.1.104" "24"
    eq_refl eq_refl eq_refl ltac:(discriminate) eq_refl eq_refl) as [Hs _].
  exact Hs.
Defined.

(** A device that shows the connection it was last told to activate. *)
Module Device.
Definition nmcli (argv : list string) (files : Files) (active : string) : result string string * string :=
  match argv with
  | [_; _; "up"; _; id; _; _]%string => (Ok ""%string, id)
  | _ :: "-t"%string :: _ => (Ok (shown "100 (connected)" active "10.0.0.2/8"), active)
  | _ => (Ok ""%string, active)
  end.
Definition faults : TempFaults := mkTempFaults None None ["1"; "2"]%string None None None None.
Definition start : Machine := mkMachine (<["/tmp/w/block-wifi-1.nmconnection" := (mode0600, "")]> ∅) "" [].
Definition joined := connectWiFi nmcli (fun path => path) (fun _ => None) "POST" (Some ("Caf" ++ String newline "e", "a\b")%string)
  (mkConnectivityOptions (Some "/tmp/w"%string) "wlan0" false) faults None start.
End Device.

(** A name with a line break is joined without it; the files are as before. *)
Example cafe_is_joined :
  match Device.joined.1 with ConnectivityOK body => stSSID (cnWiFi body) | _ => None end = Some "Cafe"%string ∧
  length (mcRuns Device.joined.2) = 4%nat ∧ mcFiles Device.joined.2 = mcFiles Device.start.
Proof. vm_compute. done. Qed.

(** ** Clean paths *)

Definition proper (segment : string) : Prop :=
  segment ≠ ""%string ∧ segment ≠ "."%string ∧ segment ≠ ".."%string ∧ containsChar segment "/" = false.

Lemma cleanSegments_proper segments : ∀ done_,
  Forall proper done_ → Forall (fun s => containsChar s "/" = false) segments → Forall proper (cleanSegments done_ segments).
Proof.
  induction segments as [|s segments IH]; intros done_ Hd Hs; cbn [cleanSegments].
  - by apply Forall_reverse.
  - apply Forall_cons in Hs as [Hc Hs]. destruct (String.eqb_spec s "") as [->|H1]; [by apply IH|].
    destruct (String.eqb_spec s ".") as [->|H2]; [by apply IH|]. cbn [orb].
    destruct (String.eqb_spec s "..") as [->|H3]; [|by apply IH; [apply Forall_cons|]].
    apply IH; [|done]. destruct Hd; [by apply Forall_nil|done].
Qed.

Lemma cleanSegments_same segments : ∀ done_, Forall proper segments → cleanSegments done_ segments = reverse done_ ++ segments.
Proof.
  induction segments as [|s segments IH]; intros done_ Hs; cbn [cleanSegments]; [by rewrite app_nil_r|].
  apply Forall_cons in Hs as [(H1 & H2 & H3 & _) Hs].
  rewrite (proj2 (String.eqb_neq _ _) H1), (proj2 (String.eqb_neq _ _) H2), (proj2 (String.eqb_neq _ _) H3). cbn [orb].
  rewrite IH by done. by rewrite reverse_cons, <-app_assoc.
Qed.

Lemma cleanSegments_empty done_ segments : cleanSegments done_ (segments ++ [""%string]) = cleanSegments done_ segments.
Proof.
  revert done_. induction segments as [|s segments IH]; intros done_; [reflexivity|]. cbn [app cleanSegments].
  repeat case_match; apply IH.
Qed.

Lemma containsChar_rev c s : containsChar (String.rev s) c = containsChar s c.
Proof.
  induction s as [|a s IH]; [reflexivity|]. rewrite rev_cons, containsChar_append, IH. cbn [containsChar].
  rewrite orb_false_r. apply orb_comm.
Qed.

Lemma split_on_pieces c s : ∀ cur, containsChar cur c = false → Forall (fun t => containsChar t c = false) (split_on c cur s).
Proof.
  induction s as [|a s IH]; intros cur Hc; cbn [split_on].
  - apply Forall_singleton. by rewrite containsChar_rev.
  - destruct (Ascii.eqb a c) eqn:He; [|apply IH; cbn [containsChar]; by rewrite He].
    apply Forall_cons. split; [by rewrite containsChar_rev|]. by apply IH.
Qed.

Lemma split_slash s rest :
  containsChar s "/" = false → splitChar (String "/" (String.append s rest)) "/" = "" :: splitChar (String.append s rest) "/".
Proof. intros _. exact (splitChar_append "/" "" (String.append s rest) eq_refl). Qed.

Lemma split_join segments : Forall proper segments → segments ≠ [] →
  splitChar (joinSegments segments) "/" = ""%string :: segments.
Proof.
  intros Hs Hne. destruct Hs as [|s segments Hp Hs]; [done|]. clear Hne. cbn [joinSegments].
  rewrite split_slash by apply Hp. f_equal. revert s Hp. induction Hs as [|t segments Ht Hs IH]; intros s (_ & _ & _ & Hc).
  - cbn [joinSegments]. rewrite append_nil_r. by apply splitChar_end.
  - cbn [joinSegments]. rewrite splitChar_append by done. f_equal. by apply IH.
Qed.

Lemma split_join_slash segments : Forall proper segments → segments ≠ [] →
  splitChar (String.append (joinSegments segments) "/") "/" = (""%string :: segments) ++ [""%string].
Proof.
  intros Hs Hne. destruct Hs as [|s segments Hp Hs]; [done|]. clear Hne. cbn [joinSegments].
  rewrite append_cons, append_assoc, split_slash by apply Hp. cbn [app]. f_equal. revert s Hp.
  induction Hs as [|t segments Ht Hs IH]; intros s (_ & _ & _ & Hc).
  - cbn [joinSegments]. rewrite append_nil, splitChar_append by done. reflexivity.
  - cbn [joinSegments]. rewrite append_cons, splitChar_append by done. cbn [app]. f_equal.
    rewrite append_assoc. by apply IH.
Qed.

Lemma endsWith_app c s t : t ≠ ""%string → endsWith c (String.append s t) = endsWith c t.
Proof.
  intros Ht. induction s as [|a s IH]; [reflexivity|]. rewrite append_cons. cbn [endsWith]. rewrite IH.
  destruct (String.append s t) eqn:He; [|reflexivity]. destruct s, t; done.
Qed.

Lemma endsWith_contains c s : containsChar s c = false → endsWith c s = false.
Proof.
  induction s as [|a s IH]; [done|]. cbn [containsChar endsWith]. intros [Ha Hs]%orb_false_iff. destruct s; [exact Ha|].
  by apply IH.
Qed.

Lemma join_no_slash segments : Forall proper segments → segments ≠ [] → endsWith "/" (joinSegments segments) = false.
Proof.
  intros Hs. induction Hs as [|s segments (H1 & _ & _ & Hc) Hs IH]; [done|]. intros _. cbn [joinSegments].
  change (String "/" (String.append s (joinSegments segments))) with (String.append "/" (String.append s (joinSegments segments))).
  destruct segments as [|t segments].
  - cbn [joinSegments]. rewrite append_nil_r, endsWith_app by done. by apply endsWith_contains.
  - rewrite endsWith_app by (by destruct s). rewrite endsWith_app by done. by apply IH.
Qed.

Lemma cleanPath_cases p :
  ∃ segments, Forall proper segments ∧
    (segments = [] ∧ cleanPath p = "/"%string ∨
     segments ≠ [] ∧ (cleanPath p = joinSegments segments ∨ cleanPath p = String.append (joinSegments segments) "/")).
Proof.
  unfold cleanPath. set (q := if hasPrefix p "/" then p else String "/" p).
  exists (cleanSegments [] (splitChar q "/")). split.
  - apply cleanSegments_proper; [by apply Forall_nil|]. by apply split_on_pieces.
  - destruct (cleanSegments [] (splitChar q "/")) as [|s segments]; [by left|]. right. split; [done|].
    destruct (endsWith "/" q); auto.
Qed.

Lemma rooted s : hasPrefix (String "/" s) "/" = true.
Proof. by destruct s. Qed.

Lemma cleanPath_join segments : Forall proper segments → segments ≠ [] → cleanPath (joinSegments segments) = joinSegments segments.
Proof.
  intros Hs Hne. unfold cleanPath. assert (hasPrefix (joinSegments segments) "/" = true) as ->.
  { destruct segments; [done|]. apply rooted. }
  rewrite split_join by done. cbn [cleanSegments String.eqb orb]. rewrite (cleanSegments_same _ _ Hs), join_no_slash by done.
  by destruct segments.
Qed.

Lemma cleanPath_join_slash segments : Forall proper segments → segments ≠ [] →
  cleanPath (String.append (joinSegments segments) "/") = String.append (joinSegments segments) "/".
Proof.
  intros Hs Hne. unfold cleanPath. assert (hasPrefix (String.append (joinSegments segments) "/") "/" = true) as ->.
  { destruct segments; [done|]. apply rooted. }
  rewrite split_join_slash by done. rewrite cleanSegments_empty. cbn [cleanSegments String.eqb orb].
  rewrite (cleanSegments_same _ _ Hs), endsWith_app by done. by destruct segments.
Qed.

Lemma cleanPath_idem p : cleanPath (cleanPath p) = cleanPath p.
Proof.
  destruct (cleanPath_cases p) as (segments & Hs & [[_ ->]|[Hne [-> | ->]]]); [reflexivity|..].
  - by apply cleanPath_join.
  - by apply cleanPath_join_slash.
Qed.

(** ** Addresses *)

Lemma cutLast_append c s t : containsChar t c = false → cutLast c (String.append s (String c t)) = Some (s, t).
Proof.
  intros Ht. assert (cutLast c t = None) as Hn.
  { induction t as [|a t IH]; [done|]. cbn [containsChar cutLast] in *. apply orb_false_iff in Ht as [Ha Ht].
    by rewrite IH, Ha. }
  induction s as [|a s IH].
  - rewrite append_nil. cbn [cutLast]. by rewrite Hn, Ascii.eqb_refl.
  - rewrite append_cons. cbn [cutLast]. by rewrite IH.
Qed.

Lemma cutLast_spec c s before after : cutLast c s = Some (before, after) → s = String.append before (String c after).
Proof.
  revert before. induction s as [|a s IH]; intros before; [done|]. cbn [cutLast]. destruct (cutLast c s) as [[b t]|].
  - intros [= <- <-]. rewrite append_cons. f_equal. by apply IH.
  - destruct (Ascii.eqb_spec a c) as [->|]; [|done]. by intros [= <- <-].
Qed.

Lemma cutChar_spec c s before after : cutChar s c = Some (before, after) → s = String.append before (String c after).
Proof.
  revert before. induction s as [|a s IH]; intros before; [done|]. cbn [cutChar].
  destruct (Ascii.eqb_spec a c) as [->|]; [by intros [= <- <-]|]. destruct (cutChar s c) as [[b t]|]; [|done].
  intros [= <- <-]. rewrite append_cons. f_equal. by apply IH.
Qed.

(** A decimal number has only digits and one sign. *)
Lemma Atoi_plain s z a : Atoi s = Some z → digit_val a = None → a ≠ "-"%char → a ≠ "+"%char → containsChar s a = false.
Proof.
  assert (∀ t bits v, parseUint t bits = Some v → digit_val a = None → containsChar t a = false) as Hp.
  { intros t bits v Hu Ha. unfold parseUint in Hu. destruct t as [|b t]; [done|]. case_match eqn:Hd; [|done].
    by eapply digits_no_char. }
  unfold Atoi. destruct s as [|b s]; [done|]. intros Hz Ha Hm Hpl.
  destruct (Ascii.eqb_spec b "-") as [->|Hb1].
  { case_match eqn:Hu; [|done]. cbn [containsChar]. rewrite (Hp _ _ _ Hu Ha), orb_false_r. apply Ascii.eqb_neq. congruence. }
  destruct (Ascii.eqb_spec b "+") as [->|Hb2].
  { cbn [containsChar]. rewrite (Hp _ _ _ Hz Ha), orb_false_r. apply Ascii.eqb_neq. congruence. }
  by eapply Hp.
Qed.

Lemma split_loopback before port host :
  containsChar port ":" = false → containsChar port "[" = false → containsChar port "]" = false →
  (before = host ∧ hasPrefix (String.append before (String ":" port)) "[" = false ∧ containsChar before ":" = false ∧
     containsChar before "[" = false ∧ containsChar before "]" = false) ∨
  (before = String "[" (String.append host "]") ∧ containsChar host "[" = false ∧ containsChar host "]" = false) →
  SplitHostPort (String.append before (String ":" port)) = Some (host, port).
Proof.
  intros H1 H2 H3 Hb. unfold SplitHostPort. rewrite cutLast_append by done. rewrite H2, H3. cbn [orb].
  destruct Hb as [(-> & -> & -> & -> & ->)|(-> & Ho & Hc)]; [reflexivity|].
  rewrite append_cons, append_assoc. assert (∀ s, hasPrefix (String "[" s) "[" = true) as -> by (by intros []).
  cbn [drop_str]. rewrite append_cons, append_nil, cutChar_append by done. rewrite str_eqb_refl, Ho. reflexivity.
Qed.

(** The agent listens on the loopback address only.  An address is accepted
    exactly when it is 127.0.0.1, as it stands or in brackets, and a port that
    reads as a number from 0 to 65535; a listener is accepted exactly when its IP
    is 127.0.0.1 in its 4-byte or its 16-byte form. *)
Theorem only_the_loopback_is_accepted :
  (∀ address, validateLoopbackAddress address = Ok tt ↔
     ∃ port p, (address = String.append "127.0.0.1:" port ∨ address = String.append "[127.0.0.1]:" port) ∧
       Atoi port = Some p ∧ 0 ≤ p ≤ 65535) ∧
  ∀ ip, validateLoopbackListener ip = Ok tt ↔ ip = Some [127; 0; 0; 1] ∨ ip = Some (mappedPrefix ++ [127; 0; 0; 1]).
Proof.
  split.
  - intros address. unfold validateLoopbackAddress. split.
    + destruct (SplitHostPort address) as [[host port]|] eqn:Hs; [|done]. destruct (String.eqb_spec host "127.0.0.1") as [->|]; [|done].
      cbn [negb]. destruct (Atoi port) as [p|] eqn:Hp; [|done]. destruct ((p <? 0) || (65535 <? p)) eqn:Hr; [done|]. intros _.
      exists port, p. split; [|split; [done|lia]]. unfold SplitHostPort in Hs.
      destruct (cutLast ":" address) as [[before after]|] eqn:Hc; [|done]. apply cutLast_spec in Hc.
      destruct (hasPrefix address "[") eqn:Hb.
      * right. apply prefix_app in Hb as [rest Hb]. rewrite Hb in Hs. change (drop_str 1 (String.append "[" rest)) with rest in Hs.
        destruct (cutChar rest "]") as [[inner tail_]|] eqn:Hi; [|done]. apply cutChar_spec in Hi.
        destruct (String.eqb_spec tail_ (String ":" after)) as [->|]; [|done].
        destruct (containsChar inner "["); [done|]. cbn [andb negb] in Hs. case_match; [done|]. injection Hs as -> ->.
        by rewrite Hb, Hi.
      * left. destruct (containsChar before ":" || containsChar before "[" || containsChar before "]"); [done|].
        case_match; [done|]. injection Hs as -> ->. exact Hc.
    + intros (port & p & Ha & Hp & Hr).
      assert (SplitHostPort address = Some ("127.0.0.1"%string, port)) as ->.
      { pose proof (fun a => Atoi_plain port p a Hp) as Hpl.
        destruct Ha as [-> | ->].
        - apply (split_loopback "127.0.0.1" port "127.0.0.1"); [by apply Hpl..|]. left. by vm_compute.
        - apply (split_loopback "[127.0.0.1]" port "127.0.0.1"); [by apply Hpl..|]. right. by vm_compute. }
      rewrite Hp. cbn [String.eqb Ascii.eqb Bool.eqb negb]. assert ((p <? 0) || (65535 <? p) = false) as -> by lia. reflexivity.
  - intros [ip|]; cbn [validateLoopbackListener]; [|naive_solver]. unfold loopbackIP. repeat case_bool_decide; naive_solver.
Qed.

Lemma findRoute_iff q table pattern e :
  NoDup table.*1 → NoDup table.*2 → EStatic ∉ table.*2 → (pattern, e) ∈ table → findRoute q table = e ↔ q = pattern.
Proof.
  intros H1 H2 H3. revert H1 H2 H3. induction table as [|[p e'] table IH]; cbn [fmap list_fmap fst snd findRoute].
  { intros _ _ _ Hin. by apply elem_of_nil in Hin. }
  intros [Hp H1]%NoDup_cons [He H2]%NoDup_cons [Hs H3]%not_elem_of_cons [[= -> ->]|Hin]%elem_of_cons.
  - destruct (String.eqb_spec q p) as [->|Hq]; [done|]. split; [|done]. intros Hf. exfalso.
    clear IH H1 H2 Hp. revert He Hf. induction table as [|[p1 e1] table IH]; cbn [fmap list_fmap snd findRoute]; intros He Hf.
    + congruence.
    + apply not_elem_of_cons in He as [He1 He]. apply not_elem_of_cons in H3 as [Hs1 H3].
      destruct (q =s p1); [congruence|]. by apply IH.
  - destruct (String.eqb_spec q p) as [->|Hq]; [|by apply IH]. split; [|intros ->].
    + intros ->. exfalso. apply He, list_elem_of_fmap. by exists (pattern, e).
    + exfalso. apply Hp, list_elem_of_fmap. by exists (pattern, e).
Qed.

Lemma routes_clean : Forall (fun route => cleanPath route.1 = route.1) routes.
Proof. repeat constructor; vm_compute; reflexivity. Qed.

Lemma routes_distinct : NoDup routes.*1 ∧ NoDup routes.*2 ∧ EStatic ∉ routes.*2.
Proof. split; [|split]; apply (bool_decide_unpack _); vm_compute; exact I. Qed.

(** The files are the HMI's, and nothing else is.  Every path is redirected to
    a clean one at most once.  The file server is asked only by GET or HEAD, only
    for the path of the request, which is clean, so that none of its segments is
    empty, a dot or two dots, and neither belongs to the API nor is the WebSocket;
    and each of the nine endpoints is reached by its own path and by no other. *)
Theorem files_never_shadow_the_api files method path :
  (method ≠ "CONNECT"%string → ∃ e, serveMux method (cleanPath path) = Handle e) ∧
  (∀ p b, serveMux method path = Handle EStatic → staticHMI files method path = ServeFile p b →
     p = path ∧ cleanPath path = path ∧ (method = "GET"%string ∨ method = "HEAD"%string) ∧
     hasPrefix path "/api/" = false ∧ path ≠ "/ws"%string ∧
     ∃ segments, Forall proper segments ∧
       (path = "/"%string ∨ path = joinSegments segments ∨ path = String.append (joinSegments segments) "/")) ∧
  (∀ pattern e, (pattern, e) ∈ routes → serveMux method path = Handle e ↔ path = pattern).
Proof.
  split; [|split].
  - intros Hm. unfold serveMux. rewrite (proj2 (String.eqb_neq _ _) Hm), cleanPath_idem, str_eqb_refl. by eexists.
  - intros p b Hr Hs. unfold staticHMI in Hs. destruct files; [|done]. cbn [negb] in Hs.
    destruct (hasPrefix path "/api/") eqn:Ha; [done|]. destruct (String.eqb_spec path "/ws") as [|Hw]; [done|]. cbn [orb] in Hs.
    assert (method = "GET"%string ∨ method = "HEAD"%string) as Hm.
    { destruct (String.eqb_spec method "GET") as [|Hg]; [by left|].
      destruct (String.eqb_spec method "HEAD") as [|Hh]; [by right|done]. }
    assert (p = path) as ->.
    { destruct Hm as [-> | ->]; cbn in Hs; congruence. }
    assert (cleanPath path = path) as Hc.
    { unfold serveMux in Hr. destruct Hm as [-> | ->]; cbn [String.eqb Ascii.eqb Bool.eqb] in Hr;
        (destruct (String.eqb_spec (cleanPath path) path); [done|discriminate]). }
    repeat split; try done. destruct (cleanPath_cases path) as (segments & Hp & Hcase). exists segments. split; [done|].
    rewrite Hc in Hcase. tauto.
  - intros pattern e Hin. unfold serveMux.
    assert (∀ q, findRoute q routes = e ↔ q = pattern) as Hroute.
    { intros q. destruct routes_distinct as (H1 & H2 & H3). by apply findRoute_iff. }
    destruct (method =s "CONNECT").
    + split; [intros [= Hf]; by apply Hroute|intros Hq; f_equal; by apply Hroute].
    + destruct (String.eqb_spec (cleanPath path) path) as [Hc|Hc].
      * split; [intros [= Hf]; by apply Hroute|intros Hq; f_equal; by apply Hroute].
      * split; [done|]. intros ->. exfalso. apply Hc.
        by apply (proj1 (Forall_forall _ _) routes_clean _ Hin).
Qed.

(** ** The TLS listener *)

Lemma handshake_over now c :
  0 ≤ tcTakes c → now ≤ (handshake now c).1 ≤ Z.max now (tcArrives c) + tlsHandshakeTimeout.
Proof.
  intros Ht. unfold handshake, handshakeDeadline. set (s := Z.max now (tcArrives c)). assert (0 < tlsHandshakeTimeout) by done.
  destruct (Z.ltb_spec (s + tcTakes c) (s + tlsHandshakeTimeout)); cbn [fst]; lia.
Qed.

Lemma accepts_bound latest i : ∀ now connections over ok,
  Forall (fun c => 0 ≤ tcTakes c ∧ tcArrives c ≤ latest) connections → now ≤ latest →
  accepts now connections !! i = Some (over, ok) → over ≤ latest + tlsHandshakeTimeout * (Z.of_nat i + 1).
Proof.
  assert (∀ now connections over ok i' k, Forall (fun c => 0 ≤ tcTakes c ∧ tcArrives c ≤ latest) connections →
    now ≤ latest + tlsHandshakeTimeout * Z.of_nat k → accepts now connections !! i' = Some (over, ok) →
    over ≤ latest + tlsHandshakeTimeout * (Z.of_nat k + Z.of_nat i' + 1)) as Hg.
  { intros now connections over ok i'. revert now connections. induction i' as [|i' IH]; intros now connections k Hc Hn Hl;
      (destruct connections as [|c connections]; [done|]); apply Forall_cons in Hc as [[Ht Ha] Hc]; cbn [accepts] in Hl;
      pose proof (handshake_over now c Ht) as Ho; destruct (handshake now c) as [t b]; cbn [fst] in Ho;
      assert (0 < tlsHandshakeTimeout) by done.
    - injection Hl as <- <-. nia.
    - specialize (IH t connections (S k) Hc). cbn [lookup list_lookup] in Hl. specialize (IH ltac:(nia) Hl). nia. }
  intros now connections over ok Hc Hn Hl. specialize (Hg now connections over ok i 0%nat Hc). cbn in Hg.
  specialize (Hg ltac:(lia) Hl). lia.
Qed.

(** C36. The TLS listener takes its turns one after another.  A connection is
    handed to the server only if its own handshake succeeded within ten seconds
    of its turn; the turn of the i-th connection is over at the latest i + 1
    times ten seconds after the last arrival.  And it can take that long:
    connections that say nothing hold every later one up for ten seconds each,
    however fast that one is. *)
Theorem a_handshake_waits_for_the_ones_before_it :
  (∀ now c, (handshake now c).2 = true → tcSucceeds c = true ∧ tcTakes c < tlsHandshakeTimeout) ∧
  (∀ latest i now connections over ok,
     Forall (fun c => 0 ≤ tcTakes c ∧ tcArrives c ≤ latest) connections → now ≤ latest →
     accepts now connections !! i = Some (over, ok) → over ≤ latest + tlsHandshakeTimeout * (Z.of_nat i + 1)) ∧
  ∀ now silent quick,
    Forall (fun c => tcArrives c ≤ now ∧ tlsHandshakeTimeout ≤ tcTakes c) silent →
    tcArrives quick ≤ now → 0 ≤ tcTakes quick < tlsHandshakeTimeout →
    accepts now (silent ++ [quick]) !! length silent =
      Some (now + tlsHandshakeTimeout * Z.of_nat (length silent) + tcTakes quick, tcSucceeds quick).
Proof.
  split; [|split].
  - intros now c. unfold handshake, handshakeDeadline. destruct (Z.ltb_spec (Z.max now (tcArrives c) + tcTakes c) (Z.max now (tcArrives c) + tlsHandshakeTimeout)); cbn [snd]; [|done].
    intros ->. split; [done|lia].
  - intros latest i. apply accepts_bound.
  - intros now silent quick Hs Ha Ht. revert now Hs Ha. induction silent as [|c silent IH]; intros now Hs Ha; cbn [app accepts length].
    + unfold handshake, handshakeDeadline. rewrite Z.max_l by lia.
      destruct (Z.ltb_spec (now + tcTakes quick) (now + tlsHandshakeTimeout)); [|lia]. cbn. f_equal. f_equal. lia.
    + apply Forall_cons in Hs as [[Hc Htc] Hs]. unfold handshake at 1, handshakeDeadline. rewrite Z.max_l by lia.
      destruct (Z.ltb_spec (now + tcTakes c) (now + tlsHandshakeTimeout)); [lia|]. cbn [lookup list_lookup].
      assert (0 < tlsHandshakeTimeout) by done. rewrite IH; [|eapply Forall_impl; [exact Hs|]; cbn; intros; lia|lia].
      f_equal. f_equal. lia.
Qed.

(** Three silent connections: the fourth waits half a minute. *)
Lemma handshake_witness :
  accepts 0 (replicate 3 (mkConnection 0 (3600 * second) false) ++ [mkConnection 0 1 true]) !! 3%nat =
    Some (30 * second + 1, true).
Proof.
  pose proof (a_handshake_waits_for_the_ones_before_it) as (_ & _ & Hw).
  apply (Hw 0 (replicate 3 (mkConnection 0 (3600 * second) false)) (mkConnection 0 1 true)).
  - repeat (apply Forall_cons; split; [vm_compute; split; congruence|]). apply Forall_nil_2.
  - vm_compute. congruence.
  - vm_compute. split; congruence.
Defined.
