(* ===== verification/MessagesSpec.v ===== *)
(** * What the HMI's messages say

    A message that a client writes comes to the runtime as it was meant, and a
    text that is not exactly a message changes nothing but its client's queue. *)

From Stdlib Require Import Ascii String.
From stdpp Require Import pretty.
From S2P Require Import Prelude GoText GoValue RuntimeConfig PlcScan PlcScanProofs Hmi HmiSteps Messages.

Section messages.
Variables (unmarshal : string → option json) (foldName : string → string)
  (parseFloat : string → option spec_float) (compact : json → string) (literal : spec_float → string).
Notation readInbound := (readInbound unmarshal foldName parseFloat compact).
Notation decodePoint := (decodePoint foldName parseFloat compact).

(** ** How a client writes a message *)

(** The values that a message can hold: a float has a literal that reads back. *)
Definition wire (v : goval) : Prop :=
  match v with
  | VNil | VBool _ | VString _ => True
  | VFloat64 f => parseFloat (literal f) = Some f
  | _ => False
  end.

Definition writeAny (v : goval) : json :=
  match v with
  | VBool b => JBool b
  | VString s => JStr s
  | VFloat64 f => JNum (literal f)
  | _ => JNull
  end.

Definition wire_int (z : Z) : Prop := 0 ≤ z < 2 ^ 63.
Definition writeInt (z : Z) : json := JNum (pretty z).

Definition writeWrite (w : WriteDefinition) : json :=
  JObj [("mode", JStr (wMode w)); ("activeValue", writeAny (wActiveValue w)); ("defaultValue", writeAny (wDefaultValue w));
        ("pulseMs", writeInt (wPulseMs w))]%string.

Definition writeAlarm (a : AlarmDefinition) : json :=
  JObj [("normalValue", writeAny (aNormalValue a)); ("alarmValue", writeAny (aAlarmValue a)); ("message", JStr (aMessage a))]%string.

Definition orNull {A} (f : A → json) (o : option A) : json := match o with Some a => f a | None => JNull end.

Definition writePointDefinition (p : PointDefinition) : json :=
  JObj [("pointId", JStr (pPointID p)); ("address", JStr (pAddress p)); ("type", JStr (pType p)); ("access", JStr (pAccess p));
        ("readPoint", JStr (pReadPoint p)); ("writePoint", JStr (pWritePoint p)); ("writeMethod", JStr (pWriteMethod p));
        ("registerCount", writeInt (pRegisterCount p)); ("wordOrder", JStr (pWordOrder p));
        ("write", orNull writeWrite (pWrite p)); ("alarm", orNull writeAlarm (pAlarm p))]%string.

Definition wire_point (p : PointDefinition) : Prop :=
  wire_int (pRegisterCount p) ∧
  (∀ w, pWrite p = Some w → wire (wActiveValue w) ∧ wire (wDefaultValue w) ∧ wire_int (wPulseMs w)) ∧
  (∀ a, pAlarm p = Some a → wire (aNormalValue a) ∧ wire (aAlarmValue a)).

Lemma decodeAny_write v old : wire v → decodeAny parseFloat compact (writeAny v) old = (v, false).
Proof. destruct v; cbn; try done. by intros ->. Qed.

Lemma decodeInt_write z old : wire_int z → decodeInt (writeInt z) old = (z, false).
Proof. intros Hz. unfold decodeInt, writeInt. by rewrite Atoi_pretty. Qed.

Lemma decodeWrite_write w : wire (wActiveValue w) → wire (wDefaultValue w) → wire_int (wPulseMs w) →
  decodeStruct foldName writeFields (setWrite parseFloat compact) (writeWrite w) zeroWrite = (w, false).
Proof.
  intros H1 H2 H3. destruct w as [mode active default_ pulse]. cbn [wActiveValue wDefaultValue wPulseMs] in *.
  unfold decodeStruct, writeWrite, decodeMember, setWrite.
  cbn -[writeInt writeAny decodeInt decodeAny]. rewrite !decodeAny_write by done. cbn -[writeInt decodeInt].
  by rewrite decodeInt_write.
Qed.

Lemma decodeAlarm_write a : wire (aNormalValue a) → wire (aAlarmValue a) →
  decodeStruct foldName alarmFields (setAlarm parseFloat compact) (writeAlarm a) zeroAlarm = (a, false).
Proof.
  intros H1 H2. destruct a as [normal alarm message]. cbn [aNormalValue aAlarmValue] in *.
  unfold decodeStruct, writeAlarm, decodeMember, setAlarm.
  cbn -[writeAny decodeAny]. by rewrite !decodeAny_write.
Qed.

Lemma decodePointer_write {A} (decode : json → A → A * bool) (f : A → json) zero (o : option A) :
  (∀ a, o = Some a → f a ≠ JNull ∧ decode (f a) zero = (a, false)) →
  decodePointer decode zero (orNull f o) None = (o, false).
Proof.
  destruct o as [a|]; [|done]. intros Hf. destruct (Hf a eq_refl) as [Hn Hd]. cbn [orNull]. unfold decodePointer.
  cbn [default]. rewrite Hd. by destruct (f a).
Qed.

Lemma decodePoint_write p : wire_point p → decodePoint (writePointDefinition p) zeroPoint = (p, false).
Proof.
  intros (Hc & Hw & Ha). destruct p as [id address ty access rp wp wm count order write alarm].
  cbn [pRegisterCount pWrite pAlarm] in *. unfold Messages.decodePoint, decodeStruct, writePointDefinition, decodeMember.
  cbn -[writeInt decodeInt decodePointer orNull decodeStruct]. rewrite decodeInt_write by done.
  cbn -[decodePointer orNull decodeStruct]. rewrite (decodePointer_write _ writeWrite).
  2: { intros w ->. split; [done|]. destruct (Hw w eq_refl) as (H1 & H2 & H3). by apply decodeWrite_write. }
  cbn -[decodePointer orNull decodeStruct]. rewrite (decodePointer_write _ writeAlarm); [done|].
  intros a ->. split; [done|]. destruct (Ha a eq_refl) as [H1 H2]. by apply decodeAlarm_write.
Qed.

Lemma decodeElements_write points :
  Forall wire_point points →
  decodeElements decodePoint zeroPoint (map writePointDefinition points) [] = (points, false).
Proof.
  induction 1 as [|p points Hp _ IH]; [reflexivity|]. cbn [map decodeElements head default tail].
  by rewrite decodePoint_write, IH.
Qed.

Lemma decodeSlice_write points :
  Forall wire_point points →
  let '(s, bad) := decodeSlice decodePoint zeroPoint (JArr (map writePointDefinition points)) (mkSlice _ [] 0) in
  sliceOf s = points ∧ bad = false.
Proof.
  intros Hp. destruct points as [|p points]; [done|]. unfold decodeSlice. cbn [map].
  change (writePointDefinition p :: map writePointDefinition points) with (map writePointDefinition (p :: points)).
  cbn [sArray]. rewrite decodeElements_write by done. cbn [sliceOf sLen sArray]. split; [|done].
  apply take_ge. by rewrite length_map.
Qed.

Definition writeEnvelope (e : envelope) (ty : string) : list (string * json) :=
  [("protocolVersion", JStr (enProtocol e)); ("type", JStr ty); ("timestamp", JStr (enTimestamp e));
   ("requestId", JStr (enRequestID e))]%string.

Definition writeMessage (m : inbound) : json :=
  match m with
  | InMalformed => JNull
  | InConfigure e interval points =>
      JObj (writeEnvelope e "runtime.configure" ++
            [("scanIntervalMs", writeInt interval); ("points", JArr (map writePointDefinition points))])
  | InSnapshotGet e => JObj (writeEnvelope e "points.snapshot.get")
  | InScan e address port unit =>
      JObj (writeEnvelope e "plc.scan" ++
            [("addressRange", JStr address); ("port", orNull writeInt port); ("unitId", orNull writeInt unit)])
  | InConnect e device => JObj (writeEnvelope e "plc.connect" ++ [("deviceId", JStr device)])
  | InDisconnect e => JObj (writeEnvelope e "plc.disconnect")
  | InCommand e point action value =>
      JObj (writeEnvelope e "point.command" ++
            [("pointId", JStr point); ("action", JStr action);
             ("value", match value with Some (Some v) => writeAny v | _ => JNull end)])
  | InOther ty => JObj [("type", JStr ty)]
  end%string.

Definition messageTypes : list string :=
  ["runtime.configure"; "points.snapshot.get"; "plc.scan"; "plc.connect"; "plc.disconnect"; "point.command"]%string.

Definition wire_option (o : option Z) : Prop := ∀ z, o = Some z → wire_int z.

(** The messages that have a text: a command has no value or one that is not null. *)
Definition wire_message (m : inbound) : Prop :=
  match m with
  | InMalformed => False
  | InConfigure e interval points => enBad e = false ∧ wire_int interval ∧ Forall wire_point points
  | InSnapshotGet e | InDisconnect e => enBad e = false
  | InScan e _ port unit => enBad e = false ∧ wire_option port ∧ wire_option unit
  | InConnect e _ => enBad e = false
  | InCommand e _ _ value =>
      enBad e = false ∧ match value with None => True | Some None => False | Some (Some v) => wire v ∧ v ≠ VNil end
  | InOther ty => ty ≠ ""%string ∧ ty ∉ messageTypes
  end.

Lemma decodePointer_int (o : option Z) : wire_option o → decodePointer decodeInt 0 (orNull writeInt o) None = (o, false).
Proof. intros Ho. apply decodePointer_write. intros z ->. split; [done|]. apply decodeInt_write. by apply Ho. Qed.

(** C17. A message says what its client meant.  Every message that has a text, a
    configuration with its whole point table included, is read from that text as
    it was written: its fields, its numbers, its optional parts. *)
Theorem a_written_message_is_understood raw m :
  unmarshal raw = Some (writeMessage m) → wire_message m → readInbound raw = m.
Proof.
  intros Hraw Hw. unfold Messages.readInbound. rewrite Hraw. clear Hraw.
  destruct m as [|e interval points|e|e address port unit|e device|e|e point action value|ty]; [done|..];
    cbn [wire_message] in Hw; try destruct e as [bad protocol timestamp id]; cbn [enBad] in Hw.
  - destruct Hw as (-> & Hi & Hp). pose proof (decodeSlice_write points Hp) as Hs. cbn [writeMessage].
    revert Hs. generalize (JArr (map writePointDefinition points)). intros elements Hs.
    cbn -[writeInt decodeInt decodeSlice]. unfold decodeConfigure, decodeAllowed, decodeStruct, decodeMember.
    cbn -[writeInt decodeInt decodeSlice]. rewrite decodeInt_write by done.
    unfold setRequest. cbn -[decodeSlice sliceOf].
    destruct (decodeSlice _ _ _ _) as [s bad]. destruct Hs as [Hs ->]. cbn -[sliceOf]. by rewrite Hs.
  - subst bad. reflexivity.
  - destruct Hw as (-> & Hp & Hu). cbn -[orNull decodePointer].
    unfold decodeScan, decodeAllowed, decodeStruct, decodeMember. cbn -[orNull decodePointer].
    rewrite (decodePointer_int port) by done. cbn -[orNull decodePointer]. by rewrite (decodePointer_int unit).
  - subst bad. reflexivity.
  - subst bad. reflexivity.
  - destruct Hw as (-> & Hv). unfold writeMessage. destruct value as [[v|]|]; [|done|reflexivity].
    destruct Hv as [Hv Hn]. cbn -[writeAny]. unfold decodeCommand, decodeAllowed, decodeStruct, decodeMember.
    cbn -[writeAny decodeAny]. pose proof (decodeAny_write v VNil Hv) as Hd. destruct v; try done; cbn in *; by rewrite ?Hv.
  - destruct Hw as [Hne Ht]. cbn [writeMessage]. assert (readMessageType (JObj [("type"%string, JStr ty)]) = Some ty) as ->.
    { change (readMessageType _) with (if ty =s "" then None else Some ty). by rewrite (proj2 (String.eqb_neq _ _) Hne). }
    unfold messageTypes in Ht. repeat (apply not_elem_of_cons in Ht as [?Hx Ht]).
    by repeat rewrite (proj2 (String.eqb_neq _ _)) by assumption.
Qed.

(** ** What is not a message *)

Definition allowedFor (ty : string) : option (list string) :=
  if ty =s "runtime.configure" then Some configureFields
  else if ty =s "points.snapshot.get" then Some envelopeFields
  else if ty =s "plc.scan" then Some scanFields
  else if ty =s "plc.connect" then Some connectFields
  else if ty =s "plc.disconnect" then Some envelopeFields
  else if ty =s "point.command" then Some commandFields
  else None.

(** An object of a known type whose members are among that type's, by their
    exact names. *)
Definition exact_message (raw : string) : Prop :=
  ∃ members ty allowed, unmarshal raw = Some (JObj members) ∧ readMessageType (JObj members) = Some ty ∧
    allowedFor ty = Some allowed ∧ Forall (fun member => member.1 ∈ allowed) members.

Lemma not_exact_refused raw j ty allowed :
  ¬ exact_message raw → unmarshal raw = Some j → readMessageType j = Some ty → allowedFor ty = Some allowed →
  decodeAllowed foldName parseFloat compact allowed j = (zeroRequest, true).
Proof.
  intros Hn Hj Ht Ha. destruct j as [| | | | |members]; try done. unfold decodeAllowed.
  destruct (forallb _ members) eqn:Hf; [|done]. exfalso. apply Hn. exists members, ty, allowed. split_and!; try done.
  apply Forall_forall. intros member Hm. apply forallb_forall with (x := member) in Hf; [|by apply list_elem_of_In].
  apply existsb_exists in Hf as (name & Hin & He). apply String.eqb_eq in He. rewrite He. by apply list_elem_of_In.
Qed.

Context {W : Type} `{PlcWorker W}.
Variables (validTime : string → bool) (urlParse : string → option url) (isIP : string → bool).
Notation serveWS := (serveWS validTime urlParse isIP).
Implicit Types r : Runtime W.

Lemma onClient_twice c f g r : onClient c g (onClient c f r) = onClient c (g ∘ f) r.
Proof.
  unfold onClient, withClients. destruct r. cbn. f_equal. apply map_eq. intros i. destruct (decide (i = c)) as [->|Hne]; [by rewrite !lookup_alter_eq; destruct (_ !! c)|by rewrite !lookup_alter_ne].
Qed.

(** The refusal that ends the connection, and the one that does not. *)
Lemma refused_last c r : ∃ f, goto c CClosing (enqueue c (OError "" "INVALID_REQUEST") true r) = onClient c f r.
Proof. unfold goto, enqueue. rewrite onClient_twice. by eexists. Qed.

Lemma refused c o b r : ∃ f, enqueue c o b r = onClient c f r.
Proof. by eexists. Qed.
End messages.

(** C14. Only an exact message reaches the runtime.  A text that is no JSON
    object, has no known type or has a member that its type does not name — a
    member whose name differs in case is one — is refused: whatever it says,
    nothing of the runtime changes but the sender's own channel. *)
Theorem only_exact_messages_reach_the_runtime {W} `{PlcWorker W} unmarshal foldName parseFloat compact validTime urlParse isIP
    c fresh configured mqtt raw (r : Runtime W) :
  ¬ exact_message unmarshal raw →
  ∃ f, serveWS validTime urlParse isIP c fresh configured mqtt (readInbound unmarshal foldName parseFloat compact raw) r =
       onClient c f r.
Proof.
  intros Hn. unfold readInbound. destruct (unmarshal raw) as [j|] eqn:Hj; [|apply refused_last].
  destruct (readMessageType j) as [ty|] eqn:Ht; [|apply refused_last].
  pose proof (fun allowed => not_exact_refused unmarshal foldName parseFloat compact raw j ty allowed Hn Hj Ht) as Hd. clear Hn Hj Ht.
  unfold allowedFor in Hd. unfold decodeConfigure, validateSnapshotRequest, decodeScan, decodeConnect, decodeDisconnect, decodeCommand.
  destruct (ty =s "runtime.configure").
  { rewrite (Hd _ eq_refl). cbn. destruct configured; [apply refused|]. unfold configure, rejectConfigure, goto, enqueue.
    cbn. rewrite onClient_twice. by eexists. }
  destruct (ty =s "points.snapshot.get").
  { rewrite (Hd _ eq_refl). destruct configured; [apply refused|apply refused_last]. }
  destruct (ty =s "plc.scan").
  { rewrite (Hd _ eq_refl). destruct configured; [apply refused|apply refused_last]. }
  destruct (ty =s "plc.connect").
  { rewrite (Hd _ eq_refl). destruct configured; [apply refused|apply refused_last]. }
  destruct (ty =s "plc.disconnect").
  { rewrite (Hd _ eq_refl). destruct configured; [apply refused|apply refused_last]. }
  destruct (ty =s "point.command").
  { rewrite (Hd _ eq_refl). destruct configured; [apply refused|apply refused_last]. }
  destruct configured; [apply refused|apply refused_last].
Qed.

(** ** A client's texts *)

Module Client.
Definition unmarshal (raw : string) : option json :=
  if raw =s "connect" then
    Some (JObj [("type", JStr "plc.connect"); ("requestId", JStr "r1"); ("protocolVersion", JStr "1.0");
                ("timestamp", JStr "2026-01-01T00:00:00Z"); ("deviceId", JStr "d1")])
  else if raw =s "shouted" then Some (JObj [("type", JStr "plc.connect"); ("DeviceID", JStr "d1")])
  else None.
Definition text : inbound := InConnect (mkEnvelope false "1.0" "2026-01-01T00:00:00Z" "r1") "d1".
End Client.

(** The members may come in any order; a name in another case is not a member. *)
Example connect_is_read :
  readInbound Client.unmarshal (fun s => s) (fun _ => None) (fun _ => "") "connect" = Client.text ∧
  readInbound Client.unmarshal (fun s => s) (fun _ => None) (fun _ => "") "shouted" = InConnect (mkEnvelope true "" "" "") "".
Proof. vm_compute. done. Qed.

Lemma understood_witness :
  readInbound (fun _ => Some (writeMessage (fun _ => "") (InScan (mkEnvelope false "1.0" "t" "r2") "10.0.0.0/24" (Some 502) None)))
    (fun s => s) (fun _ => None) (fun _ => "") "text" = InScan (mkEnvelope false "1.0" "t" "r2") "10.0.0.0/24" (Some 502) None.
Proof.
  apply (a_written_message_is_understood
    (fun _ => Some (writeMessage (fun _ => "") (InScan (mkEnvelope false "1.0" "t" "r2") "10.0.0.0/24" (Some 502) None)))
    (fun s => s) (fun _ => None) (fun _ => "") (fun _ => "") "text"); [reflexivity|].
  split; [reflexivity|]. split; [|done]. intros z [= <-]. split; [lia|reflexivity].
Defined.

(** A runtime whose worker has not been built yet. *)
Definition no_worker : PlcWorker unit :=
  {| wNew _ _ := Err "INTERNAL_ERROR"%string; wTrySubmit _ _ w := (None, w); wDisconnected _ := true;
     wConfirm w := (None, w); wStep _ _ := False |}.

Definition shouted_at : Runtime unit :=
  serveWS (H := no_worker) (fun _ => true) (fun _ => None) (fun _ => false) 1 2 true None
    (readInbound Client.unmarshal (fun s => s) (fun _ => None) (fun _ => "") "shouted")
    (withClients {[ 1%nat := mkClient [] false [] (CReading true) ]} (NewLocalRuntime None)).

Lemma exact_witness : rtOwner shouted_at = None ∧ clQueue <$> rtClients shouted_at !! 1%nat = Some [(OError "" "INVALID_REQUEST", false)].
Proof.
  destruct (only_exact_messages_reach_the_runtime (H := no_worker) Client.unmarshal (fun s => s) (fun _ => None) (fun _ => ""%string) (fun _ => true)
    (fun _ => None) (fun _ => false) 1 2 true None "shouted"
    (withClients {[ 1%nat := mkClient [] false [] (CReading true) ]} (NewLocalRuntime None))) as [f Hf].
  - intros (members & ty & allowed & Hu & Ht & Ha & Hm). vm_compute in Hu. injection Hu as <-. vm_compute in Ht. injection Ht as <-.
    vm_compute in Ha. injection Ha as <-. apply Forall_cons in Hm as [_ Hm]. apply Forall_cons in Hm as [Hm _].
    apply (bool_decide_eq_true_2 _) in Hm. vm_compute in Hm. discriminate.
  - split; [|vm_compute; reflexivity]. unfold shouted_at. rewrite Hf. reflexivity.
Defined.
