(* ===== verification/StartupSpec.v ===== *)
(** * What has been checked before a program serves *)

From Stdlib Require Import Ascii String.
From S2P Require Import Prelude GoText PlcContract StateModel RuntimeConfig PointStore PlcScan Storage StorageProofs StorageRuns AlarmHistory AlarmHistoryProofs MqttManager SshBootstrap AgentConfig AgentHttp Hmi HmiSteps Startup.

(** ** Sockets *)

Section listen.
Context `{HF : FileSystem}.
Variables (lookupGroup : string → result string Z) (ownGid socketMode : Z).
Notation Listen := (Listen lookupGroup ownGid socketMode).
Notation setGroup := (setGroup lookupGroup).
Implicit Types f : gmap string node.

Lemma wp_syscall (Q : result listen_error unit → OS → Prop) os :
  (∀ os', osFiles os' = osFiles os → Q (Ok tt) os') → (∀ os' e, osFiles os' = osFiles os → Q (Err e) os') → wp syscall Q os.
Proof. intros Hok Herr. unfold wp, syscall. destruct (osFaults os) as [|[e|] rest]; cbn; auto. Qed.

Lemma wp_onNode path h (Q : result listen_error unit → OS → Prop) os :
  (∀ os', osFiles os' = alter h (nodeOf path) (osFiles os) → Q (Ok tt) os') → (∀ os' e, osFiles os' = osFiles os → Q (Err e) os') →
  wp (onNode path h) Q os.
Proof.
  intros Hok Herr. apply wp_bind, wp_syscall.
  - intros os1 H1. apply Hok. cbn. by rewrite H1.
  - intros os1 e H1. by apply Herr.
Qed.

Lemma wp_setGroup path name (Q : result listen_error unit → OS → Prop) os :
  (∀ gid os', lookupGroup name = Ok gid → osFiles os' = alter (withGid gid) (nodeOf path) (osFiles os) → Q (Ok tt) os') →
  (∀ os' e, osFiles os' = osFiles os → Q (Err e) os') → wp (setGroup path name) Q os.
Proof.
  intros Hok Herr. unfold Startup.setGroup. destruct (name =s ""); [apply wp_fail; by apply Herr|].
  destruct (lookupGroup name) as [gid|e] eqn:Hg; [|apply wp_fail; by apply Herr]. apply wp_onNode; eauto.
Qed.

(** Two file trees that differ at most in some places. *)
Definition same_but (places : list string) f f' : Prop := ∀ p, p ∉ places → f' !! p = f !! p.

Lemma same_but_refl places f : same_but places f f.
Proof. done. Qed.

Lemma same_but_trans places f1 f2 f3 : same_but places f1 f2 → same_but places f2 f3 → same_but places f1 f3.
Proof. intros H1 H2 p Hp. by rewrite H2, H1. Qed.

Lemma same_but_alter places p h f : p ∈ places → same_but places f (alter h p f).
Proof. intros Hp q Hq. rewrite lookup_alter_ne; [done|]. by intros ->. Qed.

Lemma same_but_insert places p n f : p ∈ places → same_but places f (<[p := n]> f).
Proof. intros Hp q Hq. rewrite lookup_insert_ne; [done|]. by intros ->. Qed.

Lemma same_but_delete places p f : p ∈ places → same_but places f (delete p f).
Proof. intros Hp q Hq. rewrite lookup_delete_ne; [done|]. by intros ->. Qed.

Lemma same_but_weaken places places' f f' : same_but places f f' → places ⊆ places' → same_but places' f f'.
Proof. intros H Hs p Hp. apply H. set_solver. Qed.

(** Cleaning up after a failure touches the socket's path alone. *)
Lemma wp_orRemove path (m : OsM unit) (Q : result listen_error unit → OS → Prop) os :
  wp m (fun r os1 => match r with
                     | Ok _ => Q (Ok tt) os1
                     | Err e => ∀ os2, same_but [nodeOf path] (osFiles os1) (osFiles os2) → Q (Err e) os2
                     end) os →
  wp (orRemove path m) Q os.
Proof.
  intros Hm. unfold wp, orRemove. destruct (m os) as [[[]|e] os1] eqn:He.
  - unfold wp in Hm. rewrite He in Hm. exact Hm.
  - unfold wp in Hm. rewrite He in Hm. cbn in Hm.
    assert (∀ os, same_but [nodeOf path] (osFiles os) (osFiles ((run! syscall; dropNode path) os).2)) as Hdrop.
    { intros os0. assert (wp (run! syscall; dropNode path) (fun _ os' => same_but [nodeOf path] (osFiles os0) (osFiles os')) os0) as Hw; [|exact Hw].
      apply wp_bind, wp_syscall.
      - intros os' H'. change (same_but [nodeOf path] (osFiles os0) (delete (nodeOf path) (osFiles os'))). rewrite H'. apply same_but_delete. set_solver.
      - intros os' e' H'. by rewrite H'. }
    destruct ((run! syscall; dropNode path) os1) as [r1 os2] eqn:H1.
    destruct ((run! syscall; dropNode path) os2) as [r2 os3] eqn:H2. cbn. apply Hm.
    apply (same_but_trans _ _ (osFiles os2)).
    + pose proof (Hdrop os1) as Hd. by rewrite H1 in Hd.
    + pose proof (Hdrop os2) as Hd. by rewrite H2 in Hd.
Qed.

Definition is_socket (n : node) : Prop := match n with NSocket _ _ => True | _ => False end.

(** What [Listen] has done, whatever it answers. *)
Definition listened (path group : string) f (r : result listen_error unit) (os : OS) : Prop :=
  (same_but [nodeOf (dirOf path)] f (osFiles os) ∨
   same_but [nodeOf (dirOf path); nodeOf path] f (osFiles os) ∧ ∀ n, f !! nodeOf path = Some n → is_socket n) ∧
  (r = Ok tt → ∃ gid, lookupGroup group = Ok gid ∧ osFiles os !! nodeOf path = Some (NSocket mode0660 gid) ∧
                      osFiles os !! nodeOf (dirOf path) = Some (NDir mode0750 gid)).

Lemma early path group f os e : same_but [nodeOf (dirOf path)] f (osFiles os) → listened path group f (Err e) os.
Proof. intros Hs. split; [by left|done]. Qed.

(** Once the path is free. *)
Lemma Listen_late path group f os gid :
  nodeOf (dirOf path) ≠ nodeOf path → same_but [nodeOf (dirOf path); nodeOf path] f (osFiles os) → (∀ n, f !! nodeOf path = Some n → is_socket n) →
  lookupGroup group = Ok gid → osFiles os !! nodeOf (dirOf path) = Some (NDir mode0750 gid) →
  wp (run! syscall;
      run! putNode path (NSocket socketMode ownGid);
      run! orRemove path (setGroup path group);
      orRemove path (onNode path (withMode mode0660))) (listened path group f) os.
Proof.
  intros Hne Hs Hf Hg Hd.
  assert (∀ os' e, same_but [nodeOf (dirOf path); nodeOf path] f (osFiles os') → listened path group f (Err e) os') as Herr.
  { intros os' e Hs'. split; [by right|done]. }
  apply wp_bind, wp_syscall; [|intros os1 e H1; apply Herr; by rewrite H1]. intros os1 H1.
  apply wp_bind. cbn. apply wp_bind, wp_orRemove. apply wp_setGroup.
  2: { intros os2 e H2 os3 H3. apply Herr. eapply same_but_trans; [|eapply same_but_weaken; [exact H3|set_solver]].
       rewrite H2. cbn. rewrite H1. eapply same_but_trans; [exact Hs|]. apply same_but_insert. set_solver. }
  intros gid' os2 Hg' H2. cbn in H2. rewrite H1 in H2. assert (gid' = gid) as -> by congruence.
  assert (same_but [nodeOf (dirOf path); nodeOf path] f (osFiles os2)) as Hs2.
  { rewrite H2. eapply same_but_trans; [exact Hs|]. eapply same_but_trans; [apply same_but_insert|apply same_but_alter]; set_solver. }
  apply wp_orRemove, wp_onNode.
  - intros os3 H3. split.
    + right. split; [|done]. rewrite H3. eapply same_but_trans; [exact Hs2|]. apply same_but_alter. set_solver.
    + intros _. exists gid. split; [done|]. rewrite H3, H2. split.
      * rewrite !lookup_alter_eq, lookup_insert_eq. done.
      * by rewrite !lookup_alter_ne, lookup_insert_ne by done.
  - intros os3 e H3 os4 H4. apply Herr. rewrite <-H3 in Hs2. eapply same_but_trans; [exact Hs2|].
    eapply same_but_weaken; [exact H4|set_solver].
Qed.

(** New directories, at some of the paths. *)
Definition grown (paths : list string) f f' : Prop :=
  ∀ p, f' !! p = f !! p ∨
       (f !! p = None ∧ f' !! p = Some (NDir newDirMode ownGid) ∧ ∃ path, path ∈ paths ∧ p = nodeOf path).

Lemma grown_refl paths f : grown paths f f.
Proof. by left. Qed.

Lemma grown_trans paths f1 f2 f3 : grown paths f1 f2 → grown paths f2 f3 → grown paths f1 f3.
Proof.
  intros H1 H2 p. destruct (H2 p) as [->|(Hn & -> & Hp)]; [apply H1|]. right.
  destruct (H1 p) as [H1p|(_ & H1p & _)]; [|congruence]. by rewrite <-H1p.
Qed.

Lemma grown_weaken paths paths' f f' : grown paths f f' → paths ⊆ paths' → grown paths' f f'.
Proof. intros H1 Hs p. destruct (H1 p) as [?|(? & ? & path & ? & ?)]; [by left|right]. split_and!; [done..|]. exists path. set_solver. Qed.

Lemma mkdir_grown path os : grown [path] (osFiles os) (osFiles (mkdir ownGid path os).2).
Proof.
  assert (∀ os', osFiles os' = osFiles os → grown [path] (osFiles os) (osFiles os')) as Hkeep by (intros os' ->; apply grown_refl).
  unfold mkdir. destruct ((run! syscall; _) os) as [made os1] eqn:Hm.
  assert (wp (run! syscall; do! os <- gget;
      match nodeAt path os with None => putNode path (NDir newDirMode ownGid) | Some _ => gfail (LESystem "file exists") end)
    (fun _ os1 => grown [path] (osFiles os) (osFiles os1)) os) as Hw.
  { apply wp_bind, wp_syscall; [|intros; by apply Hkeep]. intros os2 H2. apply wp_bind. cbn. unfold nodeAt. rewrite H2.
    destruct (osFiles os !! nodeOf path) eqn:Hf; [by apply wp_fail, Hkeep|]. unfold wp. cbn. rewrite H2. intros p.
    destruct (decide (p = nodeOf path)) as [->|Hne]; [|left; by rewrite lookup_insert_ne]. right. rewrite lookup_insert_eq.
    split_and!; [done..|]. exists path. set_solver. }
  unfold wp in Hw. rewrite Hm in Hw. cbn in Hw. destruct made as [|e]; [done|].
  assert (∀ os, osFiles (syscall os).2 = osFiles os) as Hsys by (intros os0; unfold syscall; by destruct (osFaults os0) as [|[]]).
  specialize (Hsys os1). destruct (syscall os1) as [[|] os2]; cbn in *; [|by rewrite Hsys]. rewrite <-Hsys in Hw.
  by destruct (nodeAt path os2) as [[]|].
Qed.

Lemma makeAll_grown paths os : grown paths (osFiles os) (osFiles (makeAll ownGid paths os).2).
Proof.
  revert os. induction paths as [|path above IH]; intros os; [apply grown_refl|]. cbn [makeAll]. unfold gbind, stat.
  assert (∀ os, osFiles (syscall os).2 = osFiles os) as Hsys by (intros os0; unfold syscall; by destruct (osFaults os0) as [|[]]).
  specialize (Hsys os). destruct (syscall os) as [r os1]. cbn in Hsys. rewrite <-Hsys.
  assert (grown (path :: above) (osFiles os1)
    (osFiles (match makeAll ownGid above os1 with (Ok _, os2) => mkdir ownGid path os2 | (Err e, os2) => (Err e, os2) end).2)) as Hmake.
  { specialize (IH os1). destruct (makeAll ownGid above os1) as [[|] os2]; cbn in *.
    - eapply grown_trans; [eapply grown_weaken; [exact IH|set_solver]|]. eapply grown_weaken; [apply mkdir_grown|set_solver].
    - eapply grown_weaken; [exact IH|set_solver]. }
  destruct r as [|e]; [|exact Hmake]. destruct (nodeOf path =s "/"); [apply grown_refl|].
  destruct (nodeAt path os1) as [[]|]; try apply grown_refl. exact Hmake.
Qed.

Lemma Listen_made path group os :
  nodeOf (dirOf path) ≠ nodeOf path →
  wp (run! syscall;
      do! os <- gget;
      match nodeAt (dirOf path) os with
      | Some (NDir _ _) =>
          run! setGroup (dirOf path) group;
          run! onNode (dirOf path) (withMode mode0750);
          run! syscall;
          do! os <- gget;
          run! match nodeAt path os with
               | Some (NSocket _ _) => run! syscall; dropNode path
               | Some _ => gfail LENotSocket
               | None => gret tt
               end;
          run! syscall;
          run! putNode path (NSocket socketMode ownGid);
          run! orRemove path (setGroup path group);
          orRemove path (onNode path (withMode mode0660))
      | _ => gfail LENotDirectory
      end) (listened path group (osFiles os)) os.
Proof.
  intros Hne. set (f := osFiles os).
  apply wp_bind, wp_syscall; [|intros os3 e H3; apply early; by rewrite H3]. intros os3 H3.
  apply wp_bind. cbn. unfold nodeAt at 1. rewrite H3. fold f.
  destruct (f !! nodeOf (dirOf path)) as [[mode gid0| | |]|] eqn:Hd; try (apply wp_fail, early; by rewrite H3).
  apply wp_bind, wp_setGroup; [|intros os4 e H4; apply early; by rewrite H4, H3]. intros gid os4 Hg H4.
  assert (same_but [nodeOf (dirOf path)] f (osFiles os4)) as Hs4.
  { rewrite H4, H3. apply same_but_alter. set_solver. }
  apply wp_bind, wp_onNode; [|intros os5 e H5; apply early; by rewrite H5]. intros os5 H5.
  assert (same_but [nodeOf (dirOf path)] f (osFiles os5)) as Hs5.
  { rewrite H5. eapply same_but_trans; [exact Hs4|]. apply same_but_alter. set_solver. }
  assert (osFiles os5 !! nodeOf (dirOf path) = Some (NDir mode0750 gid)) as Hd5.
  { rewrite H5, H4, H3, !lookup_alter_eq. fold f. rewrite Hd. done. }
  assert (osFiles os5 !! nodeOf path = f !! nodeOf path) as Hp5 by (apply Hs5; set_solver).
  apply wp_bind, wp_syscall; [|intros os6 e H6; apply early; by rewrite H6]. intros os6 H6.
  apply wp_bind. cbn. unfold nodeAt. rewrite H6, Hp5. apply wp_bind.
  destruct (f !! nodeOf path) as [[m g|m g| |]|] eqn:Hfp; try (apply wp_fail, early; by rewrite H6).
  - apply wp_bind, wp_syscall; [|intros os7 e H7; apply early; by rewrite H7, H6]. intros os7 H7. cbn.
    apply (Listen_late _ _ _ _ gid); [done| |by rewrite Hfp; intros n [= <-]|done|].
    + cbn. rewrite H7, H6. eapply same_but_trans; [eapply same_but_weaken; [exact Hs5|set_solver]|]. apply same_but_delete. set_solver.
    + cbn. by rewrite H7, H6, lookup_delete_ne.
  - cbn. apply (Listen_late _ _ _ _ gid); [done| |by rewrite Hfp|done|by rewrite H6].
    rewrite H6. eapply same_but_weaken; [exact Hs5|set_solver].
Qed.

(** The tree that [os.MkdirAll] leaves comes in between. *)
Lemma Listen_spec path group os :
  nodeOf (dirOf path) ≠ nodeOf path →
  wp (Listen path group)
    (fun r os' => ∃ f, grown (dirOf path :: parents (dirOf path)) (osFiles os) f ∧ listened path group f r os') os.
Proof.
  intros Hne. unfold Startup.Listen. apply wp_bind. unfold wp at 1.
  pose proof (makeAll_grown (dirOf path :: parents (dirOf path)) os) as Hg. unfold mkdirAll.
  destruct (makeAll ownGid _ os) as [[[]|e] os1]; cbn [fst snd] in *.
  - eapply wp_mono; [by apply Listen_made|]. intros r os' Hl. by exists (osFiles os1).
  - exists (osFiles os1). split; [done|]. by apply early.
Qed.
End listen.


Module Sockets.
(** No links: [.], [..] and empty elements go. *)
#[global] Instance files : FileSystem := {
  nodeOf path := match cleanSegments [] (splitChar path "/") with [] => "/"%string | segments => joinSegments segments end;
  newDirMode := mode0750
}.
Definition groups (name : string) : result string Z := if name =s "plc" then Ok 990 else Err "unknown group"%string.
Definition machine (faults : list (option string)) : OS :=
  mkOS (<["/run/plc/io.sock"%string := NSocket 511 0]> (<["/run/plc"%string := NDir 493 0]> (<["/etc/passwd"%string := NFile]> ∅))) faults.
Definition started (faults : list (option string)) := Listen groups 0 493 "/run/plc/io.sock" "plc" (machine faults).
End Sockets.


(** Missing directories are made, the socket's own for its group. *)
Example the_directories_are_made :
  let files := osFiles (Listen Sockets.groups 0 493 "/run/plc/io.sock" "plc" (mkOS ∅ [])).2 in
  files !! "/run"%string = Some (NDir 488 0) ∧ files !! "/run/plc"%string = Some (NDir 488 990).
Proof. vm_compute. split; reflexivity. Qed.

(** A system call that fails after the socket exists leaves none. *)
Example failed_chmod_leaves_no_socket :
  let os' := (Sockets.started (replicate 8 None ++ [Some "EPERM"%string])).2 in
  osFiles os' !! "/run/plc/io.sock"%string = None.
Proof. vm_compute. reflexivity. Qed.

(** ** The store *)

Lemma columns_added faults d d' :
  ensureCommandMetadataColumns faults d = Ok d' →
  daStore d' = daStore d ∧ daHistory d' = daHistory d ∧ "operator"%string ∈ daColumns d' ∧ "request_id"%string ∈ daColumns d' ∧
  ∀ name, name ∈ daColumns d → name ∈ daColumns d'.
Proof.
  assert (∀ name l, existsb (String.eqb name) l = true → name ∈ l) as Hin.
  { intros name l He. apply existsb_exists in He as (x & Hx & Heq). apply String.eqb_eq in Heq. subst. by apply list_elem_of_In. }
  unfold ensureCommandMetadataColumns. destruct faults as [[[e|] first] second]; [done|].
  destruct (existsb (String.eqb "operator") (daColumns d)) eqn:H1; [|destruct first; [done|]]; cbn [rbind daColumns daStore daHistory];
    (destruct (existsb (String.eqb "request_id") _) eqn:H2; [|destruct second; [done|]]); intros [= <-]; cbn [daColumns daStore daHistory];
    apply Hin in H1 || idtac; apply Hin in H2 || idtac; set_solver.
Qed.

Lemma Open_ready migrate details now directory connect pragmas journal columnFaults d d' :
  Open migrate details now directory connect pragmas journal columnFaults d = Ok d' →
  journal = Ok "wal"%string ∧ schemaMatches (hdColumns (daHistory d')) = true ∧
  "operator"%string ∈ daColumns d' ∧ "request_id"%string ∈ daColumns d' ∧
  ∀ id row, dbCommands (stDB (daStore d')) !! id = Some row → rwStatus row ≠ CommandPending.
Proof.
  unfold Open, initialize. destruct directory; [done|]. destruct connect; [done|]. destruct pragmas; [done|].
  destruct journal as [mode|]; [|done]. destruct (String.eqb_spec mode "wal") as [->|]; [|done]. cbn [negb].
  destruct (applyMigrations _ _ _) as [d1|]; [|done]. cbn [rbind].
  pose proof (ensure_spec (daHistory d1)) as He. unfold wp in He.
  destruct (ensureAlarmHistoryV2Schema (daHistory d1)) as [[[]|] history]; [|done]. destruct He as [Hm _]. cbn in Hm.
  destruct (ensureCommandMetadataColumns columnFaults _) as [d2|] eqn:Hc; [|done]. apply columns_added in Hc as (Hst & Hh & H1 & H2 & _).
  cbn [rbind]. pose proof (RecoverPending_atomic details now (daStore d2)) as Hr. unfold wp in Hr.
  destruct (RecoverPending details now (daStore d2)) as [[[]|] st]; [|done]. intros [= <-]. cbn [daStore daHistory daColumns] in *.
  split; [done|]. split; [by rewrite Hh|]. split; [done|]. split; [done|].
  intros id row Hrow Hp. destruct Hr as (_ & _ & Hnp & _). apply (Hnp id). by exists row.
Qed.

(** A store that opens is ready.  When [Open] succeeds, the journal is in WAL
    mode, the alarm table has the current schema, the command table has the
    columns of a command's operator and request, no command is pending, and the
    backend is unavailable until a snapshot comes. *)
Theorem an_opened_store_is_ready migrate details now directory connect pragmas journal columnFaults d d' :
  Open migrate details now directory connect pragmas journal columnFaults d = Ok d' →
  journal = Ok "wal"%string ∧ schemaMatches (hdColumns (daHistory d')) = true ∧
  "operator"%string ∈ daColumns d' ∧ "request_id"%string ∈ daColumns d' ∧
  ∀ id row, dbCommands (stDB (daStore d')) !! id = Some row → rwStatus row ≠ CommandPending.
Proof. apply Open_ready. Qed.

Module Boot.
Definition pending : CommandRow := mkCommandRow "print" "start" CommandPending (mkCommandMeta "operator" "req-1") None 1 1.
Definition old : Database :=
  mkDatabase (mkStore (setCommands {[ "c1"%string := pending ]} emptyDB) true "" []) (mkHistoryDB currentColumns (mkAlarmLog [] 0 []) None)
    ["command_id"; "operator"]%string.
Definition opened := Open (fun _ d => Ok d) (fun _ _ => ""%string) (fun _ => 5) None None None (Ok "wal"%string) (None, None, None) old.
Definition database : Database := match opened with Ok d => d | Err _ => old end.
End Boot.

Lemma opened_witness :
  "request_id"%string ∈ daColumns Boot.database ∧
  (rwStatus <$> dbCommands (stDB (daStore Boot.database)) !! "c1"%string) = Some CommandUnknown.
Proof.
  assert (Boot.opened = Ok Boot.database) as Ho by (vm_compute; reflexivity).
  destruct (an_opened_store_is_ready _ _ _ _ _ _ _ _ _ _ Ho) as (_ & _ & _ & Hr & _).
  split; [exact Hr|vm_compute; reflexivity].
Defined.

(** ** MQTT *)

Lemma NewSession_iff parseURL config interval files now s :
  NewSession parseURL config interval files now = Ok s ↔
  ∃ u leaf n, validSource (ccSource config) = true ∧ parseURL (ccEndpoint config) = Some u ∧ endpointOk u = true ∧
    ccPrincipal config ≠ ""%string ∧ tfCA files = Ok true ∧ tfPair files = Ok (S n) ∧ tfLeaf files = Ok leaf ∧
    ceCommonName leaf = ccPrincipal config ∧ ceNotBefore leaf ≤ now ≤ ceNotAfter leaf ∧
    (UsageClientAuth ∈ ceUsages leaf ∨ UsageAny ∈ ceUsages leaf) ∧
    s = mkMqttSession (mkTlsSettings VersionTLS12 VersionTLS13 (euHostname u) leaf) (euHost u) (ccPrincipal config)
          [tpStateGet (NewTopics (soSiteID (ccSource config)) (soBlockID (ccSource config)));
           tpAlarmHistoryQuery (NewTopics (soSiteID (ccSource config)) (soBlockID (ccSource config)))]
          (NewManager (ccSource config) interval).
Proof.
  assert (∀ l, existsb clientUsage l = true ↔ UsageClientAuth ∈ l ∨ UsageAny ∈ l) as Hu.
  { intros l. rewrite existsb_exists. setoid_rewrite <-list_elem_of_In. split.
    - intros ([] & Hx & He); [by left|by right|done].
    - intros [Hx|Hx]; eexists; (split; [exact Hx|done]). }
  unfold NewSession, newTLSConfig. split.
  - destruct (validSource (ccSource config)) eqn:Hv; [|done]. cbn [negb].
    destruct (parseURL (ccEndpoint config)) as [u|] eqn:Hp; [|done]. destruct (endpointOk u) eqn:He; [|done]. cbn [negb].
    destruct (String.eqb_spec (ccPrincipal config) "") as [|Hne]; [done|]. destruct (tfCA files) as [[]|] eqn:Hca; try done.
    destruct (tfPair files) as [[|n]|] eqn:Hpair; try done. destruct (tfLeaf files) as [leaf|] eqn:Hl; [|done].
    destruct (String.eqb_spec (ceCommonName leaf) (ccPrincipal config)) as [Hcn|]; [|done]. cbn [negb].
    destruct ((now <? ceNotBefore leaf) || (ceNotAfter leaf <? now)) eqn:Hval; [done|].
    destruct (existsb clientUsage (ceUsages leaf)) eqn:Hus; [|done]. cbn. intros [= <-].
    exists u, leaf, n. apply Hu in Hus. repeat (split; [done || lia|]). done.
  - intros (u & leaf & n & -> & -> & -> & Hne & -> & -> & -> & Hcn & Hval & Hus & ->).
    rewrite (proj2 (String.eqb_neq _ _) Hne), (proj2 (String.eqb_eq _ _) Hcn). cbn [negb].
    assert ((now <? ceNotBefore leaf) || (ceNotAfter leaf <? now) = false) as -> by lia.
    rewrite (proj2 (Hu _) Hus). reflexivity.
Qed.

(** A session is set up exactly with what the broker may be shown.  The
    set-up succeeds exactly for an endpoint mqtts://HOST:8883 without user, path,
    query or fragment, a principal, a CA file with certificates, and a client
    certificate whose common name is the principal, that is valid now and that is
    for client authentication; the connection then speaks TLS 1.2 or 1.3 to that
    host, as that principal, and subscribes to the two topics of its own block. *)
Theorem mqtt_connects_only_as_its_principal parseURL config interval files now s :
  NewSession parseURL config interval files now = Ok s ↔
  ∃ u leaf n, validSource (ccSource config) = true ∧ parseURL (ccEndpoint config) = Some u ∧ endpointOk u = true ∧
    ccPrincipal config ≠ ""%string ∧ tfCA files = Ok true ∧ tfPair files = Ok (S n) ∧ tfLeaf files = Ok leaf ∧
    ceCommonName leaf = ccPrincipal config ∧ ceNotBefore leaf ≤ now ≤ ceNotAfter leaf ∧
    (UsageClientAuth ∈ ceUsages leaf ∨ UsageAny ∈ ceUsages leaf) ∧
    s = mkMqttSession (mkTlsSettings VersionTLS12 VersionTLS13 (euHostname u) leaf) (euHost u) (ccPrincipal config)
          [tpStateGet (NewTopics (soSiteID (ccSource config)) (soBlockID (ccSource config)));
           tpAlarmHistoryQuery (NewTopics (soSiteID (ccSource config)) (soBlockID (ccSource config)))]
          (NewManager (ccSource config) interval).
Proof. apply NewSession_iff. Qed.

(** What the runtime makes of it. *)
Definition mqttOutcome (r : result setup_error (option mqtt_session)) : option bool :=
  match r with Ok (Some _) => Some true | Ok None => Some false | Err _ => None end.

Lemma configure_without_mqtt {W} validTime urlParse isIP c e interval points (r : Runtime W) :
  let r' := configure validTime urlParse isIP c e interval points None r in
  rtOwner r' = rtOwner r ∧ rtSession r' = rtSession r ∧ rtStore r' = rtStore r ∧ rtWorkers r' = rtWorkers r.
Proof.
  unfold configure. destruct (negb _); [done|]. destruct (Normalize _) as [config|]; [|done].
  assert (∀ o r1, loadPLCEndpoint urlParse isIP r = (o, r1) →
    rtOwner r1 = rtOwner r ∧ rtSession r1 = rtSession r ∧ rtStore r1 = rtStore r ∧ rtWorkers r1 = rtWorkers r) as Hl.
  { intros o r1. unfold loadPLCEndpoint. repeat case_match; intros [= <- <-]; done. }
  destruct (loadPLCEndpoint urlParse isIP r) as [[saved|] r1]; specialize (Hl _ _ eq_refl); exact Hl.
Qed.

(** C35. A bad certificate keeps the HMI out.  With MQTT enabled, a client
    certificate that has expired — or any other fault of the set-up — makes every
    configuration fail: no client ever owns the runtime, no session and no worker
    is made, and the point table stays as it was, whatever the message says. *)
Theorem a_bad_certificate_keeps_the_hmi_out {W} validTime urlParse isIP parseURL config files now leaf
    c e interval points (r : Runtime W) :
  tfLeaf files = Ok leaf → ceNotAfter leaf < now →
  let mqtt := mqttOutcome (newMQTTSession parseURL true true config files now) in
  let r' := configure validTime urlParse isIP c e interval points mqtt r in
  rtOwner r' = rtOwner r ∧ rtSession r' = rtSession r ∧ rtStore r' = rtStore r ∧ rtWorkers r' = rtWorkers r.
Proof.
  intros Hl Hexp mqtt. assert (mqtt = None) as ->; [|apply configure_without_mqtt].
  unfold mqtt, newMQTTSession. cbn [negb]. destruct (NewSession parseURL config 0 files now) as [s|] eqn:Hs; [|done].
  apply NewSession_iff in Hs as (u & leaf' & n & _ & _ & _ & _ & _ & _ & Hl' & _ & Hv & _).
  assert (leaf' = leaf) as -> by congruence. lia.
Qed.

Module Broker.
Definition parse (raw : string) : option endpoint_url := Some (mkEndpointURL "mqtts" "bdm" "8883" false "" "" "" "bdm:8883").
Definition leaf : certificate := mkCert "block-0001" 0 100 [UsageClientAuth].
Definition config : ConnectionConfig := mkConnectionConfig "mqtts://bdm:8883" "block-0001" (mkSource "s" "b" "d").
Definition files : tls_files := mkTlsFiles (Ok true) (Ok 1%nat) (Ok leaf).
Definition point : PointDefinition := mkPointDefinition "p1" "D1" "int16" "read" "p1" "" "" 1 "" None None.
(** The same message one nanosecond before and after the certificate's end. *)
Definition after (now : Z) : Runtime unit :=
  configure (fun _ => true) (fun _ => None) (fun _ => false) 1 (mkEnvelope false "1.0" "t" "r") 500 [point]
    (mqttOutcome (newMQTTSession parse true true config files now))
    (withClients {[ 1%nat := mkClient [] false [] (CReading false) ]} (NewLocalRuntime None)).
End Broker.

Lemma certificate_witness : rtOwner (Broker.after 101) = None ∧ rtSession (Broker.after 101) = None.
Proof.
  destruct (a_bad_certificate_keeps_the_hmi_out (W := unit) (fun _ => true) (fun _ => None) (fun _ => false)
    Broker.parse Broker.config Broker.files 101 Broker.leaf 1 (mkEnvelope false "1.0" "t" "r") 500 [Broker.point]
    (withClients {[ 1%nat := mkClient [] false [] (CReading false) ]} (NewLocalRuntime None)) eq_refl ltac:(vm_compute; reflexivity))
    as (Ho & Hs & _).
  exact (conj Ho Hs).
Defined.

(** Just before the end, the same message starts configuring. *)
Example before_it_expires :
  (clPc <$> rtClients (Broker.after 99) !! 1%nat, clPc <$> rtClients (Broker.after 101) !! 1%nat) =
    (Some (CConfiguring (RuntimeConfig.mkConfig 500 [Broker.point]) None true), Some (CReading false)).
Proof. vm_compute. reflexivity. Qed.

(** ** The SSH bootstrap service *)

(** The service starts only with a valid configuration, an ED25519 key of the
    administrator, and a CA whose public file is the key that [ssh-keygen]
    derives from the private one; the used nonces are those of the file. *)
Theorem bootstrap_starts_checked readFile pemDecode parseKey keygen configPath file faults existing h :
  bootstrapMain readFile pemDecode parseKey keygen configPath file faults existing = Ok h →
  validateBootstrap (hdConfig h) = Ok tt ∧ length (hdAdminKey h) = 32%nat ∧ hdNonces h = existing ∧
  ∃ path contents key rest rest', readFile path = Some contents ∧
    Fields (trimSpace contents) = "ssh-ed25519"%string :: key :: rest ∧
    Fields (sgPublicLine (hdIssuer h)) = "ssh-ed25519"%string :: key :: rest'.
Proof.
  unfold bootstrapMain. destruct (configPath =s ""); [done|]. destruct (LoadConfig _ _) as [config|]; [|done]. cbn [rbind].
  destruct (LoadAdministratorPublicKey _ _ _ _) as [adminKey|]; [|done]. cbn [rbind].
  destruct (LoadSSHSigner _ _) as [signer|]; [|done]. cbn [rbind].
  destruct (ValidateSSHCAKeyPair _ signer _) as [[]|] eqn:Hk; [|done]. cbn [rbind]. unfold ValidateSSHCAKeyPair in Hk.
  destruct (readFile _) as [contents|] eqn:Hf; [|done]. destruct (Fields (trimSpace contents)) as [|ty [|key rest]] eqn:H1; try done.
  destruct (Fields (sgPublicLine signer)) as [|ty' [|key' rest']] eqn:H2; try done.
  destruct (String.eqb_spec ty "ssh-ed25519") as [->|]; [|done]. destruct (String.eqb_spec "ssh-ed25519" ty') as [<-|]; [|done].
  destruct (String.eqb_spec key key') as [<-|]; [|done]. unfold NewCertificateIssuer. destruct (sgPath signer =s ""); [done|]. cbn [rbind].
  destruct (OpenNonceStore _ faults existing) as [nonces|] eqn:Hn; [|done]. cbn [rbind]. unfold NewHandler.
  destruct (validateBootstrap config) as [[]|] eqn:Hv; [|done]. cbn [rbind]. destruct (Nat.eqb_spec (length adminKey) 32) as [Hl|]; [|done].
  cbn [negb]. intros [= <-]. cbn. split; [done|]. split; [done|]. split.
  - unfold OpenNonceStore in Hn. repeat case_match; congruence.
  - by eexists _, contents, key, rest, rest'.
Qed.
