(* ===== verification/ProgramsSpec.v ===== *)
(** * How the programs start and end, and what the end-to-end test sends *)

From Stdlib Require Import Ascii String.
From stdpp Require Import pretty.
From S2P Require Import Prelude GoText GoFloat GoValue RuntimeConfig PointStore Worker PlcContract PlcScan PlcScanProofs Hmi Messages MessagesSpec PlcSim Storage AlarmHistory Interleave Auth SshBootstrap SshKeys Maintenance AgentConfig Adapter AdapterProofs AgentHttp SimServer SimPoints SimPointsProofs Startup StartupSpec Programs.

(** ** block-agent *)

(** An agent that serves has been checked.  When [main] comes to serving, the
    address and the listener are the loopback's, both names of the local
    certificate are given, no command is pending in the database and its tables
    are of the current schema, the stored idle timeout and the production settings
    are within their bounds; the HMI's files are a directory's; and there is a
    maintenance server exactly if its address is set, with a valid
    configuration. *)
Theorem an_agent_that_serves_is_checked migrate details now flags m parts :
  agentMain migrate details now flags m = Ok parts →
  (validateLoopbackAddress (fgLocalAddress flags) = Ok tt ∧
   ∃ ip, amListen m = Ok ip ∧ validateLoopbackListener ip = Ok tt) ∧
  (fgLocalCert flags ≠ ""%string ∧ fgLocalKey flags ≠ ""%string) ∧
  ((∀ id row, dbCommands (stDB (daStore (apDatabase parts))) !! id = Some row → rwStatus row ≠ CommandPending) ∧
   schemaMatches (hdColumns (daHistory (apDatabase parts))) = true) ∧
  (∃ seconds, adIdleSeconds (apAccounts parts) = Some seconds ∧ validIdleTimeout (i64 (seconds * second)) = true) ∧
  settings_valid (psData (ruProduction (apRuntime parts))) ∧
  (ruFiles (apRuntime parts) = true → fgHMIDirectory flags ≠ ""%string ∧ amHMI m = Ok true) ∧
  (is_Some (apMaintenance parts) ↔ fgMaintenanceAddress flags ≠ ""%string) ∧
  (is_Some (apMaintenance parts) → validateKeyConfig (fgKeys flags) = true ∧
     fgMaintenanceCert flags ≠ ""%string ∧ fgMaintenanceKey flags ≠ ""%string).
Proof.
  unfold agentMain. intros H.
  destruct (if fgHMIDirectory flags =s "" then _ else _) as [hmi|] eqn:Hh; [|done]. cbn [rbind] in H.
  destruct (openDatabase _ _ _ m) as [d|] eqn:Ho; [|done]. cbn [rbind] in H.
  destruct (NewService (amAccounts m)) as [[[]|] accounts] eqn:Ha; [|done]. cbn [rbind] in H.
  destruct (NewLocalRuntimeWithOptions _ _ _ _) as [parts0|] eqn:Hr; [|done]. cbn [rbind] in H.
  destruct (String.eqb_spec (fgLocalCert flags) ""); [done|]. destruct (String.eqb_spec (fgLocalKey flags) ""); [done|]. cbn [orb] in H.
  destruct (maintenanceSetup flags m) as [maintenance|] eqn:Hm; [|done]. cbn [rbind] in H.
  destruct (RunTLS _ _ _ _ _) as [parts1|] eqn:Ht; [|done]. injection H as <-. cbn [apDatabase apAccounts apRuntime apMaintenance].
  unfold NewLocalRuntimeWithOptions in Hr. destruct (validateLoopbackAddress (fgLocalAddress flags)) as [[]|] eqn:Hv; [|done].
  destruct (OpenProduction _ (amSettings m)) as [production|] eqn:Hp; [|done]. injection Hr as <-.
  unfold RunTLS in Ht. destruct (_ || _); [done|]. destruct (amPair m); [done|]. destruct (amListen m) as [ip|] eqn:Hl; [|done].
  destruct (validateLoopbackListener ip) as [[]|] eqn:Hvl; [|done]. injection Ht as <-. cbn [ruProduction ruFiles].
  split; [split; [done|by exists ip]|]. split; [done|]. split.
  { unfold openDatabase in Ho. destruct (amOpen m) as [[[[directory connect] pragmas] journal] columnFaults].
    apply Open_ready in Ho as (_ & Hs & _ & _ & Hd). done. }
  split.
  { clear -Ha. unfold NewService, gbind, queryIdleTimeout, gbind, gget, gfail, gret in Ha.
    destruct (authStatement (amAccounts m)) as [[[]|] db]; [|done]. destruct (adIdleSeconds db) as [seconds|] eqn:Hi; [|done].
    destruct (validIdleTimeout (i64 (seconds * second))) eqn:Hv; [|done]. cbn in Ha. injection Ha as <-. by exists seconds. }
  split; [by apply OpenProduction_ok in Hp as [[? _] _]|]. split.
  { intros ->. destruct (String.eqb_spec (fgHMIDirectory flags) ""); [done|]. by destruct (amHMI m) as [[]|]. }
  unfold maintenanceSetup in Hm. destruct (String.eqb_spec (fgMaintenanceAddress flags) "") as [He|He].
  { injection Hm as <-. split; [|by intros []]. split; [by intros []|done]. }
  destruct (String.eqb_spec (fgMaintenanceCert flags) ""); [done|]. destruct (String.eqb_spec (fgMaintenanceKey flags) ""); [done|].
  cbn [orb] in Hm. destruct (validateKeyConfig (fgKeys flags)); [|done]. injection Hm as <-. split; [|done]. split; [done|by eexists].
Qed.

(** The local server ends in these ways with an error. *)
Definition local_failure (ended : serve_end) : bool :=
  match ended with ContextDone (Some _) | ServerFailed _ => true | _ => false end.

Section process.
Context {R : Type} (StopSession : R → R).
Implicit Types p : AgentProcess R.

(** What a history of the process tells: whether the local server has ended,
    whether with a failure, and whether [stop] was called. *)
Definition local_ended (events : list agent_event) : Prop := ∃ ended, EvLocal ended ∈ events.
Definition local_failed (events : list agent_event) : Prop := ∃ ended, EvLocal ended ∈ events ∧ local_failure ended = true.
Definition stop_called (events : list agent_event) : Prop := (∃ e, EvMaintenance e ∈ events) ∨ EvDeferred ∈ events.

(** The histories, last event last, that end in a state. *)
Record process_history (r0 : R) (events : list agent_event) p : Prop := {
  ph_restored : agRestored p = true ↔ stop_called events;
  ph_closing : agPhase p = PhaseClosing → agRestored p = true;
  ph_phase : agEnd p = None → agPhase p = PhaseServing ↔ ¬ local_ended events;
  ph_runtime : (local_ended events ∧ agRuntime p = StopSession r0) ∨ (¬ local_ended events ∧ agRuntime p = r0);
  ph_failed : agEnd p = Some (Exited 1) ↔ local_failed events;
  ph_closed : ∀ z, agEnd p = Some (Exited z) → local_ended events ∧ (z = 0 ∨ z = 1);
  ph_killed : agEnd p = Some Killed ↔ ∃ before, events = before ++ [EvSignal] ∧ stop_called before
}.

Lemma agentRun_snoc events ev p :
  agentRun StopSession (events ++ [ev]) p = agentRun StopSession events p ≫= agentEvent StopSession ev.
Proof.
  revert p. induction events as [|ev' events IH]; intros p; cbn [agentRun app].
  - cbn. by destruct (agentEvent StopSession ev p).
  - destruct (agentEvent StopSession ev' p); [apply IH|done].
Qed.

Lemma local_ended_snoc events ev :
  local_ended (events ++ [ev]) ↔ local_ended events ∨ match ev with EvLocal _ => True | _ => False end.
Proof.
  unfold local_ended. setoid_rewrite elem_of_app. setoid_rewrite list_elem_of_singleton. destruct ev; naive_solver.
Qed.

Lemma local_failed_snoc events ev :
  local_failed (events ++ [ev]) ↔
  local_failed events ∨ match ev with EvLocal ended => local_failure ended = true | _ => False end.
Proof.
  unfold local_failed. setoid_rewrite elem_of_app. setoid_rewrite list_elem_of_singleton. destruct ev; naive_solver.
Qed.

Lemma stop_called_snoc events ev :
  stop_called (events ++ [ev]) ↔
  stop_called events ∨ match ev with EvMaintenance _ | EvDeferred => True | _ => False end.
Proof.
  unfold stop_called. setoid_rewrite elem_of_app. setoid_rewrite list_elem_of_singleton. destruct ev; naive_solver.
Qed.

Lemma killed_snoc events ev :
  (∃ before, events ++ [ev] = before ++ [EvSignal] ∧ stop_called before) ↔
  match ev with EvSignal => stop_called events | _ => False end.
Proof.
  split; [intros (before & [-> [= ->]]%app_inj_tail & H); done|]. destruct ev; try done. intros H. by exists events.
Qed.

Lemma process_start p :
  agEnd p = None → agRestored p = false → agPhase p = PhaseServing → process_history (agRuntime p) [] p.
Proof.
  intros He Hr Hp. assert (¬ local_ended []) as Hn by (intros (? & []%not_elem_of_nil)).
  split; rewrite ?He, ?Hr, ?Hp.
  - split; [done|]. by intros [(? & []%not_elem_of_nil)|[]%not_elem_of_nil].
  - done.
  - done.
  - by right.
  - split; [done|]. by intros (? & []%not_elem_of_nil & _).
  - done.
  - split; [done|]. by intros ([|] & [=] & _).
Qed.

Lemma process_step r0 events ev p p' :
  process_history r0 events p → agentEvent StopSession ev p = Some p' → process_history r0 (events ++ [ev]) p'.
Proof.
  intros [Hrs Hpc Hph Hrt Hfl Hcl Hki] Hstep.
  unfold agentEvent in Hstep. destruct (agEnd p) eqn:He; [done|]. specialize (Hph eq_refl).
  assert (¬ local_failed events) as Hnf by (intros H; by apply Hfl in H). clear Hfl Hcl Hki.
  split; try setoid_rewrite local_ended_snoc; rewrite ?local_failed_snoc, ?stop_called_snoc, ?killed_snoc;
    generalize dependent (local_ended events); generalize dependent (local_failed events);
    generalize dependent (stop_called events); intros SC Hrs LF Hnf LE Hph Hrt;
    destruct p as [c r s ph t en]; cbn in *; destruct ev as [|e|ended|]; cbn in *;
    try destruct r; try destruct s; destruct ph; try (destruct ended as [[|]| |]; cbn in * ); try destruct c;
    simplify_eq; cbn in *; intuition congruence.
Qed.

Lemma agentRun_history r0 before events p p' :
  process_history r0 before p → agentRun StopSession events p = Some p' → process_history r0 (before ++ events) p'.
Proof.
  revert before p. induction events as [|ev events IH]; intros before p Hp; cbn [agentRun].
  - intros [= <-]. by rewrite app_nil_r.
  - destruct (agentEvent StopSession ev p) as [p1|] eqn:Hev; [|done]. intros Hrun.
    rewrite cons_middle, app_assoc. eapply IH; [|exact Hrun]. by eapply process_step.
Qed.

(** C19. The exit status tells of the local server only.  However signals,
    failures of the servers and the deferred calls follow each other, the status
    is 1 exactly if the local server or its shutdown failed, an exit has stopped
    the session, and the process is killed exactly by a signal that comes after
    [stop] was called: by a maintenance server that failed, or by the deferred
    calls of [main].  A maintenance server that fails, on a port in use for
    instance, takes the local server down with it, and the status is 0: a
    supervisor that restarts the agent on failure does not; and a signal that
    comes meanwhile kills the process with its session unstopped. *)
Theorem the_exit_status_hides_the_maintenance_server p :
  agEnd p = None → agRestored p = false → agPhase p = PhaseServing →
  (∀ events p', agentRun StopSession events p = Some p' →
     (agEnd p' = Some (Exited 1) ↔ ∃ ended, EvLocal ended ∈ events ∧ local_failure ended = true) ∧
     (∀ z, agEnd p' = Some (Exited z) → (z = 0 ∨ z = 1) ∧ agRuntime p' = StopSession (agRuntime p)) ∧
     (agEnd p' = Some Killed ↔ ∃ before, events = before ++ [EvSignal] ∧ ((∃ e, EvMaintenance e ∈ before) ∨ EvDeferred ∈ before)) ∧
     ((∀ ended, EvLocal ended ∉ events) → agRuntime p' = agRuntime p)) ∧
  (agServing p = true → ∀ e,
     (∃ p', agentRun StopSession [EvMaintenance e; EvLocal (ContextDone None); EvDeferred; EvDeferred] p = Some p' ∧
            agEnd p' = Some (Exited 0)) ∧
     (∃ p', agentRun StopSession [EvMaintenance e; EvSignal] p = Some p' ∧
            agEnd p' = Some Killed ∧ agRuntime p' = agRuntime p)).
Proof.
  intros He Hr Hp. split.
  - intros events p' Hrun. apply (agentRun_history _ [] _ _ _ (process_start p He Hr Hp)) in Hrun.
    destruct Hrun as [Hrs _ Hph Hrt Hfl Hcl Hki]. cbn [app] in *. split; [done|]. split.
    { intros z Hz. destruct (Hcl z Hz) as [Hl ?]. split; [done|]. by destruct Hrt as [[_ ?]|[[] _]]. }
    split; [done|]. intros Hn. destruct Hrt as [[(ended & Hl) _]|[_ ?]]; [by destruct (Hn ended)|done].
  - intros Hs e. destruct p as [c r s ph t en]. cbn in He, Hr, Hp, Hs. subst. split; eexists; split; try reflexivity; done.
Qed.
End process.

Lemma exit_status_witness :
  ∃ p', agentRun (fun _ => "stopped"%string)
          [EvMaintenance "listen tcp :8443: bind: address already in use"; EvLocal (ContextDone None); EvDeferred; EvDeferred]
          (mkProcess false false true PhaseServing "serving" None) = Some p' ∧ agEnd p' = Some (Exited 0).
Proof.
  exact (proj1 (proj2 (the_exit_status_hides_the_maintenance_server (fun _ => "stopped"%string)
    (mkProcess false false true PhaseServing "serving"%string None) eq_refl eq_refl eq_refl) eq_refl _)).
Defined.

(** ** plc-simulator *)

Section sockets.
Context `{HF : FileSystem}.
Variables (lookupGroup : string → result string Z) (ownGid socketMode : Z).

Lemma wp_ignore {E} m (Q : result E unit → OS → Prop) os : wp m (fun _ os' => Q (Ok tt) os') os → wp (ignore m) Q os.
Proof. unfold wp, ignore. by destruct (m os). Qed.

Lemma wp_listenAs f m (Q : result sockets_error unit → OS → Prop) os :
  wp m (fun r os' => match r with Ok _ => Q (Ok tt) os' | Err e => Q (Err (f e)) os' end) os → wp (listenAs f m) Q os.
Proof. unfold wp, listenAs. by destruct (m os) as [[[]|]]. Qed.

Lemma wp_orUnlink path m (Q : result sockets_error unit → OS → Prop) os :
  wp m (fun r os' => match r with Ok _ => Q (Ok tt) os' | Err e => ∀ os', Q (Err (SEControl e)) os' end) os → wp (orUnlink path m) Q os.
Proof.
  unfold wp, orUnlink. destruct (m os) as [[[]|e] os1]; [done|]. cbn [fst snd]. intros HQ.
  unfold gbind, ignore, gfail. destruct (unlink path os1) as [r1 os2]. destruct (unlink path os2) as [r2 os3]. apply HQ.
Qed.

(** The mode of a socket that has it already. *)
Lemma wp_chmod path gid (Q : result sockets_error unit → OS → Prop) os :
  osFiles os !! nodeOf path = Some (NSocket mode0660 gid) →
  (∀ os', osFiles os' = osFiles os → Q (Ok tt) os') → wp (ignore (onNode path (withMode mode0660))) Q os.
Proof.
  intros Hp HQ. apply wp_ignore, wp_onNode; [|by intros; apply HQ]. intros os' Hos. apply HQ. rewrite Hos.
  apply map_eq. intros p. destruct (decide (p = nodeOf path)) as [->|].
  - by rewrite lookup_alter_eq, Hp.
  - by rewrite lookup_alter_ne.
Qed.

(** A second [Listen] takes nothing that is there and is not its own. *)
Lemma second_Listen_keeps path group os r os' f p n :
  grown ownGid (dirOf path :: parents (dirOf path)) (osFiles os) f → listened lookupGroup path group f r os' →
  osFiles os !! p = Some n → p ≠ nodeOf (dirOf path) → p ≠ nodeOf path → osFiles os' !! p = Some n.
Proof.
  intros Hg [Hs _] Hp H1 H2. assert (f !! p = Some n) as Hf by (destruct (Hg p) as [->|(? & _)]; congruence).
  rewrite <-Hf. destruct Hs as [Hs|[Hs _]]; apply Hs; set_solver.
Qed.

Lemma openSockets_spec c os :
  nodeOf (dirOf (scIOSocket c)) ≠ nodeOf (scIOSocket c) → nodeOf (dirOf (scControlSocket c)) ≠ nodeOf (scControlSocket c) →
  nodeOf (dirOf (scControlSocket c)) ≠ nodeOf (scIOSocket c) → nodeOf (dirOf (scIOSocket c)) ≠ nodeOf (scControlSocket c) →
  wp (openSockets lookupGroup ownGid socketMode c) (fun r os' => r = Ok tt →
    ∃ gid gid', lookupGroup (scIOSocketGroup c) = Ok gid ∧ lookupGroup (scControlSocketGroup c) = Ok gid' ∧
      osFiles os' !! nodeOf (scIOSocket c) =
        Some (NSocket mode0660 (if bool_decide (nodeOf (scIOSocket c) = nodeOf (scControlSocket c)) then gid' else gid)) ∧
      osFiles os' !! nodeOf (scControlSocket c) = Some (NSocket mode0660 gid') ∧
      osFiles os' !! nodeOf (dirOf (scControlSocket c)) = Some (NDir mode0750 gid') ∧
      osFiles os' !! nodeOf (dirOf (scIOSocket c)) =
        Some (NDir mode0750 (if bool_decide (nodeOf (dirOf (scIOSocket c)) = nodeOf (dirOf (scControlSocket c))) then gid' else gid))) os.
Proof.
  intros H2 H3 H4 H5. unfold openSockets. apply wp_bind, wp_listenAs.
  eapply wp_mono; [by apply Listen_spec|]. intros [[]|e] os1; [|done]. intros (f1 & _ & _ & Hio).
  destruct (Hio eq_refl) as (gid & Hg & Hs & Hd). clear Hio.
  apply wp_bind, wp_orUnlink. eapply wp_mono; [by apply Listen_spec|]. intros [[]|e] os2; [|done].
  intros (f2 & Hgrown & Hl). pose proof Hl as [_ Hc].
  destruct (Hc eq_refl) as (gid' & Hg' & Hs' & Hd'). clear Hc.
  assert (osFiles os2 !! nodeOf (scIOSocket c) =
    Some (NSocket mode0660 (if bool_decide (nodeOf (scIOSocket c) = nodeOf (scControlSocket c)) then gid' else gid))) as Hs2.
  { case_bool_decide as Hsame; [by rewrite Hsame|]. by eapply second_Listen_keeps. }
  assert (osFiles os2 !! nodeOf (dirOf (scIOSocket c)) =
    Some (NDir mode0750 (if bool_decide (nodeOf (dirOf (scIOSocket c)) = nodeOf (dirOf (scControlSocket c))) then gid' else gid))) as Hd2.
  { clear Hs2. case_bool_decide as Hsame; [by rewrite Hsame|]. by eapply second_Listen_keeps. }
  apply wp_bind. apply (wp_chmod _ _ _ _ Hs2). intros os3 H3'. rewrite <-H3' in Hs2, Hs', Hd', Hd2.
  apply (wp_chmod _ _ _ _ Hs'). intros os4 H4' _. rewrite H4'. by exists gid, gid'.
Qed.

Lemma unlink_quiet path os : osFaults os = [] → unlink path os = (Ok tt, mkOS (delete (nodeOf path) (osFiles os)) []).
Proof. destruct os. cbn. by intros ->. Qed.

Lemma closeSockets_quiet c os :
  osFaults os = [] →
  closeSockets c os = (Ok tt, mkOS (delete (nodeOf (scControlSocket c)) (delete (nodeOf (scIOSocket c)) (osFiles os))) []).
Proof.
  intros H. unfold closeSockets, gbind, ignore. rewrite (unlink_quiet _ os H).
  do 3 (rewrite unlink_quiet by reflexivity). cbn. do 2 f_equal. apply map_eq. intros p. rewrite !lookup_delete.
  by repeat case_decide.
Qed.
End sockets.

(** C22. The simulated PLC's two sockets are kept apart, as long as they are two.
    With an accepted configuration in which neither socket's file is the directory
    of one, a start that succeeds, whatever failed on the way, leaves each socket
    to its owner and its own group (0660), and so its directory.  The groups
    differ, but the paths need to differ as texts only: if they name one file, it
    is the control socket, for the control group alone; and a directory that both
    share belongs to that group too, so that the IO group cannot reach its socket.
    When no call fails at the end, both sockets are gone and nothing else has
    changed. *)
Theorem the_two_sockets_are_apart `{FileSystem} parseDuration path file c lookupGroup ownGid socketMode os :
  LoadSimulator parseDuration path file = Ok c →
  nodeOf (dirOf (scIOSocket c)) ∉ [nodeOf (scIOSocket c); nodeOf (scControlSocket c)] →
  nodeOf (dirOf (scControlSocket c)) ∉ [nodeOf (scIOSocket c); nodeOf (scControlSocket c)] →
  (let '(r, os') := openSockets lookupGroup ownGid socketMode c os in
   r = Ok tt →
   ∃ gid gid', lookupGroup (scIOSocketGroup c) = Ok gid ∧ lookupGroup (scControlSocketGroup c) = Ok gid' ∧
     scIOSocketGroup c ≠ scControlSocketGroup c ∧ scIOSocket c ≠ scControlSocket c ∧
     osFiles os' !! nodeOf (scIOSocket c) =
       Some (NSocket mode0660 (if bool_decide (nodeOf (scIOSocket c) = nodeOf (scControlSocket c)) then gid' else gid)) ∧
     osFiles os' !! nodeOf (scControlSocket c) = Some (NSocket mode0660 gid') ∧
     osFiles os' !! nodeOf (dirOf (scControlSocket c)) = Some (NDir mode0750 gid') ∧
     osFiles os' !! nodeOf (dirOf (scIOSocket c)) =
       Some (NDir mode0750 (if bool_decide (nodeOf (dirOf (scIOSocket c)) = nodeOf (dirOf (scControlSocket c))) then gid' else gid))) ∧
  (osFaults os = [] →
     let os' := (closeSockets c os).2 in
     osFiles os' !! nodeOf (scIOSocket c) = None ∧ osFiles os' !! nodeOf (scControlSocket c) = None ∧
     ∀ p, p ≠ nodeOf (scIOSocket c) → p ≠ nodeOf (scControlSocket c) → osFiles os' !! p = osFiles os !! p).
Proof.
  intros (_ & _ & _ & H1 & Hg)%LoadSimulator_ok [H2 [H3 _]%not_elem_of_cons]%not_elem_of_cons [H4 [H5 _]%not_elem_of_cons]%not_elem_of_cons. split.
  - pose proof (openSockets_spec lookupGroup ownGid socketMode c os H2 H5 H4 H3) as Ho. unfold wp in Ho.
    destruct (openSockets _ _ _ c os) as [r os']. intros Hr. destruct (Ho Hr) as (gid & gid' & Ho'). exists gid, gid'. tauto.
  - intros Hf. cbn zeta. rewrite closeSockets_quiet by done. cbn [snd osFiles].
    split; [rewrite !lookup_delete; by repeat case_decide|split; [apply lookup_delete_eq|]].
    intros p Hp Hp'. by rewrite !lookup_delete_ne by done.
Qed.

Module Sim.
Definition parseDuration (s : string) : option Z := if s =s "1s" then Some second else None.
Definition engine : Simulator := mkSimulator 7 (f64_of_Z 0) true [10; 10; 1] 5 2 100 10.
Definition configuration (control : string) : SimulatorConfig :=
  mkSimulatorConfig "/run/plc/io/io.sock" "plc-io" control "plc-control" "/var/lib/plc/state.json" "1s" engine.
Definition groups (name : string) : result string Z :=
  if name =s "plc-io" then Ok 990 else if name =s "plc-control" then Ok 991 else Err "unknown group"%string.
(** An old socket is in the way. *)
Definition machine : OS :=
  mkOS (<["/run/plc/io/io.sock"%string := NSocket 511 0]> {["/run/plc/io"%string := NDir 493 0]}) [].
Definition started (control : string) := openSockets groups 0 493 (configuration control) machine.
End Sim.

Lemma sockets_witness :
  osFiles (Sim.started "/run/plc/control/c.sock").2 !! "/run/plc/io"%string = Some (NDir 488 990) ∧
  osFiles (closeSockets (Sim.configuration "/run/plc/control/c.sock") (Sim.started "/run/plc/control/c.sock").2).2 !! "/run/plc/io/io.sock"%string = None.
Proof.
  split.
  - pose proof (the_two_sockets_are_apart Sim.parseDuration "/etc/plc.json" (ConfigValue (Sim.configuration "/run/plc/control/c.sock"))
      (Sim.configuration "/run/plc/control/c.sock") Sim.groups 0 493 Sim.machine) as H.
    destruct H as [H _]; [vm_compute; reflexivity|apply (bool_decide_unpack _); vm_compute; exact I..|].
    vm_compute in H. destruct (H eq_refl) as (gid & gid' & Hg & _ & _ & _ & _ & _ & _). injection Hg as <-.
    vm_compute. reflexivity.
  - pose proof (the_two_sockets_are_apart Sim.parseDuration "/etc/plc.json" (ConfigValue (Sim.configuration "/run/plc/control/c.sock"))
      (Sim.configuration "/run/plc/control/c.sock") Sim.groups 0 493 (Sim.started "/run/plc/control/c.sock").2) as H.
    destruct H as [_ H]; [vm_compute; reflexivity|apply (bool_decide_unpack _); vm_compute; exact I..|].
    exact (proj1 (H eq_refl)).
Defined.

(** Both sockets in one directory: it belongs to the control group, and the IO
    group cannot enter it. *)
Example a_shared_directory_shuts_the_io_group_out :
  is_ok (LoadSimulator Sim.parseDuration "/etc/plc.json" (ConfigValue (Sim.configuration "/run/plc/io/c.sock"))) = true ∧
  (let files := osFiles (Sim.started "/run/plc/io/c.sock").2 in
   (files !! "/run/plc/io"%string, files !! "/run/plc/io/io.sock"%string)) = (Some (NDir 488 991), Some (NSocket 432 990)).
Proof. vm_compute. split; reflexivity. Qed.

(** Two texts for one path are accepted: the IO socket is replaced by the control
    socket, and nothing listens for the IO group any more. *)
Example one_path_in_two_spellings :
  is_ok (LoadSimulator Sim.parseDuration "/etc/plc.json" (ConfigValue (Sim.configuration "/run/plc/io/./io.sock"))) = true ∧
  (let '(r, os) := Sim.started "/run/plc/io/./io.sock" in (is_ok r, osFiles os !! "/run/plc/io/io.sock"%string)) =
  (true, Some (NSocket 432 991)).
Proof. vm_compute. split; reflexivity. Qed.

(** ** The register simulator's program *)

Lemma digit_val_range a d : digit_val a = Some d → 0 ≤ d < 10.
Proof. unfold digit_val. destruct (_ && _) eqn:H; [|done]. intros [= <-]. lia. Qed.

Lemma digits_val_mono s : ∀ acc v, 0 ≤ acc → digits_val acc s = Some v → acc ≤ v.
Proof.
  induction s as [|a s IH]; intros acc v Hacc; cbn [digits_val]; [by intros [= ->]|].
  destruct (digit_val a) as [d|] eqn:Hd; [|done]. apply digit_val_range in Hd. intros Hv%IH; lia.
Qed.

Lemma digitsBase_decimal s : ∀ acc z,
  0 ≤ acc → digits_val acc s = Some z → z < 65536 → digitsBase 10 65536 acc false s = Some (z, false).
Proof.
  induction s as [|a s IH]; intros acc z Hacc; cbn [digits_val digitsBase]; [by intros [= ->]|].
  destruct (digit_val a) as [d|] eqn:Hd; [|done]. intros Hv Hz.
  assert (Ascii.eqb a "_" = false ∧ charDigit a = Some d ∧ 0 ≤ d < 10) as (-> & -> & Hr).
  { revert Hd. unfold digit_val. destruct (Z.leb_spec 48 (Z.of_nat (nat_of_ascii a))), (Z.leb_spec (Z.of_nat (nat_of_ascii a)) 57); try done.
    cbn [andb]. intros [= <-]. split; [|split; [|lia]].
    - apply Ascii.eqb_neq. intros ->. vm_compute in H0. done.
    - unfold charDigit, lowerChar. rewrite (proj2 (Nat.leb_gt 65 (nat_of_ascii a))) by lia. cbn [andb].
      rewrite (proj2 (Z.leb_le 48 _)), (proj2 (Z.leb_le _ 57)) by lia. done. }
  rewrite (proj2 (Z.leb_gt 10 d)) by lia. pose proof (digits_val_mono s (acc * 10 + d) z ltac:(lia) Hv) as Hge.
  rewrite (proj2 (Z.leb_gt 65536 (acc * 10 + d))) by lia. apply IH; [lia|done|done].
Qed.

Lemma pretty_go_head x s : (0 < x)%N → ∃ a rest, pretty_N_go x s = String a rest ∧ a ≠ "0"%char ∧ Ascii.eqb a "0" = false.
Proof.
  revert s. induction (N.lt_wf_0 x) as [x _ IH]. intros s Hx. rewrite pretty_N_go_step by done.
  destruct (N.eq_dec (x / 10) 0) as [E|E].
  - rewrite E. change (pretty_N_go 0 ?t) with t. eexists _, _. split; [done|].
    assert (x = 1 ∨ x = 2 ∨ x = 3 ∨ x = 4 ∨ x = 5 ∨ x = 6 ∨ x = 7 ∨ x = 8 ∨ x = 9)%N as Hc.
    { clear IH. apply N.div_small_iff in E; lia. }
    by destruct Hc as [->|[->|[->|[->|[->|[->|[->|[->| ->]]]]]]]].
  - apply IH; [by apply N.div_lt|by apply N.neq_0_lt_0].
Qed.

Lemma parseUint16_pretty z : 0 ≤ z < 65536 → parseUint16 (pretty z) = Some z.
Proof.
  intros Hz. destruct (decide (z = 0)) as [->|Hn]; [vm_compute; reflexivity|].
  pose proof (digits_pretty_Z z ltac:(lia)) as Hd.
  assert (∃ a rest, pretty z = String a rest ∧ a ≠ "0"%char ∧ Ascii.eqb a "0" = false) as (a & rest & E & Ha & Hb).
  { rewrite pretty_nonneg by lia. unfold pretty, pretty_N. rewrite decide_False by lia. apply pretty_go_head. lia. }
  rewrite E in *. unfold parseUint16. 
  assert (match String a rest with
          | String "0" rest0 => match basePrefix (String a rest) with Some (base, String a0 rest') => (base, String a0 rest') | _ => (8, rest0) end
          | _ => (10, String a rest) end = (10, String a rest)) as ->.
  { clear -Ha. destruct a as [[] [] [] [] [] [] [] []]; try reflexivity. by destruct Ha. }
  cbn [String.eqb]. rewrite (digitsBase_decimal _ 0 z) by (done || lia). reflexivity.
Qed.

Lemma last_char a s : ∃ t b, String a s = String.append t (String b "") ∧ (allChars graphic (String a s) = true → graphic b = true).
Proof.
  revert a. induction s as [|c s IH]; intros a.
  - exists ""%string, a. split; [done|]. cbn [allChars]. by rewrite andb_true_r.
  - destruct (IH c) as (t & b & E & Hb). exists (String a t), b. rewrite append_cons, <-E. split; [done|].
    cbn [allChars]. intros [_ H]%andb_true_iff. by apply Hb.
Qed.

Lemma trimSpace_all s : allChars graphic s = true → trimSpace s = s.
Proof.
  destruct s as [|a s]; [reflexivity|]. intros H. destruct (last_char a s) as (t & b & E & Hb).
  apply (trimSpace_graphic a s b t E); [|by apply Hb]. cbn [allChars] in H. by apply andb_true_iff in H as [-> _].
Qed.

Lemma trimSpace_pretty z : 0 ≤ z → trimSpace (pretty z) = pretty z.
Proof.
  intros Hz. apply trimSpace_all. apply (allChars_mono isDigit); [|by apply pretty_digits]. intros a Ha.
  unfold graphic, isDigit in *. revert Ha. clear. destruct a as [[] [] [] [] [] [] [] []]; vm_compute; done.
Qed.

(** The text of an assignment of decimal numbers. *)
Definition assignmentText (p : Z * Z) : string := String.append (pretty p.1) (String "=" (pretty p.2)).

Definition word_pair (p : Z * Z) : Prop := 0 ≤ p.1 < 65536 ∧ 0 ≤ p.2 < 65536.

Lemma setAssignment_text p m : word_pair p → setAssignment (assignmentText p) m = Some (<[p.1 := p.2]> m).
Proof.
  intros [H1 H2]. unfold setAssignment, assignmentText. rewrite cutChar_append by (apply pretty_no_char; [lia|done]).
  rewrite !trimSpace_pretty, !parseUint16_pretty by lia. done.
Qed.

Lemma setAssignments_texts ps : ∀ m,
  Forall word_pair ps → setAssignments (map assignmentText ps) m = Some (list_to_map (reverse ps) ∪ m).
Proof.
  induction ps as [|p ps IH]; intros m; cbn [map setAssignments]; [intros _; by rewrite reverse_nil, list_to_map_nil, map_empty_union|].
  intros [Hp Hps]%Forall_cons. rewrite setAssignment_text by done. rewrite IH by done. f_equal.
  rewrite reverse_cons, list_to_map_app, <-(assoc_L (∪)). f_equal. destruct p as [k v]. rewrite list_to_map_cons, list_to_map_nil, <-insert_union_l, map_empty_union. done.
Qed.

Lemma digitsBase_range base s : ∀ limit acc u v, 0 ≤ acc < limit → 0 ≤ base → digitsBase base limit acc u s = Some v → 0 ≤ v.1 < limit.
Proof.
  induction s as [|a s IH]; intros limit acc u v Hacc Hb; cbn [digitsBase]; [by intros [= <-]|].
  destruct (Ascii.eqb a "_"); [by apply IH|]. destruct (charDigit a) as [d|] eqn:Hd; [|done].
  assert (0 ≤ d) as Hd0.
  { revert Hd. unfold charDigit. generalize (Z.of_nat (nat_of_ascii (lowerChar a))). intros n. cbn zeta.
    destruct ((48 <=? n) && (n <=? 57)) eqn:H1; [intros [= <-]; lia|].
    destruct ((97 <=? n) && (n <=? 122)) eqn:H2; [intros [= <-]; lia|done]. }
  destruct (base <=? d); [done|]. destruct (Z.leb_spec limit (acc * base + d)); [done|]. apply IH; [nia|done].
Qed.

Lemma parseUint16_range s v : parseUint16 s = Some v → 0 ≤ v < 65536.
Proof.
  unfold parseUint16. destruct (match s with String "0" _ => _ | _ => _ end) as [base digits] eqn:Hb.
  assert (0 ≤ base) as Hbase.
  { revert Hb. unfold basePrefix. repeat case_match; intros [= <- <-]; simplify_eq; lia. }
  destruct (s =s ""); [done|]. destruct (digitsBase base 65536 0 false digits) as [[v' u]|] eqn:Hd; [|done].
  destruct (u && _); [done|]. intros [= <-]. by apply (digitsBase_range _ _ 65536 0 false (v', u)) in Hd.
Qed.

Lemma setAssignments_words texts : ∀ m m',
  map_Forall (fun a v => word_pair (a, v)) m → setAssignments texts m = Some m' → map_Forall (fun a v => word_pair (a, v)) m'.
Proof.
  induction texts as [|t texts IH]; intros m m' Hm; cbn [setAssignments]; [by intros [= <-]|].
  destruct (setAssignment t m) as [m1|] eqn:E; [|done]. apply IH. unfold setAssignment in E.
  destruct (cutChar t "=") as [[a v]|]; [|done]. destruct (parseUint16 (trimSpace a)) as [x|] eqn:Hx; [|done].
  destruct (parseUint16 (trimSpace v)) as [y|] eqn:Hy; [|done]. injection E as <-.
  apply map_Forall_insert_2; [|done]. split; cbn; by eapply parseUint16_range.
Qed.

Lemma NewPointManager_server equalFold fileName now nextID server file faults m :
  NewPointManager equalFold fileName now nextID server file faults = Ok m → pmServer m = server.
Proof.
  unfold NewPointManager. case_match; [done|]. unfold Reload, gbind, glift, gmod, publishEvent, readPointDefinitions. cbn [pmFaults pmFile].
  destruct faults as [|[[e remains]|] faults]; cbn; [|done|];
    (destruct file; cbn; intros Hm; repeat case_match; simplify_eq; unfold gmod in *; by simplify_eq).
Qed.

(** The registers start as they were assigned.  When the register simulator
    comes to serving, its unit is one of 1 to 247, its page is on the loopback,
    and every register has the last value that a flag gave it, or zero, all of
    them 16-bit words; an assignment of decimal numbers assigns just these. *)
Theorem registers_start_as_assigned equalFold isLoopbackIP flags now nextID file faults listen listenUI address points :
  0 ≤ tgUnitID flags →
  toolMain equalFold isLoopbackIP flags now nextID file faults listen listenUI = Ok (address, points) →
  (1 ≤ svUnitID (pmServer points) ≤ 247 ∧ svUnitID (pmServer points) = tgUnitID flags) ∧
  isLoopbackAddress equalFold isLoopbackIP (tgUI flags) = true ∧
  (∃ initial, setAssignments (tgRegisters flags) ∅ = Some initial ∧ map_Forall (fun a v => word_pair (a, v)) initial ∧
     ∀ a, svRegisters (pmServer points) a = default 0 (initial !! a)) ∧
  ∀ ps, Forall word_pair ps → tgRegisters flags = map assignmentText ps →
    ∀ a, svRegisters (pmServer points) a = default 0 ((list_to_map (reverse ps) : gmap Z Z) !! a).
Proof.
  intros Hu. unfold toolMain. destruct (setAssignments (tgRegisters flags) ∅) as [initial|] eqn:Ha; [|done].
  destruct ((tgUnitID flags =? 0) || (247 <? tgUnitID flags)) eqn:Hr; [done|].
  destruct (isLoopbackAddress equalFold isLoopbackIP (tgUI flags)); [|done]. cbn [negb].
  destruct (NewPointManager _ _ _ _ _ _ _) as [m|] eqn:Hm; [|done]. destruct listen; [|done]. destruct listenUI; [|done].
  intros [= <- <-]. apply NewPointManager_server in Hm as ->. cbn.
  assert (u8 (tgUnitID flags) = tgUnitID flags) as -> by (apply wrap_id; unfold in_range; lia).
  split; [lia|]. split; [done|]. split.
  - exists initial. split; [done|]. split; [|done]. eapply setAssignments_words; [|exact Ha]. apply map_Forall_empty.
  - intros ps Hps Hf x. rewrite Hf, setAssignments_texts, (right_id_L ∅ (∪)) in Ha by done. by injection Ha as <-.
Qed.

Module Tool.
Definition flags : ToolFlags :=
  mkToolFlags "192.168.1.10:1502" 1 "127.0.0.1:15080" "points.json" ["504=0x00FF"; " 510 = 0b1010"; "504=1_000"; "511=010"]%string.
Definition loopback (host : string) : option bool := if host =s "127.0.0.1" then Some true else None.
Definition started := toolMain String.eqb loopback flags 5 100 NoFile [] (Ok "192.168.1.10:1502"%string) (Ok ""%string).
Definition server : Server := match started with Ok (_, points) => pmServer points | Err _ => NewServer 0 ∅ end.
End Tool.

(** Hexadecimal, binary and octal numbers, a repeated address and an underscore. *)
Lemma registers_witness : svUnitID Tool.server = 1 ∧ read (svRegisters Tool.server) 504 8 = [1000; 0; 0; 0; 0; 0; 10; 8].
Proof.
  destruct (toolMain String.eqb Tool.loopback Tool.flags 5 100 NoFile [] (Ok "192.168.1.10:1502"%string) (Ok ""%string))
    as [[address points]|] eqn:E; [|discriminate E].
  destruct (registers_start_as_assigned String.eqb Tool.loopback Tool.flags 5 100 NoFile [] (Ok "192.168.1.10:1502"%string) (Ok ""%string)
    address points ltac:(done) E) as ([_ Hu] & _).
  unfold Tool.server, Tool.started. rewrite E. split; [exact Hu|]. vm_compute in E. injection E as <- <-. vm_compute. reflexivity.
Defined.

Example bad_assignments :
  map (fun t => bool_decide (is_Some (setAssignment t ∅))) ["504"; "504=65536"; "0x=1"; "1=_1"; "1=1__0"; "1=08"; "-1=0"]%string = replicate 7 false.
Proof. vm_compute. reflexivity. Qed.

(** ** The event stream *)

(** What happens around one page: an event is published, or the page's loop takes
    a turn. *)
Inductive page_step : Type := StPublish (event : simulatorEvent) | StTurn (turn : page_turn).

Definition published (steps : list page_step) : list simulatorEvent :=
  omap (fun st => match st with StPublish event => Some event | StTurn _ => None end) steps.

Definition waiting (x : event_page * PointManager) : list simulatorEvent := default [] (pmEvents x.2 !! pgChannel x.1).

Section events.
Variable (marshal : simulatorEvent → option string).

Definition pageStep (st : page_step) (x : event_page * PointManager) : event_page * PointManager :=
  match st with
  | StPublish event => (x.1, setEvents (publish event (pmEvents x.2)) x.2)
  | StTurn turn => pageTurn marshal turn x
  end.

Fixpoint pageRun (steps : list page_step) (x : event_page * PointManager) : event_page * PointManager :=
  match steps with [] => x | st :: rest => pageRun rest (pageStep st x) end.

(** The channel has room whenever an event is published. *)
Fixpoint keeps_up (steps : list page_step) (x : event_page * PointManager) : Prop :=
  match steps with
  | [] => True
  | st :: rest =>
      match st with StPublish _ => (length (waiting x) < eventCapacity)%nat | StTurn _ => True end ∧ keeps_up rest (pageStep st x)
  end.

(** What a page has sent, from the events it has taken. *)
Definition sentFor (taken : list simulatorEvent) : list string := readyText :: map dataText (omap marshal taken).

Record page_ok (all taken : list simulatorEvent) (x : event_page * PointManager) : Prop := {
  po_sent : pgSent x.1 = sentFor taken;
  po_bound : (length (waiting x) ≤ eventCapacity)%nat;
  po_open : pgOpen x.1 = true → is_Some (pmEvents x.2 !! pgChannel x.1);
  po_order : sublist (taken ++ if pgOpen x.1 then waiting x else []) all
}.

Lemma waiting_publish event x :
  is_Some (pmEvents x.2 !! pgChannel x.1) →
  waiting (pageStep (StPublish event) x) =
    if (length (waiting x) <? eventCapacity)%nat then waiting x ++ [event] else waiting x.
Proof.
  intros [queue Hq]. unfold waiting, pageStep, publish. cbn [fst snd pmEvents setEvents]. rewrite lookup_fmap, Hq. reflexivity.
Qed.

Lemma page_step_ok all taken st x :
  page_ok all taken x →
  ∃ taken', page_ok (all ++ published [st]) taken' (pageStep st x) ∧
    (pgOpen (pageStep st x).1 = true → pgOpen x.1 = true) ∧
    (pgOpen (pageStep st x).1 = true →
     match st with StPublish _ => (length (waiting x) < eventCapacity)%nat | StTurn _ => True end →
     taken ++ waiting x = all → taken' ++ waiting (pageStep st x) = all ++ published [st]).
Proof.
  intros [Hsent Hb Hopen Hord]. destruct st as [event|turn].
  - exists taken. change (published [StPublish event]) with [event]. split; [|split; [done|]].
    + split; [done| |..].
      * destruct (pmEvents x.2 !! pgChannel x.1) eqn:Hq.
        -- rewrite waiting_publish by (by eexists). destruct (Nat.ltb_spec (length (waiting x)) eventCapacity); [|exact Hb]. rewrite length_app. cbn [length]. lia.
        -- unfold waiting, pageStep, publish. cbn [fst snd pmEvents setEvents]. rewrite lookup_fmap, Hq. cbn. lia.
      * intros Ho. cbn [pageStep fst snd] in *. destruct (Hopen Ho) as [queue Hq]. unfold publish. cbn [pmEvents setEvents].
        rewrite lookup_fmap, Hq. by eexists.
      * cbn [pageStep fst] in *. destruct (pgOpen x.1) eqn:Ho; [|by apply sublist_inserts_r].
        change (x.1, setEvents (publish event (pmEvents x.2)) x.2) with (pageStep (StPublish event) x).
        rewrite waiting_publish by auto. destruct (_ <? _)%nat; [|by apply sublist_inserts_r].
        rewrite (assoc_L (++)). by apply sublist_app.
    + intros Ho Hlen Hall. cbn [pageStep fst] in Ho. rewrite waiting_publish by auto.
      rewrite (proj2 (Nat.ltb_lt _ _) Hlen), (assoc_L (++)). by rewrite Hall.
  - change (published [StTurn turn]) with (@nil simulatorEvent). rewrite app_nil_r. destruct x as [p m]. cbn [pageStep pageTurn fst snd] in *.
    destruct (pgOpen p) eqn:Ho; cbn [negb].
    2: { exists taken. split; [by split; cbn; rewrite ?Ho|]. cbn. rewrite Ho. done. }
    assert (page_ok all taken (mkPage (pgChannel p) (pgSent p) false, unsubscribe (pgChannel p) m)) as Hclosed.
    { split; [done| |done|].
      - unfold waiting, unsubscribe. cbn. rewrite lookup_delete_eq. cbn. lia.
      - cbn. rewrite app_nil_r. etrans; [|exact Hord]. by apply sublist_inserts_r. }
    destruct (Hopen eq_refl) as [queue Hq]. destruct turn as [|writes].
    { exists taken. split; [exact Hclosed|]. done. }
    unfold SimPoints.receive. rewrite Hq. unfold waiting in Hord, Hb. cbn in Hq, Hord, Hb. rewrite Hq in Hord, Hb. cbn in Hord, Hb.
    destruct queue as [|event queue].
    { exists taken. split; [split; cbn; rewrite ?Ho; [done| |by eexists|]|].
      - unfold waiting. cbn. by rewrite Hq.
      - unfold waiting. cbn. by rewrite Hq.
      - split; [done|]. intros _ _. unfold waiting. cbn. by rewrite Hq. }
    assert (∀ m' sent, sent = sentFor (taken ++ [event]) → pmEvents m' = <[pgChannel p := queue]> (pmEvents m) →
      page_ok all (taken ++ [event]) (mkPage (pgChannel p) sent true, m') ∧
      waiting (mkPage (pgChannel p) sent true, m') = queue) as Htake.
    { intros m' sent Hs' Hm'. assert (waiting (mkPage (pgChannel p) sent true, m') = queue) as Hw.
      { unfold waiting. cbn. by rewrite Hm', lookup_insert_eq. }
      split; [|done]. split; cbn [fst snd pgOpen pgChannel].
      - exact Hs'.
      - rewrite Hw. cbn [length] in Hb. lia.
      - intros _. rewrite Hm', lookup_insert_eq. by eexists.
      - rewrite Hw, <-(assoc_L (++)). exact Hord. }
    assert (∀ rest, (taken ++ event :: queue = rest) → (taken ++ [event]) ++ queue = rest) as Hcons by (by intros rest <-; rewrite <-(assoc_L (++))).
    assert (waiting (p, m) = event :: queue) as Hwm by (unfold waiting; cbn; by rewrite Hq). rewrite Hwm.
    destruct (marshal event) as [data|] eqn:Hj; [destruct writes|].
    + destruct (Htake (setEvents (<[pgChannel p := queue]> (pmEvents m)) m) (pgSent p ++ [dataText data])) as [H1 H2]; [|done|].
      { cbn in Hsent. rewrite Hsent. unfold sentFor. rewrite omap_app, map_app. cbn. by rewrite Hj. }
      exists (taken ++ [event]). split; [exact H1|]. split; [done|]. intros _ _. rewrite H2. apply Hcons.
    + exists taken. split; [|done]. split; [exact Hsent| |done|].
      * unfold waiting, unsubscribe. cbn. rewrite lookup_delete_eq. cbn. lia.
      * cbn. rewrite app_nil_r. etrans; [|exact Hord]. by apply sublist_inserts_r.
    + destruct (Htake (setEvents (<[pgChannel p := queue]> (pmEvents m)) m) (pgSent p)) as [H1 H2]; [|done|].
      { cbn in Hsent. rewrite Hsent. unfold sentFor. rewrite omap_app, map_app. cbn. rewrite Hj. cbn. by rewrite app_nil_r. }
      destruct p as [channel sent open]. cbn in *. subst open. exists (taken ++ [event]). split; [exact H1|]. split; [done|].
      intros _ _. rewrite H2. apply Hcons.
Qed.

Lemma page_run_ok steps : ∀ all taken x,
  page_ok all taken x →
  ∃ taken', page_ok (all ++ published steps) taken' (pageRun steps x) ∧
    (pgOpen (pageRun steps x).1 = true → pgOpen x.1 = true) ∧
    (pgOpen (pageRun steps x).1 = true → keeps_up steps x → taken ++ waiting x = all →
     taken' ++ waiting (pageRun steps x) = all ++ published steps).
Proof.
  induction steps as [|st steps IH]; intros all taken x Hx.
  { exists taken. cbn. rewrite app_nil_r. done. }
  destruct (page_step_ok all taken st x Hx) as (taken1 & H1 & Ho1 & Hk1). destruct (IH _ _ _ H1) as (taken' & H2 & Ho2 & Hk2).
  assert (published (st :: steps) = published [st] ++ published steps) as Hp by exact (omap_app _ [st] steps).
  exists taken'. cbn [pageRun]. rewrite Hp, (assoc_L (++)). split; [done|]. split; [auto|].
  cbn [keeps_up]. intros Ho [Hr Hk] Hall. apply Hk2; auto.
Qed.
End events.

(** C34. A page hears what was published, in order.  A page of the register
    simulator gets the events that are published after it has connected, each at
    most once and in their order, and as many as are waiting are no more than 32;
    it misses none as long as its channel has room whenever one is published. *)
Theorem a_page_hears_in_order marshal channel m steps :
  let start := (mkPage channel [readyText] true, subscribe channel m) in
  let x := pageRun marshal steps start in
  handleEvents "GET" channel true m = (Some start.1, start.2) ∧
  ∃ taken, pgSent x.1 = readyText :: map dataText (omap marshal taken) ∧ sublist taken (published steps) ∧
    (length (waiting x) ≤ eventCapacity)%nat ∧
    (pgOpen x.1 = true → keeps_up marshal steps start → taken ++ waiting x = published steps).
Proof.
  intros start x. split; [done|]. assert (waiting start = []) as Hw.
  { unfold waiting. cbn. by rewrite lookup_insert_eq. }
  assert (page_ok marshal [] [] start) as Hs.
  { split; [done|rewrite Hw; cbn; lia| |cbn [pgOpen fst start]; by rewrite Hw]. intros _. cbn. rewrite lookup_insert_eq. by eexists. }
  destruct (page_run_ok marshal steps [] [] start Hs) as (taken & [H1 H2 _ H4] & _ & H5). exists taken.
  split; [exact H1|]. split; [etrans; [|exact H4]; by apply sublist_inserts_r|]. split; [exact H2|].
  intros Ho Hk. apply (H5 Ho Hk). cbn [app]. exact Hw.
Qed.

(** The thirty-third event of a page that does not read is lost. *)
Example a_slow_page_misses_events :
  length (waiting (pageRun (fun _ => Some ""%string) (replicate 33 (StPublish definitionsEvent))
    (mkPage 1 [readyText] true, subscribe 1 (mkManager [] ∅ 0 (NewServer 1 ∅) NoFile ∅ [])))) = 32%nat.
Proof. vm_compute. reflexivity. Qed.

(** ** block-e2e *)

(** What a message means to the agent, up to its envelope. *)
Abbreviation meaning := (envelope → inbound).

Lemma bind_staged_ok {A B} stage (a : A) (k : A → BenchM B) : gbind (staged stage (glift (Ok a))) k = k a.
Proof. reflexivity. Qed.

Section test.
Variables (foldName : string → string) (stamp : nat → string).
Variables (unmarshal : string → option json) (parseFloat : string → option spec_float) (compact : json → string).
Notation readInbound := (readInbound unmarshal foldName parseFloat compact).

(** The text of [j] is read as [m], in the envelope of a test's message. *)
Definition means (j : json) (m : meaning) : Prop :=
  ∃ requestID timestamp, (∃ n, timestamp = stamp n) ∧
    ∀ raw, unmarshal raw = Some j → readInbound raw = m (mkEnvelope false "1.0" timestamp requestID).

(** [Q] holds of the result and of what the sent messages mean. *)
Definition says {A} (m : BenchM A) (Q : result workflow_error A → list meaning → Prop) : Prop :=
  ∀ b, let '(r, b') := m b in ∃ new es, bnSent b' = bnSent b ++ new ∧ Forall2 means new es ∧ Q r es.

(** Up to a point, or all of it. *)
Definition follows {A} (script : list meaning) (r : result workflow_error A) (es : list meaning) : Prop :=
  es `prefix_of` script ∧ (is_ok r = true → es = script).

Lemma says_mono {A} (m : BenchM A) (Q Q' : result workflow_error A → list meaning → Prop) :
  says m Q → (∀ r es, Q r es → Q' r es) → says m Q'.
Proof. intros Hm HQ b. specialize (Hm b). destruct (m b). destruct Hm as (new & es & H1 & H2 & H3). exists new, es. auto. Qed.

Lemma says_bind {A B} (m : BenchM A) (k : A → BenchM B) script Q Q' :
  says m (follows script) → (∀ a, says (k a) (Q a)) →
  (∀ e es, es `prefix_of` script → Q' (Err e) es) → (∀ a r es, Q a r es → Q' r (script ++ es)) → says (gbind m k) Q'.
Proof.
  intros Hm Hk He HQ b. specialize (Hm b). unfold gbind. destruct (m b) as [[a|e] b1]; destruct Hm as (new & es & H1 & H2 & H3 & H4).
  - specialize (Hk a b1). destruct (k a b1) as [r b2]. destruct Hk as (new' & es' & H5 & H6 & H7).
    rewrite (H4 eq_refl) in H2. exists (new ++ new'), (script ++ es'). split; [by rewrite H5, H1, app_assoc|].
    split; [by apply Forall2_app|by eapply HQ].
  - exists new, es. split; [done|]. split; [done|]. by apply He.
Qed.

Lemma follows_after {A} script script' (r : result workflow_error A) es :
  follows script' r es → follows (script ++ script') r (script ++ es).
Proof. intros [[t Ht] H]. split; [exists t; by rewrite Ht, app_assoc|]. intros Hr. by rewrite (H Hr). Qed.

Lemma says_then {A B} (m : BenchM A) (k : A → BenchM B) script script' :
  says m (follows script) → (∀ a, says (k a) (follows script')) → says (gbind m k) (follows (script ++ script')).
Proof.
  intros Hm Hk. eapply says_bind; [done|exact Hk|..].
  - intros e es He. split; [by apply prefix_app_r|done].
  - intros a r es. apply follows_after.
Qed.

Lemma says_quiet {A} (m : BenchM A) : (∀ b, bnSent (m b).2 = bnSent b) → says m (follows []).
Proof.
  intros Hm b. specialize (Hm b). destruct (m b) as [r b']. exists [], []. rewrite app_nil_r. split; [done|]. split; [constructor|]. by split.
Qed.

Lemma says_staged {A} stage (m : BenchM A) script : says m (follows script) → says (staged stage m) (follows script).
Proof.
  intros Hm b. specialize (Hm b). unfold staged. destruct (m b) as [[a|e] b'];
    destruct Hm as (new & es & H1 & H2 & H3 & H4); exists new, es; by split.
Qed.

Lemma quiet_effect f b : (∀ b, bnSent (f b) = bnSent b) → bnSent (effect f b).2 = bnSent b.
Proof. intros Hf. destruct b as [posts incoming [|[e|] faults] random posted dialed sent lines]; cbn; by rewrite ?Hf. Qed.

Lemma says_report stage status details : says (report stage status details) (follows []).
Proof. apply says_quiet. intros b. by apply quiet_effect. Qed.

Lemma says_receive expected : says (receive foldName expected) (follows []).
Proof. apply says_quiet. intros b. unfold receive. by destruct (receiveFrom _ _ _). Qed.

Lemma says_lift {A} (r : result workflow_error A) : says (glift r) (follows []).
Proof. by apply says_quiet. Qed.

Lemma says_send ty fields m :
  (∀ id n, means (messageOf ty id (stamp n) fields) m) → says (send stamp ty fields) (follows [m]).
Proof.
  intros Hm b. unfold send, gbind, newRequestID.
  destruct b as [posts incoming faults random posted dialed sent lines]. cbn.
  destruct (match random with [] => _ | _ => _ end) as [r rest]. destruct (NewRequestID r) as [id|].
  - destruct faults as [|[e|] faults]; cbn.
    + eexists [_], [m]. split; [done|]. split; [constructor; [apply Hm|constructor]|]. by split.
    + exists [], []. rewrite app_nil_r. split; [done|]. split; [constructor|]. split; [apply prefix_nil|done].
    + eexists [_], [m]. split; [done|]. split; [constructor; [apply Hm|constructor]|]. by split.
  - exists [], []. rewrite app_nil_r. split; [done|]. split; [constructor|]. split; [apply prefix_nil|done].
Qed.

Lemma says_ask ty fields expected m :
  (∀ id n, means (messageOf ty id (stamp n) fields) m) → says (ask foldName stamp ty fields expected) (follows [m]).
Proof.
  intros Hm. unfold ask. rewrite <-(app_nil_r [m]). apply says_then; [by apply says_send|]. intros _.
  rewrite <-(app_nil_r []). apply says_then; [apply says_receive|]. intros message.
  rewrite <-(app_nil_r []). apply says_then; [apply says_lift|]. intros _. by apply says_quiet.
Qed.

(** *** What each message means *)

Ltac read_message := eexists _, _; split; [by eexists|]; intros raw Hraw; unfold Messages.readInbound; rewrite Hraw; reflexivity.

Lemma means_scan id n range : means (messageOf "plc.scan" id (stamp n) [("addressRange"%string, JStr range)]) (fun e => InScan e range None None).
Proof. read_message. Qed.

Lemma means_connect id n device : means (messageOf "plc.connect" id (stamp n) [("deviceId"%string, JStr device)]) (fun e => InConnect e device).
Proof. read_message. Qed.

Lemma means_command id n point action :
  means (messageOf "point.command" id (stamp n) [("pointId", JStr point); ("action", JStr action)]%string) (fun e => InCommand e point action None).
Proof. read_message. Qed.

Lemma means_snapshot id n : means (messageOf "points.snapshot.get" id (stamp n) []) InSnapshotGet.
Proof. read_message. Qed.

Lemma means_disconnect id n : means (messageOf "plc.disconnect" id (stamp n) []) InDisconnect.
Proof. read_message. Qed.

(** The table that the agent reads from the points, and whether there was an error. *)
Definition tableOf (raw : json) : list PointDefinition * bool :=
  let '(points, bad) := decodeSlice (decodePoint foldName parseFloat compact) zeroPoint raw (mkSlice _ [] 0) in (sliceOf points, bad).

Definition configureMeaning (raw : json) : meaning := fun e =>
  InConfigure (mkEnvelope (enBad e || (tableOf raw).2) (enProtocol e) (enTimestamp e) (enRequestID e)) 500 (tableOf raw).1.

Lemma means_configure id n raw_points :
  means (messageOf "runtime.configure" id (stamp n) [("scanIntervalMs", jsonInt 500); ("points", raw_points)]%string)
    (configureMeaning raw_points).
Proof.
  eexists _, _. split; [by eexists|]. intros raw Hraw. unfold Messages.readInbound. rewrite Hraw. clear Hraw.
  unfold configureMeaning, tableOf. change (jsonInt 500) with (writeInt 500).
  pose proof (decodeInt_write 500 0 ltac:(unfold wire_int; lia)) as Hi. revert Hi. generalize (writeInt 500). intros interval Hi.
  change (messageOf _ _ _ _) with (JObj [("points", raw_points); ("protocolVersion", JStr "1.0"); ("requestId", JStr id);
    ("scanIntervalMs", interval); ("timestamp", JStr (stamp n)); ("type", JStr "runtime.configure")]%string).
  cbn -[decodeInt decodeSlice]. unfold decodeConfigure, decodeAllowed, decodeStruct, decodeMember.
  cbn -[decodeInt decodeSlice sliceOf]. destruct (decodeSlice _ _ _ _) as [s bad].
  cbn -[sliceOf decodeInt]. rewrite Hi. cbn -[sliceOf]. by rewrite !orb_false_r.
Qed.

(** *** The stages *)

Lemma says_ask_then {A} ty fields expected m (k : list (string * json) → BenchM A) :
  (∀ id n, means (messageOf ty id (stamp n) fields) m) → (∀ message, says (k message) (follows [])) →
  says (gbind (ask foldName stamp ty fields expected) k) (follows [m]).
Proof. intros Hm Hk. rewrite <-(app_nil_r [m]). apply says_then; [by apply says_ask|done]. Qed.

Lemma says_quiet_then {A B} (m : BenchM A) (k : A → BenchM B) script :
  says m (follows []) → (∀ a, says (k a) (follows script)) → says (gbind m k) (follows script).
Proof. intros Hm Hk. rewrite <-(app_nil_l script). by apply says_then. Qed.

Lemma says_skip {A B} (m : BenchM A) (k : A → BenchM B) Q :
  says m (follows []) → (∀ a, says (k a) Q) → (∀ e, Q (Err e) []) → says (gbind m k) Q.
Proof.
  intros Hm Hk He. eapply (says_bind m k [] (fun _ => Q)); [done|done| |done]. intros e es Hes. by apply prefix_nil_inv in Hes as ->.
Qed.

Lemma says_configure raw count :
  says (configure foldName stamp raw count) (follows [configureMeaning raw]).
Proof. apply says_ask_then; [intros; apply means_configure|intros; apply says_report]. Qed.

Lemma says_scan range : says (scan foldName stamp range) (follows [fun e => InScan e range None None]).
Proof.
  apply says_ask_then; [intros; apply means_scan|]. intros message. apply says_quiet_then; [apply says_lift|]. intros devices.
  destruct (sliceOf devices) as [|device rest]; [by apply says_quiet|]. destruct (device =s ""); [by apply says_quiet|].
  apply says_quiet_then; [apply says_report|]. intros _. by apply says_quiet.
Qed.

Lemma says_snapshot stage :
  says (snapshot foldName stamp stage) (follows (if stage =s "points.snapshot.get" then [InSnapshotGet] else [])).
Proof.
  unfold snapshot. rewrite <-(app_nil_r (if stage =s "points.snapshot.get" then _ else _)). apply says_then.
  - destruct (stage =s _); [apply says_send; intros; apply means_snapshot|by apply says_quiet].
  - intros _. apply says_quiet_then; [apply says_receive|]. intros message.
    apply says_quiet_then; [apply says_lift|]. intros values. apply says_report.
Qed.

Lemma says_connect device : says (connect foldName stamp device) (follows [fun e => InConnect e device]).
Proof.
  apply says_ask_then; [intros; apply means_connect|]. intros _. apply says_quiet_then; [apply says_report|]. intros _.
  apply (says_snapshot "points.snapshot.initial").
Qed.

Lemma says_command point action attempt :
  says (command foldName stamp point action attempt) (follows [fun e => InCommand e (commandID point) action None]).
Proof.
  apply says_ask_then; [intros; apply means_command|]. intros message. apply says_quiet_then; [apply says_lift|]. intros answered.
  destruct (negb _); [by apply says_quiet|apply says_report].
Qed.

(** The commands of a table: the point that is written, and the actions that its
    mode has, in the order that leaves the output as it was. *)
Definition wantedActions (mode : string) : list string :=
  if mode =s "pulse" then ["pulse"] else if mode =s "momentary" then ["press"; "release"] else ["toggle"; "toggle"].

Lemma wanted_actions mode : map fst (actionsOf mode) = wantedActions mode.
Proof. unfold actionsOf, wantedActions. by destruct (mode =s "pulse"), (mode =s "momentary"). Qed.

Definition commandsOf (points : list e2ePoint) (mode : string) : list (string * string) :=
  match actionPoint points mode with
  | Some point => map (pair (commandID point)) (wantedActions mode)
  | None => []
  end.

Definition allCommands (points : list e2ePoint) : list (string * string) :=
  flat_map (commandsOf points) ["pulse"; "momentary"; "toggle"]%string.

Definition commandMeaning (c : string * string) : meaning := fun e => InCommand e c.1 c.2 None.

Lemma says_commands point actions :
  says (commands foldName stamp point actions) (follows (map commandMeaning (map (pair (commandID point)) (map fst actions)))).
Proof.
  induction actions as [|[action attempt] actions IH]; cbn [commands map]; [by apply says_quiet|].
  apply (says_then _ _ [_]); [apply says_command|by intros _].
Qed.

Lemma says_runModes points modes :
  says (runModes foldName stamp points modes) (follows (map commandMeaning (flat_map (commandsOf points) modes))).
Proof.
  induction modes as [|mode modes IH]; cbn [runModes flat_map]; [by apply says_quiet|]. rewrite map_app.
  apply says_then; [|by intros _]. unfold commandsOf. destruct (actionPoint points mode); [|apply says_report].
  rewrite <-wanted_actions. apply says_commands.
Qed.

(** What the test says for a points file: its text of the points, and what it reads
    from it itself. *)
Definition testScript (raw : json) (points : list e2ePoint) (range device : string) : list meaning :=
  [configureMeaning raw; (fun e => InScan e range None None); (fun e => InConnect e device)] ++
  map commandMeaning (allCommands points) ++ [InSnapshotGet; InDisconnect].

(** *** The table of points.json *)

(** Folding the case tells these names apart. *)
Definition told_apart (names : list string) : Prop :=
  ∀ x y, x ∈ names → y ∈ names → foldName x = foldName y → x = y.

(** A decoder of some of the fields finds the fields that one of all finds. *)
Lemma fieldOf_some names fields key :
  told_apart fields → names ⊆ fields →
  fieldOf foldName names key = match fieldOf foldName fields key with
                               | Some name => if bool_decide (name ∈ names) then Some name else None
                               | None => None
                               end.
Proof.
  intros Hn Hs. unfold fieldOf.
  assert (∀ l, existsb (String.eqb key) l = bool_decide (key ∈ l)) as Hin.
  { intros l. apply eq_true_iff_eq. rewrite existsb_exists, bool_decide_eq_true, list_elem_of_In. split.
    - by intros (x & ? & ->%String.eqb_eq).
    - intros Hk. exists key. split; [done|apply String.eqb_refl]. }
  rewrite !Hin.
  assert (∀ l name, l ⊆ fields → List.find (fun name => foldName name =s foldName key) l = Some name →
    name ∈ l ∧ foldName name = foldName key) as Hfind.
  { intros l name _ [Hl Heq]%find_some. apply String.eqb_eq in Heq. by rewrite list_elem_of_In. }
  assert (∀ l, l ⊆ fields → List.find (fun name => foldName name =s foldName key) l = None → ∀ name, name ∈ l → foldName name ≠ foldName key) as Hnone.
  { intros l _ Hl name Hname%list_elem_of_In Heq. pose proof (find_none _ _ Hl name Hname) as Hf. cbn in Hf. by rewrite Heq, String.eqb_refl in Hf. }
  destruct (bool_decide_reflect (key ∈ names)) as [Hk|Hk].
  - rewrite (bool_decide_eq_true_2 (key ∈ fields)) by auto. by rewrite bool_decide_eq_true_2.
  - assert (∀ name, name ∈ fields → foldName name = foldName key →
      List.find (fun name => foldName name =s foldName key) names = if bool_decide (name ∈ names) then Some name else None) as Hgo.
    { intros name Hname Heq. destruct (List.find _ names) as [x|] eqn:Hx.
      - apply Hfind in Hx as [Hx Hxk]; [|done]. assert (x = name) as -> by (apply Hn; [auto|done|congruence]). by rewrite bool_decide_eq_true_2.
      - destruct (bool_decide_reflect (name ∈ names)) as [Hm|]; [|done]. by destruct (Hnone _ Hs Hx name Hm). }
    destruct (bool_decide_reflect (key ∈ fields)) as [Hf|Hf].
    + rewrite (Hgo key) by done. by rewrite bool_decide_eq_false_2.
    + destruct (List.find _ fields) as [name|] eqn:Hx.
      * apply Hfind in Hx as [Hx Hxk]; [|done]. by apply Hgo.
      * destruct (List.find _ names) as [x|] eqn:Hy; [|done]. apply Hfind in Hy as [Hy Hyk]; [|done].
        by destruct (Hnone fields ltac:(done) Hx x (Hs x Hy)).
Qed.

(** Two decoders of one value that keep a relation field by field. *)
Lemma decodeStruct_related {A B} (R : A → B → Prop) names fields setA setB j a b :
  told_apart fields → names ⊆ fields → R a b →
  (∀ name j a b, name ∈ fields → R a b →
     R (if bool_decide (name ∈ names) then (setA name j a).1 else a) (setB name j b).1) →
  R (decodeStruct foldName names setA j a).1 (decodeStruct foldName fields setB j b).1.
Proof.
  intros Hn Hs HR Hset. destruct j as [| | | | |members]; try exact HR. cbn [decodeStruct].
  assert (∀ bad bad', R (foldl (decodeMember foldName names setA) (a, bad) members).1
    (foldl (decodeMember foldName fields setB) (b, bad') members).1) as H; [|by apply H].
  revert a b HR. induction members as [|[key j] members IH]; intros a b HR bad bad'; [done|]. cbn [foldl].
  unfold decodeMember at 2 4. cbn [fst snd]. rewrite (fieldOf_some names fields key) by done.
  destruct (fieldOf foldName fields key) as [name|] eqn:Hf; [|by apply IH].
  assert (name ∈ fields) as Hin.
  { unfold fieldOf in Hf. destruct (existsb _ _) eqn:He.
    - injection Hf as <-. apply existsb_exists in He as (x & Hx & ->%String.eqb_eq). by apply list_elem_of_In.
    - by apply find_some in Hf as [Hf%list_elem_of_In _]. }
  specialize (Hset name j a b Hin HR). case_bool_decide.
  - destruct (setA name j a), (setB name j b). by apply IH.
  - destruct (setB name j b). by apply IH.
Qed.

(** What the test and the agent read from one point: the same id and mode; and if
    the test knows a point to write, so does the agent. *)
Record same_point (v : e2ePoint) (p : PointDefinition) : Prop := {
  sp_id : epPointID v = pPointID p;
  sp_write : ∀ w, epWritePoint v = Some w → w = ""%string ∨ w = pWritePoint p;
  sp_mode : epMode v = wMode <$> pWrite p
}.

Lemma decodeMode_same j mode w :
  told_apart writeFields → mode = wMode w →
  (decodeStruct foldName ["mode"%string] (fun _ => decodeString) j mode).1 =
  wMode (decodeStruct foldName writeFields (setWrite parseFloat compact) j w).1.
Proof.
  intros Hn Hm. apply (decodeStruct_related (fun mode w => mode = wMode w)); [done|set_solver|done|].
  clear. intros name j a b Hin ->. unfold writeFields in Hin. unfold setWrite.
  repeat (apply elem_of_cons in Hin as [->|Hin]); [..|by apply elem_of_nil in Hin]; cbn.
  - by destruct (decodeString j (wMode b)).
  - by destruct (decodeAny _ _ j (wActiveValue b)).
  - by destruct (decodeAny _ _ j (wDefaultValue b)).
  - by destruct (decodeInt j (wPulseMs b)).
Qed.

Lemma setPoint_same name j v p :
  told_apart writeFields → name ∈ pointFields → same_point v p →
  same_point (if bool_decide (name ∈ ["pointId"; "writePoint"; "write"]%string) then (setE2EPoint foldName name j v).1 else v)
    (setPoint foldName parseFloat compact name j p).1.
Proof.
  intros Hn Hin [Hi Hw Hm]. destruct v as [i w m], p as [id address ty access rp wp wm count order write alarm]. cbn in Hi, Hw, Hm. subst i m.
  unfold pointFields in Hin. repeat (apply elem_of_cons in Hin as [->|Hin]); [..|by apply elem_of_nil in Hin];
    match goal with |- context [bool_decide ?P] => let b := eval vm_compute in (bool_decide P) in change (bool_decide P) with b end;
    cbv iota; cbn -[decodeString decodePointer decodeStruct decodeInt];
    try (by destruct (decodeString j _)); try (by destruct (decodeInt j _)).
  - destruct w as [w|], j; cbn; by (split; cbn; [done| |done]; intros w' [= <-]; auto).
  - destruct j; cbn -[decodeStruct]; [by split|..];
      (match goal with |- context [decodeStruct _ ["mode"%string] _ ?j ?old] =>
         pose proof (decodeMode_same j old (default zeroWrite write) Hn ltac:(by destruct write)) as Hd;
         destruct (decodeStruct foldName ["mode"%string] _ j old), (decodeStruct foldName writeFields _ j (default zeroWrite write)) end;
       cbn in Hd; split; cbn; [done|done|by rewrite Hd]).
  - by destruct (decodePointer _ _ j alarm).
Qed.

Lemma decodePoint_same j :
  told_apart pointFields → told_apart writeFields →
  same_point (decodeE2EPoint foldName j (mkE2EPoint "" None None)).1 (decodePoint foldName parseFloat compact j zeroPoint).1.
Proof.
  intros Hp Hw. apply (decodeStruct_related same_point); [done|set_solver|done|]. intros name j' v p. by apply setPoint_same.
Qed.

Lemma decodeElements_same elements :
  told_apart pointFields → told_apart writeFields →
  Forall2 same_point (decodeElements (decodeE2EPoint foldName) (mkE2EPoint "" None None) elements []).1
    (decodeElements (decodePoint foldName parseFloat compact) zeroPoint elements []).1.
Proof.
  intros Hp Hw. induction elements as [|j elements IH]; [constructor|]. cbn [decodeElements head default tail].
  pose proof (decodePoint_same j Hp Hw) as Hj.
  destruct (decodeE2EPoint foldName j _), (decodePoint _ _ _ j _), (decodeElements (decodeE2EPoint _) _ _ _), (decodeElements (decodePoint _ _ _) _ _ _).
  by constructor.
Qed.

(** The points that the test has loaded are those of the agent's table. *)
Lemma loaded_points file raw points :
  told_apart pointFields → told_apart writeFields → loadPoints foldName file = Ok (raw, points) →
  Forall2 same_point points (tableOf raw).1.
Proof.
  intros Hp Hw. unfold loadPoints. destruct file as [j|]; [|done]. destruct (decodeStruct _ _ _ j None) as [[raw'|] []]; try done.
  unfold tableOf. destruct (decodeSlice (decodeE2EPoint foldName) _ raw' _) as [s bad] eqn:Hs. destruct (_ || _) eqn:Hb; [done|].
  intros [= -> <-]. apply orb_false_iff in Hb as [_ Hlen].
  destruct raw as [| | | |[|j' elements]|]; cbn in Hs; try (by injection Hs as <- <-).
  cbn -[sliceOf decodeElements]. cbn -[decodeElements] in Hs. pose proof (decodeElements_same (j' :: elements) Hp Hw) as He.
  change (let '(a, bad) := decodeE2EPoint foldName j' (mkE2EPoint "" None None) in _) with
    (decodeElements (decodeE2EPoint foldName) (mkE2EPoint "" None None) (j' :: elements) []) in Hs.
  destruct (decodeElements (decodeE2EPoint _) _ _ _) as [views bad1], (decodeElements (decodePoint _ _ _) _ _ _) as [pts bad2].
  injection Hs as <- <-. unfold sliceOf. cbn [sLen sArray fst] in *. by apply Forall2_take.
Qed.

Lemma says_authenticate username password : says (authenticate username password) (follows []).
Proof.
  assert (∀ path body, says (postJSON path body) (follows [])) as Hpost.
  { intros path body. apply says_quiet. intros b. unfold postJSON. by destruct (bnPosts b). }
  unfold authenticate. apply says_quiet_then; [by apply says_staged|]. intros status. destruct (status =? 201); [apply says_report|].
  destruct (status =? 409); [|by apply says_quiet]. apply says_quiet_then; [apply says_report|]. intros _.
  apply says_quiet_then; [by apply says_staged|]. intros status'. destruct (negb _); [by apply says_quiet|].
  apply says_staged, says_report.
Qed.

Lemma says_openWebSocket base : says (openWebSocket base) (follows []).
Proof.
  unfold openWebSocket. apply says_quiet_then; [|intros _; apply says_report].
  apply says_quiet. intros b. by apply quiet_effect.
Qed.

(** What comes after the scan. *)
Lemma says_session points observed device :
  says (gbind (staged "plc.connect" (connect foldName stamp device)) (fun _ =>
        gbind (staged "plc.observe" (observe observed)) (fun _ =>
        gbind (staged "point.command" (runActions foldName stamp points)) (fun _ =>
        gbind (staged "points.snapshot.get" (snapshot foldName stamp "points.snapshot.get")) (fun _ =>
        staged "plc.disconnect" (disconnect foldName stamp))))))
    (follows ([(fun e => InConnect e device)] ++ map commandMeaning (allCommands points) ++ [InSnapshotGet; InDisconnect])).
Proof.
  apply says_then; [apply says_staged, says_connect|]. intros _.
  apply says_quiet_then. { apply says_staged. unfold observe. destruct observed; [apply says_report|by apply says_quiet]. }
  intros _. apply says_then; [apply says_staged, says_runModes|]. intros _.
  apply (says_then _ _ [_]); [apply says_staged, says_snapshot|]. intros _. apply says_staged.
  apply says_ask_then; [intros; apply means_disconnect|intros _; apply says_report].
Qed.

(** A file that cannot be loaded stops the test before it says anything. *)
Lemma says_run o :
  says (run foldName stamp o) (fun r es =>
    match loadPoints foldName (eoPoints o) with
    | Err _ => r ≠ Ok tt ∧ es = []
    | Ok (raw, points) => ∃ device, follows (testScript raw points (eoScanCIDR o) device) r es
    end).
Proof.
  set (Q := fun (r : result workflow_error unit) es => _).
  assert (∀ e, Q (Err e) []) as Hnil.
  { intros e. unfold Q. destruct (loadPoints _ _) as [[raw points]|]; [|done]. exists ""%string. split; [apply prefix_nil|done]. }
  unfold run. destruct (_ || _).
  { intros b. exists [], []. rewrite app_nil_r. split; [done|]. split; [constructor|]. apply Hnil. }
  apply says_skip; [apply says_staged, says_lift| |done]. intros base.
  apply says_skip; [apply says_staged, says_lift| |done]. intros _.
  destruct (loadPoints foldName (eoPoints o)) as [[raw points]|e] eqn:Hload.
  2: { intros b. exists [], []. rewrite app_nil_r. split; [done|]. split; [constructor|]. unfold Q. done. }
  unfold Q. clear Hnil Q. rewrite bind_staged_ok. cbn [fst snd]. set (Q := fun (r : result workflow_error unit) es => _).
  assert (∀ e, Q (Err e) []) as Hnil by (intros e; exists ""%string; split; [apply prefix_nil|done]).
  apply says_skip; [apply says_authenticate| |done]. intros _.
  apply says_skip; [apply says_staged, says_openWebSocket| |done]. intros _.
  set (rest := fun device : string => [(fun e => InConnect e device)] ++ map commandMeaning (allCommands points) ++
    [InSnapshotGet; InDisconnect]).
  apply (says_bind _ _ [configureMeaning raw]
    (fun _ r es => ∃ device, follows ([fun e => InScan e (eoScanCIDR o) None None] ++ rest device) r es)).
  - by apply says_staged, says_configure.
  - intros _. apply (says_bind _ _ [fun e => InScan e (eoScanCIDR o) None None] (fun device => follows (rest device))).
    + apply says_staged, says_scan.
    + intros device. by apply says_session.
    + intros e es He. exists ""%string. split; [by apply prefix_app_r|done].
    + intros device r es H. exists device. by apply follows_after.
  - intros e es He. exists ""%string. split; [etrans; [exact He|by eexists]|done].
  - intros _ r es [device H]. exists device. by apply (follows_after [_]).
Qed.
End test.

(** *** The commands and the table *)

(** A point that is written through another one has its write mode. *)
Definition modes_agree (pts : list PointDefinition) : Prop :=
  ∀ p q, p ∈ pts → q ∈ pts → pWritePoint p = pPointID q → is_Some (pWrite p) → wMode <$> pWrite q = wMode <$> pWrite p.

Lemma defaultPulse_write p : wMode <$> pWrite (defaultPulse p) = wMode <$> pWrite p.
Proof. unfold defaultPulse. destruct (pWrite p) as [w|] eqn:E; [|by rewrite E]. destruct (_ && _); cbn; by rewrite ?E. Qed.

Lemma defaultPulse_writePoint p : pWritePoint (defaultPulse p) = pWritePoint p.
Proof. unfold defaultPulse. by repeat case_match. Qed.

Lemma actionPoint_spec points pts mode v :
  Forall2 same_point points pts → actionPoint points mode = Some v →
  ∃ p w, p ∈ pts ∧ pWrite p = Some w ∧ wMode w = mode ∧ commandID v ≠ ""%string ∧
    (commandID v = pWritePoint p ∨ commandID v = pPointID p).
Proof.
  unfold actionPoint. intros Hall [Hin Hv]%find_some. apply list_elem_of_In, list_elem_of_lookup in Hin as [i Hi].
  destruct (Forall2_lookup_l _ _ _ _ _ Hall Hi) as (p & Hp & [Hid Hwp Hmode]).
  apply andb_true_iff in Hv as [Hm%bool_decide_eq_true Hc]. apply negb_true_iff, String.eqb_neq in Hc.
  rewrite Hmode in Hm. destruct (pWrite p) as [w|] eqn:Hw; [|done]. injection Hm as Hm.
  exists p, w. split; [by eapply list_elem_of_lookup_2|]. split_and!; try done. unfold commandID in *.
  destruct (epWritePoint v) as [x|]; [|by right]. destruct (String.eqb_spec x "") as [|Hx]; cbn in *; [by right|left].
  by destruct (Hwp x eq_refl) as [?|?].
Qed.

(** The point that is named by a command, in the checked table. *)
Lemma written_point pts config p w id :
  Normalize (RuntimeConfig.mkConfig 500 pts) = Ok config → modes_agree pts → p ∈ pts → pWrite p = Some w →
  id = pWritePoint p ∨ id = pPointID p →
  ∃ d, table (cPoints config) !! id = Some d ∧ pAccess d ≠ "read"%string ∧ wMode <$> pWrite d = Some (wMode w).
Proof.
  intros [-> Hok]%Normalize_ok Hmodes Hp Hw Hid. cbn [cPoints cScanIntervalMs] in *.
  assert (defaultPulse p ∈ map defaultPulse pts) as Hp' by (by apply list_elem_of_fmap_2).
  destruct (co_points _ Hok _ Hp') as [Hv _ Href]. cbn [cPoints] in *. rewrite defaultPulse_writePoint in Href.
  assert (is_Some (pWrite (defaultPulse p))) as Hs.
  { apply (fmap_is_Some wMode). rewrite defaultPulse_write, Hw. by eexists. }
  apply validatePoint_ok in Hv as (_ & _ & _ & _ & _ & _ & Hside & _). unfold validateWriteSide in Hside.
  destruct (String.eqb_spec (pAccess (defaultPulse p)) "read") as [Hr|Hr].
  { rewrite (bool_decide_eq_true_2 _ Hs), orb_true_r in Hside. done. }
  destruct Hid as [-> | ->].
  - destruct (Href Hr) as (d & Hd & Hacc & _). exists d. split; [done|]. split; [done|].
    apply table_lookup_Some in Hd as [Hd Hid]. apply list_elem_of_fmap in Hd as (q & -> & Hq). rewrite defaultPulse_id in Hid.
    rewrite defaultPulse_write, (Hmodes p q) by (by rewrite ?Hw). by rewrite Hw.
  - exists (defaultPulse p). split; [|split; [done|by rewrite defaultPulse_write, Hw]].
    rewrite <-(defaultPulse_id p). apply (table_lookup_In _ _ (co_unique _ Hok)). done.
Qed.

Lemma commands_routed points pts config point action :
  Forall2 same_point points pts →
  Normalize (RuntimeConfig.mkConfig 500 pts) = Ok config → modes_agree pts → (point, action) ∈ allCommands points →
  ∃ d, table (cPoints config) !! point = Some d ∧ allowsAction d action = true ∧ point ≠ ""%string ∧ action ∉ [""; "set"]%string.
Proof.
  intros Hall Hn Hm Hin. unfold allCommands in Hin. apply list_elem_of_In, in_flat_map in Hin as (mode & Hmode & Hin).
  apply list_elem_of_In in Hin. unfold commandsOf in Hin. destruct (actionPoint _ mode) as [v|] eqn:Hv; [|by apply elem_of_nil in Hin].
  apply (actionPoint_spec _ _ _ _ Hall) in Hv as (p & w & Hp & Hw & <- & Hne & Hid).
  destruct (written_point pts config p w _ Hn Hm Hp Hw Hid) as (d & Hd & Hacc & Hdm).
  apply list_elem_of_fmap in Hin as (a & [= -> ->] & Ha). exists d. split; [done|].
  unfold allowsAction. rewrite (proj2 (String.eqb_neq _ _) Hacc). destruct (pWrite d) as [w'|]; [|done]. injection Hdm as ->. cbn [fst].
  cbn in Hmode. destruct Hmode as [He|[He|[He|[]]]]; rewrite <-He in Ha |- *; cbn in Ha;
    repeat (apply elem_of_cons in Ha as [->|Ha]); try (by apply elem_of_nil in Ha);
    (split; [reflexivity|split; [done|set_solver]]).
Qed.

(** C24. The agent understands its end-to-end test.  Whatever the points file, the
    answers and the failures are, what the test has sent are texts that the agent
    reads as the messages of the test's script for that file, up to a point, and
    all of them if it succeeds: the table that the agent itself reads from the
    file's points (with the interval that it demands, and marked as bad if it does
    not like them), a scan, a connection to a device, the commands of the first
    point of each mode, each press before its release and each toggle twice, a
    snapshot, the disconnection; from a file that cannot be loaded, nothing.  If
    that table is one that the agent accepts, and points that are written through
    others have their mode, the router takes every command of the script. *)
Theorem the_agent_understands_the_test foldName stamp unmarshal parseFloat compact o b :
  told_apart foldName pointFields → told_apart foldName writeFields → bnSent b = [] →
  let '(r, b') := run foldName stamp o b in
  match loadPoints foldName (eoPoints o) with
  | Err _ => r ≠ Ok tt ∧ bnSent b' = []
  | Ok (raw, points) =>
      (∃ device meant, Forall2 (means foldName stamp unmarshal parseFloat compact) (bnSent b') meant ∧
         meant `prefix_of` testScript foldName parseFloat compact raw points (eoScanCIDR o) device ∧
         (r = Ok tt → meant = testScript foldName parseFloat compact raw points (eoScanCIDR o) device)) ∧
      let pts := (tableOf foldName parseFloat compact raw).1 in
      ∀ config validTime e point action,
        Normalize (RuntimeConfig.mkConfig 500 pts) = Ok config → modes_agree pts → (point, action) ∈ allCommands points →
        enBad e = false → enProtocol e = "1.0"%string → validTime (enTimestamp e) = true →
        checkCommand validTime (table (cPoints config)) e point action None = Ok VNil
  end.
Proof.
  intros Hp Hw Hb. pose proof (says_run foldName stamp unmarshal parseFloat compact o b) as H.
  destruct (run foldName stamp o b) as [r b']. destruct H as (new & es & H1 & H2 & H). rewrite Hb in H1. cbn [app] in H1. subst new.
  destruct (loadPoints foldName (eoPoints o)) as [[raw points]|e] eqn:Hload.
  2: { destruct H as [? ->]. split; [done|]. by apply Forall2_nil_inv_r in H2. }
  destruct H as (device & H3 & H4). split.
  - exists device, es. split; [done|]. split; [done|]. intros ->. by apply H4.
  - intros pts config validTime e point action Hn Hm Hin Hbad Hproto Htime.
    pose proof (loaded_points foldName unmarshal parseFloat compact _ _ _ Hp Hw Hload) as Hall.
    destruct (commands_routed points pts config point action Hall Hn Hm Hin) as (d & Hd & Hal & Hpoint & Haction).
    unfold checkCommand, validateRequestEnvelope. rewrite Hbad, Hproto, Htime, Hd, Hal.
    apply not_elem_of_cons in Haction as [Ha [Hs _]%not_elem_of_cons].
    by rewrite (proj2 (String.eqb_neq _ _) Hpoint), (proj2 (String.eqb_neq _ _) Ha), (proj2 (String.eqb_neq _ _) Hs).
Qed.

(** *** The password *)

(** Two benches that differ in the bodies of the posts at most; what was dialed is
    the host's. *)
Record alike (host : string) (b b' : Bench) : Prop := {
  al_posts : bnPosts b = bnPosts b';
  al_incoming : bnIncoming b = bnIncoming b';
  al_faults : bnFaults b = bnFaults b';
  al_random : bnRandom b = bnRandom b';
  al_paths : map fst (bnPosted b) = map fst (bnPosted b');
  al_dialed : bnDialed b = bnDialed b';
  al_sent : bnSent b = bnSent b';
  al_lines : bnLines b = bnLines b';
  al_host : Forall (fun d => d.1 = ("wss"%string, host)) (bnDialed b)
}.

Definition alikeM {A} (host : string) (m m' : BenchM A) : Prop :=
  ∀ b b', alike host b b' → (m b).1 = (m' b').1 ∧ alike host (m b).2 (m' b').2.

Definition withPassword (password : string) (o : e2eOptions) : e2eOptions :=
  mkE2EOptions (eoBase o) (eoCAPath o) (eoCA o) (eoPoints o) (eoScanCIDR o) (eoObserve o) (eoUsername o) password.

Section alike.
Variables (foldName : string → string) (stamp : nat → string) (host : string).
Notation alikeM := (alikeM host).

Lemma alike_lift {A} (r : result workflow_error A) : alikeM (glift r) (glift r).
Proof. by intros b b' H. Qed.

Lemma alike_ret {A} (a : A) : alikeM (gret a) (gret a).
Proof. by intros b b' H. Qed.

Lemma alike_fail {A} e : alikeM (gfail e : BenchM A) (gfail e).
Proof. by intros b b' H. Qed.

Lemma alike_bind {A B} (m m' : BenchM A) (k k' : A → BenchM B) :
  alikeM m m' → (∀ a, alikeM (k a) (k' a)) → alikeM (gbind m k) (gbind m' k').
Proof.
  intros Hm Hk b b' H. specialize (Hm b b' H) as [H1 H2]. unfold gbind.
  destruct (m b) as [r b1], (m' b') as [r' b1']. cbn in H1, H2. subst r'. destruct r; [by apply Hk|done].
Qed.

Lemma alike_staged {A} stage (m m' : BenchM A) : alikeM m m' → alikeM (staged stage m) (staged stage m').
Proof.
  intros Hm b b' H. specialize (Hm b b' H) as [H1 H2]. unfold staged.
  destruct (m b) as [r b1], (m' b') as [r' b1']. cbn in H1, H2. subst r'. by destruct r.
Qed.

Lemma alike_effect f : (∀ b b', alike host b b' → alike host (f b) (f b')) → alikeM (effect f) (effect f).
Proof.
  intros Hf b b' [H1 H2 H3 H4 H5 H6 H7 H8 H9]. destruct b as [posts incoming faults random posted dialed sent lines],
    b' as [posts' incoming' faults' random' posted' dialed' sent' lines'].
  cbn in *. subst posts' incoming' faults' random' dialed' sent' lines'.
  destruct faults as [|[e|] faults]; cbn; (split; [done|]); try apply Hf; by split.
Qed.

Lemma alike_report stage status details : alikeM (report stage status details) (report stage status details).
Proof. apply alike_effect. intros b b' []. split; cbn; congruence. Qed.

Lemma alike_post path body body' : alikeM (postJSON path body) (postJSON path body').
Proof.
  intros b b' [H1 H2 H3 H4 H5 H6 H7 H8 H9]. unfold postJSON. rewrite <-H1. destruct (match bnPosts b with [] => _ | _ => _ end) as [r posts].
  cbn. split; [done|]. split; cbn; try done. by rewrite !map_app, H5.
Qed.

Lemma alike_receive expected : alikeM (receive foldName expected) (receive foldName expected).
Proof.
  intros b b' []. unfold receive. rewrite <-al_incoming0. destruct (receiveFrom _ _ _) as [r rest]. cbn. split; [done|]. by split.
Qed.

Lemma alike_send ty fields : alikeM (send stamp ty fields) (send stamp ty fields).
Proof.
  apply alike_bind.
  - intros b b' []. unfold newRequestID. rewrite <-al_random0. destruct (match bnRandom b with [] => _ | _ => _ end) as [random rest].
    cbn. split; [done|]. by split.
  - intros id. apply alike_effect. intros b b' []. split; cbn; congruence.
Qed.

(** What of the program does not see the password. *)
Ltac alike_steps :=
  repeat first
  [ progress intros
  | apply alike_report | apply alike_receive | apply alike_send | apply alike_post
  | apply alike_lift | apply alike_ret | apply alike_fail | apply alike_staged | apply alike_bind
  | case_match ].

Lemma alike_ask ty fields expected : alikeM (ask foldName stamp ty fields expected) (ask foldName stamp ty fields expected).
Proof. unfold ask. alike_steps. Qed.

Lemma alike_snapshot stage : alikeM (snapshot foldName stamp stage) (snapshot foldName stamp stage).
Proof. unfold snapshot. alike_steps. Qed.

Lemma alike_configure points count : alikeM (configure foldName stamp points count) (configure foldName stamp points count).
Proof. apply alike_bind; [apply alike_ask|alike_steps]. Qed.

Lemma alike_scan range : alikeM (scan foldName stamp range) (scan foldName stamp range).
Proof. apply alike_bind; [apply alike_ask|alike_steps]. Qed.

Lemma alike_connect device : alikeM (connect foldName stamp device) (connect foldName stamp device).
Proof. apply alike_bind; [apply alike_ask|alike_steps]. Qed.

Lemma alike_commands point actions : alikeM (commands foldName stamp point actions) (commands foldName stamp point actions).
Proof.
  induction actions as [|[action attempt] actions IH]; cbn [commands]; [apply alike_ret|]. apply alike_bind; [|done].
  apply alike_bind; [apply alike_ask|alike_steps].
Qed.

Lemma alike_runModes points modes : alikeM (runModes foldName stamp points modes) (runModes foldName stamp points modes).
Proof.
  induction modes as [|mode modes IH]; cbn [runModes]; [apply alike_ret|]. apply alike_bind; [|done].
  destruct (actionPoint points mode); [apply alike_commands|apply alike_report].
Qed.

Lemma alike_authenticate username password password' : alikeM (authenticate username password) (authenticate username password').
Proof. unfold authenticate. alike_steps. Qed.

Lemma alike_openWebSocket base : buHost base = host → alikeM (openWebSocket base) (openWebSocket base).
Proof.
  intros Hh. apply alike_bind; [|intros _; apply alike_report]. apply alike_effect. intros b b' []. split; cbn; try congruence.
  apply Forall_app. split; [done|]. apply Forall_singleton. cbn. by rewrite Hh.
Qed.

(** The run after the credentials have been seen to be there. *)
Lemma alike_run o password :
  eoPassword o ≠ ""%string → password ≠ ""%string → (∀ base, eoBase o = Some base → buHost base = host) →
  alikeM (run foldName stamp o) (run foldName stamp (withPassword password o)).
Proof.
  intros H1 H2 Hhost. unfold run. destruct o as [parsed caPath ca points cidr observed username old]. cbn in *.
  rewrite (proj2 (String.eqb_neq _ _) H1), (proj2 (String.eqb_neq _ _) H2), !orb_false_r.
  destruct (username =s ""); [apply alike_fail|].
  destruct (parseBaseURL parsed) as [base|e] eqn:Hb; [|exact (alike_fail (A := unit) (atStage "startup" e))].
  assert (buHost base = host) as Hh.
  { destruct parsed as [base'|]; [|done]. cbn in Hb. destruct (_ || _); [done|]. injection Hb as <-. by apply Hhost. }
  rewrite !bind_staged_ok.
  apply alike_bind; [apply alike_staged, alike_lift|intros _]. apply alike_bind; [apply alike_staged, alike_lift|intros loaded].
  apply alike_bind; [apply alike_authenticate|intros _]. apply alike_bind; [by apply alike_staged, alike_openWebSocket|intros _].
  apply alike_bind; [apply alike_staged, alike_configure|intros _]. apply alike_bind; [apply alike_staged, alike_scan|intros device].
  apply alike_bind; [apply alike_staged, alike_connect|intros _].
  apply alike_bind; [apply alike_staged; unfold observe; destruct observed; [apply alike_report|apply alike_ret]|intros _].
  apply alike_bind; [apply alike_staged, (alike_runModes _ ["pulse"; "momentary"; "toggle"]%string)|intros _]. apply alike_bind; [apply alike_staged, alike_snapshot|intros _].
  apply alike_staged, alike_bind; [apply alike_ask|intros message; apply alike_report].
Qed.
End alike.

Lemma ran_over_https foldName stamp o b :
  bnPosted (run foldName stamp o b).2 = bnPosted b ∧ bnDialed (run foldName stamp o b).2 = bnDialed b ∨
  ∃ base, eoBase o = Some base ∧ buScheme base = "https"%string.
Proof.
  unfold run. destruct (_ || _); [by left|]. destruct (eoBase o) as [base|]; [|by left].
  unfold parseBaseURL. destruct (String.eqb_spec (buScheme base) "https"); [|by left]. right. by exists base.
Qed.

(** The last line of a failed run adds nothing but itself. *)
Lemma told foldName stamp o o' b host (P : list (string * list (string * json)) → Prop) (D : list (string * string * string) → Prop) :
  (eoUsername o =s "") || (eoPassword o =s "") = false → (eoUsername o' =s "") || (eoPassword o' =s "") = false →
  (run foldName stamp o b).1 = (run foldName stamp o' b).1 →
  alike host (run foldName stamp o b).2 (run foldName stamp o' b).2 →
  P (bnPosted (run foldName stamp o b).2) → D (bnDialed (run foldName stamp o b).2) →
  let '(status, b1) := e2eMain foldName stamp o b in
  let '(status', b2) := e2eMain foldName stamp o' b in
  (status = status' ∧ bnLines b1 = bnLines b2 ∧ bnSent b1 = bnSent b2 ∧ map fst (bnPosted b1) = map fst (bnPosted b2)) ∧
  P (bnPosted b1) ∧ D (bnDialed b1).
Proof.
  unfold e2eMain. intros -> ->. destruct (run foldName stamp o b) as [r b1], (run foldName stamp o' b) as [r' b2].
  cbn [fst snd]. intros <- Hs HP HD. destruct r as [[]|e]; [by destruct Hs|].
  set (f := fun b => mkBench _ _ _ _ _ _ _ _).
  destruct (alike_effect host f ltac:(intros ?? []; split; cbn; congruence) b1 b2 Hs) as [_ [H1 H2 H3 H4 H5 H6 H7 H8 _]].
  assert (bnPosted (effect f b1).2 = bnPosted b1 ∧ bnDialed (effect f b1).2 = bnDialed b1) as [Hp Hd]
    by (by destruct b1 as [? ? [|[]] ? ? ? ? ?]).
  rewrite Hp in H5. by rewrite Hp, Hd.
Qed.

(** C37. The password is never told.  A run with another password that meets the
    same answers ends with the same status, reports the same lines, sends the same
    messages and posts to the same endpoints; nothing is posted unless the base URL
    is of https, and the WebSocket is dialed on the same host with TLS. *)
Theorem the_password_is_never_told foldName stamp o password b :
  eoPassword o ≠ ""%string → password ≠ ""%string → bnDialed b = [] →
  let '(status, b1) := e2eMain foldName stamp o b in
  let '(status', b2) := e2eMain foldName stamp (withPassword password o) b in
  (status = status' ∧ bnLines b1 = bnLines b2 ∧ bnSent b1 = bnSent b2 ∧ map fst (bnPosted b1) = map fst (bnPosted b2)) ∧
  (bnPosted b1 = bnPosted b ∨ ∃ base, eoBase o = Some base ∧ buScheme base = "https"%string) ∧
  Forall (fun d => ∃ base, eoBase o = Some base ∧ d.1 = ("wss"%string, buHost base)) (bnDialed b1).
Proof.
  intros H1 H2 Hd. set (host := match eoBase o with Some base => buHost base | None => ""%string end).
  assert (alike host b b) as Hb by (split; try done; by rewrite Hd).
  destruct (alike_run foldName stamp host o password H1 H2 ltac:(intros base Hbase; unfold host; by rewrite Hbase) b b Hb) as [Hr Hs].
  destruct (eoUsername o =s "") eqn:Hu.
  { unfold e2eMain. cbn [eoUsername eoPassword withPassword]. rewrite Hu. cbn [orb]. rewrite Hd. by auto. }
  assert (∀ o', eoUsername o' = eoUsername o → eoPassword o' ≠ ""%string → (eoUsername o' =s "") || (eoPassword o' =s "") = false) as Hset.
  { intros o' -> Hne. by rewrite Hu, (proj2 (String.eqb_neq _ _) Hne). }
  apply (told foldName stamp o (withPassword password o) b host
    (fun posted => posted = bnPosted b ∨ ∃ base, eoBase o = Some base ∧ buScheme base = "https"%string)
    (Forall (fun d => ∃ base, eoBase o = Some base ∧ d.1 = ("wss"%string, buHost base)))); [by apply Hset|by apply Hset|exact Hr|exact Hs|..];
    destruct (ran_over_https foldName stamp o b) as [[Hp Hq]|(base & Hbase & Hscheme)].
  - by left.
  - right. by exists base.
  - rewrite Hq, Hd. constructor.
  - eapply Forall_impl; [apply Hs|]. intros d Hdd. exists base. split; [done|]. unfold host in Hdd. by rewrite Hbase in Hdd.
Qed.

(** *** A test drive *)

Module Drive.
(** A points file like the repository's: with members that only others read, and
    with absent and null ones. *)
Definition file : json :=
  JObj [("title", JStr "Block"); ("scanIntervalMs", JNum "500");
    ("points", JArr [
      JObj [("pointId", JStr "speed"); ("address", JStr "D522"); ("type", JStr "int32"); ("access", JStr "read"); ("readPoint", JStr "speed");
            ("writePoint", JNull); ("writeMethod", JNull); ("registerCount", JNum "2"); ("wordOrder", JStr "low-high")];
      JObj [("pointId", JStr "lamp"); ("address", JStr "D100.3"); ("type", JStr "bool"); ("access", JStr "read_write"); ("readPoint", JStr "lamp");
            ("writePoint", JStr "lamp"); ("writeMethod", JStr "maskWrite");
            ("write", JObj [("mode", JStr "pulse"); ("activeValue", JBool true); ("defaultValue", JBool false)])];
      JObj [("pointId", JStr "gate"); ("address", JStr "D100.4"); ("type", JStr "bool"); ("access", JStr "write"); ("readPoint", JNull);
            ("writePoint", JStr "gate"); ("writeMethod", JStr "maskWrite");
            ("write", JObj [("mode", JStr "momentary"); ("activeValue", JBool true); ("defaultValue", JBool false)])];
      JObj [("pointId", JStr "stop"); ("address", JStr "D500.0"); ("type", JStr "bool"); ("access", JStr "read"); ("readPoint", JStr "stop");
            ("writePoint", JNull); ("writeMethod", JNull);
            ("alarm", JObj [("normalValue", JBool false); ("alarmValue", JBool true); ("message", JStr "stopped"); ("level", JStr "danger")])]]);
    ("bindings", JArr [])]%string.
Definition points : list PointDefinition :=
  [mkPointDefinition "speed" "D522" "int32" "read" "speed" "" "" 2 "low-high" None None;
   mkPointDefinition "lamp" "D100.3" "bool" "read_write" "lamp" "lamp" "maskWrite" 0 ""
     (Some (mkWriteDefinition "pulse" (VBool true) (VBool false) 0)) None;
   mkPointDefinition "gate" "D100.4" "bool" "write" "" "gate" "maskWrite" 0 ""
     (Some (mkWriteDefinition "momentary" (VBool true) (VBool false) 0)) None;
   mkPointDefinition "stop" "D500.0" "bool" "read" "stop" "" "" 0 "" None
     (Some (mkAlarmDefinition (VBool false) (VBool true) "stopped"))].
Definition options : e2eOptions :=
  mkE2EOptions (Some (mkBaseURL "https" "127.0.0.1:8444" "127.0.0.1" "")) "/etc/ca.crt" (Ok true)
    (Ok file) "192.168.1.0/24" None "ann" "secret".
Definition answer (ty : string) (fields : list (string * json)) : result string json := Ok (JObj (("type"%string, JStr ty) :: fields)).
Definition ok : string * json := ("success"%string, JBool true).
Definition begun : list (result string json) :=
  [answer "runtime.configured" []; answer "points.changed" [];
   answer "plc.scan.result" [("devices"%string, JArr [JObj [("deviceId"%string, JStr "d1")]])]].
Definition values : result string json := answer "points.snapshot" [("values"%string, JObj [("lamp"%string, JNull); ("gate"%string, JNull)])].
Definition pressed : list (result string json) :=
  [answer "plc.connect.result" [ok; ("deviceId"%string, JStr "d1")]; values;
   answer "point.result" [ok; ("pointId"%string, JStr "lamp")]; answer "point.result" [ok; ("pointId"%string, JStr "gate")]].
Definition ended : list (result string json) :=
  [answer "point.result" [("pointId"%string, JStr "gate"); ok]; values; answer "plc.disconnect.result" [ok]].
Definition bench (incoming : list (result string json)) : Bench :=
  mkBench [Ok 409; Ok 200] incoming [] (replicate 8 (Some (replicate 16 7))) [] [] [] [].
Definition stamp (n : nat) : string := "2026-01-01T00:00:00Z".
Definition drive (incoming : list (result string json)) : Z * Bench := e2eMain (fun s => s) stamp options (bench incoming).
Definition types (b : Bench) : list (option json) := map (fun j => match j with JObj members => memberOf "type" members | _ => None end) (bnSent b).
Definition commands_sent (b : Bench) : list (option json) :=
  omap (fun j => match j with JObj members => match memberOf "action" members with Some a => Some (Some a) | None => None end | _ => None end) (bnSent b).
End Drive.

Example a_test_drive :
  (Drive.drive (Drive.begun ++ Drive.pressed ++ Drive.ended)).1 = 0 ∧
  Drive.types (Drive.drive (Drive.begun ++ Drive.pressed ++ Drive.ended)).2 =
    map (fun s => Some (JStr s)) ["runtime.configure"; "plc.scan"; "plc.connect"; "point.command"; "point.command"; "point.command";
                                  "points.snapshot.get"; "plc.disconnect"]%string.
Proof. vm_compute. split; reflexivity. Qed.

(** When the answer to the press is lost, the release is never sent. *)
Example a_press_without_its_release :
  Drive.commands_sent (Drive.drive (Drive.begun ++ take 3 Drive.pressed)).2 = [Some (JStr "pulse"); Some (JStr "press")] ∧
  (Drive.drive (Drive.begun ++ take 3 Drive.pressed)).1 = 1.
Proof. vm_compute. split; reflexivity. Qed.

(** The answer to a request that the test has not made, the agent's own
    connection to a remembered endpoint, is taken for the answer to its own. *)
Example another_answer_is_taken :
  let answered := [Drive.answer "plc.connect.result" [("requestId", JStr ""); Drive.ok; ("deviceId", JStr "d0")]%string; Drive.values] in
  last (bnLines (Drive.drive (Drive.begun ++ answered)).2) =
    Some (mkLine "point.command" "failed" [] "FAILED" "" "" "") ∧
  mkLine "plc.connect" "connected" [("deviceId"%string, JStr "d1")] "" "" "" "" ∈
    bnLines (Drive.drive (Drive.begun ++ answered)).2.
Proof. split; [vm_compute; reflexivity|]. apply list_elem_of_In. vm_compute. tauto. Qed.

(** An unsuccessful answer without a code is reported without one. *)
Example a_failure_without_a_code :
  let e := WEStage "plc.connect" (WEProtocol (mkFailure "plc.connect.result" "r1" "" "")) in
  errorCode e = "FAILED"%string ∧ rlErrorCode (failureResult e) = ""%string.
Proof. vm_compute. split; reflexivity. Qed.

(** A text stands for the message whose number is its length. *)
Module Texts.
Definition bench : Bench := Drive.bench (Drive.begun ++ Drive.pressed ++ Drive.ended).
Definition sent : list json := bnSent (run (fun s => s) Drive.stamp Drive.options bench).2.
Definition unmarshal (raw : string) : option json := sent !! String.length raw.
Definition parseFloat (s : string) : option spec_float := None.
Definition compact (j : json) : string := "".
Definition read (raw : string) : inbound := readInbound unmarshal (fun s => s) parseFloat compact raw.
End Texts.

(** The second text is the test's scan; its first one is the whole table; and the
    router takes the release. *)
Lemma understands_witness :
  (∃ requestID, Texts.read "" = InConfigure (mkEnvelope false "1.0" "2026-01-01T00:00:00Z" requestID) 500 Drive.points) ∧
  (∃ requestID, Texts.read "-" = InScan (mkEnvelope false "1.0" "2026-01-01T00:00:00Z" requestID) "192.168.1.0/24" None None) ∧
  checkCommand (fun _ => true) (table (map defaultPulse Drive.points)) (mkEnvelope false "1.0" "2026-01-01T00:00:00Z" "r1") "gate" "release" None =
    Ok VNil.
Proof.
  assert (∀ names, told_apart (fun s : string => s) names) as Htold by (intros names x y _ _ H; exact H).
  pose proof (the_agent_understands_the_test (fun s => s) Drive.stamp Texts.unmarshal Texts.parseFloat Texts.compact
    Drive.options Texts.bench (Htold _) (Htold _) eq_refl) as H.
  assert ((run (fun s => s) Drive.stamp Drive.options Texts.bench).1 = Ok tt) as Hok by (vm_compute; reflexivity).
  assert (bnSent (run (fun s => s) Drive.stamp Drive.options Texts.bench).2 = Texts.sent) as Hsent by (unfold Texts.sent; reflexivity).
  destruct (run (fun s => s) Drive.stamp Drive.options Texts.bench) as [r b']. cbn [fst snd] in Hok, Hsent. subst r.
  destruct (loadPoints (fun s => s) (eoPoints Drive.options)) as [[raw points]|] eqn:Hload; [|vm_compute in Hload; discriminate Hload].
  destruct H as [(device & meant & Hall & _ & Hmeant) Hcommands]. specialize (Hmeant eq_refl). rewrite Hsent in Hall.
  assert (∀ i j m, Texts.sent !! i = Some j → meant !! i = Some m → ∃ requestID, ∀ text, String.length text = i →
    Texts.read text = m (mkEnvelope false "1.0" "2026-01-01T00:00:00Z" requestID)) as Hread.
  { intros i j m Hj Hm. destruct (Forall2_lookup_lr _ _ _ _ _ _ Hall Hj Hm) as (id & ts & [n Hts] & Ht). exists id. intros text Hi.
    unfold Texts.read. rewrite (Ht text) by (unfold Texts.unmarshal; rewrite Hi; exact Hj). rewrite Hts. reflexivity. }
  assert (raw = match Drive.file with JObj (_ :: _ :: (_, j) :: _) => j | _ => JNull end ∧
          points = default [] (snd <$> match loadPoints (fun s => s) (eoPoints Drive.options) with Ok p => Some p | Err _ => None end))
    as [-> ->] by (rewrite Hload; split; [vm_compute in Hload; injection Hload as <- _; reflexivity|reflexivity]).
  split; [|split].
  - destruct (Hread 0%nat (default JNull (Texts.sent !! 0%nat)) (configureMeaning (fun s => s) Texts.parseFloat Texts.compact
      (match Drive.file with JObj (_ :: _ :: (_, j) :: _) => j | _ => JNull end))) as [id Hid];
      [vm_compute; reflexivity|rewrite Hmeant; reflexivity|].
    exists id. rewrite (Hid ""%string eq_refl). vm_compute. reflexivity.
  - destruct (Hread 1%nat (default JNull (Texts.sent !! 1%nat)) (fun e => InScan e "192.168.1.0/24" None None)) as [id Hid];
      [vm_compute; reflexivity|rewrite Hmeant; reflexivity|].
    exists id. exact (Hid "-"%string eq_refl).
  - apply (Hcommands (RuntimeConfig.mkConfig 500 (map defaultPulse Drive.points)) (fun _ => true)).
    + vm_compute. reflexivity.
    + assert (∀ P, Forall P Drive.points → ∀ p, p ∈ Drive.points → P p) as Hp by (intros P HP p; by apply Forall_forall).
      change (tableOf _ _ _ _).1 with Drive.points. intros p q Hpin Hqin.
      unfold Drive.points in Hpin, Hqin. rewrite !elem_of_cons, elem_of_nil in Hpin, Hqin.
      destruct Hpin as [->|[->|[->|[->|[]]]]], Hqin as [->|[->|[->|[->|[]]]]]; cbn; intros He Hs;
        first [reflexivity|discriminate He|by destruct Hs].
    + apply list_elem_of_In. vm_compute. tauto.
    + reflexivity.
    + reflexivity.
    + reflexivity.
Defined.

Lemma password_witness :
  (Drive.drive (Drive.begun ++ Drive.pressed)).1 = 1 ∧
  bnLines (e2eMain (fun s => s) Drive.stamp Drive.options (Drive.bench (Drive.begun ++ Drive.pressed))).2 =
  bnLines (e2eMain (fun s => s) Drive.stamp (withPassword "hidden" Drive.options) (Drive.bench (Drive.begun ++ Drive.pressed))).2.
Proof.
  split; [vm_compute; reflexivity|].
  pose proof (the_password_is_never_told (fun s => s) Drive.stamp Drive.options "hidden" (Drive.bench (Drive.begun ++ Drive.pressed))
    ltac:(done) ltac:(done) eq_refl) as H.
  destruct (e2eMain _ _ Drive.options _) as [status b1], (e2eMain _ _ (withPassword "hidden" Drive.options) _) as [status' b2]. apply H.
Defined.
