(* ===== verification/SimAcceptSpec.v ===== *)
(** * The register simulator closes what it opened

    The invariant of [SimAccept]'s steps; then that a server that has returned
    leaves no connection, and that a cancelled one returns. *)

From stdpp Require Import relations.
From S2P Require Import Prelude SimAccept.

(** ** The invariant *)

Definition ended (p : serve_phase) : Prop := match p with SWaiting _ | SReturned _ => True | _ => False end.

Definition connection_ok (s : Serving) (n : nat) (c : connection) : Prop :=
  (n ∈ svActive s ↔ coHandler c = HServing) ∧
  match coHandler c with
  | HWaiting => svPhase s = SAccepted n ∧ coOpen c = true
  | HServing => svShutdown s = OnceDone → coOpen c = false
  | HClosing => True
  | HDone => coOpen c = false
  end.

Record serving_ok (s : Serving) : Prop := {
  sk_connections : map_Forall (connection_ok s) (svConnections s);
  sk_active : svActive s ⊆ dom (svConnections s);
  sk_count : svCount s = Z.of_nat (size (svActive s));
  sk_shutdown : svShutdown s ≠ OnceIdle → svCancelled s = true ∨ ended (svPhase s);
  sk_listening : svListening s = false ↔ svShutdown s ≠ OnceIdle;
  sk_stopped : svStopped s = true → ended (svPhase s);
  sk_phase : match svPhase s with
             | SAccepted n => ∃ c, svConnections s !! n = Some c ∧ coHandler c = HWaiting
             | SDeferred result | SWaiting result => result = None → svCancelled s = true
             | SReturned result => (result = None → svCancelled s = true) ∧ svShutdown s = OnceDone ∧ allDone s
             | SAccepting => True
             end
}.

Lemma start_ok : serving_ok startServing.
Proof.
  split; cbn; try done.
Qed.

(** A step that leaves the connections and the active set as they are. *)
Lemma same_connections s s' :
  svActive s' = svActive s →
  (∀ n c, svConnections s !! n = Some c → coHandler c = HWaiting → svPhase s = SAccepted n → svPhase s' = SAccepted n) →
  (svShutdown s' = OnceDone → svShutdown s = OnceDone) →
  map_Forall (connection_ok s) (svConnections s) → map_Forall (connection_ok s') (svConnections s).
Proof.
  intros Ha Hp Hs Hok n c Hn. destruct (Hok n c Hn) as [H1 H2]. unfold connection_ok. rewrite Ha.
  split; [exact H1|]. destruct (coHandler c) eqn:Hh; [|by intros ?; apply H2, Hs|done|exact H2].
  destruct H2 as [H2 H3]. split; [|done]. by apply (Hp n c).
Qed.

Ltac serving_cases Hok :=
  let H1 := fresh "Hcon" in let H2 := fresh "Hact" in let H3 := fresh "Hcnt" in let H4 := fresh "Hshut" in
  let H5 := fresh "Hlis" in let H6 := fresh "Hsto" in let H7 := fresh "Hph" in destruct Hok as [H1 H2 H3 H4 H5 H6 H7].

(** One connection changes; the rest is as it was. *)
Lemma changed_connection s s' n c :
  (∀ m d, m ≠ n → svConnections s !! m = Some d → connection_ok s m d → connection_ok s' m d) →
  connection_ok s' n c →
  map_Forall (connection_ok s) (svConnections s) → map_Forall (connection_ok s') (<[n := c]> (svConnections s)).
Proof.
  intros Hother Hc Hok m d Hm. destruct (decide (m = n)) as [->|Hne].
  - rewrite lookup_insert_eq in Hm. by injection Hm as <-.
  - rewrite lookup_insert_ne in Hm by done. apply Hother; [done..|]. by apply Hok.
Qed.

Lemma accepted_ok s n :
  serving_ok s → svPhase s = SAccepting → svListening s = true → svConnections s !! n = None → serving_ok (accepted n s).
Proof.
  intros Hok Hp Hl Hn. serving_cases Hok.
  assert (svShutdown s = OnceIdle) as Hi by (destruct (svShutdown s); [done|..]; exfalso; destruct Hlis as [_ Hlis]; rewrite Hlis in Hl; done).
  split; cbn [accepted svConnections svActive svCount svShutdown svListening svStopped svPhase svCancelled].
  - apply (changed_connection s); [| |exact Hcon].
    + intros m d Hne Hm [H1 H2]. split; [exact H1|]. cbn. destruct (coHandler d); try done. destruct H2 as [H2 _]. congruence.
    + split; cbn; [|done]. split; [|done]. intros Ha. apply Hact, elem_of_dom in Ha. destruct Ha as [d Hd]. congruence.
  - rewrite dom_insert_L. set_solver.
  - exact Hcnt.
  - by rewrite Hi.
  - exact Hlis.
  - intros Hs. by rewrite Hp in Hsto; apply Hsto in Hs.
  - exists (mkConnection true HWaiting). by rewrite lookup_insert_eq.
Qed.

Lemma register_ok s n : serving_ok s → svPhase s = SAccepted n → serving_ok (register n s).
Proof.
  intros Hok Hp. serving_cases Hok. rewrite Hp in Hph. destruct Hph as (c & Hc & Hw).
  destruct (Hcon n c Hc) as [Hna Hopen]. rewrite Hw in Hna, Hopen.
  assert (n ∉ svActive s) as Hni by (intros Ha; by apply Hna in Ha). unfold register.
  assert (∀ s' m d, svActive s' ∖ {[n]} = svActive s → svShutdown s' = svShutdown s → m ≠ n →
    svConnections s !! m = Some d → connection_ok s m d → connection_ok s' m d) as Hother.
  { intros s' m d Ha Hs' Hne Hm [H1 H2]. split.
    - rewrite <-H1, <-Ha. set_solver.
    - rewrite Hs'. destruct (coHandler d); try done. destruct H2 as [H2 _]. congruence. }
  destruct (svCancelled s) eqn:Hcan.
  - split; cbn [setPhase setConnection svConnections svActive svCount svShutdown svListening svStopped svPhase svCancelled].
    + apply (changed_connection s); [| |exact Hcon].
      * intros m d. apply Hother; [|done]. cbn. set_solver.
      * split; cbn; [|done]. naive_solver.
    + rewrite dom_insert_L. set_solver.
    + exact Hcnt.
    + auto.
    + exact Hlis.
    + intros Hs. by rewrite Hp in Hsto; apply Hsto in Hs.
    + auto.
  - split; cbn [svConnections svActive svCount svShutdown svListening svStopped svPhase svCancelled].
    + apply (changed_connection s); [| |exact Hcon].
      * intros m d. apply Hother; [|done]. cbn. set_solver.
      * split; cbn; [set_solver|]. intros Hd. exfalso. destruct Hshut as [?|?]; [by rewrite Hd|done|by rewrite Hp in *].
    + rewrite dom_insert_L. set_solver.
    + rewrite size_union, size_singleton by set_solver. lia.
    + intros Hs. destruct (Hshut Hs) as [?|?]; [done|by rewrite Hp in *].
    + exact Hlis.
    + intros Hs. by rewrite Hp in Hsto; apply Hsto in Hs.
    + done.
Qed.

Lemma unregister_ok s n c : serving_ok s → svConnections s !! n = Some c → coHandler c = HServing → serving_ok (unregister n c s).
Proof.
  intros Hok Hc Hh. serving_cases Hok. destruct (Hcon n c Hc) as [Hna _]. rewrite Hh in Hna.
  assert (n ∈ svActive s) as Hi by (by apply Hna).
  split; cbn [unregister svConnections svActive svCount svShutdown svListening svStopped svPhase svCancelled].
  - apply (changed_connection s); [| |exact Hcon].
    + intros m d Hne Hm [H1 H2]. split; [rewrite <-H1; cbn; set_solver|exact H2].
    + split; cbn; [set_solver|done].
  - rewrite dom_insert_L. set_solver.
  - rewrite size_difference, size_singleton by set_solver.
    assert (size (svActive s) ≠ 0%nat) by (intros Hz; apply size_empty_inv in Hz; set_solver). lia.
  - exact Hshut.
  - exact Hlis.
  - exact Hsto.
  - destruct (svPhase s) as [|m| | |]; try done.
    + destruct Hph as (d & Hd & Hw). exists d. rewrite lookup_insert_ne; [done|]. intros ->. congruence.
    + destruct Hph as (_ & _ & Hd). exfalso. apply (Hd n c Hc). by rewrite Hh.
Qed.

Lemma hang_up_ok s n c h :
  serving_ok s → svConnections s !! n = Some c →
  (coHandler c = HServing ∧ h = HServing ∨ coHandler c = HClosing ∧ h = HDone) → serving_ok (setConnection n (mkConnection false h) s).
Proof.
  intros Hok Hc Hh. serving_cases Hok. destruct (Hcon n c Hc) as [Hna _].
  split; cbn [setConnection svConnections svActive svCount svShutdown svListening svStopped svPhase svCancelled].
  - apply (changed_connection s); [| |exact Hcon].
    + intros m d Hne Hm [H1 H2]. by split.
    + destruct Hh as [[Hx ->]|[Hx ->]]; rewrite Hx in Hna; (split; cbn; [exact Hna || (rewrite Hna; done)|done]).
  - rewrite dom_insert_L. set_solver.
  - exact Hcnt.
  - exact Hshut.
  - exact Hlis.
  - exact Hsto.
  - destruct (svPhase s) as [|m| | |]; try done.
    + destruct Hph as (d & Hd & Hw). exists d. rewrite lookup_insert_ne; [done|]. intros ->. simplify_eq. destruct Hh as [[Hx _]|[Hx _]]; congruence.
    + destruct Hph as (_ & _ & Hd). exfalso. apply (Hd n c Hc). destruct Hh as [[-> _]|[-> _]]; done.
Qed.

Lemma lookup_closeActive s n d :
  svConnections (closeActive s) !! n = Some d →
  ∃ c, svConnections s !! n = Some c ∧ d = if bool_decide (n ∈ svActive s) then mkConnection false (coHandler c) else c.
Proof.
  cbn [closeActive svConnections]. rewrite map_lookup_imap. destruct (svConnections s !! n) as [c|]; [|done].
  cbn. intros [= <-]. by exists c.
Qed.

Lemma handler_closed (b : bool) c : coHandler (if b then mkConnection false (coHandler c) else c) = coHandler c.
Proof. by destruct b. Qed.

Lemma closeActive_ok s : serving_ok s → svShutdown s = OnceListener → serving_ok (closeActive s).
Proof.
  intros Hok Hs. serving_cases Hok.
  split; cbn [closeActive svActive svCount svShutdown svListening svStopped svPhase svCancelled].
  - intros n d Hd. apply lookup_closeActive in Hd as (c & Hc & ->). destruct (Hcon n c Hc) as [H1 H2].
    unfold connection_ok. rewrite handler_closed. split; [exact H1|]. cbn [closeActive svPhase svShutdown svActive].
    destruct (coHandler c) eqn:Hh; try done.
    + rewrite bool_decide_eq_false_2 by (intros Ha; by apply H1 in Ha). exact H2.
    + intros _. by rewrite bool_decide_eq_true_2 by (by apply H1).
    + by destruct (bool_decide _).
  - intros n Hn. apply Hact, elem_of_dom in Hn as [c Hc]. apply elem_of_dom. cbn [closeActive svConnections].
    rewrite map_lookup_imap, Hc. by eexists.
  - exact Hcnt.
  - intros _. apply Hshut. by rewrite Hs.
  - rewrite Hlis, Hs. done.
  - exact Hsto.
  - destruct (svPhase s) as [|n| | |]; try done.
    + destruct Hph as (c & Hc & Hw). eexists. cbn [closeActive svConnections]. rewrite map_lookup_imap, Hc. split; [reflexivity|].
      by rewrite handler_closed.
    + destruct Hph as (_ & Hd & _). congruence.
Qed.

Lemma closeListener_ok s :
  serving_ok s → svShutdown s = OnceIdle → (svCancelled s = true ∨ ∃ result, svPhase s = SWaiting result) →
  serving_ok (closeListener s).
Proof.
  intros Hok Hi Hw. serving_cases Hok.
  split; cbn [closeListener svActive svCount svShutdown svListening svStopped svPhase svCancelled svConnections]; try done.
  - by apply (same_connections s).
  - intros _. destruct Hw as [?|[result Hr]]; [by left|right]. by rewrite Hr.
  - destruct (svPhase s); try done. destruct Hph as (_ & ? & _). congruence.
Qed.

(** A step of the accept loop that touches no connection. *)
Lemma phase_ok s p :
  serving_ok s → (∀ n, svPhase s ≠ SAccepted n) →
  (ended (svPhase s) → ended p) →
  match p with
  | SAccepted _ => False
  | SDeferred result | SWaiting result => result = None → svCancelled s = true
  | SReturned result => (result = None → svCancelled s = true) ∧ svShutdown s = OnceDone ∧ allDone s
  | SAccepting => True
  end → serving_ok (setPhase p s).
Proof.
  intros Hok Hn He Hp. serving_cases Hok.
  split; cbn [setPhase svActive svCount svShutdown svListening svStopped svPhase svCancelled svConnections]; try done.
  - apply (same_connections s); try done. intros n c _ _ Hx. by destruct (Hn n).
  - intros Hs. destruct (Hshut Hs); auto.
  - intros Hs. auto.
  - by destruct p.
Qed.

Lemma acceptFailed_ok s e : serving_ok s → svPhase s = SAccepting → serving_ok (acceptFailed e s).
Proof.
  intros Hok Hp. apply phase_ok; [done|by rewrite Hp..|]. by destruct (svCancelled s).
Qed.

Lemma serving_stop_ok s result : serving_ok s → svPhase s = SDeferred result → serving_ok (stop result s).
Proof.
  intros Hok Hp. pose proof (sk_phase _ Hok) as Hph. rewrite Hp in Hph.
  assert (serving_ok (setPhase (SWaiting result) s)) as Hs by (apply phase_ok; [done|by rewrite Hp..|done]).
  serving_cases Hs. split; done.
Qed.

Lemma serving_inner_ok s s' : serving_ok s → inner_step s s' → serving_ok s'.
Proof.
  intros Hok Hs. destruct Hs as [n Hp Hl _ Hn|Hp _|n Hp|result Hp|Hi Hw|Hl|result Hp Hd Ha|n c Hc Hh _|n c Hc Hh].
  - by apply accepted_ok.
  - by apply acceptFailed_ok.
  - by apply register_ok.
  - by apply serving_stop_ok.
  - apply closeListener_ok; [done..|]. destruct Hw as [[? _]|?]; auto.
  - by apply closeActive_ok.
  - pose proof (sk_phase _ Hok) as Hph. rewrite Hp in Hph. apply phase_ok; [done|by rewrite Hp..|done].
  - by apply unregister_ok.
  - apply (hang_up_ok s n c); auto.
Qed.

Lemma serving_outer_ok s s' : serving_ok s → outer_step s s' → serving_ok s'.
Proof.
  intros Hok Hs. destruct Hs as [|Hl|n c Hc Hh|n c Hc Hh|e Hp].
  - serving_cases Hok. split; try done; cbn.
    + by left.
    + destruct (svPhase s); try done. by destruct Hph.
  - serving_cases Hok. by split.
  - apply (hang_up_ok s n c); auto.
  - by apply unregister_ok.
  - by apply acceptFailed_ok.
Qed.

Lemma serving_reachable_ok s : serving_reachable s → serving_ok s.
Proof.
  unfold serving_reachable. intros Hr. pose proof start_ok as Hok. revert Hok.
  induction Hr as [|s1 s2 s3 [Hs|Hs] _ IH]; intros Hok; [done|apply IH..].
  - by apply (serving_inner_ok s1).
  - by apply (serving_outer_ok s1).
Qed.

(** ** Progress *)

Definition handlerWeight (h : handler) : nat := match h with HWaiting => 4 | HServing => 3 | HClosing => 1 | HDone => 0 end.
Definition phaseWeight (p : serve_phase) : nat :=
  match p with SAccepting => 4 | SAccepted _ => 5 | SDeferred _ => 3 | SWaiting _ => 2 | SReturned _ => 0 end.
Definition onceWeight (o : once) : nat := match o with OnceIdle => 2 | OnceListener => 1 | OnceDone => 0 end.

Definition weigh (m : gmap nat handler) : nat := map_fold (fun _ h acc => handlerWeight h + acc)%nat 0%nat m.

Lemma weigh_insert_fresh m n h : m !! n = None → weigh (<[n := h]> m) = (handlerWeight h + weigh m)%nat.
Proof. intros Hn. unfold weigh. rewrite map_fold_insert_L; [done| |done]. intros. lia. Qed.

Lemma weigh_insert m n h h0 : m !! n = Some h0 → (weigh (<[n := h]> m) + handlerWeight h0 = weigh m + handlerWeight h)%nat.
Proof.
  intros Hn. rewrite <-(insert_delete_id m n h0 Hn) at 2. rewrite <-(insert_delete_eq m n h).
  rewrite !weigh_insert_fresh by apply lookup_delete_eq. lia.
Qed.

Definition work (s : Serving) : nat :=
  (8 * svBacklog s + phaseWeight (svPhase s) + onceWeight (svShutdown s) + weigh (coHandler <$> svConnections s))%nat.

Lemma handlers_closeActive s : coHandler <$> svConnections (closeActive s) = coHandler <$> svConnections s.
Proof.
  apply map_eq. intros n. cbn [closeActive svConnections]. rewrite !lookup_fmap, map_lookup_imap.
  destruct (svConnections s !! n); [|done]. cbn. by rewrite handler_closed.
Qed.

Lemma work_connection s n c h b :
  svConnections s !! n = Some c → (handlerWeight h < handlerWeight (coHandler c))%nat →
  (weigh (coHandler <$> <[n := mkConnection b h]> (svConnections s)) < weigh (coHandler <$> svConnections s))%nat.
Proof.
  intros Hc Hh. rewrite fmap_insert. pose proof (weigh_insert (coHandler <$> svConnections s) n h (coHandler c)) as Hw.
  rewrite lookup_fmap, Hc in Hw. specialize (Hw eq_refl). cbn [coHandler]. lia.
Qed.

Lemma serving_decreases s s' : serving_ok s → inner_step s s' → (work s' < work s)%nat.
Proof.
  intros Hok Hs. unfold work. destruct Hs as [n Hp Hl Hb Hn|Hp _|n Hp|result Hp|Hi Hw|Hl|result Hp Hd Ha|n c Hc Hh _|n c Hc Hh].
  - cbn [accepted svBacklog svPhase svShutdown svConnections phaseWeight]. rewrite fmap_insert, weigh_insert_fresh, Hp.
    + cbn. lia.
    + by rewrite lookup_fmap, Hn.
  - cbn [acceptFailed setPhase svBacklog svPhase svShutdown svConnections phaseWeight]. rewrite Hp. cbn. lia.
  - pose proof (sk_phase _ Hok) as Hph. rewrite Hp in Hph. destruct Hph as (c & Hc & Hw). unfold register.
    destruct (svCancelled s); cbn [setPhase setConnection svBacklog svPhase svShutdown svConnections phaseWeight]; rewrite Hp.
    + pose proof (work_connection s n c HDone false Hc) as Hlt. rewrite Hw in Hlt. cbn in *. lia.
    + pose proof (work_connection s n c HServing true Hc) as Hlt. rewrite Hw in Hlt. cbn in *. lia.
  - cbn [stop svBacklog svPhase svShutdown svConnections phaseWeight]. rewrite Hp. cbn. lia.
  - cbn [closeListener svBacklog svPhase svShutdown svConnections]. rewrite Hi. cbn. lia.
  - cbn [closeActive svBacklog svPhase svShutdown svConnections]. rewrite Hl.
    change (map_imap _ (svConnections s)) with (svConnections (closeActive s)). rewrite handlers_closeActive. cbn. lia.
  - cbn [setPhase svBacklog svPhase svShutdown svConnections phaseWeight]. rewrite Hp. cbn. lia.
  - cbn [unregister svBacklog svPhase svShutdown svConnections].
    pose proof (work_connection s n c HClosing (coOpen c) Hc) as Hlt. rewrite Hh in Hlt. cbn in *. lia.
  - cbn [setConnection svBacklog svPhase svShutdown svConnections].
    pose proof (work_connection s n c HDone false Hc) as Hlt. rewrite Hh in Hlt. cbn in *. lia.
Qed.

Lemma serving_bounded n s s' : serving_ok s → nsteps inner_step n s s' → (n + work s' ≤ work s)%nat.
Proof.
  intros Hok Hn. induction Hn as [|n s1 s2 s3 Hs _ IH]; [lia|].
  pose proof (serving_decreases _ _ Hok Hs). specialize (IH (serving_inner_ok _ _ Hok Hs)). lia.
Qed.

(** Waiting for the handlers ends when nothing can move. *)
Lemma stuck_done s : nf inner_step s → svShutdown s = OnceDone → serving_ok s → allDone s.
Proof.
  intros Hn Hd Hok n c Hc Hr. destruct (sk_connections _ Hok n c Hc) as [_ H2].
  destruct (coHandler c) eqn:Hh; [done|..|done]; apply Hn.
  - eexists. by apply (ac_leave _ n c), H2.
  - eexists. by apply (ac_close _ n c).
Qed.

Lemma stuck_returned s :
  serving_ok s → svCancelled s = true → nf inner_step s → ∃ result, svPhase s = SReturned result.
Proof.
  intros Hok Hc Hn. destruct (svPhase s) as [|n|result|result|result] eqn:Hp; [exfalso; apply Hn..|by exists result].
  - destruct (svListening s) eqn:Hl.
    + eexists. apply ac_shutdown.
      * destruct (svShutdown s) eqn:Hs; [done|..]; exfalso;
          (assert (svListening s = false) by (apply (sk_listening _ Hok); by rewrite Hs); congruence).
      * left. split; [done|]. destruct (svStopped s) eqn:Hs; [|done]. exfalso. pose proof (sk_stopped _ Hok Hs) as He. by rewrite Hp in He.
    + eexists. by apply ac_closed.
  - eexists. by apply ac_register.
  - eexists. by apply ac_stop.
  - destruct (svShutdown s) eqn:Hs.
    + eexists. apply ac_shutdown; [done|]. right. by exists result.
    + eexists. by apply ac_close_all.
    + eexists. apply (ac_return _ result); [done..|]. by apply stuck_done.
Qed.

Lemma inner_reach s s' : serving_ok s → rtc inner_step s s' → serving_ok s' ∧ (svCancelled s = true → svCancelled s' = true).
Proof.
  intros Hok Hr. induction Hr as [|s1 s2 s3 Hs _ IH]; [done|]. destruct (IH (serving_inner_ok _ _ Hok Hs)) as [H1 H2].
  split; [done|]. intros Hc. apply H2. destruct Hs; cbn; try done. unfold register. by rewrite Hc.
Qed.

(** C21. A simulator that has stopped left nothing open.  However clients dial,
    hang up and send what is no request, and whenever the context ends: the
    counter of connections is the number of handlers at work; and when [Serve]
    returns, the listener is closed, every connection it ever accepted is closed,
    no handler runs and the counter is zero — without an error only if the context
    has ended. *)
Theorem a_stopped_simulator_left_nothing_open s :
  serving_reachable s →
  svCount s = Z.of_nat (size (svActive s)) ∧
  (∀ n c, svConnections s !! n = Some c → n ∈ svActive s ↔ coHandler c = HServing) ∧
  ∀ result, svPhase s = SReturned result →
    svListening s = false ∧ svCount s = 0 ∧ (result = None → svCancelled s = true) ∧
    ∀ n c, svConnections s !! n = Some c → coOpen c = false ∧ coHandler c = HDone.
Proof.
  intros Hr. apply serving_reachable_ok in Hr as Hok. serving_cases Hok.
  split; [done|]. split; [intros n c Hc; by apply Hcon|]. intros result Hp. rewrite Hp in Hph. destruct Hph as (Hres & Hd & Hall).
  assert (∀ n c, svConnections s !! n = Some c → coOpen c = false ∧ coHandler c = HDone) as Hend.
  { intros n c Hc. destruct (Hcon n c Hc) as [_ H2]. pose proof (Hall n c Hc : ¬ running (coHandler c)) as Hrun.
    destruct (coHandler c); [destruct H2; congruence|by destruct Hrun..|done]. }
  split; [by apply Hlis; rewrite Hd|]. split; [|done].
  rewrite Hcnt. assert (svActive s = ∅) as ->; [|done]. apply elem_of_equiv_empty_L. intros n Hn.
  apply Hact in Hn as Hdom. apply elem_of_dom in Hdom as [c Hc]. apply (Hcon n c Hc) in Hn. destruct (Hend n c Hc). congruence.
Qed.

(** A cancelled simulator returns.  The server can take only a bounded number
    of steps of its own, whatever is connected; and once the context has ended,
    where it can take none [Serve] has returned. *)
Theorem a_cancelled_simulator_returns s :
  serving_reachable s →
  (∀ n s', nsteps inner_step n s s' → (n ≤ work s)%nat) ∧
  (svCancelled s = true → ∀ s', rtc inner_step s s' → nf inner_step s' → ∃ result, svPhase s' = SReturned result).
Proof.
  intros Hr. apply serving_reachable_ok in Hr as Hok. split.
  - intros n s' Hn. apply serving_bounded in Hn; [lia|done].
  - intros Hc s' Hs Hn. destruct (inner_reach _ _ Hok Hs) as [Hok' Hc']. apply stuck_returned; auto.
Qed.

(** A client is connected when the context ends; it is gone when [Serve] returns. *)
Module Evening.
Definition dialled : Serving := mkServing SAccepting false false true OnceIdle 1 ∅ ∅ 0.
Definition talking := register 0 (accepted 0 dialled).
Definition cancelled (s : Serving) : Serving :=
  mkServing (svPhase s) true (svStopped s) (svListening s) (svShutdown s) (svBacklog s) (svConnections s) (svActive s) (svCount s).
Definition shut := closeActive (closeListener (cancelled talking)).
Definition left := setConnection 0 (mkConnection false HDone) (unregister 0 (mkConnection false HServing) shut).
Definition over := setPhase (SReturned None) (stop None (acceptFailed "use of closed network connection" left)).

Lemma talking_reached : serving_reachable talking.
Proof.
  eapply rtc_l; [right; apply ac_dial; reflexivity|]. eapply rtc_l; [left; apply (ac_accept _ 0); done|].
  apply rtc_once. left. apply (ac_register _ 0). reflexivity.
Qed.

Lemma over_reached : serving_reachable over.
Proof.
  apply (transitivity (y := talking)); [exact talking_reached|]. eapply rtc_l; [right; apply ac_cancel|].
  eapply rtc_l; [left; apply ac_shutdown; [reflexivity|by left]|]. eapply rtc_l; [left; apply ac_close_all; reflexivity|].
  eapply rtc_l; [left; apply (ac_leave _ 0 (mkConnection false HServing)); reflexivity|].
  eapply rtc_l; [left; apply (ac_close _ 0 (mkConnection false HClosing)); reflexivity|].
  eapply rtc_l; [left; apply ac_closed; reflexivity|]. eapply rtc_l; [left; apply (ac_stop _ None); reflexivity|].
  apply rtc_once. left. apply (ac_return _ None); [reflexivity..|].
  apply (bool_decide_unpack _). vm_compute. exact I.
Qed.
End Evening.

Lemma stopped_witness : svListening Evening.over = false ∧ svCount Evening.over = 0.
Proof.
  destruct (a_stopped_simulator_left_nothing_open Evening.over Evening.over_reached) as (_ & _ & H).
  destruct (H None eq_refl) as (Hl & Hc & _). exact (conj Hl Hc).
Defined.

Lemma returns_witness :
  svActive Evening.talking = {[0%nat]} ∧ ∀ n s', nsteps inner_step n Evening.talking s' → (n ≤ 9)%nat.
Proof.
  split; [vm_compute; reflexivity|].
  intros n s' Hn. destruct (a_cancelled_simulator_returns Evening.talking Evening.talking_reached) as [H _].
  exact (H n s' Hn).
Defined.
