(* ===== verification/ChainSpec.v ===== *)
(** * What the queue, the adapter and the simulated PLC promise together

    The properties of [internal/plcsim/server.go], [internal/adapter] and
    [internal/config/config.go], on top of the engine and of the command queue. *)

From Stdlib Require Import Ascii String.
From S2P Require Import Prelude GoText GoValue PlcContract PlcSim PlcSimProofs AgentConfig StateModel Storage StorageProofs StorageRuns CommandQueue QueueProofs Adapter AdapterProofs.

Section chain.
Variables (digest : canonical → string) (quote : string → string) (cfg : Simulator) (errorText : sim_error → string).
Variables (sent : Command → result string Command) (socket : string).
Variables (range : gmap Z ModelAlarm → list (Z * ModelAlarm)) (wall : Z) (details : Command → CommandResult → string) (staleAfter : Z).
Notation device := (plc_device digest quote cfg errorText sent socket).
Notation operate := (operate (H := device) range wall quote details staleAfter).
Notation told := (told digest).


Lemma idle_ok : meeting_ok idle.
Proof. split; [constructor|vm_compute; reflexivity]. Qed.

Lemma next_exchange exchanges :
  Forall meeting_ok exchanges → meeting_ok (default idle (head exchanges)) ∧ Forall meeting_ok (tail exchanges).
Proof. intros [|x rest Hx Hrest]; [split; [exact idle_ok|constructor]|done]. Qed.

Lemma terminal_status r :
  terminalStatus (crStatus r) = true → crStatus r ≠ CommandExecuted →
  crStatus r = CommandRejected ∨ crStatus r = CommandFailed ∨ crStatus r = CommandUnknown.
Proof.
  unfold terminalStatus. intros Ht He. rewrite (proj2 (String.eqb_neq _ _) He) in Ht.
  destruct (String.eqb_spec (crStatus r) CommandRejected); [by left|]. destruct (String.eqb_spec (crStatus r) CommandFailed); [by right; left|].
  destruct (String.eqb_spec (crStatus r) CommandUnknown); [by right; right|]. done.
Qed.

(** What the answer of the device says, when it is one. *)
Lemma executed_told command x e r e1 :
  sent command = Ok command → NormalizeCommand command = command →
  Execute digest quote cfg errorText sent command x e = (Ok r, e1) →
  ∃ p, processedIn e1 (cmCommandID command) = Some p ∧
    ((pcFingerprint p = CommandFingerprint digest command ∧ pcResult p = r) ∨
     (pcFingerprint p ≠ CommandFingerprint digest command ∧ crStatus r = CommandRejected)).
Proof.
  intros Hsent Hn Hx. destruct (Execute_spec digest quote cfg errorText sent command x e (Ok r) e1 Hsent Hx)
    as [[_ [err [=]]]|(res & e2 & Ha & -> & [[= ->]|[err [=]]])].
  apply ApplyCommand_answer in Ha. rewrite Hn in Ha. destruct Ha as (p & Hp & Hr). exists p. split; [by apply runs_keeps|].
  destruct Hr as [Hr|(Hf & Hs & _)]; [by left|by right].
Qed.

Lemma validated_cases command x :
  (∃ res, x = Ok res ∧ validatedResult quote command x = res) ∨ crStatus (validatedResult quote command x) = CommandUnknown.
Proof.
  unfold validatedResult. destruct x as [res|err]; [|by right]. destruct (_ <>s _); [by right|]. destruct (_ <>s _); [by right|].
  destruct (terminalStatus _); [left; by exists res|by right].
Qed.

Lemma persisted budget command meta r readback w outcome err w' :
  persistOutcome (H := device) range wall details staleAfter budget command meta r readback w = ((outcome, err, false), w') →
  ouResult outcome = ensureResultCode r ∧ crStatus (ouResult outcome) = crStatus r ∧
  dvEngine (woDevice w') = dvEngine (woDevice w).
Proof.
  intros Hop. pose proof (persistOutcome_link digest quote cfg errorText sent socket range wall details staleAfter budget command meta r readback w) as Hl.
  rewrite Hop in Hl. injection Hl as _ L2 _. apply persistOutcome_result in Hop as Ho. rewrite Ho.
  by destruct (ensureResultCode_same r) as (_ & _ & -> & _).
Qed.

Lemma operate_told budget command meta w outcome err w' :
  dvKind (woDevice w) = KindSimulator → sent command = Ok command → NormalizeCommand command = command →
  shown_ok (enState (dvEngine (woDevice w))) → Forall meeting_ok (dvExchanges (woDevice w)) →
  operate budget command meta w = ((outcome, err, false), w') →
  told command (ouResult outcome) (dvEngine (woDevice w)) (dvEngine (woDevice w')).
Proof.
  intros Hk Hsent Hn He Hxs. unfold CommandQueue.operate.
  pose proof (commandAvailability_link digest quote cfg errorText sent socket staleAfter w) as Hav.
  destruct (commandAvailability _ w) as [[code reason] w1]. cbn [snd] in Hav. injection Hav as K1 K2 K3.
  destruct (code <>s "") eqn:Hc; intros Hop.
  { apply persisted in Hop as (_ & Es & L2). split; rewrite Es; [done|]. intros _. left. congruence. }
  rewrite <-K1 in Hk. rewrite <-K2 in He. rewrite <-K3 in Hxs. rewrite <-K2. clear K1 K2 K3 Hc.
  apply next_exchange in Hxs as [Hx Hrest]. unfold onDevice in Hop. cbn [devExecute plc_device] in Hop.
  unfold access in Hop at 1. rewrite Hk in Hop. set (x := default idle (head (dvExchanges (woDevice w1)))) in *.
  destruct (Execute digest quote cfg errorText sent command x (dvEngine (woDevice w1))) as [r e1] eqn:Hex.
  pose proof (Execute_shown digest quote cfg errorText sent command x _ r e1 Hsent Hx He Hex) as He1.
  set (answer := match r with Ok a => Ok a | Err e => Err (adapterText e) end) in Hop. cbn [woStore woDevice] in Hop.
  destruct (validated_cases command answer) as [(res & Hans & Hv)|Hv].
  - assert (r = Ok res) as -> by (subst answer; destruct r; congruence). rewrite Hv in Hop. clear Hans Hv answer.
    destruct (executed_told command x _ res e1 Hsent Hn Hex) as (p & Hp & Hres).
    destruct (ensureResultCode_same res) as (_ & _ & Hst & _).
    destruct (String.eqb_spec (crStatus (ensureResultCode res)) CommandExecuted) as [Hexec|Hne].
    + rewrite Hst in Hexec. rewrite (ensureResultCode_executed res Hexec) in Hop. cbn [devRead plc_device] in Hop. unfold access in Hop at 1.
      cbn [dvKind dvEngine dvExchanges dvClock dvAcks] in Hop. set (x2 := default idle _) in Hop.
      destruct (Read digest quote cfg errorText socket x2 e1) as [value e2] eqn:Hread.
      assert (meeting_ok x2) as [Hx2 _] by by apply (next_exchange (tail (dvExchanges (woDevice w1)))).
      destruct (Read_spec digest quote cfg errorText socket x2 e1 value e2 Hread Hx2 He1) as [Hval _].
      destruct value as [value|err2]; cbn [woStore woDevice] in Hop.
      * destruct (confirm command res value) as [[]|cerr] eqn:Hconf.
        -- apply persisted in Hop as (Ho & Es & Le). cbn [dvEngine woDevice] in Le. rewrite Le, Ho, (ensureResultCode_executed res Hexec).
           split; rewrite ?Hn; [|rewrite Hexec; by intros [?|[? ?]]]. intros _. split; [|by rewrite <-Hval].
           destruct Hres as [[Hf Hr]|[_ Hs]]; [|by rewrite Hexec in Hs].
           rewrite (Read_keeps digest quote cfg errorText socket x2 e1 _ e2 Hread Hx2 He1 _ _ Hp). by destruct p; cbn in *; subst.
        -- apply persisted in Hop as (Ho & Es & _). apply told_unknown. right. split; [exact Es|by rewrite Ho].
      * apply persisted in Hop as (_ & Es & _). apply told_unknown. by left.
    + apply persisted in Hop as (_ & Es & Le). cbn [dvEngine woDevice] in Le. rewrite Le. rewrite Hst in Es, Hne.
      split; rewrite Es, ?Hn; [done|]. intros _. right. exists p. split; [exact Hp|]. intros Hf.
      destruct Hres as [[_ <-]|[Hf' _]]; done.
  - destruct (ensureResultCode_same (validatedResult quote command answer)) as (_ & _ & Hst & _). rewrite Hv in Hst. rewrite Hst in Hop.
    change (CommandUnknown =s CommandExecuted) with false in Hop.
    apply persisted in Hop as (_ & Es & _). apply told_unknown. left. by rewrite Es.
Qed.
End chain.

(** ** A small plant behind its socket *)

Module Chain.
Definition parseDuration (s : string) : option Z := if s =s "1s" then Some second else None.
Definition engine : Simulator := mkSimulator 7 (f64_of_Z 0) true [10; 10; 1] 5 2 100 10.
Definition configuration : SimulatorConfig :=
  mkSimulatorConfig "/run/plc/io.sock" "plc" "/run/plc-control/c.sock" "plc-control" "/var/lib/plc/state.json" "1s" engine.
Definition digest (c : canonical) : string := caName c.
Definition quote (s : string) : string := s.
Definition errorText (e : sim_error) : string := "error".
Definition range (m : gmap Z ModelAlarm) : list (Z * ModelAlarm) := map_to_list m.
Definition details (c : Command) (r : CommandResult) : string := crStatus r.

Lemma loaded : LoadSimulator parseDuration "/etc/plc.json" (ConfigValue configuration) = Ok configuration.
Proof. vm_compute. reflexivity. Defined.

(** At a second, a request that arrives and is answered. *)
Definition at_ (t : Z) : exchange :=
  mkExchange [OpTick (t * second) None] None (mkMeeting (t * second) None None [] (fun _ => true)) None None false.
(** One whose answer gets lost. *)
Definition lost (t : Z) : exchange :=
  mkExchange [] None (mkMeeting (t * second) None None [] (fun _ => true)) (Some "broken pipe"%string) None true.

Definition fresh : Engine :=
  match Open engine FileMissing 1 (Some "s1"%string) None with
  | Ok e => e
  | Err _ => mkEngine (initialState engine 1 "s1") FileMissing
  end.

Definition start : Command := mkCommand "c1" "start" None "" None None "".
Definition execute := Execute digest quote engine errorText Ok.

Definition points : Points :=
  mkPoints 1 false "auto" false false true false true true 5 0 2 0 0 0 0 10 0 0 100 10 [] [].
Definition seen : Snapshot := mkSnapshot SchemaVersion "s0" 4 5 "GOOD" points.
Definition meta : CommandMeta := mkCommandMeta "operator" "req-1".
Definition store : Store := (SavePLC range 0 seen 6 1000 (mkStore emptyDB true "" [])).2.
Definition world : World (D := PlcDevice) := mkWorld store (mkDevice KindSimulator fresh [at_ 1; at_ 2] [6; 6; 6; 6; 6; 6] []).

Definition outcome := process (H := plc_device digest quote engine errorText Ok "io.sock") range 0 digest quote details 1000 3 start meta world.
End Chain.
Import Chain.

(** ** Properties *)

(** A simulator that is started with a configuration that [LoadSimulator]
    accepts is never refused by the adapter: after any ticks, commands, faults
    and restarts, whatever writes fail, a read delivers exactly what the PLC
    shows at that moment, which passes [ValidateSnapshot]; it fails as
    unavailable only when the transport failed or the wait outlived the request,
    as bad data only when the body was truncated; and when nothing on the way
    fails, it succeeds. *)
Theorem the_adapter_accepts_what_the_plc_shows parseDuration path file c digest quote errorText socket now id os x :
  LoadSimulator parseDuration path file = Ok c → isZero now = false → id ≠ ""%string →
  Forall operation_ok (os ++ xcBefore x ++ mtMeanwhile (xcMeeting x)) →
  config_ok (scEngine c) ∧
  ∃ e0, Open (scEngine c) FileMissing now (Some id) None = Ok e0 ∧
    let e := runs digest quote (scEngine c) os e0 in
    let here := runs digest quote (scEngine c) (mtMeanwhile (xcMeeting x)) (runs digest quote (scEngine c) (xcBefore x) e) in
    let '(r, e') := Read digest quote (scEngine c) errorText socket x e in
    match r with
    | Ok s => s = snapshotOf (enState e') ∧ ValidateSnapshot quote s = Ok tt
    | Err (ErrUnavailable _) => xcUnsent x ≠ None ∨ xcLost x ≠ None ∨ ∃ delay, mtAlive (xcMeeting x) delay = false
    | Err (ErrBadData _) => xcTruncated x ≠ None
    | Err _ => False
    end ∧
    (xcUnsent x = None → xcLost x = None → xcTruncated x = None → (∀ delay, mtAlive (xcMeeting x) delay = true) →
     r = Ok (snapshotOf (enState here)) ∧ e' = here).
Proof.
  intros Hload Hnow Hid Hops. apply LoadSimulator_ok in Hload as (_ & Hcfg & _ & _). split; [exact Hcfg|].
  eexists. split; [reflexivity|]. set (e0 := mkEngine _ _). cbn zeta. apply Forall_app in Hops as [Hos Hx].
  assert (shown_ok (enState (runs digest quote (scEngine c) os e0))) as He.
  { apply runs_shown; [done|]. by apply (Open_shown (scEngine c) now id None). }
  generalize dependent (runs digest quote (scEngine c) os e0). intros e He.
  destruct (Read _ _ _ _ _ x e) as [r e'] eqn:Hr. pose proof (Read_spec _ _ _ _ _ x e r e' Hr Hx He) as [Hspec Hwhere].
  apply Forall_app in Hx as [Hb Hm]. assert (shown_ok (enState e')) as He'.
  { destruct Hwhere as [-> | ->]; [by apply runs_shown|]. apply runs_shown; [done|]. by apply runs_shown. }
  split.
  - destruct r as [s|[detail|detail| |detail|text]]; try done.
    + split; [exact Hspec|]. rewrite Hspec. by apply ValidateSnapshot_shown.
    + destruct Hspec as [?|[?|Hw]]; [by left|by right; left|right; right]. unfold waitContext in Hw. eexists. by apply orb_false_iff in Hw as [_ ->].
  - intros H1 H2 H3 H4. revert Hr. unfold Read, roundTrip. rewrite H1. cbn zeta. unfold ioHandler, snapshotRoute.
    change ("/v1/snapshot" =s "/healthz") with false. change ("/v1/snapshot" =s "/v1/snapshot") with true.
    change ("GET" =s "GET") with true. cbn [negb]. cbn zeta. unfold waitContext. rewrite H4, orb_true_r, H2. cbn [wrStatus wrBody negb Z.eqb Pos.eqb].
    rewrite H3, ValidateSnapshot_shown by (apply runs_shown; [done|]; by apply runs_shown). by intros [= <- <-].
Qed.

Lemma adapter_witness :
  ∃ e0, Open engine FileMissing 1 (Some "s1"%string) None = Ok e0 ∧
    ∃ s, (Read digest quote engine errorText "io.sock" (at_ 2) (runs digest quote engine [OpTick second None] e0)).1 = Ok s ∧
      ssSampleSequence s = 2.
Proof.
  destruct (the_adapter_accepts_what_the_plc_shows parseDuration "/etc/plc.json" (ConfigValue configuration) configuration digest quote errorText
    "io.sock" 1 "s1" [OpTick second None] (at_ 2) loaded) as (_ & e0 & Ho & Hr).
  - reflexivity.
  - discriminate.
  - repeat constructor; vm_compute; congruence.
  - exists e0. split; [exact Ho|]. cbn zeta in Hr. change (scEngine configuration) with engine in Hr.
    destruct (Read _ _ _ _ _ _ _) as [r e']. destruct Hr as [_ Hr].
    destruct (Hr eq_refl eq_refl eq_refl (fun _ => eq_refl)) as [-> _]. eexists. split; [reflexivity|].
    injection Ho as <-. vm_compute. reflexivity.
Defined.

(** C20. A command whose answer got lost can be sent again: if a further attempt gets
    an answer, and its id was not bound to another command, then the PLC has it on
    record as the outcome of exactly this command, an answer that the first
    attempt got was the same, and the command was applied once: either the first
    attempt did, and the second one only let the others' operations pass, or the
    first one left no trace. *)
Theorem a_lost_answer_can_be_asked_for_again digest quote cfg errorText sent command x1 x2 e r1 e1 r2 e2 :
  sent command = Ok command →
  Execute digest quote cfg errorText sent command x1 e = (r1, e1) →
  Execute digest quote cfg errorText sent command x2 e1 = (Ok r2, e2) →
  crCode r2 ≠ "idempotency_conflict"%string →
  let id := cmCommandID (NormalizeCommand command) in
  processedIn e2 id = Some (mkProcessed (CommandFingerprint digest (NormalizeCommand command)) r2) ∧
  (∀ r, r1 = Ok r → r = r2) ∧
  (processedIn e1 id ≠ None ∧ e2 = runs digest quote cfg (xcBefore x2 ++ mtMeanwhile (xcMeeting x2)) e1 ∨
   processedIn e1 id = None ∧ e1 = runs digest quote cfg (xcBefore x1) e).
Proof.
  intros Hsent H1 H2 Hc id.
  destruct (Execute_spec digest quote cfg errorText sent command x2 e1 (Ok r2) e2 Hsent H2) as [[_ [err [=]]]|(res & e2' & Ha2 & -> & [[= ->]|[err [=]]])].
  destruct (ApplyCommand_answer digest quote cfg command _ _ _ res e2' Ha2) as (p & Hp & [[Hf Hr]|(_ & _ & ?)]); [|done].
  destruct p as [fingerprint result]. cbn in Hf, Hr. subst fingerprint result.
  split; [by apply runs_keeps|]. destruct (processedIn e1 id) as [p|] eqn:Hp1.
  - pose proof (arrived_keeps digest quote cfg x2 e1 id p Hp1) as Hp2.
    destruct (ApplyCommand_known digest quote cfg command _ _ _ res e2' p Hp2 Ha2) as [-> _].
    assert (Some p = Some (mkProcessed (CommandFingerprint digest (NormalizeCommand command)) res)) as [= ->] by (rewrite <-Hp2; exact Hp).
    split; [|left; split; [done|]; unfold arrived, runs; by rewrite foldl_app].
    intros r ->. destruct (Execute_spec digest quote cfg errorText sent command x1 e (Ok r) e1 Hsent H1) as [[_ [err [=]]]|(res1 & e1' & Ha1 & He1 & [[= ->]|[err [=]]])].
    destruct (ApplyCommand_answer digest quote cfg command _ _ _ res1 e1' Ha1) as (p & Hq & Hres). subst e1.
    assert (Some p = Some (mkProcessed (CommandFingerprint digest (NormalizeCommand command)) res)) as [= ->].
    { rewrite <-Hp1. symmetry. by apply runs_keeps. }
    by destruct Hres as [[_ ?]|[? _]].
  - destruct (Execute_spec digest quote cfg errorText sent command x1 e r1 e1 Hsent H1) as [[-> [err ->]]|(res1 & e1' & Ha1 & -> & _)].
    + split; [done|]. right. by split.
    + destruct (ApplyCommand_answer digest quote cfg command _ _ _ res1 e1' Ha1) as (p & Hq & _).
      by rewrite (runs_keeps digest quote cfg (mtMeanwhile (xcMeeting x1)) e1' id p Hq) in Hp1.
Qed.

Lemma lost_witness :
  ∃ r2 e2, execute start (at_ 2) (execute start (lost 1) fresh).2 = (Ok r2, e2) ∧
    processedIn e2 "c1" = Some (mkProcessed "start" r2) ∧ ptControlRevision (psPoints (enState e2)) = 2.
Proof.
  destruct (execute start (lost 1) fresh) as [r1 e1] eqn:H1. cbn [snd]. destruct (execute start (at_ 2) e1) as [[r2|err] e2] eqn:H2.
  - exists r2, e2. split; [reflexivity|].
    destruct (a_lost_answer_can_be_asked_for_again digest quote engine errorText Ok start (lost 1) (at_ 2) fresh r1 e1 r2 e2 eq_refl H1 H2)
      as (Hp & _).
    + assert (r2 = match (execute start (at_ 2) (execute start (lost 1) fresh).2).1 with Ok r => r | Err _ => emptyResult end) as ->
        by (rewrite H1; cbn [snd]; by rewrite H2). vm_compute. congruence.
    + split; [exact Hp|]. assert (e2 = (execute start (at_ 2) (execute start (lost 1) fresh).2).2) as ->
        by (rewrite H1; cbn [snd]; by rewrite H2). vm_compute. reflexivity.
  - exfalso. assert ((execute start (at_ 2) (execute start (lost 1) fresh).2).1 = Err err) as H by (rewrite H1; cbn [snd]; by rewrite H2).
    vm_compute in H. discriminate H.
Defined.

(** C7. What the queue answers about a new command is true of the PLC behind the
    adapter, whatever happens on the way and whatever others do to the PLC
    meanwhile: EXECUTED is exactly the result that the PLC has on record for this
    command, and the state it showed then confirms it; after REJECTED or FAILED,
    unless a readback was the reason, the PLC was not touched, or has no other
    outcome of this command on record.  A command whose id the database knows does
    not reach the PLC. *)
Theorem an_outcome_tells_what_the_plc_did digest quote cfg errorText sent socket range wall details stale budget raw meta
    (w : World (D := PlcDevice)) outcome err w' :
  let command := NormalizeCommand raw in
  let e := dvEngine (woDevice w) in
  let e' := dvEngine (woDevice w') in
  let fingerprint := CommandFingerprint digest command in
  let r := ouResult outcome in
  dvKind (woDevice w) = KindSimulator → sent command = Ok command → shown_ok (enState e) → Forall meeting_ok (dvExchanges (woDevice w)) →
  process (H := plc_device digest quote cfg errorText sent socket) range wall digest quote details stale budget command meta w =
    ((outcome, err, false), w') →
  match dbCommands (stDB (woStore w)) !! cmCommandID command with
  | Some _ => e' = e
  | None =>
      (crStatus r = CommandExecuted →
         processedIn e' (cmCommandID command) = Some (mkProcessed fingerprint r) ∧ confirm command r (snapshotOf (enState e')) = Ok tt) ∧
      (crStatus r = CommandRejected ∨ crStatus r = CommandFailed ∧ crCode r ≠ "readback_failed"%string →
         e' = e ∨ ∃ p, processedIn e' (cmCommandID command) = Some p ∧ (pcFingerprint p = fingerprint → crStatus (pcResult p) = crStatus r))
  end.
Proof.
  intros command e e' fingerprint r Hk Hsent He Hxs Hp. assert (NormalizeCommand command = command) as Hn by apply NormalizeCommand_idem.
  unfold process, onDevice in Hp. cbn [devNow plc_device] in Hp. set (now := default 0 _) in Hp. set (w1 := mkWorld _ _) in Hp.
  pose proof (BeginCommand_atomic digest command meta now (woStore w)) as Hb. unfold wp in Hb. rewrite Hn in Hb.
  unfold onStore in Hp. change (woStore w1) with (woStore w) in Hp.
  pose proof (BeginCommand_conflict digest command meta now (woStore w)) as Hcf. rewrite Hn in Hcf.
  destruct (BeginCommand digest command meta now (woStore w)) as [[record|[]] s2]; try discriminate Hp.
  - unfold begun in Hb. destruct (dbCommands (stDB (woStore w)) !! cmCommandID command) as [row|] eqn:Hrow.
    + destruct Hb as (_ & _ & Hex & _). rewrite Hex in Hp. destruct (LoadSnapshot _) as [[s|le] s3]; by injection Hp as _ _ <-.
    + destruct Hb as [Hex _]. rewrite Hex in Hp.
      pose proof (operate_told digest quote cfg errorText sent socket range wall details stale budget command meta
        (mkWorld s2 (woDevice w1)) outcome err w' Hk Hsent Hn He Hxs Hp) as [T1 T2]. rewrite Hn in T1, T2. by split.
  - injection Hp as _ _ <-. specialize (Hcf eq_refl). by destruct Hcf as [row ->].
Qed.

Lemma outcome_witness :
  ∃ o err w', outcome = ((o, err, false), w') ∧ crStatus (ouResult o) = "EXECUTED"%string ∧
    processedIn (dvEngine (woDevice w')) "c1" = Some (mkProcessed "start" (ouResult o)).
Proof.
  destruct outcome as [[[o err] fatal] w'] eqn:Ho.
  assert (fatal = outcome.1.2) as -> by (by rewrite Ho). assert (outcome.1.2 = false) as Hf by (vm_compute; reflexivity).
  rewrite Hf in Ho |- *. exists o, err, w'. split; [reflexivity|].
  assert (crStatus (ouResult o) = "EXECUTED"%string) as Hs.
  { transitivity (crStatus (ouResult outcome.1.1.1)); [by rewrite Ho|vm_compute; reflexivity]. }
  split; [exact Hs|].
  pose proof (an_outcome_tells_what_the_plc_did digest quote engine errorText Ok "io.sock" range 0 details 1000 3 start meta world o err w'
    eq_refl eq_refl) as H.
  cbv zeta in H. change (dbCommands (stDB (woStore world)) !! cmCommandID (NormalizeCommand start)) with (@None CommandRow) in H.
  apply H; [|repeat constructor; vm_compute; congruence|exact Ho|exact Hs].
  by apply (Open_shown engine 1 "s1" None).
Defined.

(** A path is checked without the spaces around it, but used with them: a
    configuration is accepted although its state file is not an absolute path. *)
Theorem a_padded_path_is_accepted :
  let c := mkSimulatorConfig "/run/plc/io.sock" "plc" "/run/plc-control/c.sock" "plc-control" " /var/lib/plc/state.json" "1s" engine in
  LoadSimulator parseDuration "/etc/plc.json" (ConfigValue c) = Ok c ∧ hasPrefix (scStateFile c) "/" = false.
Proof. vm_compute. done. Qed.
